(* ===== verification/_CoqProject ===== *)
-Q . S2P
Prelude.v
State.v
Spinlock.v
Cstring.v
Riscv.v
Kalloc.v
Vm.v
VmFacts.v
UserMem.v
VmCopy.v
Proc.v
Rwlock.v
ProcFacts.v
Rcu.v
Klist.v
KlistFacts.v
Sleeplock.v
Quiet.v
Bio.v
BioFacts.v
BioSpec.v
Virtio.v
VirtioFacts.v
Log.v
LogFacts.v
LogSpec.v
Fs.v
FsFacts.v
PathFacts.v
InodeFacts.v
FileFacts.v
DirFacts.v
NameFacts.v
GrowFacts.v
WriteFacts.v
Uart.v
Console.v
ConsoleFacts.v
PrintFacts.v
Pipe.v
PipeFacts.v
File.v
FileSpec.v
ProcLife.v
Exec.v
Sysfile.v
Syscall.v
SyscallFacts.v
Trap.v
Asm.v
User.v
Ulib.v
Ttest.v
Uprintf.v
Grind.v
Grep.v
Uprogs.v
Umalloc.v
Ulist.v
Sh.v
ShFacts.v
ShRound.v
ShRun.v
Mkfs.v
MkfsFacts.v
MkfsSpec.v
MkfsBoot.v
