(* ===== verification/Prelude.v ===== *)
(** * xv6-riscv with RCU: a verification development

    The program is a small Unix system for a RISC-V multiprocessor, extended with
    read-copy-update, a kernel linked list in two versions, reader-writer locks
    and kernel threads.  This library translates the kernel ([src/kernel]), the
    user library and programs ([src/user]) and the program that makes the disk
    image ([src/mkfs]) function by function and proves what the parts promise.

    ** How the code is modelled

    A C function of the kernel is a computation of the monad [M kstate] below: it
    takes the state of the kernel and ends in an [outcome].  [Done] is a return,
    [Panic] a call of [panic], [Fault] an access that the machine or the language
    does not allow (a null pointer, an index outside an array), [Spin] a busy loop
    that only another hart can end, [NoFuel] the end of a loop bound, and [Swtch] a
    switch to the scheduler with the rest of the thread as its continuation.
    C integers are [Z] with the conversions ([u32], [s32], [u64], ...) written
    where the compiler inserts them.  [State.v] has one record per struct and
    the record [kstate] of all global variables, the harts and physical memory;
    what the code gets from [kalloc] (page tables, pipes, list nodes, trap
    frames) is bytes of that memory at the offsets of the C structs.

    A user function is a tree of system calls, [uprog] of [User.v]: it returns,
    exits, makes a call and goes on with the answer, leaves its memory ([Segv]) or
    exceeds the bound of a loop ([Hang]).  [os] is a system that answers calls.
    The assembly runs on a hart with registers and memory ([Asm.v]).  [mkfs] is a
    computation of [M mkfs], where the state is the image it writes.

    ** The kernel

    - [State.v], [Spinlock.v], [Sleeplock.v], [Quiet.v]: data; [spinlock.c];
      [sleeplock.c]; the effect of the locking calls when nothing contends.
    - [Cstring.v], [Riscv.v]: [string.c] and the machine's loads and stores; the
      address arithmetic of [riscv.h].
    - [Kalloc.v], [Vm.v], [VmFacts.v], [UserMem.v], [VmCopy.v]: [kalloc.c] and
      [vm.c].
    - [Proc.v], [ProcFacts.v], [ProcLife.v]: [proc.c]; the last one has the
      operations that use files ([fork], [exit], the thread calls).
    - [Rwlock.v], [Rcu.v], [Klist.v], [KlistFacts.v]: [rwlock.c], [rcu.c] and
      the RCU calls of [sysproc.c], [klinkedlist.c].
    - [Bio.v], [BioFacts.v], [BioSpec.v]: [bio.c]; [Virtio.v], [VirtioFacts.v]:
      [virtio_disk.c]; [Log.v], [LogFacts.v], [LogSpec.v]: [log.c].
    - [Fs.v] is [fs.c]; its theorems are in [FsFacts.v] (blocks), [InodeFacts.v]
      (inodes on the disk), [FileFacts.v] (contents of files), [DirFacts.v]
      (directories), [PathFacts.v] and [NameFacts.v] (paths and the inode table),
      [GrowFacts.v] (files that get new blocks) and [WriteFacts.v] ([writei]).
    - [Uart.v], [Console.v], [ConsoleFacts.v], [PrintFacts.v]: [uart.c],
      [console.c], [printf.c].
    - [Pipe.v], [PipeFacts.v]: [pipe.c]; [File.v], [FileSpec.v]: [file.c].
    - [Exec.v], [Sysfile.v], [Syscall.v], [SyscallFacts.v], [Trap.v]: [exec.c],
      [sysfile.c], [sysproc.c] and [syscall.c], [trap.c] with [plic.c],
      [start.c] and [main.c].
    - [Asm.v]: [entry.S], [swtch.S], [trampoline.S], [kernelvec.S],
      [user/initcode.S] and the stubs that [user/usys.pl] writes.

    ** The user side

    - [User.v], [Ulib.v], [Uprintf.v]: programs; [ulib.c]; [printf.c].
    - [Umalloc.v], [Ulist.v]: [umalloc.c], and [linkedlist.c] on top of it.
    - [Ttest.v]: the lock of [ulib.c] and the workers of [ttest.c], interleaved.
    - [Sh.v], [ShFacts.v], [ShRound.v], [ShRun.v]: [sh.c].
    - [Grep.v], [Uprogs.v], [Grind.v]: [grep.c]; [cat.c], [echo.c], [wc.c], [ls.c],
      [init.c], [kill.c], [ln.c], [mkdir.c], [rm.c], [zombie.c], [forktest.c],
      [stressfs.c] and [testrcu.c]; [grind.c].
    - [Mkfs.v], [MkfsFacts.v], [MkfsSpec.v], [MkfsBoot.v]: [mkfs.c], the image it
      writes, and a kernel that reads that image.

    ** Interfaces

    [BlockDev] is the disk as [bio.c] calls it, with its law [BlockDevOk]; the
    cache and all that is above it are proved against the law, [ideal_disk]
    satisfies it, and [VirtioFacts.v] shows that the driver, the device and its
    interrupt perform such a transfer.  [KernelImage] has the addresses that the
    linker chooses, with the laws [KernelImageOk].  [VirtioDevice] is the device
    behind the registers of the disk driver.  [Streams], [Break] and [RcuSystem]
    are what user programs rely on of the system; [Host] is the machine that runs
    [mkfs].

    ** What the theorems show

    - RCU: where [synchronize_rcu] and [sys_rcusync] run; a reader cannot be
      preempted; in every run of harts and scheduler, the end of the loop over
      all harts implies the end of the reader sections open at its start
      ([Rcu.Grace]); with fewer cpus in the loop a reader is missed.
    - Reader-writer lock: mutual exclusion in every interleaving of the atomic
      accesses of any number of threads ([Rwlock.Conc]).
    - Linked lists: the RCU operations of the kernel implement those of a list,
      when nothing else changes it meanwhile; runs in which an insertion is lost,
      memory is exhausted, or [deleteNode_lock] removes a node with another key.
      The user list does what it means for a list of values, on the allocator.
    - Memory: the exact effect of the page allocator; page tables refine a map
      from virtual pages; copies to and from user space; [uvmcopy] gives a child
      its own copy of its parent's memory.
    - Processes: no wakeup is lost; whom the scheduler runs; [kill].  The trap
      entry and exit and [swtch] save and restore every register.
    - Buffer cache and disk: [binit] establishes and [bread], [brelse] keep an
      invariant under which clients see only the logical contents of the blocks;
      the panic when no buffer is free; the driver and its interrupt handler.
    - Log: a transaction is atomic, also when the machine stops at any of its
      stores and recovers; the bounds of the log, and that the reservation of
      [begin_op] exceeds the log that [mkfs] makes.
    - File system: [balloc], [bfree] and [iupdate] inside a transaction; [readi]
      reads the bytes of a file; [writei] writes them, with the direct and indirect
      blocks that a growing file needs, until the disk is full, and logs no more
      blocks than its transaction has reserved; [dirlookup] and [dirlink]
      read and extend a directory as a map; [namex] walks a tree of directories
      and leaves every reference count and lock as it should be.
    - Writing a file: [filewrite] takes the bytes from the memory of the process
      to the disk in as many transactions as it needs; wherever the machine
      stops, recovery finds the file with the first of the bytes written.
    - [mkfs]: what the kernel decodes from the image is the given files; a kernel
      on the image reads them back.
    - Console, pipes, printing, dispatch: the line editor, the bounded queue,
      numbers that read back, the table of system calls.
    - User programs: the allocator keeps its heap sound; the shell's parser ends,
      reads back what is printed, and a command is run as planned; [grep] matches
      what its patterns describe; the workers of [ttest.c] lose no addition and
      finish under every fair schedule; the generator of [grind.c].

    The theorems about one operation of the kernel are about uncontended runs
    ([calm]): the process runs on the current hart and no other hart holds a lock
    meanwhile.  Concurrency is treated where the code is about it: [Rwlock.Conc],
    [Rcu.Grace], [Ttest.v], and [sleep]/[wakeup], where the rest of the machine is
    arbitrary within what the scheduler guarantees.

    ** Fuel

    Loops that are not over a known range run on fuel.  In the kernel it is
    computed from the arguments: the number of pages of a range ([mappages_fuel],
    [copy_fuel], [freerange_fuel]), of blocks ([io_fuel]), of directory entries
    ([dir_fuel]), of characters of a path, or of pages of RAM for lists of pages
    ([list_fuel], [free_pages_fuel]).  User functions take it as an argument, with
    a bound in the theorem: the length of the line for the parser, the number of
    free blocks for the allocator, the operations and nodes for the list.  The
    theorems on these loops conclude a [Done] or a [Returned], so the fuel is
    enough in them.  [WaitBound] bounds how often a loop around [sleep] is woken up
    in vain.  [init], [grind] and the shell do not end; their models follow them
    for the given number of turns.

    ** Not modelled

    - The weak memory model: accesses are sequentially consistent.
    - [user/usertests.c], a client that runs fixed sequences of system calls to
      test the kernel, and the main function of [ttest.c].
    - [ramdisk.c] and [klinkedlist_lock.c], which are not built.
    - The accessors of control registers of [riscv.h] that are single instructions;
      the registers are fields of the state where the code uses them.
    - The hardware of the disk and of the timer, beyond their registers.
    - Definitions without theorems of their own: the system calls on files,
      [exec], the C part of the trap handlers and start-up are translated and
      executable, and are not the subject of a theorem. *)

From Stdlib Require Export ZArith Lia.
From stdpp Require Export base tactics list gmap strings fin_maps.

#[global] Open Scope Z_scope.

(** [lia] reasons about [/] and [mod] by constants. *)
Ltac Zify.zify_post_hook ::= Z.div_mod_to_equations.

(** ** Machine integers

    C integers are kept as [Z].  A value of a [w]-bit unsigned type is in
    [0 .. 2^w - 1]; the functions below are the conversions the compiler
    inserts, i.e. reduction modulo [2^w], and, for the signed types, the two's
    complement reading of the result. *)

Definition u8 (x : Z) : Z := x mod 2 ^ 8.
Definition u16 (x : Z) : Z := x mod 2 ^ 16.
Definition u32 (x : Z) : Z := x mod 2 ^ 32.
Definition u64 (x : Z) : Z := x mod 2 ^ 64.

Definition signed (w : Z) (x : Z) : Z :=
  let y := x mod 2 ^ w in
  if y <? 2 ^ (w - 1) then y else y - 2 ^ w.

Definition s8 (x : Z) : Z := signed 8 x.
Definition s16 (x : Z) : Z := signed 16 x.
Definition s32 (x : Z) : Z := signed 32 x.

Lemma s32_id x : - 2 ^ 31 ≤ x < 2 ^ 31 → s32 x = x.
Proof. intros H. unfold s32, signed. destruct (Z.ltb_spec (x mod 2 ^ 32) (2 ^ (32 - 1))); lia. Qed.

(** ** Outcomes and the kernel monad

    A kernel function is a state transformer.  Besides returning, it can
    - [Panic]: call [panic()], which prints a message and stops the machine;
    - [Fault]: dereference a null or wild pointer (a kernel page fault, which
      [kerneltrap] turns into a panic);
    - [Spin]: spin for ever on a lock that nobody else can release in this
      sequential run;
    - [NoFuel]: exceed the bound given to a loop of the model;
    - [Swtch]: switch to the scheduler.  The rest of the function is the
      continuation, resumed in whatever state the rest of the machine left. *)

Inductive outcome (S A : Type) : Type :=
| Done (a : A) (s : S)
| Panic (msg : string) (s : S)
| Fault (s : S)
| Spin (s : S)
| NoFuel
| Swtch (s : S) (k : S → outcome S A).

Arguments Done {S A} a s.
Arguments Panic {S A} msg s.
Arguments Fault {S A} s.
Arguments Spin {S A} s.
Arguments NoFuel {S A}.
Arguments Swtch {S A} s k.

Fixpoint obind {S A B : Type} (o : outcome S A) (f : A → S → outcome S B)
    : outcome S B :=
  match o with
  | Done a s => f a s
  | Panic msg s => Panic msg s
  | Fault s => Fault s
  | Spin s => Spin s
  | NoFuel => NoFuel
  | Swtch s k => Swtch s (λ s', obind (k s') f)
  end.

Definition M (S A : Type) : Type := S → outcome S A.

#[global] Instance M_ret {S} : MRet (M S) := λ A a s, Done a s.
#[global] Instance M_bind {S} : MBind (M S) := λ A B f m s, obind (m s) f.

Definition gets {S A} (f : S → A) : M S A := λ s, Done (f s) s.
Definition modify {S} (f : S → S) : M S unit := λ s, Done tt (f s).
Definition panic {S A} (msg : string) : M S A := λ s, Panic msg s.
Definition fault {S A} : M S A := λ s, Fault s.
Definition spin {S A} : M S A := λ s, Spin s.
Definition nofuel {S A} : M S A := λ _, NoFuel.

(** [opt_or_fault o] is the dereference of a pointer that may be null. *)
Definition opt_or_fault {S A} (o : option A) : M S A :=
  match o with Some a => mret a | None => fault end.

Definition when {S} (b : bool) (m : M S unit) : M S unit :=
  if b then m else mret tt.

(** A [for] loop over a table: run [body] on each element. *)
Fixpoint for_each {S A} (l : list A) (body : A → M S unit) : M S unit :=
  match l with
  | [] => mret tt
  | x :: l => body x;; for_each l body
  end.

(** A [for] loop with an early exit ([return], [break] or [goto]): stop at the
    first element on which [body] gives a value. *)
Fixpoint for_find {S A R} (l : list A) (body : A → M S (option R))
    : M S (option R) :=
  match l with
  | [] => mret None
  | x :: l =>
      r ← body x;
      match r with Some v => mret (Some v) | None => for_find l body end
  end.

(** A [for] loop that updates a local variable and may exit early. *)
Fixpoint for_acc {S A X R} (l : list A) (x : X) (body : A → X → M S (X + R)) : M S (X + R) :=
  match l with
  | [] => mret (inl x)
  | a :: l =>
      r ← body a x;
      match r with inl x' => for_acc l x' body | inr v => mret (inr v) end
  end.

(** A [while] loop: [body] gives the next loop state or the loop's result.
    [fuel] bounds the number of iterations of the model. *)
Fixpoint loop {S X R} (fuel : nat) (body : X → M S (X + R)) (x : X) : M S R :=
  match fuel with
  | O => nofuel
  | Datatypes.S fuel =>
      r ← body x;
      match r with inl x' => loop fuel body x' | inr v => mret v end
  end.

(** ** Reasoning about outcomes

    [owp R o Q]: the computation returns, in a state and with a value that
    satisfy [Q], provided that between each switch to the scheduler and the
    following resumption the rest of the machine respects the rely relation
    [R].  Panics, faults, spinning and running out of fuel are excluded. *)

Fixpoint owp {S A} (R : S → S → Prop) (o : outcome S A) (Q : A → S → Prop)
    : Prop :=
  match o with
  | Done a s => Q a s
  | Swtch s k => ∀ s', R s s' → owp R (k s') Q
  | _ => False
  end.

Definition wp {S A} (R : S → S → Prop) (m : M S A) (Q : A → S → Prop) (s : S)
    : Prop := owp R (m s) Q.

(** The same, with the states the computation was resumed in, oldest first,
    given to the postcondition. *)
Fixpoint howp {S A} (R : S → S → Prop) (o : outcome S A) (h : list S)
    (Q : A → S → list S → Prop) : Prop :=
  match o with
  | Done a s => Q a s h
  | Swtch s k => ∀ s', R s s' → howp R (k s') (h ++ [s']) Q
  | _ => False
  end.

(** [returns o]: the computation returns without a context switch. *)
Definition returns {S A} (o : outcome S A) : Prop := ∃ a s, o = Done a s.

Section Outcomes.
Context {S : Type}.
Implicit Types (s : S).

Lemma bind_Done {A B} (m : M S A) (f : A → M S B) s a s' :
    m s = Done a s' → (m ≫= f) s = f a s'.
Proof. intros H. unfold mbind, M_bind. by rewrite H. Qed.

Lemma bind_Swtch {A B} (m : M S A) (f : A → M S B) s s' k :
    m s = Swtch s' k → (m ≫= f) s = Swtch s' (λ s2, obind (k s2) f).
Proof. intros H. unfold mbind, M_bind. by rewrite H. Qed.

Lemma owp_bind R {A B} (o : outcome S A) (f : A → S → outcome S B) Q :
    owp R o (λ a s, owp R (f a s) Q) → owp R (obind o f) Q.
Proof.
    induction o as [| | | | |s k IH]; simpl; try done.
    intros H s' HR. apply IH, H, HR.
Qed.

Lemma owp_mono R {A} (o : outcome S A) (Q Q' : A → S → Prop) :
    owp R o Q → (∀ a s, Q a s → Q' a s) → owp R o Q'.
Proof.
    intros H HQ. induction o as [a s| | | | |s k IH]; simpl in *; try done.
    - by apply HQ.
    - intros s' HR. apply IH, H, HR.
Qed.

Lemma owp_rely (R R' : S → S → Prop) {A} (o : outcome S A) Q :
    owp R o Q → (∀ s s', R' s s' → R s s') → owp R' o Q.
Proof.
    intros H HR. induction o as [a s| | | | |s k IH]; simpl in *; try done.
    intros s' HR'. apply IH, H, HR, HR'.
Qed.

Lemma howp_bind R {A B} (o : outcome S A) (f : A → S → outcome S B) h Q :
    howp R o h (λ a s h', howp R (f a s) h' Q) → howp R (obind o f) h Q.
Proof.
    revert h. induction o as [| | | | |s k IH]; intros h; simpl; try done.
    intros H s' HR. apply IH, H, HR.
Qed.

Lemma howp_mono R {A} (o : outcome S A) h (Q Q' : A → S → list S → Prop) :
    howp R o h Q → (∀ a s h', Q a s h' → Q' a s h') → howp R o h Q'.
Proof.
    revert h. intros h H HQ. revert h H. induction o as [a s| | | | |s k IH]; intros h H; simpl in *; try done.
    - by apply HQ.
    - intros s' HR. apply IH, H, HR.
Qed.

Lemma wp_bind R {A B} (m : M S A) (f : A → M S B) Q s :
    wp R m (λ a s', wp R (f a) Q s') s → wp R (m ≫= f) Q s.
Proof. apply owp_bind. Qed.

Lemma wp_mono R {A} (m : M S A) (Q Q' : A → S → Prop) s :
    wp R m Q s → (∀ a s', Q a s' → Q' a s') → wp R m Q' s.
Proof. apply owp_mono. Qed.

Lemma wp_Done R {A} (m : M S A) Q s a s' :
    m s = Done a s' → Q a s' → wp R m Q s.
Proof. unfold wp. by intros ->. Qed.

Lemma seq3_Done {A} (a b c : M S unit) (k : M S A) s s' :
    (a;; b;; c) s = Done tt s' → (a;; b;; c;; k) s = k s'.
Proof.
    unfold mbind, M_bind. destruct (a s) as [[] s1| | | | |]; try discriminate. cbn [obind].
    destruct (b s1) as [[] s2| | | | |]; try discriminate. cbn [obind]. by intros ->.
Qed.

(** A loop whose iterations all return. *)
Lemma for_each_Done {A} (l : list A) (body : A → M S unit) (step : A → S → S) s :
    (∀ x s, x ∈ l → body x s = Done tt (step x s)) →
    for_each l body s = Done tt (foldl (λ s x, step x s) s l).
Proof.
    revert s; induction l as [|x l IH]; intros s H; simpl; [done|].
    erewrite bind_Done; [|apply H, list_elem_of_here].
    apply IH. intros y s' Hy. apply H. by apply list_elem_of_further.
Qed.

End Outcomes.

(** ** Lists updated in place *)

Section ListAlter.
Context {A : Type}.
Implicit Types (l : list A) (i : nat).

Lemma list_alter_alter (f g : A → A) l i : alter f i (alter g i l) = alter (f ∘ g) i l.
Proof.
  apply list_eq. intros j. destruct (decide (i = j)) as [->|Hne].
  - rewrite !list_lookup_alter_eq. by destruct (l !! j).
  - by rewrite !list_lookup_alter_ne.
Qed.

Lemma list_alter_agree (f g : A → A) l i :
  (∀ x, l !! i = Some x → f x = g x) → alter f i l = alter g i l.
Proof.
  intros H. apply list_eq. intros j. rewrite !list_lookup_alter.
  destruct (decide (i = j)) as [->|]; [|done].
  destruct (l !! j) as [x|] eqn:Hx; [|done]. simpl. by rewrite H.
Qed.

Lemma list_alter_same (f : A → A) l i :
  (∀ x, l !! i = Some x → f x = x) → alter f i l = l.
Proof.
  intros H. apply list_eq. intros j. rewrite list_lookup_alter.
  destruct (decide (i = j)) as [->|]; [|done].
  destruct (l !! j) as [x|] eqn:Hx; [|done]. simpl. by rewrite H.
Qed.

End ListAlter.

Lemma mapM_app_option {A B} (f : A → option B) l k :
  mapM f (l ++ k) = b ← mapM f l; c ← mapM f k; Some (b ++ c).
Proof.
  induction l as [|x l IH]; simpl; [by destruct (mapM f k)|].
  destruct (f x); simpl; [|done]. rewrite IH. destruct (mapM f l); simpl; [|done].
  by destruct (mapM f k).
Qed.

Lemma list_filter_agree {A} (P Q : A → Prop) `{!∀ x, Decision (P x), !∀ x, Decision (Q x)} (l : list A) :
  (∀ x, x ∈ l → P x ↔ Q x) → filter P l = filter Q l.
Proof.
  induction l as [|x l IH]; intros Hpq; [done|]. rewrite !filter_cons.
  assert (filter P l = filter Q l) as -> by (apply IH; intros y Hy; apply Hpq; by right).
  destruct (decide (P x)) as [Hp|Hp], (decide (Q x)) as [Hq|Hq]; try done.
  - destruct Hq. apply Hpq; [left|done].
  - destruct Hp. apply Hpq; [left|done].
Qed.
