(* ===== verification/State.v ===== *)
(** * Kernel data: the C structs, the global variables and the machine state

    One record per C struct ([kernel/proc.h], [spinlock.h], [sleeplock.h],
    [buf.h], [file.h], [fs.h]) and one record [kstate] for the variables of the
    kernel, the harts and physical memory.  A pointer to an element of a static
    table ([proc], [itable.inode], [ftable.file], [bcache.buf]) is its index;
    a pointer into RAM (what [kalloc] returns) is its address.  Spin locks and
    sleep locks live in maps of their own, keyed by the name of the lock, in
    place of the struct they are embedded in. *)

From S2P Require Import Prelude.

(** ** Parameters of the kernel ([kernel/param.h], [kernel/memlayout.h]) *)

Definition NPROC : nat := 64.
Definition NCPU : nat := 8.
Definition NOFILE : nat := 16.
Definition NFILE : nat := 100.
Definition NINODE : nat := 50.
Definition NDEV : Z := 10.
Definition ROOTDEV : Z := 1.
Definition MAXARG : nat := 32.
Definition MAXOPBLOCKS : Z := 10.
Definition LOGSIZE : Z := MAXOPBLOCKS * 3.
Definition NBUF : nat := 30.
Definition FSSIZE : Z := 2000.
Definition MAXPATH : Z := 128.

Definition PGSIZE : Z := 4096.
Definition PGSHIFT : Z := 12.
Definition MAXVA : Z := Z.shiftl 1 (9 + 9 + 9 + 12 - 1).
Definition UART0 : Z := 0x10000000.
Definition UART0_IRQ : Z := 10.
Definition VIRTIO0 : Z := 0x10001000.
Definition VIRTIO0_IRQ : Z := 1.
Definition PLIC : Z := 0x0c000000.
Definition PLIC_SENABLE (hart : Z) : Z := PLIC + 0x2080 + hart * 0x100.
Definition PLIC_SPRIORITY (hart : Z) : Z := PLIC + 0x201000 + hart * 0x2000.
Definition PLIC_SCLAIM (hart : Z) : Z := PLIC + 0x201004 + hart * 0x2000.
Definition CLINT : Z := 0x2000000.
Definition CLINT_MTIMECMP (hartid : Z) : Z := CLINT + 0x4000 + 8 * hartid.
Definition CLINT_MTIME : Z := CLINT + 0xBFF8.
Definition CONSOLE : Z := 1.
Definition KERNBASE : Z := 0x80000000.
Definition PHYSTOP : Z := KERNBASE + 128 * 1024 * 1024.
Definition TRAMPOLINE : Z := MAXVA - PGSIZE.
Definition TRAPFRAME : Z := TRAMPOLINE - PGSIZE.
Definition KSTACK (p : Z) : Z := TRAMPOLINE - (p + 1) * 2 * PGSIZE.

(** ** Symbols of the kernel image

    Addresses that [kernel/kernel.ld] and the assembly files define. *)

Class KernelImage : Type := {
  kend : Z;            (** [end]: first address after the kernel *)
  etext : Z;           (** end of the kernel's code *)
  trampoline : Z;      (** start of trampoline.S *)
  uservec : Z;
  userret : Z;
  kernelvec : Z;
  usertrap_addr : Z;   (** [(uint64)usertrap] *)
  forkret_addr : Z;    (** [(uint64)forkret] *)
  main_addr : Z;       (** [(uint64)main] *)
  timervec : Z;        (** machine-mode timer interrupt vector *)
  timer_scratch : Z    (** the scratch areas of [start.c] *)
}.

(** What the linker script guarantees of them. *)
Class KernelImageOk `{!KernelImage} : Prop := {
  etext_range : KERNBASE < etext ≤ kend;
  etext_align : etext mod PGSIZE = 0;
  kend_range : kend < PHYSTOP;
  trampoline_range : KERNBASE ≤ trampoline < etext;
  trampoline_align : trampoline mod PGSIZE = 0
}.

(** The addresses of the kernel image of the repository ([kernel/kernel.sym]). *)
Definition image0 : KernelImage := {|
  kend := 0x80022078; etext := 0x80008000; trampoline := 0x80007000;
  uservec := 0x80007000; userret := 0x8000709c; kernelvec := 0x800060d0;
  usertrap_addr := 0x80002b8c; forkret_addr := 0x80001a00;
  main_addr := 0x80000e94; timervec := 0x80006160; timer_scratch := 0x800089f0 |}.

#[global] Instance image0_ok : @KernelImageOk image0.
Proof. by split. Qed.

(** How many times a loop of the kernel that sleeps until a condition holds may
    be woken up without finding it true; nothing in the code bounds it. *)
Class WaitBound : Type := wakeups : nat.

(** ** Names of locks and wait channels *)

Inductive slid : Type :=
| SL_buf (i : nat)
| SL_inode (i : nat).

Inductive lockid : Type :=
| L_kmem | L_pid | L_wait | L_tick | L_list | L_bcache | L_itable | L_ftable
| L_log | L_cons | L_uart_tx | L_pr | L_vdisk
| L_proc (i : nat)
| L_pipe (pa : Z)
| L_sl (l : slid).

(** [void *chan]: the addresses the kernel sleeps on. *)
Inductive chan : Type :=
| Ch_null | Ch_ticks | Ch_log | Ch_cons_r | Ch_uart_tx_r | Ch_disk_free
| Ch_proc (i : option nat)
| Ch_sl (l : slid)
| Ch_pipe_nread (pa : Z)
| Ch_pipe_nwrite (pa : Z)
| Ch_buf (i : nat).

#[global] Instance slid_eq_dec : EqDecision slid.
Proof. solve_decision. Defined.

#[global] Instance lockid_eq_dec : EqDecision lockid.
Proof. solve_decision. Defined.

#[global] Instance chan_eq_dec : EqDecision chan.
Proof. solve_decision. Defined.

#[global] Instance slid_countable : Countable slid.
Proof.
  refine (inj_countable' (λ l, match l with SL_buf i => (0, i) | SL_inode i => (1, i) end)
    (λ p, if decide (p.1 = 0) then SL_buf p.2 else SL_inode p.2) _).
  by intros [].
Defined.

Definition lockid_enc (l : lockid) : Z * Z * option slid :=
  match l with
  | L_kmem => (0, 0, None) | L_pid => (1, 0, None) | L_wait => (2, 0, None)
  | L_tick => (3, 0, None) | L_list => (4, 0, None) | L_bcache => (5, 0, None)
  | L_itable => (6, 0, None) | L_ftable => (7, 0, None) | L_log => (8, 0, None)
  | L_cons => (9, 0, None) | L_uart_tx => (10, 0, None) | L_pr => (11, 0, None)
  | L_vdisk => (12, 0, None)
  | L_proc i => (13, Z.of_nat i, None)
  | L_pipe pa => (14, pa, None)
  | L_sl l => (15, 0, Some l)
  end.

Definition lockid_dec (c : Z * Z * option slid) : option lockid :=
  match c with
  | (0, _, _) => Some L_kmem | (1, _, _) => Some L_pid | (2, _, _) => Some L_wait
  | (3, _, _) => Some L_tick | (4, _, _) => Some L_list | (5, _, _) => Some L_bcache
  | (6, _, _) => Some L_itable | (7, _, _) => Some L_ftable | (8, _, _) => Some L_log
  | (9, _, _) => Some L_cons | (10, _, _) => Some L_uart_tx | (11, _, _) => Some L_pr
  | (12, _, _) => Some L_vdisk
  | (13, i, _) => Some (L_proc (Z.to_nat i))
  | (14, pa, _) => Some (L_pipe pa)
  | (15, _, Some l) => Some (L_sl l)
  | _ => None
  end.

#[global] Instance lockid_countable : Countable lockid.
Proof.
  refine (inj_countable lockid_enc lockid_dec _).
  intros []; simpl; try done. by rewrite Nat2Z.id.
Defined.

(** ** Structs *)

Inductive procstate : Type := UNUSED | USED | SLEEPING | RUNNABLE | RUNNING | ZOMBIE.

#[global] Instance procstate_eq_dec : EqDecision procstate.
Proof. solve_decision. Defined.

Inductive filetype : Type := FD_NONE | FD_PIPE | FD_INODE | FD_DEVICE.

#[global] Instance filetype_eq_dec : EqDecision filetype.
Proof. solve_decision. Defined.

(** One call of [printf]: the format string and its arguments. *)
Inductive printf_arg : Type := PInt (n : Z) | PStr (s : list Z).
Inductive event : Type := Printf (fmt : string) (args : list printf_arg).


(** [struct spinlock] ([kernel/spinlock.h]) *)
Record spinlock : Type := mk_spinlock {
  locked : Z;  (** is the lock held? *)
  lk_name : string;  (** name of lock *)
  lk_cpu : option nat  (** the cpu holding the lock *)
}.

Definition set_locked (v : Z) (r : spinlock) : spinlock :=
  mk_spinlock v (r.(lk_name)) (r.(lk_cpu)).
Definition set_lk_name (v : string) (r : spinlock) : spinlock :=
  mk_spinlock (r.(locked)) v (r.(lk_cpu)).
Definition set_lk_cpu (v : option nat) (r : spinlock) : spinlock :=
  mk_spinlock (r.(locked)) (r.(lk_name)) v.


(** [struct sleeplock] ([kernel/sleeplock.h]); its inner spin lock is [L_sl] *)
Record sleeplock : Type := mk_sleeplock {
  sl_locked : Z;  (** is the lock held? *)
  sl_name : string;  (** name of lock *)
  sl_pid : Z  (** process holding lock *)
}.

Definition set_sl_locked (v : Z) (r : sleeplock) : sleeplock :=
  mk_sleeplock v (r.(sl_name)) (r.(sl_pid)).
Definition set_sl_name (v : string) (r : sleeplock) : sleeplock :=
  mk_sleeplock (r.(sl_locked)) v (r.(sl_pid)).
Definition set_sl_pid (v : Z) (r : sleeplock) : sleeplock :=
  mk_sleeplock (r.(sl_locked)) (r.(sl_name)) v.


(** [struct context] ([kernel/proc.h]): the callee-saved registers *)
Record context : Type := mk_context {
  ctx_ra : Z;
  ctx_sp : Z;
  ctx_s : list Z  (** s0 .. s11 *)
}.

Definition set_ctx_ra (v : Z) (r : context) : context :=
  mk_context v (r.(ctx_sp)) (r.(ctx_s)).
Definition set_ctx_sp (v : Z) (r : context) : context :=
  mk_context (r.(ctx_ra)) v (r.(ctx_s)).
Definition set_ctx_s (v : list Z) (r : context) : context :=
  mk_context (r.(ctx_ra)) (r.(ctx_sp)) v.


(** [struct cpu] ([kernel/proc.h]), with the hart's interrupt-enable bit.
    The saved scheduler context is control, kept by [Swtch]. *)
Record cpu : Type := mk_cpu {
  c_proc : option nat;  (** the process running on this cpu, or null *)
  c_noff : Z;  (** depth of push_off() nesting *)
  c_intena : bool;  (** were interrupts enabled before push_off()? *)
  c_sie : bool  (** the SIE bit of this hart's sstatus *)
}.

Definition set_c_proc (v : option nat) (r : cpu) : cpu :=
  mk_cpu v (r.(c_noff)) (r.(c_intena)) (r.(c_sie)).
Definition set_c_noff (v : Z) (r : cpu) : cpu :=
  mk_cpu (r.(c_proc)) v (r.(c_intena)) (r.(c_sie)).
Definition set_c_intena (v : bool) (r : cpu) : cpu :=
  mk_cpu (r.(c_proc)) (r.(c_noff)) v (r.(c_sie)).
Definition set_c_sie (v : bool) (r : cpu) : cpu :=
  mk_cpu (r.(c_proc)) (r.(c_noff)) (r.(c_intena)) v.


(** [struct proc] ([kernel/proc.h]); its lock is [L_proc] *)
Record proc : Type := mk_proc {
  p_state : procstate;
  p_chan : chan;
  p_killed : Z;
  p_xstate : Z;
  p_pid : Z;
  p_parent : option nat;
  p_kstack : Z;
  p_sz : Z;
  p_pagetable : Z;
  p_trapframe : Z;
  p_context : context;
  p_ofile : list (option nat);
  p_cwd : option nat;
  p_name : list Z;
  p_cpu_affinity : Z;
  p_is_thread : Z
}.

Definition set_p_state (v : procstate) (r : proc) : proc :=
  mk_proc v (r.(p_chan)) (r.(p_killed)) (r.(p_xstate)) (r.(p_pid))
    (r.(p_parent)) (r.(p_kstack)) (r.(p_sz)) (r.(p_pagetable))
    (r.(p_trapframe)) (r.(p_context)) (r.(p_ofile)) (r.(p_cwd)) (r.(p_name))
    (r.(p_cpu_affinity)) (r.(p_is_thread)).
Definition set_p_chan (v : chan) (r : proc) : proc :=
  mk_proc (r.(p_state)) v (r.(p_killed)) (r.(p_xstate)) (r.(p_pid))
    (r.(p_parent)) (r.(p_kstack)) (r.(p_sz)) (r.(p_pagetable))
    (r.(p_trapframe)) (r.(p_context)) (r.(p_ofile)) (r.(p_cwd)) (r.(p_name))
    (r.(p_cpu_affinity)) (r.(p_is_thread)).
Definition set_p_killed (v : Z) (r : proc) : proc :=
  mk_proc (r.(p_state)) (r.(p_chan)) v (r.(p_xstate)) (r.(p_pid))
    (r.(p_parent)) (r.(p_kstack)) (r.(p_sz)) (r.(p_pagetable))
    (r.(p_trapframe)) (r.(p_context)) (r.(p_ofile)) (r.(p_cwd)) (r.(p_name))
    (r.(p_cpu_affinity)) (r.(p_is_thread)).
Definition set_p_xstate (v : Z) (r : proc) : proc :=
  mk_proc (r.(p_state)) (r.(p_chan)) (r.(p_killed)) v (r.(p_pid))
    (r.(p_parent)) (r.(p_kstack)) (r.(p_sz)) (r.(p_pagetable))
    (r.(p_trapframe)) (r.(p_context)) (r.(p_ofile)) (r.(p_cwd)) (r.(p_name))
    (r.(p_cpu_affinity)) (r.(p_is_thread)).
Definition set_p_pid (v : Z) (r : proc) : proc :=
  mk_proc (r.(p_state)) (r.(p_chan)) (r.(p_killed)) (r.(p_xstate)) v
    (r.(p_parent)) (r.(p_kstack)) (r.(p_sz)) (r.(p_pagetable))
    (r.(p_trapframe)) (r.(p_context)) (r.(p_ofile)) (r.(p_cwd)) (r.(p_name))
    (r.(p_cpu_affinity)) (r.(p_is_thread)).
Definition set_p_parent (v : option nat) (r : proc) : proc :=
  mk_proc (r.(p_state)) (r.(p_chan)) (r.(p_killed)) (r.(p_xstate))
    (r.(p_pid)) v (r.(p_kstack)) (r.(p_sz)) (r.(p_pagetable))
    (r.(p_trapframe)) (r.(p_context)) (r.(p_ofile)) (r.(p_cwd)) (r.(p_name))
    (r.(p_cpu_affinity)) (r.(p_is_thread)).
Definition set_p_kstack (v : Z) (r : proc) : proc :=
  mk_proc (r.(p_state)) (r.(p_chan)) (r.(p_killed)) (r.(p_xstate))
    (r.(p_pid)) (r.(p_parent)) v (r.(p_sz)) (r.(p_pagetable))
    (r.(p_trapframe)) (r.(p_context)) (r.(p_ofile)) (r.(p_cwd)) (r.(p_name))
    (r.(p_cpu_affinity)) (r.(p_is_thread)).
Definition set_p_sz (v : Z) (r : proc) : proc :=
  mk_proc (r.(p_state)) (r.(p_chan)) (r.(p_killed)) (r.(p_xstate))
    (r.(p_pid)) (r.(p_parent)) (r.(p_kstack)) v (r.(p_pagetable))
    (r.(p_trapframe)) (r.(p_context)) (r.(p_ofile)) (r.(p_cwd)) (r.(p_name))
    (r.(p_cpu_affinity)) (r.(p_is_thread)).
Definition set_p_pagetable (v : Z) (r : proc) : proc :=
  mk_proc (r.(p_state)) (r.(p_chan)) (r.(p_killed)) (r.(p_xstate))
    (r.(p_pid)) (r.(p_parent)) (r.(p_kstack)) (r.(p_sz)) v (r.(p_trapframe))
    (r.(p_context)) (r.(p_ofile)) (r.(p_cwd)) (r.(p_name))
    (r.(p_cpu_affinity)) (r.(p_is_thread)).
Definition set_p_trapframe (v : Z) (r : proc) : proc :=
  mk_proc (r.(p_state)) (r.(p_chan)) (r.(p_killed)) (r.(p_xstate))
    (r.(p_pid)) (r.(p_parent)) (r.(p_kstack)) (r.(p_sz)) (r.(p_pagetable)) v
    (r.(p_context)) (r.(p_ofile)) (r.(p_cwd)) (r.(p_name))
    (r.(p_cpu_affinity)) (r.(p_is_thread)).
Definition set_p_context (v : context) (r : proc) : proc :=
  mk_proc (r.(p_state)) (r.(p_chan)) (r.(p_killed)) (r.(p_xstate))
    (r.(p_pid)) (r.(p_parent)) (r.(p_kstack)) (r.(p_sz)) (r.(p_pagetable))
    (r.(p_trapframe)) v (r.(p_ofile)) (r.(p_cwd)) (r.(p_name))
    (r.(p_cpu_affinity)) (r.(p_is_thread)).
Definition set_p_ofile (v : list (option nat)) (r : proc) : proc :=
  mk_proc (r.(p_state)) (r.(p_chan)) (r.(p_killed)) (r.(p_xstate))
    (r.(p_pid)) (r.(p_parent)) (r.(p_kstack)) (r.(p_sz)) (r.(p_pagetable))
    (r.(p_trapframe)) (r.(p_context)) v (r.(p_cwd)) (r.(p_name))
    (r.(p_cpu_affinity)) (r.(p_is_thread)).
Definition set_p_cwd (v : option nat) (r : proc) : proc :=
  mk_proc (r.(p_state)) (r.(p_chan)) (r.(p_killed)) (r.(p_xstate))
    (r.(p_pid)) (r.(p_parent)) (r.(p_kstack)) (r.(p_sz)) (r.(p_pagetable))
    (r.(p_trapframe)) (r.(p_context)) (r.(p_ofile)) v (r.(p_name))
    (r.(p_cpu_affinity)) (r.(p_is_thread)).
Definition set_p_name (v : list Z) (r : proc) : proc :=
  mk_proc (r.(p_state)) (r.(p_chan)) (r.(p_killed)) (r.(p_xstate))
    (r.(p_pid)) (r.(p_parent)) (r.(p_kstack)) (r.(p_sz)) (r.(p_pagetable))
    (r.(p_trapframe)) (r.(p_context)) (r.(p_ofile)) (r.(p_cwd)) v
    (r.(p_cpu_affinity)) (r.(p_is_thread)).
Definition set_p_cpu_affinity (v : Z) (r : proc) : proc :=
  mk_proc (r.(p_state)) (r.(p_chan)) (r.(p_killed)) (r.(p_xstate))
    (r.(p_pid)) (r.(p_parent)) (r.(p_kstack)) (r.(p_sz)) (r.(p_pagetable))
    (r.(p_trapframe)) (r.(p_context)) (r.(p_ofile)) (r.(p_cwd)) (r.(p_name))
    v (r.(p_is_thread)).
Definition set_p_is_thread (v : Z) (r : proc) : proc :=
  mk_proc (r.(p_state)) (r.(p_chan)) (r.(p_killed)) (r.(p_xstate))
    (r.(p_pid)) (r.(p_parent)) (r.(p_kstack)) (r.(p_sz)) (r.(p_pagetable))
    (r.(p_trapframe)) (r.(p_context)) (r.(p_ofile)) (r.(p_cwd)) (r.(p_name))
    (r.(p_cpu_affinity)) v.


(** [struct buf] ([kernel/buf.h]); its sleep lock is [SL_buf] *)
Record buf : Type := mk_buf {
  b_valid : bool;
  b_disk : bool;
  b_dev : Z;
  b_blockno : Z;
  b_refcnt : Z;
  b_prev : nat;
  b_next : nat;
  b_data : list Z
}.

Definition set_b_valid (v : bool) (r : buf) : buf :=
  mk_buf v (r.(b_disk)) (r.(b_dev)) (r.(b_blockno)) (r.(b_refcnt))
    (r.(b_prev)) (r.(b_next)) (r.(b_data)).
Definition set_b_disk (v : bool) (r : buf) : buf :=
  mk_buf (r.(b_valid)) v (r.(b_dev)) (r.(b_blockno)) (r.(b_refcnt))
    (r.(b_prev)) (r.(b_next)) (r.(b_data)).
Definition set_b_dev (v : Z) (r : buf) : buf :=
  mk_buf (r.(b_valid)) (r.(b_disk)) v (r.(b_blockno)) (r.(b_refcnt))
    (r.(b_prev)) (r.(b_next)) (r.(b_data)).
Definition set_b_blockno (v : Z) (r : buf) : buf :=
  mk_buf (r.(b_valid)) (r.(b_disk)) (r.(b_dev)) v (r.(b_refcnt))
    (r.(b_prev)) (r.(b_next)) (r.(b_data)).
Definition set_b_refcnt (v : Z) (r : buf) : buf :=
  mk_buf (r.(b_valid)) (r.(b_disk)) (r.(b_dev)) (r.(b_blockno)) v
    (r.(b_prev)) (r.(b_next)) (r.(b_data)).
Definition set_b_prev (v : nat) (r : buf) : buf :=
  mk_buf (r.(b_valid)) (r.(b_disk)) (r.(b_dev)) (r.(b_blockno))
    (r.(b_refcnt)) v (r.(b_next)) (r.(b_data)).
Definition set_b_next (v : nat) (r : buf) : buf :=
  mk_buf (r.(b_valid)) (r.(b_disk)) (r.(b_dev)) (r.(b_blockno))
    (r.(b_refcnt)) (r.(b_prev)) v (r.(b_data)).
Definition set_b_data (v : list Z) (r : buf) : buf :=
  mk_buf (r.(b_valid)) (r.(b_disk)) (r.(b_dev)) (r.(b_blockno))
    (r.(b_refcnt)) (r.(b_prev)) (r.(b_next)) v.


(** [struct superblock] ([kernel/fs.h]) *)
Record superblock : Type := mk_superblock {
  sb_magic : Z;
  sb_size : Z;
  sb_nblocks : Z;
  sb_ninodes : Z;
  sb_nlog : Z;
  sb_logstart : Z;
  sb_inodestart : Z;
  sb_bmapstart : Z
}.

Definition set_sb_magic (v : Z) (r : superblock) : superblock :=
  mk_superblock v (r.(sb_size)) (r.(sb_nblocks)) (r.(sb_ninodes))
    (r.(sb_nlog)) (r.(sb_logstart)) (r.(sb_inodestart)) (r.(sb_bmapstart)).
Definition set_sb_size (v : Z) (r : superblock) : superblock :=
  mk_superblock (r.(sb_magic)) v (r.(sb_nblocks)) (r.(sb_ninodes))
    (r.(sb_nlog)) (r.(sb_logstart)) (r.(sb_inodestart)) (r.(sb_bmapstart)).
Definition set_sb_nblocks (v : Z) (r : superblock) : superblock :=
  mk_superblock (r.(sb_magic)) (r.(sb_size)) v (r.(sb_ninodes))
    (r.(sb_nlog)) (r.(sb_logstart)) (r.(sb_inodestart)) (r.(sb_bmapstart)).
Definition set_sb_ninodes (v : Z) (r : superblock) : superblock :=
  mk_superblock (r.(sb_magic)) (r.(sb_size)) (r.(sb_nblocks)) v
    (r.(sb_nlog)) (r.(sb_logstart)) (r.(sb_inodestart)) (r.(sb_bmapstart)).
Definition set_sb_nlog (v : Z) (r : superblock) : superblock :=
  mk_superblock (r.(sb_magic)) (r.(sb_size)) (r.(sb_nblocks))
    (r.(sb_ninodes)) v (r.(sb_logstart)) (r.(sb_inodestart))
    (r.(sb_bmapstart)).
Definition set_sb_logstart (v : Z) (r : superblock) : superblock :=
  mk_superblock (r.(sb_magic)) (r.(sb_size)) (r.(sb_nblocks))
    (r.(sb_ninodes)) (r.(sb_nlog)) v (r.(sb_inodestart)) (r.(sb_bmapstart)).
Definition set_sb_inodestart (v : Z) (r : superblock) : superblock :=
  mk_superblock (r.(sb_magic)) (r.(sb_size)) (r.(sb_nblocks))
    (r.(sb_ninodes)) (r.(sb_nlog)) (r.(sb_logstart)) v (r.(sb_bmapstart)).
Definition set_sb_bmapstart (v : Z) (r : superblock) : superblock :=
  mk_superblock (r.(sb_magic)) (r.(sb_size)) (r.(sb_nblocks))
    (r.(sb_ninodes)) (r.(sb_nlog)) (r.(sb_logstart)) (r.(sb_inodestart)) v.


(** [struct inode] ([kernel/file.h]); its sleep lock is [SL_inode] *)
Record inode : Type := mk_inode {
  i_dev : Z;
  i_inum : Z;
  i_ref : Z;
  i_valid : bool;
  i_type : Z;
  i_major : Z;
  i_minor : Z;
  i_nlink : Z;
  i_size : Z;
  i_addrs : list Z
}.

Definition set_i_dev (v : Z) (r : inode) : inode :=
  mk_inode v (r.(i_inum)) (r.(i_ref)) (r.(i_valid)) (r.(i_type))
    (r.(i_major)) (r.(i_minor)) (r.(i_nlink)) (r.(i_size)) (r.(i_addrs)).
Definition set_i_inum (v : Z) (r : inode) : inode :=
  mk_inode (r.(i_dev)) v (r.(i_ref)) (r.(i_valid)) (r.(i_type))
    (r.(i_major)) (r.(i_minor)) (r.(i_nlink)) (r.(i_size)) (r.(i_addrs)).
Definition set_i_ref (v : Z) (r : inode) : inode :=
  mk_inode (r.(i_dev)) (r.(i_inum)) v (r.(i_valid)) (r.(i_type))
    (r.(i_major)) (r.(i_minor)) (r.(i_nlink)) (r.(i_size)) (r.(i_addrs)).
Definition set_i_valid (v : bool) (r : inode) : inode :=
  mk_inode (r.(i_dev)) (r.(i_inum)) (r.(i_ref)) v (r.(i_type)) (r.(i_major))
    (r.(i_minor)) (r.(i_nlink)) (r.(i_size)) (r.(i_addrs)).
Definition set_i_type (v : Z) (r : inode) : inode :=
  mk_inode (r.(i_dev)) (r.(i_inum)) (r.(i_ref)) (r.(i_valid)) v
    (r.(i_major)) (r.(i_minor)) (r.(i_nlink)) (r.(i_size)) (r.(i_addrs)).
Definition set_i_major (v : Z) (r : inode) : inode :=
  mk_inode (r.(i_dev)) (r.(i_inum)) (r.(i_ref)) (r.(i_valid)) (r.(i_type)) v
    (r.(i_minor)) (r.(i_nlink)) (r.(i_size)) (r.(i_addrs)).
Definition set_i_minor (v : Z) (r : inode) : inode :=
  mk_inode (r.(i_dev)) (r.(i_inum)) (r.(i_ref)) (r.(i_valid)) (r.(i_type))
    (r.(i_major)) v (r.(i_nlink)) (r.(i_size)) (r.(i_addrs)).
Definition set_i_nlink (v : Z) (r : inode) : inode :=
  mk_inode (r.(i_dev)) (r.(i_inum)) (r.(i_ref)) (r.(i_valid)) (r.(i_type))
    (r.(i_major)) (r.(i_minor)) v (r.(i_size)) (r.(i_addrs)).
Definition set_i_size (v : Z) (r : inode) : inode :=
  mk_inode (r.(i_dev)) (r.(i_inum)) (r.(i_ref)) (r.(i_valid)) (r.(i_type))
    (r.(i_major)) (r.(i_minor)) (r.(i_nlink)) v (r.(i_addrs)).
Definition set_i_addrs (v : list Z) (r : inode) : inode :=
  mk_inode (r.(i_dev)) (r.(i_inum)) (r.(i_ref)) (r.(i_valid)) (r.(i_type))
    (r.(i_major)) (r.(i_minor)) (r.(i_nlink)) (r.(i_size)) v.


(** [struct file] ([kernel/file.h]) *)
Record file : Type := mk_file {
  f_type : filetype;
  f_ref : Z;
  f_readable : bool;
  f_writable : bool;
  f_pipe : Z;
  f_ip : option nat;
  f_off : Z;
  f_major : Z
}.

Definition set_f_type (v : filetype) (r : file) : file :=
  mk_file v (r.(f_ref)) (r.(f_readable)) (r.(f_writable)) (r.(f_pipe))
    (r.(f_ip)) (r.(f_off)) (r.(f_major)).
Definition set_f_ref (v : Z) (r : file) : file :=
  mk_file (r.(f_type)) v (r.(f_readable)) (r.(f_writable)) (r.(f_pipe))
    (r.(f_ip)) (r.(f_off)) (r.(f_major)).
Definition set_f_readable (v : bool) (r : file) : file :=
  mk_file (r.(f_type)) (r.(f_ref)) v (r.(f_writable)) (r.(f_pipe))
    (r.(f_ip)) (r.(f_off)) (r.(f_major)).
Definition set_f_writable (v : bool) (r : file) : file :=
  mk_file (r.(f_type)) (r.(f_ref)) (r.(f_readable)) v (r.(f_pipe))
    (r.(f_ip)) (r.(f_off)) (r.(f_major)).
Definition set_f_pipe (v : Z) (r : file) : file :=
  mk_file (r.(f_type)) (r.(f_ref)) (r.(f_readable)) (r.(f_writable)) v
    (r.(f_ip)) (r.(f_off)) (r.(f_major)).
Definition set_f_ip (v : option nat) (r : file) : file :=
  mk_file (r.(f_type)) (r.(f_ref)) (r.(f_readable)) (r.(f_writable))
    (r.(f_pipe)) v (r.(f_off)) (r.(f_major)).
Definition set_f_off (v : Z) (r : file) : file :=
  mk_file (r.(f_type)) (r.(f_ref)) (r.(f_readable)) (r.(f_writable))
    (r.(f_pipe)) (r.(f_ip)) v (r.(f_major)).
Definition set_f_major (v : Z) (r : file) : file :=
  mk_file (r.(f_type)) (r.(f_ref)) (r.(f_readable)) (r.(f_writable))
    (r.(f_pipe)) (r.(f_ip)) (r.(f_off)) v.


(** [struct log] ([kernel/log.c]), with its [struct logheader] inlined *)
Record log : Type := mk_log {
  lg_start : Z;
  lg_size : Z;
  lg_outstanding : Z;
  lg_committing : bool;
  lg_dev : Z;
  lh_n : Z;
  lh_block : list Z
}.

Definition set_lg_start (v : Z) (r : log) : log :=
  mk_log v (r.(lg_size)) (r.(lg_outstanding)) (r.(lg_committing))
    (r.(lg_dev)) (r.(lh_n)) (r.(lh_block)).
Definition set_lg_size (v : Z) (r : log) : log :=
  mk_log (r.(lg_start)) v (r.(lg_outstanding)) (r.(lg_committing))
    (r.(lg_dev)) (r.(lh_n)) (r.(lh_block)).
Definition set_lg_outstanding (v : Z) (r : log) : log :=
  mk_log (r.(lg_start)) (r.(lg_size)) v (r.(lg_committing)) (r.(lg_dev))
    (r.(lh_n)) (r.(lh_block)).
Definition set_lg_committing (v : bool) (r : log) : log :=
  mk_log (r.(lg_start)) (r.(lg_size)) (r.(lg_outstanding)) v (r.(lg_dev))
    (r.(lh_n)) (r.(lh_block)).
Definition set_lg_dev (v : Z) (r : log) : log :=
  mk_log (r.(lg_start)) (r.(lg_size)) (r.(lg_outstanding))
    (r.(lg_committing)) v (r.(lh_n)) (r.(lh_block)).
Definition set_lh_n (v : Z) (r : log) : log :=
  mk_log (r.(lg_start)) (r.(lg_size)) (r.(lg_outstanding))
    (r.(lg_committing)) (r.(lg_dev)) v (r.(lh_block)).
Definition set_lh_block (v : list Z) (r : log) : log :=
  mk_log (r.(lg_start)) (r.(lg_size)) (r.(lg_outstanding))
    (r.(lg_committing)) (r.(lg_dev)) (r.(lh_n)) v.


(** The control and status registers of a hart ([kernel/riscv.h]) *)
Record csrs : Type := mk_csrs {
  csr_sstatus : Z;  (** without the SIE bit, which is c_sie *)
  csr_stvec : Z;
  csr_sepc : Z;
  csr_scause : Z;
  csr_stval : Z;
  csr_satp : Z;
  csr_sip : Z;
  csr_sie : Z;
  csr_mstatus : Z;
  csr_mepc : Z;
  csr_medeleg : Z;
  csr_mideleg : Z;
  csr_pmpaddr0 : Z;
  csr_pmpcfg0 : Z;
  csr_mtvec : Z;
  csr_mscratch : Z;
  csr_mie : Z
}.

Definition set_csr_sstatus (v : Z) (r : csrs) : csrs :=
  mk_csrs v (r.(csr_stvec)) (r.(csr_sepc)) (r.(csr_scause)) (r.(csr_stval))
    (r.(csr_satp)) (r.(csr_sip)) (r.(csr_sie)) (r.(csr_mstatus))
    (r.(csr_mepc)) (r.(csr_medeleg)) (r.(csr_mideleg)) (r.(csr_pmpaddr0))
    (r.(csr_pmpcfg0)) (r.(csr_mtvec)) (r.(csr_mscratch)) (r.(csr_mie)).
Definition set_csr_stvec (v : Z) (r : csrs) : csrs :=
  mk_csrs (r.(csr_sstatus)) v (r.(csr_sepc)) (r.(csr_scause))
    (r.(csr_stval)) (r.(csr_satp)) (r.(csr_sip)) (r.(csr_sie))
    (r.(csr_mstatus)) (r.(csr_mepc)) (r.(csr_medeleg)) (r.(csr_mideleg))
    (r.(csr_pmpaddr0)) (r.(csr_pmpcfg0)) (r.(csr_mtvec)) (r.(csr_mscratch))
    (r.(csr_mie)).
Definition set_csr_sepc (v : Z) (r : csrs) : csrs :=
  mk_csrs (r.(csr_sstatus)) (r.(csr_stvec)) v (r.(csr_scause))
    (r.(csr_stval)) (r.(csr_satp)) (r.(csr_sip)) (r.(csr_sie))
    (r.(csr_mstatus)) (r.(csr_mepc)) (r.(csr_medeleg)) (r.(csr_mideleg))
    (r.(csr_pmpaddr0)) (r.(csr_pmpcfg0)) (r.(csr_mtvec)) (r.(csr_mscratch))
    (r.(csr_mie)).
Definition set_csr_scause (v : Z) (r : csrs) : csrs :=
  mk_csrs (r.(csr_sstatus)) (r.(csr_stvec)) (r.(csr_sepc)) v (r.(csr_stval))
    (r.(csr_satp)) (r.(csr_sip)) (r.(csr_sie)) (r.(csr_mstatus))
    (r.(csr_mepc)) (r.(csr_medeleg)) (r.(csr_mideleg)) (r.(csr_pmpaddr0))
    (r.(csr_pmpcfg0)) (r.(csr_mtvec)) (r.(csr_mscratch)) (r.(csr_mie)).
Definition set_csr_stval (v : Z) (r : csrs) : csrs :=
  mk_csrs (r.(csr_sstatus)) (r.(csr_stvec)) (r.(csr_sepc)) (r.(csr_scause))
    v (r.(csr_satp)) (r.(csr_sip)) (r.(csr_sie)) (r.(csr_mstatus))
    (r.(csr_mepc)) (r.(csr_medeleg)) (r.(csr_mideleg)) (r.(csr_pmpaddr0))
    (r.(csr_pmpcfg0)) (r.(csr_mtvec)) (r.(csr_mscratch)) (r.(csr_mie)).
Definition set_csr_satp (v : Z) (r : csrs) : csrs :=
  mk_csrs (r.(csr_sstatus)) (r.(csr_stvec)) (r.(csr_sepc)) (r.(csr_scause))
    (r.(csr_stval)) v (r.(csr_sip)) (r.(csr_sie)) (r.(csr_mstatus))
    (r.(csr_mepc)) (r.(csr_medeleg)) (r.(csr_mideleg)) (r.(csr_pmpaddr0))
    (r.(csr_pmpcfg0)) (r.(csr_mtvec)) (r.(csr_mscratch)) (r.(csr_mie)).
Definition set_csr_sip (v : Z) (r : csrs) : csrs :=
  mk_csrs (r.(csr_sstatus)) (r.(csr_stvec)) (r.(csr_sepc)) (r.(csr_scause))
    (r.(csr_stval)) (r.(csr_satp)) v (r.(csr_sie)) (r.(csr_mstatus))
    (r.(csr_mepc)) (r.(csr_medeleg)) (r.(csr_mideleg)) (r.(csr_pmpaddr0))
    (r.(csr_pmpcfg0)) (r.(csr_mtvec)) (r.(csr_mscratch)) (r.(csr_mie)).
Definition set_csr_sie (v : Z) (r : csrs) : csrs :=
  mk_csrs (r.(csr_sstatus)) (r.(csr_stvec)) (r.(csr_sepc)) (r.(csr_scause))
    (r.(csr_stval)) (r.(csr_satp)) (r.(csr_sip)) v (r.(csr_mstatus))
    (r.(csr_mepc)) (r.(csr_medeleg)) (r.(csr_mideleg)) (r.(csr_pmpaddr0))
    (r.(csr_pmpcfg0)) (r.(csr_mtvec)) (r.(csr_mscratch)) (r.(csr_mie)).
Definition set_csr_mstatus (v : Z) (r : csrs) : csrs :=
  mk_csrs (r.(csr_sstatus)) (r.(csr_stvec)) (r.(csr_sepc)) (r.(csr_scause))
    (r.(csr_stval)) (r.(csr_satp)) (r.(csr_sip)) (r.(csr_sie)) v
    (r.(csr_mepc)) (r.(csr_medeleg)) (r.(csr_mideleg)) (r.(csr_pmpaddr0))
    (r.(csr_pmpcfg0)) (r.(csr_mtvec)) (r.(csr_mscratch)) (r.(csr_mie)).
Definition set_csr_mepc (v : Z) (r : csrs) : csrs :=
  mk_csrs (r.(csr_sstatus)) (r.(csr_stvec)) (r.(csr_sepc)) (r.(csr_scause))
    (r.(csr_stval)) (r.(csr_satp)) (r.(csr_sip)) (r.(csr_sie))
    (r.(csr_mstatus)) v (r.(csr_medeleg)) (r.(csr_mideleg))
    (r.(csr_pmpaddr0)) (r.(csr_pmpcfg0)) (r.(csr_mtvec)) (r.(csr_mscratch))
    (r.(csr_mie)).
Definition set_csr_medeleg (v : Z) (r : csrs) : csrs :=
  mk_csrs (r.(csr_sstatus)) (r.(csr_stvec)) (r.(csr_sepc)) (r.(csr_scause))
    (r.(csr_stval)) (r.(csr_satp)) (r.(csr_sip)) (r.(csr_sie))
    (r.(csr_mstatus)) (r.(csr_mepc)) v (r.(csr_mideleg)) (r.(csr_pmpaddr0))
    (r.(csr_pmpcfg0)) (r.(csr_mtvec)) (r.(csr_mscratch)) (r.(csr_mie)).
Definition set_csr_mideleg (v : Z) (r : csrs) : csrs :=
  mk_csrs (r.(csr_sstatus)) (r.(csr_stvec)) (r.(csr_sepc)) (r.(csr_scause))
    (r.(csr_stval)) (r.(csr_satp)) (r.(csr_sip)) (r.(csr_sie))
    (r.(csr_mstatus)) (r.(csr_mepc)) (r.(csr_medeleg)) v (r.(csr_pmpaddr0))
    (r.(csr_pmpcfg0)) (r.(csr_mtvec)) (r.(csr_mscratch)) (r.(csr_mie)).
Definition set_csr_pmpaddr0 (v : Z) (r : csrs) : csrs :=
  mk_csrs (r.(csr_sstatus)) (r.(csr_stvec)) (r.(csr_sepc)) (r.(csr_scause))
    (r.(csr_stval)) (r.(csr_satp)) (r.(csr_sip)) (r.(csr_sie))
    (r.(csr_mstatus)) (r.(csr_mepc)) (r.(csr_medeleg)) (r.(csr_mideleg)) v
    (r.(csr_pmpcfg0)) (r.(csr_mtvec)) (r.(csr_mscratch)) (r.(csr_mie)).
Definition set_csr_pmpcfg0 (v : Z) (r : csrs) : csrs :=
  mk_csrs (r.(csr_sstatus)) (r.(csr_stvec)) (r.(csr_sepc)) (r.(csr_scause))
    (r.(csr_stval)) (r.(csr_satp)) (r.(csr_sip)) (r.(csr_sie))
    (r.(csr_mstatus)) (r.(csr_mepc)) (r.(csr_medeleg)) (r.(csr_mideleg))
    (r.(csr_pmpaddr0)) v (r.(csr_mtvec)) (r.(csr_mscratch)) (r.(csr_mie)).
Definition set_csr_mtvec (v : Z) (r : csrs) : csrs :=
  mk_csrs (r.(csr_sstatus)) (r.(csr_stvec)) (r.(csr_sepc)) (r.(csr_scause))
    (r.(csr_stval)) (r.(csr_satp)) (r.(csr_sip)) (r.(csr_sie))
    (r.(csr_mstatus)) (r.(csr_mepc)) (r.(csr_medeleg)) (r.(csr_mideleg))
    (r.(csr_pmpaddr0)) (r.(csr_pmpcfg0)) v (r.(csr_mscratch)) (r.(csr_mie)).
Definition set_csr_mscratch (v : Z) (r : csrs) : csrs :=
  mk_csrs (r.(csr_sstatus)) (r.(csr_stvec)) (r.(csr_sepc)) (r.(csr_scause))
    (r.(csr_stval)) (r.(csr_satp)) (r.(csr_sip)) (r.(csr_sie))
    (r.(csr_mstatus)) (r.(csr_mepc)) (r.(csr_medeleg)) (r.(csr_mideleg))
    (r.(csr_pmpaddr0)) (r.(csr_pmpcfg0)) (r.(csr_mtvec)) v (r.(csr_mie)).
Definition set_csr_mie (v : Z) (r : csrs) : csrs :=
  mk_csrs (r.(csr_sstatus)) (r.(csr_stvec)) (r.(csr_sepc)) (r.(csr_scause))
    (r.(csr_stval)) (r.(csr_satp)) (r.(csr_sip)) (r.(csr_sie))
    (r.(csr_mstatus)) (r.(csr_mepc)) (r.(csr_medeleg)) (r.(csr_mideleg))
    (r.(csr_pmpaddr0)) (r.(csr_pmpcfg0)) (r.(csr_mtvec)) (r.(csr_mscratch))
    v.


(** [struct cons] ([kernel/console.c]); its lock is [L_cons] *)
Record console : Type := mk_console {
  cons_buf : list Z;  (** INPUT_BUF_SIZE characters *)
  cons_r : Z;  (** read index *)
  cons_w : Z;  (** write index *)
  cons_e : Z  (** edit index *)
}.

Definition set_cons_buf (v : list Z) (r : console) : console :=
  mk_console v (r.(cons_r)) (r.(cons_w)) (r.(cons_e)).
Definition set_cons_r (v : Z) (r : console) : console :=
  mk_console (r.(cons_buf)) v (r.(cons_w)) (r.(cons_e)).
Definition set_cons_w (v : Z) (r : console) : console :=
  mk_console (r.(cons_buf)) (r.(cons_r)) v (r.(cons_e)).
Definition set_cons_e (v : Z) (r : console) : console :=
  mk_console (r.(cons_buf)) (r.(cons_r)) (r.(cons_w)) v.


(** The 16550 and the transmit buffer of its driver ([kernel/uart.c]) *)
Record uart : Type := mk_uart {
  u_regs : gmap Z Z;  (** control registers, as last written *)
  u_sent : list Z;  (** bytes stored in THR, oldest first *)
  u_idle : list bool;  (** what the next reads of LSR_TX_IDLE give; idle after that *)
  u_rx : list Z;  (** bytes the line has delivered, not read from RHR yet *)
  u_tx_buf : list Z;  (** uart_tx_buf *)
  u_tx_w : Z;  (** uart_tx_w *)
  u_tx_r : Z  (** uart_tx_r *)
}.

Definition set_u_regs (v : gmap Z Z) (r : uart) : uart :=
  mk_uart v (r.(u_sent)) (r.(u_idle)) (r.(u_rx)) (r.(u_tx_buf)) (r.(u_tx_w))
    (r.(u_tx_r)).
Definition set_u_sent (v : list Z) (r : uart) : uart :=
  mk_uart (r.(u_regs)) v (r.(u_idle)) (r.(u_rx)) (r.(u_tx_buf)) (r.(u_tx_w))
    (r.(u_tx_r)).
Definition set_u_idle (v : list bool) (r : uart) : uart :=
  mk_uart (r.(u_regs)) (r.(u_sent)) v (r.(u_rx)) (r.(u_tx_buf)) (r.(u_tx_w))
    (r.(u_tx_r)).
Definition set_u_rx (v : list Z) (r : uart) : uart :=
  mk_uart (r.(u_regs)) (r.(u_sent)) (r.(u_idle)) v (r.(u_tx_buf))
    (r.(u_tx_w)) (r.(u_tx_r)).
Definition set_u_tx_buf (v : list Z) (r : uart) : uart :=
  mk_uart (r.(u_regs)) (r.(u_sent)) (r.(u_idle)) (r.(u_rx)) v (r.(u_tx_w))
    (r.(u_tx_r)).
Definition set_u_tx_w (v : Z) (r : uart) : uart :=
  mk_uart (r.(u_regs)) (r.(u_sent)) (r.(u_idle)) (r.(u_rx)) (r.(u_tx_buf)) v
    (r.(u_tx_r)).
Definition set_u_tx_r (v : Z) (r : uart) : uart :=
  mk_uart (r.(u_regs)) (r.(u_sent)) (r.(u_idle)) (r.(u_rx)) (r.(u_tx_buf))
    (r.(u_tx_w)) v.


(** What a virtio descriptor points to: a request of [disk.ops], the data of a
    buffer, or a status byte of [disk.info]. *)
Inductive vaddr : Type := V_null | V_ops (i : nat) | V_data (b : nat) | V_status (i : nat).

#[global] Instance vaddr_eq_dec : EqDecision vaddr.
Proof. solve_decision. Defined.

(** [struct virtq_desc] ([kernel/virtio.h]) *)
Record vdesc : Type := mk_vdesc {
  d_addr : vaddr;
  d_len : Z;
  d_flags : Z;
  d_next : Z
}.

Definition set_d_addr (v : vaddr) (r : vdesc) : vdesc :=
  mk_vdesc v (r.(d_len)) (r.(d_flags)) (r.(d_next)).
Definition set_d_len (v : Z) (r : vdesc) : vdesc :=
  mk_vdesc (r.(d_addr)) v (r.(d_flags)) (r.(d_next)).
Definition set_d_flags (v : Z) (r : vdesc) : vdesc :=
  mk_vdesc (r.(d_addr)) (r.(d_len)) v (r.(d_next)).
Definition set_d_next (v : Z) (r : vdesc) : vdesc :=
  mk_vdesc (r.(d_addr)) (r.(d_len)) (r.(d_flags)) v.


(** [struct virtio_blk_req] ([kernel/virtio.h]) *)
Record vreq : Type := mk_vreq {
  q_type : Z;
  q_reserved : Z;
  q_sector : Z
}.

Definition set_q_type (v : Z) (r : vreq) : vreq :=
  mk_vreq v (r.(q_reserved)) (r.(q_sector)).
Definition set_q_reserved (v : Z) (r : vreq) : vreq :=
  mk_vreq (r.(q_type)) v (r.(q_sector)).
Definition set_q_sector (v : Z) (r : vreq) : vreq :=
  mk_vreq (r.(q_type)) (r.(q_reserved)) v.


(** An element of [disk.info] ([kernel/virtio_disk.c]) *)
Record vinfo : Type := mk_vinfo {
  vi_b : option nat;
  vi_status : Z
}.

Definition set_vi_b (v : option nat) (r : vinfo) : vinfo :=
  mk_vinfo v (r.(vi_status)).
Definition set_vi_status (v : Z) (r : vinfo) : vinfo :=
  mk_vinfo (r.(vi_b)) v.


(** [struct disk] ([kernel/virtio_disk.c]) and the device's registers *)
Record vdisk : Type := mk_vdisk {
  vd_desc : list vdesc;
  vd_avail_idx : Z;  (** avail->idx *)
  vd_avail_ring : list Z;
  vd_used_ring_idx : Z;  (** used->idx, written by the device *)
  vd_used_ring : list Z;  (** used->ring[i].id, written by the device *)
  vd_free : list bool;  (** is a descriptor free? *)
  vd_used_idx : Z;  (** disk.used_idx *)
  vd_info : list vinfo;
  vd_ops : list vreq;
  vd_pages : list Z;  (** the pages of desc, avail and used *)
  vd_regs : gmap Z Z  (** the device's mmio registers *)
}.

Definition set_vd_desc (v : list vdesc) (r : vdisk) : vdisk :=
  mk_vdisk v (r.(vd_avail_idx)) (r.(vd_avail_ring)) (r.(vd_used_ring_idx))
    (r.(vd_used_ring)) (r.(vd_free)) (r.(vd_used_idx)) (r.(vd_info))
    (r.(vd_ops)) (r.(vd_pages)) (r.(vd_regs)).
Definition set_vd_avail_idx (v : Z) (r : vdisk) : vdisk :=
  mk_vdisk (r.(vd_desc)) v (r.(vd_avail_ring)) (r.(vd_used_ring_idx))
    (r.(vd_used_ring)) (r.(vd_free)) (r.(vd_used_idx)) (r.(vd_info))
    (r.(vd_ops)) (r.(vd_pages)) (r.(vd_regs)).
Definition set_vd_avail_ring (v : list Z) (r : vdisk) : vdisk :=
  mk_vdisk (r.(vd_desc)) (r.(vd_avail_idx)) v (r.(vd_used_ring_idx))
    (r.(vd_used_ring)) (r.(vd_free)) (r.(vd_used_idx)) (r.(vd_info))
    (r.(vd_ops)) (r.(vd_pages)) (r.(vd_regs)).
Definition set_vd_used_ring_idx (v : Z) (r : vdisk) : vdisk :=
  mk_vdisk (r.(vd_desc)) (r.(vd_avail_idx)) (r.(vd_avail_ring)) v
    (r.(vd_used_ring)) (r.(vd_free)) (r.(vd_used_idx)) (r.(vd_info))
    (r.(vd_ops)) (r.(vd_pages)) (r.(vd_regs)).
Definition set_vd_used_ring (v : list Z) (r : vdisk) : vdisk :=
  mk_vdisk (r.(vd_desc)) (r.(vd_avail_idx)) (r.(vd_avail_ring))
    (r.(vd_used_ring_idx)) v (r.(vd_free)) (r.(vd_used_idx)) (r.(vd_info))
    (r.(vd_ops)) (r.(vd_pages)) (r.(vd_regs)).
Definition set_vd_free (v : list bool) (r : vdisk) : vdisk :=
  mk_vdisk (r.(vd_desc)) (r.(vd_avail_idx)) (r.(vd_avail_ring))
    (r.(vd_used_ring_idx)) (r.(vd_used_ring)) v (r.(vd_used_idx))
    (r.(vd_info)) (r.(vd_ops)) (r.(vd_pages)) (r.(vd_regs)).
Definition set_vd_used_idx (v : Z) (r : vdisk) : vdisk :=
  mk_vdisk (r.(vd_desc)) (r.(vd_avail_idx)) (r.(vd_avail_ring))
    (r.(vd_used_ring_idx)) (r.(vd_used_ring)) (r.(vd_free)) v (r.(vd_info))
    (r.(vd_ops)) (r.(vd_pages)) (r.(vd_regs)).
Definition set_vd_info (v : list vinfo) (r : vdisk) : vdisk :=
  mk_vdisk (r.(vd_desc)) (r.(vd_avail_idx)) (r.(vd_avail_ring))
    (r.(vd_used_ring_idx)) (r.(vd_used_ring)) (r.(vd_free))
    (r.(vd_used_idx)) v (r.(vd_ops)) (r.(vd_pages)) (r.(vd_regs)).
Definition set_vd_ops (v : list vreq) (r : vdisk) : vdisk :=
  mk_vdisk (r.(vd_desc)) (r.(vd_avail_idx)) (r.(vd_avail_ring))
    (r.(vd_used_ring_idx)) (r.(vd_used_ring)) (r.(vd_free))
    (r.(vd_used_idx)) (r.(vd_info)) v (r.(vd_pages)) (r.(vd_regs)).
Definition set_vd_pages (v : list Z) (r : vdisk) : vdisk :=
  mk_vdisk (r.(vd_desc)) (r.(vd_avail_idx)) (r.(vd_avail_ring))
    (r.(vd_used_ring_idx)) (r.(vd_used_ring)) (r.(vd_free))
    (r.(vd_used_idx)) (r.(vd_info)) (r.(vd_ops)) v (r.(vd_regs)).
Definition set_vd_regs (v : gmap Z Z) (r : vdisk) : vdisk :=
  mk_vdisk (r.(vd_desc)) (r.(vd_avail_idx)) (r.(vd_avail_ring))
    (r.(vd_used_ring_idx)) (r.(vd_used_ring)) (r.(vd_free))
    (r.(vd_used_idx)) (r.(vd_info)) (r.(vd_ops)) (r.(vd_pages)) v.


(** The interrupt controllers of the board *)
Record soc : Type := mk_soc {
  plic_regs : gmap Z Z;  (** registers of the PLIC, as last written *)
  plic_pending : list Z;  (** interrupts to be claimed, in the PLIC's order *)
  clint_regs : gmap Z Z  (** registers of the CLINT *)
}.

Definition set_plic_regs (v : gmap Z Z) (r : soc) : soc :=
  mk_soc v (r.(plic_pending)) (r.(clint_regs)).
Definition set_plic_pending (v : list Z) (r : soc) : soc :=
  mk_soc (r.(plic_regs)) v (r.(clint_regs)).
Definition set_clint_regs (v : gmap Z Z) (r : soc) : soc :=
  mk_soc (r.(plic_regs)) (r.(plic_pending)) v.


(** ** The state of the machine

    The variables of the kernel, its harts, physical memory and the disk. *)
Record kstate : Type := mk_kstate {
  k_hart : nat;  (** tp of the executing hart *)
  k_cpus : list cpu;
  k_locks : gmap lockid spinlock;
  k_slocks : gmap slid sleeplock;
  k_mem : gmap Z Z;  (** physical memory, byte by byte *)
  k_freelist : Z;  (** kmem.freelist *)
  k_kpgtbl : Z;  (** kernel_pagetable *)
  k_procs : list proc;
  k_nextpid : Z;
  k_initproc : option nat;
  k_first : bool;  (** the static variable of forkret *)
  k_ticks : Z;
  k_head_ref : Z;  (** head of the kernel linked list *)
  k_bufs : list buf;  (** bcache.buf, and bcache.head at index NBUF *)
  k_disk : gmap Z (list Z);  (** blocks of the disk *)
  k_log : log;
  k_sb : superblock;
  k_inodes : list inode;  (** itable.inode *)
  k_files : list file;  (** ftable.file *)
  k_out : list event;  (** what printf printed, most recent first *)
  k_dwrites : list (Z * list Z);  (** blocks stored on the disk, oldest first *)
  k_vdisk : vdisk;
  k_cons : console;
  k_uart : uart;
  k_csrs : list csrs;
  k_soc : soc;
  k_devsw : list bool;  (** devsw: are the functions of the device set? *)
  k_panicked : bool;
  k_pr_locking : bool;
  k_started : bool  (** the static variable of main *)
}.

Definition set_k_hart (v : nat) (r : kstate) : kstate :=
  mk_kstate v (r.(k_cpus)) (r.(k_locks)) (r.(k_slocks)) (r.(k_mem))
    (r.(k_freelist)) (r.(k_kpgtbl)) (r.(k_procs)) (r.(k_nextpid))
    (r.(k_initproc)) (r.(k_first)) (r.(k_ticks)) (r.(k_head_ref))
    (r.(k_bufs)) (r.(k_disk)) (r.(k_log)) (r.(k_sb)) (r.(k_inodes))
    (r.(k_files)) (r.(k_out)) (r.(k_dwrites)) (r.(k_vdisk)) (r.(k_cons))
    (r.(k_uart)) (r.(k_csrs)) (r.(k_soc)) (r.(k_devsw)) (r.(k_panicked))
    (r.(k_pr_locking)) (r.(k_started)).
Definition set_k_cpus (v : list cpu) (r : kstate) : kstate :=
  mk_kstate (r.(k_hart)) v (r.(k_locks)) (r.(k_slocks)) (r.(k_mem))
    (r.(k_freelist)) (r.(k_kpgtbl)) (r.(k_procs)) (r.(k_nextpid))
    (r.(k_initproc)) (r.(k_first)) (r.(k_ticks)) (r.(k_head_ref))
    (r.(k_bufs)) (r.(k_disk)) (r.(k_log)) (r.(k_sb)) (r.(k_inodes))
    (r.(k_files)) (r.(k_out)) (r.(k_dwrites)) (r.(k_vdisk)) (r.(k_cons))
    (r.(k_uart)) (r.(k_csrs)) (r.(k_soc)) (r.(k_devsw)) (r.(k_panicked))
    (r.(k_pr_locking)) (r.(k_started)).
Definition set_k_locks (v : gmap lockid spinlock) (r : kstate) : kstate :=
  mk_kstate (r.(k_hart)) (r.(k_cpus)) v (r.(k_slocks)) (r.(k_mem))
    (r.(k_freelist)) (r.(k_kpgtbl)) (r.(k_procs)) (r.(k_nextpid))
    (r.(k_initproc)) (r.(k_first)) (r.(k_ticks)) (r.(k_head_ref))
    (r.(k_bufs)) (r.(k_disk)) (r.(k_log)) (r.(k_sb)) (r.(k_inodes))
    (r.(k_files)) (r.(k_out)) (r.(k_dwrites)) (r.(k_vdisk)) (r.(k_cons))
    (r.(k_uart)) (r.(k_csrs)) (r.(k_soc)) (r.(k_devsw)) (r.(k_panicked))
    (r.(k_pr_locking)) (r.(k_started)).
Definition set_k_slocks (v : gmap slid sleeplock) (r : kstate) : kstate :=
  mk_kstate (r.(k_hart)) (r.(k_cpus)) (r.(k_locks)) v (r.(k_mem))
    (r.(k_freelist)) (r.(k_kpgtbl)) (r.(k_procs)) (r.(k_nextpid))
    (r.(k_initproc)) (r.(k_first)) (r.(k_ticks)) (r.(k_head_ref))
    (r.(k_bufs)) (r.(k_disk)) (r.(k_log)) (r.(k_sb)) (r.(k_inodes))
    (r.(k_files)) (r.(k_out)) (r.(k_dwrites)) (r.(k_vdisk)) (r.(k_cons))
    (r.(k_uart)) (r.(k_csrs)) (r.(k_soc)) (r.(k_devsw)) (r.(k_panicked))
    (r.(k_pr_locking)) (r.(k_started)).
Definition set_k_mem (v : gmap Z Z) (r : kstate) : kstate :=
  mk_kstate (r.(k_hart)) (r.(k_cpus)) (r.(k_locks)) (r.(k_slocks)) v
    (r.(k_freelist)) (r.(k_kpgtbl)) (r.(k_procs)) (r.(k_nextpid))
    (r.(k_initproc)) (r.(k_first)) (r.(k_ticks)) (r.(k_head_ref))
    (r.(k_bufs)) (r.(k_disk)) (r.(k_log)) (r.(k_sb)) (r.(k_inodes))
    (r.(k_files)) (r.(k_out)) (r.(k_dwrites)) (r.(k_vdisk)) (r.(k_cons))
    (r.(k_uart)) (r.(k_csrs)) (r.(k_soc)) (r.(k_devsw)) (r.(k_panicked))
    (r.(k_pr_locking)) (r.(k_started)).
Definition set_k_freelist (v : Z) (r : kstate) : kstate :=
  mk_kstate (r.(k_hart)) (r.(k_cpus)) (r.(k_locks)) (r.(k_slocks))
    (r.(k_mem)) v (r.(k_kpgtbl)) (r.(k_procs)) (r.(k_nextpid))
    (r.(k_initproc)) (r.(k_first)) (r.(k_ticks)) (r.(k_head_ref))
    (r.(k_bufs)) (r.(k_disk)) (r.(k_log)) (r.(k_sb)) (r.(k_inodes))
    (r.(k_files)) (r.(k_out)) (r.(k_dwrites)) (r.(k_vdisk)) (r.(k_cons))
    (r.(k_uart)) (r.(k_csrs)) (r.(k_soc)) (r.(k_devsw)) (r.(k_panicked))
    (r.(k_pr_locking)) (r.(k_started)).
Definition set_k_kpgtbl (v : Z) (r : kstate) : kstate :=
  mk_kstate (r.(k_hart)) (r.(k_cpus)) (r.(k_locks)) (r.(k_slocks))
    (r.(k_mem)) (r.(k_freelist)) v (r.(k_procs)) (r.(k_nextpid))
    (r.(k_initproc)) (r.(k_first)) (r.(k_ticks)) (r.(k_head_ref))
    (r.(k_bufs)) (r.(k_disk)) (r.(k_log)) (r.(k_sb)) (r.(k_inodes))
    (r.(k_files)) (r.(k_out)) (r.(k_dwrites)) (r.(k_vdisk)) (r.(k_cons))
    (r.(k_uart)) (r.(k_csrs)) (r.(k_soc)) (r.(k_devsw)) (r.(k_panicked))
    (r.(k_pr_locking)) (r.(k_started)).
Definition set_k_procs (v : list proc) (r : kstate) : kstate :=
  mk_kstate (r.(k_hart)) (r.(k_cpus)) (r.(k_locks)) (r.(k_slocks))
    (r.(k_mem)) (r.(k_freelist)) (r.(k_kpgtbl)) v (r.(k_nextpid))
    (r.(k_initproc)) (r.(k_first)) (r.(k_ticks)) (r.(k_head_ref))
    (r.(k_bufs)) (r.(k_disk)) (r.(k_log)) (r.(k_sb)) (r.(k_inodes))
    (r.(k_files)) (r.(k_out)) (r.(k_dwrites)) (r.(k_vdisk)) (r.(k_cons))
    (r.(k_uart)) (r.(k_csrs)) (r.(k_soc)) (r.(k_devsw)) (r.(k_panicked))
    (r.(k_pr_locking)) (r.(k_started)).
Definition set_k_nextpid (v : Z) (r : kstate) : kstate :=
  mk_kstate (r.(k_hart)) (r.(k_cpus)) (r.(k_locks)) (r.(k_slocks))
    (r.(k_mem)) (r.(k_freelist)) (r.(k_kpgtbl)) (r.(k_procs)) v
    (r.(k_initproc)) (r.(k_first)) (r.(k_ticks)) (r.(k_head_ref))
    (r.(k_bufs)) (r.(k_disk)) (r.(k_log)) (r.(k_sb)) (r.(k_inodes))
    (r.(k_files)) (r.(k_out)) (r.(k_dwrites)) (r.(k_vdisk)) (r.(k_cons))
    (r.(k_uart)) (r.(k_csrs)) (r.(k_soc)) (r.(k_devsw)) (r.(k_panicked))
    (r.(k_pr_locking)) (r.(k_started)).
Definition set_k_initproc (v : option nat) (r : kstate) : kstate :=
  mk_kstate (r.(k_hart)) (r.(k_cpus)) (r.(k_locks)) (r.(k_slocks))
    (r.(k_mem)) (r.(k_freelist)) (r.(k_kpgtbl)) (r.(k_procs))
    (r.(k_nextpid)) v (r.(k_first)) (r.(k_ticks)) (r.(k_head_ref))
    (r.(k_bufs)) (r.(k_disk)) (r.(k_log)) (r.(k_sb)) (r.(k_inodes))
    (r.(k_files)) (r.(k_out)) (r.(k_dwrites)) (r.(k_vdisk)) (r.(k_cons))
    (r.(k_uart)) (r.(k_csrs)) (r.(k_soc)) (r.(k_devsw)) (r.(k_panicked))
    (r.(k_pr_locking)) (r.(k_started)).
Definition set_k_first (v : bool) (r : kstate) : kstate :=
  mk_kstate (r.(k_hart)) (r.(k_cpus)) (r.(k_locks)) (r.(k_slocks))
    (r.(k_mem)) (r.(k_freelist)) (r.(k_kpgtbl)) (r.(k_procs))
    (r.(k_nextpid)) (r.(k_initproc)) v (r.(k_ticks)) (r.(k_head_ref))
    (r.(k_bufs)) (r.(k_disk)) (r.(k_log)) (r.(k_sb)) (r.(k_inodes))
    (r.(k_files)) (r.(k_out)) (r.(k_dwrites)) (r.(k_vdisk)) (r.(k_cons))
    (r.(k_uart)) (r.(k_csrs)) (r.(k_soc)) (r.(k_devsw)) (r.(k_panicked))
    (r.(k_pr_locking)) (r.(k_started)).
Definition set_k_ticks (v : Z) (r : kstate) : kstate :=
  mk_kstate (r.(k_hart)) (r.(k_cpus)) (r.(k_locks)) (r.(k_slocks))
    (r.(k_mem)) (r.(k_freelist)) (r.(k_kpgtbl)) (r.(k_procs))
    (r.(k_nextpid)) (r.(k_initproc)) (r.(k_first)) v (r.(k_head_ref))
    (r.(k_bufs)) (r.(k_disk)) (r.(k_log)) (r.(k_sb)) (r.(k_inodes))
    (r.(k_files)) (r.(k_out)) (r.(k_dwrites)) (r.(k_vdisk)) (r.(k_cons))
    (r.(k_uart)) (r.(k_csrs)) (r.(k_soc)) (r.(k_devsw)) (r.(k_panicked))
    (r.(k_pr_locking)) (r.(k_started)).
Definition set_k_head_ref (v : Z) (r : kstate) : kstate :=
  mk_kstate (r.(k_hart)) (r.(k_cpus)) (r.(k_locks)) (r.(k_slocks))
    (r.(k_mem)) (r.(k_freelist)) (r.(k_kpgtbl)) (r.(k_procs))
    (r.(k_nextpid)) (r.(k_initproc)) (r.(k_first)) (r.(k_ticks)) v
    (r.(k_bufs)) (r.(k_disk)) (r.(k_log)) (r.(k_sb)) (r.(k_inodes))
    (r.(k_files)) (r.(k_out)) (r.(k_dwrites)) (r.(k_vdisk)) (r.(k_cons))
    (r.(k_uart)) (r.(k_csrs)) (r.(k_soc)) (r.(k_devsw)) (r.(k_panicked))
    (r.(k_pr_locking)) (r.(k_started)).
Definition set_k_bufs (v : list buf) (r : kstate) : kstate :=
  mk_kstate (r.(k_hart)) (r.(k_cpus)) (r.(k_locks)) (r.(k_slocks))
    (r.(k_mem)) (r.(k_freelist)) (r.(k_kpgtbl)) (r.(k_procs))
    (r.(k_nextpid)) (r.(k_initproc)) (r.(k_first)) (r.(k_ticks))
    (r.(k_head_ref)) v (r.(k_disk)) (r.(k_log)) (r.(k_sb)) (r.(k_inodes))
    (r.(k_files)) (r.(k_out)) (r.(k_dwrites)) (r.(k_vdisk)) (r.(k_cons))
    (r.(k_uart)) (r.(k_csrs)) (r.(k_soc)) (r.(k_devsw)) (r.(k_panicked))
    (r.(k_pr_locking)) (r.(k_started)).
Definition set_k_disk (v : gmap Z (list Z)) (r : kstate) : kstate :=
  mk_kstate (r.(k_hart)) (r.(k_cpus)) (r.(k_locks)) (r.(k_slocks))
    (r.(k_mem)) (r.(k_freelist)) (r.(k_kpgtbl)) (r.(k_procs))
    (r.(k_nextpid)) (r.(k_initproc)) (r.(k_first)) (r.(k_ticks))
    (r.(k_head_ref)) (r.(k_bufs)) v (r.(k_log)) (r.(k_sb)) (r.(k_inodes))
    (r.(k_files)) (r.(k_out)) (r.(k_dwrites)) (r.(k_vdisk)) (r.(k_cons))
    (r.(k_uart)) (r.(k_csrs)) (r.(k_soc)) (r.(k_devsw)) (r.(k_panicked))
    (r.(k_pr_locking)) (r.(k_started)).
Definition set_k_log (v : log) (r : kstate) : kstate :=
  mk_kstate (r.(k_hart)) (r.(k_cpus)) (r.(k_locks)) (r.(k_slocks))
    (r.(k_mem)) (r.(k_freelist)) (r.(k_kpgtbl)) (r.(k_procs))
    (r.(k_nextpid)) (r.(k_initproc)) (r.(k_first)) (r.(k_ticks))
    (r.(k_head_ref)) (r.(k_bufs)) (r.(k_disk)) v (r.(k_sb)) (r.(k_inodes))
    (r.(k_files)) (r.(k_out)) (r.(k_dwrites)) (r.(k_vdisk)) (r.(k_cons))
    (r.(k_uart)) (r.(k_csrs)) (r.(k_soc)) (r.(k_devsw)) (r.(k_panicked))
    (r.(k_pr_locking)) (r.(k_started)).
Definition set_k_sb (v : superblock) (r : kstate) : kstate :=
  mk_kstate (r.(k_hart)) (r.(k_cpus)) (r.(k_locks)) (r.(k_slocks))
    (r.(k_mem)) (r.(k_freelist)) (r.(k_kpgtbl)) (r.(k_procs))
    (r.(k_nextpid)) (r.(k_initproc)) (r.(k_first)) (r.(k_ticks))
    (r.(k_head_ref)) (r.(k_bufs)) (r.(k_disk)) (r.(k_log)) v (r.(k_inodes))
    (r.(k_files)) (r.(k_out)) (r.(k_dwrites)) (r.(k_vdisk)) (r.(k_cons))
    (r.(k_uart)) (r.(k_csrs)) (r.(k_soc)) (r.(k_devsw)) (r.(k_panicked))
    (r.(k_pr_locking)) (r.(k_started)).
Definition set_k_inodes (v : list inode) (r : kstate) : kstate :=
  mk_kstate (r.(k_hart)) (r.(k_cpus)) (r.(k_locks)) (r.(k_slocks))
    (r.(k_mem)) (r.(k_freelist)) (r.(k_kpgtbl)) (r.(k_procs))
    (r.(k_nextpid)) (r.(k_initproc)) (r.(k_first)) (r.(k_ticks))
    (r.(k_head_ref)) (r.(k_bufs)) (r.(k_disk)) (r.(k_log)) (r.(k_sb)) v
    (r.(k_files)) (r.(k_out)) (r.(k_dwrites)) (r.(k_vdisk)) (r.(k_cons))
    (r.(k_uart)) (r.(k_csrs)) (r.(k_soc)) (r.(k_devsw)) (r.(k_panicked))
    (r.(k_pr_locking)) (r.(k_started)).
Definition set_k_files (v : list file) (r : kstate) : kstate :=
  mk_kstate (r.(k_hart)) (r.(k_cpus)) (r.(k_locks)) (r.(k_slocks))
    (r.(k_mem)) (r.(k_freelist)) (r.(k_kpgtbl)) (r.(k_procs))
    (r.(k_nextpid)) (r.(k_initproc)) (r.(k_first)) (r.(k_ticks))
    (r.(k_head_ref)) (r.(k_bufs)) (r.(k_disk)) (r.(k_log)) (r.(k_sb))
    (r.(k_inodes)) v (r.(k_out)) (r.(k_dwrites)) (r.(k_vdisk)) (r.(k_cons))
    (r.(k_uart)) (r.(k_csrs)) (r.(k_soc)) (r.(k_devsw)) (r.(k_panicked))
    (r.(k_pr_locking)) (r.(k_started)).
Definition set_k_out (v : list event) (r : kstate) : kstate :=
  mk_kstate (r.(k_hart)) (r.(k_cpus)) (r.(k_locks)) (r.(k_slocks))
    (r.(k_mem)) (r.(k_freelist)) (r.(k_kpgtbl)) (r.(k_procs))
    (r.(k_nextpid)) (r.(k_initproc)) (r.(k_first)) (r.(k_ticks))
    (r.(k_head_ref)) (r.(k_bufs)) (r.(k_disk)) (r.(k_log)) (r.(k_sb))
    (r.(k_inodes)) (r.(k_files)) v (r.(k_dwrites)) (r.(k_vdisk))
    (r.(k_cons)) (r.(k_uart)) (r.(k_csrs)) (r.(k_soc)) (r.(k_devsw))
    (r.(k_panicked)) (r.(k_pr_locking)) (r.(k_started)).
Definition set_k_dwrites (v : list (Z * list Z)) (r : kstate) : kstate :=
  mk_kstate (r.(k_hart)) (r.(k_cpus)) (r.(k_locks)) (r.(k_slocks))
    (r.(k_mem)) (r.(k_freelist)) (r.(k_kpgtbl)) (r.(k_procs))
    (r.(k_nextpid)) (r.(k_initproc)) (r.(k_first)) (r.(k_ticks))
    (r.(k_head_ref)) (r.(k_bufs)) (r.(k_disk)) (r.(k_log)) (r.(k_sb))
    (r.(k_inodes)) (r.(k_files)) (r.(k_out)) v (r.(k_vdisk)) (r.(k_cons))
    (r.(k_uart)) (r.(k_csrs)) (r.(k_soc)) (r.(k_devsw)) (r.(k_panicked))
    (r.(k_pr_locking)) (r.(k_started)).
Definition set_k_vdisk (v : vdisk) (r : kstate) : kstate :=
  mk_kstate (r.(k_hart)) (r.(k_cpus)) (r.(k_locks)) (r.(k_slocks))
    (r.(k_mem)) (r.(k_freelist)) (r.(k_kpgtbl)) (r.(k_procs))
    (r.(k_nextpid)) (r.(k_initproc)) (r.(k_first)) (r.(k_ticks))
    (r.(k_head_ref)) (r.(k_bufs)) (r.(k_disk)) (r.(k_log)) (r.(k_sb))
    (r.(k_inodes)) (r.(k_files)) (r.(k_out)) (r.(k_dwrites)) v (r.(k_cons))
    (r.(k_uart)) (r.(k_csrs)) (r.(k_soc)) (r.(k_devsw)) (r.(k_panicked))
    (r.(k_pr_locking)) (r.(k_started)).
Definition set_k_cons (v : console) (r : kstate) : kstate :=
  mk_kstate (r.(k_hart)) (r.(k_cpus)) (r.(k_locks)) (r.(k_slocks))
    (r.(k_mem)) (r.(k_freelist)) (r.(k_kpgtbl)) (r.(k_procs))
    (r.(k_nextpid)) (r.(k_initproc)) (r.(k_first)) (r.(k_ticks))
    (r.(k_head_ref)) (r.(k_bufs)) (r.(k_disk)) (r.(k_log)) (r.(k_sb))
    (r.(k_inodes)) (r.(k_files)) (r.(k_out)) (r.(k_dwrites)) (r.(k_vdisk)) v
    (r.(k_uart)) (r.(k_csrs)) (r.(k_soc)) (r.(k_devsw)) (r.(k_panicked))
    (r.(k_pr_locking)) (r.(k_started)).
Definition set_k_uart (v : uart) (r : kstate) : kstate :=
  mk_kstate (r.(k_hart)) (r.(k_cpus)) (r.(k_locks)) (r.(k_slocks))
    (r.(k_mem)) (r.(k_freelist)) (r.(k_kpgtbl)) (r.(k_procs))
    (r.(k_nextpid)) (r.(k_initproc)) (r.(k_first)) (r.(k_ticks))
    (r.(k_head_ref)) (r.(k_bufs)) (r.(k_disk)) (r.(k_log)) (r.(k_sb))
    (r.(k_inodes)) (r.(k_files)) (r.(k_out)) (r.(k_dwrites)) (r.(k_vdisk))
    (r.(k_cons)) v (r.(k_csrs)) (r.(k_soc)) (r.(k_devsw)) (r.(k_panicked))
    (r.(k_pr_locking)) (r.(k_started)).
Definition set_k_csrs (v : list csrs) (r : kstate) : kstate :=
  mk_kstate (r.(k_hart)) (r.(k_cpus)) (r.(k_locks)) (r.(k_slocks))
    (r.(k_mem)) (r.(k_freelist)) (r.(k_kpgtbl)) (r.(k_procs))
    (r.(k_nextpid)) (r.(k_initproc)) (r.(k_first)) (r.(k_ticks))
    (r.(k_head_ref)) (r.(k_bufs)) (r.(k_disk)) (r.(k_log)) (r.(k_sb))
    (r.(k_inodes)) (r.(k_files)) (r.(k_out)) (r.(k_dwrites)) (r.(k_vdisk))
    (r.(k_cons)) (r.(k_uart)) v (r.(k_soc)) (r.(k_devsw)) (r.(k_panicked))
    (r.(k_pr_locking)) (r.(k_started)).
Definition set_k_soc (v : soc) (r : kstate) : kstate :=
  mk_kstate (r.(k_hart)) (r.(k_cpus)) (r.(k_locks)) (r.(k_slocks))
    (r.(k_mem)) (r.(k_freelist)) (r.(k_kpgtbl)) (r.(k_procs))
    (r.(k_nextpid)) (r.(k_initproc)) (r.(k_first)) (r.(k_ticks))
    (r.(k_head_ref)) (r.(k_bufs)) (r.(k_disk)) (r.(k_log)) (r.(k_sb))
    (r.(k_inodes)) (r.(k_files)) (r.(k_out)) (r.(k_dwrites)) (r.(k_vdisk))
    (r.(k_cons)) (r.(k_uart)) (r.(k_csrs)) v (r.(k_devsw)) (r.(k_panicked))
    (r.(k_pr_locking)) (r.(k_started)).
Definition set_k_devsw (v : list bool) (r : kstate) : kstate :=
  mk_kstate (r.(k_hart)) (r.(k_cpus)) (r.(k_locks)) (r.(k_slocks))
    (r.(k_mem)) (r.(k_freelist)) (r.(k_kpgtbl)) (r.(k_procs))
    (r.(k_nextpid)) (r.(k_initproc)) (r.(k_first)) (r.(k_ticks))
    (r.(k_head_ref)) (r.(k_bufs)) (r.(k_disk)) (r.(k_log)) (r.(k_sb))
    (r.(k_inodes)) (r.(k_files)) (r.(k_out)) (r.(k_dwrites)) (r.(k_vdisk))
    (r.(k_cons)) (r.(k_uart)) (r.(k_csrs)) (r.(k_soc)) v (r.(k_panicked))
    (r.(k_pr_locking)) (r.(k_started)).
Definition set_k_panicked (v : bool) (r : kstate) : kstate :=
  mk_kstate (r.(k_hart)) (r.(k_cpus)) (r.(k_locks)) (r.(k_slocks))
    (r.(k_mem)) (r.(k_freelist)) (r.(k_kpgtbl)) (r.(k_procs))
    (r.(k_nextpid)) (r.(k_initproc)) (r.(k_first)) (r.(k_ticks))
    (r.(k_head_ref)) (r.(k_bufs)) (r.(k_disk)) (r.(k_log)) (r.(k_sb))
    (r.(k_inodes)) (r.(k_files)) (r.(k_out)) (r.(k_dwrites)) (r.(k_vdisk))
    (r.(k_cons)) (r.(k_uart)) (r.(k_csrs)) (r.(k_soc)) (r.(k_devsw)) v
    (r.(k_pr_locking)) (r.(k_started)).
Definition set_k_pr_locking (v : bool) (r : kstate) : kstate :=
  mk_kstate (r.(k_hart)) (r.(k_cpus)) (r.(k_locks)) (r.(k_slocks))
    (r.(k_mem)) (r.(k_freelist)) (r.(k_kpgtbl)) (r.(k_procs))
    (r.(k_nextpid)) (r.(k_initproc)) (r.(k_first)) (r.(k_ticks))
    (r.(k_head_ref)) (r.(k_bufs)) (r.(k_disk)) (r.(k_log)) (r.(k_sb))
    (r.(k_inodes)) (r.(k_files)) (r.(k_out)) (r.(k_dwrites)) (r.(k_vdisk))
    (r.(k_cons)) (r.(k_uart)) (r.(k_csrs)) (r.(k_soc)) (r.(k_devsw))
    (r.(k_panicked)) v (r.(k_started)).
Definition set_k_started (v : bool) (r : kstate) : kstate :=
  mk_kstate (r.(k_hart)) (r.(k_cpus)) (r.(k_locks)) (r.(k_slocks))
    (r.(k_mem)) (r.(k_freelist)) (r.(k_kpgtbl)) (r.(k_procs))
    (r.(k_nextpid)) (r.(k_initproc)) (r.(k_first)) (r.(k_ticks))
    (r.(k_head_ref)) (r.(k_bufs)) (r.(k_disk)) (r.(k_log)) (r.(k_sb))
    (r.(k_inodes)) (r.(k_files)) (r.(k_out)) (r.(k_dwrites)) (r.(k_vdisk))
    (r.(k_cons)) (r.(k_uart)) (r.(k_csrs)) (r.(k_soc)) (r.(k_devsw))
    (r.(k_panicked)) (r.(k_pr_locking)) v.


(** A lock as [initlock] leaves it, and as [acquire] leaves it on cpu [c]. *)
Definition unlocked (name : string) : spinlock := mk_spinlock 0 name None.
Definition held_by (name : string) (c : nat) : spinlock := mk_spinlock 1 name (Some c).

(** Update of one table entry of the state. *)
Definition upd_proc (i : nat) (f : proc → proc) (s : kstate) : kstate :=
  set_k_procs (alter f i s.(k_procs)) s.
Definition upd_cpu (f : cpu → cpu) (s : kstate) : kstate :=
  set_k_cpus (alter f s.(k_hart) s.(k_cpus)) s.
Definition upd_lock (l : lockid) (lk : spinlock) (s : kstate) : kstate :=
  set_k_locks (<[l:=lk]> s.(k_locks)) s.
Definition upd_buf (i : nat) (f : buf → buf) (s : kstate) : kstate :=
  set_k_bufs (alter f i s.(k_bufs)) s.
Definition upd_inode (i : nat) (f : inode → inode) (s : kstate) : kstate :=
  set_k_inodes (alter f i s.(k_inodes)) s.
Definition upd_file (i : nat) (f : file → file) (s : kstate) : kstate :=
  set_k_files (alter f i s.(k_files)) s.

(** [p->field] for a pointer [p] into the process table. *)
Definition proc_get {A} (i : nat) (f : proc → A) : M kstate A :=
  ps ← gets k_procs; p ← opt_or_fault (ps !! i); mret (f p).
Definition proc_set (i : nat) (f : proc → proc) : M kstate unit :=
  modify (upd_proc i f).

(** The same for the buffer cache, the inode table and the file table. *)
Definition buf_get {A} (i : nat) (f : buf → A) : M kstate A :=
  bs ← gets k_bufs; b ← opt_or_fault (bs !! i); mret (f b).
Definition buf_set (i : nat) (f : buf → buf) : M kstate unit := modify (upd_buf i f).
Definition inode_get {A} (i : nat) (f : inode → A) : M kstate A :=
  ips ← gets k_inodes; ip ← opt_or_fault (ips !! i); mret (f ip).
Definition inode_set (i : nat) (f : inode → inode) : M kstate unit := modify (upd_inode i f).
Definition file_get {A} (i : nat) (f : file → A) : M kstate A :=
  fs ← gets k_files; x ← opt_or_fault (fs !! i); mret (f x).
Definition file_set (i : nat) (f : file → file) : M kstate unit := modify (upd_file i f).
Definition log_get {A} (f : log → A) : M kstate A := gets (λ s, f s.(k_log)).
Definition log_set (f : log → log) : M kstate unit :=
  modify (λ s, set_k_log (f s.(k_log)) s).

(** Reads and writes of physical memory. *)
Definition mem_read {A} (f : gmap Z Z → A) : M kstate A := gets (λ s, f s.(k_mem)).
Definition mem_write (f : gmap Z Z → gmap Z Z) : M kstate unit :=
  modify (λ s, set_k_mem (f s.(k_mem)) s).

Definition printf (fmt : string) (args : list printf_arg) : M kstate unit :=
  modify (λ s, set_k_out (Printf fmt args :: s.(k_out)) s).

(** ** The effect of one nesting level on the cpu *)

Definition cpu_enter (c : cpu) : cpu :=
  mk_cpu c.(c_proc) (c.(c_noff) + 1)
    (if c.(c_noff) =? 0 then c.(c_sie) else c.(c_intena)) false.

Definition cpu_leave (c : cpu) : cpu :=
  mk_cpu c.(c_proc) (c.(c_noff) - 1) c.(c_intena)
    (if (c.(c_noff) - 1 =? 0) && c.(c_intena) then true else c.(c_sie)).

(** What a balanced pair leaves behind: the interrupt state is restored, and
    [intena] holds the state found at the outermost [push_off]. *)
Definition cpu_settle (c : cpu) : cpu :=
  if c.(c_noff) =? 0 then set_c_intena c.(c_sie) c else c.

(** The invariant of [noff]: it counts, and interrupts are off inside. *)
Definition cpu_wf (c : cpu) : Prop :=
  0 ≤ c.(c_noff) ∧ (0 < c.(c_noff) → c.(c_sie) = false).

(** The executing hart has a well-formed cpu. *)
Definition hart_wf (s : kstate) : Prop :=
  ∃ c, s.(k_cpus) !! s.(k_hart) = Some c ∧ cpu_wf c.

Definition enter (s : kstate) : kstate := upd_cpu cpu_enter s.
Definition leave (s : kstate) : kstate := upd_cpu cpu_leave s.
Definition settle (s : kstate) : kstate := upd_cpu cpu_settle s.

(** ** A machine at boot

    Every table zeroed, the spin locks initialised, interrupts off. *)

Definition context0 : context := mk_context 0 0 (replicate 12 0).
Definition cpu0 : cpu := mk_cpu None 0 false false.
Definition proc0 : proc :=
  mk_proc UNUSED Ch_null 0 0 0 None 0 0 0 0 context0 (replicate NOFILE None) None
    (replicate 16 0) 0 0.
Definition buf0 : buf := mk_buf false false 0 0 0 0 0 (replicate 1024 0).
Definition inode0 : inode := mk_inode 0 0 0 false 0 0 0 0 0 (replicate 13 0).
Definition file0 : file := mk_file FD_NONE 0 false false 0 None 0 0.
Definition log0 : log := mk_log 0 0 0 false 0 0 (replicate 30 0).
Definition superblock0 : superblock := mk_superblock 0 0 0 0 0 0 0 0.

Definition csrs0 : csrs := mk_csrs 0 0 0 0 0 0 0 0 0 0 0 0 0 0 0 0 0.
Definition console0 : console := mk_console (replicate 128 0) 0 0 0.
Definition uart0 : uart := mk_uart ∅ [] [] [] (replicate 32 0) 0 0.
Definition vdisk0 : vdisk :=
  mk_vdisk (replicate 8 (mk_vdesc V_null 0 0 0)) 0 (replicate 8 0) 0 (replicate 8 0)
    (replicate 8 false) 0 (replicate 8 (mk_vinfo None 0)) (replicate 8 (mk_vreq 0 0 0)) [] ∅.

Definition static_locks : list (lockid * string) :=
  [(L_kmem, "kmem"); (L_pid, "nextpid"); (L_wait, "wait_lock"); (L_tick, "time");
   (L_list, "list_lock"); (L_bcache, "bcache"); (L_itable, "itable");
   (L_ftable, "ftable"); (L_log, "log"); (L_cons, "cons"); (L_uart_tx, "uart");
   (L_pr, "pr"); (L_vdisk, "virtio_disk")]
  ++ ((λ i, (L_proc i, "proc")) <$> seq 0 NPROC)
  ++ ((λ i, (L_sl (SL_buf i), "sleep lock")) <$> seq 0 NBUF)
  ++ ((λ i, (L_sl (SL_inode i), "sleep lock")) <$> seq 0 NINODE).

Definition kstate0 : kstate := {|
  k_hart := 0; k_cpus := replicate NCPU cpu0;
  k_locks := list_to_map ((λ p, (p.1, unlocked p.2)) <$> static_locks);
  k_slocks := list_to_map
    (((λ i, (SL_buf i, mk_sleeplock 0 "buffer" 0)) <$> seq 0 NBUF) ++
     ((λ i, (SL_inode i, mk_sleeplock 0 "inode" 0)) <$> seq 0 NINODE));
  k_mem := ∅; k_freelist := 0; k_kpgtbl := 0;
  k_procs := replicate NPROC proc0; k_nextpid := 1; k_initproc := None;
  k_first := true; k_ticks := 0; k_head_ref := 0;
  k_bufs := replicate (S NBUF) buf0; k_disk := ∅; k_log := log0;
  k_sb := superblock0; k_inodes := replicate NINODE inode0;
  k_files := replicate NFILE file0; k_out := [];
  k_dwrites := []; k_vdisk := vdisk0; k_cons := console0; k_uart := uart0;
  k_csrs := replicate NCPU csrs0; k_soc := mk_soc ∅ [] ∅;
  k_devsw := replicate (Z.to_nat NDEV) false; k_panicked := false;
  k_pr_locking := false; k_started := false |}.

(** The state a run that returns ends in. *)
Definition final_state {A} (o : outcome kstate A) : kstate :=
  match o with Done _ s => s | _ => kstate0 end.

(** ** Automation

    [kproj] computes the fields of an updated state: [k_mem (upd_lock l lk s)]
    becomes [k_mem s].  [mred] unfolds the plumbing of the monad and leaves the
    calls of modelled functions. *)

Ltac kcbv t :=
  eval cbn [
    k_hart k_cpus k_locks k_slocks k_mem k_freelist k_kpgtbl k_procs
    k_nextpid k_initproc k_first k_ticks k_head_ref k_bufs k_disk k_log
    k_sb k_inodes k_files k_out k_dwrites k_vdisk k_cons k_uart k_csrs
    k_soc k_devsw k_panicked k_pr_locking k_started set_k_hart
    set_k_cpus set_k_locks set_k_slocks set_k_mem set_k_freelist
    set_k_kpgtbl set_k_procs set_k_nextpid set_k_initproc set_k_first
    set_k_ticks set_k_head_ref set_k_bufs set_k_disk set_k_log set_k_sb
    set_k_inodes set_k_files set_k_out set_k_dwrites set_k_vdisk
    set_k_cons set_k_uart set_k_csrs set_k_soc set_k_devsw
    set_k_panicked set_k_pr_locking set_k_started upd_proc upd_cpu
    upd_lock upd_buf upd_inode upd_file enter leave settle] in t.

Ltac kproj1 P :=
  match goal with
  | |- context [P ?S] => let v := kcbv (P S) in progress change (P S) with v
  end.

Ltac kproj :=
  repeat first [
      kproj1 k_hart
    | kproj1 k_cpus
    | kproj1 k_locks
    | kproj1 k_slocks
    | kproj1 k_mem
    | kproj1 k_freelist
    | kproj1 k_kpgtbl
    | kproj1 k_procs
    | kproj1 k_nextpid
    | kproj1 k_initproc
    | kproj1 k_first
    | kproj1 k_ticks
    | kproj1 k_head_ref
    | kproj1 k_bufs
    | kproj1 k_disk
    | kproj1 k_log
    | kproj1 k_sb
    | kproj1 k_inodes
    | kproj1 k_files
    | kproj1 k_out
    | kproj1 k_dwrites
    | kproj1 k_vdisk
    | kproj1 k_cons
    | kproj1 k_uart
    | kproj1 k_csrs
    | kproj1 k_soc
    | kproj1 k_devsw
    | kproj1 k_panicked
    | kproj1 k_pr_locking
    | kproj1 k_started].

Ltac mred :=
  cbv beta delta [mbind M_bind mret M_ret gets modify panic fault spin nofuel
                  opt_or_fault when proc_get proc_set mem_read
                  mem_write printf buf_get buf_set inode_get inode_set
                  file_get file_set log_get log_set];
  cbn [obind]; kproj.

(** States with equal fields are equal; [keq] proves equalities of updated
    states field by field. *)
Lemma kstate_eq (s s' : kstate) :
  s.(k_hart) = s'.(k_hart) →
  s.(k_cpus) = s'.(k_cpus) →
  s.(k_locks) = s'.(k_locks) →
  s.(k_slocks) = s'.(k_slocks) →
  s.(k_mem) = s'.(k_mem) →
  s.(k_freelist) = s'.(k_freelist) →
  s.(k_kpgtbl) = s'.(k_kpgtbl) →
  s.(k_procs) = s'.(k_procs) →
  s.(k_nextpid) = s'.(k_nextpid) →
  s.(k_initproc) = s'.(k_initproc) →
  s.(k_first) = s'.(k_first) →
  s.(k_ticks) = s'.(k_ticks) →
  s.(k_head_ref) = s'.(k_head_ref) →
  s.(k_bufs) = s'.(k_bufs) →
  s.(k_disk) = s'.(k_disk) →
  s.(k_log) = s'.(k_log) →
  s.(k_sb) = s'.(k_sb) →
  s.(k_inodes) = s'.(k_inodes) →
  s.(k_files) = s'.(k_files) →
  s.(k_out) = s'.(k_out) →
  s.(k_dwrites) = s'.(k_dwrites) →
  s.(k_vdisk) = s'.(k_vdisk) →
  s.(k_cons) = s'.(k_cons) →
  s.(k_uart) = s'.(k_uart) →
  s.(k_csrs) = s'.(k_csrs) →
  s.(k_soc) = s'.(k_soc) →
  s.(k_devsw) = s'.(k_devsw) →
  s.(k_panicked) = s'.(k_panicked) →
  s.(k_pr_locking) = s'.(k_pr_locking) →
  s.(k_started) = s'.(k_started) →
  s = s'.
Proof. destruct s, s'; simpl; intros; by subst. Qed.

Ltac keq := apply kstate_eq; kproj; try reflexivity.

(** Goals [Done a s = Done a s'], and the side conditions of the rules of the
    components, up to the fields of updated states. *)
Ltac done_eq :=
  lazymatch goal with |- Done ?a _ = Done ?a _ => apply (f_equal (Done a)) end; keq.

Ltac kside :=
  first [ assumption
        | kproj; first [assumption | reflexivity]
        | unfold hart_wf; kproj; assumption ].

(** Two updates of the same cell. *)
Lemma upd_cpu_compose f g s : upd_cpu f (upd_cpu g s) = upd_cpu (f ∘ g) s.
Proof. unfold upd_cpu. kproj. by rewrite list_alter_alter. Qed.

Lemma upd_cpu_ext f g s c :
  s.(k_cpus) !! s.(k_hart) = Some c → f c = g c → upd_cpu f s = upd_cpu g s.
Proof.
  intros Hc Hfg. unfold upd_cpu. f_equal. apply list_alter_agree.
  intros x Hx. by simplify_eq.
Qed.

Ltac cpu_lookup :=
  kproj; rewrite ?list_lookup_alter_eq;
  match goal with H : k_cpus _ !! _ = Some _ |- _ => rewrite H end; reflexivity.
