(* ===== verification/Spinlock.v ===== *)
(** * Spin locks and interrupt nesting ([kernel/spinlock.c])

    [push_off]/[pop_off], [acquire]/[release]/[holding], and the functions of
    [kernel/proc.c] that find the current cpu and process.  The lemmas give
    the exact effect of each operation; [acquire_ok] and [release_ok] are what
    the other components use. *)

From S2P Require Import Prelude State.

(** ** The current cpu *)

(** [cpuid()]: the hart number kept in register [tp]. *)
Definition cpuid : M kstate nat := gets k_hart.

(** [mycpu()]: [&cpus[cpuid()]]; the result is the struct's contents, writes go
    through [upd_cpu]. *)
Definition mycpu : M kstate cpu :=
  id ← cpuid;
  cs ← gets k_cpus;
  opt_or_fault (cs !! id).

(** ** Interrupt control *)

Definition intr_get : M kstate bool := c ← mycpu; mret c.(c_sie).
Definition intr_off : M kstate unit := modify (upd_cpu (set_c_sie false)).
Definition intr_on : M kstate unit := modify (upd_cpu (set_c_sie true)).

Definition push_off : M kstate unit :=
  old ← intr_get;
  intr_off;;
  c ← mycpu;
  when (c.(c_noff) =? 0) (modify (upd_cpu (set_c_intena old)));;
  modify (upd_cpu (λ c, set_c_noff (c.(c_noff) + 1) c)).

Definition pop_off : M kstate unit :=
  c ← mycpu;
  i ← intr_get;
  if i : bool then panic "pop_off - interruptible" else
  if c.(c_noff) <? 1 then panic "pop_off" else
  modify (upd_cpu (λ c, set_c_noff (c.(c_noff) - 1) c));;
  c ← mycpu;
  when ((c.(c_noff) =? 0) && c.(c_intena)) intr_on.

(** [myproc()]: the process running on this cpu. *)
Definition myproc : M kstate (option nat) :=
  push_off;;
  c ← mycpu;
  let p := c.(c_proc) in
  pop_off;;
  mret p.

(** ** Locks *)

(** A lock that was never initialised is zeroed static memory. *)
Definition get_lock (l : lockid) : M kstate spinlock :=
  ls ← gets k_locks; mret (default (mk_spinlock 0 "" None) (ls !! l)).

Definition put_lock (l : lockid) (lk : spinlock) : M kstate unit :=
  modify (upd_lock l lk).

Definition initlock (l : lockid) (name : string) : M kstate unit :=
  put_lock l (unlocked name).

Definition holding (l : lockid) : M kstate bool :=
  lk ← get_lock l;
  if negb (lk.(locked) =? 0) then
    id ← cpuid; mret (bool_decide (lk.(lk_cpu) = Some id))
  else mret false.

Definition acquire (l : lockid) : M kstate unit :=
  push_off;;
  h ← holding l;
  if h : bool then panic "acquire" else
  (* while(__sync_lock_test_and_set(&lk->locked, 1) != 0) ; *)
  lk ← get_lock l;
  put_lock l (set_locked 1 lk);;
  if negb (lk.(locked) =? 0) then spin else
  id ← cpuid;
  lk ← get_lock l;
  put_lock l (set_lk_cpu (Some id) lk).

Definition release (l : lockid) : M kstate unit :=
  h ← holding l;
  if negb h then panic "release" else
  lk ← get_lock l;
  put_lock l (set_lk_cpu None lk);;
  lk ← get_lock l;
  put_lock l (set_locked 0 lk);;
  pop_off.

(** ** Nesting levels *)

Lemma cpu_settle_idemp c : cpu_settle (cpu_settle c) = cpu_settle c.
Proof. unfold cpu_settle. destruct c as [p n i e]; simpl. by destruct (n =? 0) eqn:E; simpl; rewrite ?E. Qed.

Lemma settle_cpus_idemp h (cs : list cpu) :
  alter cpu_settle h (alter cpu_settle h cs) = alter cpu_settle h cs.
Proof. rewrite list_alter_alter. apply list_alter_agree. intros. apply cpu_settle_idemp. Qed.

Lemma cpu_leave_enter c : cpu_wf c → cpu_leave (cpu_enter c) = cpu_settle c.
Proof.
  destruct c as [p n i e]. unfold cpu_wf, cpu_leave, cpu_enter, cpu_settle; simpl.
  intros [Hn Hs]. replace (n + 1 - 1) with n by lia.
  destruct (Z.eqb_spec n 0) as [->|Hn0]; simpl.
  - by destruct e.
  - rewrite Hs by lia. done.
Qed.

(** ** Exact effect of the primitives *)

Section Effects.
Implicit Types (s : kstate) (l : lockid) (c : cpu).

Lemma mycpu_ok s c :
  s.(k_cpus) !! s.(k_hart) = Some c → mycpu s = Done c s.
Proof. intros H. unfold mycpu, cpuid. mred. by rewrite H. Qed.

Lemma intr_get_ok s c :
  s.(k_cpus) !! s.(k_hart) = Some c → intr_get s = Done c.(c_sie) s.
Proof. intros H. unfold intr_get. mred. by rewrite (mycpu_ok _ _ H). Qed.

Lemma push_off_ok s c :
  s.(k_cpus) !! s.(k_hart) = Some c → push_off s = Done tt (enter s).
Proof.
  intros H. unfold push_off. mred. rewrite (intr_get_ok _ _ H). cbn [obind].
  unfold intr_off. mred.
  rewrite (mycpu_ok _ (set_c_sie false c)) by cpu_lookup.
  cbn [obind]. destruct c as [p n i e]; simpl in *.
  destruct (Z.eqb_spec n 0) as [->|Hn]; cbn [obind]; f_equal;
    rewrite !upd_cpu_compose; eapply upd_cpu_ext; [done| |done|];
    unfold cpu_enter; simpl.
  - done.
  - by rewrite (proj2 (Z.eqb_neq n 0) Hn).
Qed.

Lemma pop_off_ok s c :
  s.(k_cpus) !! s.(k_hart) = Some c → c.(c_sie) = false → 1 ≤ c.(c_noff) →
  pop_off s = Done tt (leave s).
Proof.
  intros H He Hn. unfold pop_off. mred. rewrite (mycpu_ok _ _ H). cbn [obind].
  rewrite (intr_get_ok _ _ H). cbn [obind]. rewrite He.
  rewrite (proj2 (Z.ltb_ge _ _) Hn). mred.
  erewrite mycpu_ok by cpu_lookup. cbn [obind].
  unfold leave, intr_on. destruct c as [p n i e]; simpl in *. subst e.
  destruct ((n - 1 =? 0) && i) eqn:E; mred; f_equal;
    rewrite ?upd_cpu_compose; eapply upd_cpu_ext; try done;
    unfold cpu_leave; simpl; by rewrite E.
Qed.

(** [pop_off] without a matching [push_off], or with interrupts on, panics. *)
Lemma pop_off_panics s c :
  s.(k_cpus) !! s.(k_hart) = Some c →
  c.(c_sie) = true ∨ c.(c_noff) < 1 →
  ∃ msg, pop_off s = Panic msg s.
Proof.
  intros H Hc. unfold pop_off. mred. rewrite (mycpu_ok _ _ H). cbn [obind].
  rewrite (intr_get_ok _ _ H). cbn [obind].
  destruct (c_sie c) eqn:E; [eauto|].
  destruct Hc as [|Hc]; [done|]. rewrite (proj2 (Z.ltb_lt _ _) Hc). eauto.
Qed.

Lemma settle_settle s : settle (settle s) = settle s.
Proof.
  unfold settle. rewrite upd_cpu_compose. unfold upd_cpu. f_equal.
  apply list_alter_agree. intros. apply cpu_settle_idemp.
Qed.

Lemma leave_enter s : hart_wf s → leave (enter s) = settle s.
Proof.
  intros (c & Hc & Hwf). unfold leave, enter, settle. rewrite upd_cpu_compose.
  eapply upd_cpu_ext; [done|]. by apply cpu_leave_enter.
Qed.

Lemma hart_wf_ext s s' :
  s'.(k_cpus) = s.(k_cpus) → s'.(k_hart) = s.(k_hart) → hart_wf s → hart_wf s'.
Proof. intros H1 H2 (c & Hc & Hw). exists c. by rewrite H1, H2. Qed.

Lemma hart_wf_enter s : hart_wf s → hart_wf (enter s).
Proof.
  intros (c & Hc & Hn & Hs). exists (cpu_enter c). split.
  - unfold enter. cpu_lookup.
  - unfold cpu_enter, cpu_wf; simpl. lia.
Qed.

Lemma cpu_wf_settle c : cpu_wf c → cpu_wf (cpu_settle c).
Proof. unfold cpu_wf, cpu_settle. destruct (c_noff c =? 0); done. Qed.

Lemma hart_wf_settle s : hart_wf s → hart_wf (settle s).
Proof.
  intros (c & Hc & Hwf). exists (cpu_settle c). split.
  - unfold settle. cpu_lookup.
  - by apply cpu_wf_settle.
Qed.

Lemma myproc_ok s c :
  s.(k_cpus) !! s.(k_hart) = Some c → cpu_wf c →
  myproc s = Done c.(c_proc) (settle s).
Proof.
  intros H Hwf. unfold myproc. mred. rewrite (push_off_ok _ _ H). cbn [obind].
  rewrite (mycpu_ok _ (cpu_enter c)) by cpu_lookup. cbn [obind].
  erewrite pop_off_ok; [|unfold enter; cpu_lookup|done|].
  - cbn [obind]. rewrite leave_enter; [done|]. by exists c.
  - destruct Hwf. unfold cpu_enter; simpl. lia.
Qed.

Lemma get_lock_ok s l lk :
  s.(k_locks) !! l = Some lk → get_lock l s = Done lk s.
Proof. intros H. unfold get_lock. mred. by rewrite H. Qed.

Lemma holding_unlocked s l name :
  s.(k_locks) !! l = Some (unlocked name) → holding l s = Done false s.
Proof. intros H. unfold holding. mred. by rewrite (get_lock_ok _ _ _ H). Qed.

Lemma holding_held s l name (c : nat) :
  s.(k_locks) !! l = Some (held_by name c) →
  holding l s = Done (bool_decide (c = s.(k_hart))) s.
Proof.
  intros H. unfold holding. mred. rewrite (get_lock_ok _ _ _ H). cbn [obind].
  unfold cpuid. mred. simpl. f_equal. apply bool_decide_ext. naive_solver.
Qed.

Lemma acquire_ok s l name :
  hart_wf s → s.(k_locks) !! l = Some (unlocked name) →
  acquire l s = Done tt (upd_lock l (held_by name s.(k_hart)) (enter s)).
Proof.
  intros (c & Hc & _) Hl. unfold acquire. mred.
  rewrite (push_off_ok _ _ Hc). cbn [obind].
  rewrite (holding_unlocked _ _ name) by done. cbn [obind].
  rewrite (get_lock_ok _ _ (unlocked name)) by done. cbn [obind].
  unfold put_lock, cpuid. mred. cbn [negb locked unlocked Z.eqb]. kproj.
  rewrite (get_lock_ok _ _ (mk_spinlock 1 name None)) by (kproj; apply lookup_insert_eq).
  cbn [obind]. unfold upd_lock at 1. kproj. rewrite insert_insert_eq. done.
Qed.

(** Taking a lock this cpu already holds panics instead of deadlocking. *)
Lemma acquire_reacquire s l name :
  hart_wf s → s.(k_locks) !! l = Some (held_by name s.(k_hart)) →
  acquire l s = Panic "acquire" (enter s).
Proof.
  intros (c & Hc & _) Hl. unfold acquire. mred.
  rewrite (push_off_ok _ _ Hc). cbn [obind].
  rewrite (holding_held _ _ name (k_hart s)) by done. cbn [obind].
  kproj. by rewrite bool_decide_eq_true_2.
Qed.

Lemma release_ok s l name c :
  s.(k_locks) !! l = Some (held_by name s.(k_hart)) →
  s.(k_cpus) !! s.(k_hart) = Some c → c.(c_sie) = false → 1 ≤ c.(c_noff) →
  release l s = Done tt (leave (upd_lock l (unlocked name) s)).
Proof.
  intros Hl Hc He Hn. unfold release. mred.
  rewrite (holding_held _ _ name (k_hart s)) by done. cbn [obind].
  rewrite bool_decide_eq_true_2 by done. cbn [negb]. cbv beta.
  rewrite (get_lock_ok _ _ _ Hl). cbn [obind]. unfold put_lock. mred.
  rewrite (get_lock_ok _ _ (mk_spinlock 1 name None)) by (kproj; apply lookup_insert_eq).
  cbn [obind]. unfold upd_lock. kproj. rewrite insert_insert_eq.
  rewrite (pop_off_ok _ c) by done. done.
Qed.

(** Releasing a lock that this cpu does not hold panics. *)
Lemma release_not_holding s l name (c : nat) :
  s.(k_locks) !! l = Some (held_by name c) ∧ c ≠ s.(k_hart) ∨
  s.(k_locks) !! l = Some (unlocked name) →
  release l s = Panic "release" s.
Proof.
  intros [[Hl Hne]|Hl]; unfold release; mred.
  - rewrite (holding_held _ _ _ _ Hl). cbn [obind].
    by rewrite bool_decide_eq_false_2.
  - by rewrite (holding_unlocked _ _ _ Hl).
Qed.

(** The end of a critical section entered from [s]: whatever the section did to
    the rest of the state, the lock and the cpu are back as they were, up to
    the recorded interrupt state. *)
Lemma release_bracket s s2 l name :
  hart_wf s → s.(k_locks) !! l = Some (unlocked name) →
  s2.(k_cpus) = (enter s).(k_cpus) → s2.(k_hart) = s.(k_hart) →
  s2.(k_locks) = <[l:=held_by name s.(k_hart)]> s.(k_locks) →
  release l s2 = Done tt (settle (set_k_cpus s.(k_cpus) (set_k_locks s.(k_locks) s2))).
Proof.
  intros Hwf Hl Hcpus Hhart Hlocks. pose proof Hwf as (c & Hc & Hn & Hs).
  rewrite (release_ok _ _ name (cpu_enter c)).
  - f_equal. unfold settle, leave, upd_cpu, upd_lock. kproj.
    rewrite Hcpus, Hlocks, Hhart, insert_insert_eq, insert_id by done.
    unfold enter, upd_cpu. kproj. rewrite list_alter_alter.
    erewrite (list_alter_agree _ cpu_settle); [done|].
    intros x Hx. simplify_eq. by apply cpu_leave_enter.
  - rewrite Hlocks, Hhart. apply lookup_insert_eq.
  - rewrite Hcpus, Hhart. unfold enter. cpu_lookup.
  - done.
  - unfold cpu_enter; simpl. lia.
Qed.

End Effects.
