(* ===== verification/Cstring.v ===== *)
(** * Memory and strings ([kernel/string.c])

    Physical memory is a finite map from addresses to bytes; a byte that was
    never written reads as zero.  [load]/[store] are the little-endian accesses
    of the machine.  The functions of [kernel/string.c] that write through
    pointers into RAM ([memset], [memmove]) work on memory; those that read or
    fill character arrays work on the bytes of the array from the pointer on,
    [None] standing for a run past the end of the array. *)

From S2P Require Import Prelude.

Abbreviation mem := (gmap Z Z).

(** ** Bytes and words *)

Definition byte_at (m : mem) (a : Z) : Z := default 0 (m !! a).

(** The [n]-byte little-endian word at address [a]. *)
Fixpoint load (n : nat) (m : mem) (a : Z) : Z :=
  match n with
  | O => 0
  | S n => byte_at m a + 2 ^ 8 * load n m (a + 1)
  end.

Fixpoint store (n : nat) (a v : Z) (m : mem) : mem :=
  match n with
  | O => m
  | S n => <[a:=u8 v]> (store n (a + 1) (v / 2 ^ 8) m)
  end.

Abbreviation load32 := (load 4).
Abbreviation load64 := (load 8).
Abbreviation store32 := (store 4).
Abbreviation store64 := (store 8).

(** The bytes of [n] consecutive addresses. *)
Definition bytes_at (m : mem) (a : Z) (n : nat) : list Z :=
  (λ i, byte_at m (a + Z.of_nat i)) <$> seq 0 n.

(** Write a list of bytes at consecutive addresses. *)
Fixpoint write_bytes (a : Z) (bs : list Z) (m : mem) : mem :=
  match bs with
  | [] => m
  | b :: bs => write_bytes (a + 1) bs (<[a:=b]> m)
  end.

(** The [n] bytes of a little-endian word. *)
Fixpoint le_bytes (n : nat) (v : Z) : list Z :=
  match n with
  | O => []
  | S n => u8 v :: le_bytes n (v / 2 ^ 8)
  end.

(** The word that a list of bytes represents. *)
Fixpoint of_le (bs : list Z) : Z :=
  match bs with
  | [] => 0
  | b :: bs => b + 2 ^ 8 * of_le bs
  end.

(** Fields of a struct laid out in an array of bytes: the [n]-byte word at
    offset [off], and the store of bytes at an offset. *)
Definition get_le (n off : nat) (bs : list Z) : Z := of_le (take n (drop off bs)).
Definition splice (off : nat) (new bs : list Z) : list Z :=
  take off bs ++ new ++ drop (off + length new) bs.
Definition put_le (n off : nat) (v : Z) (bs : list Z) : list Z := splice off (le_bytes n v) bs.

(** A string literal as bytes, with its terminator. *)
Definition cstring (s : string) : list Z :=
  (Z.of_N ∘ Ascii.N_of_ascii <$> String.list_ascii_of_string s) ++ [0].

(** ** [memset], [memmove] *)

Definition memset (dst c : Z) (n : nat) (m : mem) : mem :=
  foldl (λ m i, <[dst + Z.of_nat i:=u8 c]> m) m (seq 0 n).

(** The two copy loops of [memmove]: one step each is [*d++ = *s++] or
    [*--d = *--s]. *)
Fixpoint memmove_fwd (d s : Z) (n : nat) (m : mem) : mem :=
  match n with
  | O => m
  | S n => memmove_fwd (d + 1) (s + 1) n (<[d:=byte_at m s]> m)
  end.

Fixpoint memmove_bwd (d s : Z) (n : nat) (m : mem) : mem :=
  match n with
  | O => m
  | S n => memmove_bwd (d - 1) (s - 1) n (<[d - 1:=byte_at m (s - 1)]> m)
  end.

Definition memmove (dst src : Z) (n : nat) (m : mem) : mem :=
  if (n =? 0)%nat then m else
  if (src <? dst) && (dst <? src + Z.of_nat n) then
    memmove_bwd (dst + Z.of_nat n) (src + Z.of_nat n) n m
  else memmove_fwd dst src n m.

Definition memcpy (dst src : Z) (n : nat) (m : mem) : mem := memmove dst src n m.

(** ** Character arrays *)

Fixpoint memcmp (s1 s2 : list Z) (n : nat) : option Z :=
  match n with
  | O => Some 0
  | S n =>
      match s1, s2 with
      | c1 :: s1, c2 :: s2 => if negb (c1 =? c2) then Some (c1 - c2) else memcmp s1 s2 n
      | _, _ => None
      end
  end.

Fixpoint strncmp (p q : list Z) (n : nat) : option Z :=
  match n with
  | O => Some 0
  | S n =>
      match p, q with
      | c :: p, d :: q =>
          if negb (c =? 0) && (c =? d) then strncmp p q n else Some (u8 c - u8 d)
      | _, _ => None
      end
  end.

(** The bytes [strncpy] stores into [s[0..n-1]]: the first loop copies up to and
    including the terminator, the second pads with zeros. *)
Fixpoint strncpy (t : list Z) (n : nat) : option (list Z) :=
  match n with
  | O => Some []
  | S n =>
      match t with
      | [] => None
      | c :: t =>
          if c =? 0 then Some (c :: replicate n 0)
          else r ← strncpy t n; Some (c :: r)
      end
  end.

(** The copy loop of [safestrcpy]: at most [n - 1] bytes, up to and including a
    terminator. *)
Fixpoint safestrcpy_loop (t : list Z) (n : nat) : option (list Z) :=
  match n with
  | O => Some []
  | S n =>
      match t with
      | [] => None
      | c :: t => if c =? 0 then Some [c] else r ← safestrcpy_loop t n; Some (c :: r)
      end
  end.

(** The contents of the array [s] after [safestrcpy(s, t, n)]. *)
Definition safestrcpy (s t : list Z) (n : Z) : option (list Z) :=
  if n <=? 0 then Some s else
  r ← safestrcpy_loop t (Z.to_nat (n - 1));
  let r := r ++ [0] in
  if (length r <=? length s)%nat then Some (r ++ drop (length r) s) else None.

Fixpoint strlen (s : list Z) : option Z :=
  match s with
  | [] => None
  | c :: s => if c =? 0 then Some 0 else n ← strlen s; Some (n + 1)
  end.

(** A string as C reads it: the bytes before the first terminator, at most [n]. *)
Fixpoint cstr (n : nat) (t : list Z) : list Z :=
  match n, t with
  | S n, c :: t => if c =? 0 then [] else c :: cstr n t
  | _, _ => []
  end.

(** ** Memory lemmas *)

Lemma byte_at_insert m a v x :
  byte_at (<[a:=v]> m) x = if decide (a = x) then v else byte_at m x.
Proof.
  unfold byte_at. destruct (decide (a = x)) as [->|].
  - by rewrite lookup_insert_eq.
  - by rewrite lookup_insert_ne.
Qed.

Lemma byte_at_store n a v m x :
  (x < a ∨ a + Z.of_nat n ≤ x) → byte_at (store n a v m) x = byte_at m x.
Proof.
  revert a v; induction n as [|n IH]; intros a v H; simpl; [done|].
  rewrite byte_at_insert, decide_False by lia. apply IH. lia.
Qed.

Lemma load_ext n m m' a :
  (∀ x, a ≤ x < a + Z.of_nat n → byte_at m x = byte_at m' x) → load n m a = load n m' a.
Proof.
  revert a; induction n as [|n IH]; intros a H; simpl; [done|].
  rewrite H by lia. f_equal. f_equal. apply IH. intros x Hx. apply H. lia.
Qed.

Lemma load_store_same n m a v : load n (store n a v m) a = v mod 2 ^ (8 * Z.of_nat n).
Proof.
  revert a v; induction n as [|n IH]; intros a v; simpl load; simpl store.
  - by rewrite Z.mod_1_r.
  - rewrite byte_at_insert, decide_True by done.
    rewrite (load_ext _ _ (store n (a + 1) (v / 2 ^ 8) m)).
    + rewrite IH. replace (8 * Z.of_nat (S n)) with (8 + 8 * Z.of_nat n) by lia.
      rewrite Z.pow_add_r, Z.rem_mul_r by lia. unfold u8. lia.
    + intros x Hx. by rewrite byte_at_insert, decide_False by lia.
Qed.

Lemma load_store_disjoint n k m a b v :
  a + Z.of_nat n ≤ b ∨ b + Z.of_nat k ≤ a → load n (store k b v m) a = load n m a.
Proof. intros H. apply load_ext. intros x Hx. apply byte_at_store. lia. Qed.

Lemma load_empty n a : load n ∅ a = 0.
Proof. revert a; induction n as [|n IH]; intros a; simpl; [done|]. by rewrite IH. Qed.

(** Every byte of memory is a byte. *)
Definition mem_ok (m : mem) : Prop := ∀ a, 0 ≤ byte_at m a < 2 ^ 8.

Lemma mem_ok_insert m a v : mem_ok m → 0 ≤ v < 2 ^ 8 → mem_ok (<[a:=v]> m).
Proof. intros H Hv x. rewrite byte_at_insert. case_decide; [done|apply H]. Qed.

Lemma u8_range v : 0 ≤ u8 v < 2 ^ 8.
Proof. apply Z.mod_pos_bound. lia. Qed.

Lemma mem_ok_store n a v m : mem_ok m → mem_ok (store n a v m).
Proof.
  revert a v; induction n as [|n IH]; intros a v H; simpl; [done|].
  apply mem_ok_insert; [by apply IH|apply u8_range].
Qed.

Lemma load_range n m a : mem_ok m → 0 ≤ load n m a < 2 ^ (8 * Z.of_nat n).
Proof.
  intros H. revert a; induction n as [|n IH]; intros a; simpl load; [done|].
  replace (8 * Z.of_nat (S n)) with (8 + 8 * Z.of_nat n) by lia.
  rewrite Z.pow_add_r by lia. specialize (IH (a + 1)). specialize (H a). lia.
Qed.

Lemma length_bytes_at m a n : length (bytes_at m a n) = n.
Proof. unfold bytes_at. by rewrite length_fmap, length_seq. Qed.

Lemma lookup_bytes_at m a n i :
  (i < n)%nat → bytes_at m a n !! i = Some (byte_at m (a + Z.of_nat i)).
Proof.
  intros H. unfold bytes_at. rewrite list_lookup_fmap, lookup_seq_lt by done. done.
Qed.

(** ** [memset] and [memmove] *)

Lemma memset_snoc dst c n m :
  memset dst c (S n) m = <[dst + Z.of_nat n:=u8 c]> (memset dst c n m).
Proof. unfold memset. by rewrite seq_S, foldl_app. Qed.

(** [memset] sets exactly the bytes of its range. *)
Lemma memset_spec dst c n m x :
  byte_at (memset dst c n m) x =
    if decide (dst ≤ x < dst + Z.of_nat n) then u8 c else byte_at m x.
Proof.
  induction n as [|n IH].
  - rewrite decide_False by lia. done.
  - rewrite memset_snoc, byte_at_insert, IH. repeat case_decide; try done; lia.
Qed.

Lemma bytes_at_memset dst c n m : bytes_at (memset dst c n m) dst n = replicate n (u8 c).
Proof.
  apply list_eq_same_length with n; rewrite ?length_bytes_at, ?length_replicate; try done.
  intros i x y Hi. rewrite lookup_bytes_at, lookup_replicate_2 by done.
  intros [= <-] [= <-]. by rewrite memset_spec, decide_True by lia.
Qed.

Lemma mem_ok_memset dst c n m : mem_ok m → mem_ok (memset dst c n m).
Proof. intros H x. rewrite memset_spec. case_decide; [apply u8_range|apply H]. Qed.

Lemma load_memset_zero n m a dst k :
  dst ≤ a → a + Z.of_nat n ≤ dst + Z.of_nat k → load n (memset dst 0 k m) a = 0.
Proof.
  intros H1 H2. revert a H1 H2; induction n as [|n IH]; intros a H1 H2; simpl load; [done|].
  rewrite IH by lia. rewrite memset_spec, decide_True by lia. done.
Qed.

Lemma load_memset_disjoint n m a dst c k :
  a + Z.of_nat n ≤ dst ∨ dst + Z.of_nat k ≤ a → load n (memset dst c k m) a = load n m a.
Proof.
  intros H. apply load_ext. intros x Hx. rewrite memset_spec, decide_False by lia. done.
Qed.

Lemma memmove_fwd_spec d s n m x :
  d ≤ s ∨ s + Z.of_nat n ≤ d →
  byte_at (memmove_fwd d s n m) x =
    if decide (d ≤ x < d + Z.of_nat n) then byte_at m (s + (x - d)) else byte_at m x.
Proof.
  revert d s m; induction n as [|n IH]; intros d s m H; simpl memmove_fwd.
  - by rewrite decide_False by lia.
  - rewrite IH by lia. rewrite !byte_at_insert.
    repeat case_decide; subst; try lia; try done; f_equal; lia.
Qed.

Lemma memmove_bwd_spec d s n m x :
  s < d →
  byte_at (memmove_bwd d s n m) x =
    if decide (d - Z.of_nat n ≤ x < d) then byte_at m (s + (x - d)) else byte_at m x.
Proof.
  revert d s m; induction n as [|n IH]; intros d s m H; simpl memmove_bwd.
  - by rewrite decide_False by lia.
  - rewrite IH by lia. rewrite !byte_at_insert.
    repeat case_decide; subst; try lia; try done; f_equal; lia.
Qed.

(** [memmove] copies the source as it was before the call, whatever the overlap
    of the two ranges, and touches nothing else. *)
Lemma memmove_spec dst src n m x :
  byte_at (memmove dst src n m) x =
    if decide (dst ≤ x < dst + Z.of_nat n) then byte_at m (src + (x - dst))
    else byte_at m x.
Proof.
  unfold memmove. destruct (Nat.eqb_spec n 0) as [->|Hn].
  { by rewrite decide_False by lia. }
  destruct ((src <? dst) && (dst <? src + Z.of_nat n)) eqn:E.
  - apply andb_prop in E as [E1 E2]. rewrite memmove_bwd_spec by lia.
    repeat case_decide; try lia; try done. f_equal. lia.
  - apply memmove_fwd_spec. apply andb_false_iff in E. lia.
Qed.

Lemma bytes_at_memmove dst src n m :
  bytes_at (memmove dst src n m) dst n = bytes_at m src n.
Proof.
  apply list_eq_same_length with n; rewrite ?length_bytes_at; try done.
  intros i x y Hi. rewrite !lookup_bytes_at by done. intros [= <-] [= <-].
  rewrite memmove_spec, decide_True by lia. f_equal. lia.
Qed.

(** ** Character arrays *)

Lemma memcmp_zero s1 s2 n :
  (n ≤ length s1)%nat → (n ≤ length s2)%nat →
  memcmp s1 s2 n = Some 0 ↔ take n s1 = take n s2.
Proof.
  revert s1 s2; induction n as [|n IH]; intros [|c1 s1] [|c2 s2] H1 H2;
    simpl in *; try lia; [done..|].
  destruct (Z.eqb_spec c1 c2) as [->|Hne]; simpl.
  - rewrite IH by lia. split; [by intros ->|by intros [= ?]].
  - split; [intros [= ?]; lia|by intros [= ? ?]].
Qed.

(** [strncmp] is zero exactly on arrays that hold the same C string up to [n]. *)
Lemma strncmp_zero p q n :
  Forall (λ c, 0 ≤ c < 2 ^ 8) p → Forall (λ c, 0 ≤ c < 2 ^ 8) q →
  (n ≤ length p)%nat → (n ≤ length q)%nat →
  strncmp p q n = Some 0 ↔ cstr n p = cstr n q.
Proof.
  revert p q; induction n as [|n IH]; intros [|c p] [|d q] Hp Hq H1 H2;
    simpl in *; try lia; [done..|].
  apply Forall_cons in Hp as [Hc Hp]. apply Forall_cons in Hq as [Hd Hq].
  assert (u8 c = c) as -> by (apply Z.mod_small; done).
  assert (u8 d = d) as -> by (apply Z.mod_small; done).
  destruct (Z.eqb_spec c 0) as [->|Hc0], (Z.eqb_spec d 0) as [->|Hd0]; simpl.
  - done.
  - split; [intros [= ?]; lia|done].
  - destruct (Z.eqb_spec c 0); [done|]. split; [intros [= ?]; lia|done].
  - destruct (Z.eqb_spec c d) as [->|Hne].
    + rewrite IH by (done || lia). split; [by intros ->|by intros [= ?]].
    + split; [intros [= ?]; lia|by intros [= ? ?]].
Qed.

(** [strncpy] fills the array: the C string, then zeros up to [n]. *)
Lemma strncpy_spec t n r :
  strncpy t n = Some r →
  r = cstr n t ++ replicate (n - length (cstr n t)) 0 ∧ length r = n.
Proof.
  revert t r; induction n as [|n IH]; intros [|c t] r H; simpl in *; simplify_eq/=; [done..|].
  destruct (Z.eqb_spec c 0) as [->|Hc]; simplify_eq/=.
  - split; [done|]. by rewrite length_replicate.
  - apply bind_Some in H as (r' & Hr' & [= <-]). apply IH in Hr' as [Hr' Hl].
    split; [|simpl; lia]. simpl. f_equal. done.
Qed.

Lemma cstr_length n t : (length (cstr n t) ≤ n)%nat.
Proof. revert t; induction n as [|n IH]; intros [|c t]; simpl; try lia. destruct (c =? 0); simpl; [lia|]. specialize (IH t). lia. Qed.

Lemma cstr_nonzero n t : Forall (λ c, c ≠ 0) (cstr n t).
Proof.
  revert t; induction n as [|n IH]; intros [|c t]; simpl; try constructor.
  destruct (Z.eqb_spec c 0); constructor; auto.
Qed.

Lemma safestrcpy_loop_spec t n r :
  safestrcpy_loop t n = Some r → r = cstr n t ∨ r = cstr n t ++ [0].
Proof.
  revert t r; induction n as [|n IH]; intros [|c t] r H; simpl in *; simplify_eq/=; [by left..|].
  destruct (Z.eqb_spec c 0) as [->|Hc]; simplify_eq/=; [by right|].
  apply bind_Some in H as (r' & Hr' & [= <-]). apply IH in Hr' as [->| ->]; auto.
Qed.

Lemma cstr_app_zero n t r k : (length t ≤ n)%nat → Forall (λ c, c ≠ 0) t →
  (length t < k)%nat → cstr k (t ++ 0 :: r) = t.
Proof.
  intros _ Ht. revert k; induction Ht as [|c t Hc Ht IH]; intros [|k] Hk; simpl in *; try lia; [done|].
  rewrite (proj2 (Z.eqb_neq c 0) Hc). f_equal. apply IH. lia.
Qed.

(** [safestrcpy] always leaves a terminated string, the longest prefix of the
    source that fits, and keeps the size of the array. *)
Lemma safestrcpy_spec s t n r :
  0 < n → safestrcpy s t n = Some r →
  length r = length s ∧ cstr (length r) r = cstr (Z.to_nat (n - 1)) t ∧
  0 ∈ take (Z.to_nat n) r.
Proof.
  intros Hn. unfold safestrcpy. rewrite (proj2 (Z.leb_gt n 0)) by lia.
  intros (b & Hb & H)%bind_Some. apply safestrcpy_loop_spec in Hb.
  set (k := Z.to_nat (n - 1)) in *.
  pose proof (cstr_length k t) as Hlen. pose proof (cstr_nonzero k t) as Hnz.
  assert (∃ z, b ++ [0] = cstr k t ++ 0 :: z) as [z Hz].
  { destruct Hb as [-> | ->]; [by exists []|exists [0]; by rewrite <-app_assoc]. }
  rewrite Hz in H. destruct (Nat.leb_spec (length (cstr k t ++ 0 :: z)) (length s)) as [Hl|]; [|done].
  injection H as <-. rewrite <-app_assoc. simpl.
  rewrite length_app in Hl; simpl in Hl. split; [|split].
  - rewrite ?length_app; simpl. rewrite ?length_app, ?length_drop, ?length_app. simpl. lia.
  - apply cstr_app_zero with k; [done|done|]. rewrite length_app; simpl. lia.
  - replace (Z.to_nat n) with (S k) by lia.
    rewrite take_app_ge by lia. apply elem_of_app. right.
    destruct (S k - length (cstr k t))%nat eqn:E; [lia|]. simpl. left.
Qed.

Lemma strlen_spec s n : strlen s = Some n → n = Z.of_nat (length (cstr (length s) s)).
Proof.
  revert n; induction s as [|c s IH]; intros n H; simpl in *; [done|].
  destruct (Z.eqb_spec c 0); simplify_eq/=; [done|].
  apply bind_Some in H as (k & Hk & [= <-]). rewrite (IH _ Hk). lia.
Qed.

#[global] Arguments load : simpl never.
#[global] Arguments store : simpl never.
#[global] Arguments memset : simpl never.
#[global] Arguments memmove : simpl never.

(** Conversion unfolds the memory operations last. *)
Lemma byte_at_write_bytes a bs m x :
  byte_at (write_bytes a bs m) x =
    if decide (a ≤ x < a + Z.of_nat (length bs)) then default 0 (bs !! Z.to_nat (x - a))
    else byte_at m x.
Proof.
  revert a m. induction bs as [|b bs IH]; intros a m; simpl.
  { case_decide; [lia|done]. }
  rewrite IH. destruct (decide (x = a)) as [->|Hne].
  - rewrite decide_False by lia. rewrite decide_True by lia. rewrite Z.sub_diag. simpl.
    unfold byte_at. by rewrite lookup_insert_eq.
  - destruct (decide (a + 1 ≤ x < _)).
    + rewrite decide_True by lia. replace (Z.to_nat (x - a)) with (S (Z.to_nat (x - (a + 1)))) by lia.
      done.
    + rewrite decide_False by lia. unfold byte_at. by rewrite lookup_insert_ne.
Qed.

#[global] Strategy 1000 [load store memset memmove bytes_at write_bytes byte_at].

(** ** Words in byte arrays *)

Section Bytes.
Implicit Types (bs new : list Z) (n off : nat).

Lemma length_le_bytes n v : length (le_bytes n v) = n.
Proof. revert v; induction n; simpl; auto. Qed.

Lemma of_le_le_bytes n v : of_le (le_bytes n v) = v mod 2 ^ (8 * Z.of_nat n).
Proof.
  revert v; induction n as [|n IH]; intros v; [simpl; by rewrite Z.mod_1_r|].
  cbn [le_bytes of_le]. rewrite IH. unfold u8.
  replace (8 * Z.of_nat (S n)) with (8 + 8 * Z.of_nat n) by lia.
  rewrite Z.pow_add_r, Z.rem_mul_r by lia. lia.
Qed.

Lemma length_splice off new bs :
  (off + length new ≤ length bs)%nat → length (splice off new bs) = length bs.
Proof. intros H. unfold splice. rewrite !length_app, length_take, length_drop. lia. Qed.

(** Reading back a word, and reading another one. *)
Lemma get_splice_same off new bs :
  (off + length new ≤ length bs)%nat → take (length new) (drop off (splice off new bs)) = new.
Proof.
  intros H. unfold splice. rewrite drop_app_ge by (rewrite length_take; lia).
  rewrite length_take, Nat.min_l, Nat.sub_diag by lia. rewrite drop_0. by rewrite take_app_length.
Qed.

Lemma lookup_splice off new bs k :
  (off + length new ≤ length bs)%nat →
  splice off new bs !! k =
    if decide (off ≤ k < off + length new)%nat then new !! (k - off)%nat else bs !! k.
Proof.
  intros H. unfold splice. destruct (decide (k < off)%nat) as [Hk|Hk].
  - rewrite lookup_app_l by (rewrite length_take; lia). rewrite lookup_take_lt by done.
    by rewrite decide_False by lia.
  - rewrite lookup_app_r by (rewrite length_take; lia). rewrite length_take, Nat.min_l by lia.
    destruct (decide (k < off + length new)%nat) as [Hk2|Hk2].
    + rewrite lookup_app_l by lia. by rewrite decide_True by lia.
    + rewrite lookup_app_r by lia. rewrite lookup_drop, decide_False by lia. f_equal. lia.
Qed.

Lemma get_le_put_same n off v bs :
  (off + n ≤ length bs)%nat → get_le n off (put_le n off v bs) = v mod 2 ^ (8 * Z.of_nat n).
Proof.
  intros H. unfold get_le, put_le. rewrite <-(length_le_bytes n v) at 1.
  rewrite get_splice_same by (rewrite length_le_bytes; lia). apply of_le_le_bytes.
Qed.

Lemma get_le_splice_other n off o new bs :
  (o + length new ≤ length bs)%nat → (off + n ≤ o ∨ o + length new ≤ off)%nat →
  get_le n off (splice o new bs) = get_le n off bs.
Proof.
  intros H Hd. unfold get_le. f_equal. apply list_eq. intros k.
  destruct (decide (k < n)%nat) as [Hk|Hk]; [|by rewrite !lookup_take_ge by lia].
  rewrite !lookup_take_lt, !lookup_drop, lookup_splice by lia.
  rewrite decide_False by lia. done.
Qed.

Lemma length_put_le n off v bs : (off + n ≤ length bs)%nat → length (put_le n off v bs) = length bs.
Proof. intros H. unfold put_le. apply length_splice. rewrite length_le_bytes. lia. Qed.

Lemma get_le_put_other n off m o v bs :
  (o + m ≤ length bs)%nat → (off + n ≤ o ∨ o + m ≤ off)%nat →
  get_le n off (put_le m o v bs) = get_le n off bs.
Proof.
  intros H Hd. unfold put_le. apply get_le_splice_other; rewrite length_le_bytes; lia.
Qed.

Lemma s32_small v : - 2 ^ 31 ≤ v < 2 ^ 31 → s32 (v mod 2 ^ 32) = v.
Proof.
  intros H. unfold s32, signed. rewrite Z.mod_mod by lia.
  destruct (Z.ltb_spec (v mod 2 ^ 32) (2 ^ (32 - 1))); lia.
Qed.

End Bytes.
