(* ===== verification/Riscv.v ===== *)
(** * Address arithmetic of the RISC-V MMU ([kernel/riscv.h])

    The macros of [kernel/riscv.h] for page rounding, page-table entries and
    the three 9-bit indices of an Sv39 virtual address, as functions on 64-bit
    words, and the arithmetic facts the page-table code rests on. *)

From S2P Require Import Prelude State.

Definition PGROUNDUP (sz : Z) : Z := Z.land (u64 (sz + PGSIZE - 1)) (Z.lnot (PGSIZE - 1)).
Definition PGROUNDDOWN (a : Z) : Z := Z.land a (Z.lnot (PGSIZE - 1)).

Definition PTE_V : Z := Z.shiftl 1 0.
Definition PTE_R : Z := Z.shiftl 1 1.
Definition PTE_W : Z := Z.shiftl 1 2.
Definition PTE_X : Z := Z.shiftl 1 3.
Definition PTE_U : Z := Z.shiftl 1 4.

Definition PA2PTE (pa : Z) : Z := u64 (Z.shiftl (Z.shiftr pa 12) 10).
Definition PTE2PA (pte : Z) : Z := u64 (Z.shiftl (Z.shiftr pte 10) 12).
Definition PTE_FLAGS (pte : Z) : Z := Z.land pte 0x3FF.

Definition PXMASK : Z := 0x1FF.
Definition PXSHIFT (level : Z) : Z := PGSHIFT + 9 * level.
Definition PX (level va : Z) : Z := Z.land (Z.shiftr va (PXSHIFT level)) PXMASK.

Definition SATP_SV39 : Z := Z.shiftl 8 60.
Definition MAKE_SATP (pagetable : Z) : Z := Z.lor SATP_SV39 (Z.shiftr pagetable 12).

Lemma PTE_V_range : 0 ≤ PTE_V < 2 ^ 10.
Proof. done. Qed.

Lemma PTE_U_range : 0 ≤ PTE_U < 2 ^ 10.
Proof. done. Qed.

(** A physical address a page-table entry can hold: page aligned, 56 bits. *)
Definition pa_ok (pa : Z) : Prop := 0 ≤ pa < 2 ^ 56 ∧ pa mod PGSIZE = 0.

(** ** Rounding *)

Lemma land_lnot_ones a n : 0 ≤ n → Z.land a (Z.lnot (2 ^ n - 1)) = a / 2 ^ n * 2 ^ n.
Proof.
  intros Hn. replace (2 ^ n - 1) with (Z.ones n) by (rewrite Z.ones_equiv; lia).
  change (Z.land a (Z.lnot (Z.ones n))) with (Z.land a (Z.lnot (Z.ones n))).
  rewrite <-Z.ldiff_land, Z.ldiff_ones_r by done.
  by rewrite Z.shiftl_mul_pow2, Z.shiftr_div_pow2.
Qed.

Lemma PGROUNDDOWN_eq a : PGROUNDDOWN a = a / PGSIZE * PGSIZE.
Proof. unfold PGROUNDDOWN. change (PGSIZE - 1) with (2 ^ 12 - 1). by rewrite land_lnot_ones. Qed.

Lemma PGROUNDUP_eq sz :
  0 ≤ sz → sz + PGSIZE - 1 < 2 ^ 64 → PGROUNDUP sz = (sz + PGSIZE - 1) / PGSIZE * PGSIZE.
Proof.
  intros H1 H2. unfold PGROUNDUP, u64. unfold PGSIZE in *. rewrite Z.mod_small by lia.
  change (4096 - 1) with (2 ^ 12 - 1). by rewrite land_lnot_ones.
Qed.

Lemma PGROUNDDOWN_bounds a :
  PGROUNDDOWN a ≤ a < PGROUNDDOWN a + PGSIZE ∧ PGROUNDDOWN a mod PGSIZE = 0.
Proof. rewrite PGROUNDDOWN_eq. unfold PGSIZE. split; [lia|]. apply Z.mod_mul. lia. Qed.

Lemma PGROUNDDOWN_id a : a mod PGSIZE = 0 → PGROUNDDOWN a = a.
Proof. intros H. rewrite PGROUNDDOWN_eq. unfold PGSIZE in *. lia. Qed.

Lemma PGROUNDUP_bounds sz :
  0 ≤ sz → sz + PGSIZE - 1 < 2 ^ 64 →
  sz ≤ PGROUNDUP sz < sz + PGSIZE ∧ PGROUNDUP sz mod PGSIZE = 0.
Proof.
  intros H1 H2. rewrite PGROUNDUP_eq by done. unfold PGSIZE in *.
  split; [lia|]. apply Z.mod_mul. lia.
Qed.

(** ** Page-table entries *)

Lemma PA2PTE_eq pa : 0 ≤ pa < 2 ^ 56 → PA2PTE pa = pa / 2 ^ 12 * 2 ^ 10.
Proof.
  intros H. unfold PA2PTE, u64.
  rewrite Z.shiftl_mul_pow2, Z.shiftr_div_pow2 by lia. apply Z.mod_small. lia.
Qed.

Lemma PTE2PA_eq pte : 0 ≤ pte < 2 ^ 54 → PTE2PA pte = pte / 2 ^ 10 * 2 ^ 12.
Proof.
  intros H. unfold PTE2PA, u64.
  rewrite Z.shiftl_mul_pow2, Z.shiftr_div_pow2 by lia. apply Z.mod_small. lia.
Qed.

Lemma PTE_FLAGS_eq pte : PTE_FLAGS pte = pte mod 2 ^ 10.
Proof. unfold PTE_FLAGS. change 0x3FF with (Z.ones 10). by rewrite Z.land_ones. Qed.

(** The flags fit below the address: [|] is [+]. *)
Lemma lor_PA2PTE pa flags :
  0 ≤ pa < 2 ^ 56 → 0 ≤ flags < 2 ^ 10 →
  Z.lor (PA2PTE pa) flags = pa / 2 ^ 12 * 2 ^ 10 + flags.
Proof.
  intros Hpa Hf. rewrite PA2PTE_eq by done. rewrite <-Z.shiftl_mul_pow2 by lia.
  symmetry. apply Z.add_nocarry_lor.
  apply Z.bits_inj'. intros n Hn. rewrite Z.land_spec, Z.bits_0.
  destruct (Z.ltb_spec n 10) as [Hlt|Hge].
  - by rewrite Z.shiftl_spec_low.
  - rewrite <-(Z.mod_small flags (2 ^ 10)), Z.mod_pow2_bits_high by lia. apply andb_false_r.
Qed.

Lemma PTE2PA_entry pa flags :
  pa_ok pa → 0 ≤ flags < 2 ^ 10 → PTE2PA (Z.lor (PA2PTE pa) flags) = pa.
Proof.
  intros [Hpa Hal] Hf. rewrite lor_PA2PTE by done. unfold PGSIZE in Hal.
  rewrite PTE2PA_eq by lia. lia.
Qed.

Lemma PTE_FLAGS_entry pa flags :
  pa_ok pa → 0 ≤ flags < 2 ^ 10 → PTE_FLAGS (Z.lor (PA2PTE pa) flags) = flags.
Proof. intros [Hpa Hal] Hf. rewrite lor_PA2PTE, PTE_FLAGS_eq by done. lia. Qed.

Lemma entry_range pa flags :
  pa_ok pa → 0 ≤ flags < 2 ^ 10 → 0 ≤ Z.lor (PA2PTE pa) flags < 2 ^ 54.
Proof. intros [Hpa Hal] Hf. rewrite lor_PA2PTE by done. lia. Qed.

(** A flag bit of an entry is the flag bit of its flags. *)
Lemma land_flags pte f : 0 ≤ f < 2 ^ 10 → Z.land (PTE_FLAGS pte) f = Z.land pte f.
Proof.
  intros Hf. rewrite PTE_FLAGS_eq. apply Z.bits_inj'. intros n Hn. rewrite !Z.land_spec.
  destruct (Z.ltb_spec n 10) as [Hlt|Hge].
  - by rewrite Z.mod_pow2_bits_low.
  - rewrite <-(Z.mod_small f (2 ^ 10)), (Z.mod_pow2_bits_high f) by lia. by rewrite !andb_false_r.
Qed.

(** ** Indices of a virtual address *)

Lemma PX_eq level va : 0 ≤ level → 0 ≤ va → PX level va = va / 2 ^ (12 + 9 * level) mod 2 ^ 9.
Proof.
  intros Hl Hv. unfold PX, PXSHIFT, PGSHIFT. change PXMASK with (Z.ones 9).
  by rewrite Z.land_ones, Z.shiftr_div_pow2 by lia.
Qed.

Lemma PX_range level va : 0 ≤ level → 0 ≤ va → 0 ≤ PX level va < 512.
Proof. intros Hl Hv. rewrite PX_eq by done. apply Z.mod_pos_bound. lia. Qed.

(** The three indices determine the page of an address below [MAXVA]. *)
Lemma PX_inj va va' :
  0 ≤ va < MAXVA → 0 ≤ va' < MAXVA →
  PX 2 va = PX 2 va' → PX 1 va = PX 1 va' → PX 0 va = PX 0 va' →
  va / PGSIZE = va' / PGSIZE.
Proof.
  unfold MAXVA. change (Z.shiftl 1 (9 + 9 + 9 + 12 - 1)) with (2 ^ 38).
  intros H H'. rewrite !PX_eq by lia. unfold PGSIZE.
  change (2 ^ (12 + 9 * 2)) with (2 ^ 30). change (2 ^ (12 + 9 * 1)) with (2 ^ 21).
  change (2 ^ (12 + 9 * 0)) with (2 ^ 12). lia.
Qed.
