(* ===== verification/Kalloc.v ===== *)
(** * Physical page allocator ([kernel/kalloc.c])

    The free list is threaded through the free pages themselves: the first
    eight bytes of a free page are [struct run]'s [next] pointer.  [kmem_inv]
    says which list of pages the free list is; the theorems give the exact
    effect of every operation on it. *)

From S2P Require Import Prelude State Spinlock Cstring Riscv.

Section Kalloc.
Context {HK : KernelImage}.

(** A page the allocator may hand out. *)
Definition page_ok (pa : Z) : bool :=
  (pa mod PGSIZE =? 0) && (kend <=? pa) && (pa <? PHYSTOP).

Definition kfree (pa : Z) : M kstate unit :=
  if negb (page_ok pa) then panic "kfree" else
  mem_write (memset pa 1 (Z.to_nat PGSIZE));;
  acquire L_kmem;;
  next ← gets k_freelist;
  mem_write (store64 pa next);;
  modify (set_k_freelist pa);;
  release L_kmem.

Definition freerange_fuel (pa_start pa_end : Z) : nat :=
  S (Z.to_nat ((pa_end - pa_start) / PGSIZE)).

Definition freerange (pa_start pa_end : Z) : M kstate unit :=
  let p := PGROUNDUP pa_start in
  loop (freerange_fuel pa_start pa_end) (λ p,
    if p + PGSIZE <=? pa_end then
      kfree p;; mret (inl (p + PGSIZE))
    else mret (inr tt)) p.

Definition kinit : M kstate unit :=
  initlock L_kmem "kmem";;
  freerange kend PHYSTOP.

Definition kalloc : M kstate Z :=
  acquire L_kmem;;
  r ← gets k_freelist;
  (if negb (r =? 0) then
     next ← mem_read (λ m, load64 m r);
     modify (set_k_freelist next)
   else mret tt);;
  release L_kmem;;
  (if negb (r =? 0) then mem_write (memset r 5 (Z.to_nat PGSIZE)) else mret tt);;
  mret r.

(** As many iterations as there are pages of RAM. *)
Definition free_pages_fuel : nat := S (Z.to_nat ((PHYSTOP - KERNBASE) / PGSIZE)).

Definition get_total_free_pages : M kstate Z :=
  r ← gets k_freelist;
  loop free_pages_fuel (λ '(r, count),
    if negb (r =? 0) then
      next ← mem_read (λ m, load64 m r);
      mret (inl (next, count + 1))
    else mret (inr count)) (r, 0).

(** ** The free list *)

(** [chain m p l]: the pages of [l], linked from [p] on. *)
Fixpoint chain (m : mem) (p : Z) (l : list Z) : Prop :=
  match l with
  | [] => p = 0
  | x :: l => p = x ∧ chain m (load64 m x) l
  end.

Record kmem_inv (s : kstate) (l : list Z) : Prop := {
  kmem_chain : chain s.(k_mem) s.(k_freelist) l;
  kmem_nodup : NoDup l;
  kmem_pages : Forall (λ pa, page_ok pa = true) l
}.

(** The allocator's lock is free. *)
Definition kmem_unlocked (s : kstate) : Prop :=
  ∃ name, s.(k_locks) !! L_kmem = Some (unlocked name).

(** [m] and [m'] agree outside the page at [pa]. *)
Definition same_except_page (pa : Z) (m m' : mem) : Prop :=
  ∀ a, a < pa ∨ pa + PGSIZE ≤ a → byte_at m' a = byte_at m a.

End Kalloc.

Section KallocFacts.
Context {HK : KernelImage} {HKok : KernelImageOk}.
Implicit Types (s : kstate) (m : mem) (l : list Z).

Lemma page_ok_spec pa :
  page_ok pa = true ↔ pa mod PGSIZE = 0 ∧ kend ≤ pa < PHYSTOP.
Proof.
  unfold page_ok. rewrite !andb_true_iff, Z.eqb_eq, Z.leb_le, Z.ltb_lt. tauto.
Qed.

Lemma page_ok_nonzero pa : page_ok pa = true → pa ≠ 0.
Proof.
  rewrite page_ok_spec. pose proof etext_range. unfold KERNBASE in *. lia.
Qed.

(** Distinct pages do not overlap. *)
Lemma page_disjoint pa pa' :
  page_ok pa = true → page_ok pa' = true → pa ≠ pa' →
  pa + PGSIZE ≤ pa' ∨ pa' + PGSIZE ≤ pa.
Proof. rewrite !page_ok_spec. unfold PGSIZE. lia. Qed.

(** A change confined to a page outside the list keeps the list. *)
Lemma chain_frame m m' pa p l :
  same_except_page pa m m' → page_ok pa = true →
  Forall (λ x, page_ok x = true) l → pa ∉ l → chain m p l → chain m' p l.
Proof.
  intros Hm Hpa Hl. revert p; induction Hl as [|x l Hx Hl IH]; intros p Hnot Hc; simpl in *; [done|].
  destruct Hc as [-> Hc]. split; [done|].
  rewrite (load_ext 8 m' m).
  - apply IH; [set_solver|done].
  - intros a Ha. apply Hm.
    destruct (page_disjoint pa x Hpa Hx) as [?|?]; [intros ->; apply Hnot, list_elem_of_here|unfold PGSIZE in *; lia..].
Qed.

Lemma same_except_page_memset pa c m :
  same_except_page pa m (memset pa c (Z.to_nat PGSIZE) m).
Proof.
  intros a Ha. rewrite memset_spec, decide_False; [done|]. unfold PGSIZE in *. lia.
Qed.

Lemma same_except_page_store pa v m : same_except_page pa m (store64 pa v m).
Proof. intros a Ha. apply byte_at_store. unfold PGSIZE in *. lia. Qed.

Lemma same_except_page_trans pa m1 m2 m3 :
  same_except_page pa m1 m2 → same_except_page pa m2 m3 → same_except_page pa m1 m3.
Proof. intros H1 H2 a Ha. by rewrite H2, H1. Qed.

Lemma kmem_inv_hd s l :
  kmem_inv s l → s.(k_freelist) = 0 ∧ l = [] ∨
  ∃ l', l = s.(k_freelist) :: l' ∧ s.(k_freelist) ≠ 0.
Proof.
  intros [Hc _ Hp]. destruct l as [|x l']; simpl in Hc; [by left|].
  destruct Hc as [-> _]. right. exists l'. split; [done|].
  apply page_ok_nonzero. by apply Forall_cons in Hp as [? _].
Qed.

(** State after a successful [kalloc]. *)
Definition kalloc_post (s : kstate) : kstate :=
  let pa := s.(k_freelist) in
  settle (set_k_mem (memset pa 5 (Z.to_nat PGSIZE) s.(k_mem))
    (set_k_freelist (load64 s.(k_mem) pa) s)).

Definition kfree_post (pa : Z) (s : kstate) : kstate :=
  settle (set_k_mem (store64 pa s.(k_freelist) (memset pa 1 (Z.to_nat PGSIZE) s.(k_mem)))
    (set_k_freelist pa s)).

(** [kalloc] on an empty list. *)
Lemma kalloc_empty s :
  hart_wf s → kmem_unlocked s → s.(k_freelist) = 0 → kalloc s = Done 0 (settle s).
Proof.
  intros Hwf [name Hl] H0. unfold kalloc. mred.
  rewrite (acquire_ok _ _ name) by kside. mred. rewrite H0. mred. simpl.
  rewrite (release_bracket s _ _ name) by kside. mred. done_eq.
Qed.

Lemma kalloc_cons s :
  hart_wf s → kmem_unlocked s → s.(k_freelist) ≠ 0 →
  kalloc s = Done s.(k_freelist) (kalloc_post s).
Proof.
  intros Hwf [name Hl] H0. unfold kalloc. mred.
  rewrite (acquire_ok _ _ name) by kside. mred.
  rewrite (proj2 (Z.eqb_neq _ 0) H0). mred. cbn [negb]. mred.
  rewrite (release_bracket s _ _ name) by kside.
  mred. unfold kalloc_post. done_eq.
Qed.

Lemma kfree_ok s pa :
  hart_wf s → kmem_unlocked s → page_ok pa = true → kfree pa s = Done tt (kfree_post pa s).
Proof.
  intros Hwf [name Hl] Hpa. unfold kfree. rewrite Hpa. cbn [negb]. mred.
  rewrite (acquire_ok _ _ name) by kside. mred.
  rewrite (release_bracket (set_k_mem (memset pa 1 (Z.to_nat PGSIZE) (k_mem s)) s) _ _ name)
    by kside.
  unfold kfree_post. done_eq.
Qed.

Lemma kmem_inv_kalloc s pa l :
  kmem_inv s (pa :: l) → kmem_inv (kalloc_post s) l.
Proof.
  intros [[Hp Hc] [Hnot Hnd]%NoDup_cons [Hpa Hl]%Forall_cons].
  unfold kalloc_post. rewrite Hp. split; kproj; [|done..].
  eapply chain_frame; [apply same_except_page_memset|done..].
Qed.

Lemma kmem_inv_kfree s pa l :
  kmem_inv s l → page_ok pa = true → pa ∉ l → kmem_inv (kfree_post pa s) (pa :: l).
Proof.
  intros [Hc Hnd Hl] Hpa Hnot. split; unfold kfree_post; kproj.
  - split; [done|]. rewrite load_store_same. rewrite Z.mod_small.
    + eapply chain_frame; [|done..].
      eapply same_except_page_trans; [apply same_except_page_memset|apply same_except_page_store].
    + destruct l as [|x l]; simpl in Hc; [lia|]. destruct Hc as [-> _].
      apply Forall_cons in Hl as [Hx _]. rewrite page_ok_spec in Hx.
      pose proof etext_range. unfold PHYSTOP, KERNBASE in *. lia.
  - by constructor.
  - by constructor.
Qed.

Lemma kmem_unlocked_settle s : kmem_unlocked s → kmem_unlocked (settle s).
Proof. done. Qed.

(** The pages from [p] up to [PHYSTOP], and the list [freerange] builds. *)
Definition pages_from (p : Z) (n : nat) : list Z :=
  (λ i, p + PGSIZE * Z.of_nat i) <$> seq 0 n.

Lemma pages_from_S p n : pages_from p (S n) = p :: pages_from (p + PGSIZE) n.
Proof.
  unfold pages_from. rewrite <-cons_seq, <-fmap_S_seq, fmap_cons, <-list_fmap_compose.
  f_equal; [lia|]. apply list_fmap_ext. intros i x _. simpl. lia.
Qed.

Lemma elem_of_pages_from p n pa :
  pa ∈ pages_from p n ↔ ∃ i, (i < n)%nat ∧ pa = p + PGSIZE * Z.of_nat i.
Proof.
  unfold pages_from. rewrite list_elem_of_fmap. split.
  - intros (i & -> & Hi%elem_of_seq). exists i. split; [lia|done].
  - intros (i & Hi & ->). exists i. split; [done|]. apply elem_of_seq. lia.
Qed.

(** What is preserved while the allocator's free list grows. *)
Definition kmem_ready (s : kstate) (l : list Z) : Prop :=
  hart_wf s ∧ kmem_unlocked s ∧ kmem_inv s l.

Lemma kmem_ready_kfree s pa l :
  kmem_ready s l → page_ok pa = true → pa ∉ l →
  kfree pa s = Done tt (kfree_post pa s) ∧ kmem_ready (kfree_post pa s) (pa :: l).
Proof.
  intros (Hwf & Hu & Hi) Hpa Hnot. split; [by apply kfree_ok|].
  split; [by apply hart_wf_settle|]. split; [done|]. by apply kmem_inv_kfree.
Qed.

Lemma kmem_ready_settle s l : kmem_ready s l → kmem_ready (settle s) l.
Proof.
  intros (Hwf & Hu & [Hc Hnd Hp]). split; [by apply hart_wf_settle|].
  split; [unfold kmem_unlocked; kproj; exact Hu|]. split; kproj; done.
Qed.

(** A write to a page that is not free keeps the free list. *)
Lemma kmem_ready_set_mem s l pa m' :
  kmem_ready s l → page_ok pa = true → pa ∉ l → same_except_page pa s.(k_mem) m' →
  kmem_ready (set_k_mem m' s) l.
Proof.
  intros (Hwf & Hu & [Hc Hnd Hp]) Hpa Hnot Hm. split; [by kside|].
  split; [unfold kmem_unlocked; kproj; exact Hu|]. split; kproj; [|done..].
  by eapply chain_frame.
Qed.

Lemma kmem_ready_kalloc s pa l :
  kmem_ready s (pa :: l) →
  kalloc s = Done pa (kalloc_post s) ∧ kmem_ready (kalloc_post s) l.
Proof.
  intros (Hwf & Hu & Hi). pose proof (kmem_inv_hd _ _ Hi) as [[_ ?]|(l' & [= -> ->] & Hne)]; [done|].
  split; [by apply kalloc_cons|]. split; [|split].
  - apply hart_wf_settle. by kside.
  - unfold kmem_unlocked, kalloc_post. kproj. exact Hu.
  - by eapply kmem_inv_kalloc.
Qed.

(** [freerange] frees every whole page of its range, within its fuel. *)
Lemma freerange_loop (pa_end : Z) (fuel n : nat) (p : Z) s l :
  kmem_ready s l →
  p mod PGSIZE = 0 → kend ≤ p → pa_end ≤ PHYSTOP →
  Z.of_nat n = Z.max 0 ((pa_end - p) / PGSIZE) → (n < fuel)%nat →
  (∀ pa, pa ∈ l → pa < p) →
  ∃ s', loop fuel (λ p,
      if p + PGSIZE <=? pa_end then kfree p;; mret (inl (p + PGSIZE)) else mret (inr tt)) p s
      = Done tt s' ∧ kmem_ready s' (rev (pages_from p n) ++ l).
Proof.
  revert fuel p s l. induction n as [|n IH]; intros [|fuel] p s l Hr Hp Hk He Hn Hf Hlt;
    try lia; cbn [loop].
  - rewrite (proj2 (Z.leb_gt _ _)) by (unfold PGSIZE in *; lia). mred. eauto.
  - assert (page_ok p = true) as Hpok.
    { rewrite page_ok_spec. unfold PGSIZE in *. lia. }
    destruct (kmem_ready_kfree s p l Hr Hpok) as [Hkf Hr'].
    { intros Hin%Hlt. lia. }
    rewrite (proj2 (Z.leb_le _ _)) by (unfold PGSIZE in *; lia). mred. rewrite Hkf. mred.
    destruct (IH fuel (p + PGSIZE) _ _ Hr') as (s' & Hs' & Hr'');
      [unfold PGSIZE in *; lia..| |].
    { intros pa [->|Hin%Hlt]%elem_of_cons; unfold PGSIZE; lia. }
    exists s'. split; [exact Hs'|].
    rewrite pages_from_S. simpl rev. by rewrite <-app_assoc.
Qed.

(** A free list has at most one entry per page of RAM. *)
Lemma pages_length l :
  NoDup l → Forall (λ pa, page_ok pa = true) l →
  (length l ≤ Z.to_nat ((PHYSTOP - KERNBASE) / PGSIZE))%nat.
Proof.
  intros Hnd Hp. pose proof etext_range.
  set (f := λ pa, Z.to_nat ((pa - KERNBASE) / PGSIZE)).
  rewrite <-(length_fmap f l), <-(length_seq (Z.to_nat ((PHYSTOP - KERNBASE) / PGSIZE)) 0).
  apply submseteq_length, NoDup_submseteq.
  - apply NoDup_fmap_2_strong; [|done]. intros x y Hx Hy.
    rewrite Forall_forall in Hp. apply Hp in Hx, Hy. rewrite page_ok_spec in Hx, Hy.
    unfold f, PGSIZE, PHYSTOP, KERNBASE in *. lia.
  - intros n (pa & -> & Hpa)%list_elem_of_fmap. rewrite Forall_forall in Hp.
    apply Hp in Hpa. rewrite page_ok_spec in Hpa. apply elem_of_seq.
    unfold f, PGSIZE, PHYSTOP, KERNBASE in *. lia.
Qed.

Lemma kmem_inv_length s l :
  kmem_inv s l → (length l ≤ Z.to_nat ((PHYSTOP - KERNBASE) / PGSIZE))%nat.
Proof. intros [_ Hnd Hp]. by apply pages_length. Qed.

Lemma free_pages_loop fuel s p l c :
  chain s.(k_mem) p l → Forall (λ pa, page_ok pa = true) l → (length l < fuel)%nat →
  loop fuel (λ '(r, count),
    if negb (r =? 0) then
      next ← mem_read (λ m, load64 m r); mret (inl (next, count + 1))
    else mret (inr count)) (p, c) s = Done (c + Z.of_nat (length l)) s.
Proof.
  revert p l c. induction fuel as [|fuel IH]; intros p [|x l] c Hc Hp Hf; simpl in Hf, Hc; try lia.
  - subst p. cbn [loop]. mred. simpl. by rewrite Z.add_0_r.
  - destruct Hc as [-> Hc]. apply Forall_cons in Hp as [Hx Hp]. cbn [loop].
    rewrite (proj2 (Z.eqb_neq x 0)) by by apply page_ok_nonzero. cbn [negb]. mred.
    etransitivity; [apply (IH _ l); [done..|lia]|]. simpl length. f_equal. lia.
Qed.

(** From a well-formed free list [l], [kalloc] takes its first page and
    leaves the rest as the free list, filling the page with junk and touching
    no other byte of memory; on an empty list it returns 0 and changes no
    memory. *)
Theorem kalloc_spec s l :
  kmem_ready s l →
  match l with
  | [] => kalloc s = Done 0 (settle s)
  | pa :: l' =>
      kalloc s = Done pa (kalloc_post s) ∧ kmem_ready (kalloc_post s) l' ∧
      bytes_at (kalloc_post s).(k_mem) pa (Z.to_nat PGSIZE) = replicate (Z.to_nat PGSIZE) 5 ∧
      same_except_page pa s.(k_mem) (kalloc_post s).(k_mem)
  end.
Proof.
  intros Hr. destruct l as [|pa l].
  - destruct Hr as (Hwf & Hu & [H0 _ _]). by apply kalloc_empty.
  - destruct (kmem_ready_kalloc _ _ _ Hr) as [Hk Hr']. split; [done|]. split; [done|].
    destruct Hr as (_ & _ & [[<- _] _ _]). unfold kalloc_post. kproj.
    split; [apply bytes_at_memset|apply same_except_page_memset].
Qed.

(** [kfree] of a page outside the free list puts it at the head of the
    list, so that the next [kalloc] returns it and restores the list. *)
Theorem kfree_kalloc_roundtrip s l pa :
  kmem_ready s l → page_ok pa = true → pa ∉ l →
  ∃ s1 s2, kfree pa s = Done tt s1 ∧ kmem_ready s1 (pa :: l) ∧
    kalloc s1 = Done pa s2 ∧ kmem_ready s2 l ∧ same_except_page pa s.(k_mem) s2.(k_mem).
Proof.
  intros Hr Hpa Hnot. destruct (kmem_ready_kfree s pa l Hr Hpa Hnot) as [Hf Hr1].
  destruct (kmem_ready_kalloc _ _ _ Hr1) as [Hk Hr2].
  exists (kfree_post pa s), (kalloc_post (kfree_post pa s)).
  split; [exact Hf|]. split; [exact Hr1|]. split; [exact Hk|]. split; [exact Hr2|].
  unfold kalloc_post, kfree_post. kproj.
  eapply same_except_page_trans; [|apply same_except_page_memset].
  eapply same_except_page_trans; [apply same_except_page_memset|apply same_except_page_store].
Qed.

(** [kfree] panics on exactly the addresses that are not page aligned or not
    in the range the allocator owns, before touching memory. *)
Theorem kfree_panics s pa :
  hart_wf s → kmem_unlocked s →
  kfree pa s = Panic "kfree" s ↔ pa mod PGSIZE ≠ 0 ∨ pa < kend ∨ PHYSTOP ≤ pa.
Proof.
  intros Hwf Hu. destruct (page_ok pa) eqn:Hpa.
  - rewrite (kfree_ok _ _ Hwf Hu Hpa). rewrite page_ok_spec in Hpa.
    split; [done|lia].
  - unfold kfree. rewrite Hpa. split; [|done]. intros _.
    destruct (decide (pa mod PGSIZE = 0 ∧ kend ≤ pa < PHYSTOP)) as [H|H]; [|lia].
    rewrite <-page_ok_spec in H. congruence.
Qed.

(** [kinit] terminates and leaves every whole page between [end] and
    [PHYSTOP], and nothing else, on the free list. *)
Theorem kinit_spec s :
  hart_wf s → s.(k_freelist) = 0 →
  ∃ s', kinit s = Done tt s' ∧
    kmem_ready s' (rev (pages_from (PGROUNDUP kend)
      (Z.to_nat ((PHYSTOP - PGROUNDUP kend) / PGSIZE)))).
Proof.
  intros Hwf H0. unfold kinit, initlock, put_lock, freerange. mred.
  pose proof etext_range. pose proof kend_range.
  destruct (PGROUNDUP_bounds kend) as [Hb Hal]; [unfold PHYSTOP, KERNBASE, PGSIZE in *; lia..|].
  destruct (freerange_loop PHYSTOP (freerange_fuel kend PHYSTOP)
    (Z.to_nat ((PHYSTOP - PGROUNDUP kend) / PGSIZE)) (PGROUNDUP kend)
    (upd_lock L_kmem (unlocked "kmem") s) []) as (s' & Hs' & Hr).
  - split; [by kside|]. split; [exists "kmem"; kproj; apply lookup_insert_eq|].
    split; [done|constructor|constructor].
  - done.
  - lia.
  - done.
  - unfold PGSIZE, PHYSTOP, KERNBASE in *. lia.
  - unfold freerange_fuel, PGSIZE, PHYSTOP, KERNBASE in *. lia.
  - by intros pa ?%elem_of_nil.
  - exists s'. rewrite app_nil_r in Hr. done.
Qed.

(** [get_total_free_pages] terminates on a well-formed free list and
    returns its length, changing nothing. *)
Theorem get_total_free_pages_spec s l :
  kmem_inv s l → get_total_free_pages s = Done (Z.of_nat (length l)) s.
Proof.
  intros Hi. pose proof (kmem_inv_length s l Hi) as Hlen. destruct Hi as [Hc _ Hp].
  unfold get_total_free_pages. mred.
  etransitivity; [apply (free_pages_loop _ s (k_freelist s) l 0); [done..|]|done].
  unfold free_pages_fuel. lia.
Qed.

End KallocFacts.

(** ** Witnesses: a machine whose free list holds two pages *)

Definition two_pages : list Z := [0x80100000; 0x80101000].

Definition kstate_two : kstate :=
  set_k_freelist 0x80100000 (set_k_mem (store64 0x80100000 0x80101000 ∅) kstate0).

Lemma kstate_two_ready : @kmem_ready image0 kstate_two two_pages.
Proof.
  split; [|split].
  - exists cpu0. split; [reflexivity|]. split; simpl; lia.
  - exists "kmem". reflexivity.
  - split; [by vm_compute| |].
    + apply (bool_decide_unpack _). by vm_compute.
    + repeat constructor.
Qed.

Lemma kalloc_spec_witness :
  kmem_ready (HK:=image0) kstate_two two_pages ∧
  kalloc kstate_two = Done 0x80100000 (kalloc_post kstate_two).
Proof.
  split; [exact kstate_two_ready|].
  exact (proj1 (kalloc_spec (HK:=image0) kstate_two two_pages kstate_two_ready)).
Defined.

Lemma kfree_kalloc_roundtrip_witness :
  ∃ s1 s2, @kfree image0 0x80102000 kstate_two = Done tt s1 ∧
    kmem_ready (HK:=image0) s1 (0x80102000 :: two_pages) ∧ kalloc s1 = Done 0x80102000 s2 ∧
    kmem_ready (HK:=image0) s2 two_pages ∧
    same_except_page 0x80102000 kstate_two.(k_mem) s2.(k_mem).
Proof.
  apply (kfree_kalloc_roundtrip (HK:=image0) kstate_two two_pages 0x80102000 kstate_two_ready).
  - by vm_compute.
  - apply (bool_decide_unpack _). by vm_compute.
Defined.

Lemma kfree_panics_witness :
  @kfree image0 0x80102001 kstate_two = Panic "kfree" kstate_two ↔
  0x80102001 mod PGSIZE ≠ 0 ∨ 0x80102001 < @kend image0 ∨ PHYSTOP ≤ 0x80102001.
Proof.
  apply (kfree_panics (HK:=image0) kstate_two 0x80102001);
    [exact (proj1 kstate_two_ready)|exact (proj1 (proj2 kstate_two_ready))].
Defined.

Lemma kinit_spec_witness :
  ∃ s', @kinit image0 kstate0 = Done tt s' ∧
    kmem_ready (HK:=image0) s' (rev (pages_from (PGROUNDUP (@kend image0))
      (Z.to_nat ((PHYSTOP - PGROUNDUP (@kend image0)) / PGSIZE)))).
Proof.
  apply (kinit_spec (HK:=image0) kstate0); [|reflexivity].
  exists cpu0. split; [reflexivity|]. split; simpl; lia.
Defined.

Lemma get_total_free_pages_spec_witness :
  get_total_free_pages kstate_two = Done 2 kstate_two.
Proof.
  exact (get_total_free_pages_spec (HK:=image0) kstate_two two_pages
    (proj2 (proj2 kstate_two_ready))).
Defined.
