(* ===== verification/Vm.v ===== *)
(** * Virtual memory ([kernel/vm.c])

    Page tables live in physical memory as in the hardware: a page-table page
    is 512 little-endian 64-bit entries.  A pointer to an entry is its address.
    A kernel buffer that [copyout]/[copyin] copy from or to is its list of
    bytes.  [VmFacts.v] holds the theorems. *)

From S2P Require Import Prelude State Spinlock Cstring Riscv Kalloc.

Section Vm.
Context {HK : KernelImage}.

Definition pgsize : nat := Z.to_nat PGSIZE.

(** [*pte], [*pte = v] *)
Definition pte_read (pte : Z) : M kstate Z := mem_read (λ m, load64 m pte).
Definition pte_write (pte v : Z) : M kstate unit := mem_write (store64 pte v).

(** [pte & flag], as a truth value *)
Definition has (pte flag : Z) : bool := negb (Z.land pte flag =? 0).

(** The body of the loop of [walk] at one level: the next page table, or [None]
    for [return 0]. *)
Definition walk_level (alloc : bool) (va level pagetable : Z) : M kstate (option Z) :=
  let pte := pagetable + 8 * PX level va in
  v ← pte_read pte;
  if has v PTE_V then mret (Some (PTE2PA v)) else
  if negb alloc then mret None else
  pagetable ← kalloc;
  if pagetable =? 0 then mret None else
  mem_write (memset pagetable 0 pgsize);;
  pte_write pte (Z.lor (PA2PTE pagetable) PTE_V);;
  mret (Some pagetable).

Fixpoint walk_levels (alloc : bool) (va : Z) (levels : list Z) (pagetable : Z)
    : M kstate (option Z) :=
  match levels with
  | [] => mret (Some pagetable)
  | level :: levels =>
      r ← walk_level alloc va level pagetable;
      match r with
      | None => mret None
      | Some pagetable => walk_levels alloc va levels pagetable
      end
  end.

(** The address of the entry, 0 if there is none. *)
Definition walk (pagetable va : Z) (alloc : bool) : M kstate Z :=
  if MAXVA <=? va then panic "walk" else
  r ← walk_levels alloc va [2; 1] pagetable;
  match r with
  | None => mret 0
  | Some pagetable => mret (pagetable + 8 * PX 0 va)
  end.

Definition walkaddr (pagetable va : Z) : M kstate Z :=
  if MAXVA <=? va then mret 0 else
  pte ← walk pagetable va false;
  if pte =? 0 then mret 0 else
  v ← pte_read pte;
  if Z.land v PTE_V =? 0 then mret 0 else
  if Z.land v PTE_U =? 0 then mret 0 else
  mret (PTE2PA v).

(** The loop of [mappages] runs until [a == last], or until [walk] panics at
    [MAXVA]. *)
Definition mappages_fuel (a last : Z) : nat :=
  S (S (Z.to_nat (((if a <=? last then last else MAXVA) - a) / PGSIZE))).

Definition mappages_body (pagetable last perm : Z) (x : Z * Z)
    : M kstate (Z * Z + Z) :=
  let '(a, pa) := x in
  pte ← walk pagetable a true;
  if pte =? 0 then mret (inr (-1)) else
  v ← pte_read pte;
  if has v PTE_V then panic "mappages: remap" else
  pte_write pte (Z.lor (Z.lor (PA2PTE pa) perm) PTE_V);;
  if a =? last then mret (inr 0) else
  mret (inl (u64 (a + PGSIZE), u64 (pa + PGSIZE))).

Definition mappages (pagetable va size pa perm : Z) : M kstate Z :=
  if size =? 0 then panic "mappages: size" else
  let a := PGROUNDDOWN va in
  let last := PGROUNDDOWN (u64 (va + size - 1)) in
  loop (mappages_fuel a last) (mappages_body pagetable last perm) (a, pa).

Definition kvmmap (kpgtbl va pa sz perm : Z) : M kstate unit :=
  r ← mappages kpgtbl va sz pa perm;
  if negb (r =? 0) then panic "kvmmap" else mret tt.

Definition uvmunmap_body (pagetable : Z) (do_free : bool) (a_end a : Z)
    : M kstate (Z + unit) :=
  if a <? a_end then
    pte ← walk pagetable a false;
    if pte =? 0 then panic "uvmunmap: walk" else
    v ← pte_read pte;
    if Z.land v PTE_V =? 0 then panic "uvmunmap: not mapped" else
    if PTE_FLAGS v =? PTE_V then panic "uvmunmap: not a leaf" else
    (if do_free : bool then kfree (PTE2PA v) else mret tt);;
    pte_write pte 0;;
    mret (inl (u64 (a + PGSIZE)))
  else mret (inr tt).

Definition uvmunmap (pagetable va npages : Z) (do_free : bool) : M kstate unit :=
  if negb (va mod PGSIZE =? 0) then panic "uvmunmap: not aligned" else
  loop (S (Z.to_nat npages))
    (uvmunmap_body pagetable do_free (u64 (va + u64 (npages * PGSIZE)))) va.

Definition uvmcreate : M kstate Z :=
  pagetable ← kalloc;
  if pagetable =? 0 then mret 0 else
  mem_write (memset pagetable 0 pgsize);;
  mret pagetable.

(** [memset]/[memmove] through a pointer [kalloc] returned: null faults. *)
Definition check_ptr (p : Z) : M kstate unit := if p =? 0 then fault else mret tt.

Definition uvmfirst (pagetable : Z) (src : list Z) (sz : Z) : M kstate unit :=
  if PGSIZE <=? sz then panic "uvmfirst: more than a page" else
  mem ← kalloc;
  check_ptr mem;;
  mem_write (memset mem 0 pgsize);;
  mappages pagetable 0 PGSIZE mem (Z.lor (Z.lor (Z.lor PTE_W PTE_R) PTE_X) PTE_U);;
  mem_write (write_bytes mem (take (Z.to_nat sz) src)).

Definition uvmdealloc (pagetable oldsz newsz : Z) : M kstate Z :=
  if oldsz <=? newsz then mret oldsz else
  (if PGROUNDUP newsz <? PGROUNDUP oldsz then
     let npages := s32 ((PGROUNDUP oldsz - PGROUNDUP newsz) / PGSIZE) in
     uvmunmap pagetable (PGROUNDUP newsz) (u64 npages) true
   else mret tt);;
  mret newsz.

Definition uvmalloc_body (pagetable oldsz newsz xperm a : Z) : M kstate (Z + Z) :=
  if a <? newsz then
    mem ← kalloc;
    if mem =? 0 then
      uvmdealloc pagetable a oldsz;; mret (inr 0)
    else
    mem_write (memset mem 0 pgsize);;
    r ← mappages pagetable a PGSIZE mem (Z.lor (Z.lor PTE_R PTE_U) xperm);
    if negb (r =? 0) then
      kfree mem;;
      uvmdealloc pagetable a oldsz;;
      mret (inr 0)
    else mret (inl (u64 (a + PGSIZE)))
  else mret (inr newsz).

Definition uvmalloc (pagetable oldsz newsz xperm : Z) : M kstate Z :=
  if newsz <? oldsz then mret oldsz else
  let oldsz := PGROUNDUP oldsz in
  loop (S (Z.to_nat ((newsz - oldsz + PGSIZE - 1) / PGSIZE)))
    (uvmalloc_body pagetable oldsz newsz xperm) oldsz.

(** Page tables have three levels, so the recursion is three deep. *)
Fixpoint freewalk (fuel : nat) (pagetable : Z) : M kstate unit :=
  match fuel with
  | O => nofuel
  | S fuel =>
      for_each (Z.of_nat <$> seq 0 512) (λ i,
        pte ← pte_read (pagetable + 8 * i);
        if has pte PTE_V && (Z.land pte (Z.lor (Z.lor PTE_R PTE_W) PTE_X) =? 0) then
          freewalk fuel (PTE2PA pte);;
          pte_write (pagetable + 8 * i) 0
        else if has pte PTE_V then panic "freewalk: leaf"
        else mret tt);;
      kfree pagetable
  end.

Definition uvmfree (pagetable sz : Z) : M kstate unit :=
  (if 0 <? sz then uvmunmap pagetable 0 (PGROUNDUP sz / PGSIZE) true else mret tt);;
  freewalk 3 pagetable.

Definition uvmcopy_body (old new sz i : Z) : M kstate (Z + Z) :=
  let err := uvmunmap new 0 (i / PGSIZE) true;; mret (inr (-1)) in
  if i <? sz then
    pte ← walk old i false;
    if pte =? 0 then panic "uvmcopy: pte should exist" else
    v ← pte_read pte;
    if Z.land v PTE_V =? 0 then panic "uvmcopy: page not present" else
    let pa := PTE2PA v in
    let flags := PTE_FLAGS v in
    mem ← kalloc;
    if mem =? 0 then err else
    mem_write (memmove mem pa pgsize);;
    r ← mappages new i PGSIZE mem flags;
    if negb (r =? 0) then kfree mem;; err
    else mret (inl (u64 (i + PGSIZE)))
  else mret (inr 0).

Definition uvmcopy (old new sz : Z) : M kstate Z :=
  loop (S (Z.to_nat ((sz + PGSIZE - 1) / PGSIZE))) (uvmcopy_body old new sz) 0.

Definition uvmclear (pagetable va : Z) : M kstate unit :=
  pte ← walk pagetable va false;
  if pte =? 0 then panic "uvmclear" else
  v ← pte_read pte;
  pte_write pte (Z.land v (Z.lnot PTE_U)).

(** ** Copying between kernel buffers and user memory *)

(** An iteration ends at a page boundary, so [len / PGSIZE + 2] of them copy
    everything, and one more finds that nothing is left. *)
Definition copy_fuel (len : Z) : nat := Z.to_nat (len / PGSIZE + 3).

Definition copyout_body (pagetable : Z) (x : Z * list Z * Z) : M kstate (Z * list Z * Z + Z) :=
  let '(dstva, src, len) := x in
  if 0 <? len then
    let va0 := PGROUNDDOWN dstva in
    pa0 ← walkaddr pagetable va0;
    if pa0 =? 0 then mret (inr (-1)) else
    let n := PGSIZE - (dstva - va0) in
    let n := if len <? n then len else n in
    mem_write (write_bytes (pa0 + (dstva - va0)) (take (Z.to_nat n) src));;
    mret (inl (u64 (va0 + PGSIZE), drop (Z.to_nat n) src, len - n))
  else mret (inr 0).

Definition copyout (pagetable dstva : Z) (src : list Z) (len : Z) : M kstate Z :=
  loop (copy_fuel len) (copyout_body pagetable) (dstva, src, len).

(** The result and the bytes stored into [dst]. *)
Definition copyin_body (pagetable : Z) (x : list Z * Z * Z)
    : M kstate (list Z * Z * Z + Z * list Z) :=
  let '(dst, srcva, len) := x in
  if 0 <? len then
    let va0 := PGROUNDDOWN srcva in
    pa0 ← walkaddr pagetable va0;
    if pa0 =? 0 then mret (inr (-1, dst)) else
    let n := PGSIZE - (srcva - va0) in
    let n := if len <? n then len else n in
    bs ← mem_read (λ m, bytes_at m (pa0 + (srcva - va0)) (Z.to_nat n));
    mret (inl (dst ++ bs, u64 (va0 + PGSIZE), len - n))
  else mret (inr (0, dst)).

Definition copyin (pagetable srcva len : Z) : M kstate (Z * list Z) :=
  loop (copy_fuel len) (copyin_body pagetable) ([], srcva, len).

(** The inner loop of [copyinstr]: copy up to [n] bytes, stopping after a
    terminator; the result is the bytes stored and [got_null]. *)
Fixpoint copyinstr_page (m : mem) (p : Z) (n : nat) : list Z * bool :=
  match n with
  | O => ([], false)
  | S n =>
      let c := byte_at m p in
      if c =? 0 then ([0], true)
      else let '(r, got_null) := copyinstr_page m (p + 1) n in (c :: r, got_null)
  end.

Definition copyinstr_body (pagetable : Z) (x : list Z * Z * Z)
    : M kstate (list Z * Z * Z + Z * list Z) :=
  let '(dst, srcva, max) := x in
  if 0 <? max then
    let va0 := PGROUNDDOWN srcva in
    pa0 ← walkaddr pagetable va0;
    if pa0 =? 0 then mret (inr (-1, dst)) else
    let n := PGSIZE - (srcva - va0) in
    let n := if max <? n then max else n in
    r ← mem_read (λ m, copyinstr_page m (pa0 + (srcva - va0)) (Z.to_nat n));
    let '(bs, got_null) := r in
    if got_null : bool then mret (inr (0, dst ++ bs))
    else mret (inl (dst ++ bs, u64 (va0 + PGSIZE), max - n))
  else mret (inr (-1, dst)).

Definition copyinstr (pagetable srcva max : Z) : M kstate (Z * list Z) :=
  loop (copy_fuel max) (copyinstr_body pagetable) ([], srcva, max).

(** ** The kernel page table *)

(** [proc_mapstacks] of [kernel/proc.c] *)
Definition proc_mapstacks (kpgtbl : Z) : M kstate unit :=
  for_each (Z.of_nat <$> seq 0 NPROC) (λ p,
    pa ← kalloc;
    if pa =? 0 then panic "kalloc" else
    kvmmap kpgtbl (KSTACK p) pa PGSIZE (Z.lor PTE_R PTE_W)).

Definition kvmmake : M kstate Z :=
  kpgtbl ← kalloc;
  check_ptr kpgtbl;;
  mem_write (memset kpgtbl 0 pgsize);;
  kvmmap kpgtbl UART0 UART0 PGSIZE (Z.lor PTE_R PTE_W);;
  kvmmap kpgtbl VIRTIO0 VIRTIO0 PGSIZE (Z.lor PTE_R PTE_W);;
  kvmmap kpgtbl PLIC PLIC 0x400000 (Z.lor PTE_R PTE_W);;
  kvmmap kpgtbl KERNBASE KERNBASE (etext - KERNBASE) (Z.lor PTE_R PTE_X);;
  kvmmap kpgtbl etext etext (PHYSTOP - etext) (Z.lor PTE_R PTE_W);;
  kvmmap kpgtbl TRAMPOLINE trampoline PGSIZE (Z.lor PTE_R PTE_X);;
  proc_mapstacks kpgtbl;;
  mret kpgtbl.

Definition kvminit : M kstate unit :=
  kpgtbl ← kvmmake;
  modify (set_k_kpgtbl kpgtbl).

End Vm.
