(* ===== verification/VmFacts.v ===== *)
(** * Page tables: refinement and theorems ([kernel/vm.c])

    A page table in memory implements a map from virtual pages to page-table
    entries.  [pt_inv] relates the bytes of memory to a ghost tree [G] of
    page-table pages (a node is the path of indices that leads to it);
    [mapping] is the abstract map.  The theorems say what each operation of
    [Vm.v] does to the map, that everything outside the page-table pages and
    the free list is left alone, and that failures leave no trace. *)

From S2P Require Import Prelude State Spinlock Cstring Riscv Kalloc Vm.

Abbreviation tree := (gmap (list Z) Z).

Section PageTables.
Context {HK : KernelImage} {HKok : KernelImageOk}.
Implicit Types (s : kstate) (m : mem) (l : list Z) (G : tree) (n : list Z) (p q x : Z).

Record pt_inv (m : mem) (root : Z) (G : tree) (l : list Z) : Prop := {
  pt_root : G !! [] = Some root;
  pt_page n p : G !! n = Some p → page_ok p = true ∧ p ∉ l;
  pt_inj n n' p : G !! n = Some p → G !! n' = Some p → n = n';
  pt_closed n i q : G !! (n ++ [i]) = Some q → is_Some (G !! n);
  pt_entry n p i : G !! n = Some p → (length n < 2)%nat → 0 ≤ i < 512 →
    match G !! (n ++ [i]) with
    | Some q => load64 m (p + 8 * i) = Z.lor (PA2PTE q) PTE_V
    | None => Z.land (load64 m (p + 8 * i)) PTE_V = 0
    end
}.

(** Where the entry of [va] is, if its table exists. *)
Definition leaf (G : tree) (va : Z) : option Z :=
  (λ p, p + 8 * PX 0 va) <$> G !! [PX 2 va; PX 1 va].

(** The abstract map: the entry of the page of [va], 0 if there is none. *)
Definition mapping (m : mem) (G : tree) (va : Z) : Z :=
  match leaf G va with Some pte => load64 m pte | None => 0 end.

(** ** Entries *)

Lemma page_ok_pa_ok p : page_ok p = true → pa_ok p.
Proof.
  rewrite page_ok_spec. pose proof etext_range. unfold pa_ok, PHYSTOP, KERNBASE in *. lia.
Qed.

Lemma has_false v f : Z.land v f = 0 → has v f = false.
Proof. unfold has. intros ->. done. Qed.

Lemma has_entry pa flags f :
  pa_ok pa → 0 ≤ flags < 2 ^ 10 → 0 ≤ f < 2 ^ 10 →
  has (Z.lor (PA2PTE pa) flags) f = has flags f.
Proof.
  intros Hpa Hf Hf'. unfold has. rewrite <-(land_flags (Z.lor _ _)) by done.
  by rewrite PTE_FLAGS_entry.
Qed.

(** An entry in one page does not move when another page changes. *)
Lemma load_other_page m m' p p' i :
  same_except_page p' m m' → page_ok p = true → page_ok p' = true → p ≠ p' →
  0 ≤ i < 512 → load64 m' (p + 8 * i) = load64 m (p + 8 * i).
Proof.
  intros Hm Hp Hp' Hne Hi. apply load_ext. intros a Ha. apply Hm.
  destruct (page_disjoint p' p Hp' Hp) as [?|?]; [done|unfold PGSIZE in *; lia..].
Qed.

Lemma same_except_entry p i v m :
  0 ≤ i < 512 → same_except_page p m (store64 (p + 8 * i) v m).
Proof. intros Hi a Ha. apply byte_at_store. unfold PGSIZE in *. lia. Qed.

Lemma load_other_entry m p i j v :
  i ≠ j → load64 (store64 (p + 8 * j) v m) (p + 8 * i) = load64 m (p + 8 * i).
Proof. intros Hne. apply load_store_disjoint. lia. Qed.

(** ** A new page-table page *)

Section NewTable.
Context (m : mem) (root : Z) (G : tree) (x : Z) (l : list Z).
Context (n : list Z) (p i : Z).
Context (Hinv : pt_inv m root G (x :: l)) (Hx : page_ok x = true) (Hxl : x ∉ l).
Context (Hn : G !! n = Some p) (Hlen : (length n < 2)%nat) (Hi : 0 ≤ i < 512).
Context (Hnew : G !! (n ++ [i]) = None).

Let m' : mem :=
  store64 (p + 8 * i) (Z.lor (PA2PTE x) PTE_V) (memset x 0 pgsize (memset x 5 pgsize m)).
Let G' : tree := <[n ++ [i]:=x]> G.

Lemma new_table_fresh n' p' : G !! n' = Some p' → page_ok p' = true ∧ p' ≠ x ∧ p' ∉ l.
Proof.
  intros H. destruct (pt_page _ _ _ _ Hinv _ _ H) as [Hp' Hnot].
  rewrite not_elem_of_cons in Hnot. by destruct Hnot.
Qed.

Lemma new_table_memset n' p' j :
  G !! n' = Some p' → 0 ≤ j < 512 →
  load64 (memset x 0 pgsize (memset x 5 pgsize m)) (p' + 8 * j) = load64 m (p' + 8 * j).
Proof.
  intros Hn' Hj. destruct (new_table_fresh _ _ Hn') as (Hok & Hne & _).
  apply (load_other_page _ _ _ x); [|done..].
  eapply same_except_page_trans; apply same_except_page_memset.
Qed.

Lemma new_table_load_old n' p' j :
  G !! n' = Some p' → 0 ≤ j < 512 → (n', j) ≠ (n, i) →
  load64 m' (p' + 8 * j) = load64 m (p' + 8 * j).
Proof.
  intros Hn' Hj Hne. unfold m'. rewrite <-(new_table_memset n') by done.
  destruct (new_table_fresh _ _ Hn') as (Hok & _ & _).
  destruct (new_table_fresh _ _ Hn) as (Hokp & _ & _).
  destruct (decide (p' = p)) as [->|Hpp].
  - apply load_other_entry. intros ->. apply Hne. f_equal.
    by eapply (pt_inj _ _ _ _ Hinv).
  - apply (load_other_page _ _ _ p); [by apply same_except_entry|done..].
Qed.

Lemma new_table_load_new j : 0 ≤ j < 512 → load64 m' (x + 8 * j) = 0.
Proof.
  intros Hj. destruct (new_table_fresh _ _ Hn) as (Hokp & Hne & _). unfold m'.
  rewrite (load_other_page (memset x 0 pgsize (memset x 5 pgsize m)) _ x p);
    [|by apply same_except_entry|done..].
  apply load_memset_zero; unfold pgsize, PGSIZE; lia.
Qed.

Lemma new_table_load_entry : load64 m' (p + 8 * i) = Z.lor (PA2PTE x) PTE_V.
Proof.
  unfold m'. rewrite load_store_same. apply Z.mod_small.
  pose proof (entry_range x PTE_V (page_ok_pa_ok _ Hx) PTE_V_range). lia.
Qed.

Lemma new_table_inv : pt_inv m' root G' l.
Proof.
  pose proof Hinv as [Hroot Hpage Hinj Hclosed Hentry]. unfold G'. split.
  - rewrite lookup_insert_ne by by destruct n. done.
  - intros n' p'. destruct (decide (n ++ [i] = n')) as [<-|Hne].
    + rewrite lookup_insert_eq. intros [= <-]. done.
    + rewrite lookup_insert_ne by done. intros H. by destruct (new_table_fresh _ _ H) as (? & _ & ?).
  - intros n1 n2 q. rewrite !lookup_insert.
    destruct (decide (n ++ [i] = n1)) as [<-|E1], (decide (n ++ [i] = n2)) as [<-|E2]; [done| | |].
    + intros [= <-] H. by destruct (new_table_fresh _ _ H) as (_ & ? & _).
    + intros H [= <-]. by destruct (new_table_fresh _ _ H) as (_ & ? & _).
    + apply Hinj.
  - intros n' j q. rewrite lookup_insert. case_decide as E.
    + apply app_inj_tail in E as [-> ->]. intros _.
      rewrite lookup_insert_ne; [by exists p|]. intros E%(f_equal length).
      rewrite length_app in E. simpl in E. lia.
    + intros H%Hclosed. destruct H as [p' H']. rewrite lookup_insert. case_decide; eauto.
  - intros n' p' j H' Hlen' Hj. rewrite (lookup_insert _ _ (n' ++ [j])). case_decide as E.
    + apply app_inj_tail in E as [<- <-].
      rewrite lookup_insert_ne in H'.
      2:{ intros E%(f_equal length). rewrite length_app in E. simpl in E. lia. }
      replace p' with p by congruence. apply new_table_load_entry.
    + rewrite lookup_insert in H'. case_decide as E'.
      * subst n'. injection H' as <-. destruct (G !! ((n ++ [i]) ++ [j])) eqn:Hc.
        { apply Hclosed in Hc as [? Hc]. congruence. }
        by rewrite new_table_load_new.
      * rewrite (new_table_load_old n') by (done || congruence). by apply Hentry.
Qed.

Lemma new_table_mapping va : 0 ≤ va → mapping m' G' va = mapping m G va.
Proof.
  intros Hva. unfold mapping, leaf, G'.
  pose proof (PX_range 0 va) as Hr. rewrite lookup_insert. case_decide as E.
  - rewrite <-E, Hnew. simpl. rewrite new_table_load_new by lia. done.
  - destruct (G !! [PX 2 va; PX 1 va]) as [p'|] eqn:Hp'; simpl; [|done].
    apply (new_table_load_old _ _ _ Hp'); [lia|]. intros [= <- _]. simpl in Hlen. lia.
Qed.

End NewTable.

(** ** What the page-table code leaves alone *)

(** Only memory, the free list and the recorded interrupt state change. *)
Definition kframe (s s' : kstate) : Prop :=
  s' = set_k_mem s'.(k_mem) (set_k_freelist s'.(k_freelist) (set_k_cpus s'.(k_cpus) s)) ∧
  (s'.(k_cpus) = s.(k_cpus) ∨ s'.(k_cpus) = (settle s).(k_cpus)).

Lemma kframe_refl s : kframe s s.
Proof. split; [by destruct s|by left]. Qed.

Lemma kframe_trans s1 s2 s3 : kframe s1 s2 → kframe s2 s3 → kframe s1 s3.
Proof.
  intros [H1 C1] [H2 C2]. split.
  - rewrite H2, H1. keq.
  - assert (Hh : s2.(k_hart) = s1.(k_hart)) by (rewrite H1; by kproj).
    destruct C1 as [C1|C1], C2 as [C2|C2]; revert C1 C2; kproj; rewrite ?Hh; intros C1 C2;
      rewrite C2, C1; auto. right. apply settle_cpus_idemp.
Qed.

(** [a] is in no page-table page. *)
Definition outside (G : tree) (a : Z) : Prop :=
  ∀ n p, G !! n = Some p → a < p ∨ p + PGSIZE ≤ a.

Definition pt_ready (s : kstate) (root : Z) (G : tree) (l : list Z) : Prop :=
  kmem_ready s l ∧ pt_inv s.(k_mem) root G l.

(** A page table that may have got new tables from the free list. *)
Record pt_grow (root : Z) (s : kstate) (G : tree) (l : list Z)
    (s' : kstate) (G' : tree) (l' : list Z) : Prop := {
  ext_ready : pt_ready s' root G' l';
  ext_frame : kframe s s';
  ext_sub : G ⊆ G';
  ext_new n p : G' !! n = Some p → G !! n = Some p ∨ p ∈ l;
  ext_free : l' `suffix_of` l;
  ext_used p : p ∈ l → p ∈ l' ∨ ∃ n, G' !! n = Some p;
  ext_mem a : outside G' a → byte_at s'.(k_mem) a = byte_at s.(k_mem) a
}.

(** New tables, and the same map. *)
Definition pt_ext (root : Z) (s : kstate) (G : tree) (l : list Z)
    (s' : kstate) (G' : tree) (l' : list Z) : Prop :=
  pt_grow root s G l s' G' l' ∧
  ∀ va, 0 ≤ va → mapping s'.(k_mem) G' va = mapping s.(k_mem) G va.

Lemma pt_grow_refl root s G l : pt_ready s root G l → pt_grow root s G l s G l.
Proof. intros H. split; auto using kframe_refl. Qed.

Lemma pt_grow_trans root s1 G1 l1 s2 G2 l2 s3 G3 l3 :
  pt_grow root s1 G1 l1 s2 G2 l2 → pt_grow root s2 G2 l2 s3 G3 l3 →
  pt_grow root s1 G1 l1 s3 G3 l3.
Proof.
  intros [R1 F1 S1 N1 L1 U1 M1] [R2 F2 S2 N2 L2 U2 M2]. split.
  - done.
  - by eapply kframe_trans.
  - by etrans.
  - intros n p [H|H]%N2; [by apply N1|]. right.
    destruct L1 as [k ->]. apply elem_of_app. by right.
  - by etrans.
  - intros p [H|[n H]]%U1; [by apply U2|]. right. exists n. by eapply lookup_weaken.
  - intros a Ha. rewrite M2 by done. apply M1. intros n p Hn. apply (Ha n).
    by eapply lookup_weaken.
Qed.

Lemma pt_ext_refl root s G l : pt_ready s root G l → pt_ext root s G l s G l.
Proof. intros H. split; [by apply pt_grow_refl|done]. Qed.

Lemma pt_ext_trans root s1 G1 l1 s2 G2 l2 s3 G3 l3 :
  pt_ext root s1 G1 l1 s2 G2 l2 → pt_ext root s2 G2 l2 s3 G3 l3 →
  pt_ext root s1 G1 l1 s3 G3 l3.
Proof.
  intros [R1 P1] [R2 P2]. split; [by eapply pt_grow_trans|].
  intros va Hva. by rewrite P2, P1.
Qed.

(** ** [walk] *)

Lemma walk_level_ok s root G l n p lv va :
  pt_ready s root G l → G !! n = Some p → (length n < 2)%nat → 0 ≤ lv → 0 ≤ va →
  ∃ r s' G' l', walk_level true va lv p s = Done r s' ∧ pt_ext root s G l s' G' l' ∧
    match r with None => l' = [] | Some q => G' !! (n ++ [PX lv va]) = Some q end.
Proof.
  intros [Hk Hpt] Hn Hlen Hlv Hva. pose proof (PX_range lv va Hlv Hva) as Hi.
  pose proof (pt_entry _ _ _ _ Hpt n p (PX lv va) Hn Hlen Hi) as He.
  unfold walk_level, pte_read, pte_write. mred.
  destruct (G !! (n ++ [PX lv va])) as [q|] eqn:Hq.
  - destruct (pt_page _ _ _ _ Hpt _ _ Hq) as [Hqok _].
    rewrite He, has_entry by auto using page_ok_pa_ok, PTE_V_range.
    rewrite PTE2PA_entry by auto using page_ok_pa_ok, PTE_V_range.
    exists (Some q), s, G, l. split; [done|]. split; [by apply pt_ext_refl|done].
  - rewrite (has_false _ _ He). cbn [negb]. mred. destruct l as [|x l].
    + destruct Hk as (Hwf & Hu & [H0 Hnd Hp]). simpl in H0. rewrite kalloc_empty by done.
      mred. exists None, (settle s), G, []. split; [done|]. split; [|done].
      split; [|done]. split; try done.
      * split; [by apply kmem_ready_settle|]. kproj. done.
      * split; [by destruct s|by right].
      * by left.
      * by left.
    + destruct (kmem_ready_kalloc _ _ _ Hk) as [Ha Hk']. rewrite Ha.
      destruct Hk as (_ & _ & [[Hfl _] [Hxl _]%NoDup_cons [Hxok _]%Forall_cons]).
      mred. rewrite (proj2 (Z.eqb_neq x 0)) by by apply page_ok_nonzero. mred.
      set (i := PX lv va) in *.
      eexists (Some x), _, (<[n ++ [i]:=x]> G), l. split; [reflexivity|].
      destruct (pt_page _ _ _ _ Hpt _ _ Hn) as [Hpok Hpl].
      rewrite not_elem_of_cons in Hpl. destruct Hpl as [Hpx Hpl].
      assert (Hmem : (kalloc_post s).(k_mem) = memset x 5 pgsize s.(k_mem)).
      { unfold kalloc_post. kproj. by rewrite Hfl. }
      split; [|by rewrite lookup_insert_eq].
      split; [|intros va' Hva'; kproj; rewrite Hmem; by eapply new_table_mapping]. split.
      * split.
        { apply (kmem_ready_set_mem _ _ p); [|done|done|kproj; by apply same_except_entry].
          apply (kmem_ready_set_mem _ _ x); [done..|]. apply same_except_page_memset. }
        kproj. rewrite Hmem. by eapply new_table_inv.
      * split; unfold kalloc_post; [keq|]. kproj. by right.
      * by apply insert_subseteq.
      * intros n' p'. rewrite lookup_insert. case_decide; [|by left].
        intros [= <-]. right. apply list_elem_of_here.
      * exists [x]. done.
      * intros q [->|Hq']%elem_of_cons; [|by left]. right. exists (n ++ [i]). by rewrite lookup_insert_eq.
      * intros a Ha'. kproj. rewrite Hmem.
        assert (a < x ∨ x + PGSIZE ≤ a) by (apply (Ha' (n ++ [i])); by rewrite lookup_insert_eq).
        assert (a < p ∨ p + PGSIZE ≤ a).
        { apply (Ha' n). rewrite lookup_insert_ne; [done|]. intros E. congruence. }
        rewrite (same_except_entry p i _ _ Hi) by done.
        rewrite (same_except_page_memset x) by done.
        by rewrite (same_except_page_memset x).
Qed.


Lemma MAXVA_eq : MAXVA = 2 ^ 38.
Proof. done. Qed.

(** [walk] with [alloc]: the entry's address, or 0 when memory ran out. *)
Lemma walk_alloc_ok s root G l va :
  pt_ready s root G l → 0 ≤ va < MAXVA →
  ∃ r s' G' l', walk root va true s = Done r s' ∧ pt_ext root s G l s' G' l' ∧
    (r = 0 ∧ l' = [] ∨ r ≠ 0 ∧ leaf G' va = Some r).
Proof.
  intros Hpt [Hva Hmax]. unfold walk. rewrite (proj2 (Z.leb_gt _ _) Hmax).
  cbn [walk_levels]. mred. pose proof (pt_root _ _ _ _ (proj2 Hpt)) as Hroot.
  destruct (walk_level_ok s root G l [] root 2 va) as (r1 & s1 & G1 & l1 & E1 & X1 & R1);
    [done..|simpl; lia|lia|done|].
  rewrite E1. cbn [obind]. destruct r1 as [q1|]; cbn [obind]; [|by eauto 10].
  simpl app in R1.
  destruct (walk_level_ok s1 root G1 l1 [PX 2 va] q1 1 va) as (r2 & s2 & G2 & l2 & E2 & X2 & R2);
    [apply (proj1 X1)|done|simpl; lia|lia|done|].
  rewrite E2. cbn [obind]. pose proof (pt_ext_trans _ _ _ _ _ _ _ _ _ _ X1 X2) as X.
  destruct r2 as [q2|]; cbn [obind]; [|by eauto 10].
  eexists _, s2, G2, l2. split; [reflexivity|]. split; [done|]. right.
  simpl app in R2. destruct (pt_page _ _ _ _ (proj2 (ext_ready _ _ _ _ _ _ _ (proj1 X))) _ _ R2) as [Hok _].
  pose proof (PX_range 0 va) as Hi. rewrite page_ok_spec in Hok. pose proof etext_range.
  split; [unfold KERNBASE in *; lia|]. unfold leaf. by rewrite R2.
Qed.

(** [walk] without [alloc] changes nothing and finds the entry if its tables
    exist. *)
Lemma walk_noalloc_level s root G l n p lv va :
  pt_inv s.(k_mem) root G l → G !! n = Some p → (length n < 2)%nat → 0 ≤ lv → 0 ≤ va →
  walk_level false va lv p s = Done (G !! (n ++ [PX lv va])) s.
Proof.
  intros Hpt Hn Hlen Hlv Hva. pose proof (PX_range lv va Hlv Hva) as Hi.
  pose proof (pt_entry _ _ _ _ Hpt n p (PX lv va) Hn Hlen Hi) as He.
  unfold walk_level, pte_read. mred.
  destruct (G !! (n ++ [PX lv va])) as [q|] eqn:Hq.
  - destruct (pt_page _ _ _ _ Hpt _ _ Hq) as [Hqok _].
    rewrite He, has_entry by auto using page_ok_pa_ok, PTE_V_range.
    by rewrite PTE2PA_entry by auto using page_ok_pa_ok, PTE_V_range.
  - by rewrite (has_false _ _ He).
Qed.

Lemma walk_noalloc_ok s root G l va :
  pt_inv s.(k_mem) root G l → 0 ≤ va < MAXVA →
  walk root va false s = Done (default 0 (leaf G va)) s.
Proof.
  intros Hpt [Hva Hmax]. unfold walk. rewrite (proj2 (Z.leb_gt _ _) Hmax).
  cbn [walk_levels]. mred. pose proof (pt_root _ _ _ _ Hpt) as Hroot.
  rewrite (walk_noalloc_level s root G l []) by (done || simpl; lia). cbn [obind].
  change ([] ++ [PX 2 va]) with [PX 2 va].
  unfold leaf. destruct (G !! [PX 2 va]) as [q1|] eqn:H1; cbn [obind].
  - rewrite (walk_noalloc_level s root G l [PX 2 va]) by (done || simpl; lia).
    change ([PX 2 va] ++ [PX 1 va]) with [PX 2 va; PX 1 va]. cbn [obind]. by destruct (G !! [PX 2 va; PX 1 va]).
  - destruct (G !! [PX 2 va; PX 1 va]) as [q|] eqn:H2; [|done].
    apply (pt_closed _ _ _ _ Hpt [PX 2 va]) in H2 as [? ?]. congruence.
Qed.

Lemma leaf_nonzero s root G l va pte :
  pt_inv s.(k_mem) root G l → 0 ≤ va → leaf G va = Some pte → pte ≠ 0.
Proof.
  intros Hpt Hva. unfold leaf. intros (p & Hp & ->)%fmap_Some.
  destruct (pt_page _ _ _ _ Hpt _ _ Hp) as [Hok _]. rewrite page_ok_spec in Hok.
  pose proof (PX_range 0 va). pose proof etext_range. unfold KERNBASE in *. lia.
Qed.

(** What [walkaddr] answers for an entry. *)
Definition pte_user_pa (v : Z) : Z :=
  if has v PTE_V && has v PTE_U then PTE2PA v else 0.

Lemma walkaddr_ok s root G l va :
  pt_inv s.(k_mem) root G l → 0 ≤ va →
  walkaddr root va s =
    Done (if va <? MAXVA then pte_user_pa (mapping s.(k_mem) G va) else 0) s.
Proof.
  intros Hpt Hva. unfold walkaddr, pte_read.
  destruct (Z.leb_spec MAXVA va) as [Hmax|Hmax].
  - by rewrite (proj2 (Z.ltb_ge _ _) Hmax).
  - rewrite (proj2 (Z.ltb_lt _ _) Hmax). mred.
    rewrite (walk_noalloc_ok s root G l) by done. cbn [obind].
    unfold pte_user_pa, mapping. destruct (leaf G va) as [pte|] eqn:Hl; cbn [default].
    + rewrite (proj2 (Z.eqb_neq _ _)) by by eapply leaf_nonzero. mred. unfold has.
      destruct (Z.land _ PTE_V =? 0); [done|]. by destruct (Z.land _ PTE_U =? 0).
    + done.
Qed.

(** Different pages have different entries. *)
Lemma leaf_inj s root G l va va' pte :
  pt_ready s root G l → 0 ≤ va < MAXVA → 0 ≤ va' < MAXVA →
  leaf G va = Some pte → leaf G va' = Some pte → va / PGSIZE = va' / PGSIZE.
Proof.
  intros [_ Hpt] Hva Hva' (p & Hp & ->)%fmap_Some (p' & Hp' & Heq)%fmap_Some.
  destruct (pt_page _ _ _ _ Hpt _ _ Hp) as [Hok _].
  destruct (pt_page _ _ _ _ Hpt _ _ Hp') as [Hok' _].
  pose proof (PX_range 0 va) as R. pose proof (PX_range 0 va') as R'.
  assert (p = p') as <-.
  { destruct (decide (p = p')) as [|Hne]; [done|].
    destruct (page_disjoint p p' Hok Hok' Hne); unfold PGSIZE in *; lia. }
  pose proof (pt_inj _ _ _ _ Hpt _ _ _ Hp Hp') as [= E2 E1].
  apply PX_inj; [done..|lia].
Qed.

(** The entry of an address is the entry of its page. *)
Lemma leaf_page G va va' :
  0 ≤ va → 0 ≤ va' → va / PGSIZE = va' / PGSIZE → leaf G va = leaf G va'.
Proof.
  intros Hva Hva' E. assert (Hpx : ∀ lv, 0 ≤ lv → PX lv va = PX lv va').
  { intros lv Hlv. rewrite !PX_eq, Z.pow_add_r, <-!Z.div_div by lia.
    change (2 ^ 12) with PGSIZE. by rewrite E. }
  unfold leaf. by rewrite !Hpx by lia.
Qed.

(** ** Writing an entry *)

(** The entry of [va] set to [v], every other page of the map unchanged. *)
Lemma set_entry s root G l va pte v :
  pt_ready s root G l → 0 ≤ va < MAXVA → leaf G va = Some pte → 0 ≤ v < 2 ^ 64 →
  let s' := set_k_mem (store64 pte v s.(k_mem)) s in
  pt_grow root s G l s' G l ∧
  (∀ va', 0 ≤ va' < MAXVA →
    mapping s'.(k_mem) G va' =
      if decide (va' / PGSIZE = va / PGSIZE) then v else mapping s.(k_mem) G va').
Proof.
  intros Hr Hva Hl Hv s'. pose proof Hr as [Hk Hpt].
  pose proof Hl as (p & Hp & Epte)%fmap_Some.
  destruct (pt_page _ _ _ _ Hpt _ _ Hp) as [Hok Hpl].
  pose proof (PX_range 0 va) as Ri.
  assert (Hsame : same_except_page p s.(k_mem) (store64 pte v s.(k_mem)))
    by (rewrite Epte; apply same_except_entry; lia).
  split; [split; [split| | | | | |]|].
  - by eapply kmem_ready_set_mem.
  - unfold s'. kproj. pose proof Hpt as [H1 H2 H3 H4 H5]. split; [done..|].
    intros n q i Hn Hlen Hi. rewrite (load_other_page s.(k_mem) _ q p); [by apply H5|done|by destruct (H2 _ _ Hn)|done| |done].
    intros ->. pose proof (H3 _ _ _ Hn Hp) as ->. simpl in Hlen. lia.
  - split; unfold s'; [keq|]. kproj. by left.
  - done.
  - by left.
  - done.
  - by left.
  - intros a Ha. unfold s'. kproj. apply Hsame. by apply (Ha [PX 2 va; PX 1 va]).
  - intros va' Hva'. unfold s', mapping. kproj. destruct (leaf G va') as [pte'|] eqn:Hl'.
    + pose proof Hl' as (p' & Hp' & Epte')%fmap_Some. pose proof (PX_range 0 va') as Ri'.
      destruct (decide (va' / PGSIZE = va / PGSIZE)) as [E|Hne].
      * assert (pte' = pte) as ->.
        { rewrite (leaf_page G va' va) in Hl' by (done || lia). congruence. }
        rewrite load_store_same. apply Z.mod_small. done.
      * destruct (decide (p' = p)) as [->|Hpp].
        { rewrite Epte, Epte'. apply load_other_entry. intros E.
          apply Hne. apply (leaf_inj s root G l va' va pte); [done..| |done].
          rewrite Hl'. f_equal. lia. }
        rewrite Epte'. apply (load_other_page _ _ _ p); [done| |done|done|lia].
        by destruct (pt_page _ _ _ _ Hpt _ _ Hp').
    + destruct (decide (va' / PGSIZE = va / PGSIZE)) as [E|]; [|done]. exfalso.
      rewrite (leaf_page G va' va) in Hl' by (done || lia). congruence.
Qed.


(** ** [mappages] *)

(** The entry [mappages] writes. *)
Definition pte_of (pa perm : Z) : Z := Z.lor (Z.lor (PA2PTE pa) perm) PTE_V.

Lemma lor_lt_pow2 a b k : 0 ≤ k → 0 ≤ a < 2 ^ k → 0 ≤ b < 2 ^ k → 0 ≤ Z.lor a b < 2 ^ k.
Proof.
  intros Hk Ha Hb. assert (0 ≤ Z.lor a b) by (apply Z.lor_nonneg; lia). split; [done|].
  destruct (decide (Z.lor a b = 0)) as [->|Hne]; [lia|]. apply Z.log2_lt_pow2; [lia|].
  rewrite Z.log2_lor by lia. apply Z.max_lub_lt.
  - destruct (decide (a = 0)) as [->|]; [destruct (decide (k = 0)) as [->|]; [|simpl; lia]|apply Z.log2_lt_pow2; lia].
    assert (b = 0) by lia. subst. done.
  - destruct (decide (b = 0)) as [->|]; [destruct (decide (k = 0)) as [->|]; [|simpl; lia]|apply Z.log2_lt_pow2; lia].
    assert (a = 0) by lia. subst. done.
Qed.

Lemma pte_of_eq pa perm : pte_of pa perm = Z.lor (PA2PTE pa) (Z.lor perm PTE_V).
Proof. unfold pte_of. by rewrite Z.lor_assoc. Qed.

Lemma perm_V_range perm : 0 ≤ perm < 2 ^ 10 → 0 ≤ Z.lor perm PTE_V < 2 ^ 10.
Proof. intros H. apply lor_lt_pow2; [lia|done|apply PTE_V_range]. Qed.

Lemma pte_of_range pa perm :
  pa_ok pa → 0 ≤ perm < 2 ^ 10 → 0 ≤ pte_of pa perm < 2 ^ 64.
Proof.
  intros Hpa Hp. rewrite pte_of_eq.
  pose proof (entry_range pa _ Hpa (perm_V_range _ Hp)). lia.
Qed.

Lemma pte_of_PA pa perm : pa_ok pa → 0 ≤ perm < 2 ^ 10 → PTE2PA (pte_of pa perm) = pa.
Proof. intros. rewrite pte_of_eq. apply PTE2PA_entry; auto using perm_V_range. Qed.

Lemma pte_of_flags pa perm :
  pa_ok pa → 0 ≤ perm < 2 ^ 10 → PTE_FLAGS (pte_of pa perm) = Z.lor perm PTE_V.
Proof. intros. rewrite pte_of_eq. apply PTE_FLAGS_entry; auto using perm_V_range. Qed.

Lemma pte_of_V pa perm : pa_ok pa → 0 ≤ perm < 2 ^ 10 → has (pte_of pa perm) PTE_V = true.
Proof.
  intros Hpa Hp. rewrite pte_of_eq, has_entry by auto using perm_V_range, PTE_V_range.
  unfold has. rewrite Z.land_lor_distr_l. apply negb_true_iff, Z.eqb_neq.
  rewrite Z.lor_eq_0_iff. by intros [_ ?].
Qed.

Lemma pte_of_U pa perm :
  pa_ok pa → 0 ≤ perm < 2 ^ 10 → has (pte_of pa perm) PTE_U = has perm PTE_U.
Proof.
  intros Hpa Hp. rewrite pte_of_eq, has_entry by auto using perm_V_range, PTE_U_range.
  unfold has. rewrite Z.land_lor_distr_l. change (Z.land PTE_V PTE_U) with 0.
  by rewrite Z.lor_0_r.
Qed.

(** [c] pages from [a] on mapped to consecutive physical pages from [pa] on. *)
Definition map_range (f : Z → Z) (a c pa perm va : Z) : Z :=
  if decide (a / PGSIZE ≤ va / PGSIZE < a / PGSIZE + c)
  then pte_of (pa + PGSIZE * (va / PGSIZE - a / PGSIZE)) perm
  else f va.

Lemma mapping_None m G va : leaf G va = None → mapping m G va = 0.
Proof. unfold mapping. by intros ->. Qed.

Lemma mappages_body_ok root s G l a pa perm last :
  pt_ready s root G l → 0 ≤ a < MAXVA → a mod PGSIZE = 0 →
  has (mapping s.(k_mem) G a) PTE_V = false → pa_ok pa → 0 ≤ perm < 2 ^ 10 →
  ∃ r s' G' l', mappages_body root last perm (a, pa) s = Done r s' ∧
    pt_grow root s G l s' G' l' ∧
    (r = inr (-1) ∧ l' = [] ∧
       (∀ va, 0 ≤ va → mapping s'.(k_mem) G' va = mapping s.(k_mem) G va) ∨
     r = (if a =? last then inr 0 else inl (u64 (a + PGSIZE), u64 (pa + PGSIZE))) ∧
       (∀ va, 0 ≤ va < MAXVA →
         mapping s'.(k_mem) G' va = map_range (mapping s.(k_mem) G) a 1 pa perm va)).
Proof.
  intros Hpt Ha Hal Hun Hpa Hperm. unfold mappages_body, pte_read, pte_write. mred.
  destruct (walk_alloc_ok s root G l a Hpt Ha) as (r & s1 & G1 & l1 & E1 & [X1 P1] & R1).
  rewrite E1. cbn [obind]. destruct R1 as [[-> ->]|[Hr Hl]].
  { mred. exists (inr (-1)), s1, G1, []. eauto 10. }
  rewrite (proj2 (Z.eqb_neq _ _) Hr). mred.
  replace (load64 (k_mem s1) r) with (mapping (k_mem s1) G1 a) by (unfold mapping; by rewrite Hl).
  rewrite P1, Hun by lia. mred.
  destruct (set_entry s1 root G1 l1 a r (pte_of pa perm)) as [X2 P2];
    [apply X1|done|done|by apply pte_of_range|].
  pose proof (pt_grow_trans _ _ _ _ _ _ _ _ _ _ X1 X2) as X. fold (pte_of pa perm).
  eexists _, _, G1, l1. split; [|split; [exact X|right; split; [reflexivity|]]].
  { by destruct (a =? last). }
  intros va Hva. rewrite P2, P1 by lia. unfold map_range.
  destruct (decide (va / PGSIZE = a / PGSIZE)) as [E|E].
  - rewrite decide_True by lia. f_equal. lia.
  - by rewrite decide_False by lia.
Qed.

Lemma mappages_loop (k : nat) fuel root s G l a pa perm last :
  pt_ready s root G l → 0 ≤ a → a mod PGSIZE = 0 → last = a + PGSIZE * Z.of_nat k →
  last < MAXVA → (k < fuel)%nat →
  (∀ va, 0 ≤ va < MAXVA → a / PGSIZE ≤ va / PGSIZE ≤ a / PGSIZE + Z.of_nat k →
    has (mapping s.(k_mem) G va) PTE_V = false) →
  pa mod PGSIZE = 0 → 0 ≤ pa → pa + PGSIZE * Z.of_nat k < 2 ^ 56 → 0 ≤ perm < 2 ^ 10 →
  ∃ r s' G' l' c, loop fuel (mappages_body root last perm) (a, pa) s = Done r s' ∧
    pt_grow root s G l s' G' l' ∧
    (r = 0 ∧ c = Z.of_nat k + 1 ∨ r = -1 ∧ 0 ≤ c ≤ Z.of_nat k ∧ l' = []) ∧
    (∀ va, 0 ≤ va < MAXVA →
      mapping s'.(k_mem) G' va = map_range (mapping s.(k_mem) G) a c pa perm va).
Proof.
  revert fuel s G l a pa. induction k as [|k IH];
    intros [|fuel] s G l a pa Hpt Ha Hal Hlast Hmax Hf Hun Hpal Hpa0 Hpa Hperm; try lia.
  - cbn [loop]. mred.
    destruct (mappages_body_ok root s G l a pa perm last) as (r & s1 & G1 & l1 & E1 & X1 & R1);
      [done|unfold PGSIZE in *; lia|done|apply Hun; unfold PGSIZE in *; lia|split; [unfold PGSIZE in *; lia|done]|done|].
    rewrite E1. cbn [obind]. destruct R1 as [(-> & -> & P1)|[-> P1]].
    + exists (-1), s1, G1, [], 0. split; [done|]. split; [done|]. split; [right; split_and!; (done || lia)|].
      intros va Hva. rewrite P1 by lia. unfold map_range. by rewrite decide_False by lia.
    + rewrite (proj2 (Z.eqb_eq a last)) by lia. exists 0, s1, G1, l1, 1. split; [done|].
      split; [done|]. split; [left; lia|done].
  - cbn [loop]. mred.
    destruct (mappages_body_ok root s G l a pa perm last) as (r & s1 & G1 & l1 & E1 & X1 & R1);
      [done|unfold PGSIZE in *; lia|done|apply Hun; unfold PGSIZE in *; lia|split; [unfold PGSIZE in *; lia|done]|done|].
    rewrite E1. cbn [obind]. destruct R1 as [(-> & -> & P1)|[-> P1]].
    + exists (-1), s1, G1, [], 0. split; [done|]. split; [done|]. split; [right; split_and!; (done || lia)|].
      intros va Hva. rewrite P1 by lia. unfold map_range. by rewrite decide_False by lia.
    + rewrite (proj2 (Z.eqb_neq a last)) by (unfold PGSIZE in *; lia).
      unfold u64. rewrite !Z.mod_small by (pose proof MAXVA_eq; unfold PGSIZE in *; lia).
      destruct (IH fuel s1 G1 l1 (a + PGSIZE) (pa + PGSIZE))
        as (r & s2 & G2 & l2 & c & E2 & X2 & R2 & P2);
        [apply X1|try (unfold PGSIZE in *; lia)..|].
      { intros va Hva Hin. rewrite P1 by done. unfold map_range. unfold PGSIZE in *.
        rewrite decide_False by lia. apply Hun; lia. }
      exists r, s2, G2, l2, (c + 1). split; [done|].
      split; [by eapply pt_grow_trans|]. split.
      { destruct R2 as [[-> ->]|(-> & Hc & ->)]; [left|right]; split_and!; (done || lia). }
      intros va Hva. rewrite P2 by done. unfold map_range. rewrite P1 by done. unfold map_range.
      unfold PGSIZE in *. repeat case_decide; try lia; try done; f_equal; lia.
Qed.


(** ** [uvmunmap] *)

(** A page that is neither a page-table page nor free may change. *)
Lemma pt_inv_frame m m' root G l pa :
  pt_inv m root G l → page_ok pa = true → (∀ n, G !! n ≠ Some pa) → same_except_page pa m m' →
  pt_inv m' root G l ∧ (∀ va, 0 ≤ va → mapping m' G va = mapping m G va).
Proof.
  intros Hpt Hpa HG Hm. assert (Hload : ∀ n p i, G !! n = Some p → 0 ≤ i < 512 →
    load64 m' (p + 8 * i) = load64 m (p + 8 * i)).
  { intros n p i Hn Hi. apply (load_other_page _ _ _ pa); [done| |done| |done].
    - by destruct (pt_page _ _ _ _ Hpt _ _ Hn).
    - intros ->. by apply (HG n). }
  split.
  - pose proof Hpt as [H1 H2 H3 H4 H5]. split; [done..|].
    intros n p j Hn Hlen Hj. rewrite (Hload n) by done. by apply H5.
  - intros va Hva. unfold mapping, leaf. pose proof (PX_range 0 va).
    destruct (G !! [PX 2 va; PX 1 va]) as [p|] eqn:Hp; simpl; [|done]. by apply (Hload _ _ _ Hp); lia.
Qed.

Lemma pt_ready_set_mem s root G l pa m' :
  pt_ready s root G l → page_ok pa = true → (pa ∉ l) → (∀ n, G !! n ≠ Some pa) →
  same_except_page pa s.(k_mem) m' → pt_ready (set_k_mem m' s) root G l.
Proof.
  intros [Hk Hpt] Hpa Hl HG Hm. split; [by eapply kmem_ready_set_mem|]. kproj.
  by eapply pt_inv_frame.
Qed.

Lemma pt_ready_kfree s root G l pa :
  pt_ready s root G l → page_ok pa = true → pa ∉ l → (∀ n, G !! n ≠ Some pa) →
  kfree pa s = Done tt (kfree_post pa s) ∧ pt_ready (kfree_post pa s) root G (pa :: l) ∧
  same_except_page pa s.(k_mem) (kfree_post pa s).(k_mem) ∧
  (∀ va, 0 ≤ va → mapping (kfree_post pa s).(k_mem) G va = mapping s.(k_mem) G va).
Proof.
  intros [Hk Hpt] Hpa Hnot HG. destruct (kmem_ready_kfree s pa l Hk Hpa Hnot) as [E Hk'].
  assert (Hm : same_except_page pa s.(k_mem) (kfree_post pa s).(k_mem)).
  { unfold kfree_post. kproj. eapply same_except_page_trans;
      [apply same_except_page_memset|apply same_except_page_store]. }
  destruct (pt_inv_frame _ _ _ _ _ _ Hpt Hpa HG Hm) as [[H1 H2 H3 H4 H5] Hmap].
  split; [done|]. split; [split; [done|]|by split]. split; [done| |done..].
  intros n p Hn. destruct (H2 _ _ Hn) as [? ?]. split; [done|].
  apply not_elem_of_cons. split; [|done]. intros ->. by apply (HG n).
Qed.

Definition off_page (pa a : Z) : Prop := a < pa ∨ pa + PGSIZE ≤ a.

(** A page that [uvmunmap] may remove, and free when [do_free]. *)
Definition unmappable (do_free : bool) (G : tree) (l : list Z) (v : Z) : Prop :=
  has v PTE_V = true ∧ PTE_FLAGS v ≠ PTE_V ∧
  (do_free = true →
    page_ok (PTE2PA v) = true ∧ (PTE2PA v ∉ l) ∧ (∀ n, G !! n ≠ Some (PTE2PA v))).

Definition unmap_range (f : Z → Z) (a c va : Z) : Z :=
  if decide (a / PGSIZE ≤ va / PGSIZE < a / PGSIZE + c) then 0 else f va.

(** The pages freed for [c] virtual pages from [a] on. *)
Definition freed_pages (f : Z → Z) (a : Z) (c : nat) : list Z :=
  (λ i, PTE2PA (f (a + PGSIZE * Z.of_nat i))) <$> seq 0 c.

Lemma freed_pages_S f a c :
  freed_pages f a (S c) = PTE2PA (f a) :: freed_pages f (a + PGSIZE) c.
Proof.
  unfold freed_pages. rewrite <-cons_seq, <-fmap_S_seq, fmap_cons, <-list_fmap_compose.
  f_equal; [do 2 f_equal; lia|]. apply list_fmap_ext. intros i x _. simpl. do 2 f_equal. lia.
Qed.

Lemma has_mapping_leaf m G va : has (mapping m G va) PTE_V = true → is_Some (leaf G va).
Proof. unfold mapping. destruct (leaf G va); [eauto|done]. Qed.

Lemma kframe_kfree s pa : kframe s (kfree_post pa s).
Proof. split; unfold kfree_post; [keq|]. kproj. by right. Qed.

Lemma uvmunmap_body_ok root s G l (do_free : bool) a a_end :
  pt_ready s root G l → 0 ≤ a < MAXVA → a < a_end →
  unmappable do_free G l (mapping s.(k_mem) G a) →
  ∃ s', uvmunmap_body root do_free a_end a s = Done (inl (u64 (a + PGSIZE))) s' ∧
    pt_ready s' root G (if do_free then PTE2PA (mapping s.(k_mem) G a) :: l else l) ∧
    kframe s s' ∧
    (∀ va, 0 ≤ va < MAXVA →
      mapping s'.(k_mem) G va = unmap_range (mapping s.(k_mem) G) a 1 va) ∧
    (∀ x, outside G x → (do_free = true → off_page (PTE2PA (mapping s.(k_mem) G a)) x) →
      byte_at s'.(k_mem) x = byte_at s.(k_mem) x).
Proof.
  intros Hpt Ha Hend (HV & HF & Hfree). unfold uvmunmap_body, pte_read, pte_write.
  rewrite (proj2 (Z.ltb_lt _ _) Hend). mred.
  destruct (has_mapping_leaf _ _ _ HV) as [pte Hl].
  rewrite (walk_noalloc_ok s root G l) by (apply Hpt || done). rewrite Hl. change (default 0 (Some pte)) with pte. cbn [obind].
  assert (Hm : load64 s.(k_mem) pte = mapping s.(k_mem) G a) by (unfold mapping; by rewrite Hl).
  rewrite (proj2 (Z.eqb_neq _ _)) by (eapply leaf_nonzero; [apply Hpt| |done]; lia). mred.
  rewrite Hm. set (v := mapping s.(k_mem) G a) in *. unfold has in HV.
  apply negb_true_iff in HV. rewrite HV, (proj2 (Z.eqb_neq _ _) HF). mred.
  destruct do_free.
  - destruct (Hfree eq_refl) as (Hok & Hnl & HnG).
    destruct (pt_ready_kfree s root G l (PTE2PA v)) as (E & Hr' & Hsame & Hmap); [done..|].
    rewrite E. mred.
    destruct (set_entry (kfree_post (PTE2PA v) s) root G (PTE2PA v :: l) a pte 0) as [X P];
      [done..|lia|].
    eexists. split; [reflexivity|]. split; [apply X|]. split.
    { eapply kframe_trans; [apply kframe_kfree|apply X]. }
    split; [|intros x Hx Hp; rewrite (ext_mem _ _ _ _ _ _ _ X) by done; by apply Hsame, Hp].
    intros va Hva. rewrite P by done. unfold unmap_range.
    destruct (decide (va / PGSIZE = a / PGSIZE)); [by rewrite decide_True by lia|].
    rewrite decide_False by lia. apply Hmap. lia.
  - mred. destruct (set_entry s root G l a pte 0) as [X P]; [done..|lia|].
    eexists. split; [reflexivity|]. split; [apply X|]. split; [apply X|].
    split; [|intros x Hx _; by apply (ext_mem _ _ _ _ _ _ _ X)].
    intros va Hva. rewrite P by done. unfold unmap_range.
    destruct (decide (va / PGSIZE = a / PGSIZE)); [by rewrite decide_True by lia|].
    by rewrite decide_False by lia.
Qed.

Lemma uvmunmap_loop (c : nat) fuel root s G l (do_free : bool) a :
  pt_ready s root G l → 0 ≤ a → a mod PGSIZE = 0 → a + PGSIZE * Z.of_nat c ≤ MAXVA →
  (c < fuel)%nat →
  (∀ i, (i < c)%nat → unmappable do_free G l (mapping s.(k_mem) G (a + PGSIZE * Z.of_nat i))) →
  (do_free = true → NoDup (freed_pages (mapping s.(k_mem) G) a c)) →
  ∃ s', loop fuel (uvmunmap_body root do_free (a + PGSIZE * Z.of_nat c)) a s = Done tt s' ∧
    pt_ready s' root G
      (if do_free then rev (freed_pages (mapping s.(k_mem) G) a c) ++ l else l) ∧
    kframe s s' ∧
    (∀ va, 0 ≤ va < MAXVA →
      mapping s'.(k_mem) G va = unmap_range (mapping s.(k_mem) G) a (Z.of_nat c) va) ∧
    (∀ x, outside G x → (do_free = true → Forall (λ pa, off_page pa x) (freed_pages (mapping s.(k_mem) G) a c)) →
      byte_at s'.(k_mem) x = byte_at s.(k_mem) x).
Proof.
  revert fuel s l a. induction c as [|c IH];
    intros [|fuel] s l a Hpt Ha Hal Hmax Hf Hun Hnd; try lia; cbn [loop]; mred.
  - unfold uvmunmap_body at 1. rewrite (proj2 (Z.ltb_ge _ _)) by lia. mred.
    exists s. split; [done|]. split; [by destruct do_free|]. split; [apply kframe_refl|]. split; [|done].
    intros va Hva. unfold unmap_range. by rewrite decide_False by lia.
  - pose proof (Hun 0%nat ltac:(lia)) as H0. rewrite Z.mul_0_r, Z.add_0_r in H0.
    destruct (uvmunmap_body_ok root s G l do_free a (a + PGSIZE * Z.of_nat (S c)))
      as (s1 & E1 & R1 & F1 & P1 & M1); [done|unfold PGSIZE in *; lia..|done|].
    rewrite E1. mred. unfold u64. pose proof MAXVA_eq.
    rewrite Z.mod_small by (unfold PGSIZE in *; lia).
    replace (a + PGSIZE * Z.of_nat (S c)) with ((a + PGSIZE) + PGSIZE * Z.of_nat c) by lia.
    assert (Hmap : ∀ i, (i < c)%nat → mapping s1.(k_mem) G (a + PGSIZE + PGSIZE * Z.of_nat i)
        = mapping s.(k_mem) G (a + PGSIZE * Z.of_nat (S i))).
    { intros i Hi. rewrite P1 by (unfold PGSIZE in *; lia). unfold unmap_range.
      rewrite decide_False by (unfold PGSIZE in *; lia). f_equal. lia. }
    assert (Hfp : freed_pages (mapping s1.(k_mem) G) (a + PGSIZE) c
      = freed_pages (mapping s.(k_mem) G) (a + PGSIZE) c).
    { unfold freed_pages. apply list_fmap_ext. intros j x Hj.
      apply lookup_seq in Hj as [-> Hj]. simpl. rewrite Hmap by done. do 2 f_equal. lia. }
    rewrite freed_pages_S in Hnd.
    destruct (IH fuel s1 (if do_free then PTE2PA (mapping (k_mem s) G a) :: l else l) (a + PGSIZE))
      as (s2 & E2 & R2 & F2 & P2 & M2); [done|unfold PGSIZE in *; lia..| | |].
    { intros i Hi. rewrite Hmap by done. destruct (Hun (S i)) as (HV & HF & Hfr); [lia|].
      split; [done|]. split; [done|]. intros ->. destruct (Hfr eq_refl) as (Hok & Hnl & HnG).
      split; [done|]. split; [|done]. apply not_elem_of_cons. split; [|done].
      intros Heq. specialize (Hnd eq_refl). apply NoDup_cons in Hnd as [Hnd _]. apply Hnd.
      rewrite <-Heq. apply list_elem_of_fmap. exists i. split; [do 2 f_equal; lia|].
      apply elem_of_seq. lia. }
    { intros ->. rewrite Hfp. specialize (Hnd eq_refl). by apply NoDup_cons in Hnd as [_ Hnd]. }
    exists s2. split; [done|]. split; [|split; [by eapply kframe_trans|split]].
    + destruct do_free; [|done]. rewrite Hfp in R2. rewrite freed_pages_S. simpl rev.
      by rewrite <-app_assoc.
    + intros va Hva. rewrite P2 by done. unfold unmap_range. rewrite P1 by done.
      unfold unmap_range. unfold PGSIZE in *. repeat case_decide; try lia; done.
    + intros x Hx Hp. rewrite freed_pages_S in Hp. rewrite M2, M1; [done|done| |done|].
      * intros Hd. by apply Hp, Forall_cons in Hd as [? _].
      * intros Hd. apply Hp, Forall_cons in Hd as [_ ?]. by rewrite Hfp.
Qed.

(** ** The whole operations *)

(** The number of pages that [va .. va + size - 1] touches. *)
Definition npages (va size : Z) : Z := (va + size - 1) / PGSIZE - va / PGSIZE + 1.

Lemma PGROUNDDOWN_div a : PGROUNDDOWN a / PGSIZE = a / PGSIZE.
Proof. rewrite PGROUNDDOWN_eq. unfold PGSIZE. lia. Qed.

Lemma PGROUNDDOWN_mul a : PGROUNDDOWN a = PGSIZE * (a / PGSIZE).
Proof. rewrite PGROUNDDOWN_eq. unfold PGSIZE. lia. Qed.

Lemma npages_pos va size : 0 ≤ va → 0 < size → 1 ≤ npages va size.
Proof. intros. unfold npages, PGSIZE. lia. Qed.

Lemma npages_last va size :
  PGROUNDDOWN (va + size - 1) = PGROUNDDOWN va + PGSIZE * (npages va size - 1).
Proof. rewrite !PGROUNDDOWN_mul. unfold npages. ring. Qed.

Lemma u64_id a : 0 ≤ a < 2 ^ 64 → u64 a = a.
Proof. apply Z.mod_small. Qed.

Lemma mappages_ok root s G l va size pa perm :
  pt_ready s root G l → 0 ≤ va → 0 < size → va + size ≤ MAXVA →
  (∀ va', 0 ≤ va' < MAXVA → va / PGSIZE ≤ va' / PGSIZE < va / PGSIZE + npages va size →
    has (mapping s.(k_mem) G va') PTE_V = false) →
  pa mod PGSIZE = 0 → 0 ≤ pa → pa + PGSIZE * npages va size ≤ 2 ^ 56 → 0 ≤ perm < 2 ^ 10 →
  ∃ r s' G' l' c, mappages root va size pa perm s = Done r s' ∧
    pt_grow root s G l s' G' l' ∧
    (r = 0 ∧ c = npages va size ∨ r = -1 ∧ 0 ≤ c < npages va size ∧ l' = []) ∧
    (∀ va', 0 ≤ va' < MAXVA →
      mapping s'.(k_mem) G' va' = map_range (mapping s.(k_mem) G) va c pa perm va').
Proof.
  intros Hpt Hva Hsz Hmax Hun Hpal Hpa0 Hpa Hperm.
  pose proof (npages_pos va size Hva Hsz) as Hn. pose proof (npages_last va size) as Hlast.
  pose proof (PGROUNDDOWN_bounds (va + size - 1)) as [Hb _].
  assert (Ha : 0 ≤ PGROUNDDOWN va) by (rewrite PGROUNDDOWN_mul; unfold PGSIZE; lia).
  pose proof (PGROUNDDOWN_bounds va) as [_ Hal].
  pose proof (PGROUNDDOWN_div va) as Hdiv. pose proof MAXVA_eq as Hm.
  unfold mappages. rewrite (proj2 (Z.eqb_neq _ _)) by (clear -Hsz; lia).
  rewrite (u64_id (va + size - 1)) by (clear -Hva Hsz Hmax Hm; lia). cbv zeta.
  revert Hb Hlast Hdiv Ha Hal. generalize (PGROUNDDOWN (va + size - 1)) as last.
  generalize (PGROUNDDOWN va) as a. intros a last Hb Hlast Hdiv Ha Hal.
  destruct (mappages_loop (Z.to_nat (npages va size - 1)) (mappages_fuel a last)
      root s G l a pa perm last) as (r & s' & G' & l' & c & E & Hg & Hr & Hmap);
    [done|done|done| | | | |done|done| |done|]; rewrite ?Z2Nat.id by (clear -Hn; lia).
  - done.
  - clear -Hb Hmax. lia.
  - clear -Hn Hlast Ha. unfold mappages_fuel.
    rewrite (proj2 (Z.leb_le _ _)) by (unfold PGSIZE in *; lia). subst last.
    replace (a + PGSIZE * (npages va size - 1) - a) with ((npages va size - 1) * PGSIZE) by lia.
    rewrite Z.div_mul by done. lia.
  - intros va' Hva' Hrange. rewrite Hdiv in Hrange. apply Hun; [done|]. clear -Hrange. lia.
  - clear -Hpa. unfold PGSIZE in *. lia.
  - exists r, s', G', l', c. rewrite Z2Nat.id in Hr by (clear -Hn; lia).
    split; [done|]. split; [done|]. split.
    + clear -Hr Hn. destruct Hr as [[-> ->]|(-> & ? & ->)]; [left|right]; repeat split; lia || done.
    + intros va' Hva'. rewrite Hmap by done. unfold map_range. by rewrite Hdiv.
Qed.

(** What [walkaddr] returns for [va]. *)
Definition user_page (m : mem) (G : tree) (va : Z) : Z :=
  if va <? MAXVA then pte_user_pa (mapping m G va) else 0.

Lemma pte_user_pa_of pa perm :
  pa_ok pa → 0 ≤ perm < 2 ^ 10 →
  pte_user_pa (pte_of pa perm) = if has perm PTE_U then pa else 0.
Proof.
  intros Hpa Hp. unfold pte_user_pa. rewrite pte_of_V, pte_of_U, pte_of_PA by done. done.
Qed.

Lemma uvmunmap_ok root s G l (do_free : bool) va (c : nat) :
  pt_ready s root G l → 0 ≤ va → va mod PGSIZE = 0 → va + PGSIZE * Z.of_nat c ≤ MAXVA →
  (∀ i, (i < c)%nat → unmappable do_free G l (mapping s.(k_mem) G (va + PGSIZE * Z.of_nat i))) →
  (do_free = true → NoDup (freed_pages (mapping s.(k_mem) G) va c)) →
  ∃ s', uvmunmap root va (Z.of_nat c) do_free s = Done tt s' ∧
    pt_ready s' root G
      (if do_free then rev (freed_pages (mapping s.(k_mem) G) va c) ++ l else l) ∧
    kframe s s' ∧
    (∀ va', 0 ≤ va' < MAXVA →
      mapping s'.(k_mem) G va' = unmap_range (mapping s.(k_mem) G) va (Z.of_nat c) va') ∧
    (∀ x, outside G x → (do_free = true → Forall (λ pa, off_page pa x) (freed_pages (mapping s.(k_mem) G) va c)) →
      byte_at s'.(k_mem) x = byte_at s.(k_mem) x).
Proof.
  intros Hpt Hva Hal Hmax Hun Hnd. unfold uvmunmap. rewrite Hal, Nat2Z.id. simpl negb.
  pose proof MAXVA_eq as Hm.
  rewrite (u64_id (Z.of_nat c * PGSIZE)), u64_id by (unfold PGSIZE in *; lia).
  replace (Z.of_nat c * PGSIZE) with (PGSIZE * Z.of_nat c) by lia.
  apply uvmunmap_loop; auto.
Qed.

(** C15: [mappages] installs translations.  On a page table whose pages in
    [va .. va+size-1] are unmapped, [mappages] returns 0 or, only when the free
    list is exhausted, -1; nothing but memory, the free list and the
    recorded interrupt state changes, memory outside page-table pages is
    untouched, and after success [walkaddr] yields the consecutive physical
    pages for the range (if [perm] has [PTE_U]) and its old answer elsewhere. *)
Theorem mappages_translates root s G l va size pa perm :
  pt_ready s root G l → 0 ≤ va → 0 < size → va + size ≤ MAXVA →
  (∀ va', 0 ≤ va' < MAXVA → va / PGSIZE ≤ va' / PGSIZE < va / PGSIZE + npages va size →
    has (mapping s.(k_mem) G va') PTE_V = false) →
  pa mod PGSIZE = 0 → 0 ≤ pa → pa + PGSIZE * npages va size ≤ 2 ^ 56 → 0 ≤ perm < 2 ^ 10 →
  ∃ r s' G' l', mappages root va size pa perm s = Done r s' ∧
    pt_ready s' root G' l' ∧ kframe s s' ∧ l' `suffix_of` l ∧
    (∀ a, outside G' a → byte_at s'.(k_mem) a = byte_at s.(k_mem) a) ∧
    (r = -1 ∧ l' = [] ∨
     r = 0 ∧ ∀ va', 0 ≤ va' < MAXVA →
       walkaddr root va' s' = Done
         (if decide (va / PGSIZE ≤ va' / PGSIZE < va / PGSIZE + npages va size)
          then if has perm PTE_U then pa + PGSIZE * (va' / PGSIZE - va / PGSIZE) else 0
          else user_page s.(k_mem) G va') s').
Proof.
  intros Hpt Hva Hsz Hmax Hun Hpal Hpa0 Hpa Hperm.
  destruct (mappages_ok root s G l va size pa perm) as (r & s' & G' & l' & c & E & Hg & Hr & Hmap);
    [done..|].
  destruct Hg as [Hpt' Hf _ _ Hsuf _ Hmem]. exists r, s', G', l'. repeat (split; [done|]).
  destruct Hr as [[-> ->]|(-> & _ & ->)]; [right|by left]. split; [done|]. intros va' Hva'.
  rewrite (walkaddr_ok s' root G' l') by (apply Hpt' || lia).
  unfold user_page. rewrite (proj2 (Z.ltb_lt _ _)) by lia. rewrite Hmap by done.
  unfold map_range. destruct (decide (va / PGSIZE ≤ va' / PGSIZE < _)) as [Hd|Hd]; [|done].
  rewrite pte_user_pa_of; [done| |done].
  revert Hd Hpal Hpa0 Hpa. generalize (npages va size), (va' / PGSIZE), (va / PGSIZE). clear.
  unfold pa_ok, PGSIZE. intros. lia.
Qed.

(** C30: [uvmunmap] removes exactly the requested pages.  When every page of the
    range is a mapped leaf, the call succeeds, [walkaddr] fails on every address
    of the range afterwards and is unchanged elsewhere, and with [do_free] the
    physical pages are exactly those added to the free list. *)
Theorem uvmunmap_spec root s G l (do_free : bool) va (c : nat) :
  pt_ready s root G l → 0 ≤ va → va mod PGSIZE = 0 → va + PGSIZE * Z.of_nat c ≤ MAXVA →
  (∀ i, (i < c)%nat → unmappable do_free G l (mapping s.(k_mem) G (va + PGSIZE * Z.of_nat i))) →
  (do_free = true → NoDup (freed_pages (mapping s.(k_mem) G) va c)) →
  ∃ s', uvmunmap root va (Z.of_nat c) do_free s = Done tt s' ∧
    pt_ready s' root G
      (if do_free then rev (freed_pages (mapping s.(k_mem) G) va c) ++ l else l) ∧
    kframe s s' ∧
    (∀ va', 0 ≤ va' < MAXVA →
      walkaddr root va' s' = Done
        (if decide (va / PGSIZE ≤ va' / PGSIZE < va / PGSIZE + Z.of_nat c) then 0
         else user_page s.(k_mem) G va') s').
Proof.
  intros Hpt Hva Hal Hmax Hun Hnd.
  destruct (uvmunmap_ok root s G l do_free va c) as (s' & E & Hpt' & Hf & Hmap & _); [done..|].
  exists s'. repeat (split; [done|]). intros va' Hva'.
  rewrite (walkaddr_ok s' root G _ va' (proj2 Hpt')) by lia.
  unfold user_page. rewrite (proj2 (Z.ltb_lt _ _)) by lia. rewrite Hmap by done.
  unfold unmap_range. by case_decide.
Qed.

End PageTables.

(** ** Witnesses: an empty page table, and one that maps a user page *)

Definition demo_root : Z := 0x80103000.
Definition demo_page : Z := 0x80104000.
Definition demo_perm : Z := Z.lor PTE_R (Z.lor PTE_W PTE_U).

Lemma demo_ready :
  pt_ready (HK:=image0) kstate_two demo_root {[ [] := demo_root ]} two_pages.
Proof.
  split; [exact kstate_two_ready|]. split.
  - apply lookup_singleton_eq.
  - intros n p (<- & <-)%lookup_singleton_Some. split; [by vm_compute|].
    apply (bool_decide_unpack _). by vm_compute.
  - intros n n' p (<- & _)%lookup_singleton_Some (<- & _)%lookup_singleton_Some. done.
  - intros n i q (H & _)%lookup_singleton_Some. by destruct n.
  - intros n p i (<- & <-)%lookup_singleton_Some _ Hi.
    rewrite lookup_singleton_ne by done.
    change (k_mem kstate_two) with (store64 0x80100000 0x80101000 ∅).
    rewrite load_store_disjoint by (unfold demo_root; lia).
    by rewrite load_empty.
Qed.

Lemma demo_va : 0 ≤ 5 < MAXVA.
Proof. done. Qed.

Lemma demo_in_range : 0 / PGSIZE ≤ 5 / PGSIZE < 0 / PGSIZE + Z.of_nat 1.
Proof. done. Qed.

Lemma demo_mapping va : mapping kstate_two.(k_mem) {[ [] := demo_root ]} va = 0.
Proof. unfold mapping, leaf. by rewrite lookup_singleton_ne. Qed.

(** A page table that maps [demo_page] at virtual address 0. *)
Definition demo_l1 : Z := 0x80105000.
Definition demo_l0 : Z := 0x80106000.

Definition demo_tree : tree := <[ [] := demo_root ]> (<[ [0] := demo_l1 ]> {[ [0; 0] := demo_l0 ]}).

Definition demo_mem : mem :=
  store64 demo_root (Z.lor (PA2PTE demo_l1) PTE_V)
    (store64 demo_l1 (Z.lor (PA2PTE demo_l0) PTE_V)
      (store64 demo_l0 (pte_of demo_page demo_perm) kstate_two.(k_mem))).

Definition kstate_user : kstate := set_k_mem demo_mem kstate_two.

Lemma demo_tree_Some n p :
  demo_tree !! n = Some p → n = [] ∧ p = demo_root ∨ n = [0] ∧ p = demo_l1 ∨ n = [0; 0] ∧ p = demo_l0.
Proof.
  unfold demo_tree. rewrite !lookup_insert_Some, lookup_singleton_Some.
  intros [[<- <-]|[_ [[<- <-]|[_ [<- <-]]]]]; auto.
Qed.

Lemma demo_load p i :
  p = demo_root ∨ p = demo_l1 ∨ p = demo_l0 → 0 < i < 512 → load64 demo_mem (p + 8 * i) = 0.
Proof.
  intros Hp Hi. unfold demo_mem. change (k_mem kstate_two) with (store64 0x80100000 0x80101000 ∅).
  rewrite !load_store_disjoint; [apply load_empty|..];
    destruct Hp as [->|[->| ->]]; unfold demo_root, demo_l1, demo_l0; lia.
Qed.

Lemma demo_entries :
  load64 demo_mem demo_root = Z.lor (PA2PTE demo_l1) PTE_V ∧
  load64 demo_mem demo_l1 = Z.lor (PA2PTE demo_l0) PTE_V ∧
  load64 demo_mem demo_l0 = pte_of demo_page demo_perm.
Proof.
  unfold demo_mem. split; [|split].
  - rewrite load_store_same. by vm_compute.
  - rewrite load_store_disjoint by (unfold demo_root, demo_l1; lia). rewrite load_store_same. by vm_compute.
  - rewrite !load_store_disjoint by (unfold demo_root, demo_l1, demo_l0; lia).
    rewrite load_store_same. by vm_compute.
Qed.

Lemma demo_tree_None n i : n = [] ∨ n = [0] → i ≠ 0 → demo_tree !! (n ++ [i]) = None.
Proof.
  intros Hn Hi. destruct (demo_tree !! _) as [q|] eqn:E; [|done].
  apply demo_tree_Some in E. destruct Hn as [->| ->]; simpl in E;
    destruct E as [[E _]|[[E _]|[E _]]]; congruence.
Qed.

Lemma demo_user_inv : @pt_inv image0 demo_mem demo_root demo_tree two_pages.
Proof.
  destruct demo_entries as (Er & E1 & E0). split.
  - by vm_compute.
  - intros n p [[_ ->]|[[_ ->]|[_ ->]]]%demo_tree_Some; (split; [by vm_compute|]);
      apply (bool_decide_unpack _); by vm_compute.
  - intros n n' p [[-> ->]|[[-> ->]|[-> ->]]]%demo_tree_Some [[-> E]|[[-> E]|[-> E]]]%demo_tree_Some;
      done.
  - intros n i q [[E _]|[[E _]|[E _]]]%demo_tree_Some.
    + by destruct n.
    + destruct n as [|x n]; [by exists demo_root|]. apply (f_equal length) in E.
      rewrite length_app in E. simpl in E. lia.
    + destruct n as [|x [|y n]]; [done| |].
      * injection E as -> _. by exists demo_l1.
      * apply (f_equal length) in E. rewrite length_app in E. simpl in E. lia.
  - intros n p i Hn Hlen Hi. apply demo_tree_Some in Hn as [[-> ->]|[[-> ->]|[-> ->]]]; [..|simpl in Hlen; lia];
      (destruct (decide (i = 0)) as [->|Hne]; [by rewrite Z.add_0_r|]);
      rewrite demo_tree_None, demo_load by (auto || lia); done.
Qed.

Lemma kstate_user_ok :
  pt_ready (HK:=image0) kstate_user demo_root demo_tree two_pages ∧
  (∀ n, demo_tree !! n ≠ Some demo_page) ∧ (demo_page ∉ two_pages) ∧
  ∀ va, 0 ≤ va < MAXVA → mapping kstate_user.(k_mem) demo_tree va =
    if decide (va / PGSIZE = 0) then pte_of demo_page demo_perm else 0.
Proof.
  split; [split|split; [|split]].
  - destruct kstate_two_ready as (Hwf & Hu & [Hc Hnd Hp]). split; [exact Hwf|]. split; [exact Hu|].
    split; [|exact Hnd|exact Hp]. by vm_compute.
  - exact demo_user_inv.
  - intros n [[_ E]|[[_ E]|[_ E]]]%demo_tree_Some; discriminate.
  - apply (bool_decide_unpack _). by vm_compute.
  - intros va Hva. change (k_mem kstate_user) with demo_mem. unfold mapping, leaf.
    pose proof MAXVA_eq as Hm. pose proof (PX_range 0 va). pose proof demo_entries as (_ & _ & E0).
    destruct (decide (va / PGSIZE = 0)) as [E|E].
    + assert (Hpx : ∀ lv, 0 ≤ lv → PX lv va = 0).
      { intros lv Hlv. rewrite PX_eq, Z.pow_add_r, <-Z.div_div by lia.
        change (2 ^ 12) with PGSIZE. by rewrite E, Z.div_0_l by lia. }
      rewrite !Hpx by lia. change (demo_tree !! [0; 0]) with (Some demo_l0). simpl.
      by rewrite Z.add_0_r.
    + destruct (demo_tree !! [PX 2 va; PX 1 va]) as [p|] eqn:Ep; simpl; [|done].
      apply demo_tree_Some in Ep as [[? _]|[[? _]|[[= E2 E1] ->]]]; [done..|].
      apply demo_load; [auto|]. destruct (decide (PX 0 va = 0)) as [E3|]; [|lia].
      exfalso. apply E. change 0 with (0 / PGSIZE). apply PX_inj; [done|lia|..].
      * by rewrite E2.
      * by rewrite E1.
      * by rewrite E3.
Qed.

Lemma mappages_translates_witness :
  ∃ r s' G' l', mappages demo_root 0 PGSIZE demo_page demo_perm kstate_two = Done r s' ∧
    pt_ready (HK:=image0) s' demo_root G' l' ∧
    (r = -1 ∧ l' = [] ∨ r = 0 ∧ walkaddr demo_root 5 s' = Done demo_page s').
Proof.
  destruct (mappages_translates (HK:=image0) demo_root kstate_two {[ [] := demo_root ]} two_pages
    0 PGSIZE demo_page demo_perm demo_ready) as (r & s' & G' & l' & E & Hpt & _ & _ & _ & Hr);
    [done..| |done|done|done|done|].
  - intros va' _ _. by rewrite demo_mapping.
  - exists r, s', G', l'. split; [exact E|]. split; [exact Hpt|].
    destruct Hr as [Hr|[-> Hw]]; [left; exact Hr|right]. split; [reflexivity|].
    rewrite (Hw 5 demo_va). rewrite (decide_True (P:=_ ≤ _ < _)) by exact demo_in_range. reflexivity.
Defined.

Lemma uvmunmap_spec_witness :
  ∃ s' G l, uvmunmap (HK:=image0) demo_root 0 1 true kstate_user = Done tt s' ∧
    pt_ready (HK:=image0) s' demo_root G (demo_page :: l) ∧
    walkaddr demo_root 5 s' = Done 0 s'.
Proof.
  destruct kstate_user_ok as (Hpt & HG & Hl & Hmap). set (G := demo_tree) in *. set (l := two_pages) in *.
  assert (Hm0 : mapping kstate_user.(k_mem) G 0 = pte_of demo_page demo_perm)
    by (by rewrite Hmap).
  assert (Hpa : PTE2PA (pte_of demo_page demo_perm) = demo_page) by by vm_compute.
  destruct (uvmunmap_spec (HK:=image0) demo_root kstate_user G l true 0 1 Hpt)
    as (s' & E & Hpt' & _ & Hw); [done..| | |].
  - intros i Hi. assert (i = 0%nat) as -> by lia. change (0 + PGSIZE * Z.of_nat 0) with 0.
    rewrite Hm0. split; [by vm_compute|]. split; [by vm_compute|]. intros _. rewrite Hpa.
    split; [by vm_compute|]. done.
  - intros _. apply NoDup_singleton.
  - exists s', G, l. split; [exact E|]. split.
    + unfold freed_pages in Hpt'. cbn [seq fmap list_fmap rev app] in Hpt'.
      change (0 + PGSIZE * Z.of_nat 0) with 0 in Hpt'. by rewrite Hm0, Hpa in Hpt'.
    + rewrite (Hw 5 demo_va). rewrite (decide_True (P:=_ ≤ _ < _)) by exact demo_in_range. reflexivity.
Defined.
