(* ===== verification/UserMem.v ===== *)
(** * User memory ([copyin], [copyout], [copyinstr] of [kernel/vm.c])

    What a process sees at a virtual address is the byte at the physical
    address its page table gives.  The copy loops, which work page by page,
    are related to that byte-by-byte view. *)

From S2P Require Import Prelude State Spinlock Cstring Riscv Kalloc Vm VmFacts.

Section UserMemory.
Context {HK : KernelImage} {HKok : KernelImageOk}.
Implicit Types (s : kstate) (m : mem) (l : list Z) (G : tree) (n : nat).

(** ** Translation of user addresses *)

(** The physical address of a user virtual address, if it has one. *)
Definition upa (m : mem) (G : tree) (va : Z) : option Z :=
  let pa := if va <? MAXVA then pte_user_pa (mapping m G va) else 0 in
  if pa =? 0 then None else Some (pa + va mod PGSIZE).

Lemma mapping_page m G va va' :
  0 ≤ va → 0 ≤ va' → va / PGSIZE = va' / PGSIZE → mapping m G va = mapping m G va'.
Proof. intros. unfold mapping. by rewrite (leaf_page G va va'). Qed.

(** The bytes of [n] user addresses, when they are all mapped. *)
Definition user_bytes (m : mem) (G : tree) (va : Z) (n : nat) : option (list Z) :=
  mapM (λ i, byte_at m <$> upa m G (va + Z.of_nat i)) (seq 0 n).

Lemma MAXVA_mod va : 0 ≤ va → (va <? MAXVA) = (PGROUNDDOWN va <? MAXVA).
Proof.
  intros H. pose proof (PGROUNDDOWN_bounds va) as [Hb Hm]. rewrite MAXVA_eq.
  unfold PGSIZE in *. destruct (Z.ltb_spec va (2 ^ 38)), (Z.ltb_spec (PGROUNDDOWN va) (2 ^ 38)); lia.
Qed.

(** Within the page of [va], translation adds an offset. *)
Lemma upa_in_page m G va j :
  0 ≤ va → 0 ≤ j < PGSIZE - (va - PGROUNDDOWN va) →
  upa m G (va + j) =
    let pa := if PGROUNDDOWN va <? MAXVA then pte_user_pa (mapping m G (PGROUNDDOWN va)) else 0 in
    if pa =? 0 then None else Some (pa + (va - PGROUNDDOWN va) + j).
Proof.
  intros Hva Hj. unfold upa. pose proof (PGROUNDDOWN_bounds va) as [Hb Hm].
  rewrite (MAXVA_mod (va + j)) by lia.
  assert (PGROUNDDOWN (va + j) = PGROUNDDOWN va) as ->.
  { rewrite !PGROUNDDOWN_eq in *. unfold PGSIZE in *. lia. }
  rewrite (mapping_page m G (va + j) (PGROUNDDOWN va)).
  - simpl. destruct (_ =? 0); [done|]. f_equal. rewrite PGROUNDDOWN_eq in *. unfold PGSIZE in *. lia.
  - lia.
  - rewrite PGROUNDDOWN_eq. unfold PGSIZE. lia.
  - rewrite PGROUNDDOWN_eq in *. unfold PGSIZE in *. lia.
Qed.

Lemma user_bytes_page_None m G va (n : nat) :
  0 ≤ va → (0 < n)%nat → upa m G va = None → user_bytes m G va n = None.
Proof.
  intros Hva Hn Hu. unfold user_bytes. destruct n as [|n]; [lia|]. simpl.
  by rewrite Z.add_0_r, Hu.
Qed.

Lemma user_bytes_app m G va (n k : nat) :
  user_bytes m G va (n + k)%nat =
    b ← user_bytes m G va n; c ← user_bytes m G (va + Z.of_nat n) k; Some (b ++ c).
Proof.
  unfold user_bytes. rewrite seq_app, mapM_app_option. simpl.
  assert (mapM (λ i, byte_at m <$> upa m G (va + Z.of_nat i)) (seq n k)
    = mapM (λ i, byte_at m <$> upa m G (va + Z.of_nat n + Z.of_nat i)) (seq 0 k)) as ->; [|done].
  rewrite <-(Nat.add_0_r n) at 1. generalize 0%nat. induction k as [|k IH]; intros i; simpl; [done|].
  rewrite <-Nat.add_succ_r, IH.
  by replace (va + Z.of_nat (n + i)) with (va + Z.of_nat n + Z.of_nat i) by lia.
Qed.

Lemma user_bytes_length m G va (n : nat) bs : user_bytes m G va n = Some bs → length bs = n.
Proof. intros H%length_mapM. by rewrite length_seq in H. Qed.

Lemma user_bytes_split m G va bs (k : nat) :
  user_bytes m G va (length bs) = Some bs → (k ≤ length bs)%nat →
  user_bytes m G va k = Some (take k bs) ∧ user_bytes m G (va + Z.of_nat k) (length bs - k) = Some (drop k bs).
Proof.
  intros H Hk. replace (length bs) with (k + (length bs - k))%nat in H at 1 by lia. rewrite user_bytes_app in H.
  destruct (user_bytes m G va k) as [q|] eqn:E1; [|done]. destruct (user_bytes m G (va + Z.of_nat k) _) as [q'|]; [|done].
  apply user_bytes_length in E1. cbn in H. injection H as <-. by rewrite take_app_length', drop_app_length'.
Qed.

Lemma user_bytes_in_page m G va (n : nat) pa :
  0 ≤ va → Z.of_nat n ≤ PGSIZE - (va - PGROUNDDOWN va) →
  (if PGROUNDDOWN va <? MAXVA then pte_user_pa (mapping m G (PGROUNDDOWN va)) else 0) = pa →
  pa ≠ 0 → user_bytes m G va n = Some (bytes_at m (pa + (va - PGROUNDDOWN va)) n).
Proof.
  intros Hva Hn Hpa Hne. unfold user_bytes, bytes_at. apply mapM_Some_2.
  apply Forall2_fmap_r, Forall_Forall2_diag, Forall_forall. intros j Hj%elem_of_seq.
  rewrite upa_in_page by lia. rewrite Hpa. simpl. by rewrite (proj2 (Z.eqb_neq _ _) Hne).
Qed.

(** What [walkaddr] answers for the page of [va], and how many bytes of a
    request for [len] fit in that page. *)
Definition upage (m : mem) (G : tree) (va : Z) : Z :=
  if PGROUNDDOWN va <? MAXVA then pte_user_pa (mapping m G (PGROUNDDOWN va)) else 0.

Definition chunk (va len : Z) : Z :=
  let n := PGSIZE - (va - PGROUNDDOWN va) in if len <? n then len else n.

Lemma chunk_bounds va len :
  0 ≤ va → 0 < len →
  0 < chunk va len ≤ len ∧ chunk va len ≤ PGSIZE - (va - PGROUNDDOWN va) ∧
  (chunk va len = len ∨ chunk va len < len ∧ va + chunk va len = PGROUNDDOWN va + PGSIZE).
Proof.
  intros. pose proof (PGROUNDDOWN_bounds va) as [Hb _]. unfold chunk.
  destruct (Z.ltb_spec len (PGSIZE - (va - PGROUNDDOWN va))); lia.
Qed.

Lemma user_bytes_unmapped m G va len :
  0 ≤ va → 0 < len → upage m G va = 0 → user_bytes m G va (Z.to_nat len) = None.
Proof.
  intros Hva Hlen H0. pose proof (PGROUNDDOWN_bounds va) as [Hb _].
  apply user_bytes_page_None; [done|lia|]. rewrite <-(Z.add_0_r va).
  rewrite upa_in_page by (unfold PGSIZE in *; lia). fold (upage m G va). by rewrite H0.
Qed.

Lemma user_bytes_chunk m G va len :
  0 ≤ va → 0 < len → upage m G va ≠ 0 →
  user_bytes m G va (Z.to_nat len) =
    c ← user_bytes m G (va + chunk va len) (Z.to_nat (len - chunk va len));
    Some (bytes_at m (upage m G va + (va - PGROUNDDOWN va)) (Z.to_nat (chunk va len)) ++ c).
Proof.
  intros Hva Hlen H0. destruct (chunk_bounds va len Hva Hlen) as (Hc & Hp & _).
  replace (Z.to_nat len) with (Z.to_nat (chunk va len) + Z.to_nat (len - chunk va len))%nat by lia.
  rewrite user_bytes_app, (user_bytes_in_page m G va _ (upage m G va)) by (done || lia).
  simpl. by rewrite Z2Nat.id by lia.
Qed.

Lemma copyin_body_ok s root G l dst va len :
  pt_inv s.(k_mem) root G l → 0 ≤ va → 0 < len →
  copyin_body root (dst, va, len) s =
    Done (if upage s.(k_mem) G va =? 0 then inr (-1, dst)
          else inl (dst ++ bytes_at s.(k_mem) (upage s.(k_mem) G va + (va - PGROUNDDOWN va))
                             (Z.to_nat (chunk va len)),
                    u64 (PGROUNDDOWN va + PGSIZE), len - chunk va len)) s.
Proof.
  intros Hpt Hva Hlen. unfold copyin_body. rewrite (proj2 (Z.ltb_lt _ _) Hlen). mred.
  rewrite (walkaddr_ok s root G l) by (done || (rewrite PGROUNDDOWN_eq; unfold PGSIZE; lia)).
  cbn [obind]. fold (upage (k_mem s) G va). destruct (upage (k_mem s) G va =? 0); by mred.
Qed.

(** [copyin] from any address of a process: it returns exactly the bytes the
    user sees there, or -1 when some byte of the range is not mapped for the
    user. *)
Lemma copyin_loop fuel s root G l dst va len :
  pt_inv s.(k_mem) root G l → 0 ≤ va → va + len + PGSIZE < 2 ^ 64 → 0 ≤ len →
  (va - PGROUNDDOWN va + len + PGSIZE - 1) / PGSIZE < Z.of_nat fuel →
  ∃ r, loop fuel (copyin_body root) (dst, va, len) s = Done r s ∧
    match user_bytes s.(k_mem) G va (Z.to_nat len) with
    | Some bs => r = (0, dst ++ bs)
    | None => r.1 = -1
    end.
Proof.
  intros Hpt. revert dst va len.
  induction fuel as [|fuel IH]; intros dst va len Hva Hmax Hlen Hf;
    pose proof (PGROUNDDOWN_bounds va) as [Hb Hal].
  { exfalso. unfold PGSIZE in *. lia. }
  cbn [loop]. destruct (decide (len = 0)) as [->|Hne].
  { exists (0, dst). unfold copyin_body at 1. mred. simpl. by rewrite app_nil_r. }
  mred. rewrite (copyin_body_ok s root G l) by (done || lia). cbn [obind].
  destruct (Z.eqb_spec (upage (k_mem s) G va) 0) as [H0|H0].
  { rewrite user_bytes_unmapped by (done || lia). mred. eauto. }
  rewrite user_bytes_chunk by (done || lia).
  destruct (chunk_bounds va len) as (Hc & Hp & [Heq|[Hlt Hnext]]); [lia..| |].
  - rewrite Heq, Z.sub_diag. destruct fuel as [|fuel]; [exfalso; unfold PGSIZE in *; lia|].
    cbn [loop]. unfold copyin_body at 1. mred. simpl. rewrite app_nil_r. eauto.
  - rewrite Hnext. unfold u64. rewrite Z.mod_small by lia.
    edestruct (IH (dst ++ bytes_at (k_mem s) (upage (k_mem s) G va + (va - PGROUNDDOWN va))
      (Z.to_nat (chunk va len))) (PGROUNDDOWN va + PGSIZE) (len - chunk va len))
      as (r & Hr & Hspec); [lia..| |].
    { rewrite (PGROUNDDOWN_id (PGROUNDDOWN va + PGSIZE)) by (unfold PGSIZE in *; lia).
      unfold PGSIZE in *. lia. }
    exists r. split; [exact Hr|]. destruct (user_bytes _ _ _ _); simpl; [|done].
    by rewrite Hspec, app_assoc.
Qed.

(** ** [copyout] *)

(** A page of the process: not a page-table page and not free. *)
Definition private_page (G : tree) (l : list Z) (pa : Z) : Prop :=
  page_ok pa = true ∧ (pa ∉ l) ∧ ∀ nd, G !! nd ≠ Some pa.

(** The mapped pages of a range are private, and no physical byte is mapped
    twice in it. *)
Definition user_range (m : mem) (G : tree) (l : list Z) (va len : Z) : Prop :=
  (∀ i, 0 ≤ i < len → upage m G (va + i) ≠ 0 → private_page G l (upage m G (va + i))) ∧
  (∀ i j a, 0 ≤ i < len → 0 ≤ j < len →
    upa m G (va + i) = Some a → upa m G (va + j) = Some a → i = j).

Lemma upa_upage m G va :
  0 ≤ va → upa m G va =
    if upage m G va =? 0 then None else Some (upage m G va + (va - PGROUNDDOWN va)).
Proof.
  intros Hva. pose proof (PGROUNDDOWN_bounds va) as [Hb _].
  rewrite <-(Z.add_0_r va) at 1. rewrite upa_in_page by (unfold PGSIZE in *; lia).
  cbv zeta. rewrite Z.add_0_r. done.
Qed.

Lemma upa_same_map m m' G va :
  0 ≤ va → (∀ va, 0 ≤ va → mapping m' G va = mapping m G va) → upa m' G va = upa m G va.
Proof. intros Hva H. unfold upa. by rewrite H. Qed.

Lemma upage_same_map m m' G va :
  0 ≤ va → (∀ va, 0 ≤ va → mapping m' G va = mapping m G va) → upage m' G va = upage m G va.
Proof.
  intros Hva H. unfold upage. rewrite H; [done|]. rewrite PGROUNDDOWN_eq. unfold PGSIZE. lia.
Qed.

Lemma user_range_rest m m' G l va len c :
  0 ≤ va → 0 ≤ c ≤ len → (∀ va, 0 ≤ va → mapping m' G va = mapping m G va) →
  user_range m G l va len → user_range m' G l (va + c) (len - c).
Proof.
  intros Hva Hc Hmap [Hp Hi]. split.
  - intros i Hi'. rewrite <-Z.add_assoc, (upage_same_map m) by (done || lia). apply Hp. lia.
  - intros i j a Hi' Hj'. rewrite <-!Z.add_assoc, !(upa_same_map m m') by (done || lia).
    intros H1 H2. cut (c + i = c + j); [lia|]. apply (Hi _ _ a); [lia..|done|done].
Qed.

Lemma copyout_body_ok s root G l va src len :
  pt_ready s root G l → 0 ≤ va → 0 < len →
  copyout_body root (va, src, len) s =
    if upage s.(k_mem) G va =? 0 then Done (inr (-1)) s
    else Done (inl (u64 (PGROUNDDOWN va + PGSIZE), drop (Z.to_nat (chunk va len)) src,
                    len - chunk va len))
           (set_k_mem (write_bytes (upage s.(k_mem) G va + (va - PGROUNDDOWN va))
              (take (Z.to_nat (chunk va len)) src) s.(k_mem)) s).
Proof.
  intros Hpt Hva Hlen. unfold copyout_body. rewrite (proj2 (Z.ltb_lt _ _) Hlen). mred.
  rewrite (walkaddr_ok s root G l) by (apply Hpt || (rewrite PGROUNDDOWN_eq; unfold PGSIZE; lia)).
  cbn [obind]. fold (upage (k_mem s) G va). destruct (upage (k_mem s) G va =? 0); by mred.
Qed.

(** One chunk of [copyout] written to a private page. *)
Lemma copyout_chunk s root G l va src len :
  pt_ready s root G l → 0 ≤ va → 0 < len → length src = Z.to_nat len →
  upage s.(k_mem) G va ≠ 0 → private_page G l (upage s.(k_mem) G va) →
  let m' := write_bytes (upage s.(k_mem) G va + (va - PGROUNDDOWN va))
              (take (Z.to_nat (chunk va len)) src) s.(k_mem) in
  pt_ready (set_k_mem m' s) root G l ∧
  (∀ va, 0 ≤ va → mapping m' G va = mapping s.(k_mem) G va) ∧
  (∀ i a, 0 ≤ i < chunk va len → upa s.(k_mem) G (va + i) = Some a →
    byte_at m' a = default 0 (src !! Z.to_nat i)) ∧
  (∀ a, (∀ i, 0 ≤ i < chunk va len → upa s.(k_mem) G (va + i) ≠ Some a) →
    byte_at m' a = byte_at s.(k_mem) a).
Proof.
  intros Hpt Hva Hlen Hsrc H0 (Hok & Hl & HG) m'.
  destruct (chunk_bounds va len Hva Hlen) as (Hc & Hp & _).
  pose proof (PGROUNDDOWN_bounds va) as [Hb _].
  assert (Hlen' : length (take (Z.to_nat (chunk va len)) src) = Z.to_nat (chunk va len))
    by (rewrite length_take; lia).
  assert (Hm : same_except_page (upage s.(k_mem) G va) s.(k_mem) m').
  { intros a Ha. unfold m'. rewrite byte_at_write_bytes, decide_False by lia. done. }
  assert (Hu : ∀ i, 0 ≤ i < chunk va len →
    upa s.(k_mem) G (va + i) = Some (upage s.(k_mem) G va + (va - PGROUNDDOWN va) + i)).
  { intros i Hi. rewrite upa_in_page by lia. cbv zeta. fold (upage s.(k_mem) G va).
    by rewrite (proj2 (Z.eqb_neq _ _) H0). }
  split; [by eapply pt_ready_set_mem|]. split; [|split].
  - destruct Hpt as [_ Hpt]. by eapply pt_inv_frame.
  - intros i a Hi. rewrite Hu by done. intros [= <-]. unfold m'.
    rewrite byte_at_write_bytes, decide_True by lia.
    rewrite lookup_take_lt by lia. do 2 f_equal. lia.
  - intros a Ha. unfold m'. rewrite byte_at_write_bytes. case_decide; [|done].
    destruct (Ha (a - (upage (k_mem s) G va + (va - PGROUNDDOWN va)))); [lia|].
    rewrite Hu by lia. f_equal. lia.
Qed.

(** What [copyout] of [src] at [va] does to memory: the map is unchanged, no
    byte outside the range changes, and either the whole range holds [src] or
    some byte of it is not mapped. *)
Record copied_out (r : Z) (m m' : mem) (G : tree) (va len : Z) (src : list Z) : Prop := {
  co_map va : 0 ≤ va → mapping m' G va = mapping m G va;
  co_frame a : (∀ i, 0 ≤ i < len → upa m G (va + i) ≠ Some a) → byte_at m' a = byte_at m a;
  co_result :
    r = 0 ∧ (∀ i, 0 ≤ i < len →
      ∃ a, upa m G (va + i) = Some a ∧ byte_at m' a = default 0 (src !! Z.to_nat i)) ∨
    r = -1 ∧ ∃ i, 0 ≤ i < len ∧ upa m G (va + i) = None
}.

(** A chunk followed by the rest. *)
Lemma copied_out_step r m m1 m' G l va len c src :
  0 ≤ va → 0 < c ≤ len → user_range m G l va len →
  (∀ va, 0 ≤ va → mapping m1 G va = mapping m G va) →
  (∀ i, 0 ≤ i < c → is_Some (upa m G (va + i))) →
  (∀ i a, 0 ≤ i < c → upa m G (va + i) = Some a → byte_at m1 a = default 0 (src !! Z.to_nat i)) →
  (∀ a, (∀ i, 0 ≤ i < c → upa m G (va + i) ≠ Some a) → byte_at m1 a = byte_at m a) →
  copied_out r m1 m' G (va + c) (len - c) (drop (Z.to_nat c) src) →
  copied_out r m m' G va len src.
Proof.
  intros Hva Hc [_ Hinj] Hmap Hmapped Hnew Hold [Hm Hf Hr].
  assert (Hupa : ∀ i, 0 ≤ i → upa m1 G (va + c + i) = upa m G (va + (c + i))).
  { intros i Hi. rewrite <-Z.add_assoc. apply upa_same_map; [lia|done]. }
  split.
  - intros va' Hva'. by rewrite Hm, Hmap.
  - intros a Ha. rewrite Hf; [apply Hold; intros i Hi; apply Ha; lia|].
    intros i Hi. rewrite Hupa by lia. apply Ha. lia.
  - destruct Hr as [[-> Hr]|(-> & i & Hi & Hu)]; [left|right].
    + split; [done|]. intros i Hi. destruct (decide (i < c)) as [Hlt|Hge].
      * destruct (Hmapped i) as [a Ha]; [lia|]. exists a. split; [done|].
        rewrite Hf; [by apply Hnew; [lia|]|]. intros j Hj. rewrite Hupa by lia.
        intros Hj'. cut (i = c + j); [lia|]. apply (Hinj _ _ a); [lia..|done|done].
      * destruct (Hr (i - c)) as (a & Ha & Hb); [lia|]. rewrite Hupa in Ha by lia.
        replace (c + (i - c)) with i in Ha by lia. exists a. split; [done|].
        rewrite Hb, lookup_drop. do 2 f_equal. lia.
    + split; [done|]. exists (c + i). rewrite <-Hupa by lia. split; [lia|done].
Qed.

Lemma copied_out_nil m G va src : copied_out 0 m m G va 0 src.
Proof. split; [done..|]. left. split; [done|]. lia. Qed.

Lemma copyout_loop fuel s root G l va src len :
  pt_ready s root G l → 0 ≤ va → va + len + PGSIZE < 2 ^ 64 → 0 ≤ len →
  length src = Z.to_nat len → user_range s.(k_mem) G l va len →
  (va - PGROUNDDOWN va + len + PGSIZE - 1) / PGSIZE < Z.of_nat fuel →
  ∃ r m', loop fuel (copyout_body root) (va, src, len) s = Done r (set_k_mem m' s) ∧
    pt_ready (set_k_mem m' s) root G l ∧ copied_out r s.(k_mem) m' G va len src.
Proof.
  revert s va src len.
  induction fuel as [|fuel IH]; intros s va src len Hpt Hva Hmax Hlen Hsrc Hrange Hf;
    pose proof (PGROUNDDOWN_bounds va) as [Hb Hal].
  { exfalso. unfold PGSIZE in *. lia. }
  assert (Hs : s = set_k_mem s.(k_mem) s) by by destruct s.
  cbn [loop]. destruct (decide (len = 0)) as [->|Hne].
  { exists 0, s.(k_mem). rewrite <-Hs. split; [by unfold copyout_body; mred|].
    split; [done|apply copied_out_nil]. }
  mred. rewrite (copyout_body_ok s root G l) by (done || lia).
  destruct (Z.eqb_spec (upage (k_mem s) G va) 0) as [H0|H0].
  { cbn [obind]. mred. exists (-1), s.(k_mem). rewrite <-Hs. split; [done|]. split; [done|].
    split; [done..|]. right. split; [done|]. exists 0. split; [lia|].
    rewrite Z.add_0_r, upa_upage by done. by rewrite H0. }
  cbn [obind]. assert (Hpriv : private_page G l (upage (k_mem s) G va)).
  { rewrite <-(Z.add_0_r va). apply Hrange; [lia|]. by rewrite Z.add_0_r. }
  destruct (copyout_chunk s root G l va src len) as (Hpt1 & Hmap1 & Hnew1 & Hold1); [done|done|lia|done|done|done|].
  destruct (chunk_bounds va len) as (Hc & Hp & Hcase); [lia..|].
  set (m1 := write_bytes _ _ _) in *.
  assert (Hmapped : ∀ i, 0 ≤ i < chunk va len → is_Some (upa s.(k_mem) G (va + i))).
  { intros i Hi. rewrite upa_in_page by lia. cbv zeta. fold (upage s.(k_mem) G va).
    rewrite (proj2 (Z.eqb_neq _ _) H0). eauto. }
  destruct Hcase as [Heq|[Hlt Hnext]].
  { exists 0, m1. destruct fuel as [|fuel]; [exfalso; unfold PGSIZE in *; lia|].
    rewrite Heq, Z.sub_diag. cbn [loop]. split; [by unfold copyout_body; mred|]. split; [done|].
    eapply (copied_out_step _ _ m1 _ _ l _ _ (chunk va len)); [done|lia|done|done|done|done|done|].
    rewrite Heq, Z.sub_diag. apply copied_out_nil. }
  destruct (IH (set_k_mem m1 s) (va + chunk va len) (drop (Z.to_nat (chunk va len)) src)
    (len - chunk va len)) as (r & m' & Hr & Hpt' & Hco); [done|lia|lia|lia| | | |].
  { rewrite length_drop. lia. }
  { kproj. apply (user_range_rest s.(k_mem)); [lia..|done|done]. }
  { rewrite Hnext, (PGROUNDDOWN_id (PGROUNDDOWN va + PGSIZE)); unfold PGSIZE in *; lia. }
  exists r, m'. unfold u64. rewrite Z.mod_small by lia. rewrite <-Hnext, Hr.
  split; [done_eq|]. split; [done|]. revert Hco. kproj. intros Hco.
  by eapply (copied_out_step _ _ m1 _ _ l); [..|exact Hco].
Qed.

(** ** The whole operations *)

Lemma copy_fuel_enough va len :
  0 ≤ va → 0 ≤ len →
  (va - PGROUNDDOWN va + len + PGSIZE - 1) / PGSIZE < Z.of_nat (copy_fuel len).
Proof.
  intros. pose proof (PGROUNDDOWN_bounds va) as [Hb _]. unfold copy_fuel.
  rewrite Z2Nat.id by (unfold PGSIZE; lia). unfold PGSIZE in *. lia.
Qed.

Lemma copyin_ok s root G l va len :
  pt_inv s.(k_mem) root G l → 0 ≤ va → va + len + PGSIZE < 2 ^ 64 → 0 ≤ len →
  ∃ r, copyin root va len s = Done r s ∧
    match user_bytes s.(k_mem) G va (Z.to_nat len) with
    | Some bs => r = (0, bs)
    | None => r.1 = -1
    end.
Proof.
  intros Hpt Hva Hmax Hlen. unfold copyin.
  apply (copyin_loop _ s root G l []); auto using copy_fuel_enough.
Qed.

Lemma copyout_ok s root G l va src len :
  pt_ready s root G l → 0 ≤ va → va + len + PGSIZE < 2 ^ 64 → 0 ≤ len →
  length src = Z.to_nat len → user_range s.(k_mem) G l va len →
  ∃ r m', copyout root va src len s = Done r (set_k_mem m' s) ∧
    pt_ready (set_k_mem m' s) root G l ∧ copied_out r s.(k_mem) m' G va len src.
Proof.
  intros Hpt Hva Hmax Hlen Hsrc Hr. unfold copyout.
  apply copyout_loop; auto using copy_fuel_enough.
Qed.

Lemma user_bytes_copied m m' G va src :
  0 ≤ va → copied_out 0 m m' G va (Z.of_nat (length src)) src →
  user_bytes m' G va (length src) = Some src.
Proof.
  intros Hva [Hmap _ Hr]. unfold user_bytes. apply mapM_Some_2.
  destruct Hr as [[_ Hr]|[? _]]; [|done].
  apply Forall2_same_length_lookup_2; [by rewrite length_seq|].
  intros i k b Hk Hb. apply lookup_seq in Hk as [-> Hi]. simpl.
  destruct (Hr (Z.of_nat i)) as (a & Ha & Hba); [lia|].
  rewrite (upa_same_map m m') by (done || lia). rewrite Ha. simpl. f_equal.
  by rewrite Hba, Nat2Z.id, Hb.
Qed.

(** [copyin] reads user memory.  For any range of user addresses it
    returns 0 and exactly the bytes the process sees there, or -1 when some
    byte of the range is not mapped for the user; the kernel's state does not
    change. *)
Theorem copyin_spec s root G l va len :
  pt_ready s root G l → 0 ≤ va → va + len + PGSIZE < 2 ^ 64 → 0 ≤ len →
  match user_bytes s.(k_mem) G va (Z.to_nat len) with
  | Some bs => copyin root va len s = Done (0, bs) s
  | None => ∃ bs, copyin root va len s = Done (-1, bs) s
  end.
Proof.
  intros Hpt Hva Hmax Hlen. destruct (copyin_ok s root G l va len) as ([r bs] & E & Hr); [apply Hpt|done..|].
  destruct (user_bytes _ _ _ _).
  - by rewrite E, Hr.
  - exists bs. simpl in Hr. by rewrite E, Hr.
Qed.

(** C31: [copyout] then [copyin] at the same address gives the bytes back; a
    failing [copyout] means that some byte of the range is unmapped, and no
    byte outside the range's physical addresses changes in any case. *)
Theorem copyout_copyin_roundtrip s root G l va src :
  let len := Z.of_nat (length src) in
  pt_ready s root G l → 0 ≤ va → va + len + PGSIZE < 2 ^ 64 →
  user_range s.(k_mem) G l va len →
  ∃ r s', copyout root va src len s = Done r s' ∧ pt_ready s' root G l ∧
    (∀ a, (∀ i, 0 ≤ i < len → upa s.(k_mem) G (va + i) ≠ Some a) →
      byte_at s'.(k_mem) a = byte_at s.(k_mem) a) ∧
    (r = 0 ∧ copyin root va len s' = Done (0, src) s' ∨
     r = -1 ∧ ∃ i, 0 ≤ i < len ∧ upa s.(k_mem) G (va + i) = None).
Proof.
  intros len Hpt Hva Hmax Hrange.
  destruct (copyout_ok s root G l va src len) as (r & m' & E & Hpt' & Hco); [done..|lia|lia|done|].
  exists r, (set_k_mem m' s). kproj. split; [done|]. split; [done|].
  split; [apply Hco|]. pose proof (co_result _ _ _ _ _ _ _ Hco) as [[-> _]|Hr]; [left|by right].
  split; [done|]. destruct (copyin_ok (set_k_mem m' s) root G l va len) as (r' & E' & Hr');
    [apply Hpt'|done..|lia|].
  revert Hr'. kproj. unfold len at 1. rewrite Nat2Z.id.
  rewrite (user_bytes_copied s.(k_mem)) by done. intros ->. exact E'.
Qed.

End UserMemory.

(** ** Witnesses: the machine with one user page of [VmFacts] *)

Lemma demo_upage G va :
  (∀ va, 0 ≤ va < MAXVA → mapping kstate_user.(k_mem) G va =
      if decide (va / PGSIZE = 0) then pte_of demo_page demo_perm else 0) →
  0 ≤ va < PGSIZE → upage kstate_user.(k_mem) G va = demo_page.
Proof.
  intros Hmap Hva. unfold upage. assert (PGROUNDDOWN va = 0) as ->.
  { rewrite PGROUNDDOWN_eq. unfold PGSIZE in *. lia. }
  change (0 <? MAXVA) with true. rewrite (Hmap 0) by (clear; rewrite MAXVA_eq; lia).
  vm_compute. reflexivity.
Qed.

Lemma copyin_spec_witness : ∃ bs, copyin demo_root 4096 3 kstate_user = Done (-1, bs) kstate_user.
Proof.
  destruct kstate_user_ok as (Hpt & _ & _ & Hmap). set (G := demo_tree) in *. set (l := two_pages) in *.
  pose proof (copyin_spec (HK:=image0) kstate_user demo_root G l 4096 3 Hpt) as H.
  rewrite user_bytes_unmapped in H; [apply H; by vm_compute|by vm_compute|by vm_compute|].
  unfold upage. change (PGROUNDDOWN 4096) with 4096. change (4096 <? MAXVA) with true.
  rewrite (Hmap 4096) by (clear; rewrite MAXVA_eq; lia). by vm_compute.
Defined.

Lemma demo_range G l :
  (∀ n, G !! n ≠ Some demo_page) → (demo_page ∉ l) →
  (∀ va, 0 ≤ va < MAXVA → mapping kstate_user.(k_mem) G va =
      if decide (va / PGSIZE = 0) then pte_of demo_page demo_perm else 0) →
  user_range (HK:=image0) kstate_user.(k_mem) G l 100 3.
Proof.
  intros HG Hl Hmap. split.
  - intros i Hi _. rewrite (demo_upage G) by (done || (unfold PGSIZE; lia)).
    split; [by vm_compute|]. done.
  - intros i j a Hi Hj. rewrite !upa_upage by lia.
    rewrite !(demo_upage G) by (done || (unfold PGSIZE; lia)).
    change (demo_page =? 0) with false. cbv iota. intros [= <-] [= H].
    rewrite !PGROUNDDOWN_eq in H. unfold PGSIZE in H. lia.
Qed.

Lemma copyout_copyin_roundtrip_witness :
  ∃ r s', copyout demo_root 100 [1; 2; 3] 3 kstate_user = Done r s' ∧
    copyin demo_root 100 3 s' = Done (0, [1; 2; 3]) s'.
Proof.
  destruct kstate_user_ok as (Hpt & HG & Hl & Hmap). set (G := demo_tree) in *. set (l := two_pages) in *.
  destruct (copyout_copyin_roundtrip (HK:=image0) kstate_user demo_root G l 100 [1; 2; 3] Hpt)
    as (r & s' & E & _ & _ & Hr).
  { by vm_compute. }
  { by vm_compute. }
  { by apply demo_range. }
  exists r, s'. split; [exact E|]. destruct Hr as [[_ H]|(_ & i & Hi & Hu)]; [exact H|].
  exfalso. rewrite upa_upage in Hu by (clear -Hi; simpl in Hi; lia).
  rewrite (demo_upage G _ Hmap) in Hu by (clear -Hi; simpl in Hi; unfold PGSIZE; lia).
  revert Hu. change (demo_page =? 0) with false. discriminate.
Defined.
