(* ===== verification/VmCopy.v ===== *)
(** * Copying an address space ([uvmcopy] of [kernel/vm.c])

    [fork] copies the user memory of a process: the child gets pages of its own
    with the same contents, mapped at the same addresses with the same flags.
    Two page tables share the free list here; what is shown of the copy is also
    what it leaves alone, and that a copy that runs out of memory gives back
    every page. *)

From S2P Require Import Prelude State Spinlock Cstring Riscv Kalloc Vm VmFacts UserMem.

Section Copy.
Context {HK : KernelImage} {HKok : KernelImageOk}.
Implicit Types (s : kstate) (m : mem) (l : list Z) (G : tree).

(** Two page tables have no page in common. *)
Definition apart (G G' : tree) : Prop := ∀ n n' p, G !! n = Some p → G' !! n' ≠ Some p.

(** A page table depends on the bytes of its pages only. *)
Lemma pt_inv_same m m' root G l l' :
  pt_inv m root G l → (∀ n p, G !! n = Some p → p ∉ l') →
  (∀ n p a, G !! n = Some p → p ≤ a < p + PGSIZE → byte_at m' a = byte_at m a) →
  pt_inv m' root G l' ∧ ∀ va, 0 ≤ va → mapping m' G va = mapping m G va.
Proof.
  intros [H1 H2 H3 H4 H5] Hl Hm.
  assert (Hload : ∀ n p i, G !! n = Some p → 0 ≤ i < 512 → load64 m' (p + 8 * i) = load64 m (p + 8 * i)).
  { intros n p i Hn Hi. apply load_ext. intros a Ha. apply (Hm n p); [done|unfold PGSIZE; lia]. }
  split; [split; try done|].
  - intros n p Hn. split; [by apply (H2 n)|by apply (Hl n)].
  - intros n p i Hn Hlen Hi. rewrite (Hload n) by done. by apply H5.
  - intros va Hva. unfold mapping, leaf. pose proof (PX_range 0 va).
    destruct (G !! [PX 2 va; PX 1 va]) as [p|] eqn:Hp; simpl; [|done]. apply (Hload _ _ _ Hp). lia.
Qed.

(** The state while the table at [new] is filled from the one at [old]. *)
Record two_tables (old new : Z) (s : kstate) (GO GN : tree) (l : list Z) : Prop := {
  tt_kmem : kmem_ready s l;
  tt_old : pt_inv s.(k_mem) old GO l;
  tt_new : pt_inv s.(k_mem) new GN l;
  tt_apart : apart GO GN
}.

Lemma tt_ready_old old new s GO GN l : two_tables old new s GO GN l → pt_ready s old GO l.
Proof. intros T. split; apply T. Qed.

Lemma tt_ready_new old new s GO GN l : two_tables old new s GO GN l → pt_ready s new GN l.
Proof. intros T. split; apply T. Qed.

(** An address in a page that is no page of the tree. *)
Lemma page_outside m root G l p a :
  pt_inv m root G l → page_ok p = true → (∀ n, G !! n ≠ Some p) → p ≤ a < p + PGSIZE → outside G a.
Proof.
  intros H Hp Hn Ha n q Hq. destruct (pt_page _ _ _ _ H n q Hq) as [Hok _].
  destruct (page_disjoint q p Hok Hp) as [|]; [|lia..]. intros ->. by apply (Hn n).
Qed.

Lemma kframe_set_mem s m : kframe s (set_k_mem m s).
Proof. split; [keq|]. kproj. by left. Qed.

(** The other table does not notice that the new one grows. *)
Lemma grow_other old new s GO GN l s' GN' l' :
  two_tables old new s GO GN l → pt_grow new s GN l s' GN' l' →
  two_tables old new s' GO GN' l' ∧ ∀ va, 0 ≤ va → mapping s'.(k_mem) GO va = mapping s.(k_mem) GO va.
Proof.
  intros [Hk Ho Hn Ha] X. pose proof (ext_ready _ _ _ _ _ _ _ X) as [Hk' Hn'].
  assert (Ha' : apart GO GN').
  { intros n n' p Hp Hp'. destruct (ext_new _ _ _ _ _ _ _ X _ _ Hp') as [?|?]; [by eapply Ha|].
    by destruct (pt_page _ _ _ _ Ho _ _ Hp). }
  destruct (pt_inv_same s.(k_mem) s'.(k_mem) old GO l l') as [Ho' Hm]; [done| | |].
  - intros n p Hp Hin. destruct (pt_page _ _ _ _ Ho _ _ Hp) as [_ Hl]. apply Hl.
    destruct (ext_free _ _ _ _ _ _ _ X) as [k ->]. apply elem_of_app. by right.
  - intros n p a Hp Hin. apply (ext_mem _ _ _ _ _ _ _ X). destruct (pt_page _ _ _ _ Ho _ _ Hp) as [Hok _].
    apply (page_outside _ _ _ _ p a Hn' Hok); [|done]. intros n'. by apply (Ha' n).
  - split; [by split|done].
Qed.

(** Neither table notices a change of a page that is in neither. *)
Lemma tt_set_mem old new s GO GN l pa m' :
  two_tables old new s GO GN l → private_page GO l pa → private_page GN l pa → same_except_page pa s.(k_mem) m' →
  two_tables old new (set_k_mem m' s) GO GN l ∧
  (∀ va, 0 ≤ va → mapping m' GO va = mapping s.(k_mem) GO va) ∧
  (∀ va, 0 ≤ va → mapping m' GN va = mapping s.(k_mem) GN va).
Proof.
  intros [Hk Ho Hn Ha] (Hp & Hl & HO) (_ & _ & HN) Hm.
  destruct (pt_inv_frame _ _ _ _ _ _ Ho Hp HO Hm) as [Ho' Mo]. destruct (pt_inv_frame _ _ _ _ _ _ Hn Hp HN Hm) as [Hn' Mn].
  split; [|done]. split; [by eapply kmem_ready_set_mem|by kproj..|done].
Qed.

(** A page that is in neither table and not free. *)
Definition foreign (GO GN : tree) (l : list Z) (pa : Z) : Prop := private_page GO l pa ∧ private_page GN l pa.

Lemma tt_kalloc old new s GO GN x l :
  two_tables old new s GO GN (x :: l) →
  kalloc s = Done x (kalloc_post s) ∧ two_tables old new (kalloc_post s) GO GN l ∧ foreign GO GN l x ∧ kframe s (kalloc_post s) ∧
  same_except_page x s.(k_mem) (kalloc_post s).(k_mem) ∧
  (∀ va, 0 ≤ va → mapping (kalloc_post s).(k_mem) GO va = mapping s.(k_mem) GO va) ∧
  (∀ va, 0 ≤ va → mapping (kalloc_post s).(k_mem) GN va = mapping s.(k_mem) GN va).
Proof.
  intros [Hk Ho Hn Ha]. destruct (kmem_ready_kalloc _ _ _ Hk) as [E Hk'].
  destruct Hk as (_ & _ & [[Hfl _] [Hxl _]%NoDup_cons [Hx _]%Forall_cons]).
  assert (Hm : same_except_page x s.(k_mem) (kalloc_post s).(k_mem)).
  { unfold kalloc_post. kproj. rewrite Hfl. apply same_except_page_memset. }
  assert (Hf : ∀ root G, pt_inv s.(k_mem) root G (x :: l) → private_page G l x ∧
    pt_inv (kalloc_post s).(k_mem) root G l ∧ ∀ va, 0 ≤ va → mapping (kalloc_post s).(k_mem) G va = mapping s.(k_mem) G va).
  { intros root G HG. assert (HnG : ∀ n, G !! n ≠ Some x).
    { intros n Hn'. destruct (pt_page _ _ _ _ HG _ _ Hn') as [_ Hnot]. apply Hnot, list_elem_of_here. }
    destruct (pt_inv_frame _ _ _ _ _ _ HG Hx HnG Hm) as [[H1 H2 H3 H4 H5] Hmap]. split; [done|]. split; [|done].
    split; try done. intros n p Hp. destruct (H2 n p Hp) as [? Hnot]. split; [done|]. intros Hin. apply Hnot. by right. }
  destruct (Hf _ _ Ho) as (Po & Ho' & Mo), (Hf _ _ Hn) as (Pn & Hn' & Mn).
  split; [exact E|]. split; [by split|]. split; [by split|]. split; [|by split].
  split; unfold kalloc_post; [keq|]. kproj. by right.
Qed.

Lemma tt_kfree old new s GO GN l pa :
  two_tables old new s GO GN l → foreign GO GN l pa →
  kfree pa s = Done tt (kfree_post pa s) ∧ two_tables old new (kfree_post pa s) GO GN (pa :: l) ∧
  same_except_page pa s.(k_mem) (kfree_post pa s).(k_mem) ∧
  (∀ va, 0 ≤ va → mapping (kfree_post pa s).(k_mem) GO va = mapping s.(k_mem) GO va) ∧
  (∀ va, 0 ≤ va → mapping (kfree_post pa s).(k_mem) GN va = mapping s.(k_mem) GN va).
Proof.
  intros T [(Hp & Hl & HO) (_ & _ & HN)].
  destruct (pt_ready_kfree s old GO l pa (tt_ready_old _ _ _ _ _ _ T) Hp Hl HO) as (E & [Hk Ho] & Hm & Mo).
  destruct (pt_ready_kfree s new GN l pa (tt_ready_new _ _ _ _ _ _ T) Hp Hl HN) as (_ & [_ Hn] & _ & Mn).
  split; [exact E|]. split; [|by split]. split; [done..|apply T].
Qed.

(** ** One page *)

Section Pages.
Context (old new : Z) (GO GN0 : tree) (l0 : list Z) (s0 : kstate) (c : nat).

(** The entry of the parent's page [i]. *)
Definition entry (i : nat) : Z := mapping s0.(k_mem) GO (PGSIZE * Z.of_nat i).

(** What is copied: [c] present pages, each a page of the process. *)
Record source : Prop := {
  src_room : PGSIZE * Z.of_nat c ≤ MAXVA;
  src_valid i : (i < c)%nat → has (entry i) PTE_V = true ∧ PTE_FLAGS (entry i) ≠ PTE_V;
  src_page i : (i < c)%nat → foreign GO GN0 l0 (PTE2PA (entry i));
  src_empty va : 0 ≤ va → va / PGSIZE < Z.of_nat c → mapping s0.(k_mem) GN0 va = 0
}.

(** After [k] pages: the child's pages are [Q], and the copy of page [k] may be in
    hand, not mapped yet. *)
Record copied (h : option Z) (k : nat) (Q : list Z) (s : kstate) (GN : tree) (l : list Z) : Prop := {
  cp_tables : two_tables old new s GO GN l;
  cp_frame : kframe s0 s;
  cp_nodup : NoDup (Q ++ option_list h);
  cp_len : length Q = k;
  cp_fresh q : q ∈ Q ++ option_list h → q ∈ l0 ∧ foreign GO GN l q;
  cp_bytes i q o : (Q ++ option_list h) !! i = Some q → 0 ≤ o < PGSIZE →
    byte_at s.(k_mem) (q + o) = byte_at s0.(k_mem) (PTE2PA (entry i) + o);
  cp_old va : 0 ≤ va → mapping s.(k_mem) GO va = mapping s0.(k_mem) GO va;
  cp_new n p : GN !! n = Some p → GN0 !! n = Some p ∨ p ∈ l0;
  cp_free p : p ∈ l → p ∈ l0;
  cp_used p : p ∈ l0 → p ∈ l ∨ p ∈ Q ++ option_list h ∨ ∃ n, GN !! n = Some p;
  cp_keep a : outside GN a → (∀ p, p ∈ l0 → off_page p a) → byte_at s.(k_mem) a = byte_at s0.(k_mem) a
}.

(** The map of the child so far. *)
Definition child_map (k : nat) (Q : list Z) (s : kstate) (GN : tree) : Prop :=
  (∀ i q, Q !! i = Some q → mapping s.(k_mem) GN (PGSIZE * Z.of_nat i) = pte_of q (PTE_FLAGS (entry i))) ∧
  (∀ va, 0 ≤ va < MAXVA → Z.of_nat k ≤ va / PGSIZE → mapping s.(k_mem) GN va = mapping s0.(k_mem) GN0 va).

Lemma foreign_grow s GN l s' GN' l' q :
  pt_grow new s GN l s' GN' l' → foreign GO GN l q → foreign GO GN' l' q.
Proof.
  intros X [(Hq & Hl & HO) (_ & _ & HN)]. assert (Hl' : q ∉ l').
  { intros Hin. apply Hl. destruct (ext_free _ _ _ _ _ _ _ X) as [k ->]. apply elem_of_app. by right. }
  split; [by split|]. split; [done|]. split; [done|]. intros n Hn.
  destruct (ext_new _ _ _ _ _ _ _ X _ _ Hn) as [?|?]; [by eapply HN|done].
Qed.

(** A foreign page keeps its bytes when the table grows. *)
Lemma grow_bytes s GN l s' GN' l' q o :
  pt_grow new s GN l s' GN' l' → foreign GO GN l q → 0 ≤ o < PGSIZE →
  byte_at s'.(k_mem) (q + o) = byte_at s.(k_mem) (q + o).
Proof.
  intros X F Ho. apply (ext_mem _ _ _ _ _ _ _ X). destruct (foreign_grow _ _ _ _ _ _ _ X F) as [_ (Hq & _ & HN)].
  destruct (ext_ready _ _ _ _ _ _ _ X) as [_ Hn']. eapply page_outside; [exact Hn'|exact Hq|done|lia].
Qed.

Lemma copied_grow h k Q s GN l s' GN' l' :
  copied h k Q s GN l → pt_grow new s GN l s' GN' l' → copied h k Q s' GN' l'.
Proof.
  intros C X. destruct (grow_other _ _ _ _ _ _ _ _ _ (cp_tables _ _ _ _ _ _ C) X) as [T M].
  destruct C as [C1 C2 C3 C4 C5 C6 C7 C8 C9 C10 C11]. split; try done.
  - eapply kframe_trans; [done|apply X].
  - intros q Hq. destruct (C5 q Hq) as [? ?]. split; [done|]. by eapply foreign_grow.
  - intros i q o Hq Ho. rewrite <-(C6 i q o) by done. eapply grow_bytes; [done| |done].
    by apply C5, (list_elem_of_lookup_2 _ i).
  - intros va Hva. by rewrite M, C7.
  - intros n p Hp. destruct (ext_new _ _ _ _ _ _ _ X _ _ Hp) as [?|?]; [by eapply C8|right; by apply C9].
  - intros p Hp. apply C9. destruct (ext_free _ _ _ _ _ _ _ X) as [t ->]. apply elem_of_app. by right.
  - intros p Hp. destruct (C10 p Hp) as [H|[H|[n H]]]; [|by auto|].
    + destruct (ext_used _ _ _ _ _ _ _ X _ H) as [?|?]; auto.
    + right; right. exists n. eapply lookup_weaken; [done|apply X].
  - intros a Ha Hp. rewrite (ext_mem _ _ _ _ _ _ _ X a Ha). apply C11; [|done].
    intros n p Hn. apply (Ha n). eapply lookup_weaken; [done|apply X].
Qed.

(** The page in hand is the next page of the child once it is mapped. *)
Lemma copied_hand k Q x s GN l : copied (Some x) k Q s GN l → copied None (S k) (Q ++ [x]) s GN l.
Proof.
  intros [C1 C2 C3 C4 C5 C6 C7 C8 C9 C10 C11]. cbn [option_list] in *.
  split; cbn [option_list]; rewrite ?app_nil_r; try done. rewrite length_app, C4. simpl. lia.
Qed.

Context (H0 : two_tables old new s0 GO GN0 l0) (HS : source).

Lemma l0_page p : p ∈ l0 → page_ok p = true.
Proof. destruct (tt_kmem _ _ _ _ _ _ H0) as (_ & _ & [_ _ Hp]). rewrite Forall_forall in Hp. apply Hp. Qed.

(** The parent's pages are not touched by the copy. *)
Lemma source_kept h k Q s GN l i o :
  copied h k Q s GN l → (i < c)%nat → 0 ≤ o < PGSIZE →
  byte_at s.(k_mem) (PTE2PA (entry i) + o) = byte_at s0.(k_mem) (PTE2PA (entry i) + o).
Proof.
  intros C Hi Ho. destruct (src_page HS i Hi) as [(Hp & Hl & _) (_ & _ & HN)]. apply (cp_keep _ _ _ _ _ _ C).
  - eapply (page_outside _ _ _ _ (PTE2PA (entry i))); [apply C|done| |lia].
    intros n Hn. destruct (cp_new _ _ _ _ _ _ C _ _ Hn) as [?|?]; [by eapply HN|done].
  - intros p Hpl. destruct (page_disjoint p (PTE2PA (entry i))) as [|]; [by apply l0_page|done| |right; lia|left; lia].
    by intros ->.
Qed.

(** A page taken from the free list and filled. *)
Lemma copied_take k Q s GN x l :
  copied None k Q s GN (x :: l) → (k < c)%nat →
  let m := memmove x (PTE2PA (entry k)) pgsize (kalloc_post s).(k_mem) in let s' := set_k_mem m (kalloc_post s) in
  kalloc s = Done x (kalloc_post s) ∧ copied (Some x) k Q s' GN l ∧
  ∀ va, 0 ≤ va → mapping s'.(k_mem) GN va = mapping s.(k_mem) GN va.
Proof.
  intros C Hk m s'. destruct (tt_kalloc _ _ _ _ _ _ _ (cp_tables _ _ _ _ _ _ C)) as (E & T & F & K & S1 & M1 & N1).
  assert (S2 : same_except_page x (kalloc_post s).(k_mem) m).
  { intros a Ha. unfold m. rewrite memmove_spec, decide_False; [done|]. unfold pgsize, PGSIZE in *. lia. }
  pose proof (same_except_page_trans _ _ _ _ S1 S2) as S.
  destruct (tt_set_mem _ _ _ _ _ _ x m T (proj1 F) (proj2 F) S2) as (T' & M2 & N2).
  split; [exact E|]. split; [|intros va Hva; unfold s'; kproj; by rewrite N2, N1].
  pose proof (λ o, source_kept _ _ _ _ _ _ k o C Hk) as Hsrc.
  destruct C as [C1 C2 C3 C4 C5 C6 C7 C8 C9 C10 C11]. cbn [option_list] in *. rewrite app_nil_r in *.
  assert (HxQ : x ∉ Q). { intros Hx. destruct (C5 x Hx) as [_ [(_ & Hnot & _) _]]. apply Hnot, list_elem_of_here. }
  assert (Hx0 : x ∈ l0) by (apply C9, list_elem_of_here).
  split; cbn [option_list]; [exact T'| | |exact C4| | | |exact C8| | |].
  - eapply kframe_trans; [exact C2|]. eapply kframe_trans; [exact K|]. apply kframe_set_mem.
  - apply NoDup_app. split_and!; [done| |apply NoDup_singleton]. intros q Hq ->%list_elem_of_singleton. done.
  - intros q [Hq| ->%list_elem_of_singleton]%elem_of_app; [|by split].
    destruct (C5 q Hq) as [? [(? & Hnl & ?) (_ & _ & ?)]]. split; [done|].
    apply not_elem_of_cons in Hnl as [_ Hnl]. split; (split; [done|]; by split).
  - intros i q o Hq Ho. unfold s'. kproj. apply lookup_app_Some in Hq as [Hq|[Hi Hq]].
    + rewrite S; [by apply (C6 i q o)|]. apply list_elem_of_lookup_2 in Hq.
      destruct (page_disjoint x q) as [|]; [apply F|apply (C5 q Hq)|by intros ->|lia..].
    + apply list_lookup_singleton_Some in Hq as [Hi' <-]. assert (i = k) as -> by lia. unfold m.
      rewrite memmove_spec, decide_True by (unfold pgsize, PGSIZE in *; lia).
      replace (PTE2PA (entry k) + (x + o - x)) with (PTE2PA (entry k) + o) by lia.
      rewrite S1; [by apply Hsrc|]. destruct (src_page HS k Hk) as [(Hp & Hl & _) _].
      destruct (page_disjoint x (PTE2PA (entry k))) as [|]; [apply F|done|by intros ->|lia..].
  - intros va Hva. unfold s'. kproj. by rewrite M2, M1, C7.
  - intros p Hp. apply C9. by right.
  - intros p Hp. destruct (C10 p Hp) as [[->|?]%elem_of_cons|[?|?]]; auto; right; left; apply elem_of_app; auto.
    right. apply list_elem_of_here.
  - intros a Ha Hoff. unfold s'. kproj. rewrite S by (by apply Hoff). by apply C11.
Qed.

(** The page in hand given back. *)
Lemma copied_drop k Q x s GN l :
  copied (Some x) k Q s GN l →
  kfree x s = Done tt (kfree_post x s) ∧ copied None k Q (kfree_post x s) GN (x :: l) ∧
  ∀ va, 0 ≤ va → mapping (kfree_post x s).(k_mem) GN va = mapping s.(k_mem) GN va.
Proof.
  intros [C1 C2 C3 C4 C5 C6 C7 C8 C9 C10 C11]. cbn [option_list] in *.
  destruct (C5 x) as [Hx0 Fx]; [apply elem_of_app; right; apply list_elem_of_here|].
  destruct (tt_kfree _ _ _ _ _ _ x C1 Fx) as (E & T & S & M & N). split; [exact E|]. split; [|exact N].
  apply NoDup_app in C3 as (N1 & N2 & _).
  assert (HxQ : ∀ q, q ∈ Q → q ≠ x) by (intros q Hq ->; apply (N2 x Hq), list_elem_of_here).
  assert (HQ : ∀ q, q ∈ Q → q ∈ l0 ∧ foreign GO GN l q) by (intros q Hq; apply C5, elem_of_app; by left).
  split; cbn [option_list]; rewrite ?app_nil_r; [exact T| |exact N1|exact C4| | | |exact C8| | |].
  - eapply kframe_trans; [exact C2|apply kframe_kfree].
  - intros q Hq. destruct (HQ q Hq) as [? [(? & ? & ?) (_ & _ & ?)]]. split; [done|].
    assert (q ∉ x :: l) by (apply not_elem_of_cons; auto). split; (split; [done|]; by split).
  - intros i q o Hq Ho. rewrite <-(C6 i q o) by (done || by apply lookup_app_l_Some). apply S.
    apply list_elem_of_lookup_2 in Hq. destruct (page_disjoint x q) as [|]; [apply Fx|apply (HQ q Hq)| |lia..].
    intros ->. by apply (HxQ q Hq).
  - intros va Hva. by rewrite M, C7.
  - intros p [->|Hp]%elem_of_cons; auto.
  - intros p Hp. destruct (C10 p Hp) as [H|[[H| ->%list_elem_of_singleton]%elem_of_app|H]]; auto.
    + left. by right.
    + left. apply list_elem_of_here.
  - intros a Ha Hoff. rewrite S by (by apply Hoff). by apply C11.
Qed.

Lemma copied_settle k Q s GN l : copied None k Q s GN l → copied None k Q (settle s) GN l.
Proof.
  intros [[Hk Ho Hn Ha] C2 C3 C4 C5 C6 C7 C8 C9 C10 C11].
  split; [split; [by apply kmem_ready_settle|by kproj..|done]|..]; kproj; try assumption.
  eapply kframe_trans; [exact C2|]. split; [by destruct s|by right].
Qed.

Lemma flags_range v : 0 ≤ PTE_FLAGS v < 2 ^ 10.
Proof. rewrite PTE_FLAGS_eq. by apply Z.mod_pos_bound. Qed.

Lemma flags_valid v : has v PTE_V = true → Z.lor (PTE_FLAGS v) PTE_V = PTE_FLAGS v.
Proof.
  unfold has. intros H. rewrite <-land_flags in H by done. apply negb_true_iff, Z.eqb_neq in H.
  apply Z.bits_inj'. intros n Hn. rewrite Z.lor_spec. destruct (decide (n = 0)) as [->|].
  - destruct (Z.testbit (PTE_FLAGS v) 0) eqn:E; [done|]. destruct H. apply Z.bits_inj'. intros j Hj.
    rewrite Z.land_spec, Z.bits_0. change PTE_V with (2 ^ 0). destruct (decide (j = 0)) as [->|]; [by rewrite E|].
    by rewrite Z.pow2_bits_false, andb_false_r by done.
  - change PTE_V with (2 ^ 0). by rewrite Z.pow2_bits_false, orb_false_r by done.
Qed.

(** The entries of the child can be removed again. *)
Lemma child_unmappable k Q s GN l i q :
  copied None k Q s GN l → child_map k Q s GN → (k ≤ c)%nat → Q !! i = Some q →
  PTE2PA (mapping s.(k_mem) GN (PGSIZE * Z.of_nat i)) = q ∧
  unmappable true GN l (mapping s.(k_mem) GN (PGSIZE * Z.of_nat i)).
Proof.
  intros C [Hm _] Hk Hq. destruct (cp_fresh _ _ _ _ _ _ C q) as [_ [_ Hf]].
  { apply elem_of_app. left. by eapply list_elem_of_lookup_2. }
  pose proof (page_ok_pa_ok q (proj1 Hf)) as Hpa. rewrite (Hm i q Hq).
  pose proof (flags_range (entry i)) as Hr. rewrite pte_of_PA by done. split; [done|].
  assert (Hi : (i < c)%nat) by (apply lookup_lt_Some in Hq; pose proof (cp_len _ _ _ _ _ _ C); lia).
  destruct (src_valid HS i Hi) as [HV HF]. split; [by apply pte_of_V|]. rewrite pte_of_flags, flags_valid, pte_of_PA by done.
  by split.
Qed.

Lemma child_pages k Q s GN l :
  copied None k Q s GN l → child_map k Q s GN → (k ≤ c)%nat → freed_pages (mapping s.(k_mem) GN) 0 k = Q.
Proof.
  intros C Hm Hk. pose proof (cp_len _ _ _ _ _ _ C) as Hlen. apply list_eq_same_length with k.
  - done.
  - unfold freed_pages. by rewrite length_fmap, length_seq.
  - intros i x y Hi Hx Hy. unfold freed_pages in Hx. rewrite list_lookup_fmap, lookup_seq_lt in Hx by done.
    cbn [fmap option_fmap option_map Nat.add] in Hx. injection Hx as <-. rewrite Z.add_0_l.
    by apply (child_unmappable k Q s GN l).
Qed.

(** The result of a copy that gives up: both maps are as before, and the free pages
    are those of before without the ones used as tables. *)
Record given_back (s : kstate) (GN : tree) (l : list Z) : Prop := {
  gb_tables : two_tables old new s GO GN l;
  gb_frame : kframe s0 s;
  gb_old va : 0 ≤ va → mapping s.(k_mem) GO va = mapping s0.(k_mem) GO va;
  gb_new va : 0 ≤ va < MAXVA → mapping s.(k_mem) GN va = mapping s0.(k_mem) GN0 va;
  gb_used p : p ∈ l0 → p ∈ l ∨ ∃ n, GN !! n = Some p;
  gb_keep a : outside GN a → (∀ p, p ∈ l0 → off_page p a) → byte_at s.(k_mem) a = byte_at s0.(k_mem) a
}.

Lemma copied_back k Q s GN l :
  copied None k Q s GN l → child_map k Q s GN → (k ≤ c)%nat →
  ∃ s' l', uvmunmap new 0 (Z.of_nat k) true s = Done tt s' ∧ given_back s' GN l'.
Proof.
  intros C Hm Hk. pose proof (child_pages _ _ _ _ _ C Hm Hk) as HQ. pose proof (src_room HS) as Hroom.
  pose proof (cp_len _ _ _ _ _ _ C) as Hlen.
  destruct (uvmunmap_ok new s GN l true 0 k) as (s' & E & [Hk' Hn'] & F & M & B).
  - apply (tt_ready_new _ _ _ _ _ _ (cp_tables _ _ _ _ _ _ C)).
  - done.
  - done.
  - unfold PGSIZE in *. lia.
  - intros i Hi. destruct (lookup_lt_is_Some_2 Q i) as [q Hq]; [lia|]. rewrite Z.add_0_l. by eapply child_unmappable.
  - intros _. rewrite HQ. pose proof (cp_nodup _ _ _ _ _ _ C) as Hnd. by rewrite app_nil_r in Hnd.
  - rewrite HQ in Hk', Hn', B. exists s', (rev Q ++ l). split; [exact E|].
    destruct C as [[C1o C1 C1n C1a] C2 C3 C4 C5 C6 C7 C8 C9 C10 C11]. cbn [option_list] in *. rewrite app_nil_r in *.
    assert (HGO : ∀ n p, GO !! n = Some p → p ∉ Q).
    { intros n p Hp Hin. destruct (C5 p Hin) as [_ [(_ & _ & Hno) _]]. by apply (Hno n). }
    destruct (pt_inv_same s.(k_mem) s'.(k_mem) old GO l (rev Q ++ l) C1) as [Ho' Mo].
    + intros n p Hp [Hin|Hin]%elem_of_app; [|by destruct (pt_page _ _ _ _ C1 _ _ Hp)].
      apply (HGO n p Hp). by apply list_elem_of_In, in_rev, list_elem_of_In.
    + intros n p a Hp Ha. destruct (pt_page _ _ _ _ C1 _ _ Hp) as [Hok _]. apply B.
      * apply (page_outside _ _ _ _ p a C1n Hok); [|done]. intros n'. by apply (C1a n).
      * intros _. apply Forall_forall. intros q Hq. destruct (page_disjoint q p) as [|]; [|done| |right; lia|left; lia].
        -- apply (C5 q Hq).
        -- intros ->. by apply (HGO n p).
    + split; [by split|by eapply kframe_trans| | | |].
      * intros va Hva. by rewrite Mo, C7.
      * intros va Hva. rewrite M by done. unfold unmap_range. rewrite Z.div_0_l by done. case_decide as Hd.
        { symmetry. apply (src_empty HS); lia. }
        apply Hm; [done|]. pose proof (Z.div_pos va PGSIZE). unfold PGSIZE in *. lia.
      * intros p Hp. destruct (C10 p Hp) as [?|[?|?]]; auto; left; apply elem_of_app; auto.
        left. by apply list_elem_of_In, in_rev; rewrite rev_involutive; apply list_elem_of_In.
      * intros a Ha Hoff. rewrite B; [by apply C11|done|]. intros _. apply Forall_forall. intros q Hq. by apply Hoff, C5.
Qed.

Lemma child_map_same k Q s GN s' GN' :
  child_map k Q s GN → (∀ va, 0 ≤ va < MAXVA → mapping s'.(k_mem) GN' va = mapping s.(k_mem) GN va) →
  (Z.of_nat (length Q) * PGSIZE ≤ MAXVA) → child_map k Q s' GN'.
Proof.
  intros [H1 H2] M HL. split; [|intros va Hva Hk; rewrite M by done; by apply H2].
  intros i q Hq. rewrite M; [by apply H1|]. apply lookup_lt_Some in Hq. unfold PGSIZE in *. lia.
Qed.

(** Mapping the page in hand. *)
Lemma copied_map k Q x s GN l :
  copied (Some x) k Q s GN l → child_map k Q s GN → (k < c)%nat →
  ∃ r s' GN' l', mappages new (PGSIZE * Z.of_nat k) PGSIZE x (PTE_FLAGS (entry k)) s = Done r s' ∧
    (r = 0 ∧ copied None (S k) (Q ++ [x]) s' GN' l' ∧ child_map (S k) (Q ++ [x]) s' GN' ∨
     r = -1 ∧ copied (Some x) k Q s' GN' l' ∧ child_map k Q s' GN').
Proof.
  intros C Hm Hk. pose proof (src_room HS) as Hroom. pose proof (cp_len _ _ _ _ _ _ C) as Hlen.
  destruct (cp_fresh _ _ _ _ _ _ C x) as [_ [_ (Hx & _)]]; [apply elem_of_app; right; apply list_elem_of_here|].
  apply page_ok_spec in Hx as [Hxm Hxr]. pose proof etext_range. unfold PHYSTOP, KERNBASE in *.
  assert (Hnp : npages (PGSIZE * Z.of_nat k) PGSIZE = 1) by (unfold npages, PGSIZE; lia).
  assert (Hdiv : PGSIZE * Z.of_nat k / PGSIZE = Z.of_nat k) by (rewrite Z.mul_comm; by apply Z.div_mul).
  destruct (mappages_ok new s GN l (PGSIZE * Z.of_nat k) PGSIZE x (PTE_FLAGS (entry k))) as (r & s' & GN' & l' & n & E & X & R & M);
    rewrite ?Hnp, ?Hdiv in *.
  - apply (tt_ready_new _ _ _ _ _ _ (cp_tables _ _ _ _ _ _ C)).
  - unfold PGSIZE. lia.
  - done.
  - unfold PGSIZE in *. lia.
  - intros va Hva Hin. rewrite (proj2 Hm), (src_empty HS) by lia. done.
  - done.
  - lia.
  - unfold PGSIZE in *. lia.
  - apply flags_range.
  - exists r, s', GN', l'. split; [exact E|]. pose proof (copied_grow _ _ _ _ _ _ _ _ _ C X) as C'.
    destruct R as [[-> ->]|(-> & Hn & _)]; [left|right].
    + split; [done|]. split; [by apply copied_hand|]. split.
      * intros i q Hq. rewrite M by (apply lookup_lt_Some in Hq; rewrite length_app in Hq; simpl in Hq; unfold PGSIZE in *; lia).
        unfold map_range. rewrite (Z.mul_comm PGSIZE (Z.of_nat i)), Z.div_mul by done. rewrite Hdiv.
        apply lookup_app_Some in Hq as [Hq|[Hi Hq]].
        -- rewrite decide_False by (apply lookup_lt_Some in Hq; lia). rewrite Z.mul_comm. by apply Hm.
        -- apply list_lookup_singleton_Some in Hq as [Hi' <-]. rewrite decide_True by lia.
           assert (i = k) as -> by lia. by rewrite Z.sub_diag, Z.mul_0_r, Z.add_0_r.
      * intros va Hva Hge. rewrite M by done. unfold map_range. rewrite decide_False by lia. apply Hm; [done|lia].
    + split; [done|]. split; [done|]. eapply child_map_same; [exact Hm| |unfold PGSIZE in *; lia].
      intros va Hva. rewrite M by done. unfold map_range. by rewrite decide_False by lia.
Qed.

Lemma copy_gives_up k Q s GN l :
  copied None k Q s GN l → child_map k Q s GN → (k ≤ c)%nat →
  ∃ s' l', (uvmunmap new 0 (PGSIZE * Z.of_nat k / PGSIZE) true;; mret (inr (-1) : Z + Z)) s = Done (inr (-1)) s' ∧ given_back s' GN l'.
Proof.
  intros C Hm Hk. destruct (copied_back _ _ _ _ _ C Hm Hk) as (s' & l' & E & G). exists s', l'. split; [|done].
  rewrite Z.mul_comm, Z.div_mul by done. by rewrite (bind_Done _ _ _ _ _ E).
Qed.

Lemma mem_write_ok f s : mem_write f s = Done tt (set_k_mem (f s.(k_mem)) s).
Proof. reflexivity. Qed.

(** One turn of the loop. *)
Lemma uvmcopy_body_ok sz k Q s GN l :
  copied None k Q s GN l → child_map k Q s GN → (k < c)%nat → PGSIZE * Z.of_nat k < sz →
  (∃ q s' GN' l', uvmcopy_body old new sz (PGSIZE * Z.of_nat k) s = Done (inl (PGSIZE * Z.of_nat (S k))) s' ∧
     copied None (S k) (Q ++ [q]) s' GN' l' ∧ child_map (S k) (Q ++ [q]) s' GN') ∨
  (∃ s' GN' l', uvmcopy_body old new sz (PGSIZE * Z.of_nat k) s = Done (inr (-1)) s' ∧ given_back s' GN' l').
Proof.
  intros C Hm Hk Hsz. pose proof (src_room HS) as Hroom. pose proof MAXVA_eq as HMAX. pose proof (cp_len _ _ _ _ _ _ C) as Hlen.
  destruct (src_valid HS k Hk) as [HV _]. unfold uvmcopy_body. rewrite (proj2 (Z.ltb_lt _ _) Hsz).
  pose proof (cp_old _ _ _ _ _ _ C (PGSIZE * Z.of_nat k) ltac:(unfold PGSIZE; lia)) as He. fold (entry k) in He.
  destruct (has_mapping_leaf s.(k_mem) GO (PGSIZE * Z.of_nat k)) as [pte Hl]; [by rewrite He|].
  pose proof (tt_ready_old _ _ _ _ _ _ (cp_tables _ _ _ _ _ _ C)) as Ro.
  assert (Hva : 0 ≤ PGSIZE * Z.of_nat k < MAXVA) by (unfold PGSIZE in *; lia).
  rewrite (bind_Done _ _ _ _ _ (walk_noalloc_ok s old GO l _ (proj2 Ro) Hva)), Hl. cbn [default from_option id].
  rewrite (proj2 (Z.eqb_neq _ _)) by (eapply leaf_nonzero; [exact (proj2 Ro)| |exact Hl]; unfold PGSIZE; lia).
  unfold mapping in He. rewrite Hl in He.
  rewrite (bind_Done (pte_read pte) _ s (entry k) s) by (unfold pte_read, mem_read; mred; by rewrite He).
  unfold has in HV. apply negb_true_iff in HV. rewrite HV. cbv zeta. destruct l as [|x l].
  - right. destruct (tt_kmem _ _ _ _ _ _ (cp_tables _ _ _ _ _ _ C)) as (Hwf & Hu & [Hfl _ _]). simpl in Hfl.
    rewrite (bind_Done _ _ _ _ _ (kalloc_empty s Hwf Hu Hfl)). cbn [Z.eqb].
    destruct (copy_gives_up k Q (settle s) GN []) as (s' & l' & E & G); [by apply copied_settle| |lia|by eauto].
    eapply child_map_same; [exact Hm|by kproj|unfold PGSIZE in *; lia].
  - destruct (copied_take _ _ _ _ _ _ C Hk) as (E & C2 & N2). set (s2 := set_k_mem _ _) in *.
    rewrite (bind_Done _ _ _ _ _ E). destruct (cp_fresh _ _ _ _ _ _ C2 x) as [_ [(Hx & _) _]].
    { apply elem_of_app. right. apply list_elem_of_here. }
    rewrite (proj2 (Z.eqb_neq x 0)) by by apply page_ok_nonzero.
    rewrite (bind_Done (mem_write (memmove x (PTE2PA (entry k)) pgsize)) _ (kalloc_post s) tt s2 (mem_write_ok _ _)).
    assert (Hm2 : child_map k Q s2 GN).
    { eapply child_map_same; [exact Hm| |unfold PGSIZE in *; lia]. intros va Hva'. apply N2. lia. }
    destruct (copied_map _ _ _ _ _ _ C2 Hm2 Hk) as (r & s3 & GN3 & l3 & E3 & R). rewrite (bind_Done _ _ _ _ _ E3).
    destruct R as [(-> & C3 & Hm3)|(-> & C3 & Hm3)].
    + left. exists x, s3, GN3, l3. split; [|by split]. cbn [negb Z.eqb]. unfold u64.
      rewrite Z.mod_small by (unfold PGSIZE in *; lia). do 2 f_equal. lia.
    + right. cbn [negb Z.eqb]. destruct (copied_drop _ _ _ _ _ _ C3) as (E4 & C4 & N4). rewrite (bind_Done _ _ _ _ _ E4).
      destruct (copy_gives_up k Q (kfree_post x s3) GN3 (x :: l3)) as (s' & l' & E5 & G); [done| |lia|by eauto].
      eapply child_map_same; [exact Hm3| |unfold PGSIZE in *; lia]. intros va Hva'. apply N4. lia.
Qed.

Lemma copied_start : copied None 0 [] s0 GN0 l0 ∧ child_map 0 [] s0 GN0.
Proof.
  split; [|split; [done|intros; done]].
  split; cbn [option_list app]; [exact H0|apply kframe_refl|apply NoDup_nil_2|done| |done|done|auto|auto|auto|done].
  intros q Hq. by apply not_elem_of_nil in Hq.
Qed.

Lemma uvmcopy_loop sz (d k fuel : nat) Q s GN l :
  copied None k Q s GN l → child_map k Q s GN → c = (k + d)%nat → (d < fuel)%nat →
  PGSIZE * Z.of_nat c - PGSIZE < sz ≤ PGSIZE * Z.of_nat c →
  ∃ r s' GN' l', loop fuel (uvmcopy_body old new sz) (PGSIZE * Z.of_nat k) s = Done r s' ∧
    (r = 0 ∧ (∃ Q', copied None c Q' s' GN' l' ∧ child_map c Q' s' GN') ∨ r = -1 ∧ given_back s' GN' l').
Proof.
  revert k fuel Q s GN l. induction d as [|d IH]; intros k [|fuel] Q s GN l C Hm Hc Hf Hsz; try lia; cbn [loop].
  - rewrite (bind_Done _ _ _ (inr 0) s).
    + exists 0, s, GN, l. split; [done|]. left. split; [done|]. exists Q. by replace c with k by lia.
    + unfold uvmcopy_body. by rewrite (proj2 (Z.ltb_ge _ _)) by lia.
  - destruct (uvmcopy_body_ok sz k Q s GN l C Hm) as [(q & s' & GN' & l' & E & C' & Hm')|(s' & GN' & l' & E & G)];
      [lia|unfold PGSIZE in *; lia|..]; rewrite (bind_Done _ _ _ _ _ E).
    + apply (IH (S k) fuel _ _ _ _ C' Hm'); [lia|lia|done].
    + exists (-1), s', GN', l'. split; [done|]. by right.
Qed.

(** *** What the child sees *)

Lemma child_entry Q s GN l va :
  copied None c Q s GN l → child_map c Q s GN → 0 ≤ va → va / PGSIZE < Z.of_nat c →
  ∃ i q, Q !! i = Some q ∧ (i < c)%nat ∧ va = PGSIZE * Z.of_nat i + va mod PGSIZE ∧ mapping s0.(k_mem) GO va = entry i ∧
    mapping s.(k_mem) GN va = pte_of q (PTE_FLAGS (entry i)).
Proof.
  intros C [Hm _] Hva Hlt. pose proof (cp_len _ _ _ _ _ _ C) as Hlen. pose proof (Z.div_pos va PGSIZE Hva ltac:(done)).
  destruct (lookup_lt_is_Some_2 Q (Z.to_nat (va / PGSIZE))) as [q Hq]; [lia|]. exists (Z.to_nat (va / PGSIZE)), q.
  assert (Hp : ∀ m G, mapping m G va = mapping m G (PGSIZE * Z.of_nat (Z.to_nat (va / PGSIZE)))).
  { intros m G. rewrite Z2Nat.id by done. apply mapping_page; [done|unfold PGSIZE in *; lia|].
    rewrite Z.mul_comm, Z.div_mul by done. done. }
  split_and!; [done|lia| |by rewrite Hp|by rewrite Hp; apply Hm]. rewrite Z2Nat.id by done. by apply Z.div_mod.
Qed.

Lemma child_upa Q s GN l va :
  copied None c Q s GN l → child_map c Q s GN → 0 ≤ va → va / PGSIZE < Z.of_nat c →
  byte_at s.(k_mem) <$> upa s.(k_mem) GN va = byte_at s0.(k_mem) <$> upa s0.(k_mem) GO va.
Proof.
  intros C Hm Hva Hlt. destruct (child_entry Q s GN l va C Hm Hva Hlt) as (i & q & Hq & Hi & Eva & Eo & En).
  destruct (cp_fresh _ _ _ _ _ _ C q) as [_ [(Hqok & _) _]]; [apply elem_of_app; left; by eapply list_elem_of_lookup_2|].
  destruct (src_valid HS i Hi) as [HV _]. destruct (src_page HS i Hi) as [(Hsok & _) _].
  unfold upa. rewrite Eo, En. destruct (va <? MAXVA); [|done].
  rewrite pte_user_pa_of by (first [by apply page_ok_pa_ok | apply flags_range]). unfold pte_user_pa. rewrite HV. cbn [andb].
  assert (HU : has (PTE_FLAGS (entry i)) PTE_U = has (entry i) PTE_U) by (unfold has; by rewrite land_flags).
  rewrite HU. destruct (has (entry i) PTE_U); [|done].
  rewrite (proj2 (Z.eqb_neq q 0)), (proj2 (Z.eqb_neq (PTE2PA (entry i)) 0)) by by apply page_ok_nonzero. cbn [fmap option_fmap option_map]. f_equal.
  apply (cp_bytes _ _ _ _ _ _ C i q); [by apply lookup_app_l_Some|by apply Z.mod_pos_bound].
Qed.

Lemma child_bytes Q s GN l va n :
  copied None c Q s GN l → child_map c Q s GN → 0 ≤ va → va + Z.of_nat n ≤ PGSIZE * Z.of_nat c →
  user_bytes s.(k_mem) GN va n = user_bytes s0.(k_mem) GO va n.
Proof.
  intros C Hm Hva Hn. unfold user_bytes. apply Forall_mapM_ext, Forall_forall. intros i Hi%elem_of_seq.
  apply (child_upa Q s GN l); [done|done|lia|]. apply Z.div_lt_upper_bound; [done|lia].
Qed.

(** No page of the child is a page of the parent. *)
Lemma child_private Q s GN l va va' :
  copied None c Q s GN l → child_map c Q s GN →
  0 ≤ va → va / PGSIZE < Z.of_nat c → 0 ≤ va' → va' / PGSIZE < Z.of_nat c →
  PTE2PA (mapping s.(k_mem) GN va) ≠ PTE2PA (mapping s.(k_mem) GO va').
Proof.
  intros C Hm Hva Hlt Hva' Hlt'. rewrite (cp_old _ _ _ _ _ _ C) by done.
  destruct (child_entry Q s GN l va C Hm Hva Hlt) as (i & q & Hq & Hi & _ & _ & En).
  destruct (child_entry Q s GN l va' C Hm Hva' Hlt') as (j & _ & _ & Hj & _ & Eo & _). rewrite Eo, En.
  destruct (cp_fresh _ _ _ _ _ _ C q) as [Hq0 [(Hqok & _) _]]; [apply elem_of_app; left; by eapply list_elem_of_lookup_2|].
  rewrite pte_of_PA by (first [by apply page_ok_pa_ok | apply flags_range]). intros ->.
  destruct (src_page HS j Hj) as [(_ & Hnot & _) _]. done.
Qed.

End Pages.

(** C20: [uvmcopy] gives the child its own copy of the parent's memory.  It
    returns 0 or -1.  Either way the parent's page table translates as before and
    its memory is untouched.  After 0 the child reads, at every address below
    [sz], exactly the bytes that the parent reads, with the same flags in its page
    table, and no physical page is shared; after -1 the child's map is as before, and
    every page that was free is free again or a page of the child's page table. *)
Theorem uvmcopy_spec old new sz (c : nat) s GO GN l :
  two_tables old new s GO GN l → source GO GN l s c → PGSIZE * Z.of_nat c - PGSIZE < sz ≤ PGSIZE * Z.of_nat c →
  ∃ r s' GN' l', uvmcopy old new sz s = Done r s' ∧ two_tables old new s' GO GN' l' ∧ kframe s s' ∧
    (∀ va, 0 ≤ va → mapping s'.(k_mem) GO va = mapping s.(k_mem) GO va) ∧
    (∀ a, outside GN' a → (∀ p, p ∈ l → off_page p a) → byte_at s'.(k_mem) a = byte_at s.(k_mem) a) ∧
    (r = 0 ∧
       (∀ va n, 0 ≤ va → va + Z.of_nat n ≤ PGSIZE * Z.of_nat c →
          user_bytes s'.(k_mem) GN' va n = user_bytes s.(k_mem) GO va n) ∧
       (∀ va, 0 ≤ va → va / PGSIZE < Z.of_nat c → PTE_FLAGS (mapping s'.(k_mem) GN' va) = PTE_FLAGS (mapping s.(k_mem) GO va)) ∧
       (∀ va va', 0 ≤ va → va / PGSIZE < Z.of_nat c → 0 ≤ va' → va' / PGSIZE < Z.of_nat c →
          PTE2PA (mapping s'.(k_mem) GN' va) ≠ PTE2PA (mapping s'.(k_mem) GO va')) ∨
     r = -1 ∧ (∀ va, 0 ≤ va < MAXVA → mapping s'.(k_mem) GN' va = mapping s.(k_mem) GN va) ∧
       (∀ p, p ∈ l → p ∈ l' ∨ ∃ n, GN' !! n = Some p)).
Proof.
  intros H0 HS Hsz. destruct (copied_start old new GO GN l s H0) as [C Hm].
  destruct (uvmcopy_loop old new GO GN l s c H0 HS sz c 0 (S (Z.to_nat ((sz + PGSIZE - 1) / PGSIZE))) [] s GN l C Hm)
    as (r & s' & GN' & l' & E & R); [lia|unfold PGSIZE in *; lia|done|].
  exists r, s', GN', l'. split; [exact E|]. destruct R as [(-> & Q & C' & Hm')|[-> [T F O N U K]]].
  - split; [apply C'|]. split; [apply C'|]. split; [apply C'|]. split; [apply C'|]. left. split; [done|]. split_and!.
    + intros va n Hva Hn. by eapply child_bytes.
    + intros va Hva Hlt.
      destruct (child_entry old new GO GN l s c Q s' GN' l' va C' Hm' Hva Hlt) as (i & q & Hq & Hi & _ & -> & ->).
      destruct (cp_fresh _ _ _ _ _ _ _ _ _ _ _ _ C' q) as [_ [(Hqok & _) _]]; [apply elem_of_app; left; by eapply list_elem_of_lookup_2|].
      rewrite pte_of_flags by (first [by apply page_ok_pa_ok | apply flags_range]). by apply flags_valid, (src_valid _ _ _ _ _ HS).
    + intros va va' H1 H2 H3 H4. by eapply (child_private old new GO GN l s c HS).
  - split; [done|]. split; [done|]. split; [done|]. split; [done|]. right. split; [done|]. by split.
Qed.

End Copy.

(** ** A process with one page, and an empty table for the child *)

Definition child_root : Z := 0x80107000.
Definition child_tree : tree := {[ [] := child_root ]}.

Lemma child_tree_Some n p : child_tree !! n = Some p → n = [] ∧ p = child_root.
Proof. unfold child_tree. by intros (<- & <-)%lookup_singleton_Some. Qed.

Lemma child_inv : @pt_inv image0 demo_mem child_root child_tree two_pages.
Proof.
  split.
  - apply lookup_singleton_eq.
  - intros n p [-> ->]%child_tree_Some. split; [by vm_compute|]. apply (bool_decide_unpack _). by vm_compute.
  - intros n n' p [-> _]%child_tree_Some [-> _]%child_tree_Some. done.
  - intros n i q [H _]%child_tree_Some. by destruct n.
  - intros n p i [-> ->]%child_tree_Some _ Hi. unfold child_tree. rewrite lookup_singleton_ne by done.
    unfold demo_mem. change (k_mem kstate_two) with (store64 0x80100000 0x80101000 ∅).
    rewrite !load_store_disjoint by (unfold child_root, demo_root, demo_l1, demo_l0; lia). by rewrite load_empty.
Qed.

Definition kstate_fork : kstate := kfree_post 0x80108000 kstate_user.

Lemma fork_tables :
  two_tables (HK:=image0) demo_root child_root kstate_fork demo_tree child_tree (0x80108000 :: two_pages) ∧
  ∀ va, 0 ≤ va → mapping kstate_fork.(k_mem) demo_tree va = mapping kstate_user.(k_mem) demo_tree va.
Proof.
  destruct kstate_user_ok as ([Hk Hpt] & _ & _ & _).
  assert (T : two_tables (HK:=image0) demo_root child_root kstate_user demo_tree child_tree two_pages).
  { split; [exact Hk|exact Hpt|exact child_inv|].
    intros n n' p [[_ ->]|[[_ ->]|[_ ->]]]%demo_tree_Some [_ E]%child_tree_Some; discriminate E. }
  destruct (tt_kfree (HK:=image0) _ _ kstate_user demo_tree child_tree two_pages 0x80108000 T) as (_ & T' & _ & M & _).
  - assert (0x80108000 ∉ two_pages) by (apply (bool_decide_unpack _); by vm_compute).
    split; (split; [by vm_compute|]; split; [done|]).
    + intros n [[_ E]|[[_ E]|[_ E]]]%demo_tree_Some; discriminate E.
    + intros n [_ E]%child_tree_Some. discriminate E.
  - by split.
Qed.

Lemma fork_source : source (HK:=image0) demo_tree child_tree (0x80108000 :: two_pages) kstate_fork 1.
Proof.
  destruct kstate_user_ok as (_ & HG & Hl & Hmap). destruct fork_tables as [_ M].
  assert (E : ∀ i, (i < 1)%nat → entry demo_tree kstate_fork i = pte_of demo_page demo_perm).
  { intros i Hi. assert (i = 0%nat) as -> by lia. unfold entry. rewrite M by done. by rewrite Hmap. }
  assert (Hpa : PTE2PA (pte_of demo_page demo_perm) = demo_page) by by vm_compute.
  split.
  - done.
  - intros i Hi. rewrite E by done. split; [by vm_compute|by vm_compute].
  - intros i Hi. rewrite E, Hpa by done. assert (demo_page ∉ 0x80108000 :: two_pages) by (apply (bool_decide_unpack _); by vm_compute).
    split; (split; [by vm_compute|]; split; [done|]); [done|]. intros n [_ E']%child_tree_Some. discriminate E'.
  - intros va _ _. unfold mapping, leaf, child_tree. by rewrite lookup_singleton_ne.
Qed.

Lemma uvmcopy_spec_witness :
  ∃ r s' GN', uvmcopy (HK:=image0) demo_root child_root 4096 kstate_fork = Done r s' ∧
    (r = 0 ∧ user_bytes s'.(k_mem) GN' 0 4096 = user_bytes kstate_fork.(k_mem) demo_tree 0 4096 ∨ r = -1).
Proof.
  destruct (uvmcopy_spec (HK:=image0) demo_root child_root 4096 1 kstate_fork demo_tree child_tree (0x80108000 :: two_pages)
    (proj1 fork_tables) fork_source) as (r & s' & GN' & l' & E & _ & _ & _ & _ & R); [done|].
  exists r, s', GN'. split; [exact E|]. destruct R as [(Hr & B & _)|[Hr _]]; [left|right; exact Hr].
  split; [exact Hr|]. apply (B 0 4096%nat); [lia|unfold PGSIZE; lia].
Defined.
