(* ===== verification/Proc.v ===== *)
(** * Processes ([kernel/proc.c])

    The process table: allocation and release of entries, the scheduler and
    the switch to it, [sleep] and [wakeup], [kill], [wait].  The operations
    that also use the file system ([userinit], [fork], [exit] and the thread
    calls) are in [ProcLife.v].

    A switch of kernel thread is the outcome [Swtch]; what the thread finds
    when it runs again is up to the rest of the machine.  The registers that
    [swtch] saves in [p->context] and [c->context] are control and not part of
    the state; only the first context that [allocproc] prepares is recorded. *)

From S2P Require Import Prelude State Spinlock Cstring Riscv Kalloc Vm.

Section Proc.
Context {HK : KernelImage}.

(** ** Trapframes

    The trapframe is a page of memory; its fields are at the offsets that
    [struct trapframe] documents. *)

Definition tf_kernel_satp : Z := 0.
Definition tf_kernel_sp : Z := 8.
Definition tf_kernel_trap : Z := 16.
Definition tf_epc : Z := 24.
Definition tf_kernel_hartid : Z := 32.
Definition tf_sp : Z := 48.
Definition tf_s0 : Z := 96.
Definition tf_a0 : Z := 112.
Definition tf_a1 : Z := 120.
Definition tf_a7 : Z := 168.
Definition trapframe_size : nat := 288.

(** [p->trapframe->field] *)
Definition tf_get (i : nat) (off : Z) : M kstate Z :=
  tf ← proc_get i p_trapframe;
  check_ptr tf;;
  mem_read (λ m, load64 m (tf + off)).

Definition tf_set (i : nat) (off v : Z) : M kstate unit :=
  tf ← proc_get i p_trapframe;
  check_ptr tf;;
  mem_write (store64 (tf + off) v).

(** All indices of the process table, in order. *)
Definition proc_table : list nat := seq 0 NPROC.

(** The current process of code that dereferences [myproc()]. *)
Definition curproc : M kstate nat := p ← myproc; opt_or_fault p.

(** ** The table *)

Definition procinit : M kstate unit :=
  initlock L_pid "nextpid";;
  initlock L_wait "wait_lock";;
  for_each proc_table (λ i,
    initlock (L_proc i) "proc";;
    proc_set i (set_p_state UNUSED);;
    proc_set i (set_p_kstack (KSTACK (Z.of_nat i)))).

Definition allocpid : M kstate Z :=
  acquire L_pid;;
  pid ← gets k_nextpid;
  modify (set_k_nextpid (s32 (pid + 1)));;
  release L_pid;;
  mret pid.

Definition proc_pagetable (p : nat) : M kstate Z :=
  pagetable ← uvmcreate;
  if pagetable =? 0 then mret 0 else
  r ← mappages pagetable TRAMPOLINE PGSIZE trampoline (Z.lor PTE_R PTE_X);
  if r <? 0 then uvmfree pagetable 0;; mret 0 else
  tf ← proc_get p p_trapframe;
  r ← mappages pagetable TRAPFRAME PGSIZE tf (Z.lor PTE_R PTE_W);
  if r <? 0 then
    uvmunmap pagetable TRAMPOLINE 1 false;;
    uvmfree pagetable 0;;
    mret 0
  else mret pagetable.

Definition proc_freepagetable (pagetable sz : Z) : M kstate unit :=
  uvmunmap pagetable TRAMPOLINE 1 false;;
  uvmunmap pagetable TRAPFRAME 1 false;;
  uvmfree pagetable sz.

Definition freeproc (p : nat) : M kstate unit :=
  tf ← proc_get p p_trapframe;
  when (negb (tf =? 0)) (kfree tf);;
  proc_set p (set_p_trapframe 0);;
  pt ← proc_get p p_pagetable;
  sz ← proc_get p p_sz;
  when (negb (pt =? 0)) (proc_freepagetable pt sz);;
  proc_set p (set_p_pagetable 0);;
  proc_set p (set_p_sz 0);;
  proc_set p (set_p_pid 0);;
  proc_set p (set_p_parent None);;
  proc_set p (λ pr, set_p_name (<[0%nat:=0]> pr.(p_name)) pr);;
  proc_set p (set_p_chan Ch_null);;
  proc_set p (set_p_killed 0);;
  proc_set p (set_p_xstate 0);;
  proc_set p (set_p_state UNUSED).

(** The part of [allocproc] after the label [found]. *)
Definition allocproc_found (p : nat) : M kstate (option nat) :=
  pid ← allocpid;
  proc_set p (set_p_pid pid);;
  proc_set p (set_p_state USED);;
  proc_set p (set_p_cpu_affinity (-1));;
  tf ← kalloc;
  proc_set p (set_p_trapframe tf);;
  if tf =? 0 then
    freeproc p;; release (L_proc p);; mret None
  else
  pt ← proc_pagetable p;
  proc_set p (set_p_pagetable pt);;
  if pt =? 0 then
    freeproc p;; release (L_proc p);; mret None
  else
  kstack ← proc_get p p_kstack;
  proc_set p (set_p_context (mk_context forkret_addr (u64 (kstack + PGSIZE)) (replicate 12 0)));;
  mret (Some p).

(** One iteration of the search of [allocproc]. *)
Definition allocproc_visit (p : nat) : M kstate (option nat) :=
  acquire (L_proc p);;
  st ← proc_get p p_state;
  if decide (st = UNUSED) then mret (Some p)
  else release (L_proc p);; mret None.

Definition allocproc : M kstate (option nat) :=
  r ← for_find proc_table allocproc_visit;
  match r with
  | None => mret None
  | Some p => allocproc_found p
  end.

Definition growproc (n : Z) : M kstate Z :=
  p ← curproc;
  sz ← proc_get p p_sz;
  pt ← proc_get p p_pagetable;
  if 0 <? n then
    sz' ← uvmalloc pt sz (u64 (sz + n)) PTE_W;
    if sz' =? 0 then mret (-1) else
    proc_set p (set_p_sz sz');; mret 0
  else if n <? 0 then
    sz' ← uvmdealloc pt sz (u64 (sz + n));
    proc_set p (set_p_sz sz');; mret 0
  else proc_set p (set_p_sz sz);; mret 0.

(** ** Switching *)

(** [swtch(&old->context, &new->context)] *)
Definition swtch : M kstate unit := λ s, Swtch s (λ s', Done tt s').

Definition sched : M kstate unit :=
  p ← curproc;
  h ← holding (L_proc p);
  if negb h then panic "sched p->lock" else
  c ← mycpu;
  if negb (c.(c_noff) =? 1) then panic "sched locks" else
  st ← proc_get p p_state;
  if decide (st = RUNNING) then panic "sched running" else
  i ← intr_get;
  if i : bool then panic "sched interruptible" else
  c ← mycpu;
  let intena := c.(c_intena) in
  swtch;;
  modify (upd_cpu (set_c_intena intena)).

Definition yield : M kstate unit :=
  p ← curproc;
  acquire (L_proc p);;
  proc_set p (set_p_state RUNNABLE);;
  sched;;
  release (L_proc p).

(** One iteration of the scheduler's loop over the table. *)
Definition scheduler_visit (cpu_id : nat) (p : nat) : M kstate unit :=
  acquire (L_proc p);;
  aff ← proc_get p p_cpu_affinity;
  if negb (aff =? -1) && negb (aff =? Z.of_nat cpu_id) then release (L_proc p) else
  st ← proc_get p p_state;
  (if decide (st = RUNNABLE) then
     proc_set p (set_p_state RUNNING);;
     modify (upd_cpu (set_c_proc (Some p)));;
     swtch;;
     modify (upd_cpu (set_c_proc None))
   else mret tt);;
  release (L_proc p).

(** The first [rounds] rounds of [scheduler], which has no end. *)
Definition scheduler (rounds : nat) : M kstate unit :=
  cpu_id ← cpuid;
  modify (upd_cpu (set_c_proc None));;
  for_each (replicate rounds tt) (λ _,
    intr_on;;
    for_each proc_table (scheduler_visit cpu_id)).

(** ** Sleep and wakeup *)

Definition sleep (ch : chan) (lk : lockid) : M kstate unit :=
  p ← curproc;
  acquire (L_proc p);;
  release lk;;
  proc_set p (set_p_chan ch);;
  proc_set p (set_p_state SLEEPING);;
  sched;;
  proc_set p (set_p_chan Ch_null);;
  release (L_proc p);;
  acquire lk.

Definition wakeup_visit (ch : chan) (p : nat) : M kstate unit :=
  me ← myproc;
  if decide (me = Some p) then mret tt else
  acquire (L_proc p);;
  st ← proc_get p p_state;
  c ← proc_get p p_chan;
  (if decide (st = SLEEPING ∧ c = ch) then proc_set p (set_p_state RUNNABLE) else mret tt);;
  release (L_proc p).

Definition wakeup (ch : chan) : M kstate unit := for_each proc_table (wakeup_visit ch).

(** One iteration of [kill]; a value ends the loop. *)
Definition kill_visit (pid : Z) (p : nat) : M kstate (option unit) :=
  acquire (L_proc p);;
  id ← proc_get p p_pid;
  if id =? pid then
    proc_set p (set_p_killed 1);;
    st ← proc_get p p_state;
    (if decide (st = SLEEPING) then proc_set p (set_p_state RUNNABLE) else mret tt);;
    release (L_proc p);;
    mret (Some tt)
  else release (L_proc p);; mret None.

Definition kill (pid : Z) : M kstate Z :=
  r ← for_find proc_table (kill_visit pid);
  mret (if r is Some _ then 0 else -1).

Definition setkilled (p : nat) : M kstate unit :=
  acquire (L_proc p);;
  proc_set p (set_p_killed 1);;
  release (L_proc p).

Definition killed (p : nat) : M kstate Z :=
  acquire (L_proc p);;
  k ← proc_get p p_killed;
  release (L_proc p);;
  mret k.

(** ** [wait] *)

(** Hand the children of [p] over to init; init's channel is its address. *)
Definition reparent (p : nat) : M kstate unit :=
  for_each proc_table (λ pp,
    par ← proc_get pp p_parent;
    if decide (par = Some p) then
      ini ← gets k_initproc;
      proc_set pp (set_p_parent ini);;
      ini ← gets k_initproc;
      wakeup (Ch_proc ini)
    else mret tt).

(** One entry of the scan for an exited child; the local variable is
    [havekids], and the scan returns early with the result of [wait]. *)
Definition wait_visit (p : nat) (addr : Z) (pp : nat) (havekids : bool)
    : M kstate (bool + Z) :=
  par ← proc_get pp p_parent;
  if decide (par = Some p) then
    acquire (L_proc pp);;
    st ← proc_get pp p_state;
    if decide (st = ZOMBIE) then
      pid ← proc_get pp p_pid;
      xst ← proc_get pp p_xstate;
      pt ← proc_get p p_pagetable;
      r ← (if negb (addr =? 0) then copyout pt addr (le_bytes 4 xst) 4 else mret 0);
      if r <? 0 then
        release (L_proc pp);; release L_wait;; mret (inr (-1))
      else
      freeproc pp;;
      release (L_proc pp);;
      release L_wait;;
      mret (inr pid)
    else
    release (L_proc pp);;
    mret (inl true)
  else mret (inl havekids).

(** [wakeups] bounds how often the call may be woken up without finding an
    exited child. *)
Definition wait (wakeups : nat) (addr : Z) : M kstate Z :=
  p ← curproc;
  acquire L_wait;;
  loop wakeups (λ _,
    r ← for_acc proc_table false (wait_visit p addr);
    match r with
    | inr v => mret (inr v)
    | inl havekids =>
        k ← (if negb havekids then mret true else (k ← killed p; mret (negb (k =? 0))));
        if k : bool then release L_wait;; mret (inr (-1)) else
        sleep (Ch_proc (Some p)) L_wait;;
        mret (inl tt)
    end) tt.

(** ** Copies to and from either space *)

(** Where [either_copyout] may copy to: a user address, an address in RAM, or a
    local variable of the caller, which then takes the bytes itself. *)
Inductive dest : Type := D_user (va : Z) | D_phys (pa : Z) | D_local.

Definition either_copyout (dst : dest) (src : list Z) (len : Z) : M kstate Z :=
  p ← myproc;
  match dst with
  | D_user va =>
      p ← opt_or_fault p;
      pt ← proc_get p p_pagetable;
      copyout pt va src len
  | D_phys pa => mem_write (write_bytes pa (take (Z.to_nat len) src));; mret 0
  | D_local => mret 0
  end.

(** Where [either_copyin] may copy from: a user address, or bytes of the
    kernel.  The result is the status and the bytes copied. *)
Inductive source : Type := S_user (va : Z) | S_local (bs : list Z).

Definition either_copyin (src : source) (len : Z) : M kstate (Z * list Z) :=
  p ← myproc;
  match src with
  | S_user va =>
      p ← opt_or_fault p;
      pt ← proc_get p p_pagetable;
      copyin pt va len
  | S_local bs => mret (0, take (Z.to_nat len) bs)
  end.

(** ** [procdump] *)

Definition state_name (st : procstate) : string :=
  match st with
  | UNUSED => "unused" | USED => "used" | SLEEPING => "sleep " | RUNNABLE => "runble"
  | RUNNING => "run   " | ZOMBIE => "zombie"
  end.

(** A format string with a newline, as the source writes it. *)
Definition procdump : M kstate unit :=
  printf "\n" [];;
  for_each proc_table (λ i,
    st ← proc_get i p_state;
    if decide (st = UNUSED) then mret tt else
    pid ← proc_get i p_pid;
    name ← proc_get i p_name;
    printf "%d %s %s" [PInt pid; PStr (cstring (state_name st)); PStr name];;
    printf "\n" []).

End Proc.
