(* ===== verification/Rwlock.v ===== *)
(** * Reader-writer locks ([kernel/rwlock.c])

    Two models of the same code.  The first runs one call to its end on the
    lock in memory, as the list of [kernel/klinkedlist.c] uses it; a loop that
    no other thread ends is [Spin].  The second, [Module Conc], is the
    interleaving semantics: every atomic access of every thread is one step,
    and mutual exclusion is proved of all reachable states. *)

From S2P Require Import Prelude State Cstring Vm.

(** ** One call at a time *)

(** [struct ReaderWriterLock]: [readers] at offset 0, [writer] at offset 8. *)
Definition rw_readers (m : mem) (lk : Z) : Z := load64 m lk.
Definition rw_writer (m : mem) (lk : Z) : Z := s32 (load32 m (lk + 8)).

Definition rw_lock_init (lk : Z) : M kstate unit :=
  check_ptr lk;;
  mem_write (store64 lk 0);;
  mem_write (store32 (lk + 8) 0).

(** [__atomic_add_fetch(&rwlock->readers, d, __ATOMIC_SEQ_CST)] *)
Definition rw_add (lk d : Z) : M kstate unit :=
  check_ptr lk;;
  r ← mem_read (λ m, rw_readers m lk);
  mem_write (store64 lk (u64 (r + d))).

(** The result of the first attempt; when a writer has the lock the reader
    cancels and waits for it. *)
Definition read_lock (lk : Z) : M kstate unit :=
  rw_add lk 1;;
  w ← mem_read (λ m, rw_writer m lk);
  if negb (w =? 0) then rw_add lk (-1);; spin else mret tt.

Definition read_unlock (lk : Z) : M kstate unit := rw_add lk (-1).

Definition write_lock (lk : Z) : M kstate unit :=
  check_ptr lk;;
  w ← mem_read (λ m, rw_writer m lk);
  mem_write (store32 (lk + 8) 1);;
  if negb (w =? 0) then spin else
  r ← mem_read (λ m, rw_readers m lk);
  if 0 <? r then spin else mret tt.

Definition write_unlock (lk : Z) : M kstate unit :=
  check_ptr lk;;
  mem_write (store32 (lk + 8) 0).

(** ** Interleaved calls *)

Module Conc.

(** The lock's two words. *)
Record rwlock : Type := mk_rwlock { readers : Z; writer : Z }.

(** Where a thread is: between calls, at an atomic access of one of the
    functions, or holding the lock. *)
Inductive pc : Type :=
| Idle
| R_inc        (** read_lock: add 1 to readers *)
| R_test       (** read_lock: if (rwlock->writer) *)
| R_cancel     (** read_lock: add -1 to readers *)
| R_wait       (** read_lock: while (rwlock->writer) *)
| R_held       (** between read_lock and read_unlock *)
| W_tas        (** write_lock: __sync_lock_test_and_set(&rwlock->writer, 1) *)
| W_spin       (** write_lock: while (rwlock->writer != 0) *)
| W_drain      (** write_lock: while (rwlock->readers > 0) *)
| W_held.      (** between write_lock and write_unlock *)

(** The calls an idle thread can make. *)
Inductive call : Type := Call_read_lock | Call_write_lock.

Definition call_pc (c : call) : pc :=
  match c with Call_read_lock => R_inc | Call_write_lock => W_tas end.

(** One atomic step of a thread at [p]; [c] is the call an idle thread makes
    next.  A thread that holds the lock makes the matching unlock call. *)
Definition step_pc (c : call) (p : pc) (lk : rwlock) : pc * rwlock :=
  match p with
  | Idle => (call_pc c, lk)
  | R_inc => (R_test, mk_rwlock (u64 (lk.(readers) + 1)) lk.(writer))
  | R_test => (if negb (lk.(writer) =? 0) then R_cancel else R_held, lk)
  | R_cancel => (R_wait, mk_rwlock (u64 (lk.(readers) - 1)) lk.(writer))
  | R_wait => (if negb (lk.(writer) =? 0) then R_wait else R_inc, lk)
  | R_held => (Idle, mk_rwlock (u64 (lk.(readers) - 1)) lk.(writer))
  | W_tas => (if negb (lk.(writer) =? 0) then W_spin else W_drain, mk_rwlock lk.(readers) 1)
  | W_spin => (if negb (lk.(writer) =? 0) then W_spin else W_tas, lk)
  | W_drain => (if 0 <? lk.(readers) then W_drain else W_held, lk)
  | W_held => (Idle, mk_rwlock lk.(readers) 0)
  end.

(** Threads on one lock. *)
Record rwsys : Type := mk_rwsys { rw : rwlock; pcs : list pc }.

Definition rw_start (n : nat) : rwsys := mk_rwsys (mk_rwlock 0 0) (replicate n Idle).

(** Thread [i] makes a step. *)
Definition rw_step (i : nat) (c : call) (s : rwsys) : rwsys :=
  match s.(pcs) !! i with
  | Some p => let '(p', lk) := step_pc c p s.(rw) in mk_rwsys lk (<[i:=p']> s.(pcs))
  | None => s
  end.

(** A schedule: who steps, and what call it makes if it is idle. *)
Definition rw_run (sched : list (nat * call)) (s : rwsys) : rwsys :=
  foldl (λ s e, rw_step e.1 e.2 s) s sched.

(** *** The invariant *)

(** Threads whose increment of [readers] is in effect, and threads that have
    [writer] set. *)
Definition counted (p : pc) : bool :=
  match p with R_test | R_cancel | R_held => true | _ => false end.

Definition writing (p : pc) : bool :=
  match p with W_drain | W_held => true | _ => false end.

Definition count (f : pc → bool) (l : list pc) : Z :=
  foldr (λ p n, (if f p then 1 else 0) + n) 0 l.

Record rw_inv (s : rwsys) : Prop := {
  inv_readers : s.(rw).(readers) = count counted s.(pcs);
  inv_writer : s.(rw).(writer) = count writing s.(pcs);
  inv_writer_le : count writing s.(pcs) ≤ 1;
  inv_excl i j : s.(pcs) !! i = Some W_held → s.(pcs) !! j ≠ Some R_held;
  inv_len : Z.of_nat (length s.(pcs)) < 2 ^ 64
}.

Lemma count_replicate f n p : f p = false → count f (replicate n p) = 0.
Proof. intros H. induction n as [|n IH]; simpl; [done|]. rewrite H. lia. Qed.

Lemma count_insert f (l : list pc) (i : nat) p p' :
  l !! i = Some p →
  count f (<[i:=p']> l) = count f l - (if f p then 1 else 0) + (if f p' then 1 else 0).
Proof.
  revert i. induction l as [|q l IH]; intros [|i] H; simpl in *; simplify_eq; [lia|].
  rewrite (IH _ H). lia.
Qed.

Lemma count_bounds f l : 0 ≤ count f l ≤ Z.of_nat (length l).
Proof. induction l as [|q l IH]; simpl; [lia|]. destruct (f q); lia. Qed.

Lemma count_lt f l i p : l !! i = Some p → f p = false → count f l < Z.of_nat (length l).
Proof.
  revert i. induction l as [|q l IH]; intros [|i] H Hf; simpl in *; simplify_eq.
  - rewrite Hf. pose proof (count_bounds f l). lia.
  - specialize (IH _ H Hf). destruct (f q); lia.
Qed.

Lemma count_pos f l i p : l !! i = Some p → f p = true → 1 ≤ count f l.
Proof.
  revert i. induction l as [|q l IH]; intros [|i] H Hf; simpl in *; simplify_eq.
  - rewrite Hf. pose proof (count_bounds f l). lia.
  - specialize (IH _ H Hf). destruct (f q); lia.
Qed.

Lemma count_two f l i j p q :
  i ≠ j → l !! i = Some p → l !! j = Some q → f p = true → f q = true → 2 ≤ count f l.
Proof.
  revert i j. induction l as [|x l IH]; intros [|i] [|j] Hne Hi Hj Hp Hq; simpl in *; simplify_eq.
  - rewrite Hp. pose proof (count_pos f l _ _ Hj Hq). lia.
  - rewrite Hq. pose proof (count_pos f l _ _ Hi Hp). lia.
  - specialize (IH i j). destruct (f x); pose proof (IH ltac:(lia) Hi Hj Hp Hq); lia.
Qed.

Lemma rw_inv_start n : Z.of_nat n < 2 ^ 64 → rw_inv (rw_start n).
Proof.
  intros Hn. split; simpl; rewrite ?count_replicate, ?length_replicate; try done || lia.
  intros i j [? _]%lookup_replicate. done.
Qed.

(** Exclusion survives a step of thread [i] from [p] to [p']. *)
Lemma excl_insert (l : list pc) (i : nat) p' :
  (∀ a b, l !! a = Some W_held → l !! b ≠ Some R_held) →
  (p' = W_held → ∀ b, b ≠ i → l !! b ≠ Some R_held) →
  (p' = R_held → ∀ a, a ≠ i → l !! a ≠ Some W_held) →
  ∀ a b, <[i:=p']> l !! a = Some W_held → <[i:=p']> l !! b ≠ Some R_held.
Proof.
  intros H HW HR a b. rewrite !list_lookup_insert.
  destruct (decide _) as [[<- Ha]|Ha], (decide _) as [[<- Hb]|Hb].
  - congruence.
  - intros [= Hp']. apply HW; [done|]. intros ->. apply Hb. done.
  - intros Hl [= Hp']. apply (HR Hp' a); [|done]. intros ->. apply Ha. done.
  - apply H.
Qed.

Lemma rw_inv_step i c s : rw_inv s → rw_inv (rw_step i c s).
Proof.
  intros [HR HW HW1 HX HL]. unfold rw_step. destruct (pcs s !! i) as [p|] eqn:Hi; [|done].
  destruct (step_pc c p (rw s)) as [p' lk] eqn:E.
  pose proof (count_bounds counted (pcs s)) as Bc. pose proof (count_bounds writing (pcs s)) as Bw.
  split; cbn [rw pcs]; rewrite ?(count_insert _ _ _ p), ?length_insert by done.
  - destruct p; simpl in E; injection E as <- <-; simpl; rewrite ?HR;
      try (destruct c; simpl; lia); try (destruct (_ =? 0); simpl; lia);
      try (destruct (_ <? _); simpl; lia).
    + unfold u64. rewrite Z.mod_small; [simpl; lia|].
      pose proof (count_lt counted _ _ _ Hi eq_refl). lia.
    + unfold u64. pose proof (count_pos counted _ _ _ Hi eq_refl).
      rewrite Z.mod_small; simpl; lia.
    + unfold u64. pose proof (count_pos counted _ _ _ Hi eq_refl).
      rewrite Z.mod_small; simpl; lia.
  - destruct p; simpl in E; injection E as <- <-; simpl; rewrite ?HW;
      try (destruct c; simpl; lia); try (destruct (_ <? _); simpl; lia);
      try (destruct (Z.eqb_spec (count writing (pcs s)) 0); simpl; lia).
    pose proof (count_pos writing _ _ _ Hi eq_refl). lia.
  - destruct p; simpl in E; injection E as <- <-; simpl; try (destruct c; simpl; lia);
      rewrite ?HW; try (destruct (_ <? _); simpl; lia); try lia;
      destruct (Z.eqb_spec (count writing (pcs s)) 0); simpl; lia.
  - apply excl_insert; [done| |].
    + intros ->. intros b Hb Hl. destruct p; simpl in E; try (by destruct c);
        repeat case_match; simplify_eq.
      apply Z.ltb_ge in H. pose proof (count_pos counted _ _ _ Hl eq_refl). lia.
    + intros ->. intros a Ha Hl. destruct p; simpl in E; try (by destruct c);
        repeat case_match; simplify_eq.
      apply negb_false_iff, Z.eqb_eq in H. pose proof (count_pos writing _ _ _ Hl eq_refl). lia.
  - done.
Qed.

Lemma rw_inv_run sched s : rw_inv s → rw_inv (rw_run sched s).
Proof.
  revert s. induction sched as [|e sched IH]; intros s H; simpl; [done|].
  by apply IH, rw_inv_step.
Qed.

(** C4: Mutual exclusion of the reader-writer lock.  Whatever the
    interleaving of the atomic accesses of [n] threads that call [read_lock],
    [read_unlock], [write_lock] and [write_unlock], no two threads hold the
    lock for writing, and none holds it for reading while another holds it for
    writing. *)
Theorem rw_mutual_exclusion n sched i j :
  Z.of_nat n < 2 ^ 64 → i ≠ j →
  let s := rw_run sched (rw_start n) in
  s.(pcs) !! i = Some W_held →
  s.(pcs) !! j ≠ Some W_held ∧ s.(pcs) !! j ≠ Some R_held.
Proof.
  intros Hn Hij s Hi. destruct (rw_inv_run sched _ (rw_inv_start n Hn)) as [_ _ H1 HX _].
  split; [|by eapply HX]. intros Hj.
  pose proof (count_two writing _ _ _ _ _ Hij Hi Hj eq_refl eq_refl). fold s in H1. lia.
Qed.

Lemma rw_mutual_exclusion_witness :
  let s := rw_run [(0%nat, Call_write_lock); (1%nat, Call_read_lock); (1%nat, Call_read_lock);
                   (0%nat, Call_write_lock); (1%nat, Call_read_lock); (1%nat, Call_read_lock);
                   (0%nat, Call_write_lock)] (rw_start 2) in
  s.(pcs) !! 0%nat = Some W_held ∧
  s.(pcs) !! 1%nat ≠ Some W_held ∧ s.(pcs) !! 1%nat ≠ Some R_held.
Proof.
  split; [reflexivity|].
  exact (rw_mutual_exclusion 2 [(0%nat, Call_write_lock); (1%nat, Call_read_lock);
    (1%nat, Call_read_lock); (0%nat, Call_write_lock); (1%nat, Call_read_lock);
    (1%nat, Call_read_lock); (0%nat, Call_write_lock)] 0%nat 1%nat
    eq_refl ltac:(discriminate) eq_refl).
Defined.

End Conc.
