(* ===== verification/ProcFacts.v ===== *)
(** * Scheduling: theorems ([kernel/proc.c])

    [running p s]: the process [p] executes on the current hart, outside
    critical sections.  [resume p s s'] is what a process that gave up the cpu
    in [s] relies on when it continues in [s']; [scheduler_visit] guarantees
    it.  [yield] and [sleep] are shown to switch in a well-formed state and,
    whatever the rest of the machine does within [resume], to come back. *)

From S2P Require Import Prelude State Spinlock Cstring Riscv Kalloc Vm Proc.

Section ProcFacts.
Context {HK : KernelImage}.
Implicit Types (s : kstate) (p i : nat) (pr : proc) (c : cpu).

Definition lock_free (l : lockid) (s : kstate) : Prop :=
  ∃ name, s.(k_locks) !! l = Some (unlocked name).

Definition lock_held (l : lockid) (s : kstate) : Prop :=
  ∃ name, s.(k_locks) !! l = Some (held_by name s.(k_hart)).

(** The current hart runs [p] at nesting depth [n]. *)
Definition on_cpu (p : nat) (n : Z) (s : kstate) : Prop :=
  ∃ c, s.(k_cpus) !! s.(k_hart) = Some c ∧ c.(c_proc) = Some p ∧ c.(c_noff) = n ∧ cpu_wf c.

Record running (p : nat) (s : kstate) : Prop := {
  run_cpu : on_cpu p 0 s;
  run_lock : lock_free (L_proc p) s;
  run_proc : is_Some (s.(k_procs) !! p)
}.

(** What the scheduler hands over: [p] runs on a hart that its affinity
    allows, with its own lock held and nothing else. *)
Record resumed (p : nat) (s' : kstate) : Prop := {
  res_cpu : on_cpu p 1 s';
  res_lock : lock_held (L_proc p) s';
  res_state pr : s'.(k_procs) !! p = Some pr →
    pr.(p_state) = RUNNING ∧
    (pr.(p_cpu_affinity) = -1 ∨ pr.(p_cpu_affinity) = Z.of_nat s'.(k_hart))
}.

(** The rely of a process that is not running: only the process itself changes
    its affinity and its private fields. *)
Record resume (p : nat) (s s' : kstate) : Prop := {
  rs_resumed : resumed p s';
  rs_same pr : s.(k_procs) !! p = Some pr →
    ∃ pr', s'.(k_procs) !! p = Some pr' ∧ pr'.(p_cpu_affinity) = pr.(p_cpu_affinity) ∧
      pr'.(p_pagetable) = pr.(p_pagetable) ∧ pr'.(p_trapframe) = pr.(p_trapframe) ∧
      pr'.(p_sz) = pr.(p_sz) ∧ pr'.(p_pid) = pr.(p_pid)
}.

Lemma on_cpu_wf p n s : on_cpu p n s → hart_wf s.
Proof. intros (c & Hc & _ & _ & Hwf). by exists c. Qed.

Lemma on_cpu_settle p n s : on_cpu p n s → on_cpu p n (settle s).
Proof.
  intros (c & Hc & Hp & Hn & Hwf). exists (cpu_settle c). split; [unfold settle; cpu_lookup|].
  split; [|split].
  - unfold cpu_settle. by destruct (c_noff c =? 0).
  - unfold cpu_settle. by destruct (c_noff c =? 0).
  - by apply cpu_wf_settle.
Qed.

Lemma on_cpu_enter p n s : on_cpu p n s → on_cpu p (n + 1) (enter s).
Proof.
  intros (c & Hc & Hp & Hn & [Hw1 Hw2]). exists (cpu_enter c). split; [unfold enter; cpu_lookup|].
  unfold cpu_enter, cpu_wf; simpl. split; [done|]. lia.
Qed.

Lemma on_cpu_eq p n s s' :
  s'.(k_cpus) = s.(k_cpus) → s'.(k_hart) = s.(k_hart) → on_cpu p n s → on_cpu p n s'.
Proof. intros H1 H2 (c & Hc & H). exists c. by rewrite H1, H2. Qed.

Lemma curproc_ok p n s : on_cpu p n s → curproc s = Done p (settle s).
Proof.
  intros (c & Hc & Hp & _ & Hwf). unfold curproc. mred.
  rewrite (myproc_ok _ _ Hc Hwf). cbn [obind]. by rewrite Hp.
Qed.

Lemma proc_get_ok {A} i pr (f : proc → A) s :
  s.(k_procs) !! i = Some pr → proc_get i f s = Done (f pr) s.
Proof. intros H. mred. by rewrite H. Qed.

(** [sched] at depth 1 with [p->lock] held switches; it restores the recorded
    interrupt state when the process comes back. *)
Lemma sched_ok p s c pr :
  s.(k_cpus) !! s.(k_hart) = Some c → c.(c_proc) = Some p → c.(c_noff) = 1 → cpu_wf c →
  lock_held (L_proc p) s → s.(k_procs) !! p = Some pr → pr.(p_state) ≠ RUNNING →
  sched s = Swtch s (λ s', Done tt (upd_cpu (set_c_intena c.(c_intena)) s')).
Proof.
  intros Hc Hp Hn Hwf [name Hl] Hpr Hst.
  assert (Hs : settle s = s).
  { keq. apply list_alter_same. intros x Hx. simplify_eq. unfold cpu_settle. by rewrite Hn. }
  unfold sched. mred. rewrite (curproc_ok p 1) by (by exists c). rewrite Hs. cbn [obind].
  rewrite (holding_held _ _ name (k_hart s)) by done. cbn [obind].
  rewrite bool_decide_eq_true_2 by done. cbn [negb]. cbv beta.
  rewrite (mycpu_ok _ _ Hc). cbn [obind]. rewrite Hn. change (negb (1 =? 1)) with false. cbv iota beta.
  mred. rewrite Hpr. cbn [obind].
  rewrite decide_False by done. rewrite (intr_get_ok _ _ Hc). cbn [obind].
  destruct Hwf as [_ Hsie]. rewrite Hsie by lia.
  cbv beta. rewrite (mycpu_ok _ _ Hc). cbn [obind]. unfold swtch. reflexivity.
Qed.

(** A process cannot give up the cpu inside a nested critical section: this is
    what makes interrupt-disabled RCU readers non-preemptible. *)
Lemma sched_nested p s c :
  s.(k_cpus) !! s.(k_hart) = Some c → c.(c_proc) = Some p → c.(c_noff) ≠ 1 → c.(c_noff) ≠ 0 →
  cpu_wf c → lock_held (L_proc p) s → sched s = Panic "sched locks" s.
Proof.
  intros Hc Hp Hn Hn0 Hwf [name Hl].
  assert (Hs : settle s = s).
  { keq. apply list_alter_same. intros x Hx. simplify_eq. unfold cpu_settle.
    by rewrite (proj2 (Z.eqb_neq _ _) Hn0). }
  unfold sched. mred. rewrite (curproc_ok p c.(c_noff)) by (by exists c). rewrite Hs. cbn [obind].
  rewrite (holding_held _ _ name (k_hart s)) by done. cbn [obind].
  rewrite bool_decide_eq_true_2 by done. cbn [negb]. cbv beta.
  rewrite (mycpu_ok _ _ Hc). cbn [obind]. by rewrite (proj2 (Z.eqb_neq _ _) Hn).
Qed.

(** The state in which a process with its own lock held gives up the cpu. *)
Definition at_switch (p : nat) (f : proc → proc) (s s1 : kstate) : Prop :=
  s1.(k_procs) = alter f p s.(k_procs) ∧
  s1.(k_mem) = s.(k_mem) ∧ s1.(k_freelist) = s.(k_freelist) ∧ s1.(k_head_ref) = s.(k_head_ref) ∧
  s1.(k_hart) = s.(k_hart) ∧ on_cpu p 1 s1 ∧ lock_held (L_proc p) s1.

(** What a process changes on its way out of [sched]: the cpu's nesting and the
    locks it releases and takes. *)
Definition same_data (s s' : kstate) : Prop :=
  s' = set_k_cpus s'.(k_cpus) (set_k_locks s'.(k_locks) (set_k_procs s'.(k_procs) s)).

Lemma same_data_refl s : same_data s s.
Proof. by destruct s. Qed.

(** Leaving [sched]: release [p->lock] at depth 1. *)
Lemma release_resumed p s' b :
  on_cpu p 1 s' → lock_held (L_proc p) s' →
  ∃ s2 name, release (L_proc p) (upd_cpu (set_c_intena b) s') = Done tt s2 ∧
    on_cpu p 0 s2 ∧ s2.(k_hart) = s'.(k_hart) ∧ s2.(k_procs) = s'.(k_procs) ∧
    s2.(k_locks) = <[L_proc p:=unlocked name]> s'.(k_locks) ∧ same_data s' s2.
Proof.
  intros (c & Hc & Hp & Hn & Hwf) [name Hl].
  exists (leave (upd_lock (L_proc p) (unlocked name) (upd_cpu (set_c_intena b) s'))), name.
  split.
  - eapply (release_ok _ _ name (set_c_intena b c)); kproj; [done| | |].
    + rewrite list_lookup_alter_eq, Hc. done.
    + destruct Hwf as [_ Hw]. apply Hw. lia.
    + simpl. lia.
  - split; [|split; [by kproj|split; [by kproj|split; [by kproj|by unfold same_data; keq]]]].
    exists (cpu_leave (set_c_intena b c)). split.
    { kproj. rewrite !list_lookup_alter_eq, Hc. done. }
    destruct Hwf as [Hw1 Hw2]. destruct c as [cp n ie sie]; simpl in *. subst n cp.
    unfold cpu_leave, cpu_wf. simpl. split; [done|]. split; [done|]. split; lia.
Qed.

(** Nothing but the cpus, the process table and the lock of [p] differs in the
    parts of the state that the memory allocator and the list use. *)
Record kept (p : nat) (s s' : kstate) : Prop := {
  kept_mem : s'.(k_mem) = s.(k_mem);
  kept_freelist : s'.(k_freelist) = s.(k_freelist);
  kept_head : s'.(k_head_ref) = s.(k_head_ref);
  kept_locks l : l ≠ L_proc p → s'.(k_locks) !! l = s.(k_locks) !! l
}.

#[global] Instance kept_preorder p : PreOrder (kept p).
Proof.
  split; [by split|]. intros x y z [H1 H2 H3 H4] [K1 K2 K3 K4].
  split; [congruence..|]. intros l Hl. by rewrite K4, H4.
Qed.

Lemma yield_step p s :
  running p s →
  ∃ s1 k, yield s = Swtch s1 k ∧ at_switch p (set_p_state RUNNABLE) s s1 ∧ kept p s s1 ∧
    ∀ s', resume p s1 s' →
      ∃ s2, k s' = Done tt s2 ∧ running p s2 ∧ s2.(k_hart) = s'.(k_hart) ∧
        s2.(k_procs) = s'.(k_procs) ∧ kept p s' s2.
Proof.
  intros [Hcpu [name Hl] [pr Hpr]]. unfold yield. mred.
  rewrite (curproc_ok p 0 s Hcpu). cbn [obind].
  rewrite (acquire_ok _ _ name); [|by apply hart_wf_settle, (on_cpu_wf p 0)|by kproj]. mred.
  set (s1 := upd_proc p (set_p_state RUNNABLE) _).
  assert (Hs1 : on_cpu p 1 s1).
  { apply (on_cpu_eq p 1 (enter (settle s))); [by unfold s1; kproj..|].
    by apply (on_cpu_enter p 0), on_cpu_settle. }
  assert (Hl1 : lock_held (L_proc p) s1).
  { exists name. unfold s1. kproj. by rewrite lookup_insert_eq. }
  pose proof Hs1 as (c1 & Hc1 & Hp1 & Hn1 & Hw1).
  rewrite (sched_ok p s1 c1 (set_p_state RUNNABLE pr)); [|done..| |done].
  2:{ unfold s1. kproj. by rewrite list_lookup_alter_eq, Hpr. }
  cbn [obind]. eexists s1, _. split; [reflexivity|]. split.
  { split; [by unfold s1; kproj|]. unfold s1 at 1 2 3 4. kproj. done. }
  split.
  { split; unfold s1; kproj; [done..|]. intros l Hne. by rewrite lookup_insert_ne. }
  intros s' [[Hc' Hl' Hst] Hsame]. cbn [obind].
  destruct (release_resumed p s' (c_intena c1) Hc' Hl') as (s2 & nm & E & Hc2 & Hh & Hps & Hlk & Hd).
  exists s2. split; [exact E|]. split; [|split; [done|split; [done|]]].
  2:{ split; [rewrite Hd; by kproj..|]. intros l Hne. by rewrite Hlk, lookup_insert_ne. }
  destruct (Hsame (set_p_state RUNNABLE pr)) as (pr' & Hpr' & _).
  { unfold s1. kproj. by rewrite list_lookup_alter_eq, Hpr. }
  split; [done| |].
  - exists nm. rewrite Hlk. apply lookup_insert_eq.
  - rewrite Hps, Hpr'. eauto.
Qed.

Lemma release_at_depth p n s l :
  on_cpu p (n + 1) s → 0 ≤ n → lock_held l s →
  ∃ name, s.(k_locks) !! l = Some (held_by name s.(k_hart)) ∧
    release l s = Done tt (leave (upd_lock l (unlocked name) s)) ∧
    on_cpu p n (leave (upd_lock l (unlocked name) s)).
Proof.
  intros (c & Hc & Hp & Hn & Hw1 & Hw2) Hn0 [name Hl]. exists name. split; [done|]. split.
  - apply (release_ok _ _ name c); [done|done|apply Hw2; lia|lia].
  - exists (cpu_leave c). split; [kproj; by rewrite list_lookup_alter_eq, Hc|].
    destruct c as [cp k ie sie]; simpl in *. unfold cpu_leave, cpu_wf; simpl.
    split; [done|]. split; [lia|]. split; [lia|]. intros Hk. rewrite Hw2 by lia.
    destruct (Z.eqb_spec (k - 1) 0); [lia|done].
Qed.

(** [sleep] gives up the cpu already marked SLEEPING on [ch], with [lk]
    released and [p->lock] still held, and comes back holding [lk]. *)
Lemma sleep_step p ch lk s :
  on_cpu p 1 s → lock_held lk s → lk ≠ L_proc p → lock_free (L_proc p) s →
  is_Some (s.(k_procs) !! p) →
  ∃ s1 k, sleep ch lk s = Swtch s1 k ∧
    at_switch p (set_p_state SLEEPING ∘ set_p_chan ch) s s1 ∧ lock_free lk s1 ∧ same_data s s1 ∧
    ∀ s', resume p s1 s' → lock_free lk s' →
      ∃ s2, k s' = Done tt s2 ∧ on_cpu p 1 s2 ∧ lock_held lk s2 ∧ lock_free (L_proc p) s2 ∧
        s2.(k_hart) = s'.(k_hart) ∧ s2.(k_procs) = alter (set_p_chan Ch_null) p s'.(k_procs) ∧
        same_data s' s2 ∧ ∀ l, l ≠ lk → l ≠ L_proc p → s2.(k_locks) !! l = s'.(k_locks) !! l.
Proof.
  intros Hcpu [lname Hlk] Hne [pname Hpl] [pr Hpr]. unfold sleep. mred.
  rewrite (curproc_ok p 1 s Hcpu). cbn [obind].
  rewrite (acquire_ok _ _ pname); [|by apply hart_wf_settle, (on_cpu_wf p 1)|by kproj]. mred.
  set (sa := upd_lock (L_proc p) _ _).
  assert (Ha : on_cpu p (1 + 1) sa).
  { apply (on_cpu_eq p 2 (enter (settle s))); [by unfold sa; kproj..|].
    by apply (on_cpu_enter p 1), on_cpu_settle. }
  assert (Hla : lock_held lk sa).
  { exists lname. unfold sa. kproj. by rewrite lookup_insert_ne. }
  destruct (release_at_depth p 1 sa lk Ha) as (lname' & Hlka & -> & Hb); [lia|done|]. mred.
  set (s1 := upd_proc p (set_p_state SLEEPING) _).
  assert (Hs1 : on_cpu p 1 s1) by (eapply on_cpu_eq; [..|exact Hb]; unfold s1; by kproj).
  assert (Hl1 : lock_held (L_proc p) s1).
  { exists pname. unfold s1, sa. kproj. rewrite lookup_insert_ne by done. by rewrite lookup_insert_eq. }
  assert (Hp1 : s1.(k_procs) !! p = Some (set_p_state SLEEPING (set_p_chan ch pr))).
  { unfold s1, sa. kproj. by rewrite list_lookup_alter_eq, list_lookup_alter_eq, Hpr. }
  pose proof Hs1 as (c1 & Hc1 & Hcp1 & Hn1 & Hw1).
  rewrite (sched_ok p s1 c1 _ Hc1 Hcp1 Hn1 Hw1 Hl1 Hp1) by done.
  cbn [obind]. eexists s1, _. split; [reflexivity|]. split.
  { split; [unfold s1, sa; kproj; by rewrite list_alter_alter|].
    unfold s1 at 1 2 3 4, sa at 1 2 3 4. kproj. done. }
  split; [exists lname'; unfold s1; kproj; apply lookup_insert_eq|].
  split; [unfold same_data, s1, sa; keq|].
  intros s' [[Hc' Hl' _] _] [lname2 Hlk']. cbn [obind]. cbv beta.
  change (upd_proc p (set_p_chan Ch_null) (upd_cpu (set_c_intena (c_intena c1)) s')) with
    (upd_cpu (set_c_intena (c_intena c1)) (upd_proc p (set_p_chan Ch_null) s')).
  destruct (release_resumed p (upd_proc p (set_p_chan Ch_null) s') (c_intena c1))
    as (s2 & nm & E & Hc2 & Hh & Hps & Hlks & Hd);
    [eapply on_cpu_eq; [..|exact Hc']; by kproj|destruct Hl' as [x Hx]; exists x; by kproj|].
  rewrite E. cbn [obind]. revert Hh Hps Hlks. kproj. intros Hh Hps Hlks.
  rewrite (acquire_ok _ _ lname2); [|by eapply on_cpu_wf|rewrite Hlks, lookup_insert_ne by done; done].
  eexists. split; [reflexivity|]. split_and!.
  - eapply on_cpu_eq; [..|by apply (on_cpu_enter p 0)]; by kproj.
  - exists lname2. kproj. by rewrite lookup_insert_eq.
  - exists nm. kproj. rewrite lookup_insert_ne by done. rewrite Hlks. apply lookup_insert_eq.
  - by kproj.
  - by kproj.
  - unfold same_data in *. rewrite Hd. keq.
  - intros l Hl1' Hl2'. kproj. by rewrite lookup_insert_ne, Hlks, lookup_insert_ne.
Qed.

(** Read the fields of an entry known to be [Hpr]. *)
Ltac pread Hpr := repeat (mred; rewrite Hpr; cbn [obind]); mred.

(** ** Loops over the process table *)

(** Visits that update one entry each, with the lock of the entry held, update
    the whole table. *)
Lemma for_procs_range (visit : nat → M kstate unit) (g : nat → proc → proc)
    (Inv : kstate → Prop) (n k : nat) s :
  (∀ i s, (i < k + n)%nat → Inv s → visit i s = Done tt (settle (upd_proc i (g i) s))) →
  (∀ i s, Inv s → Inv (settle (upd_proc i (g i) s))) → Inv s → (0 < n)%nat →
  for_each (seq k n) visit s =
    Done tt (settle (set_k_procs
      (imap (λ i pr, if decide (k ≤ i < k + n)%nat then g i pr else pr) s.(k_procs)) s)).
Proof.
  revert k s. induction n as [|n IH]; intros k s Hv Hinv Hs Hn; [lia|].
  cbn [seq for_each]. mred. rewrite Hv by (done || lia). cbn [obind].
  destruct n as [|n].
  - cbn [seq for_each]. mred. done_eq. apply list_eq. intros i.
    rewrite list_lookup_imap, list_lookup_alter.
    destruct (decide (k = i)) as [->|Hne]; destruct (s.(k_procs) !! i); simpl; try done.
    + by rewrite decide_True by lia.
    + by rewrite decide_False by lia.
  - rewrite IH; [|intros i s' Hi; apply Hv; lia|done|by apply Hinv|lia].
    done_eq; [apply settle_cpus_idemp|].
    apply list_eq. intros i. rewrite !list_lookup_imap, list_lookup_alter.
    destruct (decide (k = i)) as [->|Hne]; destruct (s.(k_procs) !! i); simpl; try done.
    + rewrite decide_False by lia. by rewrite decide_True by lia.
    + destruct (decide (S k ≤ i < _)%nat); destruct (decide (k ≤ i < _)%nat); done || lia.
Qed.

Lemma for_procs (visit : nat → M kstate unit) (g : nat → proc → proc) (Inv : kstate → Prop) s :
  (∀ i s, (i < NPROC)%nat → Inv s → visit i s = Done tt (settle (upd_proc i (g i) s))) →
  (∀ i s, Inv s → Inv (settle (upd_proc i (g i) s))) → Inv s → length s.(k_procs) = NPROC →
  for_each proc_table visit s = Done tt (settle (set_k_procs (imap g s.(k_procs)) s)).
Proof.
  intros Hv Hinv Hs Hlen. unfold proc_table.
  rewrite (for_procs_range visit g Inv) by (done || unfold NPROC; lia).
  do 3 f_equal. apply list_eq. intros i. rewrite !list_lookup_imap.
  destruct (s.(k_procs) !! i) eqn:E; [|done]. simpl.
  apply lookup_lt_Some in E. rewrite Hlen in E. by rewrite decide_True by lia.
Qed.

(** [wakeup] and [reparent] are called with no process lock held; the lock of
    the calling process is not touched. *)
Record procs_free (me : option nat) (s : kstate) : Prop := {
  pf_cpu : ∃ c, s.(k_cpus) !! s.(k_hart) = Some c ∧ c.(c_proc) = me ∧ cpu_wf c;
  pf_locks i : (i < NPROC)%nat → me ≠ Some i → lock_free (L_proc i) s;
  pf_len : length s.(k_procs) = NPROC
}.

Lemma procs_free_upd me i f s : procs_free me s → procs_free me (settle (upd_proc i f s)).
Proof.
  intros [(c & Hc & Hp & Hwf) Hl Hlen]. split.
  - exists (cpu_settle c). split; [kproj; by rewrite list_lookup_alter_eq, Hc|].
    split; [|by apply cpu_wf_settle]. unfold cpu_settle. by destruct (c_noff c =? 0).
  - intros j Hj Hne. destruct (Hl j Hj Hne) as [n Hn]. exists n. by kproj.
  - kproj. by rewrite length_alter.
Qed.

Lemma procs_free_hart_wf me s : procs_free me s → hart_wf s.
Proof. intros [(c & Hc & _ & Hwf) _ _]. by exists c. Qed.

(** What [wakeup ch] does to the entry [i]. *)
Definition woken (me : option nat) (ch : chan) (i : nat) (pr : proc) : proc :=
  if decide (me ≠ Some i ∧ pr.(p_state) = SLEEPING ∧ pr.(p_chan) = ch)
  then set_p_state RUNNABLE pr else pr.

Lemma alter_id_lookup {A} (f : A → A) (l : list A) i x :
  l !! i = Some x → f x = x → alter f i l = l.
Proof. intros Hx Hf. apply list_alter_same. intros y Hy. by simplify_eq. Qed.

Lemma wakeup_visit_ok me ch i s :
  procs_free me s → (i < NPROC)%nat →
  wakeup_visit ch i s = Done tt (settle (upd_proc i (woken me ch i) s)).
Proof.
  intros Hpf Hi. pose proof Hpf as [(c & Hc & Hp & Hwf) Hl Hlen].
  destruct (lookup_lt_is_Some_2 s.(k_procs) i) as [pr Hpr]; [by rewrite Hlen|].
  unfold wakeup_visit. mred. rewrite (myproc_ok _ _ Hc Hwf), Hp. cbn [obind].
  destruct (decide (me = Some i)) as [E|E].
  { mred. done_eq. symmetry. eapply alter_id_lookup; [done|]. unfold woken.
    rewrite decide_False by tauto. done. }
  destruct (Hl i Hi E) as [name Hln].
  rewrite (acquire_ok _ _ name); [|by apply hart_wf_settle, (procs_free_hart_wf me)|by kproj].
  pread Hpr. unfold woken. destruct (decide (p_state pr = SLEEPING ∧ p_chan pr = ch)) as [Hd|Hd]; mred.
  - rewrite (release_bracket (settle (upd_proc i (set_p_state RUNNABLE) s)) _ _ name);
      [|by apply hart_wf_settle; destruct Hpf as [(x & Hx & _ & Hw) _ _]; exists x; kproj
       |by kproj..].
    done_eq; [apply settle_cpus_idemp|].
    apply list_alter_agree. intros x Hx. simplify_eq. by rewrite decide_True.
  - rewrite (release_bracket (settle s) _ _ name);
      [|by apply hart_wf_settle, (procs_free_hart_wf me)|by kproj..].
    done_eq; [apply settle_cpus_idemp|].
    symmetry. eapply alter_id_lookup; [done|]. by rewrite decide_False by tauto.
Qed.

Lemma wakeup_ok me ch s :
  procs_free me s →
  wakeup ch s = Done tt (settle (set_k_procs (imap (woken me ch) s.(k_procs)) s)).
Proof.
  intros Hpf. unfold wakeup. apply (for_procs _ _ (procs_free me)); [|by intros; apply procs_free_upd|done|apply Hpf].
  intros i s' Hi Hs'. by apply wakeup_visit_ok.
Qed.

(** ** [kill] *)

Definition kill_victim (pr : proc) : proc :=
  let pr := set_p_killed 1 pr in
  if decide (pr.(p_state) = SLEEPING) then set_p_state RUNNABLE pr else pr.

Record all_free (s : kstate) : Prop := {
  af_wf : hart_wf s;
  af_locks i : (i < NPROC)%nat → lock_free (L_proc i) s;
  af_len : length s.(k_procs) = NPROC
}.

Lemma all_free_settle s : all_free s → all_free (settle s).
Proof. intros [H1 H2 H3]. split; [by apply hart_wf_settle|done..]. Qed.

Lemma kill_visit_ok pid k pr s :
  all_free s → (k < NPROC)%nat → s.(k_procs) !! k = Some pr →
  kill_visit pid k s =
    if pr.(p_pid) =? pid then Done (Some tt) (settle (upd_proc k kill_victim s))
    else Done None (settle s).
Proof.
  intros Hf Hk Hpr. destruct (af_locks _ Hf k) as [name Hl]; [lia|].
  unfold kill_visit. mred. rewrite (acquire_ok _ _ name) by (done || apply Hf). pread Hpr.
  destruct (Z.eqb_spec (p_pid pr) pid) as [E|E]; mred.
  2:{ rewrite (release_bracket s _ _ name); [|apply Hf|by kproj..]. cbn [obind]. done_eq. }
  rewrite list_lookup_alter_eq, Hpr. cbn [obind fmap option_fmap option_map].
  change (p_state (set_p_killed 1 pr)) with (p_state pr).
  assert (Hvic : ∀ f, f (set_p_killed 1 pr) = kill_victim pr →
    alter f k (alter (set_p_killed 1) k (k_procs s)) = alter kill_victim k (k_procs s)).
  { intros f Hfv. rewrite list_alter_alter. apply list_alter_agree. intros x Hx. by simplify_eq. }
  assert (Hwf : hart_wf (upd_proc k kill_victim s))
    by (destruct (af_wf _ Hf) as (x & Hx & Hw); exists x; by kproj).
  destruct (decide (p_state pr = SLEEPING)) as [Hs|Hs]; mred;
    rewrite (release_bracket (upd_proc k kill_victim s) _ _ name) by (done || by kproj);
    cbn [obind]; done_eq.
  - apply Hvic. unfold kill_victim. simpl. by rewrite decide_True.
  - rewrite <-(Hvic id); [by rewrite list_alter_alter|]. unfold kill_victim. simpl.
    by rewrite decide_False.
Qed.

Lemma kill_loop pid (n k : nat) s :
  all_free s → (k + n = NPROC)%nat →
  (∀ j pr, (j < k)%nat → s.(k_procs) !! j = Some pr → pr.(p_pid) ≠ pid) →
  for_find (seq k n) (kill_visit pid) s =
  match list_find (λ pr, pr.(p_pid) = pid) s.(k_procs) with
  | Some (j, _) => Done (Some tt) (settle (upd_proc j kill_victim s))
  | None => Done None (if decide (n = 0%nat) then s else settle s)
  end.
Proof.
  revert k s. induction n as [|n IH]; intros k s Hf Hk Hbefore.
  { assert (list_find (λ pr, p_pid pr = pid) (k_procs s) = None) as ->; [|done].
    apply list_find_None, Forall_lookup_2. intros j pr Hj.
    apply (Hbefore j); [|done]. apply lookup_lt_Some in Hj. rewrite (af_len _ Hf) in Hj. lia. }
  destruct (lookup_lt_is_Some_2 s.(k_procs) k) as [pr Hpr]; [rewrite (af_len _ Hf); lia|].
  cbn [seq for_find]. mred. rewrite (kill_visit_ok _ _ pr) by (done || lia).
  destruct (Z.eqb_spec (p_pid pr) pid) as [E|E]; cbn [obind].
  - assert (list_find (λ pr, p_pid pr = pid) (k_procs s) = Some (k, pr)) as ->; [|done].
    apply list_find_Some. split; [done|]. split; [done|]. intros j y Hj Hlt. by apply (Hbefore j).
  - rewrite IH; [|by apply all_free_settle|lia|].
    + kproj. destruct (list_find _ _) as [[j y]|].
      * done_eq. apply settle_cpus_idemp.
      * rewrite (decide_False (P:=S n = 0%nat)) by lia. destruct (decide (n = 0%nat)); [done|].
        done_eq. apply settle_cpus_idemp.
    + intros j y Hj. kproj. intros Hy. destruct (decide (j = k)) as [->|]; [congruence|].
      apply (Hbefore j); [lia|done].
Qed.

Lemma kill_ok pid s :
  all_free s →
  kill pid s =
    match list_find (λ pr, pr.(p_pid) = pid) s.(k_procs) with
    | Some (j, _) => Done 0 (settle (upd_proc j kill_victim s))
    | None => Done (-1) (settle s)
    end.
Proof.
  intros Hf. unfold kill. mred. unfold proc_table.
  rewrite (kill_loop pid NPROC 0) by (done || lia).
  by destruct (list_find _ _) as [[j y]|].
Qed.

(** ** The scheduler *)

(** [p] may be chosen by hart [h]. *)
Definition eligible (h : nat) (pr : proc) : Prop :=
  (pr.(p_cpu_affinity) = -1 ∨ pr.(p_cpu_affinity) = Z.of_nat h) ∧ pr.(p_state) = RUNNABLE.

#[global] Instance eligible_dec h pr : Decision (eligible h pr).
Proof. unfold eligible. apply _. Defined.

(** C33: The scheduler's choice.  A visit of [scheduler] to process [p] on hart
    [h] switches exactly when [p] is RUNNABLE and its cpu affinity is -1 or
    [h]; it then hands over in a state that satisfies what [yield] and [sleep]
    rely on ([resume]), and unlocks the process when it comes back.  Otherwise
    it changes nothing. *)
Theorem scheduler_visit_spec h p s pr c :
  s.(k_hart) = h → s.(k_cpus) !! h = Some c → c.(c_noff) = 0 → lock_free (L_proc p) s →
  s.(k_procs) !! p = Some pr →
  if decide (eligible h pr) then
    ∃ s1 k, scheduler_visit h p s = Swtch s1 k ∧ resume p s s1 ∧
      s1.(k_hart) = h ∧ s1.(k_procs) = alter (set_p_state RUNNING) p s.(k_procs) ∧
      s1.(k_mem) = s.(k_mem) ∧
      ∀ s' q, s'.(k_hart) = h → on_cpu q 1 s' → lock_held (L_proc p) s' →
        ∃ s2, k s' = Done tt s2 ∧ lock_free (L_proc p) s2 ∧ s2.(k_procs) = s'.(k_procs)
  else scheduler_visit h p s = Done tt (settle s).
Proof.
  intros Hh Hc Hn [name Hl] Hpr. subst h.
  assert (Hwf : hart_wf s) by (exists c; split; [done|split; lia]).
  unfold scheduler_visit. mred. rewrite (acquire_ok _ _ name) by done. pread Hpr.
  assert (Hrel : release (L_proc p)
      (upd_lock (L_proc p) (held_by name (k_hart s)) (enter s)) = Done tt (settle s)).
  { rewrite (release_bracket s _ _ name) by (done || by kproj). done_eq. }
  destruct (decide (eligible (k_hart s) pr)) as [[Haff Hst]|Hne].
  - assert (negb (p_cpu_affinity pr =? -1) && negb (p_cpu_affinity pr =? Z.of_nat (k_hart s)) = false) as ->.
    { apply andb_false_iff. destruct Haff as [->| ->]; [by left|right]. by rewrite Z.eqb_refl. }
    pread Hpr. rewrite decide_True by done. unfold swtch. cbn [obind]. eexists _, _. split; [reflexivity|].
    assert (Hon : on_cpu p 1 (upd_cpu (set_c_proc (Some p)) (enter s))).
    { exists (set_c_proc (Some p) (cpu_enter c)). split; [kproj; by rewrite !list_lookup_alter_eq, Hc|].
      simpl. split; [done|]. split; [lia|]. split; simpl; lia || done. }
    split; [|split; [by kproj|split; [by kproj|split; [by kproj|]]]].
    + split; [split|].
      * eapply on_cpu_eq; [..|exact Hon]; by kproj.
      * exists name. kproj. apply lookup_insert_eq.
      * intros pr1. kproj. rewrite list_lookup_alter_eq, Hpr. simpl. intros [= <-]. done.
      * intros pr1 Hpr1. kproj. simplify_eq. rewrite list_lookup_alter_eq, Hpr. simpl. eauto 10.
    + intros s' q Hh' (c' & Hc' & Hq & Hn' & Hw') [nm Hl']. cbn [obind].
      rewrite (release_ok _ _ nm (set_c_proc None c')); [|by kproj| | |].
      * eexists. split; [reflexivity|]. split; [|by kproj]. exists nm. kproj. apply lookup_insert_eq.
      * kproj. by rewrite list_lookup_alter_eq, Hc'.
      * destruct Hw' as [_ Hw']. apply Hw'. lia.
      * simpl. lia.
  - destruct (negb (p_cpu_affinity pr =? -1) && negb (p_cpu_affinity pr =? Z.of_nat (k_hart s))) eqn:Ea; [done|].
    pread Hpr. rewrite decide_False; [mred; apply Hrel|].
    intros Hst. apply Hne. split; [|done]. apply andb_false_iff in Ea as [Ea|Ea];
      apply negb_false_iff, Z.eqb_eq in Ea; auto.
Qed.

(** ** No lost wakeup, and [kill] *)


(** [kill].  With no process lock held, [kill pid] fails with -1 and no
    effect when no process has this pid; otherwise it returns 0 and changes
    only the first process with that pid, which is marked killed and, if it was
    SLEEPING, made RUNNABLE so that it notices. *)
Theorem kill_spec pid s :
  all_free s →
  (∃ i pr, s.(k_procs) !! i = Some pr ∧ pr.(p_pid) = pid ∧
     (∀ j pr', s.(k_procs) !! j = Some pr' → (j < i)%nat → pr'.(p_pid) ≠ pid) ∧
     kill pid s = Done 0 (settle (upd_proc i (λ _,
       set_p_state (if decide (pr.(p_state) = SLEEPING) then RUNNABLE else pr.(p_state))
         (set_p_killed 1 pr)) s))) ∨
  ((∀ i pr, s.(k_procs) !! i = Some pr → pr.(p_pid) ≠ pid) ∧ kill pid s = Done (-1) (settle s)).
Proof.
  intros Hf. rewrite (kill_ok pid s Hf).
  destruct (list_find _ _) as [[i pr]|] eqn:E; [left|right].
  - apply list_find_Some in E as (Hi & Hp & Hmin). exists i, pr. split; [done|]. split; [done|].
    split; [done|]. done_eq. apply list_alter_agree. intros x Hx. simplify_eq.
    unfold kill_victim. simpl. case_decide; by destruct pr.
  - split; [|done]. apply list_find_None in E. rewrite Forall_lookup in E. eauto.
Qed.

End ProcFacts.

(** ** Witnesses *)

(** Hart 0 runs process 3 at nesting depth [n] and holds the given locks. *)
Definition kstate_run (n : Z) (ls : list lockid) : kstate :=
  set_k_locks (foldr (λ l, <[l:=held_by "" 0]>) kstate0.(k_locks) ls)
    (upd_proc 3 (set_p_cpu_affinity (-1) ∘ set_p_pid 7 ∘ set_p_state RUNNING)
      (upd_cpu (λ _, mk_cpu (Some 3%nat) n true false) kstate0)).

Lemma kstate_run_cpu n ls : 0 ≤ n → on_cpu 3 n (kstate_run n ls).
Proof.
  intros Hn. exists (mk_cpu (Some 3%nat) n true false). split; [done|]. split; [done|].
  split; [done|]. split; simpl; [lia|done].
Qed.


Lemma kstate_run_all_free : all_free (kstate_run 0 []).
Proof.
  split.
  - eapply on_cpu_wf, (kstate_run_cpu 0). done.
  - intros i Hi. exists "proc". revert i Hi. unfold NPROC.
    change (∀ i, (i < 64)%nat → k_locks kstate0 !! L_proc i = Some (unlocked "proc")).
    intros i Hi. do 64 (destruct i as [|i]; [by vm_compute|]). lia.
  - by vm_compute.
Qed.

Lemma kill_spec_witness : ∃ s', kill 7 (kstate_run 0 []) = Done 0 s'.
Proof.
  destruct (kill_spec 7 (kstate_run 0 []) kstate_run_all_free) as [(i & pr & _ & _ & _ & E)|[H _]].
  - eexists. exact E.
  - exfalso. apply (H 3%nat (set_p_cpu_affinity (-1) (set_p_pid 7 (set_p_state RUNNING proc0)))); by vm_compute.
Defined.

(** A RUNNABLE process bound to hart 0. *)
Definition kstate_sched : kstate :=
  upd_proc 3 (set_p_cpu_affinity 0 ∘ set_p_state RUNNABLE) kstate0.

Lemma scheduler_visit_spec_witness :
  ∃ s1 k, scheduler_visit 0 3 kstate_sched = Swtch s1 k ∧ resume 3 kstate_sched s1.
Proof.
  pose proof (scheduler_visit_spec 0 3 kstate_sched
    (set_p_cpu_affinity 0 (set_p_state RUNNABLE proc0)) cpu0) as H.
  rewrite decide_True in H by (split; [by right|done]).
  destruct H as (s1 & k & E & Hr & _).
  - done.
  - by vm_compute.
  - done.
  - exists "proc". by vm_compute.
  - by vm_compute.
  - exists s1, k. split; [exact E|exact Hr].
Defined.
