(* ===== verification/Rcu.v ===== *)
(** * Read-copy-update ([kernel/rcu.c], and the RCU calls of [kernel/sysproc.c])

    A reader disables preemption with [push_off]; a writer waits for a grace
    period by running once on every cpu.  The first part models the code and
    shows where [synchronize_rcu] runs.  [Module Grace] is the argument that
    this is enough: a transition system of harts, reader sections and the
    scheduler, whose guards are what the first part and [ProcFacts] prove of
    the code, with the grace-period property of all its runs. *)

From S2P Require Import Prelude State Spinlock Cstring Riscv Kalloc Vm Proc ProcFacts.

Section Rcu.
Context {HK : KernelImage}.

Definition rcu_read_unlock : M kstate unit := pop_off.

Definition rcu_read_lock : M kstate unit := push_off.

(** The loop [while (i < n) { p->cpu_affinity = i++; yield(); }] and the reset
    after it. *)
Definition sync_on_cpus (p n : nat) : M kstate unit :=
  for_each (seq 0 n) (λ i,
    proc_set p (set_p_cpu_affinity (Z.of_nat i));;
    yield);;
  proc_set p (set_p_cpu_affinity (-1)).

Definition synchronize_rcu : M kstate unit :=
  p ← curproc;
  sync_on_cpus p 3.

(** ** The system calls *)

Definition sys_rcureadlock : M kstate Z := push_off;; mret 1.

Definition sys_rcureadunlock : M kstate Z := pop_off;; mret 1.

Definition sys_rcusync : M kstate Z :=
  p ← curproc;
  sync_on_cpus p 2;;
  printf "\n RCU sync done!" [];;
  mret 1.

(** ** Where the writer runs *)

Lemma running_set_affinity p a s :
  running p s → running p (upd_proc p (set_p_cpu_affinity a) s).
Proof.
  intros [Hc [n Hl] [pr Hpr]]. split.
  - eapply on_cpu_eq; [..|exact Hc]; by kproj.
  - exists n. by kproj.
  - kproj. rewrite list_lookup_alter_eq, Hpr. simpl. eauto.
Qed.

Lemma running_settle p s : running p s → running p (settle s).
Proof.
  intros [Hc [n Hl] Hpr]. split; [by apply on_cpu_settle|exists n; by kproj|by kproj].
Qed.

(** Each iteration comes back on the cpu it asked for.  [I] is any property of
    the rest of the state that the machine keeps while the writer is off the
    cpu. *)
Lemma sync_loop (I : kstate → kstate → Prop) p (n k : nat) s h Q :
  (∀ x y, kept p x y → I x y) → (∀ x y z, I x y → I y z → I x z) →
  running p s →
  (∀ s' hs, running p s' → k_hart <$> hs = seq k n → Forall (resumed p) hs → I s s' →
    Q tt s' (h ++ hs)) →
  howp (λ x y, resume p x y ∧ I x y) (for_each (seq k n) (λ i,
    proc_set p (set_p_cpu_affinity (Z.of_nat i));; yield) s) h Q.
Proof.
  intros HI HIt. revert k s h. induction n as [|n IH]; intros k s h Hrun HQ; cbn [seq for_each].
  { mred. simpl. rewrite <-(app_nil_r h). apply HQ; [done..|by apply HI]. }
  mred. apply howp_bind.
  destruct (yield_step p (upd_proc p (set_p_cpu_affinity (Z.of_nat k)) s))
    as (s1 & ky & E & (Hps & _) & Hkept & Hk); [by apply running_set_affinity|].
  rewrite E. simpl. intros s' [Hres HI1].
  destruct (Hk s' Hres) as (s2 & -> & Hrun2 & Hh & _ & Hkept2).
  simpl. apply IH; [done|]. intros s'' hs Hrun'' Hharts Hrest HI2.
  rewrite <-app_assoc. apply (HQ s'' (s' :: hs)); [done| |by constructor; [apply Hres|]|].
  - rewrite fmap_cons, Hharts. cbn [seq]. f_equal. destruct Hrun as [_ _ [pr Hpr]].
    destruct (rs_same _ _ _ Hres (set_p_state RUNNABLE (set_p_cpu_affinity (Z.of_nat k) pr)))
      as (pr' & Hpr' & Haff & _).
    { rewrite Hps. kproj. by rewrite !list_lookup_alter_eq, Hpr. }
    destruct (res_state _ _ (rs_resumed _ _ _ Hres) pr' Hpr') as [_ Haff'].
    simpl in Haff. rewrite Haff in Haff'. destruct Haff'; lia.
  - apply (HIt _ s2); [|done]. apply (HIt _ s'); [|by apply HI]. apply (HIt _ s1); [|done].
    apply HI. etrans; [|exact Hkept]. by split; kproj.
Qed.

Definition affinity_reset (p : nat) (s : kstate) : Prop :=
  ∀ pr, s.(k_procs) !! p = Some pr → pr.(p_cpu_affinity) = -1.

Lemma sync_on_cpus_ok (I : kstate → kstate → Prop) p n s :
  (∀ x y, kept p x y → I x y) → (∀ x y z, I x y → I y z → I x z) →
  running p s →
  howp (λ x y, resume p x y ∧ I x y) (sync_on_cpus p n s) [] (λ _ s' hs,
    k_hart <$> hs = seq 0 n ∧ Forall (resumed p) hs ∧ running p s' ∧ affinity_reset p s' ∧ I s s').
Proof.
  intros HI HIt Hrun. unfold sync_on_cpus. mred. apply howp_bind. apply sync_loop; [done..|].
  intros s' hs Hrun' Hharts Hall HI'. simpl. split; [done|]. split; [done|].
  split; [by apply running_set_affinity|]. split.
  - intros pr. kproj. rewrite list_lookup_alter_eq. by intros (x & _ & ->)%fmap_Some.
  - apply (HIt _ s'); [done|]. apply HI. by split; kproj.
Qed.

Lemma howp_rely (R R' : kstate → kstate → Prop) {A} (o : outcome kstate A) h Q :
  howp R o h Q → (∀ s s', R' s s' → R s s') → howp R' o h Q.
Proof.
  intros H HR. revert h H. induction o as [a s| | | | |s k IH]; intros h H; simpl in *; try done.
  intros s' HR'. apply IH, H, HR, HR'.
Qed.

(** C13: [synchronize_rcu] runs on cpus 0, 1 and 2.  Whatever the rest of the
    machine does between the switches (within what the scheduler guarantees),
    a call by a process outside critical sections returns; on the way it is
    resumed exactly three times, on hart 0, then 1, then 2, each time with
    no lock but its own held, and in the end its affinity is reset. *)
Theorem synchronize_rcu_visits p s :
  running p s →
  howp (resume p) (synchronize_rcu s) [] (λ _ s' hs,
    k_hart <$> hs = [0; 1; 2]%nat ∧ Forall (resumed p) hs ∧ running p s' ∧ affinity_reset p s').
Proof.
  intros Hrun. unfold synchronize_rcu. mred.
  rewrite (curproc_ok p 0) by apply Hrun. cbn [obind].
  eapply howp_rely; [eapply howp_mono|].
  - apply (sync_on_cpus_ok (λ _ _, True)); [done..|by apply running_settle].
  - intros [] s' hs (Hh & Hr & Hrun' & Ha & _). done.
  - done.
Qed.

(** The system call [rcusync] runs on cpus 0 and 1 only: a reader on the
    third cpu that the repository's [Makefile] configures is not waited for
    ([Module Grace] has the run that shows it). *)
Theorem sys_rcusync_visits p s :
  running p s →
  howp (resume p) (sys_rcusync s) [] (λ r s' hs,
    r = 1 ∧ k_hart <$> hs = [0; 1]%nat ∧ running p s' ∧ affinity_reset p s').
Proof.
  intros Hrun. unfold sys_rcusync. mred.
  rewrite (curproc_ok p 0) by apply Hrun. cbn [obind]. apply howp_bind.
  eapply howp_rely; [eapply howp_mono; [by apply (sync_on_cpus_ok (λ _ _, True)), running_settle|]|done].
  intros [] s' hs (Hh & _ & Hr & Ha & _). simpl. split; [done|]. split; [done|]. split; [|exact Ha].
  destruct Hr as [Hc [nm Hl] Hp]. split; [eapply on_cpu_eq; [..|exact Hc]; by kproj|exists nm; by kproj|by kproj].
Qed.

(** C34: A reader cannot be preempted.  Inside [rcu_read_lock] the interrupts of
    the hart are off and the nesting depth is positive, so that with any lock
    of its own held on top [sched] panics instead of switching away. *)
Theorem rcu_reader_not_preemptible p s :
  running p s →
  ∃ s1, rcu_read_lock s = Done tt s1 ∧ on_cpu p 1 s1 ∧
    (∀ c, s1.(k_cpus) !! s1.(k_hart) = Some c → c.(c_sie) = false) ∧
    yield s1 = Panic "sched locks" (upd_proc p (set_p_state RUNNABLE)
      (final_state (acquire (L_proc p) (settle s1)))) ∧
    (∃ s2, rcu_read_unlock s1 = Done tt s2 ∧ s2 = settle s).
Proof.
  intros [Hcpu [name Hl] [pr Hpr]]. pose proof Hcpu as (c & Hc & Hp & Hn & Hw).
  exists (enter s). unfold rcu_read_lock. split; [by apply (push_off_ok _ c)|].
  assert (Hon : on_cpu p 1 (enter s)) by by apply (on_cpu_enter p 0).
  split; [done|]. split.
  { intros c'. kproj. rewrite list_lookup_alter_eq, Hc. simpl. by intros [= <-]. }
  split.
  - unfold yield. mred. rewrite (curproc_ok p 1 _ Hon). cbn [obind].
    rewrite (acquire_ok _ _ name); [|by eapply hart_wf_settle, on_cpu_wf|by kproj]. mred.
    cbn [final_state].
    set (s3 := upd_proc p _ _). assert (Hs3 : on_cpu p 2 s3).
    { apply (on_cpu_eq p 2 (enter (settle (enter s)))); [by unfold s3; kproj..|].
      by apply (on_cpu_enter p 1), on_cpu_settle. }
    destruct Hs3 as (c3 & Hc3 & Hp3 & Hn3 & Hw3).
    rewrite (sched_nested p s3 c3) by (done || lia || (exists name; unfold s3; kproj; apply lookup_insert_eq)).
    done.
  - unfold rcu_read_unlock. destruct Hon as (c1 & Hc1 & _ & Hn1 & [Hw1 Hw2]).
    rewrite (pop_off_ok _ c1) by (done || lia || (apply Hw2; lia)).
    eexists. split; [reflexivity|]. apply leave_enter. by exists c.
Qed.

End Rcu.

(** ** Witnesses: process 3 of [ProcFacts], outside critical sections *)

Lemma kstate_run_running : running 3 (kstate_run 0 []).
Proof.
  split; [by apply kstate_run_cpu|exists "proc"; by vm_compute|eexists; by vm_compute].
Qed.

Lemma synchronize_rcu_visits_witness :
  running 3 (kstate_run 0 []) ∧
  howp (resume 3) (synchronize_rcu (kstate_run 0 [])) [] (λ _ s' hs,
    k_hart <$> hs = [0; 1; 2]%nat ∧ Forall (resumed 3) hs ∧ running 3 s' ∧ affinity_reset 3 s').
Proof.
  split; [exact kstate_run_running|].
  exact (synchronize_rcu_visits 3 (kstate_run 0 []) kstate_run_running).
Defined.

Lemma sys_rcusync_visits_witness :
  howp (resume 3) (sys_rcusync (kstate_run 0 [])) [] (λ r s' hs,
    r = 1 ∧ k_hart <$> hs = [0; 1]%nat ∧ running 3 s' ∧ affinity_reset 3 s').
Proof. exact (sys_rcusync_visits 3 (kstate_run 0 []) kstate_run_running). Defined.

Lemma rcu_reader_not_preemptible_witness :
  ∃ s1, rcu_read_lock (kstate_run 0 []) = Done tt s1 ∧ on_cpu 3 1 s1.
Proof.
  destruct (rcu_reader_not_preemptible 3 (kstate_run 0 []) kstate_run_running) as (s1 & E & H & _).
  exists s1. split; [exact E|exact H].
Defined.

(** * Grace periods *)

Module Grace.

(** The process that calls [synchronize_rcu]; other numbers are other
    processes, which may be readers. *)
Definition writer : nat := 0.

(** Where the writer is in [while (i < n) { p->cpu_affinity = i++; yield(); }]. *)
Inductive wpc : Type :=
| W_out            (** outside the call *)
| W_set (i : nat)  (** at the test [i < n] *)
| W_yield (i : nat) (** affinity set to [i], about to call [yield] *)
| W_back (i : nat). (** inside [yield] *)

Record gsys : Type := mk_gsys {
  g_harts : nat;               (** number of harts *)
  g_cur : nat → option nat;    (** the process each hart runs *)
  g_noff : nat → nat;          (** nesting depth of reader sections on each hart *)
  g_aff : option nat;          (** the writer's cpu affinity *)
  g_pc : wpc;
  g_old : nat → bool           (** ghost: the section that was open on this hart when the
                                   writer called [synchronize_rcu] is still open *)
}.

Definition upd {A} (f : nat → A) (k : nat) (v : A) : nat → A :=
  λ x, if decide (x = k) then v else f x.

Inductive gevent : Type :=
| Read_lock (h : nat)      (** the process on [h] calls [rcu_read_lock] *)
| Read_unlock (h : nat)    (** ... or [rcu_read_unlock] *)
| Leave (h : nat)          (** ... is preempted, sleeps or yields *)
| Pick (h p : nat)         (** the scheduler of [h] switches to [p] *)
| Sync_start (h : nat)     (** the writer calls [synchronize_rcu] *)
| Sync_step (h : nat).     (** the writer makes a step in it *)

Definition in_sync (s : gsys) : bool := match s.(g_pc) with W_out => false | _ => true end.

(** A step of the system, if its guard holds.  The guards: a hart that runs a
    process inside a reader section does not leave it (interrupts are off and
    [sched] panics at depth other than 1); the scheduler only picks a process
    that is not running and whose affinity allows the hart. *)
Definition gstep (n : nat) (e : gevent) (s : gsys) : option gsys :=
  match e with
  | Read_lock h =>
      if decide (h < s.(g_harts))%nat then
      match s.(g_cur) h with
      | Some p =>
          if bool_decide (p = writer) && in_sync s then None else
          Some (mk_gsys s.(g_harts) s.(g_cur) (upd s.(g_noff) h (S (s.(g_noff) h)))
                  s.(g_aff) s.(g_pc) s.(g_old))
      | None => None
      end else None
  | Read_unlock h =>
      match s.(g_cur) h, s.(g_noff) h with
      | Some p, S k =>
          Some (mk_gsys s.(g_harts) s.(g_cur) (upd s.(g_noff) h k) s.(g_aff) s.(g_pc)
                  (if decide (k = 0%nat) then upd s.(g_old) h false else s.(g_old)))
      | _, _ => None
      end
  | Leave h =>
      match s.(g_cur) h, s.(g_noff) h with
      | Some p, O =>
          Some (mk_gsys s.(g_harts) (upd s.(g_cur) h None) s.(g_noff) s.(g_aff) s.(g_pc) s.(g_old))
      | _, _ => None
      end
  | Pick h p =>
      if decide (h < s.(g_harts))%nat then
      if existsb (λ h', bool_decide (s.(g_cur) h' = Some p)) (seq 0 s.(g_harts)) then None else
      match s.(g_cur) h with
      | Some _ => None
      | None =>
          if bool_decide (p = writer) && negb (bool_decide (s.(g_aff) = None ∨ s.(g_aff) = Some h))
          then None
          else Some (mk_gsys s.(g_harts) (upd s.(g_cur) h (Some p)) s.(g_noff) s.(g_aff) s.(g_pc)
                       s.(g_old))
      end else None
  | Sync_start h =>
      match s.(g_cur) h, s.(g_noff) h, s.(g_pc) with
      | Some p, O, W_out =>
          if decide (p = writer) then
          Some (mk_gsys s.(g_harts) s.(g_cur) s.(g_noff) s.(g_aff) (W_set 0)
                  (λ h, negb (s.(g_noff) h =? 0)%nat))
          else None
      | _, _, _ => None
      end
  | Sync_step h =>
      if decide (s.(g_cur) h = Some writer) then
      match s.(g_pc) with
      | W_out => None
      | W_set i =>
          if decide (i < n)%nat
          then Some (mk_gsys s.(g_harts) s.(g_cur) s.(g_noff) (Some i) (W_yield i) s.(g_old))
          else Some (mk_gsys s.(g_harts) s.(g_cur) s.(g_noff) None W_out s.(g_old))
      | W_yield i =>
          Some (mk_gsys s.(g_harts) (upd s.(g_cur) h None) s.(g_noff) s.(g_aff) (W_back i) s.(g_old))
      | W_back i =>
          Some (mk_gsys s.(g_harts) s.(g_cur) s.(g_noff) s.(g_aff) (W_set (S i)) s.(g_old))
      end
      else None
  end.

Definition gstart (harts : nat) : gsys :=
  mk_gsys harts (λ _, None) (λ _, 0%nat) None W_out (λ _, false).

Fixpoint grun (n : nat) (es : list gevent) (s : gsys) : option gsys :=
  match es with
  | [] => Some s
  | e :: es => s' ← gstep n e s; grun n es s'
  end.

(** ** The invariant *)

(** Progress of the writer: the cpus below [i] have been visited. *)
Definition visited (s : gsys) (i : nat) : Prop := ∀ h, (h < i)%nat → s.(g_old) h = false.

Definition pc_inv (s : gsys) : Prop :=
  match s.(g_pc) with
  | W_out => True
  | W_set i => visited s i
  | W_yield i => visited s i ∧ s.(g_aff) = Some i
  | W_back i => visited s i ∧ s.(g_aff) = Some i ∧ ∀ h, s.(g_cur) h = Some writer → h = i
  end.

Record ginv (s : gsys) : Prop := {
  gi_idle h : s.(g_cur) h = None → s.(g_noff) h = 0%nat;
  gi_old h : s.(g_old) h = true → s.(g_noff) h ≠ 0%nat;
  gi_range h p : s.(g_cur) h = Some p → (h < s.(g_harts))%nat;
  gi_unique h h' p : s.(g_cur) h = Some p → s.(g_cur) h' = Some p → h = h';
  gi_writer h : in_sync s = true → s.(g_cur) h = Some writer → s.(g_noff) h = 0%nat;
  gi_pc : pc_inv s
}.

Lemma upd_eq {A} (f : nat → A) k v : upd f k v k = v.
Proof. unfold upd. by rewrite decide_True. Qed.

Lemma upd_ne {A} (f : nat → A) k v x : x ≠ k → upd f k v x = f x.
Proof. intros. unfold upd. by rewrite decide_False. Qed.

Lemma ginv_start n : ginv (gstart n).
Proof. by split. Qed.

Lemma ginv_read_lock s h p :
  ginv s → s.(g_cur) h = Some p → ¬ (p = writer ∧ in_sync s = true) →
  ginv (mk_gsys s.(g_harts) s.(g_cur) (upd s.(g_noff) h (S (s.(g_noff) h)))
          s.(g_aff) s.(g_pc) s.(g_old)).
Proof.
  intros [H1 H2 H3 H4 H5 H6] Hc Hg. split; cbn; try done.
  - intros h' Hh'. destruct (decide (h' = h)) as [->|Hne]; [congruence|]. rewrite upd_ne; auto.
  - intros h' Hh'. destruct (decide (h' = h)) as [->|Hne]; [by rewrite upd_eq|]. rewrite upd_ne; auto.
  - intros h' Hs Hw. destruct (decide (h' = h)) as [->|Hne]; [|rewrite upd_ne; auto].
    exfalso. apply Hg. split; [congruence|done].
Qed.

Lemma ginv_read_unlock s h p k :
  ginv s → s.(g_cur) h = Some p → s.(g_noff) h = S k →
  ginv (mk_gsys s.(g_harts) s.(g_cur) (upd s.(g_noff) h k) s.(g_aff) s.(g_pc)
          (if decide (k = 0%nat) then upd s.(g_old) h false else s.(g_old))).
Proof.
  intros [H1 H2 H3 H4 H5 H6] Hc Hn.
  assert (Hold : ∀ h', (if decide (k = 0%nat) then upd (g_old s) h false else g_old s) h' = true →
    g_old s h' = true ∧ (h' = h → k ≠ 0%nat)).
  { intros h'. destruct (decide (k = 0%nat)); [|done]. unfold upd. by case_decide. }
  split; cbn; try done.
  - intros h' Hh'. destruct (decide (h' = h)) as [->|Hne]; [congruence|]. rewrite upd_ne; auto.
  - intros h' [Hh' Hk]%Hold. destruct (decide (h' = h)) as [->|Hne]; [rewrite upd_eq; auto|].
    rewrite upd_ne; auto.
  - intros h' Hs Hw. destruct (decide (h' = h)) as [->|Hne]; [|rewrite upd_ne; auto].
    specialize (H5 h Hs Hw). congruence.
  - assert (Hv : ∀ i, visited s i → ∀ h', (h' < i)%nat →
      (if decide (k = 0%nat) then upd (g_old s) h false else g_old s) h' = false).
    { intros i Hi h' Hh'. destruct (_ h') eqn:E; [|done]. apply Hold in E as [E _].
      rewrite (Hi h' Hh') in E. done. }
    revert H6. unfold pc_inv, visited; cbn. destruct (g_pc s); [done|apply Hv|..];
      intros [Hi Hr]; (split; [by apply Hv|done]).
Qed.

(** The hart [h] becomes idle. *)
Lemma ginv_leave s h :
  ginv s → s.(g_noff) h = 0%nat →
  ginv (mk_gsys s.(g_harts) (upd s.(g_cur) h None) s.(g_noff) s.(g_aff) s.(g_pc) s.(g_old)).
Proof.
  intros [H1 H2 H3 H4 H5 H6] Hn.
  assert (Hc : ∀ h' p, upd (g_cur s) h None h' = Some p → g_cur s h' = Some p).
  { intros h' p. unfold upd. by case_decide. }
  split; cbn; eauto.
  - intros h'. unfold upd. case_decide; [by subst|]. apply H1.
  - revert H6. unfold pc_inv, visited; cbn. destruct (g_pc s); try done.
    intros (Hi & Ha & Hr). eauto.
Qed.

Lemma ginv_pick s h p :
  ginv s → (h < s.(g_harts))%nat → s.(g_cur) h = None → (∀ h', s.(g_cur) h' ≠ Some p) →
  (p = writer → s.(g_aff) = None ∨ s.(g_aff) = Some h) →
  ginv (mk_gsys s.(g_harts) (upd s.(g_cur) h (Some p)) s.(g_noff) s.(g_aff) s.(g_pc) s.(g_old)).
Proof.
  intros [H1 H2 H3 H4 H5 H6] Hh Hc Hnew Haff.
  assert (Hupd : ∀ h' q, upd (g_cur s) h (Some p) h' = Some q →
    h' = h ∧ q = p ∨ h' ≠ h ∧ g_cur s h' = Some q).
  { intros h' q. unfold upd. case_decide; [|auto]. intros [= <-]. auto. }
  split; cbn; try done.
  - intros h'. unfold upd. case_decide; [done|]. apply H1.
  - intros h' q [[-> _]|[_ Hq]]%Hupd; [done|]. eauto.
  - intros h' h'' q [[-> ->]|[Hn Hq]]%Hupd [[-> E]|[Hn' Hq']]%Hupd; try done.
    + by destruct (Hnew h'').
    + subst. by destruct (Hnew h').
    + eauto.
  - intros h' Hs [[-> <-]|[_ Hq]]%Hupd; eauto.
  - revert H6. unfold pc_inv, visited; cbn. destruct (g_pc s); try done.
    intros (Hi & Ha & Hr). split; [done|]. split; [done|].
    intros h' [[-> <-]|[_ Hq]]%Hupd; [|eauto].
    destruct (Haff eq_refl) as [E|E]; congruence.
Qed.

Lemma ginv_start_sync s h :
  ginv s → s.(g_cur) h = Some writer → s.(g_noff) h = 0%nat →
  ginv (mk_gsys s.(g_harts) s.(g_cur) s.(g_noff) s.(g_aff) (W_set 0)
          (λ h, negb (s.(g_noff) h =? 0)%nat)).
Proof.
  intros [H1 H2 H3 H4 H5 H6] Hc Hn. split; cbn; try done.
  - intros h'. by destruct (Nat.eqb_spec (g_noff s h') 0).
  - intros h' _ Hw. by rewrite (H4 h' h writer Hw Hc).
  - intros h' Hh'. lia.
Qed.

Lemma ginv_sync_step n s s' h :
  ginv s → gstep n (Sync_step h) s = Some s' → ginv s'.
Proof.
  intros Hi. pose proof Hi as [H1 H2 H3 H4 H5 H6]. cbn.
  destruct (decide (g_cur s h = Some writer)) as [Hc|]; [|done].
  unfold pc_inv, in_sync in *. destruct (g_pc s) as [|i|i|i] eqn:Hpc; [done|..].
  - destruct (decide (i < n)%nat); intros [= <-]; split; cbn; auto.
  - intros [= <-]. destruct H6 as [Hv Ha].
    pose proof (ginv_leave s h Hi (H5 h eq_refl Hc)) as [L1 L2 L3 L4 L5 L6].
    split; cbn in *; try done.
    + intros h' _ Hh'. apply L5; [|done]. unfold in_sync; cbn. by rewrite Hpc.
    + split; [done|]. split; [done|]. intros h'. unfold upd. case_decide as E; [done|].
      intros Hw. by rewrite (H4 h' h writer Hw Hc) in E.
  - intros [= <-]. destruct H6 as (Hv & Ha & Hr). split; cbn; auto.
    intros h' Hh'. destruct (decide (h' = i)) as [->|]; [|apply Hv; lia].
    destruct (g_old s i) eqn:E; [|done]. exfalso. apply (H2 i E).
    rewrite <-(Hr h Hc). by apply H5.
Qed.

Lemma ginv_step n e s s' : ginv s → gstep n e s = Some s' → ginv s'.
Proof.
  intros Hi. destruct e as [h|h|h|h p|h|h]; [..|by apply ginv_sync_step]; cbn.
  - destruct (decide (h < g_harts s)%nat); [|done]. destruct (g_cur s h) as [p|] eqn:Hc; [|done].
    destruct (bool_decide (p = writer) && in_sync s) eqn:E; [done|]. intros [= <-].
    apply (ginv_read_lock s h p); [done..|]. intros [-> Hs].
    rewrite Hs, bool_decide_eq_true_2 in E by done. done.
  - destruct (g_cur s h) as [p|] eqn:Hc; [|done]. destruct (g_noff s h) as [|k] eqn:Hn; [done|].
    intros [= <-]. by apply (ginv_read_unlock s h p).
  - destruct (g_cur s h) as [p|] eqn:Hc; [|done]. destruct (g_noff s h) as [|k] eqn:Hn; [|done].
    intros [= <-]. by apply ginv_leave.
  - destruct (decide (h < g_harts s)%nat) as [Hh|]; [|done].
    destruct (existsb _ _) eqn:Ex; [done|]. destruct (g_cur s h) eqn:Hc; [done|].
    destruct (bool_decide (p = writer) && _) eqn:E; [done|]. intros [= <-]. apply ginv_pick; try done.
    + intros h' Hh'. assert (existsb (λ h', bool_decide (g_cur s h' = Some p)) (seq 0 (g_harts s)) = true)
        as E'; [|congruence].
      apply existsb_exists. exists h'. split; [|by apply bool_decide_eq_true_2].
      apply in_seq. pose proof (gi_range _ Hi _ _ Hh'). lia.
    + intros ->. rewrite bool_decide_eq_true_2 in E by done.
      apply negb_false_iff, bool_decide_eq_true in E. done.
  - destruct (g_cur s h) as [p|] eqn:Hc; [|done]. destruct (g_noff s h) as [|k] eqn:Hn; [|done].
    destruct (g_pc s) eqn:Hpc; [|done..]. destruct (decide (p = writer)) as [->|]; [|done].
    intros [= <-]. by apply (ginv_start_sync s h).
Qed.

Lemma ginv_run n es s s' : ginv s → grun n es s = Some s' → ginv s'.
Proof.
  revert s. induction es as [|e es IH]; intros s Hi; cbn; [congruence|].
  destruct (gstep n e s) as [s1|] eqn:E; [|done]. cbn. apply IH. by eapply ginv_step.
Qed.

(** C3: Grace periods.  On a machine with at most [n] harts, in every run of
    readers, scheduler and writer, when the writer's loop over [n] cpus is over
    every reader section that was open when [synchronize_rcu] was called has
    ended. *)
Theorem grace_period n harts es s i :
  grun n es (gstart harts) = Some s → s.(g_pc) = W_set i → (n ≤ i)%nat → (harts ≤ n)%nat →
  ∀ h, (h < harts)%nat → s.(g_old) h = false.
Proof.
  intros Hrun Hpc Hi Hn h Hh. pose proof (ginv_run _ _ _ _ (ginv_start harts) Hrun) as [_ _ _ _ _ Hp].
  unfold pc_inv in Hp. rewrite Hpc in Hp. apply Hp. lia.
Qed.

(** Three harts; a reader on hart 1 is inside its section when the writer
    starts on hart 0, and leaves it before the writer can run on hart 1. *)
Definition demo_grace : list gevent :=
  [Pick 0 0; Pick 1 5; Read_lock 1; Sync_start 0; Sync_step 0; Sync_step 0; Pick 0 0;
   Sync_step 0; Sync_step 0; Sync_step 0; Read_unlock 1; Leave 1; Pick 1 0; Sync_step 1;
   Sync_step 1; Sync_step 1; Pick 2 0; Sync_step 2].

Lemma grace_period_witness :
  ∃ s, grun 3 demo_grace (gstart 3) = Some s ∧ s.(g_pc) = W_set 3 ∧
    ∀ h, (h < 3)%nat → s.(g_old) h = false.
Proof.
  eexists. split; [vm_compute; reflexivity|]. split; [reflexivity|].
  eapply (grace_period 3 3 demo_grace _ 3); [vm_compute; reflexivity|reflexivity|lia|lia].
Defined.

(** The bound must cover all harts.  With the bound 2 of [sys_rcusync] on
    the three harts of the repository's configuration, and with the bound 3 of
    [synchronize_rcu] on four harts, there is a run in which the writer's loop
    ends while a reader section that was open at its start is still open. *)
Theorem rcusync_misses_reader :
  (∃ es s, grun 2 es (gstart 3) = Some s ∧ s.(g_pc) = W_set 2 ∧
     s.(g_old) 2%nat = true ∧ s.(g_noff) 2%nat = 1%nat) ∧
  (∃ es s, grun 3 es (gstart 4) = Some s ∧ s.(g_pc) = W_set 3 ∧
     s.(g_old) 3%nat = true ∧ s.(g_noff) 3%nat = 1%nat).
Proof.
  split.
  - exists [Pick 0 0; Pick 2 5; Read_lock 2; Sync_start 0; Sync_step 0; Sync_step 0; Pick 0 0;
      Sync_step 0; Sync_step 0; Sync_step 0; Pick 1 0; Sync_step 1].
    eexists. split; [vm_compute; reflexivity|]. by vm_compute.
  - exists [Pick 0 0; Pick 3 5; Read_lock 3; Sync_start 0; Sync_step 0; Sync_step 0; Pick 0 0;
      Sync_step 0; Sync_step 0; Sync_step 0; Pick 1 0; Sync_step 1; Sync_step 1; Sync_step 1;
      Pick 2 0; Sync_step 2].
    eexists. split; [vm_compute; reflexivity|]. by vm_compute.
Qed.

End Grace.
