(* ===== verification/Klist.v ===== *)
(** * The kernel linked list ([kernel/klinkedlist.c])

    The list exists twice in the source: the RCU version ([insert],
    [deleteNode], [search]) and a version with a reader-writer lock per node
    ([insert_lock], [deleteNode_lock], [search_lock]).  A node is a page from
    [kalloc]: [data] at offset 0, [next] at offset 8, [lock] at offset 16. *)

From S2P Require Import Prelude State Spinlock Cstring Riscv Kalloc Vm Proc ProcFacts Rwlock Rcu.

Section Klist.
Context {HK : KernelImage}.

Definition node_data (m : mem) (p : Z) : Z := s32 (load32 m p).
Definition node_next (m : mem) (p : Z) : Z := load64 m (p + 8).
Definition node_lock (m : mem) (p : Z) : Z := load64 m (p + 16).

(** [p->field] and [p->field = v] for a node pointer. *)
Definition nget (f : mem → Z → Z) (p : Z) : M kstate Z :=
  check_ptr p;; mem_read (λ m, f m p).
Definition set_data (p v : Z) : M kstate unit := check_ptr p;; mem_write (store32 p v).
Definition set_next (p v : Z) : M kstate unit := check_ptr p;; mem_write (store64 (p + 8) v).
Definition set_lock (p v : Z) : M kstate unit := check_ptr p;; mem_write (store64 (p + 16) v).

(** A list without a cycle has at most as many nodes as there are pages. *)
Definition list_fuel : nat := S (Z.to_nat ((PHYSTOP - KERNBASE) / PGSIZE)).

Definition init_lock : M kstate unit := initlock L_list "list_lock".

Definition init_list_lock : M kstate unit :=
  p ← kalloc;
  modify (set_k_head_ref p);;
  h ← gets k_head_ref;
  lk ← kalloc;
  set_lock h lk;;
  h ← gets k_head_ref;
  lk ← nget node_lock h;
  rw_lock_init lk;;
  h ← gets k_head_ref;
  set_data h 0;;
  set_next h 0.

Definition init_list : M kstate unit :=
  p ← kalloc;
  modify (set_k_head_ref p);;
  h ← gets k_head_ref;
  set_data h 0;;
  h ← gets k_head_ref;
  set_next h 0.

Definition insert_lock (new_data : Z) : M kstate unit :=
  new_node ← kalloc;
  lk ← kalloc;
  set_lock new_node lk;;
  lk ← nget node_lock new_node;
  rw_lock_init lk;;
  set_data new_node new_data;;
  h ← gets k_head_ref;
  lk ← nget node_lock h;
  write_lock lk;;
  h ← gets k_head_ref;
  set_next new_node h;;
  modify (set_k_head_ref new_node);;
  h ← gets k_head_ref;
  nx ← nget node_next h;
  lk ← nget node_lock nx;
  write_unlock lk.

Definition insert (new_data : Z) : M kstate unit :=
  new_node ← kalloc;
  set_data new_node new_data;;
  acquire L_list;;
  h ← gets k_head_ref;
  set_next new_node h;;
  release L_list;;
  synchronize_rcu;;
  modify (set_k_head_ref new_node).

(** The hand-over-hand loop of [deleteNode_lock]; the result is [(temp, prev)]
    at its end. *)
Definition delete_lock_body (key : Z) (x : Z * Z) : M kstate (Z * Z + Z * Z) :=
  let '(temp, prev) := x in
  if temp =? 0 then mret (inr (temp, prev)) else
  d ← nget node_data temp;
  if negb (d =? key) then
    nx ← nget node_next temp;
    if negb (nx =? 0) then
      lk ← nget node_lock nx;
      write_lock lk;;
      lk ← nget node_lock temp;
      write_unlock lk;;
      nx ← nget node_next temp;
      mret (inl (nx, temp))
    else
      lk ← nget node_lock temp;
      write_unlock lk;;
      mret (inr (temp, prev))
  else mret (inr (temp, prev)).

Definition deleteNode_lock (key : Z) : M kstate unit :=
  temp ← gets k_head_ref;
  lk ← nget node_lock temp;
  write_lock lk;;
  d ← nget node_data temp;
  if negb (temp =? 0) && (d =? key) then
    nx ← nget node_next temp;
    modify (set_k_head_ref nx);;
    lk ← nget node_lock temp;
    write_unlock lk
  else
  r ← loop list_fuel (delete_lock_body key) (temp, 0);
  let '(temp, prev) := r in
  if temp =? 0 then
    (if negb (prev =? 0) then lk ← nget node_lock prev; write_unlock lk else mret tt)
  else
  nx ← nget node_next temp;
  set_next prev nx;;
  lk ← nget node_lock prev;
  write_unlock lk;;
  lk ← nget node_lock temp;
  write_unlock lk.

(** [while (temp != 0 && temp->data != key) { prev = temp; temp = temp->next; }] *)
Definition delete_scan_body (key : Z) (x : Z * Z) : M kstate (Z * Z + Z * Z) :=
  let '(temp, prev) := x in
  if temp =? 0 then mret (inr (temp, prev)) else
  d ← nget node_data temp;
  if d =? key then mret (inr (temp, prev)) else
  nx ← nget node_next temp;
  mret (inl (nx, temp)).

(** [temp != 0 && temp->data == key] *)
Definition is_key (temp key : Z) : M kstate bool :=
  if temp =? 0 then mret false else d ← nget node_data temp; mret (d =? key).

Definition deleteNode (key : Z) : M kstate unit :=
  temp ← gets k_head_ref;
  acquire L_list;;
  b ← is_key temp key;
  if b : bool then
    nx ← nget node_next temp;
    modify (set_k_head_ref nx);;
    release L_list;;
    synchronize_rcu;;
    kfree temp
  else
  r ← loop list_fuel (delete_scan_body key) (temp, 0);
  let '(temp, prev) := r in
  if temp =? 0 then release L_list else
  nx ← nget node_next temp;
  set_next prev nx;;
  release L_list;;
  synchronize_rcu;;
  kfree temp.

(** The loop of [search]: the node found, or 0. *)
Definition search_body (key current : Z) : M kstate (Z + Z) :=
  if current =? 0 then mret (inr 0) else
  d ← nget node_data current;
  if d =? key then mret (inr current) else
  nx ← nget node_next current;
  mret (inl nx).

Definition search (key : Z) : M kstate Z :=
  current ← gets k_head_ref;
  rcu_read_lock;;
  r ← loop list_fuel (search_body key) current;
  rcu_read_unlock;;
  mret r.

Definition search_lock_body (key current : Z) : M kstate (Z + Z) :=
  if current =? 0 then mret (inr 0) else
  lk ← nget node_lock current;
  read_lock lk;;
  d ← nget node_data current;
  if d =? key then
    lk ← nget node_lock current;
    read_unlock lk;;
    mret (inr current)
  else
  lk ← nget node_lock current;
  read_unlock lk;;
  nx ← nget node_next current;
  mret (inl nx).

Definition search_lock (key : Z) : M kstate Z :=
  current ← gets k_head_ref;
  loop list_fuel (search_lock_body key) current.

Definition updateNode (key new_data : Z) : M kstate unit :=
  node ← search key;
  if negb (node =? 0) then set_data node new_data
  else printf "Node with key %d not found.\n" [PInt key].

Definition printList : M kstate unit :=
  printf "Final Linked List: " [];;
  h ← gets k_head_ref;
  loop list_fuel (λ temp,
    if temp =? 0 then mret (inr tt) else
    d ← nget node_data temp;
    printf "%d -> " [PInt d];;
    nx ← nget node_next temp;
    mret (inl nx)) h;;
  printf "NULL\n" [].

End Klist.
