(* ===== verification/KlistFacts.v ===== *)
(** * The kernel linked list: theorems ([kernel/klinkedlist.c])

    [klist] relates the nodes in memory to a list of (address, value) pairs.
    The RCU operations are shown to implement the operations on that list when
    nothing else changes it meanwhile; the concurrent runs that the code does
    not handle, and the cases that [deleteNode_lock] gets wrong, are shown as
    executions. *)

From S2P Require Import Prelude State Spinlock Cstring Riscv Kalloc Vm Proc ProcFacts Rwlock Rcu.
From S2P Require Import Klist.

(** The nodes from [p] on: address and value of each. *)
Fixpoint is_list (m : mem) (p : Z) (ns : list (Z * Z)) : Prop :=
  match ns with
  | [] => p = 0
  | (a, d) :: ns => p = a ∧ node_data m a = d ∧ is_list m (node_next m a) ns
  end.

(** The list of the kernel, next to the free list [l] of the allocator. *)
Record klist {HK : KernelImage} (s : kstate) (l : list Z) (ns : list (Z * Z)) : Prop := {
  kl_nodes : is_list s.(k_mem) s.(k_head_ref) ns;
  kl_nodup : NoDup ns.*1;
  kl_pages : Forall (λ a, page_ok a = true) ns.*1;
  kl_free a : a ∈ ns.*1 → a ∉ l
}.

(** The specification of the operations. *)
Fixpoint list_search (key : Z) (ns : list (Z * Z)) : Z :=
  match ns with
  | [] => 0
  | (a, d) :: ns => if d =? key then a else list_search key ns
  end.

Fixpoint list_delete (key : Z) (ns : list (Z * Z)) : list (Z * Z) :=
  match ns with
  | [] => []
  | (a, d) :: ns => if d =? key then ns else (a, d) :: list_delete key ns
  end.

(** The node before the first one with [key]. *)
Fixpoint list_prev (key prev : Z) (ns : list (Z * Z)) : Z :=
  match ns with
  | [] => prev
  | (a, d) :: ns => if d =? key then prev else list_prev key a ns
  end.

Definition has_key (key : Z) (ns : list (Z * Z)) : bool := existsb (λ n, n.2 =? key) ns.

Section KlistFacts.
Context {HK : KernelImage} {HKok : KernelImageOk}.
Implicit Types (s : kstate) (m : mem) (l : list Z) (ns : list (Z * Z)).

Lemma is_list_frame m m' p ns :
  (∀ a, a ∈ ns.*1 → ∀ x, a ≤ x < a + PGSIZE → byte_at m' x = byte_at m x) →
  is_list m p ns → is_list m' p ns.
Proof.
  revert p. induction ns as [|[a d] ns IH]; intros p Hm; simpl; [done|].
  intros (-> & Hd & Hn).
  assert (Ha : ∀ x, a ≤ x < a + PGSIZE → byte_at m' x = byte_at m x).
  { apply Hm. apply list_elem_of_here. }
  split; [done|]. split.
  - rewrite <-Hd. unfold node_data. f_equal. apply load_ext. intros x Hx. apply Ha. unfold PGSIZE. lia.
  - assert (node_next m' a = node_next m a) as ->.
    { apply load_ext. intros x Hx. apply Ha. unfold PGSIZE. lia. }
    apply IH; [|done]. intros b Hb. apply Hm. by apply list_elem_of_further.
Qed.

(** A page outside the list may change. *)
Lemma is_list_other_page m m' p ns pa :
  same_except_page pa m m' → page_ok pa = true → Forall (λ a, page_ok a = true) ns.*1 →
  pa ∉ ns.*1 → is_list m p ns → is_list m' p ns.
Proof.
  intros Hm Hpa Hpg Hnot. apply is_list_frame. intros a Ha x Hx. apply Hm.
  rewrite Forall_forall in Hpg. specialize (Hpg a Ha).
  destruct (page_disjoint pa a Hpa Hpg) as [?|?]; [intros ->; done|unfold PGSIZE in *; lia..].
Qed.

Lemma klist_length s l ns : klist s l ns → (length ns < list_fuel)%nat.
Proof.
  intros [_ Hnd Hp _]. pose proof (pages_length _ Hnd Hp) as H. rewrite length_fmap in H.
  unfold list_fuel. lia.
Qed.

Lemma page_ok_check a s : page_ok a = true → check_ptr a s = Done tt s.
Proof. intros H. unfold check_ptr. by rewrite (proj2 (Z.eqb_neq _ _) (page_ok_nonzero _ H)). Qed.

Lemma nget_ok f a s : page_ok a = true → nget f a s = Done (f s.(k_mem) a) s.
Proof. intros H. unfold nget. mred. by rewrite page_ok_check. Qed.

(** ** [search] *)

Lemma search_loop fuel key s p ns :
  is_list s.(k_mem) p ns → Forall (λ a, page_ok a = true) ns.*1 → (length ns < fuel)%nat →
  loop fuel (search_body key) p s = Done (list_search key ns) s.
Proof.
  revert p ns. induction fuel as [|fuel IH]; intros p ns Hl Hp Hf; [lia|].
  cbn [loop]. mred. unfold search_body at 1. destruct ns as [|[a d] ns]; simpl in Hl.
  { subst p. done. }
  destruct Hl as (-> & Hd & Hl). apply Forall_cons in Hp as [Ha Hp]. simpl in Ha.
  rewrite (proj2 (Z.eqb_neq _ _) (page_ok_nonzero _ Ha)). mred.
  rewrite nget_ok by done. cbn [obind]. rewrite Hd. simpl. destruct (d =? key); mred; [done|].
  rewrite nget_ok by done. cbn [obind]. mred. apply IH; [done..|simpl in Hf; lia].
Qed.

Lemma search_ok key s l ns :
  hart_wf s → klist s l ns → search key s = Done (list_search key ns) (settle s).
Proof.
  intros (c & Hc & Hw) Hk. pose proof (klist_length _ _ _ Hk) as Hlen. destruct Hk as [Hl _ Hp _].
  unfold search, rcu_read_lock, rcu_read_unlock. mred.
  rewrite (push_off_ok _ c) by done. cbn [obind].
  rewrite (search_loop _ key (enter s) _ ns) by (done || by kproj). cbn [obind].
  rewrite (pop_off_ok _ (cpu_enter c)).
  - cbn [obind]. rewrite leave_enter by (by exists c). done.
  - kproj. by rewrite list_lookup_alter_eq, Hc.
  - done.
  - destruct Hw. simpl. lia.
Qed.

(** ** [insert] *)

(** Pieces of [klist] under the changes the operations make. *)
Lemma klist_kept p s s' l ns : kept p s s' → klist s l ns → klist s' l ns.
Proof. intros [Hm Hf Hh _] [H1 H2 H3 H4]. split; [by rewrite Hm, Hh|done..]. Qed.

Lemma kmem_ready_kept p s s' l : kept p s s' → hart_wf s' → kmem_ready s l → kmem_ready s' l.
Proof.
  intros [Hm Hf Hh Hl] Hwf (_ & [n Hn] & [H1 H2 H3]). split; [done|]. split.
  - exists n. by rewrite Hl.
  - split; [by rewrite Hm, Hf|done..].
Qed.

Lemma kmem_ready_ext s s' l :
  s'.(k_cpus) = s.(k_cpus) → s'.(k_hart) = s.(k_hart) → s'.(k_locks) = s.(k_locks) →
  s'.(k_mem) = s.(k_mem) → s'.(k_freelist) = s.(k_freelist) →
  kmem_ready s l → kmem_ready s' l.
Proof.
  intros E1 E2 E3 E4 E5 (Hwf & [n Hn] & [H1 H2 H3]). split; [by eapply hart_wf_ext|].
  split; [exists n; by rewrite E3|]. split; [by rewrite E4, E5|done..].
Qed.

Lemma running_hart_wf p s : running p s → hart_wf s.
Proof. intros [H _ _]. by eapply on_cpu_wf. Qed.

Lemma lock_free_kept p s s' lk : kept p s s' → lk ≠ L_proc p → lock_free lk s → lock_free lk s'.
Proof. intros [_ _ _ Hl] Hne [n Hn]. exists n. by rewrite Hl. Qed.

(** [synchronize_rcu] when the others leave the list and the allocator alone. *)
Definition quiet (p : nat) (s s' : kstate) : Prop := resume p s s' ∧ kept p s s'.

Lemma synchronize_quiet p s Q :
  running p s →
  (∀ s' hs, running p s' → kept p s s' → Q tt s' hs) →
  howp (quiet p) (synchronize_rcu s) [] Q.
Proof.
  intros Hrun HQ. unfold synchronize_rcu. mred. rewrite (curproc_ok p 0) by apply Hrun. cbn [obind].
  eapply howp_mono; [apply (sync_on_cpus_ok (kept p))|].
  - done.
  - intros x y z H1 H2. by etrans.
  - by apply running_settle.
  - intros [] s' hs (_ & _ & Hr & _ & Hk). apply HQ; [done|]. destruct Hk as [H1 H2 H3 H4].
    split; [rewrite ?H1, ?H2, ?H3; by kproj..|]. intros lk Hlk. rewrite H4 by done. by kproj.
Qed.

(** A new node in front: written, and linked by [head_ref]. *)
Lemma klist_cons s l ns pa d m' :
  klist s (pa :: l) ns → page_ok pa = true → pa ∉ l → same_except_page pa s.(k_mem) m' →
  node_data m' pa = d → node_next m' pa = s.(k_head_ref) →
  klist (set_k_head_ref pa (set_k_mem m' s)) l ((pa, d) :: ns).
Proof.
  intros [H1 H2 H3 H4] Hpa Hl Hm Hd Hn.
  assert (Hnot : pa ∉ ns.*1) by (intros H; apply (H4 pa H), list_elem_of_here).
  split; kproj.
  - simpl. split; [done|]. split; [done|]. rewrite Hn. by eapply is_list_other_page.
  - simpl. by constructor.
  - simpl. by constructor.
  - intros a [->|Ha]%elem_of_cons; [done|]. intros Hal.
    apply (H4 a Ha). by apply list_elem_of_further.
Qed.

Lemma klist_ext s s' l ns :
  s'.(k_mem) = s.(k_mem) → s'.(k_head_ref) = s.(k_head_ref) → klist s l ns → klist s' l ns.
Proof. intros Hm Hh [H1 H2 H3 H4]. split; [by rewrite Hm, Hh|done..]. Qed.

Lemma running_ext p s s' :
  s'.(k_cpus) = s.(k_cpus) → s'.(k_hart) = s.(k_hart) → s'.(k_locks) = s.(k_locks) →
  s'.(k_procs) = s.(k_procs) → running p s → running p s'.
Proof.
  intros H1 H2 H3 H4 [Hc [n Hl] Hp]. split; [by eapply on_cpu_eq|exists n; by rewrite H3|by rewrite H4].
Qed.

Lemma kmem_ready_hd s pa l : kmem_ready s (pa :: l) → page_ok pa = true ∧ pa ∉ l.
Proof. intros (_ & _ & [_ [? ?]%NoDup_cons [? ?]%Forall_cons]). done. Qed.

(** The page-local writes of [insert]. *)
Definition node_mem (pa d h : Z) (m : mem) : mem :=
  store64 (pa + 8) h (store32 pa d (memset pa 5 (Z.to_nat PGSIZE) m)).

Lemma node_mem_same pa d h m : same_except_page pa m (node_mem pa d h m).
Proof.
  unfold node_mem. eapply same_except_page_trans; [apply same_except_page_memset|].
  intros a Ha. rewrite !byte_at_store; [done|unfold PGSIZE in *; lia..].
Qed.

Lemma node_mem_data pa d h m : node_data (node_mem pa d h m) pa = s32 d.
Proof.
  unfold node_data, node_mem. rewrite load_store_disjoint by lia.
  rewrite load_store_same. unfold s32, signed. simpl (8 * Z.of_nat 4). by rewrite Zmod_mod.
Qed.

Lemma node_mem_next pa d h m : 0 ≤ h < 2 ^ 64 → node_next (node_mem pa d h m) pa = h.
Proof.
  intros Hh. unfold node_next, node_mem. rewrite load_store_same. by apply Z.mod_small.
Qed.

Lemma klist_head_range s l ns : klist s l ns → 0 ≤ s.(k_head_ref) < 2 ^ 64.
Proof.
  intros [Hl _ Hp _]. destruct ns as [|[a d] ns]; simpl in Hl; [rewrite Hl; lia|].
  destruct Hl as (-> & _). apply Forall_cons in Hp as [Ha _]. simpl in Ha.
  rewrite page_ok_spec in Ha. pose proof etext_range. unfold PHYSTOP, KERNBASE in *. lia.
Qed.

(** The state in which [insert] waits for the grace period. *)
Definition insert_ready (pa d : Z) (s : kstate) : kstate :=
  settle (set_k_mem (node_mem pa d s.(k_head_ref) s.(k_mem)) (kalloc_post s)).

Lemma insert_prefix d s pa l p :
  kmem_ready s (pa :: l) → running p s → lock_free L_list s →
  insert d s = obind (synchronize_rcu (insert_ready pa d s)) (λ _, modify (set_k_head_ref pa)).
Proof.
  intros Hkm Hrun [nm Hll]. destruct (kmem_ready_kalloc _ _ _ Hkm) as [Ek Hkm'].
  destruct (kmem_ready_hd _ _ _ Hkm) as [Hpa _].
  assert (Hfl : s.(k_freelist) = pa) by (destruct Hkm as (_ & _ & [[-> _] _ _]); done).
  assert (Hm1 : (kalloc_post s).(k_mem) = memset pa 5 (Z.to_nat PGSIZE) s.(k_mem))
    by (unfold kalloc_post; kproj; by rewrite Hfl).
  assert (Hh1 : (kalloc_post s).(k_head_ref) = s.(k_head_ref)) by (unfold kalloc_post; by kproj).
  assert (Hl1 : (kalloc_post s).(k_locks) !! L_list = Some (unlocked nm))
    by (unfold kalloc_post; by kproj).
  unfold insert, insert_ready. mred. rewrite Ek. destruct Hkm' as [Hwf _].
  generalize dependent (kalloc_post s). intros s1 _ Hwf Hm1 Hh1 Hl1. cbn [obind].
  unfold set_data, set_next. mred. rewrite page_ok_check by done. mred.
  rewrite (acquire_ok _ _ nm); [|by apply (hart_wf_ext s1)|done].
  mred. rewrite page_ok_check by done. mred. rewrite Hm1, Hh1. fold (node_mem pa d (k_head_ref s) (k_mem s)).
  rewrite (release_bracket (set_k_mem (node_mem pa d (k_head_ref s) (k_mem s)) s1) _ _ nm);
    [|by apply (hart_wf_ext s1)|by kproj..].
  cbn [obind]. f_equal.
Qed.

Lemma insert_ready_running p pa d s : running p s → running p (insert_ready pa d s).
Proof.
  intros Hrun. apply running_settle.
  apply (running_ext p (settle s)); [by unfold kalloc_post; kproj..|]. by apply running_settle.
Qed.

Lemma insert_ready_kmem pa d s l :
  kmem_ready s (pa :: l) → kmem_ready (insert_ready pa d s) l.
Proof.
  intros Hkm. destruct (kmem_ready_hd _ _ _ Hkm) as [Hpa Hnot].
  destruct (kmem_ready_kalloc _ _ _ Hkm) as [_ Hkm'].
  assert (Hfl : s.(k_freelist) = pa) by (destruct Hkm as (_ & _ & [[-> _] _ _]); done).
  apply kmem_ready_settle, (kmem_ready_set_mem _ _ pa); [done..|].
  assert ((kalloc_post s).(k_mem) = memset pa 5 (Z.to_nat PGSIZE) s.(k_mem)) as ->
    by (unfold kalloc_post; kproj; by rewrite Hfl).
  intros a Ha. unfold node_mem. rewrite !byte_at_store; [done|unfold PGSIZE in *; lia..].
Qed.

Lemma insert_ok p d s pa l ns :
  kmem_ready s (pa :: l) → klist s (pa :: l) ns → running p s → lock_free L_list s →
  howp (quiet p) (insert d s) [] (λ _ s' _,
    klist s' l ((pa, s32 d) :: ns) ∧ kmem_ready s' l ∧ running p s' ∧ lock_free L_list s').
Proof.
  intros Hkm Hkl Hrun Hll. rewrite (insert_prefix d s pa l p) by done. apply howp_bind.
  destruct (kmem_ready_hd _ _ _ Hkm) as [Hpa Hnot].
  destruct (kmem_ready_kalloc _ _ _ Hkm) as [_ Hkm'].
  apply synchronize_quiet; [by apply insert_ready_running|]. intros s' hs Hrun' Hk. simpl.
  pose proof Hk as [Km Kf Kh Kl].
  split; [|split; [|split]].
  - eapply klist_ext; [| |eapply (klist_cons s l ns pa (s32 d) (node_mem pa d s.(k_head_ref) s.(k_mem)))];
      [|by kproj|done..|apply node_mem_same|apply node_mem_data|].
    + kproj. rewrite Km. unfold insert_ready. kproj. reflexivity.
    + eapply node_mem_next, klist_head_range, Hkl.
  - eapply (kmem_ready_ext s'); [by kproj..|].
    apply (kmem_ready_kept p (insert_ready pa d s)); [exact Hk|by eapply running_hart_wf|].
    by apply insert_ready_kmem.
  - by eapply running_ext; [..|exact Hrun'].
  - destruct Hll as [nm Hnm]. exists nm. kproj. rewrite Kl by done.
    unfold insert_ready, kalloc_post. by kproj.
Qed.

(** ** [deleteNode] *)

Lemma list_search_in key ns : has_key key ns = true → list_search key ns ∈ ns.*1.
Proof.
  induction ns as [|[a d] ns IH]; simpl; [done|]. destruct (d =? key); simpl.
  - intros _. apply list_elem_of_here.
  - intros H. by apply list_elem_of_further, IH.
Qed.

Lemma list_search_absent key ns : has_key key ns = false → list_search key ns = 0.
Proof.
  induction ns as [|[a d] ns IH]; simpl; [done|]. destruct (d =? key); simpl; [done|]. apply IH.
Qed.

Lemma list_prev_in key prev ns : has_key key ns = true → list_prev key prev ns ∈ prev :: ns.*1.
Proof.
  revert prev. induction ns as [|[a d] ns IH]; intros prev; simpl; [done|].
  destruct (d =? key); simpl; intros H; [apply list_elem_of_here|].
  by apply list_elem_of_further, IH.
Qed.

Lemma list_delete_sub key ns a : a ∈ (list_delete key ns).*1 → a ∈ ns.*1.
Proof.
  induction ns as [|[b d] ns IH]; simpl; [done|]. destruct (d =? key); simpl.
  - intros H. by apply list_elem_of_further.
  - rewrite !elem_of_cons. intros [->|H]; [by left|right; auto].
Qed.

Lemma list_delete_search key ns :
  NoDup ns.*1 → has_key key ns = true → list_search key ns ∉ (list_delete key ns).*1.
Proof.
  induction ns as [|[b d] ns IH]; simpl; [done|]. rewrite NoDup_cons. intros [Hb Hnd].
  destruct (d =? key); simpl; [done|]. intros Hk. rewrite elem_of_cons. intros [E|H].
  - apply Hb. rewrite <-E. by apply list_search_in.
  - by apply IH.
Qed.

Lemma list_delete_nodup key ns : NoDup ns.*1 → NoDup (list_delete key ns).*1.
Proof.
  induction ns as [|[b d] ns IH]; simpl; [done|]. rewrite NoDup_cons. intros [Hb Hnd].
  destruct (d =? key); simpl; [done|]. constructor; [|by apply IH].
  intros H. by apply Hb, (list_delete_sub key).
Qed.

Lemma list_delete_pages key ns (P : Z → Prop) : Forall P ns.*1 → Forall P (list_delete key ns).*1.
Proof. rewrite !Forall_forall. intros H a Ha. by apply H, (list_delete_sub key). Qed.

(** The first loop of [deleteNode]. *)
Lemma delete_scan_loop fuel key s p prev ns :
  is_list s.(k_mem) p ns → Forall (λ a, page_ok a = true) ns.*1 → (length ns < fuel)%nat →
  loop fuel (delete_scan_body key) (p, prev) s =
    Done (list_search key ns, list_prev key prev ns) s.
Proof.
  revert p prev ns. induction fuel as [|fuel IH]; intros p prev ns Hl Hp Hf; [lia|].
  cbn [loop]. mred. unfold delete_scan_body at 1. destruct ns as [|[a d] ns]; simpl in Hl.
  { subst p. done. }
  destruct Hl as (-> & Hd & Hl). apply Forall_cons in Hp as [Ha Hp]. simpl in Ha.
  rewrite (proj2 (Z.eqb_neq _ _) (page_ok_nonzero _ Ha)). mred.
  rewrite nget_ok by done. cbn [obind]. rewrite Hd. simpl. destruct (d =? key); mred; [done|].
  rewrite nget_ok by done. cbn [obind]. mred. apply IH; [done..|simpl in Hf; lia].
Qed.

(** Unlinking an inner node. *)
Lemma next_range m p ns :
  is_list m p ns → Forall (λ a, page_ok a = true) ns.*1 → 0 ≤ p < 2 ^ 64.
Proof.
  destruct ns as [|[a d] ns]; simpl; [intros -> _; lia|]. intros (-> & _) [Ha _]%Forall_cons.
  rewrite page_ok_spec in Ha. pose proof etext_range. unfold PHYSTOP, KERNBASE in *. lia.
Qed.

Lemma same_except_next pa v m : same_except_page pa m (store64 (pa + 8) v m).
Proof. intros a Ha. apply byte_at_store. unfold PGSIZE in *. lia. Qed.

Lemma is_list_unlink m key ns p a0 d0 :
  is_list m p ((a0, d0) :: ns) → NoDup (a0 :: ns.*1) →
  Forall (λ a, page_ok a = true) (a0 :: ns.*1) → has_key key ns = true →
  is_list (store64 (list_prev key a0 ns + 8) (node_next m (list_search key ns)) m) p
    ((a0, d0) :: list_delete key ns).
Proof.
  revert p a0 d0. induction ns as [|[a d] ns IH]; intros p a0 d0 Hl Hnd Hp Hk; [done|].
  destruct Hl as (-> & Hd0 & Hl). apply NoDup_cons in Hnd as [Hna0 Hnd].
  apply Forall_cons in Hp as [Ha0 Hp]. simpl in Hk. simpl list_prev. simpl list_search. simpl list_delete.
  destruct (d =? key) eqn:Ed.
  - simpl in Hl. destruct Hl as (Hnx & Hd & Hl). split; [done|]. split.
    + rewrite <-Hd0. unfold node_data. by rewrite load_store_disjoint by lia.
    + assert (node_next (store64 (a0 + 8) (node_next m a) m) a0 = node_next m a) as ->.
      { unfold node_next at 1. rewrite load_store_same. apply Z.mod_small.
        eapply next_range; [exact Hl|]. by apply Forall_cons in Hp as [_ ?]. }
      apply (is_list_other_page m _ _ _ a0); [apply same_except_next|done| | |done].
      * by apply Forall_cons in Hp as [_ ?].
      * intros H. by apply Hna0, list_elem_of_further.
  - simpl in Hk. assert (Hin := list_prev_in key a ns Hk).
    set (prev := list_prev key a ns) in *.
    assert (Hprev : page_ok prev = true) by (rewrite Forall_forall in Hp; by apply Hp).
    assert (Hne : prev ≠ a0) by (intros E; apply Hna0; rewrite <-E; exact Hin).
    set (m' := store64 (prev + 8) _ m).
    assert (Hs : ∀ x, a0 ≤ x < a0 + PGSIZE → byte_at m' x = byte_at m x).
    { intros x Hx. apply (same_except_next prev). destruct (page_disjoint prev a0); [done..|lia|lia]. }
    split; [done|]. split.
    + rewrite <-Hd0. unfold node_data. f_equal. apply load_ext. intros x Hx. apply Hs. unfold PGSIZE. lia.
    + assert (node_next m' a0 = node_next m a0) as ->.
      { apply load_ext. intros x Hx. apply Hs. unfold PGSIZE. lia. }
      by apply IH.
Qed.

(** The state with the first node that has [key] taken out of the list. *)
Definition unlinked (key : Z) (ns : list (Z * Z)) (s : kstate) : kstate :=
  match ns with
  | [] => s
  | (a, d) :: ns =>
      if d =? key then set_k_head_ref (node_next s.(k_mem) a) s
      else set_k_mem (store64 (list_prev key a ns + 8)
                        (node_next s.(k_mem) (list_search key ns)) s.(k_mem)) s
  end.

(** [deleteNode] up to the grace period. *)
Lemma deleteNode_prefix key s l ns :
  hart_wf s → lock_free L_list s → klist s l ns →
  deleteNode key s =
    if has_key key ns then
      obind (synchronize_rcu (settle (unlinked key ns s))) (λ _, kfree (list_search key ns))
    else Done tt (settle s).
Proof.
  intros Hwf [nm Hll] Hkl. pose proof (klist_length _ _ _ Hkl) as Hlen.
  destruct Hkl as [Hl Hnd Hp _]. unfold deleteNode. mred. rewrite (acquire_ok _ _ nm) by done.
  set (s1 := upd_lock L_list (held_by nm (k_hart s)) (enter s)).
  cbn [obind]. unfold is_key. mred.
  destruct ns as [|[a d] ns]; simpl in Hl.
  { rewrite Hl. change (0 =? 0) with true. mred. rewrite (delete_scan_loop _ key s1 0 0 []) by (done || (unfold s1; by kproj)).
    cbn [obind list_search]. change (0 =? 0) with true. mred.
    rewrite (release_bracket s _ _ nm) by (done || (unfold s1; by kproj)).
    cbn [has_key existsb]. unfold s1. done_eq. }
  destruct Hl as (Hh & Hd & Hl). apply Forall_cons in Hp as [Ha Hp]. simpl in Ha.
  rewrite Hh, (proj2 (Z.eqb_neq _ _) (page_ok_nonzero _ Ha)). mred.
  rewrite nget_ok by done. cbn [obind]. change (k_mem s1) with (k_mem s). rewrite Hd.
  cbn [has_key existsb snd list_search unlinked]. destruct (d =? key) eqn:Ed; cbn [orb]; mred.
  { rewrite nget_ok by done. cbn [obind]. mred. change (k_mem s1) with (k_mem s).
    rewrite (release_bracket (set_k_head_ref (node_next (k_mem s) a) s) _ _ nm);
      [|by apply (hart_wf_ext s)|unfold s1; by kproj..].
    cbn [obind]. f_equal. }
  rewrite (delete_scan_loop _ key s1 a 0 ((a, d) :: ns)); [| |by constructor|done].
  2:{ unfold s1. kproj. done. }
  cbn [obind list_search list_prev]. rewrite Ed. fold (has_key key ns).
  destruct (has_key key ns) eqn:Hk.
  - pose proof (list_search_in key ns Hk) as Hs.
    assert (Hpre : page_ok (list_prev key a ns) = true).
    { pose proof (list_prev_in key a ns Hk) as Hin.
      assert (Hpa : Forall (λ a, page_ok a = true) (a :: ns.*1)) by by constructor.
      rewrite Forall_forall in Hpa. by apply Hpa. }
    assert (Hsp : page_ok (list_search key ns) = true) by (rewrite Forall_forall in Hp; by apply Hp).
    rewrite (proj2 (Z.eqb_neq _ _) (page_ok_nonzero _ Hsp)). mred.
    rewrite nget_ok by done. cbn [obind]. unfold set_next. mred. rewrite page_ok_check by done. mred.
    change (k_mem s1) with (k_mem s).
    rewrite (release_bracket (set_k_mem (store64 (list_prev key a ns + 8)
      (node_next (k_mem s) (list_search key ns)) (k_mem s)) s) _ _ nm);
      [|by apply (hart_wf_ext s)|unfold s1; by kproj..].
    cbn [obind]. f_equal.
  - rewrite (list_search_absent _ _ Hk). change (0 =? 0) with true. mred.
    rewrite (release_bracket s _ _ nm) by (done || (unfold s1; by kproj)). unfold s1. done_eq.
Qed.

Lemma klist_unlinked key s l ns :
  klist s l ns → has_key key ns = true → klist (unlinked key ns s) l (list_delete key ns).
Proof.
  intros [Hl Hnd Hp Hf] Hk. split.
  - destruct ns as [|[a d] ns]; [done|]. cbn [unlinked list_delete]. simpl in Hk.
    destruct (d =? key) eqn:Ed; kproj.
    + by destruct Hl as (_ & _ & Hl).
    + by apply is_list_unlink.
  - by apply list_delete_nodup.
  - by apply list_delete_pages.
  - intros a Ha. by apply Hf, (list_delete_sub key).
Qed.

Lemma unlinked_fields key ns s :
  (unlinked key ns s).(k_cpus) = s.(k_cpus) ∧ (unlinked key ns s).(k_hart) = s.(k_hart) ∧
  (unlinked key ns s).(k_locks) = s.(k_locks) ∧ (unlinked key ns s).(k_procs) = s.(k_procs) ∧
  (unlinked key ns s).(k_freelist) = s.(k_freelist).
Proof.
  destruct ns as [|[a d] ns]; cbn [unlinked]; [done|]. destruct (d =? key); by kproj.
Qed.

(** Unlinking does not touch the free pages. *)
Lemma kmem_ready_unlinked key s l ns :
  klist s l ns → has_key key ns = true → kmem_ready s l → kmem_ready (unlinked key ns s) l.
Proof.
  intros [_ _ Hp Hf] Hk Hkm. destruct ns as [|[a d] ns]; [done|]. cbn [unlinked]. simpl in Hk.
  destruct (d =? key).
  - eapply kmem_ready_ext; [..|exact Hkm]; by kproj.
  - pose proof (list_prev_in key a ns Hk) as Hin.
    apply (kmem_ready_set_mem _ _ (list_prev key a ns)); [done| |by apply Hf|apply same_except_next].
    rewrite Forall_forall in Hp. by apply Hp.
Qed.

Lemma deleteNode_ok p key s l ns :
  kmem_ready s l → klist s l ns → running p s → lock_free L_list s →
  howp (quiet p) (deleteNode key s) [] (λ _ s' _,
    let l' := if has_key key ns then list_search key ns :: l else l in
    klist s' l' (list_delete key ns) ∧ kmem_ready s' l').
Proof.
  intros Hkm Hkl Hrun Hll. pose proof (running_hart_wf _ _ Hrun) as Hwf.
  rewrite (deleteNode_prefix key s l ns) by done. destruct (has_key key ns) eqn:Hk.
  2:{ simpl. assert (list_delete key ns = ns) as ->.
      { clear -Hk. induction ns as [|[a d] ns IH]; simpl in *; [done|].
        destruct (d =? key); simpl in Hk; [done|]. by rewrite IH. }
      split; [by eapply klist_ext; [..|exact Hkl]|by apply kmem_ready_settle]. }
  destruct (unlinked_fields key ns s) as (F1 & F2 & F3 & F4 & F5).
  apply howp_bind, (synchronize_quiet p).
  { apply running_settle. by eapply running_ext; [..|exact Hrun]. }
  intros s' hs Hrun' Hkept.
  assert (Hkm' : kmem_ready s' l).
  { apply (kmem_ready_kept p (settle (unlinked key ns s))); [done|by eapply running_hart_wf|].
    by apply kmem_ready_settle, kmem_ready_unlinked. }
  assert (Hkl' : klist s' l (list_delete key ns)).
  { apply (klist_kept p (settle (unlinked key ns s))); [done|].
    eapply klist_ext; [..|by apply klist_unlinked]; by kproj. }
  pose proof (list_search_in key ns Hk) as Hin.
  assert (Hpg : page_ok (list_search key ns) = true).
  { destruct Hkl as [_ _ Hp _]. rewrite Forall_forall in Hp. by apply Hp. }
  assert (Hnl : list_search key ns ∉ l) by by apply (kl_free _ _ _ Hkl).
  destruct (kmem_ready_kfree s' _ l Hkm' Hpg Hnl) as [-> Hkm2]. simpl. split; [|done].
  destruct Hkl' as [L1 L2 L3 L4]. split; [|done..|].
  - unfold kfree_post. kproj. apply (is_list_other_page s'.(k_mem) _ _ _ (list_search key ns)); try done.
    + eapply same_except_page_trans; [apply same_except_page_memset|apply same_except_page_store].
    + apply list_delete_search; [|done]. by destruct Hkl.
  - intros a Ha. rewrite not_elem_of_cons. split; [|by apply L4].
    intros ->. revert Ha. apply list_delete_search; [|done]. by destruct Hkl.
Qed.

(** C26: [insert] implements consing.  Called by a process outside critical
    sections on a well-formed list, with a free page left and nothing else
    changing the list or the free list during the grace period, [insert d]
    returns with [d] in front of the old list, in a page taken from the free
    list; [search] then finds it, and finds all other keys where it found them
    before. *)
Theorem insert_spec p d s pa l ns :
  kmem_ready s (pa :: l) → klist s (pa :: l) ns → running p s → lock_free L_list s →
  howp (quiet p) (insert d s) [] (λ _ s' _,
    klist s' l ((pa, s32 d) :: ns) ∧ kmem_ready s' l ∧
    ∀ key, search key s' =
      Done (if s32 d =? key then pa else list_search key ns) (settle s')).
Proof.
  intros Hkm Hkl Hrun Hll. eapply howp_mono; [by apply (insert_ok p d s pa l ns)|].
  intros [] s' hs (Hkl' & Hkm' & Hrun' & _). split; [done|]. split; [done|]. intros key.
  rewrite (search_ok key s' l _ (running_hart_wf _ _ Hrun') Hkl'). done.
Qed.

(** C10: [deleteNode] implements removal.  Under the same conditions,
    [deleteNode key] returns with the first node that has [key] out of the list
    and its page back on the free list, or with nothing changed when there is
    none; other keys are found where they were. *)
Theorem deleteNode_spec p key s l ns :
  kmem_ready s l → klist s l ns → running p s → lock_free L_list s →
  howp (quiet p) (deleteNode key s) [] (λ _ s' _,
    let l' := if has_key key ns then list_search key ns :: l else l in
    klist s' l' (list_delete key ns) ∧ kmem_ready s' l' ∧
    ∀ key', key' ≠ key →
      search key' s' = Done (list_search key' ns) (settle s')).
Proof.
  intros Hkm Hkl Hrun Hll. eapply howp_mono; [by apply (deleteNode_ok p key s l ns)|].
  intros [] s' hs (Hkl' & Hkm'). split; [done|]. split; [done|]. intros key' Hne.
  rewrite (search_ok key' s' _ _ (proj1 Hkm') Hkl'). f_equal.
  clear -Hne. induction ns as [|[a d] ns IH]; simpl; [done|].
  destruct (Z.eqb_spec d key) as [->|Hd]; simpl.
  - by rewrite (proj2 (Z.eqb_neq key key')) by congruence.
  - by rewrite IH.
Qed.

(** [search] returns the address of the first node with the key, or 0, on
    every well-formed list; it terminates and leaves the state as it was. *)
Theorem search_spec key s l ns :
  hart_wf s → klist s l ns → search key s = Done (list_search key ns) (settle s).
Proof. apply search_ok. Qed.

(** [insert] dereferences a null pointer when no page is left: the result
    of [kalloc] is not checked. *)
Theorem insert_no_memory d s : kmem_ready s [] → insert d s = Fault (settle s).
Proof.
  intros (Hwf & Hu & [Hc _ _]). unfold insert. mred. rewrite kalloc_empty by done. done.
Qed.

End KlistFacts.

(** ** Runs of two processes *)

(** What the scheduler of the hart that the affinity of [p] names (hart 0 if
    there is none) does to resume [p]. *)
Definition sched_in (p : nat) (s : kstate) : kstate :=
  let a := match s.(k_procs) !! p with Some pr => pr.(p_cpu_affinity) | None => -1 end in
  let h := if a =? -1 then 0%nat else Z.to_nat a in
  upd_proc p (set_p_state RUNNING)
    (upd_lock (L_proc p) (held_by "proc" h)
      (upd_cpu (λ _, mk_cpu (Some p) 1 true false) (set_k_hart h s))).

(** Run a computation of [p] to its end, resuming it at each switch. *)
Fixpoint drive {A} (p : nat) (o : outcome kstate A) : outcome kstate A :=
  match o with
  | Swtch s k => drive p (k (sched_in p s))
  | _ => o
  end.

Lemma sched_in_resume p s pr :
  s.(k_procs) !! p = Some pr → (pr.(p_cpu_affinity) = -1 ∨ 0 ≤ pr.(p_cpu_affinity) < 8) →
  length s.(k_cpus) = NCPU → pr.(p_cpu_affinity) ≠ -1 ∨ s.(k_hart) = 0%nat → resume p s (sched_in p s).
Proof.
  intros Hpr Haff Hlen Hh. unfold sched_in. rewrite Hpr.
  set (h := if p_cpu_affinity pr =? -1 then 0%nat else Z.to_nat (p_cpu_affinity pr)).
  assert (Hlt : (h < 8)%nat) by (unfold h; destruct (Z.eqb_spec (p_cpu_affinity pr) (-1)); lia).
  split; [split|].
  - exists (mk_cpu (Some p) 1 true false). kproj. rewrite list_lookup_alter_eq.
    destruct (lookup_lt_is_Some_2 s.(k_cpus) h) as [c ->]; [rewrite Hlen; exact Hlt|].
    split; [done|]. split; [done|]. split; [done|]. split; simpl; [lia|done].
  - exists "proc". kproj. apply lookup_insert_eq.
  - intros pr'. kproj. rewrite list_lookup_alter_eq, Hpr. simpl. intros [= <-]. split; [done|]. simpl.
    unfold h. destruct (Z.eqb_spec (p_cpu_affinity pr) (-1)); [by left|right; lia].
  - intros pr'. kproj. rewrite Hpr. intros [= <-]. rewrite list_lookup_alter_eq, Hpr. simpl. eauto 10.
Qed.

(** Hart 0 runs process 3 and hart 1 runs process 4; the list is empty and two
    pages are free. *)
Definition race_state : kstate :=
  set_k_freelist 0x80100000 (set_k_mem (store64 0x80100000 0x80101000 ∅)
    (upd_proc 3 (set_p_cpu_affinity (-1)) (upd_proc 4 (set_p_cpu_affinity (-1))
      (set_k_cpus [mk_cpu (Some 3%nat) 0 true true; mk_cpu (Some 4%nat) 0 true true;
                   cpu0; cpu0; cpu0; cpu0; cpu0; cpu0] kstate0)))).

Definition sw_state {A} (o : outcome kstate A) : kstate :=
  match o with Swtch s _ => s | _ => kstate0 end.
Definition sw_cont {A} (o : outcome kstate A) : kstate → outcome kstate A :=
  match o with Swtch _ k => k | _ => λ s, Fault s end.
Definition is_switch {A} (o : outcome kstate A) : bool :=
  match o with Swtch _ _ => true | _ => false end.
Definition is_done {A} (o : outcome kstate A) : bool :=
  match o with Done _ _ => true | _ => false end.

Definition is_fault {A} (o : outcome kstate A) : bool :=
  match o with Fault _ => true | _ => false end.

Lemma is_fault_eq {A} (o : outcome kstate A) : is_fault o = true → ∃ s, o = Fault s.
Proof. destruct o; try done. eauto. Qed.

Lemma is_switch_eq {A} (o : outcome kstate A) :
  is_switch o = true → o = Swtch (sw_state o) (sw_cont o).
Proof. by destruct o. Qed.

Lemma is_done_eq (o : outcome kstate unit) : is_done o = true → o = Done tt (final_state o).
Proof. by destruct o as [[]| | | | |]. Qed.

(** The run of the next theorem, step by step. *)
Abbreviation race_o1 := (insert 1 race_state).
Abbreviation race_o2 := (drive 4 (insert 2 (set_k_hart 1 (sw_state race_o1)))).
Abbreviation race_o3 := (drive 3 (sw_cont race_o1 (sched_in 3 (final_state race_o2)))).

(** What the run looks like, computed. *)
Lemma race_switch : is_switch race_o1 = true.
Proof. vm_cast_no_check (eq_refl true). Qed.

Lemma race_done2 : is_done race_o2 = true.
Proof. vm_cast_no_check (eq_refl true). Qed.

Lemma race_done3 : is_done race_o3 = true.
Proof. vm_cast_no_check (eq_refl true). Qed.

(** Head, value and successor of the node at [a]. *)
Definition node_of (a : Z) (s : kstate) : Z * Z * Z :=
  (s.(k_head_ref), node_data s.(k_mem) a, node_next s.(k_mem) a).

Lemma race_list2 : node_of 0x80101000 (final_state race_o2) = (0x80101000, 2, 0).
Proof. vm_cast_no_check (eq_refl (0x80101000, 2, 0)). Qed.

Lemma race_list3 : node_of 0x80100000 (final_state race_o3) = (0x80100000, 1, 0).
Proof. vm_cast_no_check (eq_refl (0x80100000, 1, 0)). Qed.

Lemma node_of_list a d s : node_of a s = (a, d, 0) → is_list s.(k_mem) s.(k_head_ref) [(a, d)].
Proof. intros [= Hh Hd Hn]. cbn [is_list]. by rewrite Hn. Qed.

(** A lost update.  Process 3 inserts 1 and is waiting for its grace period
    when process 4 inserts 2 on another hart; both calls return, and the list
    holds 1 alone: [insert] reads [head_ref] under the lock but writes it after
    releasing the lock and waiting. *)
Theorem insert_lost_update :
  ∃ s1 k1 s2 s3,
    insert 1 race_state = Swtch s1 k1 ∧
    drive 4 (insert 2 (set_k_hart 1 s1)) = Done tt s2 ∧
    is_list s2.(k_mem) s2.(k_head_ref) [(0x80101000, 2)] ∧
    drive 3 (k1 (sched_in 3 s2)) = Done tt s3 ∧
    is_list s3.(k_mem) s3.(k_head_ref) [(0x80100000, 1)].
Proof.
  exists (sw_state race_o1), (sw_cont race_o1), (final_state race_o2), (final_state race_o3).
  split; [exact (is_switch_eq _ race_switch)|]. split; [exact (is_done_eq _ race_done2)|].
  split; [exact (node_of_list _ _ _ race_list2)|]. split; [exact (is_done_eq _ race_done3)|].
  exact (node_of_list _ _ _ race_list3).
Qed.

(** ** [deleteNode_lock] with a key that is not in the list *)

Definition node (a d next lock : Z) (m : mem) : mem :=
  store64 (a + 16) lock (store64 (a + 8) next (store32 a d m)).

(** Two nodes, 2 and 1, with their locks free. *)
Definition two_nodes : kstate :=
  set_k_head_ref 0x80103000 (set_k_mem
    (node 0x80103000 2 0x80104000 0x80105000 (node 0x80104000 1 0 0x80106000 ∅)) kstate0).

Definition one_node : kstate :=
  set_k_head_ref 0x80104000 (set_k_mem (node 0x80104000 1 0 0x80106000 ∅) kstate0).

Lemma delete_absent_two : is_done (deleteNode_lock 7 two_nodes) = true.
Proof. vm_cast_no_check (eq_refl true). Qed.

Lemma delete_absent_list :
  node_of 0x80103000 (final_state (deleteNode_lock 7 two_nodes)) = (0x80103000, 2, 0).
Proof. vm_cast_no_check (eq_refl (0x80103000, 2, 0)). Qed.

Lemma delete_absent_one : is_fault (deleteNode_lock 7 one_node) = true.
Proof. vm_cast_no_check (eq_refl true). Qed.

(** [deleteNode_lock] with an absent key.  On a list of two nodes it
    removes the last node, whose value is not the key; on a list of one node it
    dereferences the null pointer [prev]. *)
Theorem deleteNode_lock_absent :
  is_list two_nodes.(k_mem) two_nodes.(k_head_ref) [(0x80103000, 2); (0x80104000, 1)] ∧
  (∃ s', deleteNode_lock 7 two_nodes = Done tt s' ∧
     is_list s'.(k_mem) s'.(k_head_ref) [(0x80103000, 2)]) ∧
  is_list one_node.(k_mem) one_node.(k_head_ref) [(0x80104000, 1)] ∧
  (∃ s', deleteNode_lock 7 one_node = Fault s').
Proof.
  split; [by vm_compute|]. split; [|split; [by vm_compute|]].
  - eexists. split; [exact (is_done_eq _ delete_absent_two)|exact (node_of_list _ _ _ delete_absent_list)].
  - exact (is_fault_eq _ delete_absent_one).
Qed.

(** ** Witnesses *)

(** Process 3 outside critical sections, two free pages and a list of one node
    with value 5. *)
Definition kstate_list : kstate :=
  set_k_freelist 0x80100000 (set_k_head_ref 0x80103000
    (set_k_mem (node 0x80103000 5 0 0 (store64 0x80100000 0x80101000 ∅)) (kstate_run 0 []))).

Lemma kstate_list_ready : @kmem_ready image0 kstate_list two_pages.
Proof.
  split; [|split].
  - eapply hart_wf_ext, (on_cpu_wf 3 0), (kstate_run_cpu 0 []); done.
  - exists "kmem". by vm_compute.
  - split; [by vm_compute|apply (bool_decide_unpack _); by vm_compute|repeat constructor].
Qed.

Lemma kstate_list_klist : @klist image0 kstate_list two_pages [(0x80103000, 5)].
Proof.
  split.
  - by vm_compute.
  - apply NoDup_singleton.
  - repeat constructor.
  - intros a Ha%list_elem_of_singleton. simpl in Ha. subst a.
    apply (bool_decide_unpack _). by vm_compute.
Qed.

Lemma kstate_list_running : running 3 kstate_list.
Proof. by eapply running_ext; [..|exact kstate_run_running]. Qed.

Lemma kstate_list_lock : lock_free L_list kstate_list.
Proof. exists "list_lock". by vm_compute. Qed.

Lemma insert_spec_witness :
  klist (HK:=image0) kstate_list two_pages [(0x80103000, 5)] ∧
  howp (quiet 3) (insert 8 kstate_list) [] (λ _ s' _,
    klist (HK:=image0) s' [0x80101000] [(0x80100000, 8); (0x80103000, 5)] ∧
    kmem_ready (HK:=image0) s' [0x80101000] ∧
    ∀ key, search key s' =
      Done (if 8 =? key then 0x80100000 else list_search key [(0x80103000, 5)]) (settle s')).
Proof.
  split; [exact kstate_list_klist|].
  exact (insert_spec (HK:=image0) 3 8 kstate_list 0x80100000 [0x80101000] [(0x80103000, 5)]
    kstate_list_ready kstate_list_klist kstate_list_running kstate_list_lock).
Defined.

Lemma deleteNode_spec_witness :
  howp (quiet 3) (deleteNode (HK:=image0) 5 kstate_list) [] (λ _ s' _,
    klist (HK:=image0) s' (0x80103000 :: two_pages) [] ∧
    kmem_ready (HK:=image0) s' (0x80103000 :: two_pages) ∧
    ∀ key', key' ≠ 5 → search key' s' = Done (list_search key' [(0x80103000, 5)]) (settle s')).
Proof.
  exact (deleteNode_spec (HK:=image0) 3 5 kstate_list two_pages [(0x80103000, 5)]
    kstate_list_ready kstate_list_klist kstate_list_running kstate_list_lock).
Defined.

Lemma search_spec_witness : search 5 kstate_list = Done 0x80103000 (settle kstate_list).
Proof.
  exact (search_spec (HK:=image0) 5 kstate_list two_pages [(0x80103000, 5)]
    (proj1 kstate_list_ready) kstate_list_klist).
Defined.

Lemma kstate0_ready : @kmem_ready image0 kstate0 [].
Proof.
  split; [exists cpu0; split; [reflexivity|split; simpl; lia]|].
  split; [exists "kmem"; by vm_compute|split; constructor].
Qed.

Lemma insert_no_memory_witness : insert 5 kstate0 = Fault (settle kstate0).
Proof. exact (insert_no_memory (HK:=image0) 5 kstate0 kstate0_ready). Defined.
