(* ===== verification/Sleeplock.v ===== *)
(** * Sleep locks ([kernel/sleeplock.c])

    A sleep lock is an entry of [k_slocks], its inner spin lock the entry
    [L_sl l] of [k_locks]. *)

From S2P Require Import Prelude State Spinlock Cstring Riscv Kalloc Vm Proc ProcFacts.

Section Sleeplock.
Context {HK : KernelImage} {WB : WaitBound}.

Definition sl_get {A} (l : slid) (f : sleeplock → A) : M kstate A :=
  ls ← gets k_slocks; mret (f (default (mk_sleeplock 0 "" 0) (ls !! l))).

Definition sl_set (l : slid) (f : sleeplock → sleeplock) : M kstate unit :=
  modify (λ s, set_k_slocks
    (<[l := f (default (mk_sleeplock 0 "" 0) (s.(k_slocks) !! l))]> s.(k_slocks)) s).

Definition initsleeplock (l : slid) (name : string) : M kstate unit :=
  initlock (L_sl l) "sleep lock";;
  sl_set l (set_sl_name name);;
  sl_set l (set_sl_locked 0);;
  sl_set l (set_sl_pid 0).

Definition acquiresleep (l : slid) : M kstate unit :=
  acquire (L_sl l);;
  loop (S wakeups) (λ _,
    b ← sl_get l sl_locked;
    if negb (b =? 0) then sleep (Ch_sl l) (L_sl l);; mret (inl tt) else mret (inr tt)) tt;;
  sl_set l (set_sl_locked 1);;
  p ← curproc;
  pid ← proc_get p p_pid;
  sl_set l (set_sl_pid pid);;
  release (L_sl l).

Definition releasesleep (l : slid) : M kstate unit :=
  acquire (L_sl l);;
  sl_set l (set_sl_locked 0);;
  sl_set l (set_sl_pid 0);;
  wakeup (Ch_sl l);;
  release (L_sl l).

(** [r = lk->locked && (lk->pid == myproc()->pid)] *)
Definition holdingsleep (l : slid) : M kstate bool :=
  acquire (L_sl l);;
  b ← sl_get l sl_locked;
  r ← (if negb (b =? 0) then
         pid ← sl_get l sl_pid;
         p ← curproc;
         mypid ← proc_get p p_pid;
         mret (pid =? mypid)
       else mret false);
  release (L_sl l);;
  mret r.

End Sleeplock.
