(* ===== verification/Quiet.v ===== *)
(** * Uncontended execution

    [calm p pid H s]: process [p] runs on the current hart, holds exactly the
    spin locks [H], and no other hart holds a spin lock of the kernel.
    [quietly p s s'] says that a step changed nothing but the interrupt nesting
    of the cpu, the locks, and other processes that it may have woken up.  The
    lemmas give the effect of the locking primitives in these terms; the
    components above use them to describe what their operations do to their own
    data. *)

From S2P Require Import Prelude State Spinlock Cstring Riscv Kalloc Vm Proc ProcFacts Sleeplock.

(** The spin locks that exist once the kernel has booted. *)
Definition is_static (l : lockid) : bool := bool_decide (l ∈ static_locks.*1).

Lemma is_static_proc i : (i < NPROC)%nat → is_static (L_proc i) = true.
Proof.
  intros Hi. apply bool_decide_eq_true_2. unfold static_locks. rewrite fmap_app, fmap_app.
  apply elem_of_app. right. apply elem_of_app. left.
  apply list_elem_of_fmap. exists (L_proc i, "proc"). split; [done|].
  apply list_elem_of_fmap. exists i. split; [done|]. apply elem_of_seq. lia.
Qed.

Section Quiet.
Context {HK : KernelImage} {WB : WaitBound}.
Context (p : nat) (pid : Z).
Implicit Types (s : kstate) (H : list lockid).

Record calm (H : list lockid) (s : kstate) : Prop := {
  calm_cpu : on_cpu p (Z.of_nat (length H)) s;
  calm_free l : is_static l = true → l ∉ H → lock_free l s;
  calm_held l : l ∈ H → lock_held l s;
  calm_nodup : NoDup H;
  calm_noproc i : L_proc i ∉ H;
  calm_len : length s.(k_procs) = NPROC;
  calm_me : ∃ pr, s.(k_procs) !! p = Some pr ∧ pr.(p_pid) = pid
}.

Definition quietly (s s' : kstate) : Prop :=
  same_data s s' ∧ s'.(k_procs) !! p = s.(k_procs) !! p.

#[global] Instance quietly_preorder : PreOrder quietly.
Proof.
  split; [by intros s; split; [apply same_data_refl|]|].
  intros x y z [D1 P1] [D2 P2]. split; [|congruence].
  unfold same_data in *. rewrite D2, D1. keq.
Qed.

(** What a step leaves alone can be read before or after it. *)
Lemma quietly_get {A} (f : kstate → A) s s' :
  quietly s s' → (∀ c l q x, f (set_k_cpus c (set_k_locks l (set_k_procs q x))) = f x) →
  f s' = f s.
Proof. intros [D _] Hf. unfold same_data in D. rewrite D. apply Hf. Qed.

(** An update of such a part of the state commutes with quiet steps. *)
Lemma quietly_upd (f : kstate → kstate) s s' :
  quietly s s' →
  (∀ c l q x, f (set_k_cpus c (set_k_locks l (set_k_procs q x))) =
              set_k_cpus c (set_k_locks l (set_k_procs q (f x)))) →
  (∀ x, (f x).(k_procs) = x.(k_procs)) → quietly (f s) (f s').
Proof.
  intros [D P] Hf Hp. split; [|by rewrite !Hp]. unfold same_data in *. rewrite D, Hf. keq.
Qed.

Lemma calm_upd H s s' :
  calm H s → s'.(k_cpus) = s.(k_cpus) → s'.(k_hart) = s.(k_hart) → s'.(k_locks) = s.(k_locks) →
  s'.(k_procs) = s.(k_procs) → calm H s'.
Proof.
  intros [H1 H2 H3 H4 H5 H6 H7] E1 E2 E3 E4. split; [|..|done|done| |].
  - by eapply on_cpu_eq.
  - intros l Hl Hn. destruct (H2 l Hl Hn) as [nm E]. exists nm. by rewrite E3.
  - intros l Hl. destruct (H3 l Hl) as [nm E]. exists nm. by rewrite E3, E2.
  - by rewrite E4.
  - by rewrite E4.
Qed.

Lemma calm_wf H s : calm H s → hart_wf s.
Proof. intros C. eapply on_cpu_wf, C. Qed.

Lemma quietly_settle s : quietly s (settle s).
Proof. split; [|by kproj]. unfold same_data. keq. Qed.

Lemma calm_settle H s : calm H s → calm H (settle s).
Proof.
  intros [H1 H2 H3 H4 H5 H6 H7]. split; try done. by apply on_cpu_settle.
Qed.

Lemma acquire_free_procs H s l :
  calm H s → lock_free l s → l ∉ H → (∀ i, l ≠ L_proc i) →
  ∃ s', acquire l s = Done tt s' ∧ calm (l :: H) s' ∧ quietly s s' ∧ s'.(k_procs) = s.(k_procs).
Proof.
  intros C [nm E] Hn Hnp.
  rewrite (acquire_ok _ _ nm) by (done || by eapply calm_wf).
  eexists. split; [done|]. split; [|split; [|by kproj]].
  - destruct C as [H1 H2 H3 H4 H5 H6 H7]. split; [|..|done|done].
    + simpl. replace (Z.of_nat (S (length H))) with (Z.of_nat (length H) + 1) by lia.
      eapply on_cpu_eq; [..|by apply on_cpu_enter]; by kproj.
    + intros l' Hl' Hn'. apply not_elem_of_cons in Hn' as [Hne Hn'].
      destruct (H2 l' Hl' Hn') as [nm' E']. exists nm'. kproj. by rewrite lookup_insert_ne.
    + intros l' [->|Hl']%elem_of_cons.
      * exists nm. kproj. apply lookup_insert_eq.
      * destruct (H3 l' Hl') as [nm' E']. exists nm'. kproj.
        by rewrite lookup_insert_ne by (by intros ->).
    + by constructor.
    + intros i [E'|E']%elem_of_cons; [by apply (Hnp i)|by apply (H5 i)].
  - split; [|by kproj]. unfold same_data. keq.
Qed.

Lemma acquire_free H s l :
  calm H s → lock_free l s → l ∉ H → (∀ i, l ≠ L_proc i) →
  ∃ s', acquire l s = Done tt s' ∧ calm (l :: H) s' ∧ quietly s s'.
Proof.
  intros C Hf Hn Hnp. destruct (acquire_free_procs H s l C Hf Hn Hnp) as (s' & E & C' & Q & _). by exists s'.
Qed.

Lemma acquire_calm H s l :
  calm H s → is_static l = true → l ∉ H → (∀ i, l ≠ L_proc i) →
  ∃ s', acquire l s = Done tt s' ∧ calm (l :: H) s' ∧ quietly s s'.
Proof. intros C Hst Hn Hnp. apply acquire_free; try done. by apply (calm_free _ _ C). Qed.

Lemma release_free_procs H s l :
  calm (l :: H) s →
  ∃ s', release l s = Done tt s' ∧ calm H s' ∧ quietly s s' ∧ lock_free l s' ∧ s'.(k_procs) = s.(k_procs).
Proof.
  intros [H1 H2 H3 H4 H5 H6 H7].
  destruct (release_at_depth p (Z.of_nat (length H)) s l) as (nm & E & -> & Hc).
  - simpl in H1. by replace (Z.of_nat (length H) + 1) with (Z.of_nat (S (length H))) by lia.
  - lia.
  - apply H3, list_elem_of_here.
  - apply NoDup_cons in H4 as [Hni H4]. eexists. split; [done|]. split.
    + split; [done|..|done| |done|done].
      * intros l' Hl' Hn. destruct (decide (l' = l)) as [->|Hne].
        { exists nm. kproj. apply lookup_insert_eq. }
        destruct (H2 l' Hl') as [nm' E']; [by apply not_elem_of_cons|].
        exists nm'. kproj. by rewrite lookup_insert_ne.
      * intros l' Hl'. destruct (H3 l') as [nm' E']; [by apply list_elem_of_further|].
        exists nm'. kproj. by rewrite lookup_insert_ne by (by intros ->).
      * intros i Hi. apply (H5 i). by apply list_elem_of_further.
    + split; [split; [|by kproj]; unfold same_data; keq|]. split; [|by kproj].
      exists nm. kproj. apply lookup_insert_eq.
Qed.

Lemma release_free H s l :
  calm (l :: H) s → ∃ s', release l s = Done tt s' ∧ calm H s' ∧ quietly s s' ∧ lock_free l s'.
Proof. intros C. destruct (release_free_procs H s l C) as (s' & E & C' & Q & Hf & _). by exists s'. Qed.

Lemma release_calm H s l :
  calm (l :: H) s → ∃ s', release l s = Done tt s' ∧ calm H s' ∧ quietly s s'.
Proof. intros C. destruct (release_free H s l C) as (s' & E & C' & Q & _). by exists s'. Qed.

Lemma curproc_calm H s : calm H s →
  ∃ s', curproc s = Done p s' ∧ calm H s' ∧ quietly s s'.
Proof.
  intros C. rewrite (curproc_ok p (Z.of_nat (length H))) by apply C.
  eexists. split; [done|]. split; [by apply calm_settle|apply quietly_settle].
Qed.

Lemma wakeup_calm_procs H s ch : calm H s →
  ∃ s', wakeup ch s = Done tt s' ∧ calm H s' ∧ quietly s s' ∧
    s'.(k_procs) = imap (woken (Some p) ch) s.(k_procs).
Proof.
  intros C. rewrite (wakeup_ok (Some p)).
  2:{ destruct C as [(c & Hc & Hp & Hn & Hwf) H2 H3 H4 H5 H6 H7].
      split; [by exists c|..|done]. intros i Hi Hne. apply H2; [|done].
      by apply is_static_proc. }
  eexists. split; [done|].
  assert (Hme : imap (woken (Some p) ch) (k_procs s) !! p = k_procs s !! p).
  { rewrite list_lookup_imap. destruct (k_procs s !! p); [|done]. simpl. f_equal.
    unfold woken. by rewrite decide_False by tauto. }
  split; [|split; [split; [unfold same_data; keq|by kproj]|by kproj]].
  apply calm_settle. destruct C as [H1 H2 H3 H4 H5 H6 H7]. split; try done.
  - kproj. by rewrite length_imap.
  - kproj. by rewrite Hme.
Qed.

Lemma wakeup_calm H s ch : calm H s →
  ∃ s', wakeup ch s = Done tt s' ∧ calm H s' ∧ quietly s s'.
Proof. intros C. destruct (wakeup_calm_procs H s ch C) as (s' & E & C' & Q & _). by exists s'. Qed.

(** [p] is resumed in [s'] and nothing else holds a lock. *)
Record awake (s s' : kstate) : Prop := {
  aw_resume : resume p s s';
  aw_free l : is_static l = true → l ≠ L_proc p → lock_free l s';
  aw_len : length s'.(k_procs) = NPROC
}.

Lemma sleep_calm ch lk s :
  calm [lk] s → is_static lk = true →
  ∃ s1 k, sleep ch lk s = Swtch s1 k ∧ same_data s s1 ∧ lock_free lk s1 ∧
    (∃ pr, s1.(k_procs) !! p = Some pr ∧ pr.(p_state) = SLEEPING ∧ pr.(p_chan) = ch) ∧
    ∀ s', awake s1 s' → ∃ s2, k s' = Done tt s2 ∧ calm [lk] s2 ∧ same_data s' s2.
Proof.
  intros [H1 H2 H3 H4 H5 H6 (pr & Hpr & Hpid)] Hst.
  assert (Hne : lk ≠ L_proc p) by (intros ->; apply (H5 p), list_elem_of_here).
  destruct (sleep_step p ch lk s) as (s1 & k & E & (Hps & _) & Hf1 & D1 & Hk).
  { done. }
  { apply H3, list_elem_of_here. }
  { done. }
  { apply H2; [apply is_static_proc; rewrite <-H6; by eapply lookup_lt_Some|apply H5]. }
  { by exists pr. }
  exists s1, k. split_and!; [done..| |].
  { eexists. rewrite Hps, list_lookup_alter_eq, Hpr. split; [reflexivity|done]. }
  intros s' [Hres Hfree Hlen]. destruct (Hk s' Hres) as (s2 & E2 & Hc2 & Hl2 & Hlp & Hh2 & Hp2 & D2 & Hlk2).
  { by apply Hfree. }
  destruct (rs_same _ _ _ Hres (set_p_state SLEEPING (set_p_chan ch pr))) as (pr' & Hpr' & _ & _ & _ & _ & Hpid').
  { by rewrite Hps, list_lookup_alter_eq, Hpr. }
  exists s2. split_and!; [done| |done]. split; try done.
  - intros l Hl Hn. apply not_elem_of_cons in Hn as [Hnl _].
    destruct (decide (l = L_proc p)) as [->|Hnp]; [done|].
    destruct (Hfree l Hl Hnp) as [nm E']. exists nm. by rewrite Hlk2.
  - intros l ->%list_elem_of_singleton. done.
  - by rewrite Hp2, length_alter.
  - rewrite Hp2, list_lookup_alter_eq, Hpr'. eexists. split; [reflexivity|]. simpl in *. congruence.
Qed.

(** A critical section of the process's own lock that only reads. *)
Lemma killed_calm H s pr : calm H s → s.(k_procs) !! p = Some pr →
  killed p s = Done pr.(p_killed) (settle s).
Proof.
  intros C Hp. assert (Hlt : (p < NPROC)%nat).
  { rewrite <-(calm_len _ _ C). by eapply lookup_lt_Some. }
  destruct (calm_free _ _ C (L_proc p)) as [nm E]; [by apply is_static_proc|apply C|].
  unfold killed, mbind, M_bind. rewrite (acquire_ok _ _ nm) by (done || by eapply calm_wf). cbn [obind].
  set (s1 := upd_lock _ _ _).
  assert (Eg : proc_get p p_killed s1 = Done pr.(p_killed) s1) by (mred; unfold s1; kproj; by rewrite Hp).
  rewrite Eg. cbn [obind]. rewrite (release_bracket s s1 _ nm) by (done || by eapply calm_wf).
  unfold mret, M_ret. cbn [obind]. unfold s1. done_eq.
Qed.

(** With a lock held, the interrupt state is not recorded again. *)
Lemma settle_id s h H : calm (h :: H) s → settle s = s.
Proof.
  intros C. destruct (calm_cpu _ _ C) as (c & Hc & _ & Hn & _). keq.
  apply list_alter_same. intros x Hx. rewrite Hc in Hx. injection Hx as <-. unfold cpu_settle.
  rewrite Hn. simpl length. by rewrite (proj2 (Z.eqb_neq _ _)) by lia.
Qed.

(** ** Sleep locks *)

(** A sleep lock held by the process, and a free one. *)
Definition sl_mine (l : slid) (s : kstate) : Prop :=
  ∃ name, s.(k_slocks) !! l = Some (mk_sleeplock 1 name pid).
Definition sl_free (l : slid) (s : kstate) : Prop :=
  ∃ name n, s.(k_slocks) !! l = Some (mk_sleeplock 0 name n).

(** Change the state of one sleep lock. *)
Definition put_sl (l : slid) (v n : Z) (s : kstate) : kstate :=
  set_k_slocks (alter (λ x, mk_sleeplock v x.(sl_name) n) l s.(k_slocks)) s.

Lemma put_sl_calm l v n H s : calm H s → calm H (put_sl l v n s).
Proof. intros C. by eapply calm_upd. Qed.

Lemma quietly_put_sl l v n s s' : quietly s s' → quietly (put_sl l v n s) (put_sl l v n s').
Proof. intros Q. by apply (quietly_upd (put_sl l v n)). Qed.

Lemma sl_get_ok {A} l sl (f : sleeplock → A) s :
  s.(k_slocks) !! l = Some sl → sl_get l f s = Done (f sl) s.
Proof. intros E. unfold sl_get. mred. by rewrite E. Qed.

Lemma sl_set_ok l sl f v n s :
  s.(k_slocks) !! l = Some sl → f sl = mk_sleeplock v sl.(sl_name) n →
  sl_set l f s = Done tt (put_sl l v n s).
Proof.
  intros E Ef. unfold sl_set, put_sl. mred. rewrite E. simpl. rewrite Ef. done_eq.
  apply map_eq. intros k. destruct (decide (k = l)) as [->|Hne].
  - by rewrite lookup_insert_eq, lookup_alter_eq, E.
  - by rewrite lookup_insert_ne, lookup_alter_ne.
Qed.

Lemma put_sl_put_sl l v n v' n' s : put_sl l v n (put_sl l v' n' s) = put_sl l v n s.
Proof. 
  unfold put_sl. keq. apply map_eq. intros k. destruct (decide (k = l)) as [->|Hne].
  - rewrite !lookup_alter_eq. by destruct (k_slocks s !! l).
  - by rewrite !lookup_alter_ne.
Qed.

Lemma put_sl_lookup l v n sl s :
  s.(k_slocks) !! l = Some sl →
  (put_sl l v n s).(k_slocks) !! l = Some (mk_sleeplock v sl.(sl_name) n).
Proof. intros E. unfold put_sl. kproj. by rewrite lookup_alter_eq, E. Qed.

Lemma quietly_slocks s s' : quietly s s' → s'.(k_slocks) = s.(k_slocks).
Proof. intros Q. by apply (quietly_get k_slocks _ _ Q). Qed.

Lemma acquiresleep_calm H s l :
  calm H s → is_static (L_sl l) = true → L_sl l ∉ H → sl_free l s →
  ∃ s', acquiresleep l s = Done tt s' ∧ calm H s' ∧ quietly (put_sl l 1 pid s) s'.
Proof.
  intros C Hst Hn (name & n & E). unfold acquiresleep. mred.
  destruct (acquire_calm H s (L_sl l)) as (s1 & E1 & C1 & Q1); [done..|].
  rewrite E1. cbn [obind loop]. mred.
  assert (E' : k_slocks s1 !! l = Some (mk_sleeplock 0 name n)) by by rewrite (quietly_slocks _ _ Q1).
  rewrite (sl_get_ok _ _ _ _ E'). cbn [obind sl_locked Z.eqb negb]. mred.
  rewrite (sl_set_ok _ _ _ 1 n _ E') by done. cbn [obind].
  destruct (curproc_calm _ _ (put_sl_calm l 1 n _ _ C1)) as (s2 & E2 & C2 & Q2).
  rewrite E2. cbn [obind]. destruct (calm_me _ _ C2) as (pr & Hpr & Hpid).
  rewrite Hpr. cbn [obind]. rewrite Hpid.
  pose proof (put_sl_lookup l 1 n _ _ E') as E3. rewrite <-(quietly_slocks _ _ Q2) in E3.
  rewrite (sl_set_ok _ _ _ 1 pid _ E3) by done. cbn [obind].
  destruct (release_calm _ _ _ (put_sl_calm l 1 pid _ _ C2)) as (s4 & E4 & C4 & Q4).
  rewrite E4. eexists. split; [done|]. split; [done|].
  etrans; [|exact Q4]. etrans; [|apply quietly_put_sl, Q2]. rewrite put_sl_put_sl.
  by apply quietly_put_sl.
Qed.

Lemma releasesleep_calm H s l :
  calm H s → is_static (L_sl l) = true → L_sl l ∉ H → is_Some (s.(k_slocks) !! l) →
  ∃ s', releasesleep l s = Done tt s' ∧ calm H s' ∧ quietly (put_sl l 0 0 s) s'.
Proof.
  intros C Hst Hn [sl E]. unfold releasesleep. mred.
  destruct (acquire_calm H s (L_sl l)) as (s1 & E1 & C1 & Q1); [done..|].
  rewrite E1. cbn [obind].
  assert (E' : k_slocks s1 !! l = Some sl) by by rewrite (quietly_slocks _ _ Q1).
  rewrite (sl_set_ok _ _ _ 0 sl.(sl_pid) _ E') by done. cbn [obind].
  rewrite (sl_set_ok _ _ _ 0 0 _ (put_sl_lookup _ _ _ _ _ E')) by done. cbn [obind].
  rewrite put_sl_put_sl.
  destruct (wakeup_calm _ _ (Ch_sl l) (put_sl_calm l 0 0 _ _ C1)) as (s2 & E2 & C2 & Q2).
  rewrite E2. cbn [obind].
  destruct (release_calm _ _ _ C2) as (s3 & E3 & C3 & Q3). rewrite E3.
  eexists. split; [done|]. split; [done|]. etrans; [|exact Q3]. etrans; [|exact Q2].
  by apply quietly_put_sl.
Qed.

Lemma holdingsleep_calm H s l sl :
  calm H s → is_static (L_sl l) = true → L_sl l ∉ H → s.(k_slocks) !! l = Some sl →
  ∃ s', holdingsleep l s = Done (negb (sl.(sl_locked) =? 0) && (sl.(sl_pid) =? pid)) s' ∧
    calm H s' ∧ quietly s s'.
Proof.
  intros C Hst Hn E. unfold holdingsleep. mred.
  destruct (acquire_calm H s (L_sl l)) as (s1 & E1 & C1 & Q1); [done..|].
  rewrite E1. cbn [obind].
  assert (E' : k_slocks s1 !! l = Some sl) by by rewrite (quietly_slocks _ _ Q1).
  rewrite (sl_get_ok _ _ _ _ E'). cbn [obind].
  destruct (negb (sl.(sl_locked) =? 0)); cbn [andb]; mred.
  - rewrite (sl_get_ok _ _ _ _ E'). cbn [obind].
    destruct (curproc_calm _ _ C1) as (s2 & E2 & C2 & Q2). rewrite E2. cbn [obind].
    destruct (calm_me _ _ C2) as (pr & Hpr & Hpid). rewrite Hpr. cbn [obind]. rewrite Hpid.
    destruct (release_calm _ _ _ C2) as (s3 & E3 & C3 & Q3). rewrite E3. cbn [obind].
    eexists. split; [done|]. split; [done|]. by etrans; [|exact Q3]; etrans.
  - destruct (release_calm _ _ _ C1) as (s3 & E3 & C3 & Q3). rewrite E3. cbn [obind].
    eexists. split; [done|]. split; [done|]. by etrans.
Qed.

End Quiet.

(** ** A quiet machine: hart 0 runs process 3 and every lock is free *)

#[export] Instance waits0 : WaitBound := 0%nat.

Lemma static_free l : is_static l = true → lock_free l kstate0.
Proof.
  unfold is_static. rewrite bool_decide_eq_true. intros Hl. unfold lock_free.
  change (k_locks kstate0) with (list_to_map ((λ p, (p.1, unlocked p.2)) <$> static_locks) : gmap lockid spinlock).
  destruct ((list_to_map _ : gmap lockid spinlock) !! l) as [lk|] eqn:E.
  - apply elem_of_list_to_map_2, list_elem_of_fmap in E as ((l' & nm) & [= -> ->] & _). by exists nm.
  - exfalso. apply not_elem_of_list_to_map in E. apply E. rewrite <-list_fmap_compose. exact Hl.
Qed.

Lemma kstate_run_calm : calm 3 7 [] (kstate_run 0 []).
Proof.
  split; [|..|by vm_compute|by eexists; split; [vm_compute; reflexivity|]].
  - apply (kstate_run_cpu 0 []). lia.
  - intros l Hl _. apply (static_free l Hl).
  - intros l Hl. by apply elem_of_nil in Hl.
  - constructor.
  - intros i Hi. by apply elem_of_nil in Hi.
Qed.
