(* ===== verification/Bio.v ===== *)
(** * Buffer cache ([kernel/bio.c])

    The cache is the table [k_bufs]: [bcache.buf] and, at index [NBUF], the
    head of the list that orders the buffers by how recently they were used.
    The disk is reached through the interface [BlockDev]. *)

From S2P Require Import Prelude State Spinlock Cstring Riscv Kalloc Vm Proc ProcFacts Sleeplock.

Definition BSIZE : Z := 1024.

(** ** The disk driver, as the cache sees it

    [disk_rw b write] is [virtio_disk_rw(b, write)]: it returns when the
    transfer between the buffer [b] and the block it caches is complete. *)

Class BlockDev : Type := disk_rw : nat → bool → M kstate unit.

(** The contents of a block; a disk is blank where nothing was stored. *)
Definition disk_block (d : gmap Z (list Z)) (n : Z) : list Z :=
  default (replicate (Z.to_nat BSIZE) 0) (d !! n).

(** What a transfer does: a write stores the buffer's data in the block, a read
    loads it. *)
Definition transfer (i : nat) (write : bool) (b : buf) (s : kstate) : kstate :=
  if write then
    set_k_dwrites (s.(k_dwrites) ++ [(b.(b_blockno), b.(b_data))])
      (set_k_disk (<[b.(b_blockno) := b.(b_data)]> s.(k_disk)) s)
  else upd_buf i (set_b_data (disk_block s.(k_disk) b.(b_blockno))) s.

(** The contract of the driver. *)
Class BlockDevOk `{!BlockDev} : Prop :=
  disk_rw_ok i write b s :
    s.(k_bufs) !! i = Some b → disk_rw i write s = Done tt (transfer i write b s).

(** The reference device: a disk that completes each transfer at once. *)
Definition ideal_disk : BlockDev := λ i write,
  bs ← gets k_bufs;
  b ← opt_or_fault (bs !! i);
  modify (transfer i write b).

#[global] Instance ideal_disk_ok : @BlockDevOk ideal_disk.
Proof. intros i w b s Hb. unfold disk_rw, ideal_disk. mred. rewrite Hb. by mred. Qed.

Section Bio.
Context {HK : KernelImage} {WB : WaitBound} {BD : BlockDev}.

(** [&bcache.head] *)
Definition bhead : nat := NBUF.

(** Put [b] after the head of the list. *)
Definition blink (b : nat) : M kstate unit :=
  n ← buf_get bhead b_next;
  buf_set b (set_b_next n);;
  buf_set b (set_b_prev bhead);;
  n ← buf_get bhead b_next;
  buf_set n (set_b_prev b);;
  buf_set bhead (set_b_next b).

Definition binit : M kstate unit :=
  initlock L_bcache "bcache";;
  buf_set bhead (set_b_prev bhead);;
  buf_set bhead (set_b_next bhead);;
  for_each (seq 0 NBUF) (λ b,
    n ← buf_get bhead b_next;
    buf_set b (set_b_next n);;
    buf_set b (set_b_prev bhead);;
    initsleeplock (SL_buf b) "buffer";;
    n ← buf_get bhead b_next;
    buf_set n (set_b_prev b);;
    buf_set bhead (set_b_next b)).

(** Is the block already cached?  [for(b = bcache.head.next; b != &bcache.head; ...)] *)
Definition bget_cached (dev blockno : Z) : M kstate (option nat) :=
  b ← buf_get bhead b_next;
  loop (S NBUF) (λ b,
    if decide (b = bhead) then mret (inr None) else
    d ← buf_get b b_dev;
    n ← buf_get b b_blockno;
    if (d =? dev) && (n =? blockno) then mret (inr (Some b)) else
    b' ← buf_get b b_next;
    mret (inl b')) b.

(** Not cached: the least recently used unused buffer. *)
Definition bget_victim : M kstate (option nat) :=
  b ← buf_get bhead b_prev;
  loop (S NBUF) (λ b,
    if decide (b = bhead) then mret (inr None) else
    r ← buf_get b b_refcnt;
    if r =? 0 then mret (inr (Some b)) else
    b' ← buf_get b b_prev;
    mret (inl b')) b.

Definition bget (dev blockno : Z) : M kstate nat :=
  acquire L_bcache;;
  c ← bget_cached dev blockno;
  match c with
  | Some b =>
      buf_set b (λ x, set_b_refcnt (u32 (x.(b_refcnt) + 1)) x);;
      release L_bcache;;
      acquiresleep (SL_buf b);;
      mret b
  | None =>
      v ← bget_victim;
      match v with
      | Some b =>
          buf_set b (set_b_dev dev);;
          buf_set b (set_b_blockno blockno);;
          buf_set b (set_b_valid false);;
          buf_set b (set_b_refcnt 1);;
          release L_bcache;;
          acquiresleep (SL_buf b);;
          mret b
      | None => panic "bget: no buffers"
      end
  end.

Definition bread (dev blockno : Z) : M kstate nat :=
  b ← bget dev blockno;
  v ← buf_get b b_valid;
  (if negb v then
     disk_rw b false;;
     buf_set b (set_b_valid true)
   else mret tt);;
  mret b.

Definition bwrite (b : nat) : M kstate unit :=
  h ← holdingsleep (SL_buf b);
  if negb h then panic "bwrite" else disk_rw b true.

Definition brelse (b : nat) : M kstate unit :=
  h ← holdingsleep (SL_buf b);
  if negb h then panic "brelse" else
  releasesleep (SL_buf b);;
  acquire L_bcache;;
  buf_set b (λ x, set_b_refcnt (u32 (x.(b_refcnt) - 1)) x);;
  r ← buf_get b b_refcnt;
  (if r =? 0 then
     (* no one is waiting for it. *)
     n ← buf_get b b_next;
     p ← buf_get b b_prev;
     buf_set n (set_b_prev p);;
     buf_set p (set_b_next n);;
     blink b
   else mret tt);;
  release L_bcache.

Definition bpin (b : nat) : M kstate unit :=
  acquire L_bcache;;
  buf_set b (λ x, set_b_refcnt (u32 (x.(b_refcnt) + 1)) x);;
  release L_bcache.

Definition bunpin (b : nat) : M kstate unit :=
  acquire L_bcache;;
  buf_set b (λ x, set_b_refcnt (u32 (x.(b_refcnt) - 1)) x);;
  release L_bcache.

End Bio.
