(* ===== verification/BioFacts.v ===== *)
(** * Buffer cache: theorems ([kernel/bio.c])

    [bcache dev V s]: the table is a doubly linked ring in the order of use
    [bv_lru V], no block is cached twice, and the logical contents [bv_data V]
    of the disk are in the cache for the referenced blocks and on the disk for
    the others.  Each operation is shown to maintain it, so that its clients
    reason about [V] alone. *)

From S2P Require Import Prelude State Spinlock Cstring Riscv Kalloc Vm Proc ProcFacts Sleeplock.
From S2P Require Import Quiet Bio.

(** ** Circular lists given by a successor function *)

Section Path.
Implicit Types (f g : nat → nat) (a b i z : nat) (l : list nat).

(** From [a], [f] goes through the elements of [l] and then to [z]. *)
Fixpoint path f a l z : Prop :=
  match l with
  | [] => f a = z
  | b :: l => f a = b ∧ path f b l z
  end.

Definition fupd f k v : nat → nat := λ i, if decide (i = k) then v else f i.

(** The last element of [a :: l]. *)
Definition last_of a l : nat := default a (last l).
(** The first element of [l ++ [z]]. *)
Definition first_of l z : nat := default z (head l).

Lemma path_ext f g a l z : (∀ i, i ∈ a :: l → f i = g i) → path f a l z → path g a l z.
Proof.
  revert a. induction l as [|b l IH]; intros a Hfg; simpl.
  - rewrite Hfg by apply list_elem_of_here. done.
  - intros [H1 H2]. rewrite <-Hfg by apply list_elem_of_here. split; [done|].
    apply IH; [|done]. intros i Hi. apply Hfg. by apply list_elem_of_further.
Qed.

Lemma path_fupd f k v a l z : k ∉ a :: l → path f a l z → path (fupd f k v) a l z.
Proof.
  intros Hk. apply path_ext. intros i Hi. unfold fupd.
  rewrite decide_False; [done|]. by intros ->.
Qed.

Lemma path_app f a l1 b l2 z : path f a (l1 ++ b :: l2) z ↔ path f a l1 b ∧ path f b l2 z.
Proof.
  revert a. induction l1 as [|c l1 IH]; intros a; simpl; [tauto|]. rewrite IH. tauto.
Qed.

Lemma path_first f a l z : path f a l z → f a = first_of l z.
Proof. destruct l; simpl; [done|]. by intros [-> _]. Qed.

Lemma last_of_cons a b l : last_of a (b :: l) = last_of b l.
Proof. unfold last_of. rewrite last_cons. by destruct (last l). Qed.

Lemma last_of_elem a l : last_of a l ∈ a :: l.
Proof.
  revert a. induction l as [|b l IH]; intros a; [apply list_elem_of_here|].
  rewrite last_of_cons. apply list_elem_of_further, IH.
Qed.

(** Redirect the end of a path. *)
Lemma path_relast f a l z z' :
  NoDup (a :: l) → path f a l z → path (fupd f (last_of a l) z') a l z'.
Proof.
  revert a. induction l as [|b l IH]; intros a Hnd Hp.
  - simpl. unfold fupd, last_of. simpl. by rewrite decide_True.
  - destruct Hp as [H1 H2]. apply NoDup_cons in Hnd as [Ha Hnd].
    rewrite last_of_cons. simpl. split; [|by apply IH].
    unfold fupd. rewrite decide_False; [done|]. intros ->. apply Ha, last_of_elem.
Qed.

Lemma last_of_reverse a l : last_of a (reverse l) = first_of l a.
Proof. unfold last_of, first_of. by rewrite last_reverse. Qed.

Lemma first_of_reverse a l : first_of (reverse l) a = last_of a l.
Proof. unfold last_of, first_of. by rewrite head_reverse. Qed.

(** Take [i] out of a ring. *)
Lemma path_unlink f h l1 i l2 :
  NoDup (h :: l1 ++ i :: l2) → path f h (l1 ++ i :: l2) h →
  path (fupd f (last_of h l1) (f i)) h (l1 ++ l2) h.
Proof.
  intros Hnd Hp. apply path_app in Hp as [Hp1 Hp2].
  change (h :: l1 ++ i :: l2) with ((h :: l1) ++ i :: l2) in Hnd.
  apply NoDup_app in Hnd as (Hnd1 & Hd & Hnd2).
  pose proof (path_relast f h l1 i (f i) Hnd1 Hp1) as Hq.
  destruct l2 as [|c l2]; [rewrite app_nil_r; simpl in Hp2; by rewrite Hp2 in Hq |- *|].
  destruct Hp2 as [<- Hp2]. apply path_app. split; [done|].
  apply path_fupd; [|done]. intros Hin. apply (Hd (last_of h l1)); [apply last_of_elem|].
  by apply list_elem_of_further.
Qed.

(** Put [i] first, in the direction of the ring and against it. *)
Lemma path_link f h l i :
  NoDup (h :: l) → i ∉ h :: l → path f h l h →
  path (fupd (fupd f i (f h)) h i) h (i :: l) h.
Proof.
  intros Hnd Hi Hp. apply not_elem_of_cons in Hi as [Hih Hil]. apply NoDup_cons in Hnd as [Hhl _].
  assert (Hg : ∀ j, j ∈ l → fupd (fupd f i (f h)) h i j = f j).
  { intros j Hj. unfold fupd. rewrite !decide_False; [done|by intros ->..]. }
  simpl. split; [unfold fupd; by rewrite decide_True|].
  assert (E : fupd (fupd f i (f h)) h i i = f h)
    by (unfold fupd; rewrite decide_False, decide_True by done; done).
  destruct l as [|c l]; simpl; rewrite E; [done|]. destruct Hp as [Hc Hp]. split; [done|].
  eapply path_ext; [|exact Hp]. intros j Hj. symmetry. by apply Hg.
Qed.

Lemma path_link_rev f h l i :
  NoDup (h :: l) → i ∉ h :: l → path f h (reverse l) h →
  path (fupd (fupd f i h) (first_of l h) i) h (reverse (i :: l)) h.
Proof.
  intros Hnd Hi Hp. rewrite reverse_cons. apply path_app. split.
  - rewrite <-last_of_reverse. apply (path_relast _ _ _ h).
    + apply NoDup_cons in Hnd as [H1 H2]. apply NoDup_cons.
      split; [by rewrite elem_of_reverse|by rewrite reverse_Permutation].
    + apply path_fupd; [|done]. by rewrite elem_of_cons, elem_of_reverse, <-elem_of_cons.
  - simpl. unfold fupd. rewrite decide_False, decide_True; [done|done|].
    intros ->. apply Hi. destruct l; simpl; [apply list_elem_of_here|].
    apply list_elem_of_further, list_elem_of_here.
Qed.

(** The four assignments of [brelse] that move [i] to the front. *)
Lemma path_move (nx pv : nat → nat) h l1 i l2 :
  NoDup (h :: l1 ++ i :: l2) → path nx h (l1 ++ i :: l2) h →
  path pv h (reverse (l1 ++ i :: l2)) h →
  let nx1 := fupd nx (pv i) (nx i) in
  let pv1 := fupd pv (nx i) (pv i) in
  path (fupd (fupd nx1 i (nx1 h)) h i) h (i :: l1 ++ l2) h ∧
  path (fupd (fupd pv1 i h) (nx1 h) i) h (reverse (i :: l1 ++ l2)) h.
Proof.
  intros Hnd Hn Hp nx1 pv1.
  assert (Hnd' : NoDup (h :: l1 ++ l2) ∧ i ∉ h :: l1 ++ l2).
  { rewrite <-Permutation_middle in Hnd. change (h :: i :: l1 ++ l2) with ([h] ++ i :: (l1 ++ l2)) in Hnd.
    rewrite <-Permutation_middle in Hnd. apply NoDup_cons in Hnd as [H1 H2]. done. }
  destruct Hnd' as [Hnd' Hi].
  rewrite reverse_app, reverse_cons, <-app_assoc in Hp. simpl in Hp.
  assert (Epv : pv i = last_of h l1).
  { apply path_app in Hp as [_ Hp]. rewrite (path_first _ _ _ _ Hp). apply first_of_reverse. }
  assert (Enx : nx i = last_of h (reverse l2)).
  { apply path_app in Hn as [_ Hn]. rewrite (path_first _ _ _ _ Hn). symmetry. apply last_of_reverse. }
  assert (Hn1 : path nx1 h (l1 ++ l2) h).
  { unfold nx1. rewrite Epv. by apply path_unlink. }
  split; [by apply path_link|].
  rewrite (path_first _ _ _ _ Hn1). apply path_link_rev; [done..|].
  unfold pv1. rewrite Enx, reverse_app. apply path_unlink; [|done].
  rewrite NoDup_cons in Hnd |- *. destruct Hnd as [H1 H2].
  assert (Hr : reverse l2 ++ i :: reverse l1 = reverse (l1 ++ i :: l2)).
  { by rewrite reverse_app, reverse_cons, <-app_assoc. }
  rewrite Hr. split; [by rewrite elem_of_reverse|by rewrite reverse_Permutation].
Qed.

End Path.

(** ** The cache as its clients see it *)

Definition bnext (bs : list buf) (i : nat) : nat := default 0%nat (b_next <$> bs !! i).
Definition bprev (bs : list buf) (i : nat) : nat := default 0%nat (b_prev <$> bs !! i).

Record bview : Type := mk_bview {
  bv_data : Z → list Z;   (** the contents of each block *)
  bv_ref : Z → Z;         (** the references to it in the cache *)
  bv_held : gmap nat Z;   (** the locked buffers and the blocks they hold *)
  bv_lru : list nat       (** the buffers, most recently used first *)
}.

Definition zupd {A} (f : Z → A) (k : Z) (v : A) : Z → A := λ n, if decide (n = k) then v else f n.

Lemma zupd_eq {A} (f : Z → A) k v : zupd f k v k = v.
Proof. unfold zupd. by rewrite decide_True. Qed.

Lemma zupd_ne {A} (f : Z → A) k v n : n ≠ k → zupd f k v n = f n.
Proof. intros Hn. unfold zupd. by rewrite decide_False. Qed.

Section BioFacts.
Context {HK : KernelImage} {WB : WaitBound} {BD : BlockDev} {BDok : BlockDevOk}.
Context (p : nat) (pid dev : Z).
Implicit Types (s : kstate) (V : bview) (i j : nat) (b : buf) (n : Z).

Local Abbreviation calm := (calm p pid).
Local Abbreviation quietly := (quietly p).
Local Abbreviation sl_mine := (sl_mine pid).

Record bcache (V : bview) (s : kstate) : Prop := {
  bc_len : length s.(k_bufs) = S NBUF;
  bc_next : path (bnext s.(k_bufs)) bhead V.(bv_lru) bhead;
  bc_prev : path (bprev s.(k_bufs)) bhead (reverse V.(bv_lru)) bhead;
  bc_lru : V.(bv_lru) ≡ₚ seq 0 NBUF;
  bc_sl i : (i < NBUF)%nat →
    if V.(bv_held) !! i is Some _ then sl_mine (SL_buf i) s else sl_free (SL_buf i) s;
  bc_ref i b : (i < NBUF)%nat → s.(k_bufs) !! i = Some b →
    b.(b_refcnt) = if b.(b_dev) =? dev then V.(bv_ref) b.(b_blockno) else 0;
  bc_data i b : (i < NBUF)%nat → s.(k_bufs) !! i = Some b → b.(b_dev) = dev →
    b.(b_valid) = true → b.(b_data) = V.(bv_data) b.(b_blockno);
  bc_uniq i j b c : (i < NBUF)%nat → (j < NBUF)%nat → s.(k_bufs) !! i = Some b →
    s.(k_bufs) !! j = Some c → b.(b_dev) = dev → c.(b_dev) = dev →
    b.(b_blockno) = c.(b_blockno) → i = j;
  bc_held i n : V.(bv_held) !! i = Some n →
    (i < NBUF)%nat ∧ 0 < V.(bv_ref) n ∧ ∃ b, s.(k_bufs) !! i = Some b ∧ b.(b_dev) = dev ∧
      b.(b_blockno) = n ∧ b.(b_valid) = true;
  bc_cached n : 0 < V.(bv_ref) n →
    ∃ i b, (i < NBUF)%nat ∧ s.(k_bufs) !! i = Some b ∧ b.(b_dev) = dev ∧
      b.(b_blockno) = n ∧ b.(b_valid) = true;
  bc_range n : 0 ≤ V.(bv_ref) n < 2 ^ 32;
  bc_clean n : V.(bv_ref) n = 0 → V.(bv_data) n = disk_block s.(k_disk) n;
  bc_size n : length (V.(bv_data) n) = Z.to_nat BSIZE
}.

(** The parts of the state that the operations of the cache may change; of the
    sleep locks, only those of the buffers. *)
Definition same_ilocks (s s' : kstate) : Prop :=
  ∀ i, s'.(k_slocks) !! SL_inode i = s.(k_slocks) !! SL_inode i.
Definition bframe (s s' : kstate) : Prop :=
  quietly (set_k_bufs s'.(k_bufs) (set_k_slocks s'.(k_slocks)
    (set_k_disk s'.(k_disk) (set_k_dwrites s'.(k_dwrites) s)))) s' ∧ same_ilocks s s'.

(** There is a buffer for block [n]. *)
Definition room (V : bview) (n : Z) : Prop :=
  0 < V.(bv_ref) n ∨
  ∃ l : list Z, (∀ m, 0 < V.(bv_ref) m → m ∈ l) ∧ (length l < NBUF)%nat.

Lemma bcache_ext V s s' :
  bcache V s → s'.(k_bufs) = s.(k_bufs) → s'.(k_slocks) = s.(k_slocks) →
  s'.(k_disk) = s.(k_disk) → bcache V s'.
Proof.
  intros [H1 H2 H3 H4 H5 H6 H7 H8 H9 H10 H11 H12 H13] E1 E2 E3.
  split; rewrite ?E1, ?E3; try done.
  intros i Hi. specialize (H5 i Hi). unfold Quiet.sl_mine, sl_free in *. by rewrite E2.
Qed.

Lemma quietly_bcache V s s' : quietly s s' → bcache V s → bcache V s'.
Proof.
  intros Q B. eapply bcache_ext; [done|..];
    [by apply (quietly_get p k_bufs _ _ Q)|by apply (quietly_get p k_slocks _ _ Q)
    |by apply (quietly_get p k_disk _ _ Q)].
Qed.

Lemma bcache_buf V s i : bcache V s → (i < S NBUF)%nat → ∃ b, s.(k_bufs) !! i = Some b.
Proof. intros B Hi. apply lookup_lt_is_Some_2. by rewrite (bc_len _ _ B). Qed.

Lemma lru_elem V s i : bcache V s → i ∈ V.(bv_lru) ↔ (i < NBUF)%nat.
Proof. intros B. rewrite (bc_lru _ _ B), elem_of_seq. lia. Qed.

Lemma lru_nodup V s : bcache V s → NoDup (bhead :: V.(bv_lru)).
Proof.
  intros B. apply NoDup_cons. split.
  - rewrite (lru_elem _ _ _ B). unfold bhead. lia.
  - rewrite (bc_lru _ _ B). apply NoDup_seq.
Qed.

Lemma lru_length V s : bcache V s → length V.(bv_lru) = NBUF.
Proof. intros B. rewrite (bc_lru _ _ B). apply length_seq. Qed.

(** ** The scans of [bget] *)

Lemma scan_loop (body : nat → M kstate (nat + option nat)) (P : nat → bool) f h s fuel l x :
  body h s = Done (inr None) s →
  (∀ i, i ∈ l → body i s = Done (if P i then inr (Some i) else inl (f i)) s) →
  (length l < fuel)%nat → x = first_of l h →
  (if l is a :: l' then path f a l' h else True) →
  loop fuel body x s = Done (snd <$> list_find P l) s.
Proof.
  intros Hh Hb. revert l x Hb. induction fuel as [|fuel IH]; intros l x Hb Hlen -> Hp; [lia|].
  cbn [loop]. mred. destruct l as [|a l]; cbn [first_of head default list_find].
  - unfold first_of. simpl. by rewrite Hh.
  - unfold first_of. simpl. rewrite Hb by apply list_elem_of_here.
    destruct (P a) eqn:EP; cbn [obind]; [done|].
    rewrite (IH l); [|by intros i Hi; apply Hb, list_elem_of_further|simpl in Hlen; lia
                     |by apply path_first|by destruct l; [|destruct Hp]].
    by destruct (list_find P l) as [[k y]|].
Qed.

Definition is_block (n : Z) (b : buf) : bool := (b.(b_dev) =? dev) && (b.(b_blockno) =? n).

(** The two scans in terms of the table. *)
Definition find_cached (n : Z) (V : bview) (bs : list buf) : option nat :=
  snd <$> list_find (λ i, default false (is_block n <$> bs !! i)) V.(bv_lru).

Definition find_victim (V : bview) (bs : list buf) : option nat :=
  snd <$> list_find (λ i, default false ((λ b, b.(b_refcnt) =? 0) <$> bs !! i)) (reverse V.(bv_lru)).

Lemma bget_cached_ok V s n :
  bcache V s → bget_cached dev n s = Done (find_cached n V s.(k_bufs)) s.
Proof.
  intros B. unfold bget_cached, find_cached. mred.
  destruct (bcache_buf V s bhead B) as [hb Hhb]; [unfold bhead; lia|]. rewrite Hhb. cbn [obind].
  rewrite (scan_loop _ (λ i, default false (is_block n <$> s.(k_bufs) !! i)) (bnext s.(k_bufs))
             bhead s (S NBUF) V.(bv_lru)); [done|..].
  - by rewrite decide_True.
  - intros i Hi. apply (lru_elem _ _ _ B) in Hi. rewrite decide_False by (unfold bhead; lia).
    destruct (bcache_buf V s i B) as [b Hb]; [lia|]. mred. rewrite Hb. cbn [obind]. mred.
    rewrite Hb. cbn [obind]. mred. simpl. unfold is_block.
    destruct (_ && _); mred; [done|]. rewrite Hb. cbn [obind]. unfold bnext. by rewrite Hb.
  - rewrite (lru_length _ _ B). lia.
  - pose proof (path_first _ _ _ _ (bc_next _ _ B)) as E. unfold bnext in E. by rewrite Hhb in E.
  - pose proof (bc_next _ _ B) as E. destruct V.(bv_lru); [done|]. apply E.
Qed.

Lemma bget_victim_ok V s :
  bcache V s → bget_victim s = Done (find_victim V s.(k_bufs)) s.
Proof.
  intros B. unfold bget_victim, find_victim. mred.
  destruct (bcache_buf V s bhead B) as [hb Hhb]; [unfold bhead; lia|]. rewrite Hhb. cbn [obind].
  rewrite (scan_loop _ (λ i, default false ((λ b, b.(b_refcnt) =? 0) <$> s.(k_bufs) !! i))
             (bprev s.(k_bufs)) bhead s (S NBUF) (reverse V.(bv_lru))); [done|..].
  - by rewrite decide_True.
  - intros i Hi. apply elem_of_reverse, (lru_elem _ _ _ B) in Hi.
    rewrite decide_False by (unfold bhead; lia).
    destruct (bcache_buf V s i B) as [b Hb]; [lia|]. mred. rewrite Hb. cbn [obind]. simpl.
    destruct (_ =? 0); mred; [done|]. rewrite Hb. cbn [obind]. unfold bprev. by rewrite Hb.
  - rewrite length_reverse, (lru_length _ _ B). lia.
  - pose proof (path_first _ _ _ _ (bc_prev _ _ B)) as E. unfold bprev in E. by rewrite Hhb in E.
  - pose proof (bc_prev _ _ B) as E. destruct (reverse V.(bv_lru)); [done|]. apply E.
Qed.

Lemma find_Some {A} (P : A → bool) l x :
  snd <$> list_find P l = Some x → x ∈ l ∧ P x = true.
Proof.
  intros ([k y] & E & ->)%fmap_Some. apply list_find_Some in E as (Hk & HP & _).
  split; [by apply list_elem_of_lookup_2 in Hk|]. by apply Is_true_eq_true.
Qed.

Lemma find_None {A} (P : A → bool) l :
  snd <$> list_find P l = None → ∀ x, x ∈ l → P x = false.
Proof.
  intros E%fmap_None x Hx. apply list_find_None in E. rewrite Forall_forall in E.
  specialize (E x Hx). by destruct (P x).
Qed.

Lemma find_cached_Some V s n i :
  bcache V s → find_cached n V s.(k_bufs) = Some i →
  ∃ b, (i < NBUF)%nat ∧ s.(k_bufs) !! i = Some b ∧ b.(b_dev) = dev ∧ b.(b_blockno) = n.
Proof.
  intros B (Hi & HP)%find_Some. apply (lru_elem _ _ _ B) in Hi.
  destruct (bcache_buf V s i B) as [b Hb]; [lia|]. exists b. split; [done|]. split; [done|].
  rewrite Hb in HP. apply andb_true_iff in HP as [H1 H2]. by apply Z.eqb_eq in H1, H2.
Qed.

Lemma find_cached_None V s n j c :
  bcache V s → find_cached n V s.(k_bufs) = None → (j < NBUF)%nat →
  s.(k_bufs) !! j = Some c → c.(b_dev) = dev → c.(b_blockno) ≠ n.
Proof.
  intros B HN Hj Hc Hd Hn. pose proof (find_None _ _ HN j) as HP. cbv beta in HP. rewrite Hc in HP. simpl in HP.
  unfold is_block in HP. rewrite Hd, Hn, !Z.eqb_refl in HP.
  discriminate HP. by apply (lru_elem _ _ _ B).
Qed.

Lemma find_cached_unref V s n :
  bcache V s → find_cached n V s.(k_bufs) = None → V.(bv_ref) n = 0.
Proof.
  intros B HN. destruct (decide (0 < V.(bv_ref) n)) as [Hr|Hr].
  - destruct (bc_cached _ _ B n Hr) as (j & c & Hj & Hc & Hd & Hn & _).
    by destruct (find_cached_None V s n j c B HN Hj Hc Hd).
  - pose proof (bc_range _ _ B n). lia.
Qed.

Lemma find_victim_Some V s i :
  bcache V s → find_victim V s.(k_bufs) = Some i →
  ∃ b, (i < NBUF)%nat ∧ s.(k_bufs) !! i = Some b ∧ b.(b_refcnt) = 0.
Proof.
  intros B (Hi & HP)%find_Some. apply elem_of_reverse, (lru_elem _ _ _ B) in Hi.
  destruct (bcache_buf V s i B) as [b Hb]; [lia|]. exists b. split; [done|]. split; [done|].
  rewrite Hb in HP. by apply Z.eqb_eq in HP.
Qed.

(** With fewer referenced blocks than buffers, some buffer is unused. *)
Lemma find_victim_room V s n :
  bcache V s → room V n → V.(bv_ref) n = 0 → is_Some (find_victim V s.(k_bufs)).
Proof.
  intros B [Hr|(l & Hl & Hlen)] H0; [lia|].
  destruct (find_victim V s.(k_bufs)) eqn:E; [done|exfalso].
  pose proof (find_None _ _ E) as HP.
  set (blk := λ i, default 0 (b_blockno <$> s.(k_bufs) !! i)).
  assert (Hall : ∀ i, (i < NBUF)%nat → ∃ b, s.(k_bufs) !! i = Some b ∧ b.(b_dev) = dev ∧
                        0 < V.(bv_ref) b.(b_blockno)).
  { intros i Hi. destruct (bcache_buf V s i B) as [b Hb]; [lia|]. exists b. split; [done|].
    specialize (HP i). cbv beta in HP. rewrite Hb in HP. simpl in HP.
    assert (Hne : b.(b_refcnt) ≠ 0).
    { apply Z.eqb_neq, HP, elem_of_reverse. by apply (lru_elem _ _ _ B). }
    rewrite (bc_ref _ _ B i b Hi Hb) in Hne. destruct (Z.eqb_spec b.(b_dev) dev); [|done].
    split; [done|]. pose proof (bc_range _ _ B b.(b_blockno)). lia. }
  assert (Hle : (length (blk <$> seq 0 NBUF) ≤ length l)%nat).
  { apply submseteq_length, NoDup_submseteq.
    - apply NoDup_fmap_2_strong; [|apply NoDup_seq]. intros i j Hi Hj Hij.
      apply elem_of_seq in Hi, Hj.
      destruct (Hall i) as (b & Hb & Hbd & _); [lia|]. destruct (Hall j) as (c & Hc & Hcd & _); [lia|].
      unfold blk in Hij. rewrite Hb, Hc in Hij. simpl in Hij.
      apply (bc_uniq _ _ B i j b c); done || lia.
    - intros m (i & -> & Hi)%list_elem_of_fmap. apply elem_of_seq in Hi.
      destruct (Hall i) as (b & Hb & _ & Hr); [lia|]. unfold blk. rewrite Hb. by apply Hl. }
  rewrite length_fmap, length_seq in Hle. lia.
Qed.

(** ** Assigning a buffer *)

(** Buffer [i] after [bread] of block [n]. *)
Definition filled (n r : Z) (d : list Z) (b : buf) : buf :=
  mk_buf true b.(b_disk) dev n r b.(b_prev) b.(b_next) d.

(** One more reference to [n], and its buffer [i] locked. *)
Definition v_hold (i : nat) (n : Z) (V : bview) : bview :=
  mk_bview V.(bv_data) (zupd V.(bv_ref) n (V.(bv_ref) n + 1)) (<[i:=n]> V.(bv_held)) V.(bv_lru).

Lemma links_alter (bs : list buf) f i :
  (∀ b, (f b).(b_next) = b.(b_next) ∧ (f b).(b_prev) = b.(b_prev)) →
  ∀ j, bnext (alter f i bs) j = bnext bs j ∧ bprev (alter f i bs) j = bprev bs j.
Proof.
  intros Hf j. unfold bnext, bprev. rewrite list_lookup_alter.
  destruct (decide (i = j)) as [->|]; [|done]. destruct (bs !! j); [simpl|done]. apply Hf.
Qed.

Lemma bcache_links V s bs f i :
  bcache V s → bs = alter f i s.(k_bufs) →
  (∀ b, (f b).(b_next) = b.(b_next) ∧ (f b).(b_prev) = b.(b_prev)) →
  length bs = S NBUF ∧ path (bnext bs) bhead V.(bv_lru) bhead ∧
  path (bprev bs) bhead (reverse V.(bv_lru)) bhead.
Proof.
  intros B -> Hf. split; [rewrite length_alter; apply B|]. split.
  - eapply path_ext; [|apply B]. intros j _. symmetry. by apply links_alter.
  - eapply path_ext; [|apply B]. intros j _. symmetry. by apply links_alter.
Qed.

(** The table after [alter f i]: entry [j] is [f] of the old one for [j = i],
    and the old one otherwise. *)
Lemma alter_inv {A} (l : list A) f i j x :
  alter f i l !! j = Some x →
  (j = i ∧ ∃ y, l !! i = Some y ∧ x = f y) ∨ (j ≠ i ∧ l !! j = Some x).
Proof.
  rewrite list_lookup_alter. destruct (decide (i = j)) as [->|]; [|by right].
  intros (y & Hy & ->)%fmap_Some. left. eauto.
Qed.

Lemma slocks_put V s s' i v n i' (H : gmap nat Z) :
  bcache V s → s'.(k_slocks) = (put_sl (SL_buf i) v n s).(k_slocks) → (i' < NBUF)%nat →
  (∀ j, j ≠ i → H !! j = V.(bv_held) !! j) →
  (if H !! i is Some _ then v = 1 ∧ n = pid else v = 0) →
  if H !! i' is Some _ then sl_mine (SL_buf i') s' else sl_free (SL_buf i') s'.
Proof.
  intros B E Hi' Hne Hi. pose proof (bc_sl _ _ B i' Hi') as Hsl.
  unfold Quiet.sl_mine, sl_free in *. rewrite E. unfold put_sl. kproj.
  destruct (decide (i' = i)) as [->|Hii].
  - rewrite lookup_alter_eq.
    destruct (V.(bv_held) !! i) as [m|]; [destruct Hsl as [nm ->]|destruct Hsl as (nm & k & ->)];
      (destruct (H !! i) as [m'|]; simpl; [destruct Hi as [-> ->]; by eexists|subst v; by do 2 eexists]).
  - rewrite Hne by done. rewrite lookup_alter_ne by congruence. done.
Qed.

Lemma bcache_fill V s s' i n b :
  bcache V s → (i < NBUF)%nat → s.(k_bufs) !! i = Some b →
  b.(b_dev) = dev ∧ b.(b_blockno) = n ∨
    b.(b_refcnt) = 0 ∧ V.(bv_ref) n = 0 ∧
    (∀ j c, (j < NBUF)%nat → s.(k_bufs) !! j = Some c → c.(b_dev) = dev → c.(b_blockno) ≠ n) →
  V.(bv_ref) n + 1 < 2 ^ 32 → V.(bv_held) !! i = None →
  s'.(k_bufs) = alter (filled n (V.(bv_ref) n + 1) (V.(bv_data) n)) i s.(k_bufs) →
  s'.(k_slocks) = (put_sl (SL_buf i) 1 pid s).(k_slocks) → s'.(k_disk) = s.(k_disk) →
  bcache (v_hold i n V) s'.
Proof.
  intros B Hi Hb Hcase Hr Hnh Ebs Esl Ed.
  assert (Hother : ∀ j c, (j < NBUF)%nat → j ≠ i → s.(k_bufs) !! j = Some c → c.(b_dev) = dev →
            c.(b_blockno) ≠ n).
  { intros j c Hj Hji Hc Hd Hn. destruct Hcase as [[Hbd Hbn]|(_ & _ & Hno)]; [|by apply (Hno j c)].
    apply Hji, (bc_uniq _ _ B j i c b); done || congruence. }
  destruct (bcache_links V s s'.(k_bufs) (filled n (V.(bv_ref) n + 1) (V.(bv_data) n)) i)
    as (L1 & L2 & L3); [done..|].
  split; cbn [v_hold bv_data bv_ref bv_held bv_lru]; rewrite ?Ed; [done|done|done|apply B|..].
  - intros j Hj. eapply slocks_put; [done|done|done|..].
    + intros k Hk. by rewrite lookup_insert_ne.
    + by rewrite lookup_insert_eq.
  - intros j c Hj Hc. rewrite Ebs in Hc. apply alter_inv in Hc as [(-> & y & Hy & ->)|(Hji & Hc)].
    + simpl. by rewrite Z.eqb_refl, zupd_eq.
    + rewrite (bc_ref _ _ B j c Hj Hc). destruct (Z.eqb_spec c.(b_dev) dev); [|done].
      by rewrite zupd_ne by (by apply (Hother j c)).
  - intros j c Hj Hc Hd Hv. rewrite Ebs in Hc. apply alter_inv in Hc as [(-> & y & Hy & ->)|(Hji & Hc)];
      [done|by apply (bc_data _ _ B j c)].
  - intros j k c d Hj Hk Hc Hd. rewrite Ebs in Hc, Hd.
    apply alter_inv in Hc as [(-> & y & Hy & ->)|(Hji & Hc)];
    apply alter_inv in Hd as [(-> & y' & Hy' & ->)|(Hki & Hd)]; [done|..]; simpl; intros Hcd Hdd Heq.
    + by destruct (Hother k d).
    + by destruct (Hother j c).
    + by apply (bc_uniq _ _ B j k c d).
  - intros j m. rewrite lookup_insert_Some, Ebs. intros [[<- <-]|[Hij Hjm]].
    + split; [done|]. rewrite zupd_eq. split; [pose proof (bc_range _ _ B n); lia|].
      rewrite list_lookup_alter_eq, Hb. eexists. done.
    + destruct (bc_held _ _ B j m Hjm) as (Hj & Hm & c & Hc & Hcd & Hcn & Hcv). split; [done|].
      rewrite zupd_ne by (intros ->; by apply (Hother j c)). split; [done|].
      rewrite list_lookup_alter_ne by done. eauto.
  - intros m Hm. rewrite Ebs. destruct (decide (m = n)) as [->|Hmn].
    + exists i. rewrite list_lookup_alter_eq, Hb. eexists. split; [done|]. simpl. eauto.
    + rewrite zupd_ne in Hm by done. destruct (bc_cached _ _ B m Hm) as (j & c & Hj & Hc & Hcd & Hcn & Hcv).
      exists j, c. split; [done|]. rewrite list_lookup_alter_ne; [done|]. intros <-.
      rewrite Hb in Hc. injection Hc as ->. destruct Hcase as [[_ ?]|(H0 & _ & _)]; [congruence|].
      rewrite (bc_ref _ _ B i c Hj Hb), Hcd, Z.eqb_refl, Hcn in H0. lia.
  - intros m. unfold zupd. destruct (decide (m = n)); [|apply B].
    pose proof (bc_range _ _ B n). lia.
  - intros m Hm. apply (bc_clean _ _ B). unfold zupd in Hm. destruct (decide (m = n)); [|done].
    pose proof (bc_range _ _ B n). lia.
  - apply B.
Qed.

(** ** Steps of the cache *)

Definition set_cache (bs : list buf) (sl : gmap slid sleeplock) (d : gmap Z (list Z))
    (w : list (Z * list Z)) (s : kstate) : kstate :=
  set_k_bufs bs (set_k_slocks sl (set_k_disk d (set_k_dwrites w s))).

Lemma set_cache_id s : set_cache (k_bufs s) (k_slocks s) (k_disk s) (k_dwrites s) s = s.
Proof. unfold set_cache. keq. Qed.

#[global] Instance bframe_preorder : PreOrder bframe.
Proof.
  split.
  - intros s. split; [|done]. pose proof (set_cache_id s) as E. unfold set_cache in E. by rewrite E.
  - intros x y z [H1 I1] [H2 I2]. split; [|intros i; by rewrite I2]. etrans; [|exact H2].
    pose proof (quietly_upd p (set_cache (k_bufs z) (k_slocks z) (k_disk z) (k_dwrites z)) _ _ H1) as H3.
    unfold set_cache in H3. etrans; [|apply H3; by intros]. split; [|by kproj]. unfold same_data. keq.
Qed.

Lemma quietly_bframe s s' : quietly s s' → bframe s s'.
Proof.
  intros Q. split; [|intros i; by rewrite (quietly_slocks p _ _ Q)].
  rewrite (quietly_get p k_bufs _ _ Q), (quietly_get p k_slocks _ _ Q), (quietly_get p k_disk _ _ Q),
    (quietly_get p k_dwrites _ _ Q) by done.
  pose proof (set_cache_id s) as E. unfold set_cache in E. by rewrite E.
Qed.

(** A change of the cache itself. *)
Lemma bframe_set_cache bs sl d w s : (∀ i, sl !! SL_inode i = s.(k_slocks) !! SL_inode i) → bframe s (set_cache bs sl d w s).
Proof. intros H. split; [|exact H]. unfold set_cache. split; [|by kproj]. unfold same_data. keq. Qed.

Lemma bframe_upd_buf i f s : bframe s (upd_buf i f s).
Proof. split; [|done]. split; [|by kproj]. unfold same_data. keq. Qed.

Lemma bframe_put_sl i v n s : bframe s (put_sl (SL_buf i) v n s).
Proof.
  split; [unfold put_sl; split; [|by kproj]; unfold same_data; keq|]. intros j. unfold put_sl. kproj. by rewrite lookup_alter_ne.
Qed.

Lemma bframe_transfer i w b s : bframe s (transfer i w b s).
Proof.
  split; [|by destruct w]. unfold transfer. destruct w; (split; [|by kproj]); unfold same_data; keq.
Qed.

(** An update of another part of the state commutes with the steps of the cache. *)
Lemma bframe_upd (f : kstate → kstate) s s' :
  bframe s s' → (∀ c l q x, f (set_k_cpus c (set_k_locks l (set_k_procs q x))) = set_k_cpus c (set_k_locks l (set_k_procs q (f x)))) →
  (∀ bs sl d w x, f (set_cache bs sl d w x) = set_cache bs sl d w (f x)) → (∀ x, (f x).(k_procs) = x.(k_procs)) →
  (∀ x, set_cache (k_bufs (f x)) (k_slocks (f x)) (k_disk (f x)) (k_dwrites (f x)) = set_cache (k_bufs x) (k_slocks x) (k_disk x) (k_dwrites x)) →
  same_ilocks (f s) (f s') → bframe (f s) (f s').
Proof.
  intros [Q I] Hf Hc Hp Hk I'. split; [|done]. apply (quietly_upd p f) in Q; [|done..].
  change (quietly (f (set_cache (k_bufs s') (k_slocks s') (k_disk s') (k_dwrites s') s)) (f s')) in Q. rewrite Hc, <-Hk in Q. exact Q.
Qed.

Lemma bframe_get {A} (f : kstate → A) s s' :
  bframe s s' →
  (∀ c l q bs sl d w x, f (set_k_cpus c (set_k_locks l (set_k_procs q (set_cache bs sl d w x)))) = f x) →
  f s' = f s.
Proof.
  intros [[D _] _] Hf. unfold same_data in D. rewrite D.
  apply (Hf _ _ _ (k_bufs s') (k_slocks s') (k_disk s') (k_dwrites s')).
Qed.

Lemma calm_upd_buf H i f s : calm H s → calm H (upd_buf i f s).
Proof. intros C. by eapply calm_upd. Qed.

Lemma is_static_buf i : (i < NBUF)%nat → is_static (L_sl (SL_buf i)) = true.
Proof.
  intros Hi. apply bool_decide_eq_true_2. unfold static_locks. rewrite !fmap_app.
  do 2 (apply elem_of_app; right). apply elem_of_app; left.
  apply list_elem_of_fmap. exists (L_sl (SL_buf i), "sleep lock"). split; [done|].
  apply list_elem_of_fmap. exists i. split; [done|]. apply elem_of_seq. lia.
Qed.

Lemma is_static_bcache : is_static L_bcache = true.
Proof. by apply bool_decide_eq_true_2; vm_compute; repeat constructor. Qed.

(** The locks the cache takes are not held. *)
Definition bclear (H : list lockid) : Prop := (L_bcache ∉ H) ∧ (∀ i, L_sl (SL_buf i) ∉ H).

(** The end of [bget]: leave the lock of the cache and lock the buffer. *)
Lemma bget_end H s i f :
  calm (L_bcache :: H) s → bclear H → (i < NBUF)%nat → sl_free (SL_buf i) s →
  ∃ s', obind (release L_bcache (upd_buf i f s)) (λ (_ : unit) s, obind (acquiresleep (SL_buf i) s)
      (λ (_ : unit) s, Done i s)) = Done i s' ∧ calm H s' ∧ k_bufs s' = alter f i (k_bufs s) ∧
    k_slocks s' = k_slocks (put_sl (SL_buf i) 1 pid s) ∧ k_disk s' = k_disk s ∧
    k_dwrites s' = k_dwrites s ∧ bframe s s'.
Proof.
  intros C [HH HB] Hi Hsl.
  destruct (release_calm p pid H (upd_buf i f s) L_bcache) as (s1 & E1 & C1 & Q1);
    [by apply calm_upd_buf|]. rewrite E1. cbn [obind].
  destruct (acquiresleep_calm p pid H s1 (SL_buf i)) as (s2 & E2 & C2 & Q2); [done| |done| |].
  { by apply is_static_buf. }
  { destruct Hsl as (nm & k & E). exists nm, k. by rewrite (quietly_slocks p _ _ Q1). }
  rewrite E2. cbn [obind]. eexists. split; [reflexivity|]. split; [done|].
  rewrite (quietly_get p k_bufs _ _ Q2), (quietly_get p k_slocks _ _ Q2), (quietly_get p k_disk _ _ Q2),
    (quietly_get p k_dwrites _ _ Q2) by done. unfold put_sl. kproj.
  rewrite (quietly_get p k_bufs _ _ Q1), (quietly_get p k_slocks _ _ Q1), (quietly_get p k_disk _ _ Q1),
    (quietly_get p k_dwrites _ _ Q1) by done. kproj. do 4 (split; [done|]).
  etrans; [apply bframe_upd_buf|]. etrans; [by apply quietly_bframe|].
  etrans; [apply bframe_put_sl|]. by apply quietly_bframe.
Qed.

(** What [bget] leaves: buffer [i] assigned to [n] and locked; [v] tells whether
    its data are those of the block. *)
Definition got (n r : Z) (v : bool) (b : buf) : buf :=
  mk_buf v b.(b_disk) dev n r b.(b_prev) b.(b_next) b.(b_data).

Lemma bget_calm H V s n :
  calm H s → bclear H → bcache V s → (∀ i, V.(bv_held) !! i ≠ Some n) → room V n →
  V.(bv_ref) n + 1 < 2 ^ 32 →
  ∃ i b v s', bget dev n s = Done i s' ∧ calm H s' ∧ bframe s s' ∧
    (i < NBUF)%nat ∧ s.(k_bufs) !! i = Some b ∧ V.(bv_held) !! i = None ∧
    (b.(b_dev) = dev ∧ b.(b_blockno) = n ∧ v = b.(b_valid) ∨
     v = false ∧ b.(b_refcnt) = 0 ∧ V.(bv_ref) n = 0 ∧
     (∀ j c, (j < NBUF)%nat → s.(k_bufs) !! j = Some c → c.(b_dev) = dev → c.(b_blockno) ≠ n)) ∧
    k_bufs s' = alter (got n (V.(bv_ref) n + 1) v) i s.(k_bufs) ∧
    k_slocks s' = k_slocks (put_sl (SL_buf i) 1 pid s) ∧ k_disk s' = k_disk s ∧
    k_dwrites s' = k_dwrites s.
Proof.
  intros C [HH HB] B Hnh Hroom Hr. unfold bget. mred.
  destruct (acquire_calm p pid H s L_bcache) as (s1 & E1 & C1 & Q1); [done|by apply is_static_bcache|done..|].
  rewrite E1. cbn [obind]. pose proof (quietly_bcache _ _ _ Q1 B) as B1.
  pose proof (quietly_get p k_bufs _ _ Q1 (λ _ _ _ _, eq_refl)) as Ebs.
  pose proof (quietly_get p k_slocks _ _ Q1 (λ _ _ _ _, eq_refl)) as Esl.
  pose proof (quietly_get p k_disk _ _ Q1 (λ _ _ _ _, eq_refl)) as Ed.
  pose proof (quietly_get p k_dwrites _ _ Q1 (λ _ _ _ _, eq_refl)) as Ew.
  assert (Hfin : ∀ i f b v, (i < NBUF)%nat → k_bufs s1 !! i = Some b → V.(bv_held) !! i = None →
    f b = got n (V.(bv_ref) n + 1) v b →
    ∃ s', obind (release L_bcache (upd_buf i f s1)) (λ (_ : unit) s, obind (acquiresleep (SL_buf i) s)
      (λ (_ : unit) s, Done i s)) = Done i s' ∧ calm H s' ∧ bframe s s' ∧
      k_bufs s' = alter (got n (V.(bv_ref) n + 1) v) i s.(k_bufs) ∧
      k_slocks s' = k_slocks (put_sl (SL_buf i) 1 pid s) ∧ k_disk s' = k_disk s ∧
      k_dwrites s' = k_dwrites s).
  { intros i f b v Hi Hb Hh Hf.
    destruct (bget_end H s1 i f) as (s2 & E2 & C2 & X1 & X2 & X3 & X4 & X5); [done|done|done|..].
    { pose proof (bc_sl _ _ B1 i Hi) as Hs. by rewrite Hh in Hs. }
    exists s2. split; [done|]. split; [done|].
    split; [etrans; [by apply quietly_bframe|done]|].
    split; [rewrite X1, Ebs; apply list_alter_agree; intros y Hy; rewrite Ebs in Hb; by simplify_eq|].
    unfold put_sl in *. revert X2. kproj. rewrite Esl. intros ->. by rewrite X3, X4. }
  rewrite (bget_cached_ok V) by done. cbn [obind].
  destruct (find_cached n V (k_bufs s1)) as [i|] eqn:Ec.
  - destruct (find_cached_Some _ _ _ _ B1 Ec) as (b & Hi & Hb & Hd & Hn).
    assert (Hh : V.(bv_held) !! i = None).
    { destruct (V.(bv_held) !! i) as [m|] eqn:Em; [|done].
      destruct (bc_held _ _ B1 i m Em) as (_ & _ & c & Hc & _ & Hcn & _). simplify_eq.
      by destruct (Hnh i). }
    mred. destruct (Hfin i (λ x, set_b_refcnt (u32 (x.(b_refcnt) + 1)) x) b b.(b_valid))
      as (s' & E' & C' & Y1 & Y2 & Y3 & Y4 & Y5); [done|done|done| |].
    { rewrite (bc_ref _ _ B1 i b Hi Hb), Hd, Z.eqb_refl, Hn. unfold set_b_refcnt, got, u32.
      rewrite Hd, Hn, Z.mod_small; [done|]. pose proof (bc_range _ _ B n). lia. }
    exists i, b, b.(b_valid), s'. rewrite <-Ebs. split_and!; try done; [|by rewrite Ebs]. by left.
  - pose proof (find_cached_unref _ _ _ B1 Ec) as H0.
    rewrite (bget_victim_ok V) by done. cbn [obind].
    destruct (find_victim_room _ _ _ B1 Hroom H0) as [i Ev]. rewrite Ev.
    destruct (find_victim_Some _ _ _ B1 Ev) as (b & Hi & Hb & Hb0).
    assert (Hh : V.(bv_held) !! i = None).
    { destruct (V.(bv_held) !! i) as [m|] eqn:Em; [|done].
      destruct (bc_held _ _ B1 i m Em) as (_ & Hm & c & Hc & Hcd & Hcn & _).
      rewrite Hb in Hc. injection Hc as <-.
      rewrite (bc_ref _ _ B1 i b Hi Hb), Hcd, Z.eqb_refl, Hcn in Hb0. lia. }
    mred. unfold upd_buf. kproj. rewrite !list_alter_alter.
    destruct (Hfin i (set_b_refcnt 1 ∘ (set_b_valid false ∘ (set_b_blockno n ∘ set_b_dev dev))) b false)
      as (s' & E' & C' & Y1 & Y2 & Y3 & Y4 & Y5); [done|done|done|by rewrite H0|].
    exists i, b, false, s'. rewrite <-Ebs. split_and!; try done; [|by rewrite Ebs].
    right. split_and!; try done. intros j c. by apply (find_cached_None _ _ _ _ _ B1 Ec).
Qed.

(** [bread]: the buffer holds the block's logical contents. *)
Lemma bread_calm H V s n :
  calm H s → bclear H → bcache V s → (∀ i, V.(bv_held) !! i ≠ Some n) → room V n →
  V.(bv_ref) n + 1 < 2 ^ 32 →
  ∃ i s', bread dev n s = Done i s' ∧ calm H s' ∧ bcache (v_hold i n V) s' ∧
    V.(bv_held) !! i = None ∧ k_disk s' = k_disk s ∧ k_dwrites s' = k_dwrites s ∧ bframe s s'.
Proof.
  intros C HH B Hnh Hroom Hr. unfold bread. mred.
  destruct (bget_calm H V s n) as (i & b & v & s1 & E1 & C1 & F1 & Hi & Hb & Hh & Hcase & Ebs & Esl & Ed & Ew);
    [done..|].
  rewrite E1. cbn [obind]. set (r := V.(bv_ref) n + 1) in *.
  assert (Hb1 : k_bufs s1 !! i = Some (got n r v b)) by by rewrite Ebs, list_lookup_alter_eq, Hb.
  rewrite Hb1. cbn [obind got b_valid].
  assert (Hcase' : b.(b_dev) = dev ∧ b.(b_blockno) = n ∨ b.(b_refcnt) = 0 ∧ V.(bv_ref) n = 0 ∧
    (∀ j c, (j < NBUF)%nat → s.(k_bufs) !! j = Some c → c.(b_dev) = dev → c.(b_blockno) ≠ n)) by tauto.
  destruct v; cbn [negb]; mred.
  - destruct Hcase as [(Hbd & Hbn & Hv)|(? & _)]; [|done].
    exists i, s1. split_and!; try done. eapply (bcache_fill V s); try done. rewrite Ebs.
    apply list_alter_agree. intros y Hy. rewrite Hb in Hy. injection Hy as <-. unfold got, filled.
    by rewrite (bc_data _ _ B i b Hi Hb Hbd (eq_sym Hv)), Hbn.
  - assert (H0 : V.(bv_ref) n = 0).
    { destruct Hcase as [(Hbd & Hbn & Hv)|(_ & _ & ? & _)]; [|done].
      destruct (decide (0 < V.(bv_ref) n)) as [Hp|?]; [|pose proof (bc_range _ _ B n); lia].
      destruct (bc_cached _ _ B n Hp) as (j & c & Hj & Hc & Hcd & Hcn & Hcv).
      assert (i = j) as <- by (apply (bc_uniq _ _ B i j b c); done || congruence). simplify_eq. congruence. }
    rewrite (disk_rw_ok i false _ _ Hb1). cbn [obind]. unfold transfer. cbn [got b_blockno].
    eexists i, _. split; [reflexivity|].
    split; [by apply calm_upd_buf, calm_upd_buf|]. split_and!; try (kproj; done).
    + eapply (bcache_fill V s); try (kproj; done). kproj. rewrite Ebs, !list_alter_alter.
      apply list_alter_agree. intros y Hy. unfold got, filled. simpl.
      by rewrite Ed, <-(bc_clean _ _ B n H0).
    + etrans; [exact F1|]. etrans; [apply bframe_upd_buf|]. apply bframe_upd_buf.
Qed.

(** ** Locked buffers *)

Lemma held_data V s i n :
  bcache V s → V.(bv_held) !! i = Some n → buf_get i b_data s = Done (V.(bv_data) n) s.
Proof.
  intros B Hh. destruct (bc_held _ _ B i n Hh) as (Hi & _ & b & Hb & Hd & Hn & Hv).
  mred. rewrite Hb. cbn [obind]. by rewrite (bc_data _ _ B i b Hi Hb Hd Hv), Hn.
Qed.

Lemma held_blockno V s i n :
  bcache V s → V.(bv_held) !! i = Some n → buf_get i b_blockno s = Done n s.
Proof.
  intros B Hh. destruct (bc_held _ _ B i n Hh) as (Hi & _ & b & Hb & Hd & Hn & Hv).
  mred. rewrite Hb. cbn [obind]. by rewrite Hn.
Qed.

Definition v_write (n : Z) (d : list Z) (V : bview) : bview :=
  mk_bview (zupd V.(bv_data) n d) V.(bv_ref) V.(bv_held) V.(bv_lru).

(** The buffer of a block is the only one of that block. *)
Lemma held_unique V s i n j c :
  bcache V s → V.(bv_held) !! i = Some n → (j < NBUF)%nat → j ≠ i → s.(k_bufs) !! j = Some c →
  c.(b_dev) = dev → c.(b_blockno) ≠ n.
Proof.
  intros B Hh Hj Hji Hc Hcd Hcn. destruct (bc_held _ _ B i n Hh) as (Hi & _ & b & Hb & Hd & Hn & Hv).
  apply Hji, (bc_uniq _ _ B j i c b); done || congruence.
Qed.

Lemma bcache_write V s s' i n d f :
  bcache V s → V.(bv_held) !! i = Some n → length d = Z.to_nat BSIZE →
  (∀ b, b.(b_data) = V.(bv_data) n → f b = set_b_data d b) →
  s'.(k_bufs) = alter f i s.(k_bufs) →
  s'.(k_slocks) = s.(k_slocks) → s'.(k_disk) = s.(k_disk) → bcache (v_write n d V) s'.
Proof.
  intros B Hh Hd Hf Ebs Esl Ed.
  destruct (bc_held _ _ B i n Hh) as (Hi & Hr & b & Hb & Hbd & Hbn & Hv).
  assert (Ebs' : s'.(k_bufs) = alter (set_b_data d) i s.(k_bufs)).
  { rewrite Ebs. apply list_alter_agree. intros x Hx. rewrite Hb in Hx. injection Hx as <-.
    apply Hf. by rewrite (bc_data _ _ B i b Hi Hb Hbd Hv), Hbn. }
  clear Hf Ebs. rename Ebs' into Ebs.
  assert (Hfld : ∀ j c, k_bufs s' !! j = Some c → ∃ c0, k_bufs s !! j = Some c0 ∧
    c.(b_dev) = c0.(b_dev) ∧ c.(b_blockno) = c0.(b_blockno) ∧ c.(b_valid) = c0.(b_valid) ∧
    c.(b_refcnt) = c0.(b_refcnt) ∧ c.(b_data) = if decide (j = i) then d else c0.(b_data)).
  { intros j c. rewrite Ebs. intros [(-> & y & Hy & ->)|(Hji & Hc)]%alter_inv.
    - exists y. by rewrite decide_True.
    - exists c. by rewrite decide_False. }
  assert (Hfld' : ∀ j c0, k_bufs s !! j = Some c0 → ∃ c, k_bufs s' !! j = Some c ∧
    c.(b_dev) = c0.(b_dev) ∧ c.(b_blockno) = c0.(b_blockno) ∧ c.(b_valid) = c0.(b_valid)).
  { intros j c0 Hc0. rewrite Ebs, list_lookup_alter. destruct (decide (i = j)) as [->|]; [|by exists c0].
    rewrite Hc0. by eexists. }
  destruct (bcache_links V s s'.(k_bufs) (set_b_data d) i) as (L1 & L2 & L3); [done..|].
  split; cbn [v_write bv_data bv_ref bv_held bv_lru]; rewrite ?Ed; [done|done|done|apply B|..|apply B| |].
  - intros j Hj. pose proof (bc_sl _ _ B j Hj) as Hs. unfold Quiet.sl_mine, sl_free in *. by rewrite Esl.
  - intros j c Hj Hc. destruct (Hfld j c Hc) as (c0 & Hc0 & -> & -> & _ & -> & _). by apply (bc_ref _ _ B j).
  - intros j c Hj Hc. destruct (Hfld j c Hc) as (c0 & Hc0 & -> & -> & -> & _ & ->). intros Hcd Hcv.
    destruct (decide (j = i)) as [->|Hji].
    + simplify_eq. by rewrite zupd_eq.
    + rewrite zupd_ne by (by apply (held_unique V s i n j c0)). by apply (bc_data _ _ B j).
  - intros j k c e Hj Hk Hc He.
    destruct (Hfld j c Hc) as (c0 & Hc0 & -> & -> & _). destruct (Hfld k e He) as (e0 & He0 & -> & -> & _).
    by apply (bc_uniq _ _ B j k c0 e0).
  - intros j m Hm. destruct (bc_held _ _ B j m Hm) as (Hj & Hrm & c0 & Hc0 & X1 & X2 & X3).
    split; [done|]. split; [done|]. destruct (Hfld' j c0 Hc0) as (c & Hc & Y1 & Y2 & Y3).
    exists c. split; [done|]. split_and!; congruence.
  - intros m Hm. destruct (bc_cached _ _ B m Hm) as (j & c0 & Hj & Hc0 & X1 & X2 & X3).
    destruct (Hfld' j c0 Hc0) as (c & Hc & Y1 & Y2 & Y3). exists j, c. split_and!; congruence || done.
  - intros m Hm. rewrite zupd_ne by (intros ->; lia). by apply (bc_clean _ _ B).
  - intros m. unfold zupd. destruct (decide (m = n)); [done|apply B].
Qed.

Lemma bwrite_calm H V s i n :
  calm H s → bclear H → bcache V s → V.(bv_held) !! i = Some n →
  ∃ s', bwrite i s = Done tt s' ∧ calm H s' ∧ bcache V s' ∧
    k_disk s' = <[n := V.(bv_data) n]> (k_disk s) ∧
    k_dwrites s' = k_dwrites s ++ [(n, V.(bv_data) n)] ∧ bframe s s'.
Proof.
  intros C [_ HB] B Hh. destruct (bc_held _ _ B i n Hh) as (Hi & Hr & b & Hb & Hd & Hn & Hv).
  pose proof (bc_sl _ _ B i Hi) as Hsl. rewrite Hh in Hsl. destruct Hsl as [nm Hsl].
  unfold bwrite. mred.
  destruct (holdingsleep_calm p pid H s (SL_buf i) _ C (is_static_buf i Hi) (HB i) Hsl)
    as (s1 & E1 & C1 & Q1).
  rewrite E1. cbn [obind sl_locked sl_pid Z.eqb negb andb]. rewrite Z.eqb_refl. cbn [negb].
  assert (Hb1 : k_bufs s1 !! i = Some b) by by rewrite (quietly_get p k_bufs _ _ Q1).
  rewrite (disk_rw_ok i true _ _ Hb1). unfold transfer. rewrite Hn, (bc_data _ _ B i b Hi Hb Hd Hv), Hn.
  eexists. split; [done|]. split; [by eapply calm_upd|].
  rewrite (quietly_get p k_disk _ _ Q1), (quietly_get p k_dwrites _ _ Q1) by done.
  split_and!; try (by kproj).
  - pose proof (quietly_bcache _ _ _ Q1 B) as [H1 H2 H3 H4 H5 H6 H7 H8 H9 H10 H11 H12 H13].
    split; try (by kproj). kproj. intros m Hm. rewrite (bc_clean _ _ B m Hm). unfold disk_block.
    by rewrite lookup_insert_ne by (intros ->; lia).
  - etrans; [by apply quietly_bframe|]. pose proof (bframe_transfer i true b s1) as F.
    unfold transfer in F. by rewrite Hn, (bc_data _ _ B i b Hi Hb Hd Hv), Hn, (quietly_get p k_disk _ _ Q1),
      (quietly_get p k_dwrites _ _ Q1) in F.
Qed.

(** ** Reference counts *)

(** Entries that differ in their links, and entry [i] in its count. *)
Definition recounted (i : nat) (r : Z) (bs bs' : list buf) : Prop :=
  length bs' = length bs ∧
  ∀ j c, bs' !! j = Some c → ∃ c0, bs !! j = Some c0 ∧ c.(b_dev) = c0.(b_dev) ∧
    c.(b_blockno) = c0.(b_blockno) ∧ c.(b_valid) = c0.(b_valid) ∧ c.(b_data) = c0.(b_data) ∧
    c.(b_refcnt) = if decide (j = i) then r else c0.(b_refcnt).

Lemma bcache_refs V s s' i n r H lru :
  bcache V s → V.(bv_held) !! i = Some n → 0 ≤ r < 2 ^ 32 →
  (r = 0 → V.(bv_data) n = disk_block s.(k_disk) n) →
  recounted i r s.(k_bufs) s'.(k_bufs) →
  path (bnext s'.(k_bufs)) bhead lru bhead → path (bprev s'.(k_bufs)) bhead (reverse lru) bhead →
  lru ≡ₚ seq 0 NBUF →
  (∀ j, (j < NBUF)%nat →
    if H !! j is Some _ then sl_mine (SL_buf j) s' else sl_free (SL_buf j) s') →
  (∀ j m, H !! j = Some m → V.(bv_held) !! j = Some m ∧ (m = n → 0 < r)) →
  s'.(k_disk) = s.(k_disk) → bcache (mk_bview V.(bv_data) (zupd V.(bv_ref) n r) H lru) s'.
Proof.
  intros B Hh Hr Hclean [Hlen Hfld] L1 L2 L3 Hsl HH Ed.
  destruct (bc_held _ _ B i n Hh) as (Hi & Hrn & b & Hb & Hbd & Hbn & Hv).
  assert (Hfld' : ∀ j c0, k_bufs s !! j = Some c0 → ∃ c, k_bufs s' !! j = Some c ∧
    c.(b_dev) = c0.(b_dev) ∧ c.(b_blockno) = c0.(b_blockno) ∧ c.(b_valid) = c0.(b_valid)).
  { intros j c0 Hc0. destruct (lookup_lt_is_Some_2 (k_bufs s') j) as [c Hc].
    { rewrite Hlen. by eapply lookup_lt_Some. }
    destruct (Hfld j c Hc) as (c1 & Hc1 & X1 & X2 & X3 & _). rewrite Hc0 in Hc1. injection Hc1 as <-.
    by exists c. }
  split; cbn [bv_data bv_ref bv_held bv_lru]; rewrite ?Ed;
    [rewrite Hlen; apply B|done|done|done|done|..|apply B].
  - intros j c Hj Hc. destruct (Hfld j c Hc) as (c0 & Hc0 & -> & -> & _ & _ & ->).
    pose proof (bc_ref _ _ B j c0 Hj Hc0) as E. destruct (decide (j = i)) as [->|Hji].
    + rewrite Hb in Hc0. injection Hc0 as <-. by rewrite Hbd, Z.eqb_refl, Hbn, zupd_eq.
    + rewrite E. destruct (Z.eqb_spec c0.(b_dev) dev); [|done].
      by rewrite zupd_ne by (by apply (held_unique V s i n j c0)).
  - intros j c Hj Hc. destruct (Hfld j c Hc) as (c0 & Hc0 & -> & -> & -> & -> & _). by apply (bc_data _ _ B j).
  - intros j k c e Hj Hk Hc He.
    destruct (Hfld j c Hc) as (c0 & Hc0 & -> & -> & _). destruct (Hfld k e He) as (e0 & He0 & -> & -> & _).
    by apply (bc_uniq _ _ B j k c0 e0).
  - intros j m Hm. destruct (HH j m Hm) as [Hm0 Hmr].
    destruct (bc_held _ _ B j m Hm0) as (Hj & Hrm & c0 & Hc0 & X1 & X2 & X3).
    split; [done|]. split; [unfold zupd; destruct (decide (m = n)); tauto|].
    destruct (Hfld' j c0 Hc0) as (c & Hc & Y1 & Y2 & Y3). exists c. split_and!; congruence || done.
  - intros m Hm. assert (Hm0 : 0 < V.(bv_ref) m).
    { unfold zupd in Hm. destruct (decide (m = n)); congruence. }
    destruct (bc_cached _ _ B m Hm0) as (j & c0 & Hj & Hc0 & X1 & X2 & X3).
    destruct (Hfld' j c0 Hc0) as (c & Hc & Y1 & Y2 & Y3). exists j, c. split_and!; congruence || done.
  - intros m. unfold zupd. destruct (decide (m = n)); [done|apply B].
  - intros m. unfold zupd. destruct (decide (m = n)) as [->|]; [done|apply B].
Qed.

Lemma recounted_alter bs i f r :
  (∀ b, bs !! i = Some b → f b = set_b_refcnt r b) → recounted i r bs (alter f i bs).
Proof.
  intros Hf. split; [apply length_alter|].
  intros j c [(-> & y & Hy & ->)|(Hji & Hc)]%alter_inv.
  - exists y. rewrite (Hf _ Hy), decide_True by done. done.
  - exists c. by rewrite decide_False.
Qed.

(** [bpin] and [bunpin] of a locked buffer. *)
Definition v_ref (n r : Z) (V : bview) : bview :=
  mk_bview V.(bv_data) (zupd V.(bv_ref) n r) V.(bv_held) V.(bv_lru).

Lemma bref_calm H V s i n f r :
  calm H s → bclear H → bcache V s → V.(bv_held) !! i = Some n → 0 < r < 2 ^ 32 →
  (∀ b, b.(b_refcnt) = V.(bv_ref) n → f b = set_b_refcnt r b) →
  ∃ s', (acquire L_bcache;; buf_set i f;; release L_bcache) s = Done tt s' ∧ calm H s' ∧
    bcache (v_ref n r V) s' ∧ k_disk s' = k_disk s ∧ k_dwrites s' = k_dwrites s ∧ bframe s s'.
Proof.
  intros C [HH HB] B Hh Hr Hf. destruct (bc_held _ _ B i n Hh) as (Hi & _ & b & Hb & Hd & Hn & Hv).
  mred. destruct (acquire_calm p pid H s L_bcache) as (s1 & E1 & C1 & Q1); [done|by apply is_static_bcache|done..|].
  rewrite E1. cbn [obind].
  destruct (release_calm p pid H (upd_buf i f s1) L_bcache) as (s2 & E2 & C2 & Q2);
    [by apply calm_upd_buf|]. rewrite E2.
  pose proof (quietly_get p k_bufs _ _ Q1 (λ _ _ _ _, eq_refl)) as Ebs.
  exists s2. split; [done|]. split; [done|].
  rewrite (quietly_get p k_disk _ _ Q2), (quietly_get p k_dwrites _ _ Q2) by done. kproj.
  rewrite (quietly_get p k_disk _ _ Q1), (quietly_get p k_dwrites _ _ Q1) by done.
  split_and!; try done.
  - apply (quietly_bcache _ _ _ Q2). unfold v_ref.
    assert (Hrec : recounted i r (k_bufs s) (k_bufs (upd_buf i f s1))).
    { kproj. rewrite Ebs. apply recounted_alter. intros y Hy. rewrite Hb in Hy. injection Hy as <-.
      apply Hf. by rewrite (bc_ref _ _ B i b Hi Hb), Hd, Z.eqb_refl, Hn. }
    assert (Hlk : ∀ j, bnext (k_bufs (upd_buf i f s1)) j = bnext (k_bufs s) j ∧
                       bprev (k_bufs (upd_buf i f s1)) j = bprev (k_bufs s) j).
    { kproj. rewrite Ebs. rewrite (list_alter_agree f (set_b_refcnt r)); [by apply links_alter|].
      intros y Hy. rewrite Hb in Hy. injection Hy as <-.
      apply Hf. by rewrite (bc_ref _ _ B i b Hi Hb), Hd, Z.eqb_refl, Hn. }
    apply (bcache_refs V s _ i); try done; [lia|lia|..].
    + eapply path_ext; [|apply B]. intros j _. symmetry. apply Hlk.
    + eapply path_ext; [|apply B]. intros j _. symmetry. apply Hlk.
    + apply B.
    + intros j Hj. pose proof (bc_sl _ _ B j Hj) as Hs. unfold Quiet.sl_mine, sl_free in *. kproj.
      by rewrite (quietly_get p k_slocks _ _ Q1).
    + intros j m Hm. split; [done|]. lia.
    + kproj. by rewrite (quietly_get p k_disk _ _ Q1).
  - etrans; [by apply quietly_bframe|]. etrans; [apply bframe_upd_buf|]. by apply quietly_bframe.
Qed.

Lemma bpin_calm H V s i n :
  calm H s → bclear H → bcache V s → V.(bv_held) !! i = Some n → V.(bv_ref) n + 1 < 2 ^ 32 →
  ∃ s', bpin i s = Done tt s' ∧ calm H s' ∧ bcache (v_ref n (V.(bv_ref) n + 1) V) s' ∧
    k_disk s' = k_disk s ∧ k_dwrites s' = k_dwrites s ∧ bframe s s'.
Proof.
  intros C HH B Hh Hr. destruct (bc_held _ _ B i n Hh) as (_ & Hp & _).
  apply bref_calm; try done; [lia|]. intros b ->. unfold u32. by rewrite Z.mod_small by lia.
Qed.

Lemma bunpin_calm H V s i n :
  calm H s → bclear H → bcache V s → V.(bv_held) !! i = Some n → 1 < V.(bv_ref) n →
  ∃ s', bunpin i s = Done tt s' ∧ calm H s' ∧ bcache (v_ref n (V.(bv_ref) n - 1) V) s' ∧
    k_disk s' = k_disk s ∧ k_dwrites s' = k_dwrites s ∧ bframe s s'.
Proof.
  intros C HH B Hh Hr. pose proof (bc_range _ _ B n) as Hr2.
  apply bref_calm; try done; [lia|]. intros b ->. unfold u32. by rewrite Z.mod_small by lia.
Qed.

(** ** [brelse] *)

Lemma bnext_set_next (bs : list buf) k v :
  (k < length bs)%nat → ∀ j, bnext (alter (set_b_next v) k bs) j = fupd (bnext bs) k v j.
Proof.
  intros Hk j. unfold bnext, fupd. rewrite list_lookup_alter.
  destruct (decide (k = j)) as [->|Hne]; [rewrite decide_True by done|by rewrite decide_False].
  destruct (lookup_lt_is_Some_2 bs j Hk) as [b ->]. done.
Qed.

Lemma bprev_set_prev (bs : list buf) k v :
  (k < length bs)%nat → ∀ j, bprev (alter (set_b_prev v) k bs) j = fupd (bprev bs) k v j.
Proof.
  intros Hk j. unfold bprev, fupd. rewrite list_lookup_alter.
  destruct (decide (k = j)) as [->|Hne]; [rewrite decide_True by done|by rewrite decide_False].
  destruct (lookup_lt_is_Some_2 bs j Hk) as [b ->]. done.
Qed.

Lemma bnext_set_prev (bs : list buf) k v j : bnext (alter (set_b_prev v) k bs) j = bnext bs j.
Proof.
  unfold bnext. rewrite list_lookup_alter. destruct (decide (k = j)) as [->|]; [|done].
  by destruct (bs !! j).
Qed.

Lemma bprev_set_next (bs : list buf) k v j : bprev (alter (set_b_next v) k bs) j = bprev bs j.
Proof.
  unfold bprev. rewrite list_lookup_alter. destruct (decide (k = j)) as [->|]; [|done].
  by destruct (bs !! j).
Qed.

Lemma bnext_ok s k :
  (k < length s.(k_bufs))%nat → buf_get k b_next s = Done (bnext s.(k_bufs) k) s.
Proof.
  intros Hk. mred. unfold bnext. by destruct (lookup_lt_is_Some_2 _ _ Hk) as [b ->].
Qed.

Lemma bprev_ok s k :
  (k < length s.(k_bufs))%nat → buf_get k b_prev s = Done (bprev s.(k_bufs) k) s.
Proof.
  intros Hk. mred. unfold bprev. by destruct (lookup_lt_is_Some_2 _ _ Hk) as [b ->].
Qed.

(** The table after the assignments of [brelse]. *)
Definition unlink (i : nat) (bs : list buf) : list buf :=
  alter (set_b_next (bnext bs i)) (bprev bs i) (alter (set_b_prev (bprev bs i)) (bnext bs i) bs).
Definition relink (i : nat) (bs : list buf) : list buf :=
  let bs1 := unlink i bs in
  let first := bnext bs1 bhead in
  alter (set_b_next i) bhead
    (alter (set_b_prev i) first (alter (set_b_prev bhead) i (alter (set_b_next first) i bs1))).

Lemma length_relink i bs : length (relink i bs) = length bs.
Proof. unfold relink, unlink. by rewrite !length_alter. Qed.

Lemma relink_ok s i :
  length s.(k_bufs) = S NBUF → (i < NBUF)%nat → i ≠ bhead →
  (bnext s.(k_bufs) i < S NBUF)%nat → (bprev s.(k_bufs) i < S NBUF)%nat →
  (n ← buf_get i b_next; p ← buf_get i b_prev; buf_set n (set_b_prev p);;
   buf_set p (set_b_next n);; blink i) s = Done tt (set_k_bufs (relink i s.(k_bufs)) s).
Proof.
  intros Hl Hi Hih Hn Hp. unfold mbind at 1, M_bind at 1. rewrite bnext_ok by lia. cbn [obind].
  unfold mbind at 1, M_bind at 1. rewrite bprev_ok by lia. cbn [obind].
  unfold mbind at 1, M_bind at 1, buf_set at 1, modify. cbn [obind].
  unfold mbind at 1, M_bind at 1, buf_set at 1, modify. cbn [obind].
  unfold blink, mbind at 1, M_bind at 1. set (s1 := upd_buf (bprev _ _) _ _).
  assert (Hb : (bhead < length s1.(k_bufs))%nat).
  { unfold s1. kproj. rewrite !length_alter, Hl. unfold bhead. lia. }
  rewrite bnext_ok by done. cbn [obind].
  unfold mbind at 1, M_bind at 1, buf_set at 1, modify. cbn [obind].
  unfold mbind at 1, M_bind at 1, buf_set at 1, modify. cbn [obind].
  unfold mbind at 1, M_bind at 1. rewrite bnext_ok by (kproj; by rewrite !length_alter). cbn [obind].
  assert (E : bnext (k_bufs (upd_buf i (set_b_prev bhead)
      (upd_buf i (set_b_next (bnext (k_bufs s1) bhead)) s1))) bhead = bnext (k_bufs s1) bhead).
  { kproj. rewrite bnext_set_prev, bnext_set_next by (unfold bhead in Hb; lia).
    unfold fupd. by rewrite decide_False. }
  rewrite E. unfold mbind, M_bind, buf_set, modify. cbn [obind]. done_eq.
Qed.

Lemma path_bound f a l z (P : nat → Prop) i :
  path f a l z → (∀ j, j ∈ l → P j) → P z → i ∈ a :: l → P (f i).
Proof.
  revert a. induction l as [|b l IH]; intros a Hp HP Hz Hi.
  - apply list_elem_of_singleton in Hi as ->. simpl in Hp. by rewrite Hp.
  - destruct Hp as [E Hp]. apply elem_of_cons in Hi as [->|Hi].
    + rewrite E. apply HP, list_elem_of_here.
    + eapply IH; [done|by intros j Hj; apply HP, list_elem_of_further|done|done].
Qed.

Lemma links_bound V s i :
  bcache V s → (i < NBUF)%nat →
  (bnext s.(k_bufs) i < S NBUF)%nat ∧ (bprev s.(k_bufs) i < S NBUF)%nat.
Proof.
  intros B Hi. split.
  - eapply (path_bound _ _ _ _ (λ j, j < S NBUF)%nat); [apply B| |unfold bhead; lia|].
    + intros j Hj. apply (lru_elem _ _ _ B) in Hj. lia.
    + apply list_elem_of_further. by apply (lru_elem _ _ _ B).
  - eapply (path_bound _ _ _ _ (λ j, j < S NBUF)%nat); [apply B| |unfold bhead; lia|].
    + intros j Hj. apply elem_of_reverse, (lru_elem _ _ _ B) in Hj. lia.
    + apply list_elem_of_further, elem_of_reverse. by apply (lru_elem _ _ _ B).
Qed.

Lemma relink_paths V s i l1 l2 bs :
  bcache V s → (i < NBUF)%nat → V.(bv_lru) = l1 ++ i :: l2 → length bs = S NBUF →
  (∀ j, bnext bs j = bnext s.(k_bufs) j ∧ bprev bs j = bprev s.(k_bufs) j) →
  path (bnext (relink i bs)) bhead (i :: l1 ++ l2) bhead ∧
  path (bprev (relink i bs)) bhead (reverse (i :: l1 ++ l2)) bhead.
Proof.
  intros B Hi El Hlen Hlk. destruct (links_bound V s i B Hi) as [Hn Hp].
  pose proof (lru_nodup V s B) as Hnd. pose proof (bc_next _ _ B) as P1. pose proof (bc_prev _ _ B) as P2.
  rewrite El in Hnd, P1, P2.
  destruct (path_move (bnext (k_bufs s)) (bprev (k_bufs s)) bhead l1 i l2 Hnd P1 P2) as [Q1 Q2].
  set (nx1 := fupd (bnext (k_bufs s)) (bprev (k_bufs s) i) (bnext (k_bufs s) i)) in *.
  set (pv1 := fupd (bprev (k_bufs s)) (bnext (k_bufs s) i) (bprev (k_bufs s) i)) in *.
  assert (En : ∀ j, bnext (unlink i bs) j = nx1 j).
  { intros j. unfold unlink. destruct (Hlk i) as [-> ->].
    rewrite bnext_set_next by (rewrite length_alter; lia). unfold nx1, fupd.
    destruct (decide _); [done|]. by rewrite bnext_set_prev, (proj1 (Hlk j)). }
  assert (Ep : ∀ j, bprev (unlink i bs) j = pv1 j).
  { intros j. unfold unlink. destruct (Hlk i) as [-> ->].
    rewrite bprev_set_next, bprev_set_prev by lia. unfold pv1, fupd.
    destruct (decide _); [done|]. apply Hlk. }
  assert (Hf : (nx1 bhead < S NBUF)%nat).
  { unfold nx1, fupd. destruct (decide _); [done|].
    eapply (path_bound _ _ _ _ (λ j, j < S NBUF)%nat); [apply B| |unfold bhead; lia|apply list_elem_of_here].
    intros j Hj. apply (lru_elem _ _ _ B) in Hj. lia. }
  assert (Hlu : length (unlink i bs) = S NBUF) by (unfold unlink; by rewrite !length_alter).
  unfold relink. rewrite En. split.
  - eapply path_ext; [|exact Q1]. intros j _. symmetry.
    rewrite bnext_set_next by (rewrite !length_alter; unfold bhead; lia).
    unfold fupd at 1 2. destruct (decide (j = bhead)); [done|].
    rewrite !bnext_set_prev, bnext_set_next by lia. unfold fupd. destruct (decide _); [done|apply En].
  - eapply path_ext; [|exact Q2]. intros j _. symmetry.
    rewrite bprev_set_next, bprev_set_prev by (rewrite !length_alter; lia).
    unfold fupd at 1 2. destruct (decide (j = nx1 bhead)); [done|].
    rewrite bprev_set_prev by (rewrite !length_alter; lia). unfold fupd.
    destruct (decide _); [done|]. rewrite bprev_set_next. apply Ep.
Qed.

(** Entries equal up to their links. *)
Definition same_meta (c c0 : buf) : Prop :=
  c.(b_dev) = c0.(b_dev) ∧ c.(b_blockno) = c0.(b_blockno) ∧ c.(b_valid) = c0.(b_valid) ∧
  c.(b_data) = c0.(b_data) ∧ c.(b_refcnt) = c0.(b_refcnt).

Definition metas (bs' bs : list buf) : Prop :=
  ∀ j c, bs' !! j = Some c → ∃ c0, bs !! j = Some c0 ∧ same_meta c c0.

Lemma metas_alter f k bs0 bs :
  (∀ b, same_meta (f b) b) → metas bs bs0 → metas (alter f k bs) bs0.
Proof.
  intros Hf Hm j c [(-> & y & Hy & ->)|(_ & Hc)]%alter_inv; [|by apply Hm].
  destruct (Hm k y Hy) as (c0 & Hc0 & (X1 & X2 & X3 & X4 & X5)). exists c0. split; [done|].
  destruct (Hf y) as (Y1 & Y2 & Y3 & Y4 & Y5). split_and!; congruence.
Qed.

Lemma metas_relink i bs : metas (relink i bs) bs.
Proof.
  unfold relink, unlink. repeat (apply metas_alter; [done|]). intros j c Hc. by exists c.
Qed.

Definition v_drop (i : nat) (n : Z) (V : bview) : bview :=
  mk_bview V.(bv_data) (zupd V.(bv_ref) n (V.(bv_ref) n - 1)) (delete i V.(bv_held))
    (if V.(bv_ref) n =? 1 then i :: filter (λ j, j ≠ i) V.(bv_lru) else V.(bv_lru)).

Lemma filter_out l1 i l2 :
  NoDup (l1 ++ i :: l2) → filter (λ j, j ≠ i) (l1 ++ i :: l2) = l1 ++ l2.
Proof.
  intros Hnd. apply NoDup_app in Hnd as (_ & Hd & Hnd2). apply NoDup_cons in Hnd2 as [Hi2 _].
  assert (Hid : ∀ l : list nat, i ∉ l → filter (λ j, j ≠ i) l = l).
  { induction l as [|x l IH]; [done|]. intros [Hx Hl]%not_elem_of_cons.
    rewrite filter_cons_True by done. by rewrite IH. }
  rewrite filter_app, filter_cons_False by tauto. rewrite !Hid; [done..|].
  intros Hi. apply (Hd i Hi), list_elem_of_here.
Qed.

(** The critical section of [brelse]: the count goes down, and an unreferenced
    buffer moves to the front. *)
Definition drop_bufs (i : nat) (r : Z) (bs : list buf) : list buf :=
  let bs1 := alter (λ x, set_b_refcnt (u32 (x.(b_refcnt) - 1)) x) i bs in
  if r =? 0 then relink i bs1 else bs1.

Lemma bcache_drop V s s' i n :
  bcache V s → V.(bv_held) !! i = Some n →
  (V.(bv_ref) n = 1 → V.(bv_data) n = disk_block s.(k_disk) n) →
  s'.(k_bufs) = drop_bufs i (V.(bv_ref) n - 1) s.(k_bufs) →
  s'.(k_slocks) = (put_sl (SL_buf i) 0 0 s).(k_slocks) → s'.(k_disk) = s.(k_disk) →
  bcache (v_drop i n V) s'.
Proof.
  intros B Hh Hclean Ebs Esl Ed. destruct (bc_held _ _ B i n Hh) as (Hi & Hr & b & Hb & Hd & Hn & Hv).
  remember (V.(bv_ref) n - 1) as r eqn:Er. pose proof (bc_range _ _ B n) as Hrange.
  assert (Ealt : alter (λ x, set_b_refcnt (u32 (x.(b_refcnt) - 1)) x) i (k_bufs s) =
                 alter (set_b_refcnt r) i (k_bufs s)).
  { apply list_alter_agree. intros y Hy. rewrite Hb in Hy. injection Hy as <-.
    rewrite (bc_ref _ _ B i b Hi Hb), Hd, Z.eqb_refl, Hn. unfold u32. by rewrite Z.mod_small, Er by lia. }
  unfold drop_bufs in Ebs. rewrite Ealt in Ebs. clear Ealt.
  set (bs1 := alter (set_b_refcnt r) i (k_bufs s)) in *.
  assert (Hlk : ∀ j, bnext bs1 j = bnext (k_bufs s) j ∧ bprev bs1 j = bprev (k_bufs s) j)
    by by apply links_alter.
  destruct (list_elem_of_split V.(bv_lru) i) as (l1 & l2 & El); [by apply (lru_elem _ _ _ B)|].
  pose proof (lru_nodup V s B) as Hnd. apply NoDup_cons in Hnd as [_ Hnd].
  unfold v_drop. rewrite <-Er. replace (V.(bv_ref) n =? 1) with (r =? 0)
    by (destruct (Z.eqb_spec r 0), (Z.eqb_spec (V.(bv_ref) n) 1); lia || done).
  assert (Hlinks : path (bnext s'.(k_bufs)) bhead (if r =? 0 then i :: filter (λ j, j ≠ i) V.(bv_lru)
                     else V.(bv_lru)) bhead ∧
                   path (bprev s'.(k_bufs)) bhead (reverse (if r =? 0 then i :: filter (λ j, j ≠ i) V.(bv_lru)
                     else V.(bv_lru))) bhead).
  { rewrite Ebs. destruct (r =? 0).
    - rewrite El, filter_out by by rewrite <-El. apply (relink_paths V s); try done.
      unfold bs1. rewrite length_alter. apply B.
    - split; (eapply path_ext; [|apply B]); intros j _; symmetry; apply Hlk. }
  destruct Hlinks as [L1 L2].
  eapply (bcache_refs V s s' i); [done|done|lia|intros; apply Hclean; lia|..|done|done| | | |done].
  - rewrite Ebs. pose proof (recounted_alter (k_bufs s) i (set_b_refcnt r) r (λ _ _, eq_refl)) as Hrec.
    destruct (r =? 0); [|done]. destruct Hrec as [Hl Hf]. split; [by rewrite length_relink|].
    intros j c Hc. destruct (metas_relink i bs1 j c Hc) as (c1 & Hc1 & X1 & X2 & X3 & X4 & X5).
    destruct (Hf j c1 Hc1) as (c0 & Hc0 & Y1 & Y2 & Y3 & Y4 & Y5). exists c0. split_and!; congruence || done.
  - destruct (r =? 0); [|apply B]. rewrite <-(bc_lru _ _ B), El, filter_out by by rewrite <-El.
    apply Permutation_middle.
  - intros j Hj. eapply (slocks_put V s); [done|done|done|..].
    + intros k Hk. by rewrite lookup_delete_ne.
    + by rewrite lookup_delete_eq.
  - intros j m [Hij Hm]%lookup_delete_Some. split; [done|]. intros ->. exfalso.
    destruct (bc_held _ _ B j n Hm) as (Hj & _ & c & Hc & Hcd & Hcn & _). apply Hij.
    apply (bc_uniq _ _ B i j b c); done || congruence.
Qed.

Lemma brelse_calm H V s i n :
  calm H s → bclear H → bcache V s → V.(bv_held) !! i = Some n →
  (V.(bv_ref) n = 1 → V.(bv_data) n = disk_block s.(k_disk) n) →
  ∃ s', brelse i s = Done tt s' ∧ calm H s' ∧ bcache (v_drop i n V) s' ∧
    k_disk s' = k_disk s ∧ k_dwrites s' = k_dwrites s ∧ bframe s s'.
Proof.
  intros C [HH HB] B Hh Hclean. destruct (bc_held _ _ B i n Hh) as (Hi & Hr & b & Hb & Hd & Hn & Hv).
  pose proof (bc_sl _ _ B i Hi) as Hsl. rewrite Hh in Hsl. destruct Hsl as [nm Hsl].
  unfold brelse. unfold mbind at 1, M_bind at 1.
  destruct (holdingsleep_calm p pid H s (SL_buf i) _ C (is_static_buf i Hi) (HB i) Hsl) as (s1 & E1 & C1 & Q1).
  rewrite E1. cbn [obind sl_locked sl_pid Z.eqb negb andb]. rewrite Z.eqb_refl. cbn [negb].
  unfold mbind at 1, M_bind at 1.
  destruct (releasesleep_calm p pid H s1 (SL_buf i)) as (s2 & E2 & C2 & Q2);
    [done|by apply is_static_buf|done|by rewrite (quietly_slocks p _ _ Q1), Hsl|].
  rewrite E2. cbn [obind]. unfold mbind at 1, M_bind at 1.
  destruct (acquire_calm p pid H s2 L_bcache) as (s3 & E3 & C3 & Q3); [done|by apply is_static_bcache|done..|].
  rewrite E3. cbn [obind].
  assert (Ebs : k_bufs s3 = k_bufs s).
  { rewrite (quietly_get p k_bufs _ _ Q3), (quietly_get p k_bufs _ _ Q2) by done. unfold put_sl. kproj.
    by rewrite (quietly_get p k_bufs _ _ Q1). }
  pose proof (bc_ref _ _ B i b Hi Hb) as Hrc. rewrite Hd, Z.eqb_refl, Hn in Hrc.
  unfold mbind at 1, M_bind at 1, buf_set at 1, modify. cbn [obind].
  unfold mbind at 1, M_bind at 1. set (s4 := upd_buf i _ s3).
  assert (E4 : buf_get i b_refcnt s4 = Done (V.(bv_ref) n - 1) s4).
  { mred. unfold s4. kproj. rewrite Ebs, list_lookup_alter_eq, Hb. cbn [obind fmap option_fmap option_map].
    simpl. rewrite Hrc. pose proof (bc_range _ _ B n). unfold u32. by rewrite Z.mod_small by lia. }
  rewrite E4. cbn [obind].
  assert (Efin : ∃ s5, s5 = set_k_bufs (drop_bufs i (V.(bv_ref) n - 1) (k_bufs s3)) s3 ∧
    (if V.(bv_ref) n - 1 =? 0 then n ← buf_get i b_next; p ← buf_get i b_prev; buf_set n (set_b_prev p);;
       buf_set p (set_b_next n);; blink i else mret tt) s4 = Done tt s5).
  { eexists. split; [reflexivity|]. unfold drop_bufs. destruct (V.(bv_ref) n - 1 =? 0).
    - destruct (links_bound V s i B Hi) as [X1 X2].
      destruct (links_alter (k_bufs s) (λ x, set_b_refcnt (u32 (x.(b_refcnt) - 1)) x) i
        (λ _, conj eq_refl eq_refl) i) as [Y1 Y2].
      rewrite relink_ok; [by unfold s4; done_eq|..]; unfold s4, bhead; kproj; rewrite ?Ebs, ?Y1, ?Y2; try lia.
      by rewrite length_alter, (bc_len _ _ B).
    - by unfold s4; mred; done_eq. }
  destruct Efin as (s5 & E5 & E5'). unfold mbind at 1, M_bind at 1. rewrite E5'. cbn [obind].
  destruct (release_calm p pid H s5 L_bcache) as (s6 & E6 & C6 & Q6); [by rewrite E5; eapply calm_upd|].
  rewrite E6. exists s6. split; [done|]. split; [done|].
  rewrite (quietly_get p k_disk _ _ Q6), (quietly_get p k_dwrites _ _ Q6), E5 by done. kproj.
  rewrite (quietly_get p k_disk _ _ Q3), (quietly_get p k_dwrites _ _ Q3), (quietly_get p k_disk _ _ Q2),
    (quietly_get p k_dwrites _ _ Q2) by done. unfold put_sl. kproj.
  rewrite (quietly_get p k_disk _ _ Q1), (quietly_get p k_dwrites _ _ Q1) by done.
  split_and!; try done.
  - apply (quietly_bcache _ _ _ Q6). rewrite E5. eapply (bcache_drop V s); try done; kproj.
    + by rewrite Ebs.
    + rewrite (quietly_slocks p _ _ Q3), (quietly_slocks p _ _ Q2). unfold put_sl. kproj.
      by rewrite (quietly_slocks p _ _ Q1).
    + rewrite (quietly_get p k_disk _ _ Q3), (quietly_get p k_disk _ _ Q2) by done. unfold put_sl. kproj.
      by rewrite (quietly_get p k_disk _ _ Q1).
  - etrans; [apply quietly_bframe, Q1|]. etrans; [apply bframe_put_sl|]. etrans; [apply quietly_bframe, Q2|].
    etrans; [apply quietly_bframe, Q3|]. etrans; [|apply quietly_bframe, Q6]. rewrite E5.
    pose proof (bframe_set_cache (drop_bufs i (bv_ref V n - 1) (k_bufs s3)) (k_slocks s3) (k_disk s3) (k_dwrites s3) s3 ltac:(done)) as F.
    assert (set_cache (drop_bufs i (bv_ref V n - 1) (k_bufs s3)) (k_slocks s3) (k_disk s3) (k_dwrites s3) s3 =
      set_k_bufs (drop_bufs i (bv_ref V n - 1) (k_bufs s3)) s3) as <-; [unfold set_cache; keq|done].
Qed.

End BioFacts.
