(* ===== verification/BioSpec.v ===== *)
(** * Properties of the buffer cache ([kernel/bio.c])

    [binit] builds the ring of buffers and establishes the invariant [bcache] of
    BioFacts; [bread] keeps it and returns a locked buffer with the contents of
    its block, [brelse] keeps it and moves an unreferenced buffer to the front
    of the ring; with every buffer in use [bread] of another block panics.
    [fs0] is a concrete state in which the invariant holds. *)

From S2P Require Import Prelude State Spinlock Cstring Riscv Kalloc Vm Proc ProcFacts Sleeplock.
From S2P Require Import Quiet Bio BioFacts.

Section BioSpec.
Context {HK : KernelImage} {WB : WaitBound} {BD : BlockDev} {BDok : BlockDevOk}.
Context (p : nat) (pid dev : Z).
Implicit Types (s : kstate) (V : bview).

(** ** [binit] *)

(** The assignments of one round of the loop. *)
Definition link_in (i : nat) (bs : list buf) : list buf :=
  let first := bnext bs bhead in
  alter (set_b_next i) bhead
    (alter (set_b_prev i) first (alter (set_b_prev bhead) i (alter (set_b_next first) i bs))).

(** The ring [l] from the head, in both directions. *)
Definition ring (bs : list buf) (l : list nat) : Prop :=
  path (bnext bs) bhead l bhead ∧ path (bprev bs) bhead (reverse l) bhead.

Lemma ring_link bs l i :
  length bs = S NBUF → ring bs l → NoDup (bhead :: l) → i ∉ bhead :: l → (i < NBUF)%nat →
  (∀ j, j ∈ l → (j < NBUF)%nat) → ring (link_in i bs) (i :: l).
Proof.
  intros Hlen [P1 P2] Hnd Hi Hlt Hl. set (first := bnext bs bhead).
  assert (Hf : (first < S NBUF)%nat).
  { eapply (path_bound _ _ _ _ (λ j, j < S NBUF)%nat); [exact P1| |unfold bhead; lia|apply list_elem_of_here].
    intros j Hj. apply Hl in Hj. lia. }
  split.
  - eapply path_ext; [|by apply path_link]. intros j _. unfold link_in.
    rewrite bnext_set_next by (rewrite !length_alter; unfold bhead; lia).
    unfold fupd at 1 3. destruct (decide (j = bhead)); [done|].
    by rewrite !bnext_set_prev, bnext_set_next by lia.
  - eapply path_ext; [|by apply path_link_rev]. intros j _. unfold link_in.
    rewrite <-(path_first _ _ _ _ P1). fold first.
    rewrite bprev_set_next, bprev_set_prev by (rewrite !length_alter; lia).
    unfold fupd at 1 3. destruct (decide (j = first)); [done|].
    rewrite bprev_set_prev by (rewrite !length_alter; lia). unfold fupd.
    destruct (decide _); [done|]. by rewrite bprev_set_next.
Qed.

(** After [k] rounds. *)
Record binit_at (k : nat) (s0 s : kstate) : Prop := {
  bi_len : length s.(k_bufs) = S NBUF;
  bi_ring : ring s.(k_bufs) (reverse (seq 0 k));
  bi_meta : metas s.(k_bufs) s0.(k_bufs);
  bi_sl i : (i < k)%nat → s.(k_slocks) !! SL_buf i = Some (mk_sleeplock 0 "buffer" 0);
  bi_lock l lk : s.(k_locks) !! l = Some lk → s0.(k_locks) !! l = Some lk ∨ ∃ name, lk = unlocked name;
  bi_locks l : is_Some (s0.(k_locks) !! l) → is_Some (s.(k_locks) !! l);
  bi_frame : s = set_k_bufs s.(k_bufs) (set_k_slocks s.(k_slocks) (set_k_locks s.(k_locks) s0))
}.

Lemma initsleeplock_ok l name s :
  initsleeplock l name s = Done tt (set_k_slocks (<[l := mk_sleeplock 0 name 0]> s.(k_slocks))
    (upd_lock (L_sl l) (unlocked "sleep lock") s)).
Proof.
  unfold initsleeplock, initlock, put_lock, sl_set, modify, mbind, M_bind. cbn [obind]. kproj.
  rewrite !lookup_insert_eq. cbn [default]. rewrite !insert_insert_eq. done_eq.
Qed.

Lemma binit_round i s :
  length s.(k_bufs) = S NBUF → (i < NBUF)%nat →
  (n ← buf_get bhead b_next;
   buf_set i (set_b_next n);;
   buf_set i (set_b_prev bhead);;
   initsleeplock (SL_buf i) "buffer";;
   n ← buf_get bhead b_next;
   buf_set n (set_b_prev i);;
   buf_set bhead (set_b_next i)) s =
  Done tt (set_k_bufs (link_in i s.(k_bufs))
    (set_k_slocks (<[SL_buf i := mk_sleeplock 0 "buffer" 0]> s.(k_slocks))
      (upd_lock (L_sl (SL_buf i)) (unlocked "sleep lock") s))).
Proof.
  intros Hl Hi. unfold mbind at 1, M_bind at 1. rewrite bnext_ok by (unfold bhead; lia). cbn [obind].
  unfold mbind at 1, M_bind at 1, buf_set at 1, modify. cbn [obind].
  unfold mbind at 1, M_bind at 1, buf_set at 1, modify. cbn [obind].
  unfold mbind at 1, M_bind at 1. rewrite initsleeplock_ok. cbn [obind].
  unfold mbind at 1, M_bind at 1. rewrite bnext_ok by (kproj; rewrite !length_alter; unfold bhead; lia). cbn [obind].
  kproj. rewrite bnext_set_prev, bnext_set_next by (unfold bhead; lia).
  unfold fupd. rewrite decide_False by (unfold bhead; lia). unfold buf_set, modify, mbind, M_bind. cbn [obind].
  unfold link_in. done_eq.
Qed.

Lemma binit_loop k s0 s :
  binit_at k s0 s → (k ≤ NBUF)%nat →
  ∃ s', for_each (seq k (NBUF - k)) (λ b,
    n ← buf_get bhead b_next;
    buf_set b (set_b_next n);;
    buf_set b (set_b_prev bhead);;
    initsleeplock (SL_buf b) "buffer";;
    n ← buf_get bhead b_next;
    buf_set n (set_b_prev b);;
    buf_set bhead (set_b_next b)) s = Done tt s' ∧ binit_at NBUF s0 s'.
Proof.
  remember (NBUF - k)%nat as m eqn:Em. revert k s Em.
  induction m as [|m IH]; intros k s Em [H1 H2 H3 H4 H5 H6 H7] Hk; cbn [seq for_each].
  { exists s. assert (k = NBUF) as -> by lia. done. }
  unfold mbind at 1, M_bind at 1. rewrite binit_round by (done || lia). cbn [obind].
  apply IH; [lia| |lia]. split; kproj.
  - unfold link_in. by rewrite !length_alter.
  - rewrite seq_S, reverse_app. cbn [app reverse rev_append]. apply ring_link; try done.
    + apply NoDup_cons. rewrite elem_of_reverse, elem_of_seq. split; [unfold bhead; lia|].
      rewrite reverse_Permutation. apply NoDup_seq.
    + rewrite elem_of_cons, elem_of_reverse, elem_of_seq. unfold bhead. lia.
    + lia.
    + intros j. rewrite elem_of_reverse, elem_of_seq. lia.
  - unfold link_in. by repeat (apply metas_alter; [done|]).
  - intros i Hi. destruct (decide (i = k)) as [->|Hne]; [by rewrite lookup_insert_eq|].
    rewrite lookup_insert_ne by congruence. apply H4. lia.
  - intros l lk. destruct (decide (l = L_sl (SL_buf k))) as [->|Hne].
    + rewrite lookup_insert_eq. intros [= <-]. right. eauto.
    + rewrite lookup_insert_ne by congruence. apply H5.
  - intros l Hl. apply lookup_insert_is_Some'. right. by apply H6.
  - rewrite H7. keq.
Qed.

(** The cache with no buffer in use. *)
Definition view0 (d : gmap Z (list Z)) : bview :=
  mk_bview (disk_block d) (λ _, 0) ∅ (reverse (seq 0 NBUF)).

Lemma binit_run s :
  length s.(k_bufs) = S NBUF → ∃ s', binit s = Done tt s' ∧ binit_at NBUF s s'.
Proof.
  intros Hl. unfold binit, initlock, put_lock. unfold mbind at 1, M_bind at 1, modify. cbn [obind].
  unfold mbind at 1, M_bind at 1, buf_set at 1, modify. cbn [obind].
  unfold mbind at 1, M_bind at 1, buf_set at 1, modify. cbn [obind].
  pose proof (binit_loop 0 s) as Hloop. rewrite Nat.sub_0_r in Hloop. apply Hloop; [|lia].
  assert (Hb : (bhead < length s.(k_bufs))%nat) by (unfold bhead; lia).
  split; kproj.
  - by rewrite !length_alter.
  - split; simpl.
    + rewrite bnext_set_next by by rewrite length_alter. unfold fupd. by rewrite decide_True.
    + rewrite bprev_set_next, bprev_set_prev by done. unfold fupd. by rewrite decide_True.
  - do 2 (apply metas_alter; [done|]). intros j c Hc. by exists c.
  - lia.
  - intros l lk. destruct (decide (l = L_bcache)) as [->|Hne].
    + rewrite lookup_insert_eq. intros [= <-]. right. eauto.
    + rewrite lookup_insert_ne by congruence. by left.
  - intros l Hs. apply lookup_insert_is_Some'. by right.
  - keq.
Qed.

Lemma binit_bcache s s' :
  binit_at NBUF s s' →
  (∀ i b, s.(k_bufs) !! i = Some b → b.(b_dev) ≠ dev ∧ b.(b_refcnt) = 0) →
  (∀ n, length (disk_block s.(k_disk) n) = Z.to_nat BSIZE) →
  bcache pid dev (view0 s.(k_disk)) s'.
Proof.
  intros [H1 [H2 H2'] H3 H4 _ _ H6] Hz Hd.
  assert (Hm : ∀ i b, s'.(k_bufs) !! i = Some b → b.(b_dev) ≠ dev ∧ b.(b_refcnt) = 0).
  { intros i b Hb. destruct (H3 i b Hb) as (c & Hc & X1 & _ & _ & _ & X5). rewrite X1, X5. by apply (Hz i). }
  split; try done; cbn [view0 bv_lru bv_held bv_ref bv_data].
  - apply reverse_Permutation.
  - intros i Hi. rewrite lookup_empty. eexists _, _. by apply H4.
  - intros i b _ Hb. destruct (Hm i b Hb) as [X1 X2]. by destruct (Z.eqb_spec b.(b_dev) dev).
  - intros i b _ Hb Hb'. by destruct (Hm i b Hb).
  - intros i j b c _ _ Hb _ Hb'. by destruct (Hm i b Hb).
  - intros n _. by rewrite H6.
Qed.

Lemma binit_calm s s' : binit_at NBUF s s' → calm p pid [] s → calm p pid [] s'.
Proof.
  intros [_ _ _ _ H5 H6 H7] [C1 C2 C3 C4 C5 C6 C7].
  assert (Ec : k_cpus s' = k_cpus s) by by rewrite H7.
  assert (Eh : k_hart s' = k_hart s) by by rewrite H7.
  assert (Ep : k_procs s' = k_procs s) by by rewrite H7.
  split; try done.
  - by eapply on_cpu_eq.
  - intros l Hl Hn. destruct (C2 l Hl Hn) as [nm E]. destruct (H6 l) as [lk E']; [by rewrite E|].
    destruct (H5 l lk E') as [E2|[nm' ->]]; [|by exists nm'].
    exists nm. rewrite E', <-E2. done.
  - intros l Hl. by apply elem_of_nil in Hl.
  - by rewrite Ep.
  - by rewrite Ep.
Qed.

(** [binit] on zeroed buffers, none of them for device [dev], establishes
    the invariant of the buffer cache: the head and the 30 buffers form one
    doubly linked ring, every sleep lock is free, no block is cached twice, and
    the logical contents of every block are those of the disk. *)
Theorem binit_establishes s :
  length s.(k_bufs) = S NBUF →
  (∀ i b, s.(k_bufs) !! i = Some b → b.(b_dev) ≠ dev ∧ b.(b_refcnt) = 0) →
  (∀ n, length (disk_block s.(k_disk) n) = Z.to_nat BSIZE) →
  ∃ s', binit s = Done tt s' ∧ bcache pid dev (view0 s.(k_disk)) s'.
Proof.
  intros Hl Hz Hd. destruct (binit_run s Hl) as (s' & E & I). exists s'.
  split; [done|]. by apply binit_bcache.
Qed.

(** ** [bread] and [brelse] *)

(** C27: [bread] of a block with no locked buffer, when some buffer can be used
    for it, returns a buffer that no one had locked; the buffer is now locked by
    this process and holds the logical contents of the block, the block has one
    more reference, the invariant is kept and the disk is unchanged. *)
Theorem bread_spec H V s n :
  calm p pid H s → bclear H → bcache pid dev V s → (∀ i, V.(bv_held) !! i ≠ Some n) → room V n →
  V.(bv_ref) n + 1 < 2 ^ 32 →
  ∃ i s', bread dev n s = Done i s' ∧ V.(bv_held) !! i = None ∧
    buf_get i b_data s' = Done (V.(bv_data) n) s' ∧ bcache pid dev (v_hold i n V) s' ∧
    calm p pid H s' ∧ k_disk s' = k_disk s.
Proof.
  intros C HH B Hnh Hroom Hr.
  destruct (bread_calm p pid dev H V s n) as (i & s' & E & C' & B' & Hi & Ed & _); [done..|].
  exists i, s'. split_and!; try done. apply (held_data _ _ _ _ _ _ B'). apply lookup_insert_eq.
Qed.

(** [brelse] of a locked buffer, whose contents are on the disk if this is
    the last reference, unlocks it and drops the reference; the invariant is
    kept, and a buffer without references is the first of the ring. *)
Theorem brelse_spec H V s i n :
  calm p pid H s → bclear H → bcache pid dev V s → V.(bv_held) !! i = Some n →
  (V.(bv_ref) n = 1 → V.(bv_data) n = disk_block s.(k_disk) n) →
  ∃ s', brelse i s = Done tt s' ∧ calm p pid H s' ∧ bcache pid dev (v_drop i n V) s' ∧
    k_disk s' = k_disk s ∧ (V.(bv_ref) n = 1 → bnext s'.(k_bufs) bhead = i).
Proof.
  intros C HH B Hi Hc. destruct (brelse_calm p pid dev H V s i n) as (s' & E & C' & B' & Ed & _); [done..|].
  exists s'. split_and!; try done. intros H1. pose proof (bc_next _ _ _ _ B') as P.
  unfold v_drop in P. cbn [bv_lru] in P. rewrite H1 in P. apply P.
Qed.

(** C40: With every buffer referenced, [bread] of a block that has no reference
    panics: the cache never takes a buffer in use. *)
Theorem bread_no_buffers H V s n :
  calm p pid H s → bclear H → bcache pid dev V s → V.(bv_ref) n = 0 →
  (∀ i b, (i < NBUF)%nat → s.(k_bufs) !! i = Some b → b.(b_refcnt) ≠ 0) →
  ∃ s', bread dev n s = Panic "bget: no buffers" s'.
Proof.
  intros C [HH _] B Hn Hall. unfold bread, bget. unfold mbind, M_bind.
  destruct (acquire_calm p pid H s L_bcache) as (s1 & E1 & C1 & Q1); [done|by apply is_static_bcache|done..|].
  rewrite E1. cbn [obind]. pose proof (quietly_bcache _ _ _ _ _ _ Q1 B) as B1.
  pose proof (quietly_get p k_bufs _ _ Q1 (λ _ _ _ _, eq_refl)) as Ebs.
  rewrite (bget_cached_ok pid dev V) by done. cbn [obind].
  destruct (find_cached dev n V (k_bufs s1)) as [i|] eqn:Ec.
  { exfalso. destruct (find_cached_Some _ _ _ _ _ _ B1 Ec) as (b & Hi & Hb & Hd & Hbn).
    apply (Hall i b Hi); [by rewrite <-Ebs|].
    by rewrite (bc_ref _ _ _ _ B1 i b Hi Hb), Hd, Z.eqb_refl, Hbn. }
  rewrite (bget_victim_ok pid dev V) by done. cbn [obind].
  destruct (find_victim V (k_bufs s1)) as [i|] eqn:Ev; [|by exists s1].
  exfalso. destruct (find_victim_Some _ _ _ _ _ B1 Ev) as (b & Hi & Hb & Hb0).
  apply (Hall i b Hi); [by rewrite <-Ebs|done].
Qed.

Lemma calm_set_disk H d s : calm p pid H s → calm p pid H (set_k_disk d s).
Proof. intros C. by eapply calm_upd. Qed.

Lemma calm_set_bufs H bs s : calm p pid H s → calm p pid H (set_k_bufs bs s).
Proof. intros C. by eapply calm_upd. Qed.

End BioSpec.

(** ** A machine whose cache is empty *)

Definition fs_boot (d : gmap Z (list Z)) : kstate := set_k_disk d (kstate_run 0 []).
Definition fs0 (d : gmap Z (list Z)) : kstate := final_state (binit (fs_boot d)).

Lemma fs_boot_calm d : calm 3 7 [] (fs_boot d).
Proof. apply calm_set_disk, kstate_run_calm. Qed.

Lemma fs0_run d : binit (fs_boot d) = Done tt (fs0 d) ∧ binit_at NBUF (fs_boot d) (fs0 d).
Proof.
  destruct (binit_run (fs_boot d)) as (s' & E & I); [by vm_compute|].
  unfold fs0. rewrite E. cbn [final_state]. exact (conj eq_refl I).
Qed.

Lemma buf_zero d i b : k_bufs (fs_boot d) !! i = Some b → b.(b_dev) ≠ 1 ∧ b.(b_refcnt) = 0.
Proof.
  change (k_bufs (fs_boot d)) with (replicate (S NBUF) buf0).
  intros [-> _]%lookup_replicate. done.
Qed.

Lemma fs0_calm d : calm 3 7 [] (fs0 d).
Proof. eapply binit_calm; [apply fs0_run|apply fs_boot_calm]. Qed.

Lemma fs0_bcache d :
  (∀ n, length (disk_block d n) = Z.to_nat BSIZE) → bcache 7 1 (view0 d) (fs0 d).
Proof. intros Hd. apply (binit_bcache 7 1 (fs_boot d)); [apply fs0_run|apply buf_zero|done]. Qed.

Lemma fs0_disk d : k_disk (fs0 d) = d.
Proof. destruct (fs0_run d) as [_ I]. rewrite (bi_frame _ _ _ I). kproj. reflexivity. Qed.

Lemma fs0_writes d : k_dwrites (fs0 d) = [].
Proof. destruct (fs0_run d) as [_ I]. rewrite (bi_frame _ _ _ I). kproj. reflexivity. Qed.

Lemma disk_empty n : length (disk_block ∅ n) = Z.to_nat BSIZE.
Proof. unfold disk_block. rewrite lookup_empty. apply length_replicate. Qed.

Lemma binit_establishes_witness : ∃ s', binit (fs_boot ∅) = Done tt s' ∧ bcache 7 1 (view0 ∅) s'.
Proof.
  apply (binit_establishes 7 1 (fs_boot ∅)); [by vm_compute|apply buf_zero|apply disk_empty].
Defined.

Lemma view0_room n : room (view0 ∅) n.
Proof. right. exists []. split; [|simpl; unfold NBUF; lia]. intros m Hm. cbn in Hm. lia. Qed.

Lemma bread_spec_witness :
  ∃ i s', @bread _ ideal_disk 1 5 (fs0 ∅) = Done i s' ∧
    buf_get i b_data s' = Done (replicate 1024 0) s' ∧ bcache 7 1 (v_hold i 5 (view0 ∅)) s'.
Proof.
  destruct (@bread_spec _ ideal_disk _ 3 7 1 [] (view0 ∅) (fs0 ∅) 5) as (i & s' & E & _ & Hd & B & _).
  - apply fs0_calm.
  - split; intros; apply not_elem_of_nil.
  - apply fs0_bcache, disk_empty.
  - intros i. cbn [view0 bv_held]. by rewrite lookup_empty.
  - apply view0_room.
  - cbn. lia.
  - exists i, s'. exact (conj E (conj Hd B)).
Defined.

Lemma brelse_spec_witness :
  ∃ i s s', bcache 7 1 (v_hold i 5 (view0 ∅)) s ∧ brelse i s = Done tt s' ∧
    bcache 7 1 (v_drop i 5 (v_hold i 5 (view0 ∅))) s' ∧ bnext s'.(k_bufs) bhead = i.
Proof.
  destruct (@bread_calm _ ideal_disk _ 3 7 1 [] (view0 ∅) (fs0 ∅) 5) as (i & s & E & C & B & _ & Ed & _).
  - apply fs0_calm.
  - split; intros; apply not_elem_of_nil.
  - apply fs0_bcache, disk_empty.
  - intros i. cbn [view0 bv_held]. by rewrite lookup_empty.
  - apply view0_room.
  - cbn. lia.
  - destruct (brelse_spec 3 7 1 [] (v_hold i 5 (view0 ∅)) s i 5) as (s' & E' & _ & B' & _ & Hb).
    + exact C.
    + split; intros; apply not_elem_of_nil.
    + exact B.
    + apply lookup_insert_eq.
    + intros _. rewrite Ed, fs0_disk. reflexivity.
    + exists i, s, s'. exact (conj B (conj E' (conj B' (Hb eq_refl)))).
Defined.

(** Every buffer holds a referenced block. *)
Definition busy (i : nat) (b : buf) : buf :=
  mk_buf true b.(b_disk) 1 (Z.of_nat i) 1 b.(b_prev) b.(b_next) (replicate (Z.to_nat BSIZE) 0).
Definition make_busy (s : kstate) : kstate := set_k_bufs (imap busy s.(k_bufs)) s.
Definition view_busy : bview :=
  mk_bview (disk_block ∅) (λ n, if (0 <=? n) && (n <? Z.of_nat NBUF) then 1 else 0) ∅ (reverse (seq 0 NBUF)).

Lemma busy_links bs i : bnext (imap busy bs) i = bnext bs i ∧ bprev (imap busy bs) i = bprev bs i.
Proof. unfold bnext, bprev. rewrite list_lookup_imap. by destruct (bs !! i). Qed.

Lemma busy_lookup s i b : k_bufs (make_busy s) !! i = Some b → ∃ c, b = busy i c.
Proof.
  unfold make_busy. kproj. rewrite list_lookup_imap. intros (c & _ & ->)%fmap_Some. by exists c.
Qed.

Lemma busy_ref i : (i < NBUF)%nat → bv_ref view_busy (Z.of_nat i) = 1.
Proof. intros Hi. cbn [view_busy bv_ref]. by rewrite (proj2 (Z.leb_le _ _)), (proj2 (Z.ltb_lt _ _)) by lia. Qed.

Lemma busy_bcache s : bcache 7 1 (view0 ∅) s → s.(k_disk) = ∅ → bcache 7 1 view_busy (make_busy s).
Proof.
  intros B Ed. destruct B as [H1 H2 H3 H4 H5 _ _ _ _ _ _ _ H13].
  split; cbn [view_busy bv_lru bv_held bv_data].
  - unfold make_busy. kproj. by rewrite length_imap.
  - eapply path_ext; [|exact H2]. intros j _. symmetry. apply busy_links.
  - eapply path_ext; [|exact H3]. intros j _. symmetry. apply busy_links.
  - exact H4.
  - exact H5.
  - intros i b Hi Hb. destruct (busy_lookup _ i b Hb) as [c ->]. symmetry. by apply busy_ref.
  - intros i b Hi Hb _ _. destruct (busy_lookup _ i b Hb) as [c ->]. reflexivity.
  - intros i j b c _ _ Hb Hc _ _. destruct (busy_lookup _ i b Hb) as [x ->], (busy_lookup _ j c Hc) as [y ->].
    cbn. lia.
  - intros i n. by rewrite lookup_empty.
  - intros n Hn. cbn in Hn. destruct (Z.leb_spec 0 n), (Z.ltb_spec n (Z.of_nat NBUF)); try (cbn in Hn; lia).
    destruct (lookup_lt_is_Some_2 (k_bufs (make_busy s)) (Z.to_nat n)) as [b Hb].
    { unfold make_busy. kproj. rewrite length_imap, H1. lia. }
    exists (Z.to_nat n), b. destruct (busy_lookup _ _ b Hb) as [c ->]. cbn. split_and!; [lia|done|done|lia|done].
  - intros n. cbn. destruct (_ && _); lia.
  - intros n _. unfold make_busy. kproj. by rewrite Ed.
  - exact H13.
Qed.

Lemma bread_no_buffers_witness : ∃ s', @bread _ ideal_disk 1 77 (make_busy (fs0 ∅)) = Panic "bget: no buffers" s'.
Proof.
  apply (@bread_no_buffers _ ideal_disk 3 7 1 [] view_busy (make_busy (fs0 ∅)) 77).
  - apply calm_set_bufs, fs0_calm.
  - split; intros; apply not_elem_of_nil.
  - apply busy_bcache; [apply fs0_bcache, disk_empty|apply fs0_disk].
  - reflexivity.
  - intros i b _ Hb. destruct (busy_lookup _ i b Hb) as [c ->]. cbn. lia.
Defined.
