(* ===== verification/Virtio.v ===== *)
(** * The disk driver ([kernel/virtio_disk.c])

    Descriptors, rings and book-keeping are the fields of [k_vdisk]; a
    descriptor's address is the object it points to ([vaddr]).  The device is
    not part of the repository: the effect of a store to its registers is the
    parameter [vio_store], and what it does with a request is a hypothesis of
    the theorems that need it. *)

From S2P Require Import Prelude State Spinlock Cstring Riscv Kalloc Vm Proc ProcFacts Sleeplock Bio.

(** ** Constants ([kernel/virtio.h]) *)

(** The device registers, by their offsets *)
Variant vreg : Set :=
| VIRTIO_MMIO_MAGIC_VALUE | VIRTIO_MMIO_VERSION | VIRTIO_MMIO_DEVICE_ID | VIRTIO_MMIO_VENDOR_ID
| VIRTIO_MMIO_DEVICE_FEATURES | VIRTIO_MMIO_DRIVER_FEATURES | VIRTIO_MMIO_QUEUE_SEL
| VIRTIO_MMIO_QUEUE_NUM_MAX | VIRTIO_MMIO_QUEUE_NUM | VIRTIO_MMIO_QUEUE_READY | VIRTIO_MMIO_QUEUE_NOTIFY
| VIRTIO_MMIO_INTERRUPT_STATUS | VIRTIO_MMIO_INTERRUPT_ACK | VIRTIO_MMIO_STATUS
| VIRTIO_MMIO_QUEUE_DESC_LOW | VIRTIO_MMIO_QUEUE_DESC_HIGH | VIRTIO_MMIO_DRIVER_DESC_LOW
| VIRTIO_MMIO_DRIVER_DESC_HIGH | VIRTIO_MMIO_DEVICE_DESC_LOW | VIRTIO_MMIO_DEVICE_DESC_HIGH.

Definition vreg_offset (r : vreg) : Z :=
  match r with
  | VIRTIO_MMIO_MAGIC_VALUE => 0x000
  | VIRTIO_MMIO_VERSION => 0x004
  | VIRTIO_MMIO_DEVICE_ID => 0x008
  | VIRTIO_MMIO_VENDOR_ID => 0x00c
  | VIRTIO_MMIO_DEVICE_FEATURES => 0x010
  | VIRTIO_MMIO_DRIVER_FEATURES => 0x020
  | VIRTIO_MMIO_QUEUE_SEL => 0x030
  | VIRTIO_MMIO_QUEUE_NUM_MAX => 0x034
  | VIRTIO_MMIO_QUEUE_NUM => 0x038
  | VIRTIO_MMIO_QUEUE_READY => 0x044
  | VIRTIO_MMIO_QUEUE_NOTIFY => 0x050
  | VIRTIO_MMIO_INTERRUPT_STATUS => 0x060
  | VIRTIO_MMIO_INTERRUPT_ACK => 0x064
  | VIRTIO_MMIO_STATUS => 0x070
  | VIRTIO_MMIO_QUEUE_DESC_LOW => 0x080
  | VIRTIO_MMIO_QUEUE_DESC_HIGH => 0x084
  | VIRTIO_MMIO_DRIVER_DESC_LOW => 0x090
  | VIRTIO_MMIO_DRIVER_DESC_HIGH => 0x094
  | VIRTIO_MMIO_DEVICE_DESC_LOW => 0x0a0
  | VIRTIO_MMIO_DEVICE_DESC_HIGH => 0x0a4
  end.
Coercion vreg_offset : vreg >-> Z.

(** The bits of the status register *)
Variant vstatus : Set :=
| VIRTIO_CONFIG_S_ACKNOWLEDGE | VIRTIO_CONFIG_S_DRIVER | VIRTIO_CONFIG_S_DRIVER_OK
| VIRTIO_CONFIG_S_FEATURES_OK.

Definition vstatus_bit (r : vstatus) : Z :=
  match r with
  | VIRTIO_CONFIG_S_ACKNOWLEDGE => 1
  | VIRTIO_CONFIG_S_DRIVER => 2
  | VIRTIO_CONFIG_S_DRIVER_OK => 4
  | VIRTIO_CONFIG_S_FEATURES_OK => 8
  end.
Coercion vstatus_bit : vstatus >-> Z.

(** Device feature bits *)
Variant vfeature : Set :=
| VIRTIO_BLK_F_RO | VIRTIO_BLK_F_SCSI | VIRTIO_BLK_F_CONFIG_WCE | VIRTIO_BLK_F_MQ | VIRTIO_F_ANY_LAYOUT
| VIRTIO_RING_F_INDIRECT_DESC | VIRTIO_RING_F_EVENT_IDX.

Definition vfeature_bit (r : vfeature) : Z :=
  match r with
  | VIRTIO_BLK_F_RO => 5
  | VIRTIO_BLK_F_SCSI => 7
  | VIRTIO_BLK_F_CONFIG_WCE => 11
  | VIRTIO_BLK_F_MQ => 12
  | VIRTIO_F_ANY_LAYOUT => 27
  | VIRTIO_RING_F_INDIRECT_DESC => 28
  | VIRTIO_RING_F_EVENT_IDX => 29
  end.
Coercion vfeature_bit : vfeature >-> Z.

Definition NUM : nat := 8.
Definition VRING_DESC_F_NEXT : Z := 1.
Definition VRING_DESC_F_WRITE : Z := 2.
Definition VIRTIO_BLK_T_IN : Z := 0.
Definition VIRTIO_BLK_T_OUT : Z := 1.

(** The registers of the device after a store of a value to one of them. *)
Class VirtioDevice : Type := vio_store : Z → Z → gmap Z Z → gmap Z Z.

Section Virtio.
Context {HK : KernelImage} {WB : WaitBound} {VD : VirtioDevice}.

Definition vd_get {A} (f : vdisk → A) : M kstate A := gets (λ s, f s.(k_vdisk)).
Definition vd_set (f : vdisk → vdisk) : M kstate unit :=
  modify (λ s, set_k_vdisk (f s.(k_vdisk)) s).

(** [*R(r)] and [*R(r) = v] *)
Definition reg_read (r : Z) : M kstate Z := vd_get (λ v, default 0 (v.(vd_regs) !! r)).
Definition reg_write (r v : Z) : M kstate unit :=
  vd_set (λ x, set_vd_regs (vio_store r v x.(vd_regs)) x).

(** Updates of an element of a table of [disk]. *)
Definition desc_set (i : nat) (f : vdesc → vdesc) : M kstate unit :=
  vd_set (λ x, set_vd_desc (alter f i x.(vd_desc)) x).
Definition free_set (i : nat) (v : bool) : M kstate unit :=
  vd_set (λ x, set_vd_free (<[i:=v]> x.(vd_free)) x).
Definition info_set (i : nat) (f : vinfo → vinfo) : M kstate unit :=
  vd_set (λ x, set_vd_info (alter f i x.(vd_info)) x).

(** The features the driver asks for: those offered, without these. *)
Definition drop_features (features : Z) : Z :=
  foldl (λ f (b : vfeature), Z.land f (Z.lnot (Z.shiftl 1 b))) features
    [VIRTIO_BLK_F_RO; VIRTIO_BLK_F_SCSI; VIRTIO_BLK_F_CONFIG_WCE; VIRTIO_BLK_F_MQ;
     VIRTIO_F_ANY_LAYOUT; VIRTIO_RING_F_EVENT_IDX; VIRTIO_RING_F_INDIRECT_DESC].

(** The queue memory of [virtio_disk_init]: three zeroed pages. *)
Definition virtio_alloc_queue : M kstate (Z * Z * Z) :=
  desc ← kalloc;
  avail ← kalloc;
  used ← kalloc;
  vd_set (set_vd_pages [desc; avail; used]);;
  if (desc =? 0) || (avail =? 0) || (used =? 0) then panic "virtio disk kalloc" else
  mem_write (memset desc 0 pgsize);;
  mem_write (memset avail 0 pgsize);;
  mem_write (memset used 0 pgsize);;
  vd_set (set_vd_desc (replicate NUM (mk_vdesc V_null 0 0 0)));;
  vd_set (set_vd_avail_idx 0);;
  vd_set (set_vd_avail_ring (replicate NUM 0));;
  vd_set (set_vd_used_ring_idx 0);;
  vd_set (set_vd_used_ring (replicate NUM 0));;
  mret (desc, avail, used).

Definition virtio_disk_init : M kstate unit :=
  initlock L_vdisk "virtio_disk";;
  m ← reg_read VIRTIO_MMIO_MAGIC_VALUE;
  v ← reg_read VIRTIO_MMIO_VERSION;
  d ← reg_read VIRTIO_MMIO_DEVICE_ID;
  n ← reg_read VIRTIO_MMIO_VENDOR_ID;
  if negb (m =? 0x74726976) || negb (v =? 2) || negb (d =? 2) || negb (n =? 0x554d4551) then
    panic "could not find virtio disk"
  else
  let status := 0 in
  reg_write VIRTIO_MMIO_STATUS status;;
  let status := Z.lor status VIRTIO_CONFIG_S_ACKNOWLEDGE in
  reg_write VIRTIO_MMIO_STATUS status;;
  let status := Z.lor status VIRTIO_CONFIG_S_DRIVER in
  reg_write VIRTIO_MMIO_STATUS status;;
  features ← reg_read VIRTIO_MMIO_DEVICE_FEATURES;
  reg_write VIRTIO_MMIO_DRIVER_FEATURES (u32 (drop_features features));;
  let status := Z.lor status VIRTIO_CONFIG_S_FEATURES_OK in
  reg_write VIRTIO_MMIO_STATUS status;;
  status ← reg_read VIRTIO_MMIO_STATUS;
  if Z.land status VIRTIO_CONFIG_S_FEATURES_OK =? 0 then
    panic "virtio disk FEATURES_OK unset" else
  reg_write VIRTIO_MMIO_QUEUE_SEL 0;;
  ready ← reg_read VIRTIO_MMIO_QUEUE_READY;
  if negb (ready =? 0) then panic "virtio disk should not be ready" else
  max ← reg_read VIRTIO_MMIO_QUEUE_NUM_MAX;
  if max =? 0 then panic "virtio disk has no queue 0" else
  if max <? Z.of_nat NUM then panic "virtio disk max queue too short" else
  q ← virtio_alloc_queue;
  let '(desc, avail, used) := q in
  reg_write VIRTIO_MMIO_QUEUE_NUM (Z.of_nat NUM);;
  reg_write VIRTIO_MMIO_QUEUE_DESC_LOW (u32 desc);;
  reg_write VIRTIO_MMIO_QUEUE_DESC_HIGH (u32 (Z.shiftr desc 32));;
  reg_write VIRTIO_MMIO_DRIVER_DESC_LOW (u32 avail);;
  reg_write VIRTIO_MMIO_DRIVER_DESC_HIGH (u32 (Z.shiftr avail 32));;
  reg_write VIRTIO_MMIO_DEVICE_DESC_LOW (u32 used);;
  reg_write VIRTIO_MMIO_DEVICE_DESC_HIGH (u32 (Z.shiftr used 32));;
  reg_write VIRTIO_MMIO_QUEUE_READY 0x1;;
  for_each (seq 0 NUM) (λ i, free_set i true);;
  let status := Z.lor status VIRTIO_CONFIG_S_DRIVER_OK in
  reg_write VIRTIO_MMIO_STATUS status.

(** ** Descriptors *)

(** [None] is the result [-1]. *)
Definition alloc_desc : M kstate (option nat) :=
  for_find (seq 0 NUM) (λ i,
    fr ← vd_get vd_free;
    b ← opt_or_fault (fr !! i);
    if b : bool then free_set i false;; mret (Some i) else mret None).

Definition free_desc (i : nat) : M kstate unit :=
  if (NUM <=? i)%nat then panic "free_desc 1" else
  fr ← vd_get vd_free;
  b ← opt_or_fault (fr !! i);
  if b : bool then panic "free_desc 2" else
  desc_set i (λ _, mk_vdesc V_null 0 0 0);;
  free_set i true;;
  wakeup Ch_disk_free.

(** A chain has at most [NUM] descriptors: [free_desc] panics on a cycle. *)
Definition free_link (i : nat) : M kstate (nat + unit) :=
  ds ← vd_get vd_desc;
  d ← opt_or_fault (ds !! i);
  free_desc i;;
  if negb (Z.land d.(d_flags) VRING_DESC_F_NEXT =? 0) then mret (inl (Z.to_nat d.(d_next)))
  else mret (inr tt).

Definition free_chain (i : nat) : M kstate unit := loop (S NUM) free_link i.

(** [None] is the result [-1]; otherwise the three indices. *)
Definition alloc3_desc : M kstate (option (nat * nat * nat)) :=
  i0 ← alloc_desc;
  match i0 with
  | None => mret None
  | Some i0 =>
      i1 ← alloc_desc;
      match i1 with
      | None => free_desc i0;; mret None
      | Some i1 =>
          i2 ← alloc_desc;
          match i2 with
          | None => free_desc i0;; free_desc i1;; mret None
          | Some i2 => mret (Some (i0, i1, i2))
          end
      end
  end.

(** ** Requests *)

(** Format the request and hand it to the device. *)
Definition virtio_submit (b : nat) (write : bool) (sector : Z) (i0 i1 i2 : nat) : M kstate unit :=
  vd_set (λ x, set_vd_ops (<[i0 := mk_vreq (if write then VIRTIO_BLK_T_OUT else VIRTIO_BLK_T_IN)
                                     0 sector]> x.(vd_ops)) x);;
  desc_set i0 (λ _, mk_vdesc (V_ops i0) 16 VRING_DESC_F_NEXT (Z.of_nat i1));;
  desc_set i1 (λ _, mk_vdesc (V_data b) BSIZE
    (Z.lor (if write then 0 else VRING_DESC_F_WRITE) VRING_DESC_F_NEXT) (Z.of_nat i2));;
  info_set i0 (set_vi_status 0xff);;
  desc_set i2 (λ _, mk_vdesc (V_status i0) 1 VRING_DESC_F_WRITE 0);;
  buf_set b (set_b_disk true);;
  info_set i0 (set_vi_b (Some b));;
  vd_set (λ x, set_vd_avail_ring
    (<[Z.to_nat (x.(vd_avail_idx) mod Z.of_nat NUM) := Z.of_nat i0]> x.(vd_avail_ring)) x);;
  vd_set (λ x, set_vd_avail_idx (u16 (x.(vd_avail_idx) + 1)) x);;
  reg_write VIRTIO_MMIO_QUEUE_NOTIFY 0.

(** Wait for [virtio_disk_intr] to say that the request has finished. *)
Definition wait_disk (b : nat) (_ : unit) : M kstate (unit + unit) :=
  d ← buf_get b b_disk;
  if d : bool then sleep (Ch_buf b) L_vdisk;; mret (inl tt) else mret (inr tt).

Definition virtio_disk_rw (b : nat) (write : bool) : M kstate unit :=
  blockno ← buf_get b b_blockno;
  let sector := u32 (blockno * (BSIZE / 512)) in
  acquire L_vdisk;;
  idx ← loop (S wakeups) (λ _,
    r ← alloc3_desc;
    match r with
    | Some idx => mret (inr idx)
    | None => sleep Ch_disk_free L_vdisk;; mret (inl tt)
    end) tt;
  let '(i0, i1, i2) := idx in
  virtio_submit b write sector i0 i1 i2;;
  loop (S wakeups) (wait_disk b) tt;;
  info_set i0 (set_vi_b None);;
  free_chain i0;;
  release L_vdisk.

(** One completion. *)
Definition intr_body (_ : unit) : M kstate (unit + unit) :=
  ui ← vd_get vd_used_idx;
  di ← vd_get vd_used_ring_idx;
  if ui =? di then mret (inr tt) else
  ring ← vd_get vd_used_ring;
  id ← opt_or_fault (ring !! Z.to_nat (ui mod Z.of_nat NUM));
  infos ← vd_get vd_info;
  inf ← opt_or_fault (infos !! Z.to_nat id);
  if negb (inf.(vi_status) =? 0) then panic "virtio_disk_intr status" else
  b ← opt_or_fault inf.(vi_b);
  buf_set b (set_b_disk false);;
  wakeup (Ch_buf b);;
  vd_set (set_vd_used_idx (u16 (ui + 1)));;
  mret (inl tt).

(** Each completion takes one entry of the used ring; the indices are 16 bits
    wide and at most [NUM] entries are in flight. *)
Definition virtio_disk_intr : M kstate unit :=
  acquire L_vdisk;;
  st ← reg_read VIRTIO_MMIO_INTERRUPT_STATUS;
  reg_write VIRTIO_MMIO_INTERRUPT_ACK (Z.land st 0x3);;
  loop (S NUM) intr_body tt;;
  release L_vdisk.

End Virtio.
