(* ===== verification/VirtioFacts.v ===== *)
(** * The disk driver: theorems ([kernel/virtio_disk.c])

    [vq]: the virtqueue that driver and device share.  It describes the requests
    in flight, each with its chain of three descriptors, the ring of requests
    that the device has not taken yet, and the ring of those it has served and
    the driver has not seen.  The critical sections of the driver are shown to
    keep it: submitting a request, the interrupt handler, and the release of the
    descriptors.  [Device] states what the device does with a request. *)

From S2P Require Import Prelude State Spinlock Cstring Riscv Kalloc Vm Proc ProcFacts Sleeplock.
From S2P Require Import Quiet Bio Virtio.

(** ** The queue *)

(** Handed to the device, served by the device, seen by the interrupt handler. *)
Variant stage : Type := Pending | Served | Finished.

#[global] Instance stage_eq_dec : EqDecision stage.
Proof. solve_decision. Defined.

(** A request in flight; the index of its first descriptor is its name. *)
Record request : Type := mk_request {
  rq_i1 : nat;
  rq_i2 : nat;
  rq_buf : nat;
  rq_write : bool;
  rq_sector : Z;
  rq_stage : stage
}.

Definition set_stage (st : stage) (r : request) : request :=
  mk_request r.(rq_i1) r.(rq_i2) r.(rq_buf) r.(rq_write) r.(rq_sector) st.

Definition chain (h : nat) (r : request) : list nat := [h; r.(rq_i1); r.(rq_i2)].

(** The parts of the queue that make up request [h]. *)
Record owns (v : vdisk) (bs : list buf) (h : nat) (r : request) : Prop := {
  own_nodup : NoDup (chain h r);
  own_used i : i ∈ chain h r → v.(vd_free) !! i = Some false;
  own_head : v.(vd_desc) !! h = Some (mk_vdesc (V_ops h) 16 VRING_DESC_F_NEXT (Z.of_nat r.(rq_i1)));
  own_data : v.(vd_desc) !! r.(rq_i1) = Some (mk_vdesc (V_data r.(rq_buf)) BSIZE
    (Z.lor (if r.(rq_write) then 0 else VRING_DESC_F_WRITE) VRING_DESC_F_NEXT) (Z.of_nat r.(rq_i2)));
  own_status : v.(vd_desc) !! r.(rq_i2) = Some (mk_vdesc (V_status h) 1 VRING_DESC_F_WRITE 0);
  own_op : v.(vd_ops) !! h =
    Some (mk_vreq (if r.(rq_write) then VIRTIO_BLK_T_OUT else VIRTIO_BLK_T_IN) 0 r.(rq_sector));
  own_info : v.(vd_info) !! h =
    Some (mk_vinfo (Some r.(rq_buf)) (if decide (r.(rq_stage) = Pending) then 0xff else 0));
  own_buf : ∃ b, bs !! r.(rq_buf) = Some b ∧ b.(b_disk) = bool_decide (r.(rq_stage) ≠ Finished)
}.

(** The entries of a ring from the counter [start] on. *)
Definition ring_at (ring : list Z) (start : Z) (l : list nat) : Prop :=
  ∀ k h, l !! k = Some h → ring !! Z.to_nat ((start + Z.of_nat k) mod Z.of_nat NUM) = Some (Z.of_nat h).

(** [l] has the requests that are in stage [st], each once. *)
Definition in_stage (st : stage) (F : gmap nat request) (l : list nat) : Prop :=
  NoDup l ∧ ∀ h, h ∈ l ↔ ∃ r, F !! h = Some r ∧ r.(rq_stage) = st.

(** The queue with the requests [F], of which the device has not taken those of
    [A] ([seen] is how far it got in the ring), and the driver has not seen
    those of [U] complete. *)
Record vq (seen : Z) (A U : list nat) (F : gmap nat request) (v : vdisk) (bs : list buf) : Prop := {
  vq_len : length v.(vd_desc) = NUM ∧ length v.(vd_free) = NUM ∧ length v.(vd_info) = NUM ∧
    length v.(vd_ops) = NUM ∧ length v.(vd_avail_ring) = NUM ∧ length v.(vd_used_ring) = NUM;
  vq_own h r : F !! h = Some r → owns v bs h r;
  vq_free i : v.(vd_free) !! i = Some false → ∃ h r, F !! h = Some r ∧ i ∈ chain h r;
  vq_disj h h' r r' i : F !! h = Some r → F !! h' = Some r' → i ∈ chain h r → i ∈ chain h' r' → h = h';
  vq_bufs h h' r r' : F !! h = Some r → F !! h' = Some r' → r.(rq_buf) = r'.(rq_buf) → h = h';
  vq_avail_idx : 0 ≤ seen ∧ v.(vd_avail_idx) = u16 (seen + Z.of_nat (length A));
  vq_avail : ring_at v.(vd_avail_ring) seen A;
  vq_pending : in_stage Pending F A;
  vq_used_idx : 0 ≤ v.(vd_used_idx) < 2 ^ 16 ∧
    v.(vd_used_ring_idx) = u16 (v.(vd_used_idx) + Z.of_nat (length U));
  vq_used : ring_at v.(vd_used_ring) v.(vd_used_idx) U;
  vq_served : in_stage Served F U
}.

Section Queue.
Implicit Types (v : vdisk) (bs : list buf) (F : gmap nat request) (h i : nat) (r : request).

Lemma owns_lt v bs h r i : length v.(vd_free) = NUM → owns v bs h r → i ∈ chain h r → (i < NUM)%nat.
Proof. intros <- O Hi. eapply lookup_lt_Some, (own_used _ _ _ _ O), Hi. Qed.

(** Requests whose descriptors, bookkeeping and buffer did not change. *)
Lemma owns_frame v v' bs bs' h r :
  owns v bs h r → (∀ i, i ∈ chain h r → v'.(vd_free) !! i = v.(vd_free) !! i) →
  (∀ i, i ∈ chain h r → v'.(vd_desc) !! i = v.(vd_desc) !! i) →
  v'.(vd_ops) !! h = v.(vd_ops) !! h → v'.(vd_info) !! h = v.(vd_info) !! h →
  bs' !! r.(rq_buf) = bs !! r.(rq_buf) → owns v' bs' h r.
Proof.
  intros [H1 H2 H3 H4 H5 H6 H7 H8] E1 E2 E3 E4 E5.
  assert (h ∈ chain h r ∧ r.(rq_i1) ∈ chain h r ∧ r.(rq_i2) ∈ chain h r) as (I0 & I1 & I2)
    by (split_and!; apply list_elem_of_In; simpl; auto).
  split; [done|..|by rewrite E3|by rewrite E4|by rewrite E5]; try (rewrite E2; done).
  intros i Hi. rewrite E1 by done. by apply H2.
Qed.

(** A list of distinct descriptors is short. *)
Lemma nodup_descs (l : list nat) : NoDup l → (∀ i, i ∈ l → (i < NUM)%nat) → (length l ≤ NUM)%nat.
Proof.
  intros Hnd Hl. rewrite <-(length_seq NUM 0). apply submseteq_length, NoDup_submseteq; [done|].
  intros i Hi. apply elem_of_seq. specialize (Hl i Hi). lia.
Qed.

Lemma vq_stage_lt seen A U F v bs st l :
  vq seen A U F v bs → in_stage st F l → ∀ h, h ∈ l → (h < NUM)%nat.
Proof.
  intros Q [_ Hl] h (r & Hr & _)%Hl. eapply (owns_lt v bs h r); [apply Q|by apply (vq_own _ _ _ _ _ _ Q)|].
  apply list_elem_of_here.
Qed.

(** ** The rings *)

Lemma ring_slot_u16 a k : (u16 a + k) mod Z.of_nat NUM = (a + k) mod Z.of_nat NUM.
Proof. change (Z.of_nat NUM) with 8. unfold u16. lia. Qed.

Lemma ring_slot_lt a : (Z.to_nat (a mod Z.of_nat NUM) < NUM)%nat.
Proof. change (Z.of_nat NUM) with 8. unfold NUM. lia. Qed.

(** A new entry at the end of a ring that is not full. *)
Lemma ring_at_push ring start l h :
  length ring = NUM → 0 ≤ start → (length l < NUM)%nat → ring_at ring start l →
  ring_at (<[Z.to_nat (u16 (start + Z.of_nat (length l)) mod Z.of_nat NUM) := Z.of_nat h]> ring) start (l ++ [h]).
Proof.
  intros Hlen H0 Hl Hr k x Hk.
  pose proof (ring_slot_u16 (start + Z.of_nat (length l)) 0) as Hs. rewrite !Z.add_0_r in Hs. rewrite Hs.
  apply lookup_app_Some in Hk as [Hk|[Hk Hx]].
  - pose proof (lookup_lt_Some _ _ _ Hk). rewrite list_lookup_insert_ne; [by apply Hr|].
    change (Z.of_nat NUM) with 8. unfold NUM in *. lia.
  - apply list_lookup_singleton_Some in Hx as [Hx <-].
    replace k with (length l) by lia. rewrite list_lookup_insert_eq; [done|].
    rewrite Hlen. apply ring_slot_lt.
Qed.

(** The first entry taken. *)
Lemma ring_at_pop ring start h l :
  ring_at ring start (h :: l) →
  ring !! Z.to_nat (start mod Z.of_nat NUM) = Some (Z.of_nat h) ∧ ring_at ring (u16 (start + 1)) l.
Proof.
  intros Hr. split.
  - specialize (Hr 0%nat h eq_refl). by rewrite Z.add_0_r in Hr.
  - intros k x Hk. rewrite ring_slot_u16. specialize (Hr (S k) x Hk).
    by replace (start + 1 + Z.of_nat k) with (start + Z.of_nat (S k)) by lia.
Qed.
End Queue.

(** ** Descriptors *)

Section Driver.
Context {HK : KernelImage} {WB : WaitBound} {VD : VirtioDevice}.
Implicit Types (s : kstate) (v : vdisk) (F : gmap nat request) (h i : nat) (r : request).

Definition put_v (f : vdisk → vdisk) (s : kstate) : kstate := set_k_vdisk (f s.(k_vdisk)) s.

Lemma vd_set_ok f s : vd_set f s = Done tt (put_v f s).
Proof. done. Qed.

Lemma put_v_put_v f g s : put_v f (put_v g s) = put_v (f ∘ g) s.
Proof. done. Qed.

(** Consecutive updates of the queue are one update. *)
Lemma vd_set_seq {A} f g (k : M kstate A) s : (vd_set f;; vd_set g;; k) s = (vd_set (g ∘ f);; k) s.
Proof. done. Qed.

Lemma vd_buf_seq {A} f b g (k : M kstate A) s :
  (vd_set f;; buf_set b g;; k) s = (buf_set b g;; vd_set f;; k) s.
Proof. done. Qed.

Definition take_desc (i : nat) (v : vdisk) : vdisk := set_vd_free (<[i:=false]> v.(vd_free)) v.

Lemma alloc_desc_from k n s :
  length s.(k_vdisk).(vd_free) = (k + n)%nat →
  (∃ i, (k ≤ i)%nat ∧ s.(k_vdisk).(vd_free) !! i = Some true) →
  ∃ i, s.(k_vdisk).(vd_free) !! i = Some true ∧
    for_find (seq k n) (λ i,
      fr ← vd_get vd_free;
      b ← opt_or_fault (fr !! i);
      if b : bool then free_set i false;; mret (Some i) else mret None) s =
    Done (Some i) (put_v (take_desc i) s).
Proof.
  revert k. induction n as [|n IH]; intros k Hlen (i & Hi & Hfree).
  { apply lookup_lt_Some in Hfree. lia. }
  destruct (lookup_lt_is_Some_2 s.(k_vdisk).(vd_free) k) as [b Hb]; [lia|].
  set (body := λ i, _) in *.
  assert (Ek : body k s = if b then Done (Some k) (put_v (take_desc k) s) else Done None s).
  { unfold body. mred. unfold vd_get. mred. rewrite Hb. mred. by destruct b. }
  cbn [seq for_find]. destruct b; rewrite (bind_Done _ _ _ _ _ Ek).
  - exists k. done.
  - destruct (IH (S k)) as (j & Hj & E).
    + lia.
    + exists i. split; [|done]. destruct (decide (i = k)) as [->|]; [congruence|lia].
    + exists j. split; [done|]. exact E.
Qed.

(** Outside [L] every descriptor is free. *)
Definition free_outside (L : list nat) (v : vdisk) : Prop :=
  length v.(vd_free) = NUM ∧ ∀ i, (i < NUM)%nat → i ∉ L → v.(vd_free) !! i = Some true.

Lemma fresh_desc (L : list nat) : (length L < NUM)%nat → ∃ i, (i < NUM)%nat ∧ i ∉ L.
Proof.
  intros HL. destruct (decide (Exists (λ i, i ∉ L) (seq 0 NUM))) as [He|Hn].
  - apply Exists_exists in He as (i & Hi & Hin). apply elem_of_seq in Hi. exists i. split; [lia|done].
  - exfalso. apply not_Exists_Forall in Hn; [|apply _]. cut (NUM ≤ length L)%nat; [lia|].
    rewrite <-(length_seq NUM 0) at 1. apply submseteq_length, NoDup_submseteq; [apply NoDup_seq|].
    intros i Hi. apply (proj1 (Forall_forall _ _) Hn) in Hi. by apply dec_stable.
Qed.

Lemma alloc_desc_ok L s :
  free_outside L s.(k_vdisk) → (length L < NUM)%nat →
  ∃ i, s.(k_vdisk).(vd_free) !! i = Some true ∧ alloc_desc s = Done (Some i) (put_v (take_desc i) s) ∧
    free_outside (i :: L) (put_v (take_desc i) s).(k_vdisk).
Proof.
  intros [Hlen Hfr] HL. destruct (fresh_desc L HL) as (i & Hi & Hn).
  destruct (alloc_desc_from 0 NUM s) as (j & Hj & E); [done|exists i; split; [lia|by apply Hfr]|].
  exists j. split_and!; [done..|]. split; [by cbn; rewrite length_insert|].
  intros k Hk Hkn. cbn. apply not_elem_of_cons in Hkn as [Hne Hkn].
  rewrite list_lookup_insert_ne by done. by apply Hfr.
Qed.

Definition take3 (i0 i1 i2 : nat) (v : vdisk) : vdisk := take_desc i2 (take_desc i1 (take_desc i0 v)).

Lemma take_desc_free i j v : (take_desc i v).(vd_free) !! j = Some true → j ≠ i ∧ v.(vd_free) !! j = Some true.
Proof.
  cbn. intros H. destruct (decide (i = j)) as [->|Hne]; [|by rewrite list_lookup_insert_ne in H by done].
  apply list_lookup_insert_Some in H as [(_ & [=] & _)|[? _]]. done.
Qed.

Lemma alloc3_desc_ok L s :
  free_outside L s.(k_vdisk) → (length L + 3 ≤ NUM)%nat →
  ∃ i0 i1 i2, NoDup [i0; i1; i2] ∧ (∀ i, i ∈ [i0; i1; i2] → s.(k_vdisk).(vd_free) !! i = Some true) ∧
    alloc3_desc s = Done (Some (i0, i1, i2)) (put_v (take3 i0 i1 i2) s).
Proof.
  intros H0 HL.
  destruct (alloc_desc_ok L s H0) as (i0 & F0 & E0 & H1); [lia|].
  destruct (alloc_desc_ok _ _ H1) as (i1 & F1 & E1 & H2); [simpl; lia|].
  destruct (alloc_desc_ok _ _ H2) as (i2 & F2 & E2 & _); [simpl; lia|].
  cbn [put_v k_vdisk set_k_vdisk] in F1, F2.
  apply take_desc_free in F1 as [N1 F1]. apply take_desc_free in F2 as [N2 F2].
  apply take_desc_free in F2 as [N2' F2].
  exists i0, i1, i2. split_and!.
  - repeat constructor; rewrite ?list_elem_of_In; simpl; intuition congruence.
  - intros i. rewrite list_elem_of_In. simpl. intros [<-|[<-|[<-|[]]]]; done.
  - unfold alloc3_desc. rewrite (bind_Done _ _ _ _ _ E0), (bind_Done _ _ _ _ _ E1), (bind_Done _ _ _ _ _ E2).
    done.
Qed.

(** ** Submitting a request *)

(** The descriptors of the requests in flight. *)
Definition owned (F : gmap nat request) : list nat := map_to_list F ≫= (λ x, chain x.1 x.2).

Lemma elem_of_owned F i : i ∈ owned F ↔ ∃ h r, F !! h = Some r ∧ i ∈ chain h r.
Proof.
  unfold owned. rewrite list_elem_of_bind. split.
  - intros ([h r] & Hi & Hm%elem_of_map_to_list). by exists h, r.
  - intros (h & r & Hm & Hi). exists (h, r). split; [done|]. by apply elem_of_map_to_list.
Qed.

Lemma length_owned F : length (owned F) = (3 * size F)%nat.
Proof.
  unfold owned. rewrite <-length_map_to_list. induction (map_to_list F) as [|[h r] l IH]; [done|].
  cbn [mbind list_bind]. rewrite length_app. cbn [length chain]. rewrite IH. lia.
Qed.

Lemma vq_free_outside seen A U F v bs : vq seen A U F v bs → free_outside (owned F) v.
Proof.
  intros Q. pose proof (vq_len _ _ _ _ _ _ Q) as (_ & Hl & _). split; [done|]. intros i Hi Hn.
  destruct (lookup_lt_is_Some_2 v.(vd_free) i) as [[] Hb]; [lia|done|].
  destruct Hn. by apply elem_of_owned, (vq_free _ _ _ _ _ _ Q).
Qed.

(** The queue after [virtio_submit]. *)
Definition submitted (b : nat) (write : bool) (sector : Z) (i0 i1 i2 : nat) (v : vdisk) : vdisk :=
  mk_vdisk
    (alter (λ _, mk_vdesc (V_status i0) 1 VRING_DESC_F_WRITE 0) i2
      (alter (λ _, mk_vdesc (V_data b) BSIZE
          (Z.lor (if write then 0 else VRING_DESC_F_WRITE) VRING_DESC_F_NEXT) (Z.of_nat i2)) i1
        (alter (λ _, mk_vdesc (V_ops i0) 16 VRING_DESC_F_NEXT (Z.of_nat i1)) i0 v.(vd_desc))))
    (u16 (v.(vd_avail_idx) + 1))
    (<[Z.to_nat (v.(vd_avail_idx) mod Z.of_nat NUM) := Z.of_nat i0]> v.(vd_avail_ring))
    v.(vd_used_ring_idx) v.(vd_used_ring) v.(vd_free) v.(vd_used_idx)
    (alter (set_vi_b (Some b)) i0 (alter (set_vi_status 0xff) i0 v.(vd_info)))
    (<[i0 := mk_vreq (if write then VIRTIO_BLK_T_OUT else VIRTIO_BLK_T_IN) 0 sector]> v.(vd_ops))
    v.(vd_pages) (vio_store VIRTIO_MMIO_QUEUE_NOTIFY 0 v.(vd_regs)).

Lemma virtio_submit_ok b write sector i0 i1 i2 s :
  virtio_submit b write sector i0 i1 i2 s =
  Done tt (put_v (submitted b write sector i0 i1 i2) (upd_buf b (set_b_disk true) s)).
Proof.
  unfold virtio_submit, desc_set, info_set, reg_write. rewrite !vd_set_seq.
  rewrite vd_buf_seq. unfold buf_set. rewrite (bind_Done _ _ s tt (upd_buf b (set_b_disk true) s) eq_refl).
  rewrite !vd_set_seq. unfold mbind, M_bind. rewrite vd_set_ok. reflexivity.
Qed.

(** The new request. *)
Definition new_request (b : nat) (write : bool) (sector : Z) (i1 i2 : nat) : request :=
  mk_request i1 i2 b write sector Pending.

Lemma elem_of_chain3 i i0 i1 i2 : i ∈ [i0; i1; i2] ↔ i = i0 ∨ i = i1 ∨ i = i2.
Proof. rewrite list_elem_of_In. simpl. intuition congruence. Qed.

Lemma submitted_desc b write sector i0 i1 i2 v i :
  i ∉ [i0; i1; i2] → (submitted b write sector i0 i1 i2 v).(vd_desc) !! i = v.(vd_desc) !! i.
Proof.
  rewrite elem_of_chain3. intros Hi. cbn. by rewrite !list_lookup_alter_ne by (intros ->; tauto).
Qed.

Lemma NoDup3 (i0 i1 i2 : nat) : NoDup [i0; i1; i2] ↔ i0 ≠ i1 ∧ i0 ≠ i2 ∧ i1 ≠ i2.
Proof.
  rewrite !NoDup_cons, !not_elem_of_cons. split; [tauto|].
  intros (? & ? & ?). split_and!; try done; try apply not_elem_of_nil. constructor.
Qed.

Lemma owns_new b write sector i0 i1 i2 v bs x :
  NoDup [i0; i1; i2] → length v.(vd_desc) = NUM → length v.(vd_info) = NUM → length v.(vd_ops) = NUM →
  (∀ i, i ∈ [i0; i1; i2] → (i < NUM)%nat ∧ v.(vd_free) !! i = Some false) → bs !! b = Some x →
  owns (submitted b write sector i0 i1 i2 v) (alter (set_b_disk true) b bs) i0 (new_request b write sector i1 i2).
Proof.
  intros Hnd Hd Hi Ho Hfr Hb. pose proof (proj1 (NoDup3 _ _ _) Hnd) as (N01 & N02 & N12).
  destruct (Hfr i0) as [L0 _]; [by left|]. destruct (Hfr i1) as [L1 _]; [by right; left|].
  destruct (Hfr i2) as [L2 _]; [by right; right; left|].
  destruct (lookup_lt_is_Some_2 v.(vd_desc) i0) as [d0 D0]; [lia|].
  destruct (lookup_lt_is_Some_2 v.(vd_desc) i1) as [d1 D1]; [lia|].
  destruct (lookup_lt_is_Some_2 v.(vd_desc) i2) as [d2 D2]; [lia|].
  destruct (lookup_lt_is_Some_2 v.(vd_info) i0) as [f0 F0]; [lia|].
  split; cbn [submitted new_request rq_i1 rq_i2 rq_buf rq_write rq_sector rq_stage chain
    vd_free vd_desc vd_ops vd_info].
  - done.
  - intros i Hin. by apply Hfr.
  - by rewrite !list_lookup_alter_ne, list_lookup_alter_eq, D0 by done.
  - by rewrite list_lookup_alter_ne, list_lookup_alter_eq, list_lookup_alter_ne, D1 by done.
  - by rewrite list_lookup_alter_eq, !list_lookup_alter_ne, D2 by done.
  - apply list_lookup_insert_eq. lia.
  - by rewrite !list_lookup_alter_eq, F0.
  - exists (set_b_disk true x). by rewrite list_lookup_alter_eq, Hb.
Qed.

Lemma take3_free i0 i1 i2 v i :
  i ∉ [i0; i1; i2] → (take3 i0 i1 i2 v).(vd_free) !! i = v.(vd_free) !! i.
Proof. rewrite elem_of_chain3. intros Hi. cbn. by rewrite !list_lookup_insert_ne by (intros ->; tauto). Qed.

Lemma take3_taken i0 i1 i2 v i :
  NoDup [i0; i1; i2] → i ∈ [i0; i1; i2] → (i < length v.(vd_free))%nat →
  (take3 i0 i1 i2 v).(vd_free) !! i = Some false.
Proof.
  intros Hnd%NoDup3 Hi Hlt. cbn. apply elem_of_chain3 in Hi. rewrite !list_lookup_insert, !length_insert.
  repeat case_decide; try done. destruct Hi as [->|[->| ->]]; tauto.
Qed.

Lemma NoDup_snoc (l : list nat) h : NoDup l → h ∉ l → NoDup (l ++ [h]).
Proof.
  intros Hnd Hh. apply NoDup_app. split_and!; [done| |apply NoDup_singleton].
  intros x Hx E%list_elem_of_singleton. by subst.
Qed.

Lemma in_stage_insert_other st st' F l h r :
  in_stage st F l → F !! h = None → r.(rq_stage) = st' → st ≠ st' → in_stage st (<[h:=r]> F) l.
Proof.
  intros [Hnd Hl] Hh Hr Hne. split; [done|]. intros x. rewrite Hl. split; intros (r' & Hx & Hs); exists r'.
  - split; [|done]. rewrite lookup_insert_ne; [done|]. intros ->. congruence.
  - apply lookup_insert_Some in Hx as [[<- <-]|[Hne' Hx]]; [congruence|done].
Qed.

Lemma in_stage_snoc st F l h r :
  in_stage st F l → F !! h = None → r.(rq_stage) = st → in_stage st (<[h:=r]> F) (l ++ [h]).
Proof.
  intros [Hnd Hl] Hh Hr. assert (h ∉ l) by (intros (r' & ? & _)%Hl; congruence). split.
  { by apply NoDup_snoc. }
  intros x. rewrite elem_of_app, list_elem_of_singleton, Hl. split.
  - intros [(r' & Hx & Hs)| ->]; [|exists r; by rewrite lookup_insert_eq].
    exists r'. rewrite lookup_insert_ne; [done|]. intros ->. congruence.
  - intros (r' & Hx & Hs). apply lookup_insert_Some in Hx as [[<- <-]|[Hne Hx]]; [by right|left; eauto].
Qed.

(** Three free descriptors belong to no request, and leave room in the ring. *)
Lemma vq_fresh seen A U F v bs i0 i1 i2 :
  vq seen A U F v bs → (∀ i, i ∈ [i0; i1; i2] → v.(vd_free) !! i = Some true) →
  (∀ i, i ∈ [i0; i1; i2] → (i < NUM)%nat) ∧
  (∀ h r i, F !! h = Some r → i ∈ chain h r → i ∉ [i0; i1; i2]) ∧ F !! i0 = None ∧ (length A < NUM)%nat.
Proof.
  intros Q Hfr. pose proof (vq_len _ _ _ _ _ _ Q) as (_ & Lf & _).
  assert (Hlt : ∀ i, i ∈ [i0; i1; i2] → (i < NUM)%nat)
    by (intros i Hi; rewrite <-Lf; by eapply lookup_lt_Some, Hfr).
  assert (Hout : ∀ h r i, F !! h = Some r → i ∈ chain h r → i ∉ [i0; i1; i2]).
  { intros h r i Hr Hi Hin. pose proof (own_used _ _ _ _ (vq_own _ _ _ _ _ _ Q h r Hr) i Hi).
    specialize (Hfr i Hin). congruence. }
  assert (HF0 : F !! i0 = None).
  { destruct (F !! i0) as [r|] eqn:E; [|done]. destruct (Hout i0 r i0 E); by left. }
  split_and!; try done.
  destruct (in_stage_snoc _ _ _ i0 (new_request 0 true 0 i1 i2) (vq_pending _ _ _ _ _ _ Q) HF0 eq_refl) as [Hnd _].
  apply nodup_descs in Hnd; [rewrite length_app in Hnd; simpl in Hnd; lia|].
  intros i [Hi|Hi%list_elem_of_singleton]%elem_of_app; [by eapply vq_stage_lt; [|apply Q|]|]. subst i. apply Hlt. by left.
Qed.

(** Handing over a request on three free descriptors. *)
Lemma vq_submit seen A U F v bs b x write sector i0 i1 i2 :
  vq seen A U F v bs → bs !! b = Some x → (∀ h r, F !! h = Some r → r.(rq_buf) ≠ b) →
  NoDup [i0; i1; i2] → (∀ i, i ∈ [i0; i1; i2] → v.(vd_free) !! i = Some true) →
  vq seen (A ++ [i0]) U (<[i0 := new_request b write sector i1 i2]> F)
    (submitted b write sector i0 i1 i2 (take3 i0 i1 i2 v)) (alter (set_b_disk true) b bs).
Proof.
  intros Q Hb Hnb Hnd Hfr. pose proof (vq_len _ _ _ _ _ _ Q) as (Ld & Lf & Li & Lo & La & Lu).
  destruct (vq_fresh _ _ _ _ _ _ _ _ _ Q Hfr) as (Hlt & Hout & HF0 & HA).
  destruct (vq_avail_idx _ _ _ _ _ _ Q) as [H0 Hidx].
  split.
  - cbn. rewrite !length_alter, !length_insert. done.
  - intros h r [[<- <-]|[Hne Hr]]%lookup_insert_Some.
    + eapply owns_new; try done. intros i Hi. split; [by apply Hlt|]. apply take3_taken; [done..|]. rewrite Lf. by apply Hlt.
    + eapply owns_frame; [by apply (vq_own _ _ _ _ _ _ Q)|..].
      * intros i Hi. by apply take3_free, (Hout h r).
      * intros i Hi. rewrite submitted_desc; [done|]. by apply (Hout h r).
      * cbn. by rewrite list_lookup_insert_ne.
      * cbn. by rewrite !list_lookup_alter_ne.
      * rewrite list_lookup_alter_ne; [done|]. intros E. by apply (Hnb h r Hr).
  - intros i Hi. destruct (decide (i ∈ [i0; i1; i2])) as [Hin|Hn].
    + exists i0, (new_request b write sector i1 i2). by rewrite lookup_insert_eq.
    + change (vd_free (submitted _ _ _ _ _ _ ?x)) with (vd_free x) in Hi. rewrite take3_free in Hi by done.
      destruct (vq_free _ _ _ _ _ _ Q i Hi) as (h & r & Hr & Hc). exists h, r.
      rewrite lookup_insert_ne; [done|]. intros ->. congruence.
  - intros h h' r r' i Hr Hr' Hi Hi'.
    apply lookup_insert_Some in Hr as [[<- <-]|[Hne Hr]]; apply lookup_insert_Some in Hr' as [[<- <-]|[Hne' Hr']]; [done|..].
    + by destruct (Hout h' r' i).
    + by destruct (Hout h r i).
    + by eapply (vq_disj _ _ _ _ _ _ Q).
  - intros h h' r r' Hr Hr' Hbuf.
    apply lookup_insert_Some in Hr as [[<- <-]|[Hne Hr]]; apply lookup_insert_Some in Hr' as [[<- <-]|[Hne' Hr']]; [done|..].
    + by destruct (Hnb h' r' Hr').
    + by destruct (Hnb h r Hr).
    + by eapply (vq_bufs _ _ _ _ _ _ Q).
  - split; [done|]. cbn [submitted vd_avail_idx take3 take_desc set_vd_free]. rewrite Hidx, length_app. cbn [length].
    unfold u16. lia.
  - cbn [submitted vd_avail_idx vd_avail_ring take3 take_desc set_vd_free]. rewrite Hidx.
    apply ring_at_push; [done..|apply Q].
  - apply in_stage_snoc; [apply Q|done..].
  - apply (vq_used_idx _ _ _ _ _ _ Q).
  - apply (vq_used _ _ _ _ _ _ Q).
  - eapply in_stage_insert_other; [apply Q|done..].
Qed.

(** ** Releasing a request *)

Definition freed (i : nat) (v : vdisk) : vdisk :=
  set_vd_free (<[i:=true]> v.(vd_free)) (set_vd_desc (alter (λ _, mk_vdesc V_null 0 0 0) i v.(vd_desc)) v).

Section Calm.
Context (p : nat) (pid : Z).
Local Abbreviation calm := (calm p pid).
Local Abbreviation quietly := (quietly p).

Lemma put_v_calm f H s : calm H s → calm H (put_v f s).
Proof. intros C. by eapply calm_upd. Qed.

Lemma quietly_put_v f s s' : quietly s s' → quietly (put_v f s) (put_v f s').
Proof.
  intros Q. unfold put_v. rewrite (quietly_get p k_vdisk _ _ Q) by done.
  by apply (quietly_upd p (set_k_vdisk (f s.(k_vdisk)))).
Qed.

Lemma free_desc_calm H s i :
  calm H s → (i < NUM)%nat → s.(k_vdisk).(vd_free) !! i = Some false →
  ∃ s', free_desc i s = Done tt s' ∧ calm H s' ∧ quietly (put_v (freed i) s) s'.
Proof.
  intros C Hi Hf. unfold free_desc. rewrite (proj2 (Nat.leb_gt _ _) Hi). mred. unfold vd_get. mred.
  rewrite Hf. mred. unfold desc_set, free_set. rewrite vd_set_ok. cbn [obind]. rewrite vd_set_ok. cbn [obind].
  rewrite put_v_put_v.
  destruct (wakeup_calm p pid H (put_v (freed i) s) Ch_disk_free) as (s' & E & C' & Q'); [by apply put_v_calm|].
  exists s'. split_and!; [exact E|done..].
Qed.

Lemma free_link_calm H s i d :
  calm H s → (i < NUM)%nat → s.(k_vdisk).(vd_free) !! i = Some false → s.(k_vdisk).(vd_desc) !! i = Some d →
  ∃ s', free_link i s = Done (if negb (Z.land d.(d_flags) VRING_DESC_F_NEXT =? 0) then inl (Z.to_nat d.(d_next))
      else inr tt) s' ∧ calm H s' ∧ quietly (put_v (freed i) s) s'.
Proof.
  intros C Hi Hf Hd. destruct (free_desc_calm H s i C Hi Hf) as (s' & E & C' & Q').
  exists s'. split_and!; [|done..]. unfold free_link. mred. unfold vd_get. mred. rewrite Hd. mred. rewrite E.
  cbn [obind]. by destruct (negb _).
Qed.

Definition freed3 (h i1 i2 : nat) (v : vdisk) : vdisk := freed i2 (freed i1 (freed h v)).

Lemma freed_other i j v : i ≠ j → (freed i v).(vd_free) !! j = v.(vd_free) !! j ∧
  (freed i v).(vd_desc) !! j = v.(vd_desc) !! j.
Proof. intros Hne. cbn. by rewrite list_lookup_insert_ne, list_lookup_alter_ne. Qed.

Lemma free_chain_calm H s v bs h r :
  calm H s → length v.(vd_free) = NUM → owns v bs h r →
  s.(k_vdisk).(vd_free) = v.(vd_free) → s.(k_vdisk).(vd_desc) = v.(vd_desc) →
  ∃ s', free_chain h s = Done tt s' ∧ calm H s' ∧
    quietly (put_v (freed3 h r.(rq_i1) r.(rq_i2)) s) s'.
Proof.
  intros C Hlen O Ef Ed. set (i1 := r.(rq_i1)). set (i2 := r.(rq_i2)).
  pose proof (own_nodup _ _ _ _ O) as (N01 & N02 & N12)%NoDup3. fold i1 i2 in N01, N02, N12.
  assert (Hin : h ∈ chain h r ∧ i1 ∈ chain h r ∧ i2 ∈ chain h r)
    by (split_and!; apply elem_of_chain3; auto).
  destruct Hin as (I0 & I1 & I2).
  pose proof (λ i Hi, owns_lt _ _ _ _ i Hlen O Hi) as Hlt. pose proof (own_used _ _ _ _ O) as Hused.
  pose proof (own_head _ _ _ _ O) as Hh. pose proof (own_data _ _ _ _ O : _ !! i1 = _) as Hd.
  pose proof (own_status _ _ _ _ O : _ !! i2 = _) as Hs. rewrite <-Ef in Hused. rewrite <-Ed in Hh, Hd, Hs.
  destruct (free_link_calm H s h _ C (Hlt _ I0) (Hused _ I0) Hh) as (s1 & E1 & C1 & Q1).
  pose proof (quietly_get p k_vdisk _ _ Q1 (λ _ _ _ _, eq_refl)) as V1. cbn [put_v k_vdisk set_k_vdisk] in V1.
  destruct (freed_other h i1 s.(k_vdisk) N01) as [F1 D1]. rewrite <-V1 in F1, D1. rewrite Hused in F1 by done.
  rewrite Hd in D1.
  destruct (free_link_calm H s1 i1 _ C1 (Hlt _ I1) F1 D1) as (s2 & E2 & C2 & Q2).
  pose proof (quietly_get p k_vdisk _ _ Q2 (λ _ _ _ _, eq_refl)) as V2. cbn [put_v k_vdisk set_k_vdisk] in V2.
  destruct (freed_other i1 i2 s1.(k_vdisk) N12) as [F2 D2]. rewrite <-V2, V1 in F2, D2.
  destruct (freed_other h i2 s.(k_vdisk) N02) as [F2' D2']. rewrite F2' in F2. rewrite D2' in D2.
  rewrite Hused in F2 by done. rewrite Hs in D2.
  destruct (free_link_calm H s2 i2 _ C2 (Hlt _ I2) F2 D2) as (s3 & E3 & C3 & Q3).
  exists s3. split_and!; [|done|].
  - unfold free_chain, NUM. cbn [loop].
    rewrite (bind_Done _ _ _ _ _ E1). cbn [d_flags d_next].
    rewrite Nat2Z.id, (bind_Done _ _ _ _ _ E2). cbn [d_flags d_next].
    replace (negb (Z.land _ _ =? 0)) with true by (by destruct r.(rq_write)). cbv iota.
    rewrite Nat2Z.id, (bind_Done _ _ _ _ _ E3). done.
  - etrans; [|exact Q3]. etrans; [|apply quietly_put_v, Q2]. etrans; [|apply quietly_put_v, quietly_put_v, Q1].
    by rewrite !put_v_put_v.
Qed.
End Calm.

(** A finished request gives its descriptors back. *)
Definition forget (h : nat) (v : vdisk) : vdisk := set_vd_info (alter (set_vi_b None) h v.(vd_info)) v.

Lemma in_stage_delete st F l h r :
  in_stage st F l → F !! h = Some r → r.(rq_stage) ≠ st → in_stage st (delete h F) l.
Proof.
  intros [Hnd Hl] Hh Hne. split; [done|]. intros x. rewrite Hl. split; intros (r' & Hx & Hs); exists r'.
  - split; [|done]. rewrite lookup_delete_ne; [done|]. intros ->. congruence.
  - by apply lookup_delete_Some in Hx as [_ Hx].
Qed.

Lemma freed3_other h i1 i2 v i :
  i ∉ [h; i1; i2] → (freed3 h i1 i2 v).(vd_free) !! i = v.(vd_free) !! i ∧
  (freed3 h i1 i2 v).(vd_desc) !! i = v.(vd_desc) !! i.
Proof.
  rewrite elem_of_chain3. intros Hi. cbn.
  rewrite !list_lookup_insert_ne, !list_lookup_alter_ne by (intros ->; tauto). done.
Qed.

Lemma freed3_free h i1 i2 v i :
  i ∈ [h; i1; i2] → (i < length v.(vd_free))%nat → (freed3 h i1 i2 v).(vd_free) !! i = Some true.
Proof.
  intros Hi Hlt. cbn. apply elem_of_chain3 in Hi. rewrite !list_lookup_insert, !length_insert.
  repeat case_decide; try done. destruct Hi as [->|[->| ->]]; tauto.
Qed.

Lemma vq_release seen A U F v bs h r :
  vq seen A U F v bs → F !! h = Some r → r.(rq_stage) = Finished →
  vq seen A U (delete h F) (freed3 h r.(rq_i1) r.(rq_i2) (forget h v)) bs.
Proof.
  intros Q Hh Hst. pose proof (vq_len _ _ _ _ _ _ Q) as (Ld & Lf & Li & Lo & La & Lu).
  split.
  - cbn. rewrite !length_alter, !length_insert. done.
  - intros h' r' [Hne Hr]%lookup_delete_Some.
    assert (Hout : ∀ i, i ∈ chain h' r' → i ∉ [h; r.(rq_i1); r.(rq_i2)]).
    { intros i Hi Hin. apply Hne. by eapply (vq_disj _ _ _ _ _ _ Q). }
    eapply owns_frame; [by apply (vq_own _ _ _ _ _ _ Q)|..]; try done.
    + intros i Hi. by destruct (freed3_other h r.(rq_i1) r.(rq_i2) (forget h v) i (Hout i Hi)) as [-> _].
    + intros i Hi. by destruct (freed3_other h r.(rq_i1) r.(rq_i2) (forget h v) i (Hout i Hi)) as [_ ->].
    + cbn. by rewrite list_lookup_alter_ne.
  - intros i Hi. destruct (decide (i ∈ chain h r)) as [Hin|Hn].
    + rewrite freed3_free in Hi; [done|done|]. cbn. rewrite Lf. eapply owns_lt; [done|by apply (vq_own _ _ _ _ _ _ Q)|done].
    + destruct (freed3_other h r.(rq_i1) r.(rq_i2) (forget h v) i Hn) as [E _]. rewrite E in Hi.
      destruct (vq_free _ _ _ _ _ _ Q i Hi) as (h' & r' & Hr & Hc). exists h', r'.
      rewrite lookup_delete_ne; [done|]. intros ->. congruence.
  - intros h1 h2 r1 r2 i [_ H1]%lookup_delete_Some [_ H2]%lookup_delete_Some. by apply (vq_disj _ _ _ _ _ _ Q).
  - intros h1 h2 r1 r2 [_ H1]%lookup_delete_Some [_ H2]%lookup_delete_Some. by apply (vq_bufs _ _ _ _ _ _ Q).
  - apply (vq_avail_idx _ _ _ _ _ _ Q).
  - apply (vq_avail _ _ _ _ _ _ Q).
  - eapply in_stage_delete; [apply Q|done|congruence].
  - apply (vq_used_idx _ _ _ _ _ _ Q).
  - apply (vq_used _ _ _ _ _ _ Q).
  - eapply in_stage_delete; [apply Q|done|congruence].
Qed.

(** ** Completion *)

Definition finish (r : request) : request :=
  if decide (r.(rq_stage) = Served) then set_stage Finished r else r.

Definition saw (v : vdisk) : vdisk := set_vd_used_idx (u16 (v.(vd_used_idx) + 1)) v.

(** The registers are no part of the queue. *)
Lemma vq_regs seen A U F v bs regs : vq seen A U F v bs → vq seen A U F (set_vd_regs regs v) bs.
Proof.
  intros [H1 H2 H3 H4 H5 H6 H7 H8 H9 H10 H11]. split; try done.
  intros h r Hr. eapply owns_frame; [by apply H2|done..].
Qed.

Lemma in_stage_update_other st F l h r r' :
  in_stage st F l → F !! h = Some r → r.(rq_stage) ≠ st → r'.(rq_stage) ≠ st → in_stage st (<[h:=r']> F) l.
Proof.
  intros [Hnd Hl] Hh Hr Hr'. split; [done|]. intros x. rewrite Hl. split; intros (y & Hx & Hs); exists y.
  - split; [|done]. rewrite lookup_insert_ne; [done|]. intros ->. congruence.
  - apply lookup_insert_Some in Hx as [[<- <-]|[Hne Hx]]; [done|done].
Qed.

Lemma in_stage_update_head st F l h r' :
  in_stage st F (h :: l) → r'.(rq_stage) ≠ st → in_stage st (<[h:=r']> F) l.
Proof.
  intros [[Hn Hnd]%NoDup_cons Hl] Hr'. split; [done|]. intros x. split.
  - intros Hx. destruct (proj1 (Hl x)) as (y & Hy & Hs); [by right|]. exists y.
    rewrite lookup_insert_ne; [done|]. by intros ->.
  - intros (y & Hx & Hs). apply lookup_insert_Some in Hx as [[<- <-]|[Hne Hx]]; [done|].
    assert (x ∈ h :: l) as [E|E]%elem_of_cons by (apply Hl; eauto); [by subst|done].
Qed.

(** A change of stage keeps who owns what. *)
Lemma vq_restage seen A U F v bs h r st :
  vq seen A U F v bs → F !! h = Some r → let F' := <[h:=set_stage st r]> F in
  (∀ i, v.(vd_free) !! i = Some false → ∃ h' r', F' !! h' = Some r' ∧ i ∈ chain h' r') ∧
  (∀ h1 h2 r1 r2 i, F' !! h1 = Some r1 → F' !! h2 = Some r2 → i ∈ chain h1 r1 → i ∈ chain h2 r2 → h1 = h2) ∧
  (∀ h1 h2 r1 r2, F' !! h1 = Some r1 → F' !! h2 = Some r2 → r1.(rq_buf) = r2.(rq_buf) → h1 = h2).
Proof.
  intros Q Hh F'.
  assert (Hold : ∀ x y, F' !! x = Some y → ∃ z, F !! x = Some z ∧ chain x z = chain x y ∧ z.(rq_buf) = y.(rq_buf)).
  { intros x y [[<- <-]|[_ Hy]]%lookup_insert_Some; eauto. }
  split_and!.
  - intros i Hi. destruct (vq_free _ _ _ _ _ _ Q i Hi) as (h' & r' & Hr' & Hc).
    destruct (decide (h' = h)) as [->|Hne]; [|exists h', r'; unfold F'; by rewrite lookup_insert_ne].
    exists h, (set_stage st r). unfold F'. rewrite lookup_insert_eq. split; [done|]. by simplify_eq.
  - intros h1 h2 r1 r2 i (z1 & Z1 & <- & _)%Hold (z2 & Z2 & <- & _)%Hold. by apply (vq_disj _ _ _ _ _ _ Q).
  - intros h1 h2 r1 r2 (z1 & Z1 & _ & <-)%Hold (z2 & Z2 & _ & <-)%Hold. by apply (vq_bufs _ _ _ _ _ _ Q).
Qed.

(** The driver sees that the first request of the used ring is complete. *)
Lemma vq_complete seen A U F v bs h r :
  vq seen A (h :: U) F v bs → F !! h = Some r → r.(rq_stage) = Served →
  vq seen A U (<[h:=set_stage Finished r]> F) (saw v) (alter (set_b_disk false) r.(rq_buf) bs).
Proof.
  intros Q Hh Hst. pose proof (vq_own _ _ _ _ _ _ Q h r Hh) as O.
  destruct (vq_used_idx _ _ _ _ _ _ Q) as [Hr Hidx].
  destruct (vq_restage _ _ _ _ _ _ h r Finished Q Hh) as (Rf & Rd & Rb).
  split; [apply Q|..|apply Q|apply Q| | | |].
  - intros h' r' [[<- <-]|[Hne Hr']]%lookup_insert_Some.
    + destruct O as [H1 H2 H3 H4 H5 H6 H7 (b & Hb & Hd)]. split; try done.
      * cbn. rewrite H7, Hst. done.
      * exists (set_b_disk false b). cbn. by rewrite list_lookup_alter_eq, Hb.
    + eapply owns_frame; [by apply (vq_own _ _ _ _ _ _ Q)|done..|].
      apply list_lookup_alter_ne. intros E. apply Hne. by eapply (vq_bufs _ _ _ _ _ _ Q).
  - exact Rf.
  - exact Rd.
  - exact Rb.
  - eapply in_stage_update_other; [apply Q|done|by rewrite Hst|done].
  - cbn [saw set_vd_used_idx vd_used_idx vd_used_ring_idx]. rewrite Hidx. cbn [length]. unfold u16. lia.
  - apply (ring_at_pop _ _ h). apply Q.
  - apply in_stage_update_head; [apply Q|done].
Qed.

Section Intr.
Context (p : nat) (pid : Z).
Local Abbreviation calm := (calm p pid).
Local Abbreviation quietly := (quietly p).

(** The buffers of the requests [U]. *)
Definition bufs_of (F : gmap nat request) (U : list nat) : list nat := omap (λ h, rq_buf <$> F !! h) U.

Definition wake_all (bs : list nat) (ps : list proc) : list proc :=
  foldl (λ ps b, imap (woken (Some p) (Ch_buf b)) ps) ps bs.

(** What the handler changes of the state: the queue, the disk flags of the
    buffers [bs], the processes that wait for them, and what a quiet step may. *)
Definition completes (bs : list nat) (s s' : kstate) : Prop :=
  ∃ v, quietly (set_k_bufs (foldl (λ l b, alter (set_b_disk false) b l) s.(k_bufs) bs) (set_k_vdisk v s)) s' ∧
    s'.(k_procs) = wake_all bs s.(k_procs).

Lemma intr_body_end H s seen A F :
  calm H s → vq seen A [] F s.(k_vdisk) s.(k_bufs) → intr_body tt s = Done (inr tt) s.
Proof.
  intros C Q. destruct (vq_used_idx _ _ _ _ _ _ Q) as [Hr Hidx]. unfold intr_body. mred. unfold vd_get. mred.
  rewrite Hidx. cbn [length]. rewrite Z.add_0_r. unfold u16. rewrite Z.mod_small by lia. by rewrite Z.eqb_refl.
Qed.

Lemma intr_body_step H s seen A U F h r :
  calm H s → vq seen A (h :: U) F s.(k_vdisk) s.(k_bufs) → F !! h = Some r → r.(rq_stage) = Served →
  (S (length U) ≤ NUM)%nat →
  ∃ s', intr_body tt s = Done (inl tt) s' ∧ calm H s' ∧
    quietly (put_v saw (upd_buf r.(rq_buf) (set_b_disk false) s)) s' ∧
    s'.(k_procs) = imap (woken (Some p) (Ch_buf r.(rq_buf))) s.(k_procs).
Proof.
  intros C Q Hh Hst Hlen. destruct (vq_used_idx _ _ _ _ _ _ Q) as [Hr Hidx].
  destruct (ring_at_pop _ _ _ _ (vq_used _ _ _ _ _ _ Q)) as [Hring _].
  pose proof (own_info _ _ _ _ (vq_own _ _ _ _ _ _ Q h r Hh)) as Hinfo. rewrite Hst, decide_False in Hinfo by done.
  destruct (wakeup_calm_procs p pid H (upd_buf r.(rq_buf) (set_b_disk false) s) (Ch_buf r.(rq_buf)))
    as (s1 & E1 & C1 & Q1 & P1); [by eapply calm_upd|].
  exists (put_v saw s1). split_and!.
  - unfold intr_body. mred. unfold vd_get. mred. rewrite Hidx, (proj2 (Z.eqb_neq _ _)).
    2:{ cbn [length]. unfold NUM in Hlen. unfold u16. lia. }
    rewrite Hring. mred. rewrite Nat2Z.id, Hinfo. mred.
    cbn [vi_status vi_b Z.eqb negb]. mred. rewrite E1. cbn [obind].
    unfold vd_set, modify. cbn [obind]. unfold put_v, saw.
    by rewrite (quietly_get p k_vdisk _ _ Q1 (λ _ _ _ _, eq_refl)).
  - by apply put_v_calm.
  - by apply quietly_put_v.
  - exact P1.
Qed.

Lemma served_length seen A U F v bs : vq seen A U F v bs → (length U ≤ NUM)%nat.
Proof.
  intros Q. apply nodup_descs; [apply (vq_served _ _ _ _ _ _ Q)|]. eapply vq_stage_lt; [done|apply Q].
Qed.

Lemma finish_none F : in_stage Served F [] → finish <$> F = F.
Proof.
  intros [_ Hs]. apply map_eq. intros h. rewrite lookup_fmap. destruct (F !! h) as [r|] eqn:E; [|done].
  cbn. f_equal. unfold finish. rewrite decide_False; [done|]. intros Hr.
  apply (elem_of_nil h), Hs. by exists r.
Qed.

Lemma finish_insert F h r :
  F !! h = Some r → r.(rq_stage) = Served → finish <$> <[h:=set_stage Finished r]> F = finish <$> F.
Proof.
  intros Hh Hst. rewrite fmap_insert. apply insert_id. rewrite lookup_fmap, Hh. cbn. f_equal.
  unfold finish. by rewrite (decide_True _ _ Hst).
Qed.

Lemma bufs_of_insert F U h r r' :
  F !! h = Some r → r'.(rq_buf) = r.(rq_buf) → bufs_of (<[h:=r']> F) U = bufs_of F U.
Proof.
  intros Hh Hb. unfold bufs_of. apply list_omap_ext. apply Forall2_same_length_lookup_2; [done|].
  intros i x y Hx Hy. simplify_eq. destruct (decide (h = x)) as [->|Hne].
  - rewrite lookup_insert_eq, Hh. simpl. by rewrite Hb.
  - by rewrite lookup_insert_ne.
Qed.

Lemma completes_nil s : completes [] s s.
Proof.
  exists s.(k_vdisk). split; [|done]. cbn [foldl].
  replace (set_k_bufs _ _) with s; [done|]. keq.
Qed.

Lemma completes_cons b bs s s1 s' :
  quietly (put_v saw (upd_buf b (set_b_disk false) s)) s1 →
  s1.(k_procs) = imap (woken (Some p) (Ch_buf b)) s.(k_procs) →
  completes bs s1 s' → completes (b :: bs) s s'.
Proof.
  intros Q1 P1 (v & Q & P). exists v. split; [|by rewrite P, P1]. etrans; [|exact Q].
  rewrite (quietly_get p k_bufs _ _ Q1 (λ _ _ _ _, eq_refl)).
  exact (quietly_upd p (λ x, set_k_bufs (foldl (λ l b, alter (set_b_disk false) b l)
    (k_bufs (upd_buf b (set_b_disk false) s)) bs) (set_k_vdisk v x)) _ _ Q1
    (λ _ _ _ _, eq_refl) (λ _, eq_refl)).
Qed.

Lemma intr_loop H seen A U fuel F s :
  (length U < fuel)%nat → calm H s → vq seen A U F s.(k_vdisk) s.(k_bufs) →
  ∃ s', loop fuel intr_body tt s = Done tt s' ∧ calm H s' ∧
    vq seen A [] (finish <$> F) s'.(k_vdisk) s'.(k_bufs) ∧ completes (bufs_of F U) s s'.
Proof.
  revert U F s. induction fuel as [|fuel IH]; intros U F s Hf C Q; [lia|]. cbn [loop].
  destruct U as [|h U].
  { rewrite (bind_Done _ _ _ _ _ (intr_body_end H s seen A F C Q)). exists s. split_and!; [done..| |apply completes_nil].
    rewrite finish_none; [done|apply Q]. }
  destruct (proj1 (proj2 (vq_served _ _ _ _ _ _ Q) h)) as (r & Hr & Hst); [by left|].
  destruct (intr_body_step H s seen A U F h r C Q Hr Hst) as (s1 & E1 & C1 & Q1 & P1).
  { apply (served_length _ _ _ _ _ _ Q). }
  rewrite (bind_Done _ _ _ _ _ E1).
  assert (V1 : vq seen A U (<[h:=set_stage Finished r]> F) s1.(k_vdisk) s1.(k_bufs)).
  { rewrite (quietly_get p k_vdisk _ _ Q1 (λ _ _ _ _, eq_refl)), (quietly_get p k_bufs _ _ Q1 (λ _ _ _ _, eq_refl)).
    by apply (vq_complete _ _ _ _ _ _ _ _ Q). }
  destruct (IH U _ s1 ltac:(simpl in Hf; lia) C1 V1) as (s' & E' & C' & V' & K').
  exists s'. rewrite (finish_insert _ _ _ Hr Hst) in V'. rewrite (bufs_of_insert _ _ _ r (set_stage Finished r) Hr eq_refl) in K'.
  split_and!; [done..|]. unfold bufs_of at 1. cbn [omap list_omap]. rewrite Hr. cbn [fmap option_fmap option_map].
  by eapply completes_cons.
Qed.

(** A process that waits for one of the buffers is made RUNNABLE. *)
Lemma wake_all_wakes bs ps q pr b :
  q ≠ p → ps !! q = Some pr → pr.(p_state) = RUNNABLE ∨ pr.(p_state) = SLEEPING ∧ pr.(p_chan) = Ch_buf b ∧ b ∈ bs →
  ∃ pr', wake_all bs ps !! q = Some pr' ∧ pr'.(p_state) = RUNNABLE.
Proof.
  intros Hq. revert ps pr. induction bs as [|x bs IH]; intros ps pr Hpr Hw.
  { destruct Hw as [Hw|(_ & _ & Hb)]; [by exists pr|by apply elem_of_nil in Hb]. }
  cbn. eapply IH; [by rewrite list_lookup_imap, Hpr|]. unfold woken.
  case_decide as Hd; [by left|]. destruct Hw as [Hw|(Hs & Hc & Hb)]; [by left|].
  apply elem_of_cons in Hb as [->|Hb]; [|by right]. exfalso. apply Hd. split_and!; [|done..]. congruence.
Qed.

Lemma disk_flags_lookup (bs : list nat) (l : list buf) i (b : buf) :
  l !! i = Some b → ∃ d, foldl (λ l b, alter (set_b_disk false) b l) l bs !! i = Some (set_b_disk d b).
Proof.
  revert l b. induction bs as [|x bs IH]; intros l b Hb.
  { exists b.(b_disk). cbn. rewrite Hb. by destruct b. }
  cbn. destruct (decide (x = i)) as [->|Hne].
  - destruct (IH (alter (set_b_disk false) i l) (set_b_disk false b)) as [d E];
      [by rewrite list_lookup_alter_eq, Hb|]. by exists d.
  - apply IH. by rewrite list_lookup_alter_ne.
Qed.

(** The whole handler: the queue, the flags of the buffers of [U], and the
    processes that wait for them. *)
Lemma virtio_disk_intr_run seen A U F s :
  calm [] s → vq seen A U F s.(k_vdisk) s.(k_bufs) →
  ∃ s', virtio_disk_intr s = Done tt s' ∧ calm [] s' ∧
    vq seen A [] (finish <$> F) s'.(k_vdisk) s'.(k_bufs) ∧ completes (bufs_of F U) s s'.
Proof.
  intros C Q.
  destruct (acquire_free_procs p pid [] s L_vdisk) as (s1 & E1 & C1 & Q1 & P1);
    [done|apply (calm_free _ _ _ _ C); [by vm_compute|apply not_elem_of_nil]|apply not_elem_of_nil|done|].
  set (regs := vio_store VIRTIO_MMIO_INTERRUPT_ACK
    (Z.land (default 0 (vd_regs (k_vdisk s1) !! (VIRTIO_MMIO_INTERRUPT_STATUS : Z))) 3) s1.(k_vdisk).(vd_regs)).
  set (s2 := put_v (set_vd_regs regs) s1).
  pose proof (quietly_get p k_vdisk _ _ Q1 (λ _ _ _ _, eq_refl)) as V1.
  pose proof (quietly_get p k_bufs _ _ Q1 (λ _ _ _ _, eq_refl)) as B1.
  destruct (intr_loop [L_vdisk] seen A U (S NUM) F s2) as (s3 & E3 & C3 & V3 & (v & Q3 & P3)).
  { pose proof (served_length _ _ _ _ _ _ Q). lia. }
  { by apply put_v_calm. }
  { unfold s2. cbn [put_v k_vdisk k_bufs set_k_vdisk]. rewrite V1, B1. by apply vq_regs. }
  destruct (release_free_procs p pid [] s3 L_vdisk C3) as (s4 & E4 & C4 & Q4 & _ & P4).
  exists s4. split_and!; [|done|..].
  - unfold virtio_disk_intr. rewrite (bind_Done _ _ _ _ _ E1).
    rewrite (bind_Done (reg_read VIRTIO_MMIO_INTERRUPT_STATUS) _ s1 _ s1 eq_refl).
    rewrite (bind_Done (reg_write VIRTIO_MMIO_INTERRUPT_ACK _) _ s1 tt s2 eq_refl).
    etrans; [exact (bind_Done _ _ _ _ _ E3)|exact E4].
  - by rewrite (quietly_get p k_vdisk _ _ Q4 (λ _ _ _ _, eq_refl)), (quietly_get p k_bufs _ _ Q4 (λ _ _ _ _, eq_refl)).
  - exists v. split; [|rewrite P4, P3; unfold s2; cbn [put_v k_procs set_k_vdisk]; by rewrite P1].
    etrans; [|exact Q4]. etrans; [|exact Q3]. unfold s2. cbn [put_v k_bufs set_k_vdisk]. rewrite B1.
    exact (quietly_upd p (λ x, set_k_bufs (foldl (λ l b, alter (set_b_disk false) b l) s.(k_bufs) (bufs_of F U))
      (set_k_vdisk v x)) _ _ Q1 (λ _ _ _ _, eq_refl) (λ _, eq_refl)).
Qed.

(** C37: The interrupt handler completes every request that the device has
    served.  Run by any process while no other holds a lock, on a queue in which
    the device has served the requests [U], it returns without a panic; the
    driver has then seen all of them, the disk flags of their buffers are clear,
    every process that slept on such a buffer is RUNNABLE, and neither the data
    of a buffer nor the disk changed. *)
Theorem virtio_disk_intr_spec seen A U F s :
  calm [] s → vq seen A U F s.(k_vdisk) s.(k_bufs) →
  ∃ s', virtio_disk_intr s = Done tt s' ∧ calm [] s' ∧
    vq seen A [] (finish <$> F) s'.(k_vdisk) s'.(k_bufs) ∧ s'.(k_disk) = s.(k_disk) ∧
    (∀ i b, s.(k_bufs) !! i = Some b → ∃ d, s'.(k_bufs) !! i = Some (set_b_disk d b)) ∧
    ∀ q pr h r, q ≠ p → s.(k_procs) !! q = Some pr → pr.(p_state) = SLEEPING →
      F !! h = Some r → r.(rq_stage) = Served → pr.(p_chan) = Ch_buf r.(rq_buf) →
      ∃ pr', s'.(k_procs) !! q = Some pr' ∧ pr'.(p_state) = RUNNABLE.
Proof.
  intros C Q. destruct (virtio_disk_intr_run seen A U F s C Q) as (s' & E & C' & Q' & v & K & P).
  exists s'. split_and!; [done..| | |].
  - exact (quietly_get p k_disk _ _ K (λ _ _ _ _, eq_refl)).
  - intros i b Hb. rewrite (quietly_get p k_bufs _ _ K (λ _ _ _ _, eq_refl)). by apply disk_flags_lookup.
  - intros q pr h r Hq Hpr Hs Hh Hst Hc. rewrite P.
    apply (wake_all_wakes (bufs_of F U) _ q pr r.(rq_buf) Hq Hpr).
    right. split_and!; [done..|]. apply list_elem_of_omap. exists h. split; [|by rewrite Hh].
    apply (vq_served _ _ _ _ _ _ Q). by exists r.
Qed.

(** ** A transfer *)

(** The rest of [virtio_disk_rw] once the request is complete. *)
Lemma request_done seen A U F h r s :
  calm [L_vdisk] s → vq seen A U F s.(k_vdisk) s.(k_bufs) → F !! h = Some r → r.(rq_stage) = Finished →
  ∃ s', (info_set h (set_vi_b None);; free_chain h;; release L_vdisk) s = Done tt s' ∧ calm [] s' ∧
    vq seen A U (delete h F) s'.(k_vdisk) s'.(k_bufs) ∧
    s'.(k_disk) = s.(k_disk) ∧ s'.(k_dwrites) = s.(k_dwrites) ∧ s'.(k_bufs) = s.(k_bufs).
Proof.
  intros C Q Hh Hst. set (s1 := put_v (forget h) s).
  destruct (free_chain_calm p pid [L_vdisk] s1 s.(k_vdisk) s.(k_bufs) h r) as (s2 & E2 & C2 & Q2);
    [by apply put_v_calm|apply Q|by apply (vq_own _ _ _ _ _ _ Q)|done..|].
  destruct (release_calm p pid [] s2 L_vdisk C2) as (s3 & E3 & C3 & Q3).
  assert (Q4 : quietly (put_v (freed3 h r.(rq_i1) r.(rq_i2)) s1) s3) by by etrans.
  exists s3. split_and!; [|done|..].
  - rewrite (bind_Done (info_set h _) _ s tt s1 eq_refl), (bind_Done _ _ _ _ _ E2). exact E3.
  - rewrite (quietly_get p k_vdisk _ _ Q4 (λ _ _ _ _, eq_refl)), (quietly_get p k_bufs _ _ Q4 (λ _ _ _ _, eq_refl)).
    by apply (vq_release _ _ _ _ _ _ _ _ Q).
  - exact (quietly_get p k_disk _ _ Q4 (λ _ _ _ _, eq_refl)).
  - exact (quietly_get p k_dwrites _ _ Q4 (λ _ _ _ _, eq_refl)).
  - exact (quietly_get p k_bufs _ _ Q4 (λ _ _ _ _, eq_refl)).
Qed.

Lemma wait_disk_done b x s : s.(k_bufs) !! b = Some x → x.(b_disk) = false → wait_disk b tt s = Done (inr tt) s.
Proof. intros Hb Hd. unfold wait_disk. mred. rewrite Hb. mred. by rewrite Hd. Qed.

(** It sleeps, and when it is resumed with the request complete, it is done. *)
Lemma wait_disk_sleeps n b x s :
  calm [L_vdisk] s → s.(k_bufs) !! b = Some x → x.(b_disk) = true →
  ∃ s1 k, loop (S (S n)) (wait_disk b) tt s = Swtch s1 k ∧ same_data s s1 ∧ lock_free L_vdisk s1 ∧
    (∃ pr, s1.(k_procs) !! p = Some pr ∧ pr.(p_state) = SLEEPING ∧ pr.(p_chan) = Ch_buf b) ∧
    ∀ s' y, awake p s1 s' → s'.(k_bufs) !! b = Some y → y.(b_disk) = false →
      ∃ s2, k s' = Done tt s2 ∧ calm [L_vdisk] s2 ∧ same_data s' s2.
Proof.
  intros C Hb Hd. destruct (sleep_calm p pid (Ch_buf b) L_vdisk s C) as (s1 & k & E & D & Hf & Hp & Hk);
    [by vm_compute|].
  eexists s1, _. split_and!; [|done..|].
  - cbn [loop]. apply bind_Swtch. unfold wait_disk. mred. rewrite Hb. mred. rewrite Hd, E. reflexivity.
  - intros s' y Haw Hy Hyd. destruct (Hk s' Haw) as (s2 & E2 & C2 & D2).
    exists s2. split_and!; [|done..]. cbn [obind]. rewrite E2. cbn [obind loop].
    assert (Hb2 : s2.(k_bufs) !! b = Some y) by (unfold same_data in D2; by rewrite D2).
    by rewrite (bind_Done _ _ _ _ _ (wait_disk_done b y s2 Hb2 Hyd)).
Qed.

(** A disk transfer.  With at most one other request in flight,
    [virtio_disk_rw] of a buffer that no request uses hands the device a request
    for the buffer's block, in the right direction, on descriptors of its own,
    and sleeps on the buffer with the driver's lock released.  Whatever happens
    to the queue meanwhile, when the process is resumed and its request is
    finished, the call returns with the lock free; its descriptors are free
    again, and the other requests, the buffers and the disk are as they were
    when it was resumed. *)
Lemma virtio_disk_rw_run seen A U F s b x write :
  (1 ≤ wakeups)%nat → calm [] s → vq seen A U F s.(k_vdisk) s.(k_bufs) → s.(k_bufs) !! b = Some x →
  (∀ h r, F !! h = Some r → r.(rq_buf) ≠ b) → (size F ≤ 1)%nat →
  ∃ s1 k h i1 i2, let r := new_request b write (u32 (x.(b_blockno) * 2)) i1 i2 in
    virtio_disk_rw b write s = Swtch s1 k ∧ F !! h = None ∧
    vq seen (A ++ [h]) U (<[h:=r]> F) s1.(k_vdisk) s1.(k_bufs) ∧ lock_free L_vdisk s1 ∧
    s1.(k_disk) = s.(k_disk) ∧ s1.(k_dwrites) = s.(k_dwrites) ∧ s1.(k_bufs) = alter (set_b_disk true) b s.(k_bufs) ∧
    (∃ pr, s1.(k_procs) !! p = Some pr ∧ pr.(p_state) = SLEEPING ∧ pr.(p_chan) = Ch_buf b) ∧
    ∀ s2 seen2 A2 U2 F2, awake p s1 s2 → vq seen2 A2 U2 F2 s2.(k_vdisk) s2.(k_bufs) →
      F2 !! h = Some (set_stage Finished r) →
      ∃ s3, k s2 = Done tt s3 ∧ calm [] s3 ∧ vq seen2 A2 U2 (delete h F2) s3.(k_vdisk) s3.(k_bufs) ∧
        s3.(k_disk) = s2.(k_disk) ∧ s3.(k_dwrites) = s2.(k_dwrites) ∧ s3.(k_bufs) = s2.(k_bufs).
Proof.
  intros HW C Q Hb Hnb Hsz.
  destruct (acquire_calm p pid [] s L_vdisk) as (s1 & E1 & C1 & Q1);
    [done|by vm_compute|apply not_elem_of_nil|done|].
  pose proof (quietly_get p k_vdisk _ _ Q1 (λ _ _ _ _, eq_refl)) as V1.
  pose proof (quietly_get p k_bufs _ _ Q1 (λ _ _ _ _, eq_refl)) as B1. rewrite <-V1, <-B1 in Q. rewrite <-B1 in Hb.
  destruct (alloc3_desc_ok (owned F) s1 (vq_free_outside _ _ _ _ _ _ Q)) as (h & i1 & i2 & Hnd & Hfr & E2);
    [rewrite length_owned; unfold NUM; lia|].
  set (sector := u32 (x.(b_blockno) * (BSIZE / 512))).
  pose proof (vq_submit seen A U F _ _ b x write sector h i1 i2 Q Hb Hnb Hnd Hfr) as Q3.
  pose proof (virtio_submit_ok b write sector h i1 i2 (put_v (take3 h i1 i2) s1)) as E3.
  set (s3 := put_v (submitted _ _ _ _ _ _) _) in E3.
  destruct (vq_fresh _ _ _ _ _ _ _ _ _ Q Hfr) as (_ & _ & HF0 & _).
  destruct wakeups as [|n] eqn:EW; [lia|].
  destruct (wait_disk_sleeps n b (set_b_disk true x) s3) as (s4 & k & E4 & D4 & Hf4 & Hp4 & Hk).
  { apply put_v_calm. by eapply calm_upd. }
  { unfold s3. cbn. by rewrite list_lookup_alter_eq, Hb. }
  { done. }
  unfold same_data in D4.
  eexists s4, _, h, i1, i2. split_and!; [|done|by rewrite D4|done|..|done|].
  - unfold virtio_disk_rw. rewrite EW.
    rewrite (bind_Done (buf_get b b_blockno) _ s x.(b_blockno) s) by (mred; by rewrite <-B1, Hb).
    rewrite (bind_Done _ _ _ _ _ E1).
    assert (EL : ∀ m (g : _ → M kstate (unit + _)), g tt s1 = Done (inr (h, i1, i2)) (put_v (take3 h i1 i2) s1) →
      loop (S m) g tt s1 = Done (h, i1, i2) (put_v (take3 h i1 i2) s1)).
    { intros m g Eg. cbn [loop]. by rewrite (bind_Done _ _ _ _ _ Eg). }
    erewrite bind_Done; [|apply EL; by rewrite (bind_Done _ _ _ _ _ E2)].
    cbv beta iota zeta. fold sector. rewrite (bind_Done _ _ _ _ _ E3). exact (bind_Swtch _ _ _ _ _ E4).
  - rewrite D4. exact (quietly_get p k_disk _ _ Q1 (λ _ _ _ _, eq_refl)).
  - rewrite D4. exact (quietly_get p k_dwrites _ _ Q1 (λ _ _ _ _, eq_refl)).
  - rewrite D4. unfold s3. cbn [put_v upd_buf set_k_cpus set_k_locks set_k_procs set_k_vdisk set_k_bufs k_bufs]. by rewrite B1.
  - intros s2 seen2 A2 U2 F2 Haw Q2 HF2.
    destruct (own_buf _ _ _ _ (vq_own _ _ _ _ _ _ Q2 h _ HF2)) as (y & Hy & Hyd). cbn in Hy, Hyd.
    destruct (Hk s2 y Haw Hy Hyd) as (s5 & E5 & C5 & D5). unfold same_data in D5.
    assert (k_vdisk s5 = k_vdisk s2 ∧ k_bufs s5 = k_bufs s2 ∧ k_disk s5 = k_disk s2 ∧ k_dwrites s5 = k_dwrites s2)
      as (V5 & B5 & K5 & W5) by (rewrite D5; done).
    destruct (request_done seen2 A2 U2 F2 h (set_stage Finished (new_request b write sector i1 i2)) s5 C5)
      as (s6 & E6 & C6 & Q6 & Hd6 & Hw6 & Hb6);
      [by rewrite V5, B5|exact HF2|done|].
    exists s6. split_and!; [|done|done|by rewrite Hd6|by rewrite Hw6|by rewrite Hb6].
    cbv beta. rewrite E5. cbn [obind]. exact E6.
Qed.
End Intr.

(** ** The device *)

(** A transfer between buffer [b], with contents [x], and block [n]. *)
Definition move (b : nat) (write : bool) (n : Z) (x : buf) (s : kstate) : kstate :=
  if write then
    set_k_dwrites (s.(k_dwrites) ++ [(n, x.(b_data))]) (set_k_disk (<[n:=x.(b_data)]> s.(k_disk)) s)
  else upd_buf b (set_b_data (disk_block s.(k_disk) n)) s.

(** The queue when request [h] was served: its status byte is 0, and it is in
    the used ring. *)
Definition served (h : nat) (v : vdisk) : vdisk :=
  set_vd_info (alter (set_vi_status 0) h v.(vd_info))
    (set_vd_used_ring_idx (u16 (v.(vd_used_ring_idx) + 1))
      (set_vd_used_ring (<[Z.to_nat (v.(vd_used_ring_idx) mod Z.of_nat NUM) := Z.of_nat h]> v.(vd_used_ring)) v)).

(** What a virtio block device does when it finds a chain in the available ring:
    the header says what to do and where, the second descriptor is the data, the
    third the status byte. *)
Class Device (serve : Z → kstate → kstate) : Prop :=
  serve_ok seen s (h i1 i2 b : nat) (x : buf) (write : bool) n :
    let v := s.(k_vdisk) in
    v.(vd_avail_idx) ≠ u16 seen →
    v.(vd_avail_ring) !! Z.to_nat (seen mod Z.of_nat NUM) = Some (Z.of_nat h) →
    v.(vd_desc) !! h = Some (mk_vdesc (V_ops h) 16 VRING_DESC_F_NEXT (Z.of_nat i1)) →
    v.(vd_desc) !! i1 = Some (mk_vdesc (V_data b) BSIZE
      (Z.lor (if write then 0 else VRING_DESC_F_WRITE) VRING_DESC_F_NEXT) (Z.of_nat i2)) →
    v.(vd_desc) !! i2 = Some (mk_vdesc (V_status h) 1 VRING_DESC_F_WRITE 0) →
    v.(vd_ops) !! h = Some (mk_vreq (if write then VIRTIO_BLK_T_OUT else VIRTIO_BLK_T_IN) 0 (n * 2)) →
    s.(k_bufs) !! b = Some x → serve seen s = put_v (served h) (move b write n x s).

Lemma in_stage_replace st F l h r :
  in_stage st F l → h ∉ l → r.(rq_stage) = st → in_stage st (<[h:=r]> F) (l ++ [h]).
Proof.
  intros [Hnd Hl] Hh Hr. split.
  { by apply NoDup_snoc. }
  intros x. rewrite elem_of_app, list_elem_of_singleton, Hl. split.
  - intros [(y & Hx & Hs)| ->]; [|exists r; by rewrite lookup_insert_eq].
    exists y. rewrite lookup_insert_ne; [done|]. intros ->. apply Hh, Hl. eauto.
  - intros (y & Hx & Hs). apply lookup_insert_Some in Hx as [[<- <-]|[Hne Hx]]; [by right|left; eauto].
Qed.

Lemma in_stage_length seen A U F v bs st l :
  vq seen A U F v bs → in_stage st F l → (length l ≤ NUM)%nat.
Proof. intros Q Hs. apply nodup_descs; [apply Hs|]. by eapply vq_stage_lt. Qed.

Lemma owns_served v bs bs' h r :
  owns v bs h r → r.(rq_stage) = Pending →
  (∀ i b, bs !! i = Some b → ∃ b', bs' !! i = Some b' ∧ b'.(b_disk) = b.(b_disk)) →
  owns (served h v) bs' h (set_stage Served r).
Proof.
  intros [H1 H2 H3 H4 H5 H6 H7 (b & Hb & Hd)] Hst Hbs. destruct (Hbs _ _ Hb) as (b' & Hb' & Hd').
  split; try done.
  - cbn. rewrite list_lookup_alter_eq, H7, Hst. done.
  - exists b'. split; [done|]. rewrite Hd', Hd, Hst. done.
Qed.

(** The device serves the first request of the available ring. *)
Lemma vq_serve seen A U F v bs bs' h r :
  vq seen (h :: A) U F v bs → F !! h = Some r → r.(rq_stage) = Pending →
  (∀ i b, bs !! i = Some b → ∃ b', bs' !! i = Some b' ∧ b'.(b_disk) = b.(b_disk)) →
  vq (seen + 1) A (U ++ [h]) (<[h:=set_stage Served r]> F) (served h v) bs'.
Proof.
  intros Q Hh Hst Hbs. pose proof (vq_own _ _ _ _ _ _ Q h r Hh) as O.
  destruct (vq_used_idx _ _ _ _ _ _ Q) as [Hr Hidx]. destruct (vq_avail_idx _ _ _ _ _ _ Q) as [H0 Hav].
  assert (Hn : h ∉ U). { intros (y & Hy & Hs)%(vq_served _ _ _ _ _ _ Q). congruence. }
  assert (HU : (length U < NUM)%nat).
  { pose proof (NoDup_snoc U h (proj1 (vq_served _ _ _ _ _ _ Q)) Hn) as Hnd.
    apply nodup_descs in Hnd; [rewrite length_app in Hnd; simpl in Hnd; lia|].
    intros i [Hi|Hi%list_elem_of_singleton]%elem_of_app.
    - apply (vq_stage_lt _ _ _ _ _ _ Served U Q); [apply Q|done].
    - subst i. apply (vq_stage_lt _ _ _ _ _ _ Pending (h :: A) Q); [apply Q|by left]. }
  destruct (ring_at_pop _ _ _ _ (vq_avail _ _ _ _ _ _ Q)) as [_ Hpop].
  destruct (vq_restage _ _ _ _ _ _ h r Served Q Hh) as (Rf & Rd & Rb).
  split.
  - cbn. rewrite length_alter, length_insert. apply Q.
  - intros h' r' [[<- <-]|[Hne Hr']]%lookup_insert_Some.
    + by apply owns_served with (bs := bs).
    + destruct (own_buf _ _ _ _ (vq_own _ _ _ _ _ _ Q h' r' Hr')) as (b & Hb & Hd).
      destruct (Hbs _ _ Hb) as (b' & Hb' & Hd'). destruct (vq_own _ _ _ _ _ _ Q h' r' Hr') as [H1 H2 H3 H4 H5 H6 H7 _].
      split; try done; [cbn; by rewrite list_lookup_alter_ne|]. exists b'. by rewrite Hd', Hd.
  - exact Rf.
  - exact Rd.
  - exact Rb.
  - split; [lia|]. cbn [served set_vd_info set_vd_used_ring_idx set_vd_used_ring vd_avail_idx]. rewrite Hav. cbn [length].
    f_equal. lia.
  - intros k x Hk. specialize (Hpop k x Hk). by rewrite ring_slot_u16 in Hpop.
  - apply in_stage_update_head; [apply Q|done].
  - cbn [served set_vd_info set_vd_used_ring_idx set_vd_used_ring vd_used_idx vd_used_ring_idx]. rewrite Hidx, length_app.
    cbn [length]. unfold u16. lia.
  - cbn [served set_vd_info set_vd_used_ring_idx set_vd_used_ring vd_used_idx vd_used_ring]. rewrite Hidx.
    apply ring_at_push; [apply Q|lia|done|apply Q].
  - apply in_stage_replace; [apply Q|done|done].
Qed.

(** ** Driver, device and handler together *)

(** [s'] has the data of [s], and may be on another hart. *)
Definition elsewhere (s s' : kstate) : Prop :=
  s' = set_k_hart s'.(k_hart) (set_k_cpus s'.(k_cpus) (set_k_locks s'.(k_locks) (set_k_procs s'.(k_procs) s))).

Lemma elsewhere_get {X} (f : kstate → X) s s' :
  elsewhere s s' → (∀ h c l q x, f (set_k_hart h (set_k_cpus c (set_k_locks l (set_k_procs q x)))) = f x) → f s' = f s.
Proof. intros D Hf. unfold elsewhere in D. rewrite D. apply Hf. Qed.

Lemma elsewhere_set h c l q s : elsewhere s (set_k_hart h (set_k_cpus c (set_k_locks l (set_k_procs q s)))).
Proof. reflexivity. Qed.

Lemma procs_set h c l q s : (set_k_hart h (set_k_cpus c (set_k_locks l (set_k_procs q s)))).(k_procs) = q.
Proof. reflexivity. Qed.

Lemma move_flags b write n x s i y :
  s.(k_bufs) !! i = Some y → ∃ y', (move b write n x s).(k_bufs) !! i = Some y' ∧ y'.(b_disk) = y.(b_disk).
Proof.
  intros Hy. destruct write; [by exists y|]. cbn. destruct (decide (b = i)) as [->|Hne].
  - rewrite list_lookup_alter_eq, Hy. eexists. split; reflexivity.
  - rewrite list_lookup_alter_ne by done. by exists y.
Qed.

(** The request of an idle queue, served by the device. *)
Lemma device_serves serve `{!Device serve} seen h i1 i2 b x write n s :
  let r := new_request b write (n * 2) i1 i2 in
  vq seen [h] [] {[h := r]} s.(k_vdisk) s.(k_bufs) → s.(k_bufs) !! b = Some x →
  serve seen s = put_v (served h) (move b write n x s) ∧
  vq (seen + 1) [] [h] {[h := set_stage Served r]} (serve seen s).(k_vdisk) (serve seen s).(k_bufs).
Proof.
  intros r Q Hb. assert (Hh : ({[h := r]} : gmap nat request) !! h = Some r) by apply lookup_singleton_eq.
  pose proof (vq_own _ _ _ _ _ _ Q h r Hh) as O. destruct (vq_avail_idx _ _ _ _ _ _ Q) as [H0 Hav].
  destruct (ring_at_pop _ _ _ _ (vq_avail _ _ _ _ _ _ Q)) as [Hring _].
  assert (E : serve seen s = put_v (served h) (move b write n x s)).
  { apply (serve_ok seen s h i1 i2); [|done|apply O..|done]. rewrite Hav. cbn [length]. unfold u16. lia. }
  split; [done|]. rewrite E.
  pose proof (vq_serve _ _ _ _ _ _ (move b write n x s).(k_bufs) _ _ Q Hh eq_refl) as Q'.
  rewrite insert_singleton_eq in Q'. cbn [app] in Q'. destruct write; apply Q'; intros i y; apply move_flags.
Qed.

(** The buffers after the transfer; the disk flag is as before it. *)
Lemma moved_bufs b write n x h s s1 :
  s.(k_bufs) !! b = Some x → x.(b_disk) = false → x.(b_blockno) = n →
  s1.(k_bufs) = alter (set_b_disk true) b s.(k_bufs) → s1.(k_disk) = s.(k_disk) →
  alter (set_b_disk false) b (put_v (served h) (move b write n (set_b_disk true x) s1)).(k_bufs) =
  (transfer b write x s).(k_bufs).
Proof.
  intros Hb Hd <- B1 K1. destruct write; cbn; rewrite B1, ?K1, !list_alter_alter.
  - apply list_alter_same. intros y Hy. simplify_eq. destruct x; simpl in *. by subst.
  - apply list_alter_agree. intros y Hy. simplify_eq. destruct x; simpl in *. by subst.
Qed.

Section Transfer.
Context (serve : Z → kstate → kstate) `{!Device serve} (p q : nat) (pid qid : Z).

(** C16: The driver, the device and the interrupt handler together do what the
    buffer cache relies on.  On an idle queue, [virtio_disk_rw] hands over a
    request and gives up the cpu.  Once the device has served it, the interrupt
    handler, run by another process, makes the caller RUNNABLE; and when the
    caller is resumed, [virtio_disk_rw] returns, the queue is idle again, and
    disk and buffers are as after the [transfer] of the buffer's block. *)
Theorem virtio_disk_transfer seen s b x write :
  (1 ≤ wakeups)%nat → q ≠ p → calm p pid [] s → vq seen [] [] ∅ s.(k_vdisk) s.(k_bufs) →
  s.(k_bufs) !! b = Some x → x.(b_disk) = false → 0 ≤ x.(b_blockno) < 2 ^ 31 →
  ∃ s1 k, virtio_disk_rw b write s = Swtch s1 k ∧
    ∀ s2, elsewhere (serve seen s1) s2 → calm q qid [] s2 → s2.(k_procs) !! p = s1.(k_procs) !! p →
      ∃ s3, virtio_disk_intr s2 = Done tt s3 ∧
        (∃ pr, s3.(k_procs) !! p = Some pr ∧ pr.(p_state) = RUNNABLE) ∧
        ∀ s4, elsewhere s3 s4 → awake p s1 s4 →
          ∃ s5, k s4 = Done tt s5 ∧ calm p pid [] s5 ∧ vq (seen + 1) [] [] ∅ s5.(k_vdisk) s5.(k_bufs) ∧
            s5.(k_disk) = (transfer b write x s).(k_disk) ∧ s5.(k_dwrites) = (transfer b write x s).(k_dwrites) ∧
            s5.(k_bufs) = (transfer b write x s).(k_bufs).
Proof.
  intros HW Hqp C Q Hb Hd Hn.
  destruct (virtio_disk_rw_run p pid seen [] [] ∅ s b x write HW C Q Hb)
    as (s1 & k & h & i1 & i2 & E1 & _ & Q1 & _ & K1 & W1 & B1 & (pr & Hpr & Hps & Hpc) & Hk);
    [intros h r; by rewrite lookup_empty|by rewrite map_size_empty; lia|].
  exists s1, k. split; [done|]. intros s2 D2 C2 P2.
  replace (u32 (x.(b_blockno) * 2)) with (x.(b_blockno) * 2) in Q1, Hk by (unfold u32; lia).
  set (r := new_request b write (x.(b_blockno) * 2) i1 i2) in *.
  assert (Hb1 : s1.(k_bufs) !! b = Some (set_b_disk true x)) by by rewrite B1, list_lookup_alter_eq, Hb.
  destruct (device_serves serve seen h i1 i2 b (set_b_disk true x) write x.(b_blockno) s1 Q1 Hb1) as [Es Qs].
  rewrite <-(elsewhere_get k_vdisk _ _ D2 (λ _ _ _ _ _, eq_refl)), <-(elsewhere_get k_bufs _ _ D2 (λ _ _ _ _ _, eq_refl)) in Qs.
  destruct (virtio_disk_intr_run q qid _ _ _ _ s2 C2 Qs) as (s3 & E3 & C3 & Q3 & v & L3 & P3).
  rewrite map_fmap_singleton in Q3. change (finish _) with (set_stage Finished r) in Q3.
  unfold bufs_of in L3, P3. cbn [omap list_omap] in L3, P3. rewrite lookup_singleton_eq in L3, P3.
  cbn [fmap option_fmap option_map set_stage rq_buf r new_request] in L3, P3.
  exists s3. split_and!; [done| |].
  - rewrite P3. apply (wake_all_wakes q [b] s2.(k_procs) p pr b); [done|by rewrite P2|].
    right. split_and!; [done..|by left].
  - intros s4 D4 Haw.
    rewrite <-(elsewhere_get k_vdisk _ _ D4 (λ _ _ _ _ _, eq_refl)), <-(elsewhere_get k_bufs _ _ D4 (λ _ _ _ _ _, eq_refl)) in Q3.
    destruct (Hk s4 _ _ _ _ Haw Q3) as (s5 & E5 & C5 & Q5 & K5 & W5 & B5); [apply lookup_singleton_eq|].
    exists s5. rewrite delete_singleton_eq in Q5. split_and!; [done..| | |].
    + rewrite K5, (elsewhere_get k_disk _ _ D4 (λ _ _ _ _ _, eq_refl)), (quietly_get q k_disk _ _ L3 (λ _ _ _ _, eq_refl)).
      cbn [set_k_bufs set_k_vdisk k_disk]. rewrite (elsewhere_get k_disk _ _ D2 (λ _ _ _ _ _, eq_refl)), Es.
      destruct write; cbn; by rewrite K1.
    + rewrite W5, (elsewhere_get k_dwrites _ _ D4 (λ _ _ _ _ _, eq_refl)), (quietly_get q k_dwrites _ _ L3 (λ _ _ _ _, eq_refl)).
      cbn [set_k_bufs set_k_vdisk k_dwrites]. rewrite (elsewhere_get k_dwrites _ _ D2 (λ _ _ _ _ _, eq_refl)), Es.
      destruct write; cbn; by rewrite W1.
    + rewrite B5, (elsewhere_get k_bufs _ _ D4 (λ _ _ _ _ _, eq_refl)), (quietly_get q k_bufs _ _ L3 (λ _ _ _ _, eq_refl)).
      cbn [set_k_bufs k_bufs foldl]. rewrite (elsewhere_get k_bufs _ _ D2 (λ _ _ _ _ _, eq_refl)), Es.
      by apply moved_bufs.
Qed.
End Transfer.
End Driver.

(** ** A device, and a transfer from end to end *)

(** A device that serves a request by reading its descriptors. *)
Definition demo_serve (seen : Z) (s : kstate) : kstate :=
  let v := s.(k_vdisk) in
  let result :=
    hz ← v.(vd_avail_ring) !! Z.to_nat (seen mod Z.of_nat NUM);
    let h := Z.to_nat hz in
    d0 ← v.(vd_desc) !! h;
    d1 ← v.(vd_desc) !! Z.to_nat d0.(d_next);
    op ← v.(vd_ops) !! h;
    b ← (match d1.(d_addr) with V_data b => Some b | _ => None end);
    x ← s.(k_bufs) !! b;
    Some (put_v (served h) (move b (op.(q_type) =? VIRTIO_BLK_T_OUT) (op.(q_sector) / 2) x s)) in
  if v.(vd_avail_idx) =? u16 seen then s else default s result.

#[global] Instance demo_serve_ok : Device demo_serve.
Proof.
  intros seen s h i1 i2 b x write n v Hav Hring H0 H1 H2 Hop Hb. unfold demo_serve. fold v.
  rewrite (proj2 (Z.eqb_neq _ _) Hav), Hring. cbn [mbind option_bind]. rewrite Nat2Z.id, H0.
  cbn [mbind option_bind d_next]. rewrite Nat2Z.id, H1. cbn [mbind option_bind d_addr]. rewrite Hop.
  cbn [mbind option_bind q_type q_sector]. rewrite Hb. cbn [default]. rewrite Z.div_mul by lia. by destruct write.
Qed.

(** An idle queue. *)
Definition vdisk_idle : vdisk :=
  mk_vdisk (replicate NUM (mk_vdesc V_null 0 0 0)) 0 (replicate NUM 0) 0 (replicate NUM 0)
    (replicate NUM true) 0 (replicate NUM (mk_vinfo None 0)) (replicate NUM (mk_vreq 0 0 0)) [] ∅.

Lemma vdisk_idle_ok bs : vq 0 [] [] ∅ vdisk_idle bs.
Proof.
  assert (Hs : ∀ st, in_stage st ∅ []).
  { intros st. split; [constructor|]. intros h. split; [by intros ?%elem_of_nil|].
    intros (r & Hr & _). by rewrite lookup_empty in Hr. }
  split; try done; try (intros *; rewrite lookup_empty; discriminate).
  intros i Hi. apply lookup_replicate in Hi as [? _]. done.
Qed.

#[local] Instance quiet_device : VirtioDevice := λ _ _ regs, regs.
#[local] Instance one_wait : WaitBound := 1%nat.

(** Process 3 runs, the queue is idle. *)
Definition disk_ready : kstate := put_v (λ _, vdisk_idle) (kstate_run 0 []).

Lemma disk_ready_calm : calm 3 7 [] disk_ready.
Proof. apply put_v_calm, kstate_run_calm. Qed.

(** Where process 3 gave up the cpu. *)
Definition after_submit : kstate :=
  match virtio_disk_rw 0 true disk_ready with Swtch s _ => s | _ => disk_ready end.

(** Process 5 takes the interrupt. *)
Definition at_interrupt : kstate :=
  set_k_hart 0 (set_k_cpus (<[0%nat := mk_cpu (Some 5%nat) 0 true false]> kstate0.(k_cpus))
    (set_k_locks kstate0.(k_locks) (set_k_procs after_submit.(k_procs) (demo_serve 0 after_submit)))).

Lemma at_interrupt_calm : calm 5 0 [] at_interrupt.
Proof.
  split; [|..|by vm_compute|by eexists; split; [vm_compute; reflexivity|]].
  - exists (mk_cpu (Some 5%nat) 0 true false). split_and!; [by vm_compute|done..|]. split; simpl; [lia|done].
  - intros l Hl _. apply (static_free l Hl).
  - intros l Hl. by apply elem_of_nil in Hl.
  - constructor.
  - intros i. apply not_elem_of_nil.
Qed.

Lemma at_interrupt_procs : at_interrupt.(k_procs) !! 3%nat = after_submit.(k_procs) !! 3%nat.
Proof. unfold at_interrupt. rewrite procs_set. exact eq_refl. Qed.

(** Process 3 is resumed, with the data of [s]. *)
Definition resumed_with (s : kstate) : kstate :=
  let b := kstate_run 1 [L_proc 3] in
  set_k_hart b.(k_hart) (set_k_cpus b.(k_cpus) (set_k_locks b.(k_locks) (set_k_procs b.(k_procs) s))).

Definition private (pr : proc) : Z * Z * Z * Z * Z :=
  (pr.(p_cpu_affinity), pr.(p_pagetable), pr.(p_trapframe), pr.(p_sz), pr.(p_pid)).

Lemma resumed_with_awake s : awake 3 after_submit (resumed_with s).
Proof.
  split; [split; [split|]|..|by vm_compute].
  - eapply on_cpu_eq; [..|apply (kstate_run_cpu 1 [L_proc 3]); lia]; done.
  - exists "". unfold resumed_with. kproj. by vm_compute.
  - intros pr Hpr. assert (E : Some pr = k_procs (kstate_run 1 [L_proc 3]) !! 3%nat) by by rewrite <-Hpr.
    vm_compute in E. injection E as ->. split; [done|by left].
  - intros pr Hpr.
    assert (E : private <$> k_procs (kstate_run 1 [L_proc 3]) !! 3%nat = private <$> k_procs after_submit !! 3%nat)
      by by vm_compute.
    rewrite Hpr in E. destruct (k_procs (kstate_run 1 [L_proc 3]) !! 3%nat) as [pr'|] eqn:Hp'; [|done].
    exists pr'. split; [exact Hp'|]. injection E as E1 E2 E3 E4 E5.
    exact (conj E1 (conj E2 (conj E3 (conj E4 E5)))).
  - intros l Hl Hne. destruct (static_free l Hl) as [nm E]. exists nm.
    unfold resumed_with, kstate_run. kproj. cbn [foldr]. by rewrite lookup_insert_ne.
Qed.

(** The transfer of buffer 0 to block 0, step by step. *)
Lemma virtio_disk_transfer_witness :
  ∃ s1 k s3 s5, virtio_disk_rw 0 true disk_ready = Swtch s1 k ∧ virtio_disk_intr at_interrupt = Done tt s3 ∧
    k (resumed_with s3) = Done tt s5 ∧ s5.(k_disk) = <[0 := b_data buf0]> ∅.
Proof.
  assert (Hb : k_bufs disk_ready !! 0%nat = Some buf0) by reflexivity.
  destruct (virtio_disk_transfer demo_serve 3 5 7 0 0 disk_ready 0 buf0 true) as (s1 & k & E1 & H);
    [unfold wakeups, one_wait; lia|done|apply disk_ready_calm|apply vdisk_idle_ok|exact Hb|done|simpl; lia|].
  assert (Ha : after_submit = s1) by (unfold after_submit; by rewrite E1). subst s1.
  destruct (H at_interrupt (elsewhere_set 0 _ _ _ _) at_interrupt_calm at_interrupt_procs) as (s3 & E3 & _ & H3).
  destruct (H3 (resumed_with s3) (elsewhere_set _ _ _ _ s3) (resumed_with_awake s3)) as (s5 & E5 & _ & _ & K5 & _).
  exists after_submit, k, s3, s5. exact (conj E1 (conj E3 (conj E5 K5))).
Defined.

(** The same run, seen by the process that takes the interrupt. *)
Lemma virtio_disk_intr_spec_witness :
  ∃ s' pr, virtio_disk_intr at_interrupt = Done tt s' ∧ s'.(k_procs) !! 3%nat = Some pr ∧ pr.(p_state) = RUNNABLE.
Proof.
  destruct (virtio_disk_rw_run 3 7 0 [] [] ∅ disk_ready 0 buf0 true)
    as (s1 & k & h & i1 & i2 & E1 & _ & Q1 & _ & _ & _ & B1 & (pr & Hpr & Hs & Hc) & _);
    [unfold wakeups, one_wait; lia|apply disk_ready_calm|apply vdisk_idle_ok|reflexivity
    |intros h r; by rewrite lookup_empty|by rewrite map_size_empty; lia|].
  assert (Ha : after_submit = s1) by (unfold after_submit; by rewrite E1). rewrite <-Ha in *. clear Ha E1.
  destruct (device_serves demo_serve 0 h i1 i2 0 (set_b_disk true buf0) true 0 after_submit Q1) as [_ Q2];
    [by rewrite B1|].
  pose proof (elsewhere_set 0 (<[0%nat := mk_cpu (Some 5%nat) 0 true false]> kstate0.(k_cpus)) kstate0.(k_locks)
    after_submit.(k_procs) (demo_serve 0 after_submit) : elsewhere _ at_interrupt) as D.
  rewrite <-(elsewhere_get k_vdisk _ _ D (λ _ _ _ _ _, eq_refl)), <-(elsewhere_get k_bufs _ _ D (λ _ _ _ _ _, eq_refl)) in Q2.
  destruct (virtio_disk_intr_spec 5 0 _ _ _ _ _ at_interrupt_calm Q2) as (s' & E & _ & _ & _ & _ & H).
  destruct (H 3%nat pr h (set_stage Served (new_request 0 true (0 * 2) i1 i2))) as (pr' & Hp' & Hr');
    [done|by rewrite at_interrupt_procs|done|apply lookup_singleton_eq|done|done|].
  exists s', pr'. exact (conj E (conj Hp' Hr')).
Defined.
