(* ===== verification/Log.v ===== *)
(** * The log ([kernel/log.c])

    Write-ahead logging of file system transactions: [begin_op]/[end_op],
    [log_write], [commit] and recovery.  The entries of [log.lh.block] are kept
    as the unsigned block numbers that every use converts them to.  An index
    outside the array is a [Fault]. *)

From S2P Require Import Prelude State Spinlock Cstring Riscv Kalloc Vm Proc ProcFacts Sleeplock Bio.

Section Log.
Context {HK : KernelImage} {WB : WaitBound} {BD : BlockDev}.

(** [log.lh.block[i]] *)
Definition lh_block_get (i : nat) : M kstate Z :=
  bl ← log_get lh_block; opt_or_fault (bl !! i).

Definition lh_block_set (i : nat) (v : Z) : M kstate unit :=
  if decide (Z.of_nat i < LOGSIZE) then log_set (λ l, set_lh_block (<[i:=v]> l.(lh_block)) l)
  else fault.

(** The header block: [lh->n], and [lh->block[i]] after it. *)
Definition hd_n (data : list Z) : Z := s32 (get_le 4 0 data).
Definition hd_block (i : nat) (data : list Z) : Z := get_le 4 (4 + 4 * i) data.

(** [memmove(dst->data, src->data, BSIZE)] *)
Definition bcopy (dst src : nat) : M kstate unit :=
  d ← buf_get src b_data;
  buf_set dst (set_b_data d).

(** One iteration of the loop of [install_trans]. *)
Definition install_block (recovering : bool) (tail : nat) : M kstate unit :=
  dev ← log_get lg_dev;
  start ← log_get lg_start;
  lbuf ← bread dev (u32 (start + Z.of_nat tail + 1));
  blk ← lh_block_get tail;
  dbuf ← bread dev blk;
  bcopy dbuf lbuf;;
  bwrite dbuf;;
  when (negb recovering) (bunpin dbuf);;
  brelse lbuf;;
  brelse dbuf.

Definition install_trans (recovering : bool) : M kstate unit :=
  n ← log_get lh_n;
  for_each (seq 0 (Z.to_nat n)) (install_block recovering).

Definition read_head : M kstate unit :=
  dev ← log_get lg_dev;
  start ← log_get lg_start;
  b ← bread dev (u32 start);
  data ← buf_get b b_data;
  log_set (set_lh_n (hd_n data));;
  for_each (seq 0 (Z.to_nat (hd_n data))) (λ i,
    data ← buf_get b b_data;
    lh_block_set i (hd_block i data));;
  brelse b.

Definition write_head : M kstate unit :=
  dev ← log_get lg_dev;
  start ← log_get lg_start;
  b ← bread dev (u32 start);
  n ← log_get lh_n;
  buf_set b (λ x, set_b_data (put_le 4 0 n x.(b_data)) x);;
  for_each (seq 0 (Z.to_nat n)) (λ i,
    v ← lh_block_get i;
    buf_set b (λ x, set_b_data (put_le 4 (4 + 4 * i) v x.(b_data)) x));;
  bwrite b;;
  brelse b.

Definition recover_from_log : M kstate unit :=
  read_head;;
  install_trans true;;
  log_set (set_lh_n 0);;
  write_head.

(** [sizeof(struct logheader)] *)
Definition logheader_size : Z := 4 + 4 * LOGSIZE.

Definition initlog (dev : Z) : M kstate unit :=
  if BSIZE <=? logheader_size then panic "initlog: too big logheader" else
  initlock L_log "log";;
  sb ← gets k_sb;
  log_set (set_lg_start (s32 sb.(sb_logstart)));;
  log_set (set_lg_size (s32 sb.(sb_nlog)));;
  log_set (set_lg_dev dev);;
  recover_from_log.

Definition begin_op : M kstate unit :=
  acquire L_log;;
  loop (S wakeups) (λ _,
    c ← log_get lg_committing;
    n ← log_get lh_n;
    o ← log_get lg_outstanding;
    if c : bool then
      sleep Ch_log L_log;; mret (inl tt)
    else if LOGSIZE <? n + (o + 1) * MAXOPBLOCKS then
      sleep Ch_log L_log;; mret (inl tt)
    else
      log_set (λ l, set_lg_outstanding (l.(lg_outstanding) + 1) l);;
      release L_log;;
      mret (inr tt)) tt.

(** One iteration of the loop of [write_log]. *)
Definition write_log_block (tail : nat) : M kstate unit :=
  dev ← log_get lg_dev;
  start ← log_get lg_start;
  to ← bread dev (u32 (start + Z.of_nat tail + 1));
  blk ← lh_block_get tail;
  from ← bread dev blk;
  bcopy to from;;
  bwrite to;;
  brelse from;;
  brelse to.

Definition write_log : M kstate unit :=
  n ← log_get lh_n;
  for_each (seq 0 (Z.to_nat n)) write_log_block.

Definition commit : M kstate unit :=
  n ← log_get lh_n;
  if 0 <? n then
    write_log;;
    write_head;;
    install_trans false;;
    log_set (set_lh_n 0);;
    write_head
  else mret tt.

Definition end_op : M kstate unit :=
  acquire L_log;;
  log_set (λ l, set_lg_outstanding (l.(lg_outstanding) - 1) l);;
  c ← log_get lg_committing;
  if c : bool then panic "log.committing" else
  o ← log_get lg_outstanding;
  do_commit ← (if o =? 0 then log_set (set_lg_committing true);; mret true
               else wakeup Ch_log;; mret false);
  release L_log;;
  if do_commit : bool then
    commit;;
    acquire L_log;;
    log_set (set_lg_committing false);;
    wakeup Ch_log;;
    release L_log
  else mret tt.

(** Where [log_write] records a block: the slot that already has it, or the
    next free one. *)
Definition log_slot (bl : list Z) (n : nat) (blockno : Z) : nat :=
  default n (fst <$> list_find (λ v, v = blockno) (take n bl)).

Definition log_write (b : nat) : M kstate unit :=
  acquire L_log;;
  n ← log_get lh_n;
  size ← log_get lg_size;
  if (LOGSIZE <=? n) || (size - 1 <=? n) then panic "too big a transaction" else
  o ← log_get lg_outstanding;
  if o <? 1 then panic "log_write outside of trans" else
  blockno ← buf_get b b_blockno;
  bl ← log_get lh_block;
  let i := log_slot bl (Z.to_nat n) blockno in
  lh_block_set i blockno;;
  when (Z.of_nat i =? n) (bpin b;; log_set (λ l, set_lh_n (l.(lh_n) + 1) l));;
  release L_log.

End Log.
