(* ===== verification/LogFacts.v ===== *)
(** * The log: theorems ([kernel/log.c])

    [commit] and [recover_from_log] are described by the blocks they store on
    the disk, in order; the crash theorem then considers every prefix of that
    sequence. *)

From S2P Require Import Prelude State Spinlock Cstring Riscv Kalloc Vm Proc ProcFacts Sleeplock.
From S2P Require Import Quiet Bio BioFacts Log.

(** ** The header block *)

(** The bytes [write_head] stores: [n], then the block numbers. *)
Definition head_words (bl : list Z) (k : nat) (d : list Z) : list Z :=
  foldl (λ d iv, put_le 4 (4 + 4 * iv.1) iv.2 d) d (zip (seq k (length bl)) bl).
Definition head_bytes (bl : list Z) (d : list Z) : list Z :=
  head_words bl 0 (put_le 4 0 (Z.of_nat (length bl)) d).

Lemma length_head_words bl k d :
  (4 + 4 * (k + length bl) ≤ length d)%nat → length (head_words bl k d) = length d.
Proof.
  revert k d. unfold head_words. induction bl as [|b bl IH]; intros k d Hl; [done|].
  cbn [length seq zip zip_with foldl fst snd] in *.
  assert (Hp : length (put_le 4 (4 + 4 * k) b d) = length d) by (apply length_put_le; lia).
  rewrite IH; [done|]. rewrite Hp. lia.
Qed.

Lemma length_head_bytes bl d :
  length d = Z.to_nat BSIZE → (length bl ≤ 30)%nat → length (head_bytes bl d) = Z.to_nat BSIZE.
Proof.
  intros Hd Hl. assert (Hz : Z.to_nat BSIZE = 1024%nat) by done. rewrite Hz in *. unfold head_bytes.
  assert (Hp : length (put_le 4 0 (Z.of_nat (length bl)) d) = length d) by (apply length_put_le; lia).
  rewrite length_head_words; rewrite ?Hp; lia.
Qed.

(** Words before and inside the part written. *)
Lemma head_words_before bl k d n off :
  (4 + 4 * (k + length bl) ≤ length d)%nat → (off + n ≤ 4 + 4 * k)%nat →
  get_le n off (head_words bl k d) = get_le n off d.
Proof.
  revert k d. unfold head_words. induction bl as [|b bl IH]; intros k d Hl Ho; [done|].
  cbn [length seq zip zip_with foldl fst snd] in *.
  assert (Hp : length (put_le 4 (4 + 4 * k) b d) = length d) by (apply length_put_le; lia).
  rewrite IH by (rewrite ?Hp; lia). apply get_le_put_other; lia.
Qed.

Lemma head_words_at bl k d t b :
  (4 + 4 * (k + length bl) ≤ length d)%nat → bl !! t = Some b → 0 ≤ b < 2 ^ 32 →
  get_le 4 (4 + 4 * (k + t)) (head_words bl k d) = b.
Proof.
  revert k d t. unfold head_words. induction bl as [|c bl IH]; intros k d t Hl Ht Hb; [done|].
  cbn [length seq zip zip_with foldl fst snd] in *.
  assert (Hp : length (put_le 4 (4 + 4 * k) c d) = length d) by (apply length_put_le; lia).
  destruct t as [|t]; cbn in Ht.
  - injection Ht as ->. fold (head_words bl (S k) (put_le 4 (4 + 4 * k) b d)).
    rewrite head_words_before by (rewrite ?Hp; lia). rewrite Nat.add_0_r.
    rewrite get_le_put_same by lia. change (8 * Z.of_nat 4) with 32. by rewrite Z.mod_small by lia.
  - replace (k + S t)%nat with (S k + t)%nat by lia. apply IH; [rewrite Hp; lia|done|done].
Qed.

(** Decoding what was written. *)
Lemma head_bytes_n bl d :
  length d = Z.to_nat BSIZE → (length bl ≤ 30)%nat → hd_n (head_bytes bl d) = Z.of_nat (length bl).
Proof.
  intros Hd Hl. assert (Hz : Z.to_nat BSIZE = 1024%nat) by done. rewrite Hz in *. unfold hd_n, head_bytes.
  assert (Hp : length (put_le 4 0 (Z.of_nat (length bl)) d) = length d) by (apply length_put_le; lia).
  rewrite head_words_before by (rewrite ?Hp; lia).
  rewrite get_le_put_same by lia. change (8 * Z.of_nat 4) with 32. apply s32_small. lia.
Qed.

Lemma head_bytes_block bl d t b :
  length d = Z.to_nat BSIZE → (length bl ≤ 30)%nat → bl !! t = Some b → 0 ≤ b < 2 ^ 32 →
  hd_block t (head_bytes bl d) = b.
Proof.
  intros Hd Hl Ht Hb. assert (Hz : Z.to_nat BSIZE = 1024%nat) by done. rewrite Hz in *.
  unfold hd_block, head_bytes.
  assert (Hp : length (put_le 4 0 (Z.of_nat (length bl)) d) = length d) by (apply length_put_le; lia).
  apply (head_words_at bl 0); [rewrite Hp; lia|done|done].
Qed.

(** ** Sequences of stores *)

(** The disk, and the contents of its blocks, after a sequence of stores. *)
Definition store_all (d : gmap Z (list Z)) (ws : list (Z * list Z)) : gmap Z (list Z) :=
  foldl (λ d x, <[x.1 := x.2]> d) d ws.
Definition over {A} (F : Z → A) (ws : list (Z * A)) : Z → A :=
  foldl (λ F x, zupd F x.1 x.2) F ws.

Lemma store_all_app d ws ws' : store_all d (ws ++ ws') = store_all (store_all d ws) ws'.
Proof. apply foldl_app. Qed.

Lemma over_app {A} (F : Z → A) ws ws' : over F (ws ++ ws') = over (over F ws) ws'.
Proof. apply foldl_app. Qed.

Lemma over_ext {A} (F G : Z → A) ws : (∀ m, F m = G m) → ∀ m, over F ws m = over G ws m.
Proof.
  revert F G. induction ws as [|[n v] ws IH]; intros F G HFG m; [apply HFG|].
  apply IH. intros k. unfold zupd. by case_decide.
Qed.

Lemma disk_block_store d ws m : disk_block (store_all d ws) m = over (disk_block d) ws m.
Proof.
  revert d. induction ws as [|[n v] ws IH]; intros d; [done|]. cbn. rewrite IH.
  apply over_ext. intros k. unfold disk_block, zupd. case_decide as Hk.
  - subst. by rewrite lookup_insert_eq.
  - by rewrite lookup_insert_ne.
Qed.

Lemma over_notin {A} (F : Z → A) ws m : m ∉ ws.*1 → over F ws m = F m.
Proof.
  revert F. induction ws as [|[n v] ws IH]; intros F Hm; [done|].
  apply not_elem_of_cons in Hm as [H1 H2]. cbn. unfold over in IH. rewrite IH by done.
  by apply zupd_ne.
Qed.

Lemma over_in {A} (F : Z → A) ws m v : NoDup ws.*1 → (m, v) ∈ ws → over F ws m = v.
Proof.
  revert F. induction ws as [|[n u] ws IH]; intros F Hnd Hm; [by apply elem_of_nil in Hm|].
  cbn in Hnd. apply NoDup_cons in Hnd as [Hn Hnd]. apply elem_of_cons in Hm as [Hm|Hm].
  - injection Hm as -> ->. cbn. pose proof (over_notin (zupd F n u) ws n Hn) as E. unfold over in E.
    rewrite E. apply zupd_eq.
  - by apply IH.
Qed.

(** The stores of [write_log] and of [install_trans], for the block numbers from
    position [k] of the header on. *)
Fixpoint log_stores (start : Z) (F : Z → list Z) (k : nat) (bl : list Z) : list (Z * list Z) :=
  match bl with
  | [] => []
  | b :: bl => (start + Z.of_nat k + 1, F b) :: log_stores start F (S k) bl
  end.

Fixpoint home_stores (start : Z) (F : Z → list Z) (k : nat) (bl : list Z) : list (Z * list Z) :=
  match bl with
  | [] => []
  | b :: bl => (b, F (start + Z.of_nat k + 1)) :: home_stores start F (S k) bl
  end.

Lemma log_stores_ext start F G k bl :
  (∀ b, b ∈ bl → F b = G b) → log_stores start F k bl = log_stores start G k bl.
Proof.
  revert k. induction bl as [|b bl IH]; intros k HFG; [done|]. simpl.
  rewrite HFG by apply list_elem_of_here. f_equal. apply IH. intros c Hc.
  by apply HFG, list_elem_of_further.
Qed.

Lemma home_stores_ext start F G k bl :
  (∀ t, (t < length bl)%nat → F (start + Z.of_nat (k + t) + 1) = G (start + Z.of_nat (k + t) + 1)) →
  home_stores start F k bl = home_stores start G k bl.
Proof.
  revert k. induction bl as [|b bl IH]; intros k HFG; [done|]. cbn [home_stores].
  pose proof (HFG 0%nat) as H0. rewrite Nat.add_0_r in H0. rewrite H0 by (simpl; lia). f_equal. apply IH.
  intros t Ht. replace (S k + t)%nat with (k + S t)%nat by lia. apply HFG. simpl. lia.
Qed.

Lemma home_stores_keys start F k bl : (home_stores start F k bl).*1 = bl.
Proof. revert k. induction bl as [|b bl IH]; intros k; [done|]. cbn. by rewrite IH. Qed.

Lemma log_stores_keys start F k bl :
  (log_stores start F k bl).*1 = (λ t, start + Z.of_nat t + 1) <$> seq k (length bl).
Proof. revert k. induction bl as [|b bl IH]; intros k; [done|]. cbn. by rewrite IH. Qed.

(** A log block holds the data of the block recorded at its position. *)
Lemma over_log_stores start F G k bl t b :
  bl !! t = Some b → over G (log_stores start F k bl) (start + Z.of_nat (k + t) + 1) = F b.
Proof.
  intros Hb. apply over_in.
  - rewrite log_stores_keys. apply NoDup_fmap_2; [|apply NoDup_seq]. intros x y Hxy. lia.
  - revert k t Hb. induction bl as [|c bl IH]; intros k t Hb; [done|]. destruct t as [|t]; cbn in Hb |- *.
    + injection Hb as ->. rewrite Nat.add_0_r. apply list_elem_of_here.
    + apply list_elem_of_further. replace (k + S t)%nat with (S k + t)%nat by lia. by apply IH.
Qed.

(** Installing from a log that holds [F]: each home block gets its data. *)
Lemma home_stores_from start F G bl :
  (∀ t b, bl !! t = Some b → G (start + Z.of_nat t + 1) = F b) →
  home_stores start G 0 bl = (λ b, (b, F b)) <$> bl.
Proof.
  intros HG. assert (Hgen : ∀ k l, (∀ t b, l !! t = Some b → G (start + Z.of_nat (k + t) + 1) = F b) →
    home_stores start G k l = (λ b, (b, F b)) <$> l).
  { intros k l. revert k. induction l as [|b l IH]; intros k Hl; [done|]. cbn.
    pose proof (Hl 0%nat b eq_refl) as H0. rewrite Nat.add_0_r in H0. rewrite H0. f_equal. apply IH.
    intros t c Hc. replace (S k + t)%nat with (k + S t)%nat by lia. by apply Hl. }
  by apply Hgen.
Qed.

Lemma over_pairs (F G : Z → list Z) bl m :
  over G ((λ b, (b, F b)) <$> bl) m = if decide (m ∈ bl) then F m else G m.
Proof.
  revert G. induction bl as [|b bl IH]; intros G; [done|]. cbn [fmap list_fmap over foldl fst snd].
  unfold over in IH. rewrite IH. unfold zupd.
  destruct (decide (m = b)) as [->|Hne].
  - rewrite (decide_True (P:=b ∈ b :: bl)) by apply list_elem_of_here. by case_decide.
  - destruct (decide (m ∈ bl)) as [Hin|Hin].
    + by rewrite decide_True by by apply list_elem_of_further.
    + rewrite decide_False; [done|]. by intros [?|?]%elem_of_cons.
Qed.

(** ** Steps of the log's clients

    [fs_at V d w L s0 s]: the process runs with no spin lock held, the cache is
    [V], the disk [d] after the stores [w], the log record [L], and everything
    else is as in [s0]. *)

Section LogFacts.
Context {HK : KernelImage} {WB : WaitBound} {BD : BlockDev} {BDok : BlockDevOk}.
Context (p : nat) (pid dev : Z).
Implicit Types (s : kstate) (V : bview) (d : gmap Z (list Z)) (w : list (Z * list Z)) (L : log).

Local Abbreviation calm := (calm p pid).
Local Abbreviation bcache := (bcache pid dev).
Local Abbreviation bframe := (bframe p).

Definition fframe (s s' : kstate) : Prop := bframe (set_k_log s'.(k_log) s) s'.

Record fs_at (V : bview) (d : gmap Z (list Z)) (w : list (Z * list Z)) (L : log)
    (s0 s : kstate) : Prop := {
  at_calm : calm [] s;
  at_cache : bcache V s;
  at_disk : s.(k_disk) = d;
  at_writes : s.(k_dwrites) = w;
  at_log : s.(k_log) = L;
  at_frame : fframe s0 s
}.

Lemma fframe_bframe s0 s s' : fframe s0 s → bframe s s' → fframe s0 s'.
Proof.
  intros F1 F2. unfold fframe in *. rewrite (bframe_get p k_log _ _ F2) by done. by etrans.
Qed.

Lemma bclear_nil : bclear [].
Proof. split; intros; apply not_elem_of_nil. Qed.

(** A step of the cache moves from one description to the next. *)
Lemma at_step V d w L s0 s V' d' w' s' :
  fs_at V d w L s0 s → calm [] s' → bcache V' s' → k_disk s' = d' → k_dwrites s' = w' →
  bframe s s' → fs_at V' d' w' L s0 s'.
Proof.
  intros [C B E1 E2 E3 F] C' B' E1' E2' F'. split; try done.
  - by rewrite (bframe_get p k_log _ _ F').
  - by eapply fframe_bframe.
Qed.

Lemma at_bread V d w L s0 s n :
  fs_at V d w L s0 s → (∀ i, V.(bv_held) !! i ≠ Some n) → room V n → V.(bv_ref) n + 1 < 2 ^ 32 →
  ∃ i s', bread dev n s = Done i s' ∧ V.(bv_held) !! i = None ∧ fs_at (v_hold i n V) d w L s0 s'.
Proof.
  intros A Hh Hr Hb. destruct (bread_calm p pid dev [] V s n) as (i & s' & E & C' & B' & Hi & X1 & X2 & F);
    [apply A|apply bclear_nil|apply A|done..|].
  exists i, s'. split; [done|]. split; [done|].
  eapply at_step; [done..|by rewrite X1; apply A|by rewrite X2; apply A|done].
Qed.

Lemma at_set V d w L s0 s i n f :
  fs_at V d w L s0 s → V.(bv_held) !! i = Some n →
  (∀ x, length x = Z.to_nat BSIZE → length (f x) = Z.to_nat BSIZE) →
  ∃ s', buf_set i (λ b, set_b_data (f b.(b_data)) b) s = Done tt s' ∧
    fs_at (v_write n (f (V.(bv_data) n)) V) d w L s0 s'.
Proof.
  intros A Hi Hf. eexists. split; [done|].
  eapply at_step; [done|..].
  - by apply calm_upd_buf, A.
  - eapply (bcache_write _ _ V s _ i); [apply A|done|apply Hf, (at_cache _ _ _ _ _ _ A)| |by kproj..].
    intros b Hb. simpl. by rewrite Hb.
  - kproj. apply A.
  - kproj. apply A.
  - apply bframe_upd_buf.
Qed.

Lemma at_bwrite V d w L s0 s i n :
  fs_at V d w L s0 s → V.(bv_held) !! i = Some n →
  ∃ s', bwrite i s = Done tt s' ∧
    fs_at V (<[n := V.(bv_data) n]> d) (w ++ [(n, V.(bv_data) n)]) L s0 s'.
Proof.
  intros A Hi. destruct (bwrite_calm p pid dev [] V s i n) as (s' & E & C' & B' & X1 & X2 & F);
    [apply A|apply bclear_nil|apply A|done|].
  exists s'. split; [done|]. eapply at_step; [done..| | |done].
  - by rewrite X1, (at_disk _ _ _ _ _ _ A).
  - by rewrite X2, (at_writes _ _ _ _ _ _ A).
Qed.

Lemma at_brelse V d w L s0 s i n :
  fs_at V d w L s0 s → V.(bv_held) !! i = Some n →
  (V.(bv_ref) n = 1 → V.(bv_data) n = disk_block d n) →
  ∃ s', brelse i s = Done tt s' ∧ fs_at (v_drop i n V) d w L s0 s'.
Proof.
  intros A Hi Hc. destruct (brelse_calm p pid dev [] V s i n) as (s' & E & C' & B' & X1 & X2 & F);
    [apply A|apply bclear_nil|apply A|done|by rewrite (at_disk _ _ _ _ _ _ A)|].
  exists s'. split; [done|].
  eapply at_step; [done..|by rewrite X1; apply A|by rewrite X2; apply A|done].
Qed.

Lemma at_bunpin V d w L s0 s i n :
  fs_at V d w L s0 s → V.(bv_held) !! i = Some n → 1 < V.(bv_ref) n →
  ∃ s', bunpin i s = Done tt s' ∧ fs_at (v_ref n (V.(bv_ref) n - 1) V) d w L s0 s'.
Proof.
  intros A Hi Hr. destruct (bunpin_calm p pid dev [] V s i n) as (s' & E & C' & B' & X1 & X2 & F);
    [apply A|apply bclear_nil|apply A|done..|].
  exists s'. split; [done|].
  eapply at_step; [done..|by rewrite X1; apply A|by rewrite X2; apply A|done].
Qed.

(** [bcopy] between two locked buffers *)
Lemma at_bcopy V d w L s0 s i n j m :
  fs_at V d w L s0 s → V.(bv_held) !! i = Some n → V.(bv_held) !! j = Some m →
  ∃ s', bcopy i j s = Done tt s' ∧ fs_at (v_write n (V.(bv_data) m) V) d w L s0 s'.
Proof.
  intros A Hi Hj. unfold bcopy, mbind, M_bind.
  rewrite (held_data _ _ V s j m (at_cache _ _ _ _ _ _ A) Hj). cbn [obind].
  apply (at_set V d w L s0 s i n (λ _, V.(bv_data) m)); [done|done|].
  intros _ _. apply (at_cache _ _ _ _ _ _ A).
Qed.

(** Only the values of the functions of a view matter. *)
Lemma at_view V V' d w L s0 s :
  fs_at V d w L s0 s → (∀ n, V'.(bv_data) n = V.(bv_data) n) → (∀ n, V'.(bv_ref) n = V.(bv_ref) n) →
  V'.(bv_held) = V.(bv_held) → V'.(bv_lru) = V.(bv_lru) → fs_at V' d w L s0 s.
Proof.
  intros [C [H1 H2 H3 H4 H5 H6 H7 H8 H9 H10 H11 H12 H13] E1 E2 E3 F] X1 X2 X3 X4.
  split; try done. split; rewrite ?X3, ?X4; try done.
  - intros i b Hi Hb. rewrite (H6 i b Hi Hb). by rewrite X2.
  - intros i b Hi Hb Hd Hv. rewrite X1. by apply (H7 i b).
  - intros i n. rewrite X2. apply H9.
  - intros n. rewrite X2. apply H10.
  - intros n. rewrite X2. apply H11.
  - intros n. rewrite X1, X2. apply H12.
  - intros n. rewrite X1. apply H13.
Qed.

(** Between operations no buffer is locked. *)
Definition fs_idle (F : Z → list Z) (R : Z → Z) (d : gmap Z (list Z)) (w : list (Z * list Z))
    (L : log) (s0 s : kstate) : Prop :=
  ∃ lru, fs_at (mk_bview F R ∅ lru) d w L s0 s.

(** The blocks with a reference fit in all but one of the buffers. *)
Definition few (R : Z → Z) : Prop :=
  ∃ l : list Z, (∀ m, 0 < R m → m ∈ l) ∧ (length l < NBUF)%nat.

(** A locked buffer keeps its block when another one is taken or changed. *)
Lemma hold_other V i n j m : V.(bv_held) !! j = None → V.(bv_held) !! i = Some n →
  (v_hold j m V).(bv_held) !! i = Some n.
Proof. intros Hj Hi. cbn [v_hold bv_held]. rewrite lookup_insert_ne; [done|]. congruence. Qed.

(** Log accesses do not touch the cache. *)
Lemma at_log_get V d w L s0 s {A} (f : log → A) :
  fs_at V d w L s0 s → log_get f s = Done (f L) s.
Proof. intros A0. mred. by rewrite (at_log _ _ _ _ _ _ A0). Qed.

Lemma at_lh_block V d w L s0 s t b :
  fs_at V d w L s0 s → L.(lh_block) !! t = Some b → lh_block_get t s = Done b s.
Proof.
  intros A Hb. unfold lh_block_get, mbind, M_bind. rewrite (at_log_get _ _ _ _ _ _ _ A). cbn [obind].
  by rewrite Hb.
Qed.

Lemma write_log_step F R d w L s0 s t start a b :
  fs_idle F R d w L s0 s → L.(lg_dev) = dev → L.(lg_start) = start →
  u32 (start + Z.of_nat t + 1) = a → L.(lh_block) !! t = Some b →
  a ≠ b → R a = 0 → R b = 1 → few R →
  ∃ s', write_log_block t s = Done tt s' ∧
    fs_idle (zupd F a (F b)) R (<[a := F b]> d) (w ++ [(a, F b)]) L s0 s'.
Proof.
  intros [lru A0] Ldev Lst Ha Hb Hab Ra Rb Hfew. unfold write_log_block, mbind, M_bind.
  rewrite (at_log_get _ _ _ _ _ _ _ A0). cbn [obind]. rewrite (at_log_get _ _ _ _ _ _ _ A0). cbn [obind].
  rewrite Ldev, Lst, Ha.
  destruct (at_bread _ _ _ _ _ _ a A0) as (i1 & s1 & E1 & Hi1 & A1); [done|by right|cbn; lia|].
  rewrite E1. cbn [obind]. rewrite (at_lh_block _ _ _ _ _ _ _ _ A1 Hb). cbn [obind].
  destruct (at_bread _ _ _ _ _ _ b A1) as (i2 & s2 & E2 & Hi2 & A2).
  { intros i. cbn. rewrite lookup_insert_Some. intros [[_ ?]|[_ ?]]; done. }
  { left. cbn. rewrite zupd_ne by done. lia. }
  { cbn. rewrite zupd_ne by done. lia. }
  assert (Hne : i2 ≠ i1) by (intros ->; cbn in Hi2; by rewrite lookup_insert_eq in Hi2).
  assert (H1 : (v_hold i2 b (v_hold i1 a (mk_bview F R ∅ lru))).(bv_held) !! i1 = Some a).
  { apply hold_other; [done|]. cbn. apply lookup_insert_eq. }
  assert (H2 : (v_hold i2 b (v_hold i1 a (mk_bview F R ∅ lru))).(bv_held) !! i2 = Some b) by apply lookup_insert_eq.
  rewrite E2. cbn [obind].
  destruct (at_bcopy _ _ _ _ _ _ i1 a i2 b A2 H1 H2) as (s3 & E3 & A3). rewrite E3. cbn [obind].
  destruct (at_bwrite _ _ _ _ _ _ i1 a A3 H1) as (s4 & E4 & A4). rewrite E4. cbn [obind].
  cbn [v_write v_hold bv_data] in A4. rewrite zupd_eq in A4.
  destruct (at_brelse _ _ _ _ _ _ i2 b A4 H2) as (s5 & E5 & A5).
  { cbn. rewrite zupd_eq, zupd_ne by done. lia. }
  rewrite E5. cbn [obind].
  destruct (at_brelse _ _ _ _ _ _ i1 a A5) as (s6 & E6 & A6).
  { cbn. by rewrite lookup_delete_ne. }
  { intros _. cbn. rewrite zupd_eq. unfold disk_block. by rewrite lookup_insert_eq. }
  exists s6. split; [done|]. eexists. eapply at_view; [exact A6|done| | |reflexivity].
  - intros n. cbn. unfold zupd. repeat case_decide; subst; lia || congruence.
  - cbn. rewrite delete_insert_id, delete_insert_id; [done|done|]. by rewrite lookup_insert_ne.
Qed.

Lemma install_step rec F R d w L s0 s t start a b :
  fs_idle F R d w L s0 s → L.(lg_dev) = dev → L.(lg_start) = start →
  u32 (start + Z.of_nat t + 1) = a → L.(lh_block) !! t = Some b →
  a ≠ b → R a = 0 → few R → (if rec : bool then R b = 0 ∧ few (zupd R a 1) else R b = 1) →
  ∃ s', install_block rec t s = Done tt s' ∧
    fs_idle (zupd F b (F a)) (zupd R b 0) (<[b := F a]> d) (w ++ [(b, F a)]) L s0 s'.
Proof.
  intros [lru A0] Ldev Lst Ha Hb Hab Ra Hfew Hrec. unfold install_block, mbind, M_bind.
  rewrite (at_log_get _ _ _ _ _ _ _ A0). cbn [obind]. rewrite (at_log_get _ _ _ _ _ _ _ A0). cbn [obind].
  rewrite Ldev, Lst, Ha.
  destruct (at_bread _ _ _ _ _ _ a A0) as (i1 & s1 & E1 & Hi1 & A1); [done|by right|cbn; lia|].
  rewrite E1. cbn [obind]. rewrite (at_lh_block _ _ _ _ _ _ _ _ A1 Hb). cbn [obind].
  pose proof (bc_clean _ _ _ _ (at_cache _ _ _ _ _ _ A0) a) as Hclean. cbn in Hclean.
  rewrite (at_disk _ _ _ _ _ _ A0) in Hclean. specialize (Hclean Ra).
  destruct (at_bread _ _ _ _ _ _ b A1) as (i2 & s2 & E2 & Hi2 & A2).
  { intros i. cbn. rewrite lookup_insert_Some. intros [[_ ?]|[_ ?]]; done. }
  { destruct rec; [right|left; cbn; rewrite zupd_ne by done; lia]. destruct Hrec as [_ (l & Hl & Hlen)].
    exists l. split; [|done]. intros m. cbn. rewrite Ra. apply Hl. }
  { cbn. rewrite zupd_ne by done. destruct rec; [destruct Hrec|]; lia. }
  assert (Hne : i2 ≠ i1) by (intros ->; cbn in Hi2; by rewrite lookup_insert_eq in Hi2).
  set (V2 := v_hold i2 b (v_hold i1 a (mk_bview F R ∅ lru))) in *.
  assert (H1 : V2.(bv_held) !! i1 = Some a) by (apply hold_other; [done|]; apply lookup_insert_eq).
  assert (H2 : V2.(bv_held) !! i2 = Some b) by apply lookup_insert_eq.
  assert (Rb2 : V2.(bv_ref) b = if rec then 1 else 2).
  { cbn. rewrite zupd_eq, zupd_ne by done. destruct rec; [destruct Hrec as [-> _]|rewrite Hrec]; done. }
  rewrite E2. cbn [obind].
  destruct (at_bcopy _ _ _ _ _ _ i2 b i1 a A2 H2 H1) as (s3 & E3 & A3). rewrite E3. cbn [obind].
  destruct (at_bwrite _ _ _ _ _ _ i2 b A3 H2) as (s4 & E4 & A4). rewrite E4. cbn [obind].
  cbn [v_write bv_data] in A4. rewrite zupd_eq in A4.
  assert (Hun : ∃ s5, when (negb rec) (bunpin i2) s4 = Done tt s5 ∧
    fs_at (v_ref b 1 (v_write b (bv_data V2 a) V2)) (<[b := bv_data V2 a]> d)
      (w ++ [(b, bv_data V2 a)]) L s0 s5).
  { destruct rec; cbn [negb when].
    - exists s4. split; [done|]. eapply at_view; [exact A4|done| |done..].
      intros n. cbn [v_ref v_write bv_ref]. unfold zupd at 1. case_decide; [by subst|done].
    - destruct (at_bunpin _ _ _ _ _ _ i2 b A4 H2) as (s5 & E5 & A5); [cbn [v_write bv_ref]; lia|].
      exists s5. split; [done|]. cbn [v_write bv_ref] in A5. by rewrite Rb2 in A5. }
  destruct Hun as (s5 & E5 & A5). rewrite E5. cbn [obind].
  destruct (at_brelse _ _ _ _ _ _ i1 a A5 H1) as (s6 & E6 & A6).
  { intros _. cbn. rewrite zupd_ne by done. unfold disk_block. rewrite lookup_insert_ne by done. done. }
  rewrite E6. cbn [obind].
  destruct (at_brelse _ _ _ _ _ _ i2 b A6) as (s7 & E7 & A7).
  { cbn. by rewrite lookup_delete_ne. }
  { intros _. cbn. rewrite zupd_eq. unfold disk_block. by rewrite lookup_insert_eq. }
  exists s7. split; [done|]. eexists. eapply at_view; [exact A7|done| | |reflexivity].
  - intros n. cbn. unfold zupd. repeat case_decide; subst; lia || congruence.
  - cbn. rewrite delete_insert_ne by done. rewrite (delete_insert_id ∅) by done.
    by rewrite delete_insert_id.
Qed.

Lemma fframe_log s0 s l : fframe s0 s → fframe s0 (set_k_log l s).
Proof.
  intros [[D P] I]. split; [|exact I]. split; [|by revert P; kproj]. unfold same_data in *. rewrite D. keq.
Qed.

Lemma at_log_set V d w L s0 s f :
  fs_at V d w L s0 s → ∃ s', log_set f s = Done tt s' ∧ fs_at V d w (f L) s0 s'.
Proof.
  intros [C B E1 E2 E3 F]. eexists. split; [done|]. split; kproj; try done.
  - by eapply calm_upd.
  - by eapply bcache_ext.
  - by rewrite E3.
  - by apply fframe_log.
Qed.

(** ** The loops *)

Context (start : Z).
Context (Hstart : 0 ≤ start < 2 ^ 31).

(** The log occupies [size] blocks from [start] on: the header, and at most
    [LOGSIZE] blocks of data. *)
Context (size : Z).
Context (Hsize : 1 ≤ size ≤ LOGSIZE + 1).
Definition in_log (m : Z) : Prop := start ≤ m < start + size.
Definition fits (n : nat) : Prop := Z.of_nat n < size.

Lemma fits_30 n : fits n → (n ≤ 30)%nat.
Proof. clear Hstart. unfold fits, LOGSIZE, MAXOPBLOCKS in *. lia. Qed.

(** The log record lists the blocks [bl] from position [k] on. *)
Record log_lists (L : log) (k : nat) (bl : list Z) : Prop := {
  ll_dev : L.(lg_dev) = dev;
  ll_start : L.(lg_start) = start;
  ll_block t b : bl !! t = Some b → L.(lh_block) !! (k + t)%nat = Some b;
  ll_len : fits (k + length bl);
  ll_home b : b ∈ bl → ¬ in_log b
}.

Lemma log_lists_tail L k b bl : log_lists L k (b :: bl) → log_lists L (S k) bl.
Proof.
  intros [H1 H2 H3 H4 H5]. split; try done.
  - intros t c Hc. replace (S k + t)%nat with (k + S t)%nat by lia. by apply H3.
  - unfold fits in *. simpl in H4. lia.
  - intros c Hc. by apply H5, list_elem_of_further.
Qed.

Lemma log_block_u32 L k b bl :
  log_lists L k (b :: bl) →
  u32 (start + Z.of_nat k + 1) = start + Z.of_nat k + 1 ∧ in_log (start + Z.of_nat k + 1).
Proof.
  intros H. pose proof (ll_len _ _ _ H) as Hl. simpl in Hl. unfold u32, in_log, fits, LOGSIZE, MAXOPBLOCKS in *.
  split; [|lia]. apply Z.mod_small. lia.
Qed.

Lemma write_log_loop F R d w L s0 s k bl :
  fs_idle F R d w L s0 s → log_lists L k bl → few R → (∀ m, in_log m → R m = 0) →
  (∀ b, b ∈ bl → R b = 1) →
  ∃ s', for_each (seq k (length bl)) write_log_block s = Done tt s' ∧
    fs_idle (over F (log_stores start F k bl)) R (store_all d (log_stores start F k bl))
      (w ++ log_stores start F k bl) L s0 s'.
Proof.
  revert F d w s k. induction bl as [|b bl IH]; intros F d w s k A HL Hfew Rlog Rbl.
  { exists s. split; [done|]. cbn. by rewrite app_nil_r. }
  destruct (log_block_u32 _ _ _ _ HL) as [Hu Hin].
  pose proof (ll_block _ _ _ HL 0%nat b eq_refl) as Hb. rewrite Nat.add_0_r in Hb.
  assert (Hnb : ¬ in_log b) by apply (ll_home _ _ _ HL), list_elem_of_here.
  destruct (write_log_step F R d w L s0 s k start (start + Z.of_nat k + 1) b A)
    as (s1 & E1 & A1); try done; try apply HL.
  { intros <-. done. }
  { by apply Rlog. }
  { apply Rbl, list_elem_of_here. }
  destruct (IH _ _ _ s1 (S k) A1) as (s2 & E2 & A2); [by eapply log_lists_tail|done|done| |].
  { intros c Hc. by apply Rbl, list_elem_of_further. }
  exists s2. cbn [length seq for_each]. split; [by mred; rewrite E1; cbn [obind]|].
  rewrite <-app_assoc in A2.
  rewrite (log_stores_ext start _ F) in A2; [done|].
  intros c Hc. apply zupd_ne. intros ->. apply (ll_home _ _ _ HL (start + Z.of_nat k + 1)); [|done].
  by apply list_elem_of_further.
Qed.

Lemma install_loop rec F R d w L s0 s k bl :
  fs_idle F R d w L s0 s → log_lists L k bl → few R → (∀ m, in_log m → R m = 0) → NoDup bl →
  (if rec : bool then (∀ m, R m = 0) else ∀ b, b ∈ bl → R b = 1) →
  ∃ s', for_each (seq k (length bl)) (install_block rec) s = Done tt s' ∧
    fs_idle (over F (home_stores start F k bl)) (over R ((λ b, (b, 0)) <$> bl))
      (store_all d (home_stores start F k bl)) (w ++ home_stores start F k bl) L s0 s'.
Proof.
  revert F R d w s k. induction bl as [|b bl IH]; intros F R d w s k A HL Hfew Rlog Hnd Hrec.
  { exists s. split; [done|]. cbn. by rewrite app_nil_r. }
  apply NoDup_cons in Hnd as [Hnb Hnd]. destruct (log_block_u32 _ _ _ _ HL) as [Hu Hin].
  pose proof (ll_block _ _ _ HL 0%nat b eq_refl) as Hb. rewrite Nat.add_0_r in Hb.
  assert (Hhb : ¬ in_log b) by apply (ll_home _ _ _ HL), list_elem_of_here.
  assert (Hrb : if rec then R b = 0 ∧ few (zupd R (start + Z.of_nat k + 1) 1) else R b = 1).
  { destruct rec; [|apply Hrec, list_elem_of_here]. split; [done|].
    exists [start + Z.of_nat k + 1]. split; [|unfold NBUF; simpl; lia]. intros m. unfold zupd.
    case_decide; [subst; intros; apply list_elem_of_here|]. rewrite Hrec. lia. }
  destruct (install_step rec F R d w L s0 s k start (start + Z.of_nat k + 1) b A)
    as (s1 & E1 & A1); try done; try apply HL.
  { intros <-. done. }
  { by apply Rlog. }
  destruct (IH _ _ _ _ s1 (S k) A1) as (s2 & E2 & A2); [by eapply log_lists_tail|..|done| |].
  { destruct Hfew as (l & Hl & Hlen). exists l. split; [|done]. intros m. unfold zupd.
    case_decide; [lia|apply Hl]. }
  { intros m Hm. unfold zupd. case_decide; [done|by apply Rlog]. }
  { destruct rec.
    - intros m. unfold zupd. by case_decide.
    - intros c Hc. rewrite zupd_ne by (intros ->; done). by apply Hrec, list_elem_of_further. }
  exists s2. cbn [length seq for_each]. split; [by mred; rewrite E1; cbn [obind]|].
  rewrite <-app_assoc in A2. rewrite (home_stores_ext start _ F) in A2; [done|].
  intros t Ht. apply zupd_ne. intros E. apply Hhb. rewrite <-E. unfold in_log, fits, LOGSIZE, MAXOPBLOCKS in *.
  pose proof (ll_len _ _ _ HL) as Hl. unfold fits in Hl. simpl in Hl. lia.
Qed.

(** ** The header *)

Lemma BSIZE_nat : Z.to_nat BSIZE = 1024%nat.
Proof. done. Qed.

Lemma at_write_twice V d w L s0 s n x y :
  fs_at (v_write n y (v_write n x V)) d w L s0 s → fs_at (v_write n y V) d w L s0 s.
Proof.
  intros A. eapply at_view; [exact A|..|done|done]; [|done].
  intros m. cbn. unfold zupd. by repeat case_decide.
Qed.

Lemma head_loop V d w L s0 s i k bl :
  fs_at V d w L s0 s → log_lists L k bl → V.(bv_held) !! i = Some start →
  ∃ s', for_each (seq k (length bl)) (λ t, v ← lh_block_get t;
      buf_set i (λ x, set_b_data (put_le 4 (4 + 4 * t) v x.(b_data)) x)) s = Done tt s' ∧
    fs_at (v_write start (head_words bl k (V.(bv_data) start)) V) d w L s0 s'.
Proof.
  revert V s k. induction bl as [|b bl IH]; intros V s k A HL Hi.
  { exists s. split; [done|]. eapply at_view; [exact A|..|done|done]; [|done].
    intros m. cbn. unfold zupd. case_decide; [by subst|done]. }
  pose proof (ll_block _ _ _ HL 0%nat b eq_refl) as Hb. rewrite Nat.add_0_r in Hb.
  destruct (at_set V d w L s0 s i start (put_le 4 (4 + 4 * k) b) A Hi) as (s1 & E1 & A1).
  { intros x Hx. rewrite length_put_le; [done|]. pose proof (fits_30 _ (ll_len _ _ _ HL)) as Hl. simpl in Hl.
    rewrite Hx, BSIZE_nat. lia. }
  destruct (IH _ s1 (S k) A1) as (s2 & E2 & A2); [by eapply log_lists_tail|done|].
  exists s2. split.
  - cbn [length seq for_each]. unfold mbind, M_bind. rewrite (at_lh_block _ _ _ _ _ _ _ _ A Hb).
    cbn [obind]. unfold mbind, M_bind in E2. rewrite E1. cbn [obind]. exact E2.
  - cbn [v_write bv_data] in A2. rewrite zupd_eq in A2. by apply at_write_twice in A2.
Qed.

Lemma write_head_idle F R d w L s0 s bl :
  fs_idle F R d w L s0 s → log_lists L 0 bl → L.(lh_n) = Z.of_nat (length bl) → few R → R start = 0 →
  ∃ s', write_head s = Done tt s' ∧
    fs_idle (zupd F start (head_bytes bl (F start))) R (<[start := head_bytes bl (F start)]> d)
      (w ++ [(start, head_bytes bl (F start))]) L s0 s'.
Proof.
  intros [lru A0] HL Hn Hfew R0. unfold write_head, mbind, M_bind.
  rewrite (at_log_get _ _ _ _ _ _ _ A0). cbn [obind]. rewrite (at_log_get _ _ _ _ _ _ _ A0). cbn [obind].
  rewrite (ll_dev _ _ _ HL), (ll_start _ _ _ HL). replace (u32 start) with start
    by (unfold u32; rewrite Z.mod_small; lia).
  destruct (at_bread _ _ _ _ _ _ start A0) as (i & s1 & E1 & Hi & A1); [done|by right|cbn; lia|].
  rewrite E1. cbn [obind]. rewrite (at_log_get _ _ _ _ _ _ _ A1). cbn [obind]. rewrite Hn, Nat2Z.id.
  assert (H1 : (v_hold i start (mk_bview F R ∅ lru)).(bv_held) !! i = Some start) by apply lookup_insert_eq.
  destruct (at_set _ _ _ _ _ _ i start (put_le 4 0 (Z.of_nat (length bl))) A1 H1) as (s2 & E2 & A2).
  { intros x Hx. rewrite length_put_le; [done|]. rewrite Hx, BSIZE_nat. lia. }
  rewrite E2. cbn [obind].
  destruct (head_loop _ _ _ _ _ _ i 0 bl A2 HL H1) as (s3 & E3 & A3).
  unfold mbind, M_bind in E3. rewrite E3. cbn [obind].
  cbn [v_write v_hold bv_data] in A3. rewrite zupd_eq in A3. apply at_write_twice in A3.
  fold (head_bytes bl (F start)) in A3.
  destruct (at_bwrite _ _ _ _ _ _ i start A3 H1) as (s4 & E4 & A4). rewrite E4. cbn [obind].
  cbn [v_write bv_data] in A4. rewrite zupd_eq in A4.
  destruct (at_brelse _ _ _ _ _ _ i start A4 H1) as (s5 & E5 & A5).
  { intros _. cbn. rewrite zupd_eq. unfold disk_block. by rewrite lookup_insert_eq. }
  exists s5. split; [done|]. eexists. eapply at_view; [exact A5|done| | |reflexivity].
  - intros m. cbn. unfold zupd. repeat case_decide; subst; lia || congruence.
  - cbn. by rewrite delete_insert_id.
Qed.

(** The log record after [read_head] of a header block. *)
Definition read_log (h : list Z) (n : nat) (L : log) : log :=
  foldl (λ L t, set_lh_block (<[t := hd_block t h]> L.(lh_block)) L) (set_lh_n (hd_n h) L) (seq 0 n).

Lemma read_loop V d w L s0 s i k (m : nat) :
  fs_at V d w L s0 s → V.(bv_held) !! i = Some start → (k + m ≤ 30)%nat →
  ∃ s', for_each (seq k m) (λ t, data ← buf_get i b_data; lh_block_set t (hd_block t data)) s = Done tt s' ∧
    fs_at V d w (foldl (λ L t, set_lh_block (<[t := hd_block t (V.(bv_data) start)]> L.(lh_block)) L) L (seq k m)) s0 s'.
Proof.
  revert L s k. induction m as [|m IH]; intros L s k A Hi Hk; [by exists s|].
  destruct (at_log_set V d w L s0 s (λ l, set_lh_block (<[k := hd_block k (V.(bv_data) start)]> l.(lh_block)) l) A)
    as (s1 & E1 & A1).
  destruct (IH _ s1 (S k) A1 Hi) as (s2 & E2 & A2); [lia|].
  exists s2. split; [|done]. cbn [seq for_each]. unfold mbind, M_bind.
  rewrite (held_data _ _ V s i start (at_cache _ _ _ _ _ _ A) Hi). cbn [obind]. unfold lh_block_set at 1.
  rewrite decide_True by (unfold LOGSIZE, MAXOPBLOCKS; lia). rewrite E1. cbn [obind].
  unfold mbind, M_bind in E2. exact E2.
Qed.

Lemma read_head_idle F R d w L s0 s :
  fs_idle F R d w L s0 s → L.(lg_dev) = dev → L.(lg_start) = start → few R → R start = 0 →
  hd_n (F start) ≤ LOGSIZE →
  ∃ s', read_head s = Done tt s' ∧
    fs_idle F R d w (read_log (F start) (Z.to_nat (hd_n (F start))) L) s0 s'.
Proof.
  intros [lru A0] Ldev Lst Hfew R0 Hn. unfold read_head, mbind, M_bind.
  rewrite (at_log_get _ _ _ _ _ _ _ A0). cbn [obind]. rewrite (at_log_get _ _ _ _ _ _ _ A0). cbn [obind].
  rewrite Ldev, Lst. replace (u32 start) with start by (unfold u32; rewrite Z.mod_small; lia).
  pose proof (bc_clean _ _ _ _ (at_cache _ _ _ _ _ _ A0) start R0) as Hclean. cbn in Hclean.
  rewrite (at_disk _ _ _ _ _ _ A0) in Hclean.
  destruct (at_bread _ _ _ _ _ _ start A0) as (i & s1 & E1 & Hi & A1); [done|by right|cbn; lia|].
  rewrite E1. cbn [obind].
  assert (H1 : (v_hold i start (mk_bview F R ∅ lru)).(bv_held) !! i = Some start) by apply lookup_insert_eq.
  rewrite (held_data _ _ _ s1 i start (at_cache _ _ _ _ _ _ A1) H1). cbn [obind v_hold bv_data].
  destruct (at_log_set _ _ _ _ _ _ (set_lh_n (hd_n (F start))) A1) as (s2 & E2 & A2). rewrite E2. cbn [obind].
  destruct (read_loop _ _ _ _ _ _ i 0 (Z.to_nat (hd_n (F start))) A2 H1) as (s3 & E3 & A3).
  { unfold LOGSIZE, MAXOPBLOCKS in Hn. lia. }
  unfold mbind, M_bind in E3. rewrite E3. cbn [obind].
  destruct (at_brelse _ _ _ _ _ _ i start A3 H1) as (s4 & E4 & A4); [by intros _; cbn|].
  exists s4. split; [done|]. eexists. eapply at_view; [exact A4|done| | |reflexivity].
  - intros m. cbn. unfold zupd. repeat case_decide; subst; lia || congruence.
  - cbn. by rewrite delete_insert_id.
Qed.

(** ** [commit] *)

Lemma idle_view F R F' R' d w L s0 s :
  fs_idle F R d w L s0 s → (∀ m, F' m = F m) → (∀ m, R' m = R m) → fs_idle F' R' d w L s0 s.
Proof. intros [lru A] HF HR. exists lru. by eapply at_view. Qed.

(** With no references left the cache agrees with the disk. *)
Lemma idle_clean F R d w L s0 s :
  fs_idle F R d w L s0 s → (∀ m, R m = 0) → fs_idle (disk_block d) (λ _, 0) d w L s0 s.
Proof.
  intros [lru A] HR. exists lru. eapply at_view; [exact A|..|done|done]; cbn; [|done].
  intros m. symmetry. rewrite <-(at_disk _ _ _ _ _ _ A).
  apply (bc_clean _ _ _ _ (at_cache _ _ _ _ _ _ A)). apply HR.
Qed.

Lemma idle_log_set F R d w L s0 s f :
  fs_idle F R d w L s0 s → ∃ s', log_set f s = Done tt s' ∧ fs_idle F R d w (f L) s0 s'.
Proof.
  intros [lru A]. destruct (at_log_set _ _ _ _ _ _ f A) as (s' & E & A'). exists s'. split; [done|]. by exists lru.
Qed.

Lemma idle_log_get F R d w L s0 s {A} (f : log → A) :
  fs_idle F R d w L s0 s → log_get f s = Done (f L) s.
Proof. intros [lru A0]. by eapply at_log_get. Qed.

(** One reference to each logged block, the pin of [log_write]. *)
Definition pinned (bl : list Z) (m : Z) : Z := if decide (m ∈ bl) then 1 else 0.

Lemma start_in_log : in_log start.
Proof. unfold in_log, fits, LOGSIZE, MAXOPBLOCKS in *. lia. Qed.

Lemma few_zero (R : Z → Z) : (∀ m, R m = 0) → few R.
Proof.
  intros HR. exists []. split; [intros m; rewrite HR; lia|]. unfold NBUF. simpl. lia.
Qed.

Lemma log_lists_nil L : L.(lg_dev) = dev → L.(lg_start) = start → log_lists L 0 [].
Proof.
  intros H1 H2. split; try done; [unfold fits; simpl; lia|]. intros b Hb. by apply elem_of_nil in Hb.
Qed.

(** What [commit] stores, in order: the log, the header, the blocks themselves,
    and an empty header. *)
Definition commit_stores (F : Z → list Z) (bl : list Z) : list (Z * list Z) :=
  log_stores start F 0 bl ++ [(start, head_bytes bl (F start))] ++
  ((λ b, (b, F b)) <$> bl) ++ [(start, head_bytes [] (head_bytes bl (F start)))].

Lemma log_keys_not_start F bl : start ∉ (log_stores start F 0 bl).*1.
Proof.
  rewrite log_stores_keys. intros (t & E & _)%list_elem_of_fmap. lia.
Qed.

Lemma commit_idle F d w L s0 s bl :
  fs_idle F (pinned bl) d w L s0 s → log_lists L 0 bl → L.(lh_n) = Z.of_nat (length bl) →
  bl ≠ [] → NoDup bl → (length bl < NBUF)%nat →
  ∃ s', commit s = Done tt s' ∧
    fs_idle (disk_block (store_all d (commit_stores F bl))) (λ _, 0) (store_all d (commit_stores F bl))
      (w ++ commit_stores F bl) (set_lh_n 0 L) s0 s'.
Proof.
  intros A HL Hn Hne Hnd Hlen. unfold commit, mbind, M_bind.
  rewrite (idle_log_get _ _ _ _ _ _ _ _ A), Hn. cbn [obind].
  rewrite (proj2 (Z.ltb_lt 0 (Z.of_nat (length bl)))) by (destruct bl; [done|simpl; lia]).
  assert (Hfew : few (pinned bl)).
  { exists bl. split; [|done]. intros m. unfold pinned. case_decide; [done|lia]. }
  assert (Rlog : ∀ m, in_log m → pinned bl m = 0).
  { intros m Hm. unfold pinned. case_decide as Hb; [|done]. by destruct (ll_home _ _ _ HL m Hb). }
  assert (Rbl : ∀ b, b ∈ bl → pinned bl b = 1) by (intros b Hb; unfold pinned; by rewrite decide_True).
  destruct (write_log_loop F (pinned bl) d w L s0 s 0 bl A HL Hfew Rlog Rbl) as (s1 & E1 & A1).
  assert (EW : write_log s = Done tt s1).
  { unfold write_log, mbind, M_bind. rewrite (idle_log_get _ _ _ _ _ _ _ _ A), Hn. cbn [obind].
    by rewrite Nat2Z.id. }
  rewrite EW. cbn [obind].
  destruct (write_head_idle _ _ _ _ _ _ _ bl A1 HL Hn Hfew (Rlog _ start_in_log)) as (s2 & E2 & A2).
  rewrite E2. cbn [obind]. rewrite (over_notin F _ start (log_keys_not_start F bl)) in A2.
  destruct (install_loop false _ _ _ _ _ _ _ 0 bl A2 HL Hfew Rlog Hnd Rbl) as (s3 & E3 & A3).
  rewrite (home_stores_from start F) in A3.
  2:{ intros t b Hb. rewrite zupd_ne by lia. by apply (over_log_stores start F F 0 bl t b). }
  assert (EI : install_trans false s2 = Done tt s3).
  { unfold install_trans, mbind, M_bind. rewrite (idle_log_get _ _ _ _ _ _ _ _ A2), Hn. cbn [obind].
    by rewrite Nat2Z.id. }
  rewrite EI. cbn [obind].
  destruct (idle_log_set _ _ _ _ _ _ _ (set_lh_n 0) A3) as (s4 & E4 & A4). rewrite E4. cbn [obind].
  assert (HR : ∀ m, over (pinned bl) ((λ b, (b, 0)) <$> bl) m = 0).
  { intros m. destruct (decide (m ∈ bl)) as [Hm|Hm].
    - apply over_in; [|by apply list_elem_of_fmap; exists m].
      rewrite <-list_fmap_compose, list_fmap_id. done.
    - rewrite over_notin; [unfold pinned; by rewrite decide_False|].
      by rewrite <-list_fmap_compose, list_fmap_id. }
  destruct (write_head_idle _ _ _ _ _ _ _ [] A4) as (s5 & E5 & A5);
    [apply log_lists_nil; apply HL|done|by apply few_zero|apply HR|].
  exists s5. split; [done|]. apply (idle_clean _ _ _ _ _ _ _) in A5; [|exact HR].
  rewrite over_pairs in A5. rewrite decide_False in A5
    by (intros Hs; apply (ll_home _ _ _ HL start Hs), start_in_log).
  rewrite zupd_eq in A5. unfold commit_stores.
  rewrite !store_all_app, !app_assoc. rewrite <-!app_assoc. cbn in A5 |- *.
  rewrite <-!app_assoc in A5. exact A5.
Qed.

(** ** Recovery *)

(** The header block [h] lists the blocks [bl]. *)
Record header (h : list Z) (bl : list Z) : Prop := {
  hdr_n : hd_n h = Z.of_nat (length bl);
  hdr_block t b : bl !! t = Some b → hd_block t h = b;
  hdr_len : fits (length bl);
  hdr_home b : b ∈ bl → ¬ in_log b;
  hdr_nodup : NoDup bl
}.

Lemma read_log_fields h n L :
  lg_dev (read_log h n L) = lg_dev L ∧ lg_start (read_log h n L) = lg_start L ∧
  lh_n (read_log h n L) = hd_n h.
Proof.
  unfold read_log. generalize (seq 0 n). intros ts.
  assert (H : ∀ L0, lg_dev (foldl (λ L t, set_lh_block (<[t := hd_block t h]> L.(lh_block)) L) L0 ts) = lg_dev L0 ∧
    lg_start (foldl (λ L t, set_lh_block (<[t := hd_block t h]> L.(lh_block)) L) L0 ts) = lg_start L0 ∧
    lh_n (foldl (λ L t, set_lh_block (<[t := hd_block t h]> L.(lh_block)) L) L0 ts) = lh_n L0).
  { induction ts as [|t ts IH]; intros L0; [done|]. cbn [foldl].
    by destruct (IH (set_lh_block (<[t:=hd_block t h]> L0.(lh_block)) L0)) as (-> & -> & ->). }
  by destruct (H (set_lh_n (hd_n h) L)) as (-> & -> & ->).
Qed.

Lemma read_log_block h n L t :
  length L.(lh_block) = 30%nat → (n ≤ 30)%nat → (t < n)%nat →
  lh_block (read_log h n L) !! t = Some (hd_block t h).
Proof.
  intros Hlen Hn Ht. unfold read_log.
  assert (H : ∀ k m L0, length L0.(lh_block) = 30%nat → (k + m ≤ 30)%nat →
    lh_block (foldl (λ L t, set_lh_block (<[t := hd_block t h]> L.(lh_block)) L) L0 (seq k m)) !! t =
    if decide (k ≤ t < k + m)%nat then Some (hd_block t h) else lh_block L0 !! t).
  { intros k m. revert k. induction m as [|m IH]; intros k L0 Hl Hk; cbn [seq foldl].
    - by rewrite decide_False by lia.
    - rewrite IH by (cbn; rewrite ?length_insert; lia). cbn [set_lh_block lh_block].
      destruct (decide (t = k)) as [->|Hne].
      + rewrite decide_False, decide_True by lia. apply list_lookup_insert_eq. lia.
      + rewrite list_lookup_insert_ne by done. repeat case_decide; done || lia. }
  rewrite H by (cbn; lia). by rewrite decide_True by lia.
Qed.

Lemma recover_idle d w L s0 s bl :
  fs_idle (disk_block d) (λ _, 0) d w L s0 s → L.(lg_dev) = dev → L.(lg_start) = start →
  length L.(lh_block) = 30%nat → header (disk_block d start) bl →
  let ws := home_stores start (disk_block d) 0 bl ++ [(start, head_bytes [] (disk_block d start))] in
  ∃ s' L', recover_from_log s = Done tt s' ∧
    fs_idle (disk_block (store_all d ws)) (λ _, 0) (store_all d ws) (w ++ ws) L' s0 s' ∧ lh_n L' = 0.
Proof.
  intros A Ldev Lst Llen [Hn Hb Hlen Hhome Hnd] ws. unfold recover_from_log, mbind, M_bind.
  assert (Hz : few (λ _, 0)) by by apply few_zero.
  destruct (read_head_idle _ _ _ _ _ _ _ A) as (s1 & E1 & A1); [done..|apply fits_30 in Hlen; unfold LOGSIZE, MAXOPBLOCKS; lia|].
  rewrite E1. cbn [obind]. rewrite Hn, Nat2Z.id in A1.
  destruct (read_log_fields (disk_block d start) (length bl) L) as (X1 & X2 & X3).
  set (L1 := read_log (disk_block d start) (length bl) L) in *.
  assert (HL : log_lists L1 0 bl).
  { split; [congruence..| |done|done]. intros t b Ht. rewrite <-(Hb t b Ht). cbn.
    apply read_log_block; [done|by apply fits_30|]. by eapply lookup_lt_Some. }
  destruct (install_loop true _ _ _ _ _ _ _ 0 bl A1 HL Hz) as (s2 & E2 & A2); [done..|].
  assert (EI : install_trans true s1 = Done tt s2).
  { unfold install_trans, mbind, M_bind. rewrite (idle_log_get _ _ _ _ _ _ _ _ A1), X3, Hn. cbn [obind].
    by rewrite Nat2Z.id. }
  rewrite EI. cbn [obind].
  destruct (idle_log_set _ _ _ _ _ _ _ (set_lh_n 0) A2) as (s3 & E3 & A3). rewrite E3. cbn [obind].
  assert (HR : ∀ m, over (λ _, 0) ((λ b, (b, 0)) <$> bl) m = 0).
  { intros m. destruct (decide (m ∈ bl)) as [Hm|Hm].
    - apply over_in; [|by apply list_elem_of_fmap; exists m].
      by rewrite <-list_fmap_compose, list_fmap_id.
    - rewrite over_notin; [done|]. by rewrite <-list_fmap_compose, list_fmap_id. }
  destruct (write_head_idle _ _ _ _ _ _ _ [] A3) as (s4 & E4 & A4);
    [apply log_lists_nil; apply HL|done|by apply few_zero|apply HR|].
  exists s4, (set_lh_n 0 L1). split; [done|]. split; [|done].
  apply (idle_clean _ _ _ _ _ _ _) in A4; [|exact HR].
  rewrite over_notin in A4.
  2:{ rewrite home_stores_keys. intros Hs. apply (Hhome start Hs), start_in_log. }
  unfold ws. rewrite store_all_app. rewrite <-app_assoc in A4. exact A4.
Qed.

(** ** Crashes *)

(** The contents of the home blocks that recovery must produce: all of the
    transaction or nothing. *)
Definition atomic_outcome (d d' : gmap Z (list Z)) (F : Z → list Z) (bl : list Z) : Prop :=
  (∀ m, ¬ in_log m → disk_block d' m = disk_block d m) ∨
  (∀ m, ¬ in_log m → disk_block d' m = if decide (m ∈ bl) then F m else disk_block d m).

(** The disk of a machine that stopped after the stores [ws] of [commit]. *)
Inductive crash_point (F : Z → list Z) (bl : list Z) : list (Z * list Z) → Prop :=
| crash_log ws rest : log_stores start F 0 bl = ws ++ rest → crash_point F bl ws
| crash_install ws rest : ((λ b, (b, F b)) <$> bl) = ws ++ rest →
    crash_point F bl (log_stores start F 0 bl ++ [(start, head_bytes bl (F start))] ++ ws)
| crash_end : crash_point F bl (commit_stores F bl).

Lemma crash_points F bl ws : ws `prefix_of` commit_stores F bl ↔ crash_point F bl ws.
Proof.
  unfold commit_stores. split.
  - intros [rest E].
    destruct (decide (length ws ≤ length (log_stores start F 0 bl))%nat) as [H1|H1].
    { apply (crash_log _ _ _ (drop (length ws) (log_stores start F 0 bl))).
      rewrite <-(take_drop (length ws) (log_stores start F 0 bl)) at 1. f_equal.
      pose proof (f_equal (take (length ws)) E) as E'. rewrite take_app_length in E'.
      rewrite take_app_le in E' by done. done. }
    set (pre := log_stores start F 0 bl) in *. set (prs := (λ b, (b, F b)) <$> bl) in *.
    destruct (decide (length ws ≤ length pre + 1 + length prs)%nat) as [H2|H2].
    { pose proof (f_equal (take (length ws)) E) as E'. rewrite take_app_length in E'.
      rewrite take_app_ge in E' by lia. cbn [app] in E'.
      destruct (length ws - length pre)%nat as [|k] eqn:Ek; [lia|]. cbn [take] in E'.
      rewrite take_app_le in E' by lia. rewrite <-E'. cbn [app].
      apply (crash_install _ _ (take k prs) (drop k prs)). by rewrite take_drop. }
    assert (ws = pre ++ [(start, head_bytes bl (F start))] ++ prs ++ [(start, head_bytes [] (head_bytes bl (F start)))]) as ->.
    { assert (length rest = 0%nat) as Hr.
      { pose proof (f_equal length E) as E'. rewrite !length_app in E'. simpl in E'. lia. }
      apply nil_length_inv in Hr as ->. by rewrite app_nil_r in E. }
    apply crash_end.
  - intros [ws' rest E|ws' rest E|]; [| |done].
    + rewrite E, <-app_assoc. by apply prefix_app_r.
    + rewrite E. rewrite <-!app_assoc. apply prefix_app, prefix_app. by apply prefix_app_r.
Qed.

Lemma log_keys_in_log F bl ws rest m :
  fits (length bl) → log_stores start F 0 bl = ws ++ rest → ¬ in_log m → m ∉ ws.*1.
Proof.
  intros Hlen E Hm Hin. apply Hm. assert (Hin' : m ∈ (log_stores start F 0 bl).*1).
  { rewrite E, fmap_app. apply elem_of_app. by left. }
  rewrite log_stores_keys in Hin'. apply list_elem_of_fmap in Hin' as (t & -> & Ht).
  apply elem_of_seq in Ht. unfold in_log, fits in *. lia.
Qed.

Lemma not_in_log_start m : ¬ in_log m → m ≠ start.
Proof. intros Hm ->. apply Hm, start_in_log. Qed.

(** Recovery of the disk [D] with header list [bl'] and the empty header it
    writes, on a home block. *)
Lemma recovered_home (D : gmap Z (list Z)) bl' h m :
  ¬ in_log m →
  disk_block (store_all D (home_stores start (disk_block D) 0 bl' ++ [(start, h)])) m =
  over (disk_block D) (home_stores start (disk_block D) 0 bl') m.
Proof.
  intros Hm. rewrite disk_block_store, over_app. cbn. by rewrite zupd_ne by by apply not_in_log_start.
Qed.

(** The disk left by the stores [ws] has a header that lists blocks, and
    installing them gives all of the transaction or none of it. *)
Definition recoverable (F : Z → list Z) (d : gmap Z (list Z)) (bl : list Z) (ws : list (Z * list Z)) : Prop :=
  ∃ bl', header (disk_block (store_all d ws) start) bl' ∧
    ∀ h, atomic_outcome d (store_all (store_all d ws)
      (home_stores start (disk_block (store_all d ws)) 0 bl' ++ [(start, h)])) F bl.

Lemma header_nil h : hd_n h = 0 → header h [].
Proof.
  intros Hn. split; simpl; [done|done|unfold fits; simpl; lia| |constructor]. intros b Hb. by apply elem_of_nil in Hb.
Qed.

Lemma recoverable_log F d bl ws rest :
  log_stores start F 0 bl = ws ++ rest → fits (length bl) → hd_n (disk_block d start) = 0 →
  recoverable F d bl ws.
Proof.
  intros E Hlen Hold. exists []. split.
  - apply header_nil. rewrite disk_block_store, over_notin; [done|].
    intros Hin. apply (log_keys_not_start F bl). rewrite E, fmap_app. apply elem_of_app. by left.
  - intros h. left. intros m Hm. rewrite recovered_home by done. cbn.
    rewrite disk_block_store, over_notin; [done|]. by eapply log_keys_in_log.
Qed.

Lemma recoverable_install F d bl ws rest :
  ((λ b, (b, F b)) <$> bl) = ws ++ rest → length (F start) = Z.to_nat BSIZE → NoDup bl →
  fits (length bl) → (∀ b, b ∈ bl → ¬ in_log b ∧ 0 ≤ b < 2 ^ 32) →
  recoverable F d bl (log_stores start F 0 bl ++ [(start, head_bytes bl (F start))] ++ ws).
Proof.
  intros E HF Hnd Hlen Hhome.
  assert (Hws : ∀ m, m ∈ ws.*1 → m ∈ bl).
  { intros m Hm. assert (Hm' : m ∈ ((λ b, (b, F b)) <$> bl).*1).
    { rewrite E, fmap_app. apply elem_of_app. by left. }
    by rewrite <-list_fmap_compose, list_fmap_id in Hm'. }
  assert (Hblk : ∀ m, in_log m → disk_block (store_all d (log_stores start F 0 bl ++
      [(start, head_bytes bl (F start))] ++ ws)) m =
      zupd (over (disk_block d) (log_stores start F 0 bl)) start (head_bytes bl (F start)) m).
  { intros m Hm. rewrite disk_block_store, !over_app. cbn. rewrite over_notin; [done|].
    intros Hin. destruct (Hhome m (Hws m Hin)) as [Hno _]. by apply Hno. }
  exists bl. split.
  - rewrite Hblk, zupd_eq by apply start_in_log.
    split; [by apply head_bytes_n; [|apply fits_30]| |done|by intros b Hb; apply Hhome|done].
    intros t b Hb. apply head_bytes_block; [done|by apply fits_30|done|]. by apply Hhome, (list_elem_of_lookup_2 _ t).
  - intros h. right. intros m Hm. rewrite recovered_home by done.
    rewrite (home_stores_from start F).
    2:{ intros t b Hb. rewrite Hblk.
        - rewrite zupd_ne by lia. by apply (over_log_stores start F _ 0 bl t b).
        - apply lookup_lt_Some in Hb. unfold in_log, fits in *. lia. }
    rewrite over_pairs. case_decide as Hb; [done|].
    rewrite disk_block_store, !over_app. cbn. rewrite over_notin by (intros Hin; by apply Hb, Hws).
    rewrite zupd_ne by by apply not_in_log_start. apply over_notin.
    apply (log_keys_in_log F bl _ []); [done|by rewrite app_nil_r|done].
Qed.

Lemma recoverable_end F d bl :
  length (F start) = Z.to_nat BSIZE → fits (length bl) → recoverable F d bl (commit_stores F bl).
Proof.
  intros HF Hlen. exists [].
  assert (HX : ∀ m, disk_block (store_all d (commit_stores F bl)) m =
    zupd (over (zupd (over (disk_block d) (log_stores start F 0 bl)) start (head_bytes bl (F start)))
      ((λ b, (b, F b)) <$> bl)) start (head_bytes [] (head_bytes bl (F start))) m).
  { intros m. unfold commit_stores. by rewrite disk_block_store, !over_app. }
  split.
  - rewrite HX, zupd_eq. apply header_nil, head_bytes_n; [apply length_head_bytes; by try apply fits_30|simpl; lia].
  - intros h. right. intros m Hm. rewrite recovered_home by done. cbn. rewrite HX.
    rewrite zupd_ne by by apply not_in_log_start. rewrite over_pairs. case_decide as Hb; [done|].
    rewrite zupd_ne by by apply not_in_log_start. apply over_notin.
    apply (log_keys_in_log F bl _ []); [done|by rewrite app_nil_r|done].
Qed.

Lemma crash_recover F d bl ws :
  crash_point F bl ws → length (F start) = Z.to_nat BSIZE → NoDup bl → fits (length bl) →
  (∀ b, b ∈ bl → ¬ in_log b ∧ 0 ≤ b < 2 ^ 32) → hd_n (disk_block d start) = 0 →
  recoverable F d bl ws.
Proof.
  intros [ws' rest E|ws' rest E|]; eauto using recoverable_log, recoverable_install, recoverable_end.
Qed.

(** Crash atomicity of [commit]: for every prefix of its stores after which the
    machine may stop, [recover_from_log] run by a freshly booted kernel on the
    resulting disk returns with all of the transaction or none of it. *)
Lemma crash_atomic F d bl ws w1 L1 s1 :
  length (F start) = Z.to_nat BSIZE → NoDup bl → fits (length bl) →
  (∀ b, b ∈ bl → ¬ in_log b ∧ 0 ≤ b < 2 ^ 32) → hd_n (disk_block d start) = 0 →
  ws `prefix_of` commit_stores F bl →
  fs_idle (disk_block (store_all d ws)) (λ _, 0) (store_all d ws) w1 L1 s1 s1 →
  L1.(lg_dev) = dev → L1.(lg_start) = start → length L1.(lh_block) = 30%nat →
  ∃ s2, recover_from_log s1 = Done tt s2 ∧ atomic_outcome d (k_disk s2) F bl.
Proof.
  intros HF Hnd Hlen Hhome Hold Hp A1 Ldev Lst Llen.
  destruct (crash_recover F d bl ws) as (bl' & Hh & Ho); [by apply crash_points|done..|].
  destruct (recover_idle _ _ _ _ _ bl' A1) as (s2 & L2 & E2 & (lru2 & A2) & _); [done..|].
  exists s2. split; [done|]. rewrite (at_disk _ _ _ _ _ _ A2). apply Ho.
Qed.

End LogFacts.
