(* ===== verification/LogSpec.v ===== *)
(** * Transactions ([kernel/log.c])

    The state between [begin_op] and [end_op] ([tx_open]), the effect of
    [begin_op], [log_write] and [end_op] on it, and the theorem that a
    transaction (any sequence of block updates between the two) is atomic: it
    takes effect as one update of the disk, and a crash at any point of its
    stores followed by recovery leaves all of it or none. *)

From S2P Require Import Prelude State Spinlock Cstring Riscv Kalloc Vm Proc ProcFacts Sleeplock.
From S2P Require Import Quiet Bio BioFacts BioSpec Log LogFacts.

(** The blocks of the log after one more [log_write]: absorbed if present. *)
Definition log_add (bl : list Z) (n : Z) : list Z := if decide (n ∈ bl) then bl else bl ++ [n].

Lemma length_log_add bl n : (length (log_add bl n) ≤ S (length bl))%nat.
Proof. unfold log_add. case_decide; [lia|]. rewrite length_app. simpl. lia. Qed.

Lemma elem_log_add bl n m : m ∈ log_add bl n ↔ m = n ∨ m ∈ bl.
Proof.
  unfold log_add. destruct (decide (n ∈ bl)) as [Hn|Hn].
  - split; [by right|]. intros [->|]; done.
  - rewrite elem_of_app, list_elem_of_singleton. tauto.
Qed.

Lemma log_add_sub bl n : bl ⊆ log_add bl n.
Proof. intros m Hm. rewrite elem_log_add. by right. Qed.

(** The numbers of blocks are 32 bits wide. *)
Definition addresses (bl : list Z) : Prop := ∀ b, b ∈ bl → 0 ≤ b < 2 ^ 32.

Lemma addresses_add bl n : addresses bl → 0 ≤ n < 2 ^ 32 → addresses (log_add bl n).
Proof. intros H Hn b. rewrite elem_log_add. intros [->|]; [done|by apply H]. Qed.

Lemma log_slot_found bl0 bl n :
  take (length bl) bl0 = bl → n ∈ bl →
  (log_slot bl0 (length bl) n < length bl)%nat ∧ bl !! log_slot bl0 (length bl) n = Some n.
Proof.
  intros Ht Hn. unfold log_slot. rewrite Ht. destruct (list_find _ bl) as [[i x]|] eqn:E; simpl.
  - apply list_find_Some in E as (Hi & -> & _). split; [by eapply lookup_lt_Some|done].
  - apply list_find_None in E. rewrite Forall_forall in E. by destruct (E n Hn).
Qed.

Lemma log_slot_new bl0 bl n :
  take (length bl) bl0 = bl → n ∉ bl → log_slot bl0 (length bl) n = length bl.
Proof.
  intros Ht Hn. unfold log_slot. rewrite Ht. destruct (list_find _ bl) as [[i x]|] eqn:E; simpl; [|done].
  apply list_find_Some in E as (Hi & -> & _). destruct Hn. by eapply list_elem_of_lookup_2.
Qed.

Lemma is_static_log : is_static L_log = true.
Proof. by apply bool_decide_eq_true_2; vm_compute; repeat constructor. Qed.

Section LogSpec.
Context {HK : KernelImage} {WB : WaitBound} {BD : BlockDev} {BDok : BlockDevOk}.
Context (p : nat) (pid dev : Z).
Implicit Types (s : kstate) (V : bview) (d : gmap Z (list Z)) (w : list (Z * list Z)) (L : log).

Local Abbreviation fs_at := (fs_at p pid dev).
Local Abbreviation fs_idle := (fs_idle p pid dev).
Local Abbreviation calm := (calm p pid).

(** ** Under [log.lock] *)

(** As [fs_at], with [log.lock] held. *)
Record fs_locked (V : bview) (d : gmap Z (list Z)) (w : list (Z * list Z)) (L : log)
    (s0 s : kstate) : Prop := {
  lk_calm : calm [L_log] s;
  lk_cache : bcache pid dev V s;
  lk_disk : s.(k_disk) = d;
  lk_writes : s.(k_dwrites) = w;
  lk_log : s.(k_log) = L;
  lk_frame : fframe p s0 s
}.

Lemma quietly_parts s s' :
  quietly p s s' → k_disk s' = k_disk s ∧ k_dwrites s' = k_dwrites s ∧ k_log s' = k_log s.
Proof. intros Q. split_and!; by apply (quietly_get p _ _ _ Q). Qed.

Lemma fs_lock V d w L s0 s :
  fs_at V d w L s0 s → ∃ s', acquire L_log s = Done tt s' ∧ fs_locked V d w L s0 s'.
Proof.
  intros [C B E1 E2 E3 F]. destruct (acquire_calm p pid [] s L_log) as (s' & E & C' & Q);
    [done|apply is_static_log|apply not_elem_of_nil|done|].
  exists s'. split; [done|]. destruct (quietly_parts _ _ Q) as (X1 & X2 & X3).
  split; [done|by eapply quietly_bcache|congruence..|].
  eapply fframe_bframe; [done|]. by apply quietly_bframe.
Qed.

Lemma fs_unlock V d w L s0 s :
  fs_locked V d w L s0 s → ∃ s', release L_log s = Done tt s' ∧ fs_at V d w L s0 s'.
Proof.
  intros [C B E1 E2 E3 F]. destruct (release_calm p pid [] s L_log) as (s' & E & C' & Q); [done|].
  exists s'. split; [done|]. destruct (quietly_parts _ _ Q) as (X1 & X2 & X3).
  split; [done|by eapply quietly_bcache|congruence..|].
  eapply fframe_bframe; [done|]. by apply quietly_bframe.
Qed.

Lemma locked_wakeup V d w L s0 s ch :
  fs_locked V d w L s0 s → ∃ s', wakeup ch s = Done tt s' ∧ fs_locked V d w L s0 s'.
Proof.
  intros [C B E1 E2 E3 F]. destruct (wakeup_calm p pid _ s ch C) as (s' & E & C' & Q).
  exists s'. split; [done|]. destruct (quietly_parts _ _ Q) as (X1 & X2 & X3).
  split; [done|by eapply quietly_bcache|congruence..|].
  eapply fframe_bframe; [done|]. by apply quietly_bframe.
Qed.

Lemma locked_log_get V d w L s0 s {A} (f : log → A) :
  fs_locked V d w L s0 s → log_get f s = Done (f L) s.
Proof. intros A0. mred. by rewrite (lk_log _ _ _ _ _ _ A0). Qed.

Lemma locked_log_set V d w L s0 s f :
  fs_locked V d w L s0 s → ∃ s', log_set f s = Done tt s' ∧ fs_locked V d w (f L) s0 s'.
Proof.
  intros [C B E1 E2 E3 F]. eexists. split; [done|]. split; kproj; try done.
  - by eapply calm_upd.
  - by eapply bcache_ext.
  - by rewrite E3.
  - by apply fframe_log.
Qed.

Lemma locked_bpin V d w L s0 s i n :
  fs_locked V d w L s0 s → V.(bv_held) !! i = Some n → V.(bv_ref) n + 1 < 2 ^ 32 →
  ∃ s', bpin i s = Done tt s' ∧ fs_locked (v_ref n (V.(bv_ref) n + 1) V) d w L s0 s'.
Proof.
  intros [C B E1 E2 E3 F] Hi Hr.
  destruct (bpin_calm p pid dev [L_log] V s i n) as (s' & E & C' & B' & X1 & X2 & F'); [done| |done..|].
  { split; intros; by apply not_elem_of_cons; split; [|apply not_elem_of_nil]. }
  exists s'. split; [done|]. split; try done; [congruence..| |].
  - by rewrite (bframe_get p k_log _ _ F').
  - by eapply fframe_bframe.
Qed.

(** ** [log_write] *)

Context (start : Z) (Hstart : 0 ≤ start < 2 ^ 31).
Context (size : Z) (Hsize : 1 ≤ size ≤ LOGSIZE + 1).

(** The log record of an open transaction on the blocks [bl]. *)
Record log_has (L : log) (bl : list Z) : Prop := {
  lo_lists : log_lists dev start size L 0 bl;
  lo_n : L.(lh_n) = Z.of_nat (length bl);
  lo_size : L.(lg_size) = size;
  lo_len : length L.(lh_block) = 30%nat;
  lo_nodup : NoDup bl;
  lo_idle : L.(lg_committing) = false
}.

Lemma log_has_take L bl : log_has L bl → take (length bl) L.(lh_block) = bl.
Proof.
  intros HL. apply list_eq. intros i. destruct (decide (i < length bl)%nat) as [Hi|Hi].
  - rewrite lookup_take_lt by done. destruct (lookup_lt_is_Some_2 bl i Hi) as [b Hb]. rewrite Hb.
    by apply (ll_block _ _ _ _ _ _ (lo_lists _ _ HL)).
  - rewrite !(proj2 (lookup_ge_None _ _)); [done|lia|rewrite length_take; lia].
Qed.

Definition log_record (n : Z) (bl : list Z) (L : log) : log :=
  set_lh_n (Z.of_nat (length (log_add bl n)))
    (set_lh_block (<[log_slot L.(lh_block) (length bl) n := n]> L.(lh_block)) L).

Lemma log_has_record L bl n :
  log_has L bl → fits size (S (length bl)) → ¬ in_log start size n →
  log_has (log_record n bl L) (log_add bl n).
Proof.
  intros HL Hf Hn. pose proof (log_has_take L bl HL) as Ht. destruct HL as [[H1 H2 H3 H4 H5] H6 H7 H8 H9 H10].
  pose proof (fits_30 size Hsize _ Hf) as Hf30. unfold log_record, log_add. case_decide as Hin.
  - destruct (log_slot_found _ _ _ Ht Hin) as [Hs1 Hs2].
    rewrite list_insert_id by by apply (H3 _ _ Hs2). by repeat split.
  - rewrite (log_slot_new _ _ _ Ht Hin), length_app. simpl. split; try done; cbn.
    + split; try done; cbn.
      * intros t b. destruct (decide (t = length bl)) as [->|Hne].
        { rewrite list_lookup_middle by done. intros [= <-]. apply list_lookup_insert_eq. lia. }
        intros Hb. rewrite list_lookup_insert_ne by done. apply H3.
        apply lookup_app_Some in Hb as [Hb|[Hle Hb]]; [done|].
        destruct (t - length bl)%nat eqn:E; [lia|done].
      * rewrite length_app. simpl. by replace (length bl + 1)%nat with (S (length bl)) by lia.
      * intros b [Hb| ->%list_elem_of_singleton]%elem_of_app; [by apply H5|done].
    + by rewrite length_app.
    + by rewrite length_insert.
    + apply NoDup_app. split; [done|]. split; [|apply NoDup_singleton].
      intros x Hx ->%list_elem_of_singleton. done.
Qed.

Ltac step E := unfold mbind at 1, M_bind at 1; rewrite E; cbn [obind].

Lemma log_write_at V d w L s0 s i n bl :
  fs_at V d w L s0 s → V.(bv_held) !! i = Some n → V.(bv_ref) n + 1 < 2 ^ 32 →
  log_has L bl → fits size (S (length bl)) → 1 ≤ L.(lg_outstanding) →
  ∃ s', log_write i s = Done tt s' ∧
    fs_at (if decide (n ∈ bl) then V else v_ref n (V.(bv_ref) n + 1) V) d w (log_record n bl L) s0 s'.
Proof.
  intros A Hi Hr HL Hf Ho. pose proof (log_has_take L bl HL) as Ht.
  pose proof (fits_30 size Hsize _ Hf) as Hf30. pose proof (lo_n _ _ HL) as Hn.
  unfold log_write. destruct (fs_lock _ _ _ _ _ _ A) as (s1 & E1 & A1). step E1.
  step (locked_log_get _ _ _ _ _ _ lh_n A1). step (locked_log_get _ _ _ _ _ _ lg_size A1).
  rewrite Hn, (lo_size _ _ HL). unfold fits in Hf.
  rewrite (proj2 (Z.leb_gt LOGSIZE _)), (proj2 (Z.leb_gt (size - 1) _))
    by (unfold LOGSIZE, MAXOPBLOCKS; lia). cbn [orb].
  step (locked_log_get _ _ _ _ _ _ lg_outstanding A1). rewrite (proj2 (Z.ltb_ge _ 1)) by done.
  step (held_blockno _ _ _ _ _ _ (lk_cache _ _ _ _ _ _ A1) Hi).
  step (locked_log_get _ _ _ _ _ _ lh_block A1). rewrite Nat2Z.id.
  set (slot := log_slot L.(lh_block) (length bl) n).
  assert (Hslot : (slot ≤ length bl)%nat ∧ (slot = length bl ↔ n ∉ bl)).
  { unfold slot. destruct (decide (n ∈ bl)) as [Hin|Hin].
    - destruct (log_slot_found _ _ _ Ht Hin) as [Hs _]. split; [lia|]. split; [lia|done].
    - rewrite (log_slot_new _ _ _ Ht Hin). done. }
  destruct Hslot as [Hs1 Hs2].
  unfold lh_block_set. rewrite decide_True by (unfold LOGSIZE, MAXOPBLOCKS; lia).
  destruct (locked_log_set _ _ _ _ _ _ (λ l, set_lh_block (<[slot:=n]> (lh_block l)) l) A1) as (s2 & E2 & A2).
  step E2. unfold log_record, log_add. fold slot.
  case_decide as Hin.
  - rewrite (proj2 (Z.eqb_neq _ _)) by (intros E; apply Nat2Z.inj in E; tauto).
    unfold when, mbind, M_bind. cbn [mret M_ret obind].
    destruct (fs_unlock _ _ _ _ _ _ A2) as (s3 & E3 & A3). exists s3. split; [done|].
    rewrite <-Hn. destruct L. exact A3.
  - rewrite (proj2 (Z.eqb_eq _ _)) by (f_equal; tauto). unfold when.
    destruct (locked_bpin _ _ _ _ _ _ i n A2 Hi Hr) as (s3 & E3 & A3).
    destruct (locked_log_set _ _ _ _ _ _ (λ l, set_lh_n (lh_n l + 1) l) A3) as (s4 & E4 & A4).
    destruct (fs_unlock _ _ _ _ _ _ A4) as (s5 & E5 & A5). exists s5.
    unfold mbind, M_bind. rewrite E3. cbn [obind]. rewrite E4. cbn [obind]. split; [done|].
    rewrite length_app, Nat2Z.inj_add. cbn in A5 |- *. rewrite <-Hn. exact A5.
Qed.

(** ** A transaction *)

(** The typical use of [log_write]: read a block, modify the buffer, log it and
    release it. *)
Definition update (u : Z * (list Z → list Z)) : M kstate unit :=
  b ← bread dev u.1;
  buf_set b (λ x, set_b_data (u.2 x.(b_data)) x);;
  log_write b;;
  brelse b.

Definition transaction (us : list (Z * (list Z → list Z))) : M kstate unit :=
  begin_op;;
  for_each us update;;
  end_op.

(** What it means: the updates applied to the contents of the disk, and the set
    of blocks they touch. *)
Definition apply_update (F : Z → list Z) (u : Z * (list Z → list Z)) : Z → list Z :=
  zupd F u.1 (u.2 (F u.1)).
Definition apply_updates (F : Z → list Z) us : Z → list Z := foldl apply_update F us.
Definition touched (bl : list Z) (us : list (Z * (list Z → list Z))) : list Z := foldl log_add bl us.*1.

(** Updates of home blocks that keep the size of a block. *)
Definition home_update (u : Z * (list Z → list Z)) : Prop :=
  0 ≤ u.1 < 2 ^ 32 ∧ ¬ in_log start size u.1 ∧
  ∀ x, length x = Z.to_nat BSIZE → length (u.2 x) = Z.to_nat BSIZE.

(** A buffer that the caller keeps locked meanwhile *)
Definition hold_opt (h : option (nat * Z)) (V : bview) : bview :=
  match h with Some (i, n) => v_hold i n V | None => V end.

Record tx_with (h : option (nat * Z)) (F : Z → list Z) (bl : list Z) d w L s0 s : Prop := {
  tx_idle : ∃ lru, fs_at (hold_opt h (mk_bview F (pinned bl) ∅ lru)) d w L s0 s;
  tx_log : log_has L bl;
  tx_out : 1 ≤ L.(lg_outstanding)
}.

Definition tx_open := tx_with None.

Lemma pinned_few bl : (length bl < NBUF)%nat → few (pinned bl).
Proof. exists bl. split; [|done]. intros m. unfold pinned. case_decide; [done|lia]. Qed.

Lemma pinned_add bl n m : pinned (log_add bl n) m = if decide (m = n) then 1 else pinned bl m.
Proof.
  unfold pinned. destruct (decide (m = n)) as [->|Hne].
  - rewrite decide_True; [done|]. rewrite elem_log_add. by left.
  - destruct (decide (m ∈ bl)).
    + rewrite decide_True; [done|]. rewrite elem_log_add. by right.
    + rewrite decide_False; [done|]. rewrite elem_log_add. tauto.
Qed.

(** With the buffer [i] of block [n] locked, besides that of [h]. *)
Record hold_with (h : option (nat * Z)) (i : nat) (n : Z) (F : Z → list Z) (bl : list Z) d w L s0 s : Prop := {
  th_at : ∃ lru, fs_at (v_hold i n (hold_opt h (mk_bview F (pinned bl) ∅ lru))) d w L s0 s;
  th_clean : n ∉ bl → F n = disk_block d n;
  th_log : log_has L bl;
  th_out : 1 ≤ L.(lg_outstanding);
  th_new : h ≫= (λ x, Some x.1) ≠ Some i;
  th_other : h ≫= (λ x, Some x.2) ≠ Some n
}.

Definition tx_hold := hold_with None.

(** The buffers that [h] takes *)
Definition taken (h : option (nat * Z)) : nat := match h with Some _ => 1 | None => 0 end.

Lemma bread_with h F bl d w L s0 s n :
  tx_with h F bl d w L s0 s → (taken h + length bl < NBUF)%nat → h ≫= (λ x, Some x.2) ≠ Some n →
  ∃ i s', bread dev n s = Done i s' ∧ hold_with h i n F bl d w L s0 s'.
Proof.
  intros [[lru A] HL Ho] Hlen Hn. destruct (at_bread p pid dev _ _ _ _ _ _ n A) as (i & s1 & E1 & Hi & A1).
  - intros i. destruct h as [[j m]|]; cbn in *; [|by rewrite lookup_empty].
    rewrite lookup_insert_Some, lookup_empty. intros [[_ E]|[_ ?]]; [congruence|done].
  - right. exists (default [] (h ≫= (λ x, Some [x.2])) ++ bl). split.
    + intros m. destruct h as [[j k]|]; cbn; unfold zupd, pinned; repeat case_decide; intros; subst; rewrite ?elem_of_cons; auto; lia.
    + rewrite length_app. by destruct h as [[j k]|].
  - destruct h as [[j k]|]; cbn; unfold zupd, pinned; repeat case_decide; lia.
  - exists i, s1. split; [done|]. split; [by exists lru| |done|done| |done].
    + intros Hb. rewrite <-(at_disk _ _ _ _ _ _ _ _ _ A). revert A. intros A.
      pose proof (bc_clean _ _ _ _ (at_cache _ _ _ _ _ _ _ _ _ A) n) as Hc. destruct h as [[j k]|]; cbn in *; apply Hc.
      * rewrite zupd_ne by congruence. unfold pinned. by rewrite decide_False.
      * unfold pinned. by rewrite decide_False.
    + destruct h as [[j k]|]; cbn in *; [|done]. intros [= ->]. by rewrite lookup_insert_eq in Hi.
Qed.

Lemma tx_bread F bl d w L s0 s n :
  tx_open F bl d w L s0 s → (length bl < NBUF)%nat →
  ∃ i s', bread dev n s = Done i s' ∧ tx_hold i n F bl d w L s0 s'.
Proof. intros T Hlen. by apply bread_with. Qed.

Lemma tx_read h i n F bl d w L s0 s :
  hold_with h i n F bl d w L s0 s → buf_get i b_data s = Done (F n) s.
Proof.
  intros [[lru A] _ _ _ _ _]. rewrite (held_data _ _ _ _ _ n (at_cache _ _ _ _ _ _ _ _ _ A)); [|apply lookup_insert_eq].
  by destruct h as [[j k]|].
Qed.

(** Releasing the buffer leaves the locks of [h]. *)
Lemma drop_with h i n F bl d w L s0 s V lru :
  fs_at (v_drop i n V) d w L s0 s → (∀ m, bv_data V m = F m) →
  (∀ m, bv_ref V m = if decide (m = n) then pinned bl n + 1 else bv_ref (hold_opt h (mk_bview F (pinned bl) ∅ lru)) m) →
  bv_held V = <[i:=n]> (bv_held (hold_opt h (mk_bview F (pinned bl) ∅ lru))) →
  h ≫= (λ x, Some x.1) ≠ Some i → h ≫= (λ x, Some x.2) ≠ Some n →
  ∃ lru', fs_at (hold_opt h (mk_bview F (pinned bl) ∅ lru')) d w L s0 s.
Proof.
  intros A HF HR Hh Hi Hn. exists (bv_lru (v_drop i n V)). eapply at_view; [exact A|..].
  - intros m. cbn. rewrite HF. by destruct h as [[j k]|].
  - intros m. cbn. unfold zupd at 1. destruct (decide (m = n)) as [->|Hne].
    + rewrite (HR n), decide_True by done. destruct h as [[j k]|]; cbn in *; [rewrite zupd_ne by congruence|]; lia.
    + rewrite (HR m), decide_False by done. by destruct h as [[j k]|].
  - cbn. rewrite Hh, delete_insert_id; [by destruct h as [[j k]|]|].
    destruct h as [[j k]|]; cbn in *; [|done]. apply lookup_insert_None. split; [done|congruence].
  - by destruct h as [[j k]|].
Qed.

(** [brelse] of an unmodified buffer *)
Lemma brelse_with h i n F bl d w L s0 s :
  hold_with h i n F bl d w L s0 s → ∃ s', brelse i s = Done tt s' ∧ tx_with h F bl d w L s0 s'.
Proof.
  intros [[lru A] Hc HL Ho Hi Hn]. destruct (at_brelse p pid dev _ _ _ _ _ _ i n A) as (s1 & E1 & A1).
  { apply lookup_insert_eq. }
  { cbn. rewrite zupd_eq. destruct h as [[j k]|]; cbn in *; rewrite ?zupd_ne by congruence; unfold pinned;
      (case_decide; [lia|]); intros _; by apply Hc. }
  exists s1. split; [done|]. split; [|done|done]. eapply (drop_with h i n); [exact A1|..|done|done|done].
  - by destruct h as [[j k]|].
  - intros m. cbn. unfold zupd. case_decide; [|done]. destruct h as [[j k]|]; cbn in *; [by rewrite zupd_ne by congruence|done].
Qed.

Lemma tx_brelse i n F bl d w L s0 s :
  tx_hold i n F bl d w L s0 s → ∃ s', brelse i s = Done tt s' ∧ tx_open F bl d w L s0 s'.
Proof. apply brelse_with. Qed.

(** Modify, log and release. *)
Lemma store_with h i n f F bl d w L s0 s :
  hold_with h i n F bl d w L s0 s → ¬ in_log start size n → fits size (S (length bl)) →
  (∀ x, length x = Z.to_nat BSIZE → length (f x) = Z.to_nat BSIZE) →
  ∃ s' L', (buf_set i (λ x, set_b_data (f x.(b_data)) x);; log_write i;; brelse i) s = Done tt s' ∧
    tx_with h (zupd F n (f (F n))) (log_add bl n) d w L' s0 s' ∧ L'.(lg_outstanding) = L.(lg_outstanding).
Proof.
  intros [[lru A1] _ HL Ho Hi Hn] Hhome Hfits Hf.
  assert (Hd : ∀ V, bv_data (hold_opt h V) = bv_data V) by (by destruct h as [[j k]|]).
  assert (Hr : ∀ m, bv_ref (hold_opt h (mk_bview F (pinned bl) ∅ lru)) m =
    (if decide (h ≫= (λ x, Some x.2) = Some m) then 1 else 0) + pinned bl m).
  { intros m. destruct h as [[j k]|]; cbn; [|by rewrite decide_False by done]. unfold zupd.
    repeat case_decide; simplify_eq; lia. }
  assert (Hh : bv_held (v_hold i n (hold_opt h (mk_bview F (pinned bl) ∅ lru))) !! i = Some n) by apply lookup_insert_eq.
  destruct (at_set p pid dev _ _ _ _ _ _ i n f A1 Hh Hf) as (s2 & E2 & A2). step E2.
  destruct (log_write_at _ _ _ _ _ _ i n bl A2 Hh) as (s3 & E3 & A3); [|done|done|done|].
  { cbn. rewrite zupd_eq, Hr. unfold pinned. repeat case_decide; lia. }
  step E3. set (V3 := if decide (n ∈ bl) then _ else _) in A3.
  assert (HV : (∀ m, bv_data V3 m = zupd F n (f (F n)) m) ∧
    bv_held V3 = <[i:=n]> (bv_held (hold_opt h (mk_bview F (pinned bl) ∅ lru))) ∧
    (∀ m, bv_ref V3 m = if decide (m = n) then 2 else bv_ref (hold_opt h (mk_bview F (pinned bl) ∅ lru)) m)).
  { assert (Hrn : bv_ref (hold_opt h (mk_bview F (pinned bl) ∅ lru)) n = pinned bl n) by (by rewrite Hr, decide_False).
    unfold V3. case_decide as Hin; (split; [intros m; cbn; by rewrite Hd|split; [done|]]); intros m; cbn; unfold zupd;
      rewrite Hrn; unfold pinned; [rewrite (decide_True (P := n ∈ bl)) by done|rewrite (decide_False (P := n ∈ bl)) by done];
      by repeat case_decide. }
  clearbody V3. destruct HV as (X1 & X2 & X3).
  destruct (at_brelse p pid dev _ _ _ _ _ _ i n A3) as (s4 & E4 & A4).
  { by rewrite X2, lookup_insert_eq. }
  { rewrite X3, decide_True by done. lia. }
  exists s4, (log_record n bl L). split; [done|]. split; [|done]. split; [|by apply log_has_record|done].
  eapply (drop_with h i n _ _ _ _ _ _ _ _ lru); [exact A4|done|..|done|done].
  - intros m. rewrite X3. case_decide; [by rewrite pinned_add, decide_True|].
    destruct h as [[j k]|]; cbn in *; unfold zupd; rewrite !pinned_add, ?(decide_False (P := m = n)), ?(decide_False (P := k = n)) by congruence; done.
  - rewrite X2. by destruct h as [[j k]|].
Qed.

Lemma tx_store i n f F bl d w L s0 s :
  tx_hold i n F bl d w L s0 s → ¬ in_log start size n → fits size (S (length bl)) →
  (∀ x, length x = Z.to_nat BSIZE → length (f x) = Z.to_nat BSIZE) →
  ∃ s' L', (buf_set i (λ x, set_b_data (f x.(b_data)) x);; log_write i;; brelse i) s = Done tt s' ∧
    tx_open (zupd F n (f (F n))) (log_add bl n) d w L' s0 s' ∧ L'.(lg_outstanding) = L.(lg_outstanding).
Proof. apply store_with. Qed.

Lemma update_open F bl d w L s0 s u :
  tx_open F bl d w L s0 s → home_update u → fits size (S (length bl)) → (length bl < NBUF)%nat →
  ∃ s' L', update u s = Done tt s' ∧ tx_open (apply_update F u) (log_add bl u.1) d w L' s0 s' ∧
    L'.(lg_outstanding) = L.(lg_outstanding).
Proof.
  intros T (_ & Hhome & Hf) Hfits Hlen. unfold update.
  destruct (tx_bread _ _ _ _ _ _ _ u.1 T Hlen) as (i & s1 & E1 & T1). step E1. by apply tx_store.
Qed.

Lemma begin_op_idle F R d w L s0 s :
  fs_idle F R d w L s0 s → L.(lg_committing) = false →
  L.(lh_n) + (L.(lg_outstanding) + 1) * MAXOPBLOCKS ≤ LOGSIZE →
  ∃ s', begin_op s = Done tt s' ∧
    fs_idle F R d w (set_lg_outstanding (L.(lg_outstanding) + 1) L) s0 s'.
Proof.
  intros [lru A] Hc Hn. unfold begin_op. destruct (fs_lock _ _ _ _ _ _ A) as (s1 & E1 & A1). step E1.
  cbn [loop]. unfold mbind, M_bind. rewrite (locked_log_get _ _ _ _ _ _ lg_committing A1). cbn [obind].
  rewrite (locked_log_get _ _ _ _ _ _ lh_n A1). cbn [obind].
  rewrite (locked_log_get _ _ _ _ _ _ lg_outstanding A1). cbn [obind].
  rewrite Hc, (proj2 (Z.ltb_ge _ _)) by done.
  destruct (locked_log_set _ _ _ _ _ _ (λ l, set_lg_outstanding (lg_outstanding l + 1) l) A1) as (s2 & E2 & A2).
  destruct (fs_unlock _ _ _ _ _ _ A2) as (s3 & E3 & A3). exists s3. split; [|by exists lru].
  rewrite E2. cbn [obind]. by rewrite E3.
Qed.

Lemma begin_op_open d w L s0 s :
  fs_idle (disk_block d) (λ _, 0) d w L s0 s → log_has L [] → L.(lg_outstanding) = 0 →
  ∃ s', begin_op s = Done tt s' ∧ tx_open (disk_block d) [] d w (set_lg_outstanding 1 L) s0 s'.
Proof.
  intros I HL Ho. destruct (begin_op_idle _ _ _ _ _ _ _ I) as (s1 & E1 & A1).
  { apply (lo_idle _ _ HL). } { rewrite (lo_n _ _ HL), Ho. unfold LOGSIZE, MAXOPBLOCKS. cbn. lia. }
  exists s1. split; [done|]. rewrite Ho in A1. split; [|by destruct HL as [[] ? ? ? ? ?]; repeat split|cbn; lia].
  eapply idle_view; [exact A1|done|]. intros m. unfold pinned. by rewrite decide_False by apply not_elem_of_nil.
Qed.

Lemma updates_open us F bl d w L s0 s :
  tx_open F bl d w L s0 s → Forall home_update us → fits size (length bl + length us) →
  (length bl + length us ≤ NBUF)%nat →
  ∃ s' L', for_each us update s = Done tt s' ∧ tx_open (apply_updates F us) (touched bl us) d w L' s0 s' ∧
    L'.(lg_outstanding) = L.(lg_outstanding).
Proof.
  revert F bl L s. induction us as [|u us IH]; intros F bl L s T Hus Hf Hl.
  { exists s, L. done. }
  apply Forall_cons in Hus as [Hu Hus]. simpl in Hf, Hl. cbn [for_each].
  destruct (update_open F bl d w L s0 s u T Hu) as (s1 & L1 & E1 & T1 & O1);
    [unfold fits in *; lia|lia|].
  pose proof (length_log_add bl u.1) as Hadd.
  destruct (IH _ _ _ _ T1 Hus) as (s2 & L2 & E2 & T2 & O2); [unfold fits in *; lia|lia|].
  exists s2, L2. unfold mbind, M_bind. rewrite E1. cbn [obind]. split; [done|].
  split; [exact T2|]. by rewrite O2.
Qed.

Lemma end_op_last F bl d w L s0 s :
  tx_open F bl d w L s0 s → L.(lg_outstanding) = 1 → bl ≠ [] → (length bl < NBUF)%nat →
  ∃ s' L', end_op s = Done tt s' ∧
    fs_idle (disk_block (store_all d (commit_stores start F bl))) (λ _, 0)
      (store_all d (commit_stores start F bl)) (w ++ commit_stores start F bl) L' s0 s' ∧
    log_has L' [] ∧ L'.(lg_outstanding) = 0.
Proof.
  intros [[lru A] HL _] Ho Hne Hlen. unfold end_op.
  destruct (fs_lock _ _ _ _ _ _ A) as (s1 & E1 & A1). step E1.
  destruct (locked_log_set _ _ _ _ _ _ (λ l, set_lg_outstanding (lg_outstanding l - 1) l) A1) as (s2 & E2 & A2).
  step E2. step (locked_log_get _ _ _ _ _ _ lg_committing A2). cbn [set_lg_outstanding lg_committing].
  rewrite (lo_idle _ _ HL). step (locked_log_get _ _ _ _ _ _ lg_outstanding A2).
  cbn [set_lg_outstanding lg_outstanding]. rewrite Ho. change (1 - 1 =? 0) with true. cbv iota.
  destruct (locked_log_set _ _ _ _ _ _ (set_lg_committing true) A2) as (s3 & E3 & A3).
  destruct (fs_unlock _ _ _ _ _ _ A3) as (s4 & E4 & A4).
  assert (E3' : (log_set (set_lg_committing true);; mret true) s2 = Done true s3).
  { unfold mbind, M_bind. by rewrite E3. }
  step E3'. step E4.
  destruct (commit_idle p pid dev start Hstart size Hsize F d w
    (set_lg_committing true (set_lg_outstanding (lg_outstanding L - 1) L)) s0 s4 bl) as (s5 & E5 & lru5 & A5);
    [by exists lru| |apply (lo_n _ _ HL)|done|apply (lo_nodup _ _ HL)|done|].
  { destruct (lo_lists _ _ HL) as [H1 H2 H3 H4 H5]. by split. }
  step E5. destruct (fs_lock _ _ _ _ _ _ A5) as (s6 & E6 & A6). step E6.
  destruct (locked_log_set _ _ _ _ _ _ (set_lg_committing false) A6) as (s7 & E7 & A7). step E7.
  destruct (locked_wakeup _ _ _ _ _ _ Ch_log A7) as (s8 & E8 & A8). step E8.
  destruct (fs_unlock _ _ _ _ _ _ A8) as (s9 & E9 & A9). rewrite E9.
  eexists _, _. split; [reflexivity|]. split; [by exists lru5|]. split; [|cbn; lia].
  destruct HL as [[H1 H2 H3 H4 H5] H6 H7 H8 H9 H10]. split; try done; [by apply log_lists_nil|by constructor].
Qed.

(** [log_write] refuses a block that the log has no room for, and a block
    outside of a transaction. *)
Lemma log_write_full V d w L s0 s i bl :
  fs_at V d w L s0 s → log_has L bl → size - 1 ≤ Z.of_nat (length bl) →
  ∃ s', log_write i s = Panic "too big a transaction" s'.
Proof.
  intros A HL Hf. unfold log_write. destruct (fs_lock _ _ _ _ _ _ A) as (s1 & E1 & A1). step E1.
  step (locked_log_get _ _ _ _ _ _ lh_n A1). step (locked_log_get _ _ _ _ _ _ lg_size A1).
  rewrite (lo_n _ _ HL), (lo_size _ _ HL), (proj2 (Z.leb_le (size - 1) _)), orb_true_r by done.
  by exists s1.
Qed.

Lemma log_write_outside V d w L s0 s i bl :
  fs_at V d w L s0 s → log_has L bl → fits size (S (length bl)) → L.(lg_outstanding) < 1 →
  ∃ s', log_write i s = Panic "log_write outside of trans" s'.
Proof.
  intros A HL Hf Ho. pose proof (fits_30 size Hsize _ Hf) as Hf30. unfold fits in Hf.
  unfold log_write. destruct (fs_lock _ _ _ _ _ _ A) as (s1 & E1 & A1). step E1.
  step (locked_log_get _ _ _ _ _ _ lh_n A1). step (locked_log_get _ _ _ _ _ _ lg_size A1).
  rewrite (lo_n _ _ HL), (lo_size _ _ HL), (proj2 (Z.leb_gt (size - 1) _)), (proj2 (Z.leb_gt LOGSIZE _))
    by (unfold LOGSIZE, MAXOPBLOCKS; lia). cbn [orb].
  step (locked_log_get _ _ _ _ _ _ lg_outstanding A1). rewrite (proj2 (Z.ltb_lt _ 1)) by done. by exists s1.
Qed.

(** C36: The bounds of the log.  [log_write] of a locked buffer panics when the
    log (whose on-disk area has [size] blocks) has no room for one more block or
    when no operation is outstanding; otherwise it records the block, once, and
    pins the buffer if the block is new, so that the list never exceeds the
    on-disk area and has no duplicates. *)
Theorem log_write_spec V d w L s0 s i n bl :
  fs_at V d w L s0 s → V.(bv_held) !! i = Some n → V.(bv_ref) n + 1 < 2 ^ 32 →
  log_has L bl → ¬ in_log start size n →
  if size - 1 <=? Z.of_nat (length bl) then ∃ s', log_write i s = Panic "too big a transaction" s'
  else if L.(lg_outstanding) <? 1 then ∃ s', log_write i s = Panic "log_write outside of trans" s'
  else ∃ s' L', log_write i s = Done tt s' ∧ log_has L' (log_add bl n) ∧
    fs_at (if decide (n ∈ bl) then V else v_ref n (V.(bv_ref) n + 1) V) d w L' s0 s'.
Proof.
  intros A Hi Hr HL Hn. destruct (Z.leb_spec (size - 1) (Z.of_nat (length bl))) as [Hf|Hf];
    [by eapply log_write_full|]. assert (Hfit : fits size (S (length bl))) by (unfold fits; lia).
  destruct (Z.ltb_spec L.(lg_outstanding) 1) as [Ho|Ho]; [by eapply log_write_outside|].
  destruct (log_write_at V d w L s0 s i n bl) as (s' & E & A'); [done..|].
  exists s', (log_record n bl L). split; [done|]. split; [by apply log_has_record|done].
Qed.

(** The reservation of [begin_op] exceeds the log that [mkfs] lays out.  With
    [log.size = LOGSIZE] (header included) three operations may begin on an
    empty log, which reserves 30 blocks; once 29 distinct blocks are logged, the
    next [log_write] panics although no operation has logged more than its
    [MAXOPBLOCKS] blocks. *)
Theorem begin_op_overcommits F R d w L s0 s :
  size = LOGSIZE → fs_idle F R d w L s0 s → log_has L [] → L.(lg_outstanding) = 0 →
  (∃ s', (begin_op;; begin_op;; begin_op) s = Done tt s' ∧ lg_outstanding (k_log s') = 3) ∧
  ∀ V d' w' L' s0' s' i bl, fs_at V d' w' L' s0' s' → log_has L' bl → L'.(lg_outstanding) = 3 →
    length bl = 29%nat → Z.of_nat (length bl) < 3 * MAXOPBLOCKS ∧
    ∃ s'', log_write i s' = Panic "too big a transaction" s''.
Proof.
  intros Hsz A HL Ho. pose proof (lo_idle _ _ HL) as Hc. pose proof (lo_n _ _ HL) as Hn.
  unfold LOGSIZE, MAXOPBLOCKS in *. split.
  - destruct (begin_op_idle _ _ _ _ _ _ _ A) as (s1 & E1 & A1); [done|rewrite Hn, Ho; unfold LOGSIZE, MAXOPBLOCKS; cbn; lia|].
    destruct (begin_op_idle _ _ _ _ _ _ _ A1) as (s2 & E2 & A2); [done|cbn; rewrite Hn, Ho; unfold LOGSIZE, MAXOPBLOCKS; cbn; lia|].
    destruct (begin_op_idle _ _ _ _ _ _ _ A2) as (s3 & E3 & lru & A3); [done|cbn; rewrite Hn, Ho; unfold LOGSIZE, MAXOPBLOCKS; cbn; lia|].
    exists s3. split; [unfold mbind, M_bind; rewrite E1; cbn [obind]; rewrite E2; cbn [obind]; exact E3|].
    rewrite (at_log _ _ _ _ _ _ _ _ _ A3). cbn. lia.
  - intros V d' w' L' s0' s' i bl A' HL' _ Hl. split; [lia|]. eapply log_write_full; [done|done|]. lia.
Qed.

(** A kernel that has just booted on the disk [d]: the cache is empty and
    [initlog] has set the fields of the log record. *)
Definition booted d s : Prop :=
  ∃ w L, fs_idle (disk_block d) (λ _, 0) d w L s s ∧
    L.(lg_dev) = dev ∧ L.(lg_start) = start ∧ length L.(lh_block) = 30%nat.

Lemma touched_elem bl us m : m ∈ touched bl us ↔ m ∈ bl ∨ m ∈ us.*1.
Proof.
  unfold touched. revert bl. induction us.*1 as [|n ns IH]; intros bl; simpl.
  - rewrite elem_of_nil. tauto.
  - rewrite IH, elem_log_add, elem_of_cons. tauto.
Qed.

Lemma touched_length bl us : (length (touched bl us) ≤ length bl + length us)%nat.
Proof.
  unfold touched. rewrite <-(length_fmap fst us). revert bl. induction us.*1 as [|n ns IH]; intros bl; simpl; [lia|].
  specialize (IH (log_add bl n)). pose proof (length_log_add bl n). lia.
Qed.

Lemma apply_untouched F us m : m ∉ us.*1 → apply_updates F us m = F m.
Proof.
  unfold apply_updates. revert F. induction us as [|u us IH]; intros F Hm; [done|]. cbn [foldl].
  cbn [fmap list_fmap] in Hm. apply not_elem_of_cons in Hm as [Hne Hm]. rewrite IH by done.
  by apply zupd_ne.
Qed.

Lemma committed_home F bl d m :
  fits size (length bl) → (∀ k, k ∉ bl → F k = disk_block d k) → ¬ in_log start size m →
  disk_block (store_all d (commit_stores start F bl)) m = F m.
Proof.
  intros Hf HF Hm. rewrite disk_block_store. unfold commit_stores.
  rewrite !over_app. cbn. rewrite zupd_ne by by eapply not_in_log_start.
  rewrite over_pairs. case_decide as Hb; [done|].
  rewrite zupd_ne by by eapply not_in_log_start.
  rewrite over_notin by (apply (log_keys_in_log start Hstart size F bl _ []); [done|by rewrite app_nil_r|done]).
  symmetry. by apply HF.
Qed.

Lemma apply_size us F :
  (∀ m, length (F m) = Z.to_nat BSIZE) → Forall home_update us →
  ∀ m, length (apply_updates F us m) = Z.to_nat BSIZE.
Proof.
  unfold apply_updates. revert F. induction us as [|u us IH]; intros F HF Hus; [done|].
  apply Forall_cons in Hus as [(_ & _ & Hu) Hus]. cbn [foldl]. apply IH; [|done].
  intros m. unfold apply_update, zupd. case_decide; [by apply Hu|done].
Qed.

Lemma idle_size F R d w L s0 s : fs_idle F R d w L s0 s → ∀ m, length (F m) = Z.to_nat BSIZE.
Proof. intros [lru A]. apply (bc_size _ _ _ _ (at_cache _ _ _ _ _ _ _ _ _ A)). Qed.

(** Wherever the machine stops among the stores [ws], recovery gives the contents
    of the disk [d], or [F]. *)
Definition crash_safe d (F : Z → list Z) (ws : list (Z * list Z)) : Prop :=
  ∀ pre s1, pre `prefix_of` ws → booted (store_all d pre) s1 →
    ∃ s2, recover_from_log s1 = Done tt s2 ∧
      ((∀ m, ¬ in_log start size m → disk_block (k_disk s2) m = disk_block d m) ∨
       (∀ m, ¬ in_log start size m → disk_block (k_disk s2) m = F m)).

(** The last [end_op] commits the transaction. *)
Lemma end_op_atomic F bl d w L s0 s :
  tx_open F bl d w L s0 s → L.(lg_outstanding) = 1 → bl ≠ [] → (length bl < NBUF)%nat → addresses bl →
  hd_n (disk_block d start) = 0 →
  ∃ s' L' ws, end_op s = Done tt s' ∧ fs_idle (disk_block (store_all d ws)) (λ _, 0) (store_all d ws) (w ++ ws) L' s0 s' ∧
    log_has L' [] ∧ L'.(lg_outstanding) = 0 ∧ hd_n (disk_block (store_all d ws) start) = 0 ∧
    (∀ m, ¬ in_log start size m → disk_block (store_all d ws) m = F m) ∧ crash_safe d F ws.
Proof.
  intros T Ho Hne Hlen Hr Hold. destruct (end_op_last F bl d w L s0 s T Ho Hne Hlen) as (s' & L' & E & I & HL' & Ho').
  pose proof T as [I0 HL _]. pose proof (idle_size _ _ _ _ _ _ _ I0) as HF. pose proof (ll_len _ _ _ _ _ _ (lo_lists _ _ HL)) as Hf. simpl in Hf.
  assert (Hclean : ∀ k, k ∉ bl → F k = disk_block d k).
  { intros k Hk. destruct I0 as [lru A]. rewrite <-(at_disk _ _ _ _ _ _ _ _ _ A). apply (bc_clean _ _ _ _ (at_cache _ _ _ _ _ _ _ _ _ A)).
    cbn. unfold pinned. by rewrite decide_False. }
  exists s', L', (commit_stores start F bl). split_and!; try done.
  - unfold commit_stores. rewrite disk_block_store, !over_app. cbn [over foldl fst snd]. rewrite zupd_eq.
    apply (head_bytes_n []); [apply length_head_bytes; [done|by eapply fits_30]|simpl; lia].
  - intros m Hm. by apply committed_home.
  - intros pre s1 Hp (w1 & L1 & I1 & I2 & I3 & I4).
    destruct (crash_atomic p pid dev start Hstart size Hsize F d bl pre w1 L1 s1) as (s2 & E2 & Ho2); try done.
    { apply (lo_nodup _ _ HL). }
    { intros b Hb. split; [by apply (ll_home _ _ _ _ _ _ (lo_lists _ _ HL))|by apply Hr]. }
    exists s2. split; [done|]. destruct Ho2 as [Ho2|Ho2]; [by left|right].
    intros m Hm. rewrite (Ho2 m Hm). case_decide as Hb; [done|]. symmetry. by apply Hclean.
Qed.

(** C1: Transactions are atomic and crash-safe.  On an idle file system whose
    on-disk log is empty, a transaction of at most [MAXOPBLOCKS] updates of
    blocks outside the log ([begin_op]; read, modify, [log_write] and [brelse]
    each; [end_op]) returns, and every block outside the log then has on the
    disk the contents that the updates give it.  Wherever the machine stops
    among the stores that the transaction made, [recover_from_log] on the disk
    as it is then returns with every block as before the transaction, or every
    block as after it. *)
Theorem transaction_atomic us d w L s0 s :
  fs_idle (disk_block d) (λ _, 0) d w L s0 s → log_has L [] → L.(lg_outstanding) = 0 →
  hd_n (disk_block d start) = 0 →
  us ≠ [] → Forall home_update us → (Z.of_nat (length us) ≤ MAXOPBLOCKS) → MAXOPBLOCKS < size →
  let F := apply_updates (disk_block d) us in
  ∃ s' ws, transaction us s = Done tt s' ∧ k_dwrites s' = w ++ ws ∧
    (∀ m, ¬ in_log start size m → disk_block (k_disk s') m = F m) ∧
    crash_safe d F ws.
Proof.
  intros A HL Ho Hold Hne Hus Hlen Hsz F. unfold MAXOPBLOCKS in Hlen, Hsz. destruct (begin_op_open d w L s0 s A HL Ho) as (s1 & E1 & T1).
  destruct (updates_open us _ [] _ _ _ _ _ T1 Hus) as (s2 & L2 & E2 & T2 & O2); [unfold fits; simpl; lia|unfold NBUF; simpl; lia|].
  pose proof (touched_length [] us) as Hl. simpl in Hl. assert (He : ∀ m, m ∈ touched [] us ↔ m ∈ us.*1).
  { intros m. rewrite touched_elem, elem_of_nil. tauto. }
  destruct (end_op_atomic F (touched [] us) d w L2 s0 s2 T2) as (s3 & L3 & ws & E3 & [lru A3] & _ & _ & _ & Hd & Hc); try done.
  - intros E. destruct us as [|u us']; [done|]. apply (not_elem_of_nil u.1). rewrite <-E, He. apply list_elem_of_here.
  - unfold NBUF. lia.
  - intros b Hb. rewrite He in Hb. apply list_elem_of_fmap in Hb as (u & -> & Hu). rewrite Forall_forall in Hus. by destruct (Hus u Hu).
  - exists s3, ws. split_and!; [|apply A3|by rewrite (at_disk _ _ _ _ _ _ _ _ _ A3)|exact Hc].
    unfold transaction, mbind, M_bind. rewrite E1. cbn [obind]. rewrite E2. cbn [obind]. exact E3.
Qed.

Lemma fframe_refl s : fframe p s s.
Proof.
  unfold fframe. assert (E : set_k_log s.(k_log) s = s) by by destruct s. rewrite E. reflexivity.
Qed.

Lemma idle_set_log d l s :
  calm [] s → bcache pid dev (view0 d) s → s.(k_disk) = d →
  fs_idle (disk_block d) (λ _, 0) d s.(k_dwrites) l (set_k_log l s) (set_k_log l s).
Proof.
  intros C B Ed. exists (reverse (seq 0 NBUF)). split; [by eapply calm_upd| |by kproj..|apply fframe_refl].
  by eapply bcache_ext.
Qed.

End LogSpec.

(** ** A concrete file system: an empty disk with the log of [mkfs] *)

Definition log_mkfs : log := set_lg_dev 1 (set_lg_start 2 (set_lg_size 30 log0)).
Definition fs_ready : kstate := set_k_log log_mkfs (fs0 ∅).

Lemma fs_log_idle l :
  fs_idle 3 7 1 (disk_block ∅) (λ _, 0) ∅ [] l (set_k_log l (fs0 ∅)) (set_k_log l (fs0 ∅)).
Proof.
  rewrite <-(fs0_writes ∅). apply idle_set_log; [apply fs0_calm|apply fs0_bcache, disk_empty|apply fs0_disk].
Qed.

Lemma fs_ready_idle : fs_idle 3 7 1 (disk_block ∅) (λ _, 0) ∅ [] log_mkfs fs_ready fs_ready.
Proof. apply fs_log_idle. Qed.

Lemma log_mkfs_has : log_has 1 2 30 log_mkfs [].
Proof.
  split; try done; [|constructor]. split; try done. intros b Hb. by apply elem_of_nil in Hb.
Qed.

Lemma transaction_atomic_witness :
  ∃ s' ws s2, @transaction _ ideal_disk 1 [(40, λ x, <[0%nat := 1]> x)] fs_ready = Done tt s' ∧
    k_dwrites s' = ws ∧ @recover_from_log _ ideal_disk fs_ready = Done tt s2.
Proof.
  destruct (@transaction_atomic _ ideal_disk _ 3 7 1 2 ltac:(lia) 30 ltac:(unfold LOGSIZE, MAXOPBLOCKS; lia)
    [(40, λ x, <[0%nat := 1]> x)] ∅ [] log_mkfs fs_ready fs_ready) as (s' & ws & E & Ew & _ & Hc).
  - apply fs_ready_idle.
  - apply log_mkfs_has.
  - reflexivity.
  - vm_compute. reflexivity.
  - done.
  - repeat constructor; cbn; try lia; [unfold in_log; lia|]. intros x. by rewrite length_insert.
  - cbn. unfold MAXOPBLOCKS. lia.
  - unfold MAXOPBLOCKS. lia.
  - destruct (Hc [] fs_ready) as (s2 & E2 & _).
    + apply prefix_nil.
    + exists [], log_mkfs. exact (conj fs_ready_idle (conj eq_refl (conj eq_refl eq_refl))).
    + exists s', ws, s2. exact (conj E (conj Ew E2)).
Defined.

(** One operation outstanding; and 29 blocks logged by three of them. *)
Definition log_one : log := set_lg_outstanding 1 log_mkfs.
Definition blocks29 : list Z := (λ i, 100 + Z.of_nat i) <$> seq 0 29.
Definition log_29 : log :=
  set_lh_n 29 (set_lh_block (blocks29 ++ [0]) (set_lg_outstanding 3 log_mkfs)).

Lemma log_one_has : log_has 1 2 30 log_one [].
Proof.
  split; try done; [|constructor]. split; try done. intros b Hb. by apply elem_of_nil in Hb.
Qed.

Lemma log_29_has : log_has 1 2 30 log_29 blocks29.
Proof.
  split; try done.
  - split; try done.
    + intros t b Hb. by apply lookup_app_l_Some.
    + intros b (i & -> & _)%list_elem_of_fmap. unfold in_log. lia.
  - apply NoDup_fmap_2; [intros x y; lia|apply NoDup_seq].
Qed.

Lemma log_write_spec_witness :
  ∃ i s s' L', @bread _ ideal_disk 1 40 (set_k_log log_one (fs0 ∅)) = Done i s ∧
    log_write i s = Done tt s' ∧ log_has 1 2 30 L' [40].
Proof.
  destruct (fs_log_idle log_one) as [lru A].
  destruct (@at_bread _ ideal_disk _ 3 7 1 _ _ _ _ _ _ 40 A) as (i & s & E & _ & A1).
  - intros i. cbn [bv_held]. by rewrite lookup_empty.
  - apply (view0_room 40).
  - cbn. lia.
  - pose proof (lookup_insert_eq (∅ : gmap nat Z) i 40) as Hh.
    destruct (log_write_spec 3 7 1 2 ltac:(lia) 30 ltac:(unfold LOGSIZE, MAXOPBLOCKS; lia) _ _ _ _ _ _ i 40 [] A1 Hh)
      as (s' & L' & E' & HL & _).
    + cbn. rewrite zupd_eq. lia.
    + apply log_one_has.
    + unfold in_log. lia.
    + exists i, s, s', L'. exact (conj E (conj E' HL)).
Defined.

Lemma begin_op_overcommits_witness :
  (∃ s', (begin_op;; begin_op;; begin_op) fs_ready = Done tt s' ∧ lg_outstanding (k_log s') = 3) ∧
  ∃ s'', log_write 0 (set_k_log log_29 (fs0 ∅)) = Panic "too big a transaction" s''.
Proof.
  destruct (begin_op_overcommits 3 7 1 2 ltac:(lia) 30 _ _ _ _ _ _ _
    ltac:(reflexivity) fs_ready_idle log_mkfs_has ltac:(reflexivity)) as [H1 H2].
  split; [exact H1|]. destruct (fs_log_idle log_29) as [lru A].
  destruct (H2 _ _ _ _ _ _ 0%nat blocks29 A log_29_has) as [_ H3]; [reflexivity|reflexivity|exact H3].
Defined.
