(* ===== verification/Fs.v ===== *)
(** * The file system: blocks, inodes, directories, paths ([kernel/fs.c])

    The layers above the buffer cache and the log.  A [struct inode *] is an
    index of [k_inodes]; a null pointer is [None].  On-disk structures
    ([struct superblock], [struct dinode], [struct dirent] of [kernel/fs.h])
    are bytes of a block at the offsets of the C structs. *)

From S2P Require Import Prelude State Spinlock Cstring Riscv Kalloc Vm Proc ProcFacts Sleeplock Bio.
From S2P Require Import Log.

(** ** Constants ([kernel/fs.h], [kernel/stat.h]) *)

Definition ROOTINO : Z := 1.
Definition FSMAGIC : Z := 0x10203040.
Definition NDIRECT : nat := 12.
Definition NINDIRECT : nat := 256.
Definition MAXFILE : Z := 268.
Definition dinode_size : nat := 64.
Definition IPB : Z := BSIZE / 64.
Definition BPB : Z := BSIZE * 8.
Definition DIRSIZ : nat := 14.
Definition dirent_size : Z := 16.

Definition IBLOCK (i : Z) (sb : superblock) : Z := u32 (i / IPB + sb.(sb_inodestart)).
Definition BBLOCK (b : Z) (sb : superblock) : Z := u32 (b / BPB + sb.(sb_bmapstart)).

Definition T_DIR : Z := 1.
Definition T_FILE : Z := 2.
Definition T_DEVICE : Z := 3.

(** ** On-disk structures *)

Definition sb_decode (d : list Z) : superblock :=
  mk_superblock (get_le 4 0 d) (get_le 4 4 d) (get_le 4 8 d) (get_le 4 12 d)
    (get_le 4 16 d) (get_le 4 20 d) (get_le 4 24 d) (get_le 4 28 d).

(** [(struct dinode * )bp->data + inum % IPB] *)
Definition dinode_off (inum : Z) : nat := dinode_size * Z.to_nat (inum mod IPB).

(** The fields of the [struct dinode] at offset [o], copied to an inode. *)
Definition dinode_load (o : nat) (d : list Z) (ip : inode) : inode :=
  mk_inode ip.(i_dev) ip.(i_inum) ip.(i_ref) ip.(i_valid)
    (s16 (get_le 2 o d)) (s16 (get_le 2 (o + 2) d)) (s16 (get_le 2 (o + 4) d))
    (s16 (get_le 2 (o + 6) d)) (get_le 4 (o + 8) d)
    ((λ k, get_le 4 (o + 12 + 4 * k) d) <$> seq 0 (S NDIRECT)).

(** The bytes of the [struct dinode] of an inode. *)
Definition dinode_bytes (ip : inode) : list Z :=
  le_bytes 2 ip.(i_type) ++ le_bytes 2 ip.(i_major) ++ le_bytes 2 ip.(i_minor) ++
  le_bytes 2 ip.(i_nlink) ++ le_bytes 4 ip.(i_size) ++ mjoin (le_bytes 4 <$> ip.(i_addrs)).

Section Fs.
Context {HK : KernelImage} {WB : WaitBound} {BD : BlockDev}.

(** ** Super block *)

Definition readsb (dev : Z) : M kstate unit :=
  bp ← bread dev 1;
  d ← buf_get bp b_data;
  modify (set_k_sb (sb_decode d));;
  brelse bp.

Definition fsinit (dev : Z) : M kstate unit :=
  readsb dev;;
  sb ← gets k_sb;
  if negb (sb.(sb_magic) =? FSMAGIC) then panic "invalid file system" else
  initlog dev.

(** ** Blocks *)

Definition bzero (dev bno : Z) : M kstate unit :=
  bp ← bread dev bno;
  buf_set bp (set_b_data (replicate (Z.to_nat BSIZE) 0));;
  log_write bp;;
  brelse bp.

(** [bp->data[bi/8]] and its bit [bi % 8] *)
Definition bit_byte (bi : Z) (d : list Z) : Z := default 0 (d !! Z.to_nat (bi / 8)).
Definition bit_mask (bi : Z) : Z := Z.shiftl 1 (bi mod 8).
Definition bit_set (bi : Z) (d : list Z) : list Z :=
  <[Z.to_nat (bi / 8) := u8 (Z.lor (bit_byte bi d) (bit_mask bi))]> d.
Definition bit_clear (bi : Z) (d : list Z) : list Z :=
  <[Z.to_nat (bi / 8) := u8 (Z.land (bit_byte bi d) (Z.lnot (bit_mask bi)))]> d.

(** One bit of a block of the bitmap. *)
Definition balloc_bit (dev b : Z) (bp : nat) (bi : Z) : M kstate (option Z) :=
  d ← buf_get bp b_data;
  if Z.land (bit_byte bi d) (bit_mask bi) =? 0 then
    buf_set bp (λ x, set_b_data (bit_set bi x.(b_data)) x);;
    log_write bp;;
    brelse bp;;
    bzero dev (b + bi);;
    mret (Some (b + bi))
  else mret None.

(** The search of one block of the bitmap. *)
Definition balloc_block (dev b : Z) : M kstate (option Z) :=
  sb ← gets k_sb;
  bp ← bread dev (BBLOCK b sb);
  r ← for_find (Z.of_nat <$> seq 0 (Z.to_nat (Z.min BPB (sb.(sb_size) - b)))) (balloc_bit dev b bp);
  match r with
  | Some v => mret (Some v)
  | None => brelse bp;; mret None
  end.

Definition balloc (dev : Z) : M kstate Z :=
  sb ← gets k_sb;
  r ← for_find ((λ k, Z.of_nat k * BPB) <$> seq 0 (Z.to_nat ((sb.(sb_size) + BPB - 1) / BPB)))
        (balloc_block dev);
  match r with
  | Some v => mret v
  | None => printf "balloc: out of blocks\n" [];; mret 0
  end.

Definition bfree (dev b : Z) : M kstate unit :=
  sb ← gets k_sb;
  bp ← bread dev (BBLOCK b sb);
  let bi := b mod BPB in
  d ← buf_get bp b_data;
  if Z.land (bit_byte bi d) (bit_mask bi) =? 0 then panic "freeing free block" else
  buf_set bp (λ x, set_b_data (bit_clear bi x.(b_data)) x);;
  log_write bp;;
  brelse bp.

(** ** Inodes *)

Definition iinit : M kstate unit :=
  initlock L_itable "itable";;
  for_each (seq 0 NINODE) (λ i, initsleeplock (SL_inode i) "inode").

(** One entry of the scan of [iget]; the local variable is [empty]. *)
Definition iget_visit (dev inum : Z) (ip : nat) (empty : option nat)
    : M kstate (option nat + nat) :=
  r ← inode_get ip i_ref;
  d ← inode_get ip i_dev;
  n ← inode_get ip i_inum;
  if (0 <? r) && (d =? dev) && (n =? inum) then
    inode_set ip (λ x, set_i_ref (x.(i_ref) + 1) x);;
    release L_itable;;
    mret (inr ip)
  else mret (inl (if empty is None then if r =? 0 then Some ip else None else empty)).

Definition iget (dev inum : Z) : M kstate nat :=
  acquire L_itable;;
  r ← for_acc (seq 0 NINODE) None (iget_visit dev inum);
  match r with
  | inr ip => mret ip
  | inl None => panic "iget: no inodes"
  | inl (Some ip) =>
      inode_set ip (set_i_dev dev);;
      inode_set ip (set_i_inum inum);;
      inode_set ip (set_i_ref 1);;
      inode_set ip (set_i_valid false);;
      release L_itable;;
      mret ip
  end.

(** One inode number of the search of [ialloc]. *)
Definition ialloc_visit (dev type inum : Z) : M kstate (option nat) :=
  sb ← gets k_sb;
  bp ← bread dev (IBLOCK inum sb);
  d ← buf_get bp b_data;
  let dip := dinode_off inum in
  if get_le 2 dip d =? 0 then
    buf_set bp (λ x, set_b_data (splice dip (replicate dinode_size 0) x.(b_data)) x);;
    buf_set bp (λ x, set_b_data (put_le 2 dip type x.(b_data)) x);;
    log_write bp;;
    brelse bp;;
    ip ← iget dev inum;
    mret (Some ip)
  else brelse bp;; mret None.

Definition ialloc (dev type : Z) : M kstate (option nat) :=
  sb ← gets k_sb;
  r ← for_find (Z.of_nat <$> seq 1 (Z.to_nat (sb.(sb_ninodes) - 1))) (ialloc_visit dev type);
  match r with
  | Some ip => mret (Some ip)
  | None => printf "ialloc: no inodes\n" [];; mret None
  end.

Definition iupdate (ip : nat) : M kstate unit :=
  dev ← inode_get ip i_dev;
  inum ← inode_get ip i_inum;
  sb ← gets k_sb;
  bp ← bread dev (IBLOCK inum sb);
  x ← inode_get ip id;
  buf_set bp (λ b, set_b_data (splice (dinode_off inum) (dinode_bytes x) b.(b_data)) b);;
  log_write bp;;
  brelse bp.

Definition idup (ip : nat) : M kstate nat :=
  acquire L_itable;;
  inode_set ip (λ x, set_i_ref (x.(i_ref) + 1) x);;
  release L_itable;;
  mret ip.

Definition ilock (ip : option nat) : M kstate unit :=
  match ip with
  | None => panic "ilock"
  | Some ip =>
      r ← inode_get ip i_ref;
      if r <? 1 then panic "ilock" else
      acquiresleep (SL_inode ip);;
      v ← inode_get ip i_valid;
      if v : bool then mret tt else
      dev ← inode_get ip i_dev;
      inum ← inode_get ip i_inum;
      sb ← gets k_sb;
      bp ← bread dev (IBLOCK inum sb);
      d ← buf_get bp b_data;
      inode_set ip (dinode_load (dinode_off inum) d);;
      brelse bp;;
      inode_set ip (set_i_valid true);;
      t ← inode_get ip i_type;
      if t =? 0 then panic "ilock: no type" else mret tt
  end.

Definition iunlock (ip : option nat) : M kstate unit :=
  match ip with
  | None => panic "iunlock"
  | Some ip =>
      h ← holdingsleep (SL_inode ip);
      if negb h then panic "iunlock" else
      r ← inode_get ip i_ref;
      if r <? 1 then panic "iunlock" else
      releasesleep (SL_inode ip)
  end.

(** ** Inode content *)

(** [ip->addrs[k]] *)
Definition addr_get (ip k : nat) : M kstate Z :=
  a ← inode_get ip i_addrs; opt_or_fault (a !! k).
Definition addr_set (ip k : nat) (v : Z) : M kstate unit :=
  inode_set ip (λ x, set_i_addrs (<[k:=v]> x.(i_addrs)) x).

Definition bmap (ip : nat) (bn : Z) : M kstate Z :=
  dev ← inode_get ip i_dev;
  if bn <? Z.of_nat NDIRECT then
    addr ← addr_get ip (Z.to_nat bn);
    if addr =? 0 then
      addr ← balloc dev;
      if addr =? 0 then mret 0 else
      addr_set ip (Z.to_nat bn) addr;; mret addr
    else mret addr
  else
  let bn := bn - Z.of_nat NDIRECT in
  if bn <? Z.of_nat NINDIRECT then
    addr ← addr_get ip NDIRECT;
    ind ← (if addr =? 0 then
             addr ← balloc dev;
             if addr =? 0 then mret 0 else
             addr_set ip NDIRECT addr;; mret addr
           else mret addr);
    if ind =? 0 then mret 0 else
    bp ← bread dev ind;
    d ← buf_get bp b_data;
    let addr := get_le 4 (4 * Z.to_nat bn) d in
    addr ← (if addr =? 0 then
              addr ← balloc dev;
              (if negb (addr =? 0) then
                 buf_set bp (λ x, set_b_data (put_le 4 (4 * Z.to_nat bn) addr x.(b_data)) x);;
                 log_write bp
               else mret tt);;
              mret addr
            else mret addr);
    brelse bp;;
    mret addr
  else panic "bmap: out of range".

Definition itrunc (ip : nat) : M kstate unit :=
  dev ← inode_get ip i_dev;
  for_each (seq 0 NDIRECT) (λ i,
    a ← addr_get ip i;
    if negb (a =? 0) then bfree dev a;; addr_set ip i 0 else mret tt);;
  ind ← addr_get ip NDIRECT;
  (if negb (ind =? 0) then
     bp ← bread dev ind;
     for_each (seq 0 NINDIRECT) (λ j,
       d ← buf_get bp b_data;
       let a := get_le 4 (4 * j) d in
       if negb (a =? 0) then bfree dev a else mret tt);;
     brelse bp;;
     ind ← addr_get ip NDIRECT;
     bfree dev ind;;
     addr_set ip NDIRECT 0
   else mret tt);;
  inode_set ip (set_i_size 0);;
  iupdate ip.

Definition iput (ip : nat) : M kstate unit :=
  acquire L_itable;;
  r ← inode_get ip i_ref;
  v ← inode_get ip i_valid;
  n ← inode_get ip i_nlink;
  (if (r =? 1) && v && (n =? 0) then
     acquiresleep (SL_inode ip);;
     release L_itable;;
     itrunc ip;;
     inode_set ip (set_i_type 0);;
     iupdate ip;;
     inode_set ip (set_i_valid false);;
     releasesleep (SL_inode ip);;
     acquire L_itable
   else mret tt);;
  inode_set ip (λ x, set_i_ref (x.(i_ref) - 1) x);;
  release L_itable.

Definition iunlockput (ip : nat) : M kstate unit :=
  iunlock (Some ip);;
  iput ip.

(** [struct stat] ([kernel/stat.h]) *)
Record stat : Type := mk_stat {
  st_dev : Z; st_ino : Z; st_type : Z; st_nlink : Z; st_size : Z
}.

Definition stati (ip : nat) : M kstate stat :=
  x ← inode_get ip id;
  mret (mk_stat (s32 x.(i_dev)) x.(i_inum) x.(i_type) x.(i_nlink) x.(i_size)).

(** [dst + m], [src + m] *)
Definition dest_add (dst : dest) (m : Z) : dest :=
  match dst with
  | D_user va => D_user (u64 (va + m))
  | D_phys pa => D_phys (pa + m)
  | D_local => D_local
  end.

Definition source_add (src : source) (m : Z) : source :=
  match src with
  | S_user va => S_user (u64 (va + m))
  | S_local bs => S_local (drop (Z.to_nat m) bs)
  end.

(** Enough iterations: all but the first and the last transfer a whole block. *)
Definition io_fuel (n : Z) : nat := Z.to_nat (n / BSIZE + 3).

(** [bp->data + off % BSIZE], [m] bytes *)
Definition block_bytes (d : list Z) (off m : Z) : list Z :=
  take (Z.to_nat m) (drop (Z.to_nat (off mod BSIZE)) d).

(** The loop variables are [tot], [off], [dst] and the bytes delivered to a
    local variable of the caller. *)
Definition readi_body (ip : nat) (n : Z) (x : Z * Z * dest * list Z)
    : M kstate (Z * Z * dest * list Z + Z * list Z) :=
  let '(tot, off, dst, got) := x in
  if negb (tot <? n) then mret (inr (tot, got)) else
  addr ← bmap ip (off / BSIZE);
  if addr =? 0 then mret (inr (tot, got)) else
  dev ← inode_get ip i_dev;
  bp ← bread dev addr;
  let m := Z.min (n - tot) (BSIZE - off mod BSIZE) in
  d ← buf_get bp b_data;
  r ← either_copyout dst (block_bytes d off m) m;
  if r =? -1 then brelse bp;; mret (inr (-1, got)) else
  brelse bp;;
  mret (inl (tot + m, off + m, dest_add dst m, got ++ block_bytes d off m)).

Definition readi (ip : nat) (dst : dest) (off n : Z) : M kstate (Z * list Z) :=
  size ← inode_get ip i_size;
  if (size <? off) || (u32 (off + n) <? off) then mret (0, []) else
  let n := if size <? u32 (off + n) then size - off else n in
  loop (io_fuel n) (readi_body ip n) (0, off, dst, []).

(** The loop variables are [tot], [off] and [src]; a failed copy leaves the
    bytes copied so far in the buffer. *)
Definition writei_body (ip : nat) (n : Z) (x : Z * Z * source)
    : M kstate (Z * Z * source + Z * Z) :=
  let '(tot, off, src) := x in
  if negb (tot <? n) then mret (inr (tot, off)) else
  addr ← bmap ip (off / BSIZE);
  if addr =? 0 then mret (inr (tot, off)) else
  dev ← inode_get ip i_dev;
  bp ← bread dev addr;
  let m := Z.min (n - tot) (BSIZE - off mod BSIZE) in
  r ← either_copyin src m;
  let '(st, bs) := r in
  buf_set bp (λ x, set_b_data (splice (Z.to_nat (off mod BSIZE)) bs x.(b_data)) x);;
  if st =? -1 then brelse bp;; mret (inr (tot, off)) else
  log_write bp;;
  brelse bp;;
  mret (inl (tot + m, off + m, source_add src m)).

Definition writei (ip : nat) (src : source) (off n : Z) : M kstate Z :=
  size ← inode_get ip i_size;
  if (size <? off) || (u32 (off + n) <? off) then mret (-1) else
  if MAXFILE * BSIZE <? u32 (off + n) then mret (-1) else
  r ← loop (io_fuel n) (writei_body ip n) (0, off, src);
  let '(tot, off) := r in
  size ← inode_get ip i_size;
  (if size <? off then inode_set ip (set_i_size off) else mret tt);;
  iupdate ip;;
  mret tot.

(** ** Directories *)

(** Strings are lists of bytes; a scan that leaves the list is a fault. *)
Definition namecmp (s t : list Z) : option Z := strncmp s t DIRSIZ.

(** [struct dirent]: [inum] and [name] *)
Definition de_inum (de : list Z) : Z := get_le 2 0 de.
Definition de_name (de : list Z) : list Z := drop 2 de.
Definition dirent_bytes (inum : Z) (name : list Z) : list Z := le_bytes 2 inum ++ name.

Definition dir_fuel (size : Z) : nat := Z.to_nat (size / dirent_size + 2).

(** One entry of the search: the inode and the value of [*poff]. *)
Definition dirlookup_body (dp : nat) (name : list Z) (off : Z) : M kstate (Z + option (nat * Z)) :=
  size ← inode_get dp i_size;
  if negb (off <? size) then mret (inr None) else
  r ← readi dp D_local off dirent_size;
  let '(k, de) := r in
  if negb (k =? dirent_size) then panic "dirlookup read" else
  if de_inum de =? 0 then mret (inl (u32 (off + dirent_size))) else
  c ← opt_or_fault (namecmp name (de_name de));
  if c =? 0 then
    dev ← inode_get dp i_dev;
    ip ← iget dev (de_inum de);
    mret (inr (Some (ip, off)))
  else mret (inl (u32 (off + dirent_size))).

Definition dirlookup (dp : nat) (name : list Z) : M kstate (option (nat * Z)) :=
  t ← inode_get dp i_type;
  if negb (t =? T_DIR) then panic "dirlookup not DIR" else
  size ← inode_get dp i_size;
  loop (dir_fuel size) (dirlookup_body dp name) 0.

(** One entry of the search for an empty one. *)
Definition dirlink_body (dp : nat) (off : Z) : M kstate (Z + Z) :=
  size ← inode_get dp i_size;
  if negb (off <? size) then mret (inr off) else
  r ← readi dp D_local off dirent_size;
  let '(k, de) := r in
  if negb (k =? dirent_size) then panic "dirlink read" else
  if de_inum de =? 0 then mret (inr off) else
  mret (inl (u32 (off + dirent_size))).

Definition dirlink (dp : nat) (name : list Z) (inum : Z) : M kstate Z :=
  r ← dirlookup dp name;
  match r with
  | Some (ip, _) => iput ip;; mret (-1)
  | None =>
      size ← inode_get dp i_size;
      off ← loop (dir_fuel size) (dirlink_body dp) 0;
      nm ← opt_or_fault (strncpy name DIRSIZ);
      r ← writei dp (S_local (dirent_bytes inum nm)) off dirent_size;
      mret (if negb (r =? dirent_size) then -1 else 0)
  end.

(** ** Paths *)

Definition SLASH : Z := 47.

(** [while( *path == '/') path++;] *)
Fixpoint skip_slashes (path : list Z) : list Z :=
  match path with
  | c :: rest => if c =? SLASH then skip_slashes rest else path
  | [] => []
  end.

(** [while( *path != '/' && *path != 0) path++;]: what the loop passes over, and
    where it stops. *)
Fixpoint span_elem (path : list Z) : list Z * list Z :=
  match path with
  | c :: rest =>
      if (c =? SLASH) || (c =? 0) then ([], path)
      else let '(e, r) := span_elem rest in (c :: e, r)
  | [] => ([], [])
  end.

(** The result is the returned pointer ([None] for null) and the array [name].
    [None] as a whole: the scan ran past the end of the string. *)
Definition skipelem (path name : list Z) : option (option (list Z) * list Z) :=
  let path := skip_slashes path in
  match path with
  | [] => None
  | c :: _ =>
      if c =? 0 then Some (None, name) else
      let '(s, path) := span_elem path in
      let name := if (DIRSIZ <=? length s)%nat then splice 0 (take DIRSIZ s) name
                  else splice 0 (s ++ [0]) name in
      match skip_slashes path with
      | [] => None
      | path => Some (Some path, name)
      end
  end.

(** The loop variables are [path], [ip] and [name]. *)
Definition namex_body (nameiparent : bool) (x : list Z * nat * list Z)
    : M kstate (list Z * nat * list Z + option nat * list Z) :=
  let '(path, ip, name) := x in
  r ← opt_or_fault (skipelem path name);
  let '(next, name) := r in
  match next with
  | None =>
      if nameiparent then iput ip;; mret (inr (None, name)) else mret (inr (Some ip, name))
  | Some path =>
      ilock (Some ip);;
      t ← inode_get ip i_type;
      if negb (t =? T_DIR) then iunlockput ip;; mret (inr (None, name)) else
      c ← opt_or_fault (head path);
      if nameiparent && (c =? 0) then iunlock (Some ip);; mret (inr (Some ip, name)) else
      nx ← dirlookup ip name;
      match nx with
      | None => iunlockput ip;; mret (inr (None, name))
      | Some (nx, _) => iunlockput ip;; mret (inl (path, nx, name))
      end
  end.

Definition namex (path : list Z) (nameiparent : bool) (name : list Z)
    : M kstate (option nat * list Z) :=
  c ← opt_or_fault (head path);
  ip ← (if c =? SLASH then iget ROOTDEV ROOTINO
        else p ← curproc; cwd ← proc_get p p_cwd; cwd ← opt_or_fault cwd; idup cwd);
  loop (S (length path)) (namex_body nameiparent) (path, ip, name).

Definition namei (path : list Z) : M kstate (option nat) :=
  r ← namex path false (replicate DIRSIZ 0);
  mret r.1.

Definition nameiparent (path name : list Z) : M kstate (option nat * list Z) :=
  namex path true name.

End Fs.
