(* ===== verification/FsFacts.v ===== *)
(** * The block bitmap ([kernel/fs.c])

    [balloc] and [bfree] inside a transaction: the state is [tx_open] of
    LogSpec, so that their effect is on the logical contents [F] of the blocks
    and takes place on the disk when the transaction commits. *)

From S2P Require Import Prelude State Spinlock Cstring Riscv Kalloc Vm Proc ProcFacts Sleeplock.
From S2P Require Import Quiet Bio BioFacts BioSpec Log LogFacts LogSpec Fs.

(** ** Bits *)

(** Bit [bi] of a block of the bitmap is clear. *)
Definition clear (d : list Z) (bi : Z) : bool := Z.land (bit_byte bi d) (bit_mask bi) =? 0.

Lemma land_pow2 a k : 0 ≤ k → (Z.land a (2 ^ k) =? 0) = negb (Z.testbit a k).
Proof.
  intros Hk. destruct (Z.eqb_spec (Z.land a (2 ^ k)) 0) as [E|E].
  - apply (f_equal (λ z, Z.testbit z k)) in E.
    rewrite Z.land_spec, Z.bits_0, Z.pow2_bits_eqb, Z.eqb_refl, andb_true_r in E by done. by rewrite E.
  - destruct (Z.testbit a k) eqn:Et; [done|]. destruct E. apply Z.bits_inj'. intros n Hn.
    rewrite Z.land_spec, Z.bits_0, Z.pow2_bits_eqb by done.
    destruct (Z.eqb_spec k n) as [<-|]; [by rewrite Et|apply andb_false_r].
Qed.

Lemma clear_testbit d bi : clear d bi = negb (Z.testbit (bit_byte bi d) (bi mod 8)).
Proof. unfold clear, bit_mask. rewrite Z.shiftl_1_l. apply land_pow2. lia. Qed.

Definition bytes (d : list Z) : Prop := Forall (λ b, 0 ≤ b < 2 ^ 8) d.

Lemma bit_byte_range d bi : bytes d → 0 ≤ bit_byte bi d < 2 ^ 8.
Proof.
  intros Hd. unfold bit_byte. destruct (d !! _) as [b|] eqn:E; [|simpl; lia].
  by apply (Forall_lookup_1 _ _ _ _ Hd E).
Qed.

Lemma u8_bits x k : 0 ≤ k < 8 → Z.testbit (u8 x) k = Z.testbit x k.
Proof. intros Hk. unfold u8. apply Z.mod_pow2_bits_low. lia. Qed.

(** The byte of [bj] after a change of the byte of [bi]. *)
Lemma bit_byte_insert d bi bj v :
  0 ≤ bi → 0 ≤ bj → (Z.to_nat (bi / 8) < length d)%nat →
  bit_byte bj (<[Z.to_nat (bi / 8) := v]> d) = if decide (bi / 8 = bj / 8) then v else bit_byte bj d.
Proof.
  intros Hi Hj Hl. unfold bit_byte. case_decide as E.
  - by rewrite <-E, list_lookup_insert_eq.
  - rewrite list_lookup_insert_ne; [done|]. lia.
Qed.

(** [bit_set] and [bit_clear] change the one bit. *)
Lemma clear_bit_set d bi bj :
  0 ≤ bi → 0 ≤ bj → (Z.to_nat (bi / 8) < length d)%nat →
  clear (bit_set bi d) bj = if decide (bi = bj) then false else clear d bj.
Proof.
  intros Hi Hj Hl. rewrite !clear_testbit. unfold bit_set. rewrite bit_byte_insert by done.
  destruct (decide (bi = bj)) as [<-|Hne].
  - rewrite decide_True, u8_bits, Z.lor_spec by (done || lia). unfold bit_mask.
    rewrite Z.shiftl_1_l, Z.pow2_bits_eqb, Z.eqb_refl by lia. by rewrite orb_true_r.
  - case_decide as E; [|done]. rewrite u8_bits, Z.lor_spec by lia. unfold bit_mask.
    rewrite Z.shiftl_1_l, Z.pow2_bits_eqb, (proj2 (Z.eqb_neq _ _)), orb_false_r by lia.
    unfold bit_byte. by rewrite E.
Qed.

Lemma clear_bit_clear d bi bj :
  0 ≤ bi → 0 ≤ bj → (Z.to_nat (bi / 8) < length d)%nat →
  clear (bit_clear bi d) bj = if decide (bi = bj) then true else clear d bj.
Proof.
  intros Hi Hj Hl. rewrite !clear_testbit. unfold bit_clear. rewrite bit_byte_insert by done.
  destruct (decide (bi = bj)) as [<-|Hne].
  - rewrite decide_True, u8_bits, Z.land_spec, Z.lnot_spec by (done || lia). unfold bit_mask.
    rewrite Z.shiftl_1_l, Z.pow2_bits_eqb, Z.eqb_refl by lia. by rewrite andb_false_r.
  - case_decide as E; [|done]. rewrite u8_bits, Z.land_spec, Z.lnot_spec by lia. unfold bit_mask.
    rewrite Z.shiftl_1_l, Z.pow2_bits_eqb, (proj2 (Z.eqb_neq _ _)), andb_true_r by lia.
    unfold bit_byte. by rewrite E.
Qed.

Lemma length_bit_set bi d : length (bit_set bi d) = length d.
Proof. apply length_insert. Qed.
Lemma length_bit_clear bi d : length (bit_clear bi d) = length d.
Proof. apply length_insert. Qed.

(** ** [balloc] *)

Section FsFacts.
Context {HK : KernelImage} {WB : WaitBound} {BD : BlockDev} {BDok : BlockDevOk}.
Context (p : nat) (pid dev : Z) (start : Z) (Hstart : 0 ≤ start < 2 ^ 31).
Context (size : Z) (Hsize : 1 ≤ size ≤ LOGSIZE + 1).
Implicit Types (s : kstate) (d : gmap Z (list Z)) (w : list (Z * list Z)) (L : log).

Section Held.
(** The caller may keep a buffer locked, of a block that is neither free nor part
    of the bitmap. *)
Context (h : option (nat * Z)).
Local Abbreviation tx_open := (tx_with p pid dev start size h).
Local Abbreviation tx_hold := (hold_with p pid dev start size h).

Lemma tx_sb F bl d w L s0 s : tx_open F bl d w L s0 s → s.(k_sb) = s0.(k_sb).
Proof.
  intros [[lru A] _ _]. pose proof (at_frame _ _ _ _ _ _ _ _ _ A) as Fr. unfold fframe in Fr.
  rewrite (bframe_get p k_sb _ _ Fr) by done. by kproj.
Qed.

(** Block [b] is free according to the contents [F]. *)
Definition free_block (sb : superblock) (F : Z → list Z) (b : Z) : bool := clear (F (BBLOCK b sb)) (b mod BPB).

(** The contents after the allocation of [b]. *)
Definition zeros : list Z := replicate (Z.to_nat BSIZE) 0.
Definition alloc_block (sb : superblock) (F : Z → list Z) (b : Z) : Z → list Z :=
  zupd (zupd F (BBLOCK b sb) (bit_set (b mod BPB) (F (BBLOCK b sb)))) b zeros.

Lemma bzero_open F bl d w L s0 s b :
  tx_open F bl d w L s0 s → 0 ≤ b < 2 ^ 32 → ¬ in_log start size b → fits size (S (length bl)) →
  (taken h + length bl < NBUF)%nat → h ≫= (λ x, Some x.2) ≠ Some b →
  ∃ s' L', bzero dev b s = Done tt s' ∧ tx_open (zupd F b zeros) (log_add bl b) d w L' s0 s' ∧
    L'.(lg_outstanding) = L.(lg_outstanding).
Proof.
  intros T Hb Hl Hf Hn Hh. unfold bzero. destruct (bread_with p pid dev start Hstart size h F bl d w L s0 s b T Hn Hh) as (i & s1 & E1 & T1).
  rewrite (bind_Done _ _ _ _ _ E1). by apply (store_with p pid dev start Hstart size Hsize h i b (λ _, zeros) F bl d w L s0 s1).
Qed.

Lemma hold_size i n F bl d w L s0 s : tx_hold i n F bl d w L s0 s → ∀ m, length (F m) = Z.to_nat BSIZE.
Proof. intros [[lru A] _ _ _ _ _] m. pose proof (bc_size _ _ _ _ (at_cache _ _ _ _ _ _ _ _ _ A) m) as H. by destruct h as [[j k]|]. Qed.

Lemma balloc_bit_taken i bm b bi F bl d w L s0 s :
  tx_hold i bm F bl d w L s0 s → clear (F bm) bi = false → balloc_bit dev b i bi s = Done None s.
Proof.
  intros T Hc. unfold balloc_bit. rewrite (bind_Done _ _ _ _ _ (tx_read _ _ _ _ _ _ _ _ _ _ _ _ _ _ _ T)).
  unfold clear in Hc. by rewrite Hc.
Qed.

Lemma balloc_bit_free i bm b bi F bl d w L s0 s :
  tx_hold i bm F bl d w L s0 s → clear (F bm) bi = true → ¬ in_log start size bm → fits size (2 + length bl) →
  (2 + (taken h + length bl) < NBUF)%nat → 0 ≤ b + bi < 2 ^ 32 → ¬ in_log start size (b + bi) →
  h ≫= (λ x, Some x.2) ≠ Some (b + bi) →
  ∃ s' L', balloc_bit dev b i bi s = Done (Some (b + bi)) s' ∧
    tx_open (zupd (zupd F bm (bit_set bi (F bm))) (b + bi) zeros) (log_add (log_add bl bm) (b + bi)) d w L' s0 s' ∧
    L'.(lg_outstanding) = L.(lg_outstanding).
Proof.
  intros T Hc Hbm Hf Hn Hr Hl Hh. unfold balloc_bit.
  rewrite (bind_Done _ _ _ _ _ (tx_read _ _ _ _ _ _ _ _ _ _ _ _ _ _ _ T)). unfold clear in Hc. rewrite Hc.
  destruct (store_with p pid dev start Hstart size Hsize h i bm (bit_set bi) _ _ _ _ _ _ _ T) as (s1 & L1 & E1 & T1 & O1);
    [done|unfold fits in *; lia|by intros x; rewrite length_bit_set|].
  pose proof (length_log_add bl bm) as Hadd.
  destruct (bzero_open _ _ _ _ _ _ _ (b + bi) T1) as (s2 & L2 & E2 & T2 & O2);
    [done|done|unfold fits in *; lia|lia|done|].
  exists s2, L2. rewrite (seq3_Done _ _ _ _ _ _ E1), (bind_Done _ _ _ _ _ E2). split; [done|].
  split; [exact T2|congruence].
Qed.

(** A search that returns the first element with [good], when [step] is what
    the body does on it. *)
Lemma for_find_first {A R} (good : A → bool) (body : A → M kstate (option R)) l s :
  (∀ x, x ∈ l → good x = false → body x s = Done None s) →
  match list_find (λ x, good x = true) l with
  | None => for_find l body s = Done None s
  | Some (_, x) => ∀ v s', body x s = Done (Some v) s' → for_find l body s = Done (Some v) s'
  end.
Proof.
  induction l as [|y l IH]; intros Hl; [done|]. cbn [list_find for_find].
  destruct (decide (good y = true)) as [Hy|Hy].
  - intros v s' E. by rewrite (bind_Done _ _ _ _ _ E).
  - rewrite (bind_Done _ _ _ _ _ (Hl y (list_elem_of_here _ _) (not_true_is_false _ Hy))).
    specialize (IH (λ x Hx, Hl x (list_elem_of_further _ _ _ Hx))).
    by destruct (list_find (λ x, good x = true) l) as [[j x]|].
Qed.

Lemma bit_of_block k bi :
  0 ≤ bi < BPB → (Z.of_nat k * BPB + bi) / BPB = Z.of_nat k ∧ (Z.of_nat k * BPB + bi) mod BPB = bi.
Proof. unfold BPB, BSIZE. lia. Qed.

Lemma bblock_same k bi sb : 0 ≤ bi < BPB → BBLOCK (Z.of_nat k * BPB + bi) sb = BBLOCK (Z.of_nat k * BPB) sb.
Proof.
  intros Hbi. unfold BBLOCK. destruct (bit_of_block k bi Hbi) as [-> _].
  destruct (bit_of_block k 0) as [E _]; [unfold BPB, BSIZE; lia|]. rewrite Z.add_0_r in E. by rewrite E.
Qed.

(** The bitmap and the free blocks are outside the log. *)
Definition bitmap_home (sb : superblock) (F : Z → list Z) : Prop :=
  0 ≤ sb.(sb_size) < 2 ^ 32 ∧
  (∀ x, 0 ≤ x < sb.(sb_size) → ¬ in_log start size (BBLOCK x sb)) ∧
  (∀ x, 0 ≤ x < sb.(sb_size) → free_block sb F x = true → ¬ in_log start size x).

(** The locked buffer is of another block. *)
Definition apart (sb : superblock) (F : Z → list Z) : Prop :=
  ∀ x, h = Some x → (∀ y, 0 ≤ y < sb.(sb_size) → x.2 ≠ BBLOCK y sb) ∧ ∀ y, 0 ≤ y < sb.(sb_size) → free_block sb F y = true → x.2 ≠ y.

Lemma apart_bitmap sb F y : apart sb F → 0 ≤ y < sb.(sb_size) → h ≫= (λ x, Some x.2) ≠ Some (BBLOCK y sb).
Proof. unfold apart. destruct h as [x|]; [|done]. intros H Hy [= E]. by destruct (proj1 (H x eq_refl) y Hy). Qed.

Lemma apart_free sb F y : apart sb F → 0 ≤ y < sb.(sb_size) → free_block sb F y = true → h ≫= (λ x, Some x.2) ≠ Some y.
Proof. unfold apart. destruct h as [x|]; [|done]. intros H Hy Hf [= E]. by destruct (proj2 (H x eq_refl) y Hy Hf). Qed.

(** [x] is the first free block from [b] on. *)
Definition first_free (sb : superblock) (F : Z → list Z) (b x : Z) : Prop :=
  b ≤ x < sb.(sb_size) ∧ free_block sb F x = true ∧ ∀ y, b ≤ y < x → free_block sb F y = false.

Definition allocated (x : Z) (F : Z → list Z) (bl : list Z) d w L s0 s : Prop :=
  let sb := s0.(k_sb) in
  ∃ L', tx_open (alloc_block sb F x) (log_add (log_add bl (BBLOCK x sb)) x) d w L' s0 s ∧
    L'.(lg_outstanding) = L.(lg_outstanding).

Lemma balloc_block_open k F bl d w L s0 s :
  let sb := s0.(k_sb) in let b := Z.of_nat k * BPB in
  tx_open F bl d w L s0 s → bitmap_home sb F → apart sb F → b < sb.(sb_size) → fits size (2 + length bl) →
  (2 + (taken h + length bl) < NBUF)%nat →
  (∃ s', (∀ x, b ≤ x < Z.min (b + BPB) sb.(sb_size) → free_block sb F x = false) ∧
    balloc_block dev b s = Done None s' ∧ tx_open F bl d w L s0 s') ∨
  (∃ x s', first_free sb F b x ∧ balloc_block dev b s = Done (Some x) s' ∧ allocated x F bl d w L s0 s').
Proof.
  intros sb b T (Hsz & Hbm & Hfree) Hap Hb Hf Hn. unfold balloc_block.
  assert (Hb0 : 0 ≤ b) by (unfold b, BPB, BSIZE; lia).
  assert (Esb : gets k_sb s = Done sb s) by (unfold gets; by rewrite (tx_sb _ _ _ _ _ _ _ T)).
  rewrite (bind_Done _ _ _ _ _ Esb).
  destruct (bread_with p pid dev start Hstart size h _ _ _ _ _ _ _ (BBLOCK b sb) T) as (i & s1 & E1 & T1); [lia|eapply apart_bitmap; [exact Hap|lia]|].
  rewrite (bind_Done _ _ _ _ _ E1). set (n := Z.to_nat (Z.min BPB (sb_size sb - b))).
  assert (Hbi : ∀ bi : nat, (bi < n)%nat → 0 ≤ Z.of_nat bi < BPB ∧ b + Z.of_nat bi < sb.(sb_size)) by (unfold n; lia).
  assert (Hcl : ∀ bi : nat, (bi < n)%nat → clear (F (BBLOCK b sb)) (Z.of_nat bi) = free_block sb F (b + Z.of_nat bi)).
  { intros bi Hlt. destruct (Hbi bi Hlt) as [H1 _]. unfold free_block, b.
    by rewrite bblock_same, (proj2 (bit_of_block k _ H1)). }
  pose proof (for_find_first (clear (F (BBLOCK b sb))) (balloc_bit dev b i) (Z.of_nat <$> seq 0 n) s1
    (λ x _ Hx, balloc_bit_taken _ _ _ _ _ _ _ _ _ _ _ T1 Hx)) as Hfind.
  destruct (list_find _ _) as [[j x]|] eqn:El.
  - right. apply list_find_Some in El as (Hj & Hx & Hmin).
    rewrite list_lookup_fmap, fmap_Some in Hj. destruct Hj as (bi & Hj & ->). apply lookup_seq in Hj as [-> Hj]. cbn [Nat.add] in *.
    destruct (Hbi j Hj) as [H1 H2]. rewrite Hcl in Hx by done.
    destruct (balloc_bit_free i (BBLOCK b sb) b (Z.of_nat j) _ _ _ _ _ _ _ T1) as (s2 & L2 & E2 & T2 & O2);
      [by rewrite Hcl|apply Hbm; lia|done|done|lia|apply Hfree; [lia|done]|eapply apart_free; [exact Hap|lia|done]|].
    exists (b + Z.of_nat j), s2. rewrite (bind_Done _ _ _ _ _ (Hfind _ _ E2)). split; [|split; [done|]].
    + split; [lia|]. split; [done|]. intros y Hy. replace y with (b + Z.of_nat (Z.to_nat (y - b))) by lia. rewrite <-Hcl by lia.
      apply not_true_is_false. eapply (Hmin (Z.to_nat (y - b))); [|lia].
      rewrite list_lookup_fmap, lookup_seq_lt by lia. done.
    + exists L2. split; [|done]. fold sb. unfold alloc_block, b.
      by rewrite bblock_same, (proj2 (bit_of_block k _ H1)).
  - left. apply list_find_None in El. rewrite Forall_forall in El.
    destruct (brelse_with p pid dev start Hstart size h _ _ _ _ _ _ _ _ _ T1) as (s2 & E2 & T2). exists s2. split; [|split; [|done]].
    + intros y Hy. replace y with (b + Z.of_nat (Z.to_nat (y - b))) by lia. rewrite <-Hcl by lia.
      apply not_true_is_false, El, list_elem_of_fmap. exists (Z.to_nat (y - b)). split; [done|]. apply elem_of_seq. lia.
    + rewrite (bind_Done _ _ _ _ _ Hfind), (bind_Done _ _ _ _ _ E2). done.
Qed.

Definition nbitmap (sb : superblock) : nat := Z.to_nat ((sb.(sb_size) + BPB - 1) / BPB).

Lemma balloc_loop m k F bl d w L s0 s :
  let sb := s0.(k_sb) in
  tx_open F bl d w L s0 s → bitmap_home sb F → apart sb F → fits size (2 + length bl) → (2 + (taken h + length bl) < NBUF)%nat →
  (k + m)%nat = nbitmap sb →
  (∃ s', (∀ x, Z.of_nat k * BPB ≤ x < sb.(sb_size) → free_block sb F x = false) ∧
    for_find ((λ k, Z.of_nat k * BPB) <$> seq k m) (balloc_block dev) s = Done None s' ∧ tx_open F bl d w L s0 s') ∨
  (∃ x s', first_free sb F (Z.of_nat k * BPB) x ∧
    for_find ((λ k, Z.of_nat k * BPB) <$> seq k m) (balloc_block dev) s = Done (Some x) s' ∧
    allocated x F bl d w L s0 s').
Proof.
  intros sb T Hh Hap Hf Hn. revert k s T. induction m as [|m IH]; intros k s T Hkm.
  { left. exists s. split; [|done]. intros x Hx. exfalso. destruct Hh as [Hsz _].
    unfold nbitmap, BPB, BSIZE in *. lia. }
  cbn [seq fmap list_fmap for_find]. assert (Hk : Z.of_nat k * BPB < sb.(sb_size)).
  { destruct Hh as [Hsz _]. unfold nbitmap, BPB, BSIZE in *. lia. }
  destruct (balloc_block_open k F bl d w L s0 s T Hh Hap Hk Hf Hn) as [(s1 & H1 & E1 & T1)|(x & s1 & H1 & E1 & H2)];
    fold sb in H1; rewrite (bind_Done _ _ _ _ _ E1).
  - destruct (IH (S k) s1 T1) as [(s2 & H2 & E2 & T2)|(x & s2 & (X1 & X2 & X3) & E2 & A2)]; [lia|left|right].
    + exists s2. split; [|done]. intros x Hx. destruct (decide (x < Z.of_nat (S k) * BPB)); [apply H1|apply H2]; lia.
    + exists x, s2. split; [|done]. split; [unfold BPB, BSIZE in *; lia|]. split; [done|]. intros y Hy.
      destruct (decide (y < Z.of_nat (S k) * BPB)); [apply H1; lia|apply X3; lia].
  - right. by exists x, s1.
Qed.

Lemma fframe_out o s0 s : fframe p s0 s → fframe p (set_k_out o s0) (set_k_out o s).
Proof.
  intros Q. exact (bframe_upd p (set_k_out o) _ _ Q ltac:(done) ltac:(done) ltac:(done) ltac:(done) (proj2 Q)).
Qed.

Lemma tx_printf F bl d w L s0 s fmt args :
  tx_open F bl d w L s0 s →
  ∃ s', printf fmt args s = Done tt s' ∧
    tx_open F bl d w L (set_k_out (Printf fmt args :: s0.(k_out)) s0) s'.
Proof.
  intros [[lru [C B E1 E2 E3 Fr]] HL Ho]. eexists. split; [reflexivity|]. split; [|done|done]. exists lru.
  pose proof (bframe_get p k_out _ _ Fr (λ _ _ _ _ _ _ _ _, eq_refl)) as Eo. revert Eo. kproj. intros Eo.
  split; [by eapply calm_upd|by eapply bcache_ext|done|done|done|].
  rewrite <-Eo. by apply fframe_out.
Qed.

Lemma balloc_with F bl d w L s0 s :
  let sb := s0.(k_sb) in
  tx_open F bl d w L s0 s → bitmap_home sb F → apart sb F → fits size (2 + length bl) → (2 + (taken h + length bl) < NBUF)%nat →
  (∃ x s', first_free sb F 0 x ∧ balloc dev s = Done x s' ∧ allocated x F bl d w L s0 s') ∨
  (∃ s', (∀ x, 0 ≤ x < sb.(sb_size) → free_block sb F x = false) ∧ balloc dev s = Done 0 s' ∧
    tx_open F bl d w L (set_k_out (Printf "balloc: out of blocks\n" [] :: s0.(k_out)) s0) s').
Proof.
  intros sb T Hh Hap Hf Hn. unfold balloc.
  assert (Esb : gets k_sb s = Done sb s) by (unfold gets; by rewrite (tx_sb _ _ _ _ _ _ _ T)).
  rewrite (bind_Done _ _ _ _ _ Esb). fold (nbitmap sb).
  destruct (balloc_loop (nbitmap sb) 0 F bl d w L s0 s T Hh Hap Hf Hn eq_refl)
    as [(s1 & H1 & E1 & T1)|(x & s1 & H1 & E1 & A1)]; rewrite (bind_Done _ _ _ _ _ E1).
  - right. destruct (tx_printf _ _ _ _ _ _ _ "balloc: out of blocks\n" [] T1) as (s2 & E2 & T2).
    exists s2. split; [exact H1|]. by rewrite (bind_Done _ _ _ _ _ E2).
  - left. by exists x, s1.
Qed.

End Held.

Local Abbreviation tx_open := (tx_open p pid dev start size).
Local Abbreviation tx_hold := (tx_hold p pid dev start size).

(** C14: [balloc] inside a transaction.  With the bitmap and the free blocks
    outside the log and room for two more blocks in the log, it returns the
    lowest-numbered block whose bit in the bitmap is clear, having set that bit
    and zeroed the block (both logged, so that they commit together); if no bit
    is clear it says so, returns 0 and changes no block. *)
Theorem balloc_spec F bl d w L s0 s :
  let sb := s0.(k_sb) in
  tx_open F bl d w L s0 s → bitmap_home sb F → fits size (2 + length bl) → (2 + length bl < NBUF)%nat →
  (∃ x s', first_free sb F 0 x ∧ balloc dev s = Done x s' ∧ allocated None x F bl d w L s0 s') ∨
  (∃ s', (∀ x, 0 ≤ x < sb.(sb_size) → free_block sb F x = false) ∧ balloc dev s = Done 0 s' ∧
    tx_open F bl d w L (set_k_out (Printf "balloc: out of blocks\n" [] :: s0.(k_out)) s0) s').
Proof. intros sb T Hh Hf Hn. by apply balloc_with. Qed.

(** ** [bfree] *)

(** [bfree] inside a transaction clears the bit of an allocated block and no
    other bit, in the log; freeing a free block panics. *)
Theorem bfree_spec F bl d w L s0 s b :
  let sb := s0.(k_sb) in
  tx_open F bl d w L s0 s → ¬ in_log start size (BBLOCK b sb) → fits size (1 + length bl) →
  (1 + length bl < NBUF)%nat → 0 ≤ b < 2 ^ 32 →
  if free_block sb F b then ∃ s', bfree dev b s = Panic "freeing free block" s'
  else ∃ s' F' L', bfree dev b s = Done tt s' ∧ tx_open F' (log_add bl (BBLOCK b sb)) d w L' s0 s' ∧
    free_block sb F' b = true ∧ (∀ x, 0 ≤ x < 2 ^ 32 → x ≠ b → free_block sb F' x = free_block sb F x) ∧
    (∀ m, m ≠ BBLOCK b sb → F' m = F m).
Proof.
  intros sb T Hh Hf Hn Hb. unfold bfree.
  assert (Esb : gets k_sb s = Done sb s) by (unfold gets; by rewrite (tx_sb _ _ _ _ _ _ _ _ T)).
  rewrite (bind_Done _ _ _ _ _ Esb).
  destruct (tx_bread p pid dev start Hstart size _ _ _ _ _ _ _ (BBLOCK b sb) T) as (i & s1 & E1 & T1); [lia|].
  rewrite (bind_Done _ _ _ _ _ E1), (bind_Done _ _ _ _ _ (tx_read _ _ _ _ _ _ _ _ _ _ _ _ _ _ _ T1)).
  fold (clear (F (BBLOCK b sb)) (b mod BPB)). fold (free_block sb F b).
  destruct (free_block sb F b) eqn:Efree; [by exists s1|].
  destruct (tx_store p pid dev start Hstart size Hsize i (BBLOCK b sb) (bit_clear (b mod BPB)) _ _ _ _ _ _ _ T1)
    as (s2 & L2 & E2 & T2 & O2); [done|done|by intros x; rewrite length_bit_clear|].
  exists s2, (zupd F (BBLOCK b sb) (bit_clear (b mod BPB) (F (BBLOCK b sb)))), L2. split; [exact E2|]. split; [exact T2|].
  pose proof (hold_size _ _ _ _ _ _ _ _ _ _ T1 (BBLOCK b sb)) as Hl.
  assert (Hbit : 0 ≤ b mod BPB ∧ (Z.to_nat (b mod BPB / 8) < length (F (BBLOCK b sb)))%nat).
  { rewrite Hl. unfold BPB, BSIZE. lia. }
  split_and!.
  - unfold free_block. by rewrite zupd_eq, clear_bit_clear, decide_True by (done || apply Hbit).
  - intros x Hx Hne. unfold free_block. destruct (decide (BBLOCK x sb = BBLOCK b sb)) as [E|E]; [|by rewrite zupd_ne].
    rewrite E, zupd_eq, clear_bit_clear by (apply Hbit || (unfold BPB, BSIZE; lia)).
    destruct (decide (b mod BPB = x mod BPB)) as [E'|]; [|done].
    exfalso. apply Hne. revert E E' Hb Hx. unfold BBLOCK, u32, BPB, BSIZE. clear. intros. lia.
  - intros m Hm. by rewrite zupd_ne.
Qed.

End FsFacts.

(** ** A small file system: 100 blocks, the first 46 in use *)

Definition sb_small : superblock := mk_superblock FSMAGIC 100 50 16 30 2 32 45.
Definition bitmap46 : list Z := replicate 5 255 ++ [63] ++ replicate 1018 0.
Definition disk_small : gmap Z (list Z) := {[45 := bitmap46]}.

Definition open_fs (s : kstate) : kstate := set_k_log log_one (set_k_sb sb_small s).
Definition fs_small : kstate := open_fs (fs0 disk_small).

Lemma disk_small_size n : length (disk_block disk_small n) = Z.to_nat BSIZE.
Proof.
  unfold disk_block, disk_small. destruct (decide (n = 45)) as [->|Hne].
  - by rewrite lookup_singleton_eq.
  - rewrite lookup_singleton_ne by done. apply length_replicate.
Qed.

Lemma idle_log_one d s :
  calm 3 7 [] s → bcache 7 1 (view0 d) s → s.(k_disk) = d → s.(k_dwrites) = [] →
  fs_idle 3 7 1 (disk_block d) (pinned []) d [] log_one (set_k_log log_one s) (set_k_log log_one s).
Proof.
  intros C B Ed Ew. pose proof (idle_set_log 3 7 1 d log_one s C B Ed) as I. rewrite Ew in I.
  eapply idle_view; [exact I|done|]. intros m. unfold pinned. by rewrite decide_False by apply not_elem_of_nil.
Qed.

Lemma open_fs_tx d s :
  calm 3 7 [] s → bcache 7 1 (view0 d) s → s.(k_disk) = d → s.(k_dwrites) = [] →
  tx_open 3 7 1 2 30 (disk_block d) [] d [] log_one (open_fs s) (open_fs s).
Proof.
  intros C B Ed Ew. split; [|apply log_one_has|done]. unfold open_fs.
  apply (idle_log_one d (set_k_sb sb_small s)); [by eapply calm_upd|by eapply bcache_ext|done|done].
Qed.

Lemma fs_small_tx :
  tx_open 3 7 1 2 30 (disk_block disk_small) [] disk_small [] log_one fs_small fs_small.
Proof.
  apply open_fs_tx; [apply fs0_calm|apply fs0_bcache, disk_small_size|apply fs0_disk|apply fs0_writes].
Qed.

(** The log ends before block 32, which is enough to check the free blocks. *)
Lemma small_home d :
  forallb (λ k : nat, negb (free_block sb_small (disk_block d) (Z.of_nat k)) || (31 <? k)%nat) (seq 0 100) = true →
  bitmap_home 2 30 sb_small (disk_block d).
Proof.
  intros Hall. split; [cbn; lia|]. split.
  - intros x Hx. cbn in Hx. unfold BBLOCK, in_log, u32, BPB, BSIZE. cbn [sb_bmapstart sb_small]. lia.
  - intros x Hx Hfree. cbn in Hx. rewrite forallb_forall in Hall. specialize (Hall (Z.to_nat x)). rewrite Z2Nat.id, Hfree in Hall by lia.
    unfold in_log. cut ((31 <? Z.to_nat x)%nat = true); [intros H%Nat.ltb_lt; lia|].
    apply Hall, in_seq. lia.
Qed.

Lemma fs_small_home : bitmap_home 2 30 sb_small (disk_block disk_small).
Proof. apply small_home. by vm_compute. Qed.

Lemma balloc_spec_witness :
  ∃ x s', first_free sb_small (disk_block disk_small) 0 x ∧ @balloc _ ideal_disk 1 fs_small = Done x s'.
Proof.
  destruct (@balloc_spec _ ideal_disk _ 3 7 1 2 ltac:(lia) 30 ltac:(unfold LOGSIZE, MAXOPBLOCKS; lia)
    _ _ _ _ _ _ _ fs_small_tx fs_small_home) as [(x & s' & H & E & _)|(s' & H & _)].
  - unfold fits. simpl. lia.
  - unfold NBUF. simpl. lia.
  - exists x, s'. exact (conj H E).
  - exfalso. specialize (H 46 ltac:(cbn; lia)). revert H. vm_compute. discriminate.
Defined.

Lemma bfree_spec_witness :
  (∃ s', @bfree _ ideal_disk 1 7 fs_small = Done tt s') ∧
  ∃ s', @bfree _ ideal_disk 1 50 fs_small = Panic "freeing free block" s'.
Proof.
  split.
  - pose proof (@bfree_spec _ ideal_disk _ 3 7 1 2 ltac:(lia) 30 ltac:(unfold LOGSIZE, MAXOPBLOCKS; lia)
      _ _ _ _ _ _ _ 7 fs_small_tx) as H.
    change (k_sb fs_small) with sb_small in H.
    assert (E : free_block sb_small (disk_block disk_small) 7 = false) by by vm_compute.
    rewrite E in H. destruct H as (s' & F' & L' & E' & _).
    + by vm_compute; intros [].
    + unfold fits. simpl. lia.
    + unfold NBUF. simpl. lia.
    + lia.
    + exists s'. exact E'.
  - pose proof (@bfree_spec _ ideal_disk _ 3 7 1 2 ltac:(lia) 30 ltac:(unfold LOGSIZE, MAXOPBLOCKS; lia)
      _ _ _ _ _ _ _ 50 fs_small_tx) as H.
    change (k_sb fs_small) with sb_small in H.
    assert (E : free_block sb_small (disk_block disk_small) 50 = true) by by vm_compute.
    rewrite E in H. apply H.
    + by vm_compute; intros [].
    + unfold fits. simpl. lia.
    + unfold NBUF. simpl. lia.
    + lia.
Defined.
