(* ===== verification/PathFacts.v ===== *)
(** * Path names ([skipelem] of [kernel/fs.c])

    Iterating [skipelem] over a path gives the non-empty components between its
    slashes, each cut to [DIRSIZ] characters. *)

From S2P Require Import Prelude State Spinlock Cstring Riscv Kalloc Vm Proc ProcFacts Sleeplock Bio.
From S2P Require Import Log Fs.

(** ** Reference: split at slashes *)

Fixpoint split_slash (cs : list Z) : list (list Z) :=
  match cs with
  | [] => [[]]
  | c :: cs =>
      if c =? SLASH then [] :: split_slash cs
      else match split_slash cs with e :: es => (c :: e) :: es | [] => [[c]] end
  end.

Definition components (cs : list Z) : list (list Z) := filter (λ e, e ≠ []) (split_slash cs).

(** ** The code: call [skipelem] until it returns null *)

(** The name in the array, as a string function reads it. *)
Fixpoint c_str (l : list Z) : list Z :=
  match l with c :: l => if c =? 0 then [] else c :: c_str l | [] => [] end.

Fixpoint skip_all (fuel : nat) (path name : list Z) : option (list (list Z)) :=
  match fuel with
  | O => None
  | S fuel =>
      match skipelem path name with
      | None => None
      | Some (None, _) => Some []
      | Some (Some path, name) => es ← skip_all fuel path name; Some (c_str name :: es)
      end
  end.

(** ** Lemmas *)

Lemma split_slash_cons cs : ∃ e es, split_slash cs = e :: es.
Proof.
  destruct cs as [|c cs]; simpl; [by eauto|]. destruct (c =? SLASH); [by eauto|].
  destruct (split_slash cs); eauto.
Qed.

Lemma components_slash cs : components (SLASH :: cs) = components cs.
Proof. unfold components. cbn [split_slash]. rewrite Z.eqb_refl. by rewrite filter_cons_False by tauto. Qed.

(** The characters of the string [cs] after leading slashes, with what follows. *)
Lemma skip_slashes_app cs junk :
  ∃ cs', skip_slashes (cs ++ 0 :: junk) = cs' ++ 0 :: junk ∧ components cs' = components cs ∧
    (length cs' ≤ length cs)%nat ∧ (∀ c, c ∈ cs' → c ∈ cs) ∧ head cs' ≠ Some SLASH.
Proof.
  induction cs as [|c cs IH]; [by exists []|]. cbn [app skip_slashes]. destruct (Z.eqb_spec c SLASH) as [->|Hc].
  - destruct IH as (cs' & E & H1 & H2 & H3 & H4). exists cs'. rewrite components_slash. split_and!; try done.
    + simpl. lia.
    + intros x Hx. by apply list_elem_of_further, H3.
  - exists (c :: cs). split_and!; try done. simpl. congruence.
Qed.

(** One component: the code's scan, and what it means for the reference. *)
Lemma span_elem_app cs junk :
  0 ∉ cs → ∃ e cs', span_elem (cs ++ 0 :: junk) = (e, cs' ++ 0 :: junk) ∧ cs = e ++ cs' ∧ (SLASH ∉ e) ∧
    (cs' = [] ∨ head cs' = Some SLASH).
Proof.
  induction cs as [|c cs IH]; intros H0.
  - exists [], []. simpl. split_and!; try done; [apply not_elem_of_nil|by left].
  - apply not_elem_of_cons in H0 as [Hc H0]. cbn [app span_elem].
    destruct (Z.eqb_spec c SLASH) as [->|Hs]; cbn [orb].
    + exists [], (SLASH :: cs). split_and!; try done; [apply not_elem_of_nil|by right].
    + rewrite (proj2 (Z.eqb_neq c 0)) by done. destruct (IH H0) as (e & cs' & -> & -> & H1 & H2).
      exists (c :: e), cs'. split_and!; try done. by apply not_elem_of_cons.
Qed.

Lemma split_elem e cs' :
  SLASH ∉ e → cs' = [] ∨ head cs' = Some SLASH →
  split_slash (e ++ cs') = match cs' with [] => [e] | _ :: r => e :: split_slash r end.
Proof.
  intros He Hcs. induction e as [|c e IH].
  - destruct cs' as [|c r]; [done|]. destruct Hcs as [?|[= ->]]; [done|]. cbn [app split_slash]. by rewrite Z.eqb_refl.
  - apply not_elem_of_cons in He as [Hc He]. cbn [app split_slash]. rewrite (proj2 (Z.eqb_neq c SLASH)) by done.
    rewrite (IH He). by destruct cs'.
Qed.

Lemma components_elem e cs' :
  SLASH ∉ e → cs' = [] ∨ head cs' = Some SLASH → e ≠ [] → components (e ++ cs') = e :: components cs'.
Proof.
  intros He Hcs Hne. unfold components at 1. rewrite split_elem by done.
  destruct cs' as [|c r]; [by rewrite filter_cons_True|]. destruct Hcs as [?|[= ->]]; [done|].
  rewrite filter_cons_True by done. by rewrite components_slash.
Qed.

Lemma components_nil_inv cs : components cs = [] → head cs ≠ Some SLASH → cs = [].
Proof.
  intros Hc Hh. destruct cs as [|c cs]; [done|]. exfalso. unfold components in Hc. cbn [split_slash] in Hc.
  rewrite (proj2 (Z.eqb_neq c SLASH)) in Hc by (simpl in Hh; congruence).
  destruct (split_slash_cons cs) as (e & es & E). rewrite E, filter_cons_True in Hc by done. discriminate.
Qed.

Lemma c_str_short s rest : 0 ∉ s → c_str (s ++ 0 :: rest) = s.
Proof.
  induction s as [|c s IH]; intros H0; [done|]. apply not_elem_of_cons in H0 as [Hc H0].
  cbn [app c_str]. rewrite (proj2 (Z.eqb_neq c 0)) by done. by rewrite IH.
Qed.

Lemma c_str_full s : 0 ∉ s → c_str s = s.
Proof.
  induction s as [|c s IH]; intros H0; [done|]. apply not_elem_of_cons in H0 as [Hc H0].
  cbn [c_str]. rewrite (proj2 (Z.eqb_neq c 0)) by done. by rewrite IH.
Qed.

(** The array [name] after the copy of the component [s]. *)
Lemma name_after s name :
  0 ∉ s → length name = DIRSIZ →
  let name' := if (DIRSIZ <=? length s)%nat then splice 0 (take DIRSIZ s) name else splice 0 (s ++ [0]) name in
  length name' = DIRSIZ ∧ c_str name' = take DIRSIZ s.
Proof.
  intros H0 Hn name'. unfold name', splice. destruct (Nat.leb_spec DIRSIZ (length s)) as [Hl|Hl];
    rewrite take_0, app_nil_l, Nat.add_0_l.
  - rewrite length_app, length_drop, length_take. split; [unfold DIRSIZ in *; lia|].
    rewrite drop_ge, app_nil_r by (unfold DIRSIZ in *; lia).
    apply c_str_full. intros Hin. apply H0. apply list_elem_of_lookup in Hin as [i Hi].
    apply lookup_take_Some in Hi as [Hi _]. by eapply list_elem_of_lookup_2.
  - rewrite !length_app, length_drop. simpl length. split; [unfold DIRSIZ in *; lia|].
    rewrite <-app_assoc. cbn [app]. rewrite c_str_short by done. symmetry. apply take_ge. lia.
Qed.

Lemma splice_in (k : nat) (bs name : list Z) c : c ∈ splice k bs name → c ∈ bs ∨ c ∈ name.
Proof.
  unfold splice. rewrite !elem_of_app. intros [H|[H|H]]; [right|by left|right]; apply list_elem_of_lookup in H as [i Hi].
  - apply lookup_take_Some in Hi as [Hi _]. by eapply list_elem_of_lookup_2.
  - rewrite lookup_drop in Hi. by eapply list_elem_of_lookup_2.
Qed.

(** One call of [skipelem]: it takes the first component off the path, cut to
    [DIRSIZ] characters, or returns null when there is none. *)
Lemma skipelem_step cs junk name : 0 ∉ cs → length name = DIRSIZ →
  match components cs with
  | [] => skipelem (cs ++ 0 :: junk) name = Some (None, name)
  | e :: es => ∃ cs' name', skipelem (cs ++ 0 :: junk) name = Some (Some (cs' ++ 0 :: junk), name') ∧
      components cs' = es ∧ (length cs' < length cs)%nat ∧ (∀ c, c ∈ cs' → c ∈ cs) ∧ head cs' ≠ Some SLASH ∧
      (0 ∉ e) ∧ length name' = DIRSIZ ∧ c_str name' = take DIRSIZ e ∧ (∀ c, c ∈ name' → c = 0 ∨ c ∈ cs ∨ c ∈ name)
  end.
Proof.
  intros H0 Hn. unfold skipelem. destruct (skip_slashes_app cs junk) as (cs1 & -> & Hc1 & Hl1 & Hin1 & Hh1). rewrite <-Hc1.
  destruct cs1 as [|c cs1]; [done|]. cbn [app]. assert (H1 : 0 ∉ c :: cs1) by (intros Hx; by apply H0, Hin1).
  rewrite (proj2 (Z.eqb_neq c 0)) by (intros ->; apply H1, list_elem_of_here).
  destruct (span_elem_app (c :: cs1) junk H1) as (e & cs2 & E & Ee & He & Hcs2). cbn [app] in E. rewrite E.
  destruct (skip_slashes_app cs2 junk) as (cs3 & -> & Hc3 & Hl3 & Hin3 & Hh3).
  assert (Hne : e ≠ []). { intros ->. cbn [app] in Ee. subst cs2. destruct Hcs2 as [?|Hx]; [done|]. by rewrite Hx in Hh1. }
  assert (H0e : 0 ∉ e) by (intros Hx; apply H1; rewrite Ee; apply elem_of_app; by left).
  assert (Hlen : (length (c :: cs1) = length e + length cs2)%nat) by (by rewrite Ee, length_app).
  destruct (name_after e name H0e Hn) as [Hn' Hs']. rewrite Ee, components_elem, <-Hc3 by done.
  exists cs3. eexists. destruct (cs3 ++ 0 :: junk) as [|x xs] eqn:Ex; [by destruct cs3|].
  split; [reflexivity|]. split_and!; [done| | |done|done|exact Hn'|exact Hs'|].
  - destruct e; [done|]. simpl in Hlen, Hl1. lia.
  - intros y Hy. apply Hin1. rewrite Ee. apply elem_of_app. right. by apply Hin3.
  - intros y Hy. assert (Hec : ∀ z, z ∈ e → z ∈ cs) by (intros z Hz; apply Hin1; rewrite Ee; apply elem_of_app; by left).
    destruct (DIRSIZ <=? length e)%nat; apply splice_in in Hy as [Hy|Hy]; try (by right; right).
    + right; left. apply Hec. apply list_elem_of_lookup in Hy as [i Hi]. apply lookup_take_Some in Hi as [Hi _].
      by eapply list_elem_of_lookup_2.
    + apply elem_of_app in Hy as [Hy| ->%list_elem_of_singleton]; [right; left; by apply Hec|by left].
Qed.

(** Path names.  On any string, terminated by a NUL that is followed by
    anything, the iteration of [skipelem] ends and yields exactly the non-empty
    parts between slashes of the string, each cut to [DIRSIZ] characters. *)
Theorem skipelem_components cs junk name :
  0 ∉ cs → length name = DIRSIZ →
  skip_all (S (length cs)) (cs ++ 0 :: junk) name = Some (take DIRSIZ <$> components cs).
Proof.
  remember (S (length cs)) as fuel eqn:Hf. assert (Hlt : (length cs < fuel)%nat) by lia. clear Hf.
  revert cs name Hlt. induction fuel as [|fuel IH]; intros cs name Hlt H0 Hn; [lia|]. cbn [skip_all].
  pose proof (skipelem_step cs junk name H0 Hn) as Hs. destruct (components cs) as [|e es]; [by rewrite Hs|].
  destruct Hs as (cs' & name' & -> & <- & Hl & Hin & _ & _ & Hn' & Hc & _).
  rewrite (IH cs' name'); [|lia|intros Hx; by apply H0, Hin|done]. unfold mbind, option_bind. by rewrite Hc.
Qed.

Lemma skipelem_components_witness :
  skip_all 10 (cstring "/usr//bin") (replicate 14 0) = Some [take 3 (cstring "usr"); take 3 (cstring "bin")].
Proof.
  exact (skipelem_components (take 9 (cstring "/usr//bin")) [] (replicate 14 0)
    ltac:(apply (bool_decide_unpack _); by vm_compute) eq_refl).
Defined.
