(* ===== verification/InodeFacts.v ===== *)
(** * Inodes on the disk ([iupdate] and [ilock] of [kernel/fs.c])

    The layout of a [struct dinode]: what [iupdate] stores of an inode is what
    [ilock] loads, and the other inodes of the block are not touched. *)

From S2P Require Import Prelude State Spinlock Cstring Riscv Kalloc Vm Proc ProcFacts Sleeplock.
From S2P Require Import Quiet Bio BioFacts BioSpec Log LogFacts LogSpec Fs FsFacts.

(** ** Bytes of a struct *)

Lemma get_le_in_splice n k o new bs :
  (o + length new ≤ length bs)%nat → (k + n ≤ length new)%nat →
  get_le n (o + k) (splice o new bs) = get_le n k new.
Proof.
  intros H Hk. unfold get_le. f_equal. apply list_eq. intros i.
  destruct (decide (i < n)%nat) as [Hi|Hi]; [|by rewrite !lookup_take_ge by lia].
  rewrite !lookup_take_lt, !lookup_drop, lookup_splice by lia. rewrite decide_True by lia. f_equal. lia.
Qed.

Definition words (l : list Z) : list Z := mjoin (le_bytes 4 <$> l).

Lemma words_cons a l : words (a :: l) = le_bytes 4 a ++ words l.
Proof. done. Qed.

Lemma length_words l : length (words l) = (4 * length l)%nat.
Proof. induction l as [|a l IH]; [done|]. rewrite words_cons, length_app, IH, length_le_bytes. simpl. lia. Qed.

Lemma get_first n v rest : get_le n 0 (le_bytes n v ++ rest) = v mod 2 ^ (8 * Z.of_nat n).
Proof.
  unfold get_le. rewrite drop_0, take_app_le by by rewrite length_le_bytes.
  rewrite take_ge by by rewrite length_le_bytes. apply of_le_le_bytes.
Qed.

Lemma get_next n k m v rest :
  (m ≤ k)%nat → get_le n k (le_bytes m v ++ rest) = get_le n (k - m) rest.
Proof. intros H. unfold get_le. by rewrite drop_app_ge, length_le_bytes by by rewrite length_le_bytes. Qed.

Lemma get_word l k a : l !! k = Some a → get_le 4 (4 * k) (words l) = a mod 2 ^ 32.
Proof.
  revert k. induction l as [|b l IH]; intros [|k] Hk; [done|done|injection Hk as ->|]; rewrite words_cons.
  - apply (get_first 4).
  - rewrite get_next by lia. replace (4 * S k - 4)%nat with (4 * k)%nat by lia. by apply IH.
Qed.

(** ** The fields *)

(** The fields of an inode are in the range of their C types. *)
Record inode_ok (x : inode) : Prop := {
  io_type : - 2 ^ 15 ≤ x.(i_type) < 2 ^ 15;
  io_major : - 2 ^ 15 ≤ x.(i_major) < 2 ^ 15;
  io_minor : - 2 ^ 15 ≤ x.(i_minor) < 2 ^ 15;
  io_nlink : - 2 ^ 15 ≤ x.(i_nlink) < 2 ^ 15;
  io_size : 0 ≤ x.(i_size) < 2 ^ 32;
  io_addrs : length x.(i_addrs) = S NDIRECT;
  io_addr a : a ∈ x.(i_addrs) → 0 ≤ a < 2 ^ 32
}.

Lemma s16_small v : - 2 ^ 15 ≤ v < 2 ^ 15 → s16 (v mod 2 ^ 16) = v.
Proof.
  intros H. unfold s16, signed. rewrite Z.mod_mod by lia.
  destruct (Z.ltb_spec (v mod 2 ^ 16) (2 ^ (16 - 1))); lia.
Qed.

Lemma length_dinode_bytes x : inode_ok x → length (dinode_bytes x) = dinode_size.
Proof. intros H. unfold dinode_bytes. fold (words x.(i_addrs)). rewrite !length_app, length_words, !length_le_bytes, (io_addrs _ H). done. Qed.

(** The disk part of inode [x] in the in-memory inode [y]. *)
Definition with_dinode (x y : inode) : inode :=
  mk_inode y.(i_dev) y.(i_inum) y.(i_ref) y.(i_valid) x.(i_type) x.(i_major) x.(i_minor) x.(i_nlink)
    x.(i_size) x.(i_addrs).

(** Skip the fields before the one at the offset, and read it. *)
Ltac field := repeat (rewrite get_next by lia; cbn [Nat.sub]); rewrite get_first.

Lemma dinode_load_bytes x y : inode_ok x → dinode_load 0 (dinode_bytes x) y = with_dinode x y.
Proof.
  intros [H1 H2 H3 H4 H5 H6 H7]. unfold dinode_load, with_dinode, dinode_bytes. cbn [Nat.add].
  fold (words x.(i_addrs)). f_equal.
  - field. by apply s16_small.
  - field. by apply s16_small.
  - field. by apply s16_small.
  - field. by apply s16_small.
  - field. by apply Z.mod_small.
  - apply list_eq. intros k. rewrite list_lookup_fmap. destruct (decide (k < S NDIRECT)%nat) as [Hk|Hk].
    + rewrite lookup_seq_lt by done. cbn [fmap option_fmap option_map Nat.add].
      destruct (lookup_lt_is_Some_2 x.(i_addrs) k) as [a Ha]; [lia|]. rewrite Ha. f_equal.
      repeat (rewrite get_next by lia). replace (_ - 2 - 2 - 2 - 2 - 4)%nat with (4 * k)%nat by lia.
      rewrite (get_word _ _ _ Ha). apply Z.mod_small, H7. by eapply list_elem_of_lookup_2.
    + rewrite lookup_seq_ge by lia. symmetry. apply lookup_ge_None. lia.
Qed.

(** A load depends only on the 64 bytes of the structure. *)
Lemma dinode_load_ext o o' d d' y :
  (∀ n k, (k + n ≤ dinode_size)%nat → get_le n (o + k) d = get_le n (o' + k) d') →
  dinode_load o d y = dinode_load o' d' y.
Proof.
  intros H. unfold dinode_load. f_equal.
  - f_equal. rewrite <-(Nat.add_0_r o), <-(Nat.add_0_r o'). apply H. unfold dinode_size. lia.
  - f_equal. apply H. unfold dinode_size. lia.
  - f_equal. apply H. unfold dinode_size. lia.
  - f_equal. apply H. unfold dinode_size. lia.
  - apply H. unfold dinode_size. lia.
  - apply list_fmap_ext. intros i k Hk. apply lookup_seq in Hk as [-> Hk]. rewrite <-!Nat.add_assoc. apply H.
    unfold dinode_size, NDIRECT in *. lia.
Qed.

Lemma dinode_off_bound inum : (dinode_off inum + dinode_size ≤ Z.to_nat BSIZE)%nat.
Proof. unfold dinode_off, dinode_size, IPB, BSIZE. lia. Qed.

Lemma dinode_roundtrip x y inum d :
  inode_ok x → length d = Z.to_nat BSIZE →
  dinode_load (dinode_off inum) (splice (dinode_off inum) (dinode_bytes x) d) y = with_dinode x y.
Proof.
  intros H Hd. rewrite <-(dinode_load_bytes x y H). pose proof (dinode_off_bound inum).
  apply (dinode_load_ext _ 0). intros n k Hk. apply get_le_in_splice; rewrite length_dinode_bytes by done; lia.
Qed.

Lemma dinode_other x y inum inum' d :
  inode_ok x → length d = Z.to_nat BSIZE → inum' mod IPB ≠ inum mod IPB →
  dinode_load (dinode_off inum') (splice (dinode_off inum) (dinode_bytes x) d) y = dinode_load (dinode_off inum') d y.
Proof.
  intros H Hd Hne. pose proof (dinode_off_bound inum). apply dinode_load_ext. intros n k Hk.
  apply get_le_splice_other; rewrite length_dinode_bytes by done; [lia|].
  unfold dinode_off, dinode_size, IPB, BSIZE in *. lia.
Qed.

(** ** [iupdate] *)

Section InodeFacts.
Context {HK : KernelImage} {WB : WaitBound} {BD : BlockDev} {BDok : BlockDevOk}.
Context (p : nat) (pid dev : Z) (start : Z) (Hstart : 0 ≤ start < 2 ^ 31).
Context (size : Z) (Hsize : 1 ≤ size ≤ LOGSIZE + 1).
Implicit Types (s : kstate) (d : gmap Z (list Z)) (w : list (Z * list Z)) (L : log).

Local Abbreviation tx_open := (tx_open p pid dev start size).
Local Abbreviation tx_hold := (tx_hold p pid dev start size).

(** What a transaction leaves alone can be read from its first state. *)
Lemma open_frame {A} (f : kstate → A) F bl d w L s0 s :
  tx_open F bl d w L s0 s →
  (∀ c l q bs sl dk dw x, f (set_k_cpus c (set_k_locks l (set_k_procs q (set_cache bs sl dk dw x)))) = f x) →
  (∀ lg x, f (set_k_log lg x) = f x) → f s = f s0.
Proof.
  intros [[lru A0] _ _] Hf Hl. pose proof (at_frame _ _ _ _ _ _ _ _ _ A0) as Fr. unfold fframe in Fr.
  by rewrite (bframe_get p f _ _ Fr), Hl.
Qed.

Lemma hold_frame {A} (f : kstate → A) i n F bl d w L s0 s :
  tx_hold i n F bl d w L s0 s →
  (∀ c l q bs sl dk dw x, f (set_k_cpus c (set_k_locks l (set_k_procs q (set_cache bs sl dk dw x)))) = f x) →
  (∀ lg x, f (set_k_log lg x) = f x) → f s = f s0.
Proof.
  intros [[lru A0] _ _ _ _ _] Hf Hl. pose proof (at_frame _ _ _ _ _ _ _ _ _ A0) as Fr. unfold fframe in Fr.
  by rewrite (bframe_get p f _ _ Fr), Hl.
Qed.

Lemma inode_get_ok {A} (f : inode → A) s ip x :
  s.(k_inodes) !! ip = Some x → inode_get ip f s = Done (f x) s.
Proof. intros H. mred. by rewrite H. Qed.

Lemma upd_inode_agree i f g x s : s.(k_inodes) !! i = Some x → f x = g x → upd_inode i f s = upd_inode i g s.
Proof. intros Hx E. unfold upd_inode. f_equal. apply list_alter_agree. intros y Hy. by simplify_eq. Qed.

Lemma upd_inode_same i f x s : s.(k_inodes) !! i = Some x → f x = x → upd_inode i f s = s.
Proof. intros Hx E. unfold upd_inode. rewrite list_alter_same; [keq|]. intros y Hy. by simplify_eq. Qed.

Lemma upd_inode_lookup i f x s : s.(k_inodes) !! i = Some x → (upd_inode i f s).(k_inodes) !! i = Some (f x).
Proof. intros Hx. unfold upd_inode. kproj. by rewrite list_lookup_alter_eq, Hx. Qed.

(** [iupdate] inside a transaction *)
Lemma iupdate_open F bl d w L s0 s ip x :
  let sb := s0.(k_sb) in let blk := IBLOCK x.(i_inum) sb in
  tx_open F bl d w L s0 s → s0.(k_inodes) !! ip = Some x → x.(i_dev) = dev → inode_ok x →
  0 ≤ x.(i_inum) < 2 ^ 32 → ¬ in_log start size blk → fits size (1 + length bl) → (1 + length bl < NBUF)%nat →
  ∃ s' F' L', iupdate ip s = Done tt s' ∧ tx_open F' (log_add bl blk) d w L' s0 s' ∧ L'.(lg_outstanding) = L.(lg_outstanding) ∧
    (∀ y, dinode_load (dinode_off x.(i_inum)) (F' blk) y = with_dinode x y) ∧
    (∀ i y, 0 ≤ i < 2 ^ 32 → i ≠ x.(i_inum) →
      dinode_load (dinode_off i) (F' (IBLOCK i sb)) y = dinode_load (dinode_off i) (F (IBLOCK i sb)) y) ∧
    ∀ m, m ≠ blk → F' m = F m.
Proof.
  intros sb blk T Hip Hdev Hok Hi Hl Hf Hn. unfold iupdate.
  assert (Ei : s.(k_inodes) !! ip = Some x) by (by rewrite (open_frame k_inodes _ _ _ _ _ _ _ T)).
  rewrite (bind_Done _ _ _ _ _ (inode_get_ok i_dev s ip x Ei)), Hdev.
  rewrite (bind_Done _ _ _ _ _ (inode_get_ok i_inum s ip x Ei)).
  assert (Esb : gets k_sb s = Done sb s) by (unfold gets; by rewrite (open_frame k_sb _ _ _ _ _ _ _ T)).
  rewrite (bind_Done _ _ _ _ _ Esb). fold blk.
  destruct (tx_bread p pid dev start Hstart size _ _ _ _ _ _ _ blk T) as (i & s1 & E1 & T1); [lia|].
  rewrite (bind_Done _ _ _ _ _ E1).
  assert (Ei1 : s1.(k_inodes) !! ip = Some x) by (by rewrite (hold_frame k_inodes _ _ _ _ _ _ _ _ _ T1)).
  rewrite (bind_Done _ _ _ _ _ (inode_get_ok id s1 ip x Ei1)). cbn [id].
  pose proof (dinode_off_bound (i_inum x)) as Hoff.
  destruct (tx_store p pid dev start Hstart size Hsize i blk (splice (dinode_off x.(i_inum)) (dinode_bytes x))
    _ _ _ _ _ _ _ T1) as (s2 & L2 & E2 & T2 & O2); [done|done| |].
  { intros b Hb. rewrite length_splice; [done|]. rewrite length_dinode_bytes by done. lia. }
  exists s2, (zupd F blk (splice (dinode_off x.(i_inum)) (dinode_bytes x) (F blk))), L2.
  pose proof (hold_size _ _ _ _ _ _ _ _ _ _ _ _ _ _ _ T1 blk) as Hsz.
  split; [exact E2|]. split; [exact T2|]. split; [exact O2|]. split; [|split].
  - intros y. rewrite zupd_eq. by apply dinode_roundtrip.
  - intros j y Hj Hne. destruct (decide (IBLOCK j sb = blk)) as [E|E]; [|by rewrite zupd_ne].
    rewrite E, zupd_eq. apply dinode_other; [done|done|].
    revert E Hne Hj Hi. unfold blk, IBLOCK, u32, IPB, BSIZE. clear. intros. lia.
  - intros m Hm. by rewrite zupd_ne.
Qed.

(** C35: [iupdate] inside a transaction copies the inode to its place on the
    disk: what a later [ilock] loads from there is the inode, field by field,
    and every other inode and every other block are as before. *)
Theorem iupdate_spec F bl d w L s0 s ip x :
  let sb := s0.(k_sb) in let blk := IBLOCK x.(i_inum) sb in
  tx_open F bl d w L s0 s → s0.(k_inodes) !! ip = Some x → x.(i_dev) = dev → inode_ok x →
  0 ≤ x.(i_inum) < 2 ^ 32 → ¬ in_log start size blk → fits size (1 + length bl) → (1 + length bl < NBUF)%nat →
  ∃ s' F' L', iupdate ip s = Done tt s' ∧ tx_open F' (log_add bl blk) d w L' s0 s' ∧
    (∀ y, dinode_load (dinode_off x.(i_inum)) (F' blk) y = with_dinode x y) ∧
    (∀ i y, 0 ≤ i < 2 ^ 32 → i ≠ x.(i_inum) →
      dinode_load (dinode_off i) (F' (IBLOCK i sb)) y = dinode_load (dinode_off i) (F (IBLOCK i sb)) y) ∧
    ∀ m, m ≠ blk → F' m = F m.
Proof.
  intros sb blk T H1 H2 H3 H4 H5 H6 H7.
  destruct (iupdate_open F bl d w L s0 s ip x T H1 H2 H3 H4 H5 H6 H7) as (s' & F' & L' & E & T' & _ & D). by exists s', F', L'.
Qed.

End InodeFacts.

(** ** An inode of the small file system *)

Definition inode7 : inode := mk_inode 1 7 1 true 2 0 0 1 300 (replicate 13 0).
(** The state with the inode in the first entry of the table. *)
Definition with_inode (x : inode) (s : kstate) : kstate := set_k_inodes (<[0%nat := x]> s.(k_inodes)) s.

Lemma with_inode_calm x s : calm 3 7 [] s → calm 3 7 [] (with_inode x s).
Proof. intros C. by eapply calm_upd. Qed.

Lemma with_inode_bcache x V s : bcache 7 1 V s → bcache 7 1 V (with_inode x s).
Proof. intros B. by eapply bcache_ext. Qed.

Lemma with_inode_open x d s :
  calm 3 7 [] s → bcache 7 1 (view0 d) s → s.(k_disk) = d → s.(k_dwrites) = [] →
  tx_open 3 7 1 2 30 (disk_block d) [] d [] log_one (open_fs (with_inode x s)) (open_fs (with_inode x s)).
Proof. intros C B Ed Ew. apply open_fs_tx; [by apply with_inode_calm|by apply with_inode_bcache|done|done]. Qed.

(** The small file system with an open transaction and the inode in the table. *)
Lemma with_inode_tx x :
  tx_open 3 7 1 2 30 (disk_block disk_small) [] disk_small [] log_one
    (open_fs (with_inode x (fs0 disk_small))) (open_fs (with_inode x (fs0 disk_small))).
Proof.
  apply with_inode_open; [apply fs0_calm|apply fs0_bcache, disk_small_size|apply fs0_disk|apply fs0_writes].
Qed.

(** A disk without a transaction and the inode in the table. *)
Lemma with_inode_idle x d s :
  calm 3 7 [] s → bcache 7 1 (view0 d) s → s.(k_disk) = d → s.(k_dwrites) = [] →
  fs_idle 3 7 1 (disk_block d) (pinned []) d [] log_one (set_k_log log_one (with_inode x s)) (set_k_log log_one (with_inode x s)).
Proof. intros C B Ed Ew. apply idle_log_one; [by apply with_inode_calm|by apply with_inode_bcache|done|done]. Qed.

Lemma fs0_inodes d : k_inodes (fs0 d) = replicate NINODE inode0.
Proof. destruct (fs0_run d) as [_ I]. rewrite (bi_frame _ _ _ I). kproj. reflexivity. Qed.

(** The first entry of the table of such a state. *)
Ltac first_inode := unfold open_fs, with_inode; kproj; rewrite fs0_inodes; reflexivity.

Lemma iupdate_spec_witness :
  ∃ s', @iupdate _ ideal_disk 0 (open_fs (with_inode inode7 (fs0 disk_small))) = Done tt s'.
Proof.
  destruct (@iupdate_spec _ ideal_disk _ 3 7 1 2 ltac:(lia) 30 ltac:(unfold LOGSIZE, MAXOPBLOCKS; lia)
    _ _ _ _ _ _ _ 0%nat inode7 (with_inode_tx inode7)) as (s' & _ & _ & E & _).
  - first_inode.
  - reflexivity.
  - split; try (cbn; lia); [done|]. intros a [-> _]%elem_of_replicate. lia.
  - cbn. lia.
  - unfold open_fs. kproj. by vm_compute; intros [].
  - unfold fits. simpl. lia.
  - unfold NBUF. simpl. lia.
  - exists s'. exact E.
Defined.
