(* ===== verification/FileFacts.v ===== *)
(** * The contents of files ([bmap], [readi] and [writei] of [kernel/fs.c])

    What [readi] returns and what [writei] leaves, against the bytes of a file as
    the addresses in its inode and in its indirect block place them on the disk. *)

From S2P Require Import Prelude State Spinlock Cstring Riscv Kalloc Vm Proc ProcFacts Sleeplock.
From S2P Require Import Quiet Bio BioFacts BioSpec Log LogFacts LogSpec Fs FsFacts InodeFacts.

(** ** Bytes of a file *)

(** The address of block [bn] of a file, given the contents of the disk blocks *)
Definition file_addr (F : Z → list Z) (x : inode) (bn : Z) : Z :=
  if bn <? Z.of_nat NDIRECT then default 0 (x.(i_addrs) !! Z.to_nat bn)
  else get_le 4 (4 * Z.to_nat (bn - Z.of_nat NDIRECT)) (F (default 0 (x.(i_addrs) !! NDIRECT))).

Definition file_byte (F : Z → list Z) (x : inode) (i : Z) : Z :=
  default 0 (F (file_addr F x (i / BSIZE)) !! Z.to_nat (i mod BSIZE)).

Definition file_bytes (F : Z → list Z) (x : inode) (off n : Z) : list Z :=
  (λ j, file_byte F x (off + Z.of_nat j)) <$> seq 0 (Z.to_nat n).

Lemma length_file_bytes F x off n : length (file_bytes F x off n) = Z.to_nat n.
Proof. unfold file_bytes. by rewrite length_fmap, length_seq. Qed.

Lemma lookup_file_bytes F x off n j :
  (j < Z.to_nat n)%nat → file_bytes F x off n !! j = Some (file_byte F x (off + Z.of_nat j)).
Proof. intros Hj. unfold file_bytes. by rewrite list_lookup_fmap, lookup_seq_lt. Qed.

Lemma file_bytes_app F x off a b :
  0 ≤ a → 0 ≤ b → file_bytes F x off a ++ file_bytes F x (off + a) b = file_bytes F x off (a + b).
Proof.
  intros Ha Hb. unfold file_bytes. rewrite Z2Nat.inj_add, seq_app, fmap_app by done. f_equal.
  cbn [Nat.add]. rewrite <-(Nat.add_0_r (Z.to_nat a)). rewrite <-fmap_add_seq, <-list_fmap_compose. apply list_fmap_ext.
  intros i j _. unfold compose. f_equal. lia.
Qed.

(** A block of the file gives some of its bytes. *)
Lemma block_bytes_file F x off m :
  0 ≤ off → 0 ≤ m ≤ BSIZE - off mod BSIZE → length (F (file_addr F x (off / BSIZE))) = Z.to_nat BSIZE →
  block_bytes (F (file_addr F x (off / BSIZE))) off m = file_bytes F x off m.
Proof.
  intros Ho Hm Hl. unfold BSIZE in *. assert (Lb : length (block_bytes (F (file_addr F x (off / 1024))) off m) = Z.to_nat m).
  { unfold block_bytes, BSIZE. rewrite length_take, length_drop. lia. }
  apply list_eq. intros j. destruct (decide (j < Z.to_nat m)%nat) as [Hj|Hj].
  - rewrite lookup_file_bytes by done. unfold block_bytes, BSIZE. rewrite lookup_take_lt, lookup_drop by done.
    unfold file_byte, BSIZE. replace ((off + Z.of_nat j) / 1024) with (off / 1024) by lia.
    replace (Z.to_nat ((off + Z.of_nat j) mod 1024)) with (Z.to_nat (off mod 1024) + j)%nat by lia.
    destruct (lookup_lt_is_Some_2 (F (file_addr F x (off / 1024))) (Z.to_nat (off mod 1024) + j)) as [b ->]; [lia|done].
  - rewrite !lookup_ge_None_2; [done|rewrite length_file_bytes; lia|lia].
Qed.

(** The blocks of the first [n] bytes exist. *)
Record mapped (F : Z → list Z) (x : inode) (n : Z) : Prop := {
  mp_addrs : length x.(i_addrs) = S NDIRECT;
  mp_max : n ≤ MAXFILE * BSIZE;
  mp_addr bn : 0 ≤ bn → bn * BSIZE < n → file_addr F x bn ≠ 0;
  mp_ind : Z.of_nat NDIRECT * BSIZE < n → x.(i_addrs) !! NDIRECT ≠ Some 0
}.

Section FileFacts.
Context {HK : KernelImage} {WB : WaitBound} {BD : BlockDev} {BDok : BlockDevOk}.
Context (p : nat) (pid dev : Z).
Implicit Types (s : kstate) (d : gmap Z (list Z)) (w : list (Z * list Z)) (L : log).

Local Abbreviation fs_at := (fs_at p pid dev).
Local Abbreviation fs_idle := (fs_idle p pid dev).

(** ** Reading a block between operations *)

(** With the buffer [i] of block [n] locked, and unchanged *)
Record idle_hold (i : nat) (n : Z) (F : Z → list Z) (bl : list Z) d w L s0 s : Prop := {
  ih_at : ∃ lru, fs_at (v_hold i n (mk_bview F (pinned bl) ∅ lru)) d w L s0 s;
  ih_clean : n ∉ bl → F n = disk_block d n
}.

Lemma idle_bread F bl d w L s0 s n :
  fs_idle F (pinned bl) d w L s0 s → (length bl < NBUF)%nat →
  ∃ i s', bread dev n s = Done i s' ∧ idle_hold i n F bl d w L s0 s'.
Proof.
  intros [lru A] Hlen. destruct (at_bread p pid dev _ _ _ _ _ _ n A) as (i & s1 & E1 & Hi & A1).
  { intros i. cbn [bv_held]. by rewrite lookup_empty. }
  { right. exists bl. split; [|done]. intros m. cbn. unfold pinned. case_decide; [done|lia]. }
  { cbn. unfold pinned. case_decide; lia. }
  exists i, s1. split; [done|]. split; [by exists lru|].
  intros Hn. rewrite <-(at_disk _ _ _ _ _ _ _ _ _ A). apply (bc_clean _ _ _ _ (at_cache _ _ _ _ _ _ _ _ _ A)).
  cbn. unfold pinned. by rewrite decide_False.
Qed.

Lemma idle_read i n F bl d w L s0 s :
  idle_hold i n F bl d w L s0 s → buf_get i b_data s = Done (F n) s ∧ length (F n) = Z.to_nat BSIZE.
Proof.
  intros [[lru A] _]. split; [|apply (bc_size _ _ _ _ (at_cache _ _ _ _ _ _ _ _ _ A))].
  apply (held_data _ _ _ _ _ _ (at_cache _ _ _ _ _ _ _ _ _ A)). apply lookup_insert_eq.
Qed.

Lemma idle_brelse i n F bl d w L s0 s :
  idle_hold i n F bl d w L s0 s → ∃ s', brelse i s = Done tt s' ∧ fs_idle F (pinned bl) d w L s0 s'.
Proof.
  intros [[lru A] Hc]. destruct (at_brelse p pid dev _ _ _ _ _ _ i n A) as (s1 & E1 & A1).
  { apply lookup_insert_eq. }
  { cbn. rewrite zupd_eq. unfold pinned. case_decide; [lia|]. intros _. by apply Hc. }
  exists s1. split; [done|]. eexists. eapply at_view; [exact A1|..|reflexivity]; cbn.
  - done.
  - intros m. unfold zupd. rewrite (decide_True (P := n = n)) by done. case_decide; [subst; lia|done].
  - by rewrite delete_insert_eq, delete_empty.
Qed.

(** Steps that only take and release spin locks. *)
Lemma at_quiet V d w L s0 s s' : fs_at V d w L s0 s → calm p pid [] s' → quietly p s s' → fs_at V d w L s0 s'.
Proof.
  intros [C B E1 E2 E3 Fr] C' Q. destruct (quietly_parts _ _ _ Q) as (X1 & X2 & X3).
  split; [done|by eapply quietly_bcache|congruence..|]. eapply fframe_bframe; [done|]. by apply quietly_bframe.
Qed.

(** A change of the inode table. *)
Lemma at_upd_inode V d w L s0 s i f : fs_at V d w L s0 s → fs_at V d w L (upd_inode i f s0) (upd_inode i f s).
Proof.
  intros [C B E1 E2 E3 Fr]. split; [by eapply calm_upd|by eapply bcache_ext|done|done|done|].
  exact (bframe_upd p (upd_inode i f) _ _ Fr ltac:(done) ltac:(done) ltac:(done) ltac:(done) (proj2 Fr)).
Qed.

Lemma at_myproc V d w L s0 s : fs_at V d w L s0 s → ∃ s', myproc s = Done (Some p) s' ∧ fs_at V d w L s0 s'.
Proof.
  intros A. pose proof (at_calm _ _ _ _ _ _ _ _ _ A) as C. destruct (calm_cpu _ _ _ _ C) as (c & Hc & Hp & Hn & Hwf).
  exists (settle s). split; [by rewrite (myproc_ok _ _ Hc Hwf), Hp|].
  eapply at_quiet; [exact A|by apply calm_settle|apply quietly_settle].
Qed.

Lemma at_inode V d w L s0 s ip x {A} (f : inode → A) :
  fs_at V d w L s0 s → s0.(k_inodes) !! ip = Some x → inode_get ip f s = Done (f x) s.
Proof.
  intros A0 Hx. apply inode_get_ok. pose proof (at_frame _ _ _ _ _ _ _ _ _ A0) as Fr. unfold fframe in Fr.
  by rewrite (bframe_get p k_inodes _ _ Fr).
Qed.

(** ** [bmap] of a block that exists *)

Lemma bmap_mapped F bl d w L s0 s ip x n bn :
  fs_idle F (pinned bl) d w L s0 s → (length bl < NBUF)%nat → s0.(k_inodes) !! ip = Some x → x.(i_dev) = dev →
  mapped F x n → 0 ≤ bn → bn * BSIZE < n →
  ∃ s', bmap ip bn s = Done (file_addr F x bn) s' ∧ fs_idle F (pinned bl) d w L s0 s'.
Proof.
  intros I Hlen Hx Hdev [M1 M2 M3 M4] H0 Hbn. pose proof I as [lru A]. unfold bmap.
  rewrite (bind_Done _ _ _ _ _ (at_inode _ _ _ _ _ _ ip x i_dev A Hx)), Hdev.
  specialize (M3 bn H0 Hbn). unfold file_addr in *. destruct (Z.ltb_spec bn (Z.of_nat NDIRECT)) as [Hd|Hd].
  - destruct (lookup_lt_is_Some_2 x.(i_addrs) (Z.to_nat bn)) as [a Ha]; [lia|]. rewrite Ha in *. cbn [default from_option id] in *.
    assert (E : addr_get ip (Z.to_nat bn) s = Done a s).
    { unfold addr_get. rewrite (bind_Done _ _ _ _ _ (at_inode _ _ _ _ _ _ ip x i_addrs A Hx)), Ha. done. }
    rewrite (bind_Done _ _ _ _ _ E), (proj2 (Z.eqb_neq _ _)) by done. by exists s.
  - cbn zeta. rewrite (proj2 (Z.ltb_lt _ _)) by (unfold MAXFILE, NINDIRECT, NDIRECT, BSIZE in *; lia).
    destruct (lookup_lt_is_Some_2 x.(i_addrs) NDIRECT) as [a Ha]; [lia|]. rewrite Ha in *. cbn [default from_option id] in *.
    assert (E : addr_get ip NDIRECT s = Done a s).
    { unfold addr_get. rewrite (bind_Done _ _ _ _ _ (at_inode _ _ _ _ _ _ ip x i_addrs A Hx)), Ha. done. }
    assert (Hna : a ≠ 0) by (intros ->; apply M4; [unfold BSIZE in *; lia|done]).
    rewrite (bind_Done _ _ _ _ _ E), (proj2 (Z.eqb_neq a 0)) by done. rewrite (bind_Done (mret a) _ s a s eq_refl).
    rewrite (proj2 (Z.eqb_neq a 0)) by done.
    destruct (idle_bread F bl d w L s0 s a I Hlen) as (i & s1 & E1 & H1). rewrite (bind_Done _ _ _ _ _ E1).
    destruct (idle_read _ _ _ _ _ _ _ _ _ H1) as [E2 _]. rewrite (bind_Done _ _ _ _ _ E2). cbn zeta.
    rewrite (proj2 (Z.eqb_neq _ 0)) by done. rewrite (bind_Done (mret _) _ s1 _ s1 eq_refl).
    destruct (idle_brelse _ _ _ _ _ _ _ _ _ H1) as (s2 & E3 & I2). rewrite (bind_Done _ _ _ _ _ E3). by exists s2.
Qed.

(** ** [readi] *)

(** Rounds that a transfer of [r] bytes at [off] takes *)
Definition rounds (off r : Z) : Z := if r =? 0 then 0 else (off mod BSIZE + r + (BSIZE - 1)) / BSIZE.

Lemma rounds_fuel off n : 0 ≤ n → rounds off n < Z.of_nat (io_fuel n).
Proof. unfold rounds, io_fuel, BSIZE. intros Hn. destruct (Z.eqb_spec n 0); lia. Qed.

Lemma rounds_next off r :
  0 ≤ off → 0 < r → let m := Z.min r (BSIZE - off mod BSIZE) in
  0 < m ∧ 0 ≤ rounds (off + m) (r - m) < rounds off r.
Proof.
  unfold rounds, BSIZE. intros Ho Hr. rewrite (proj2 (Z.eqb_neq r 0)) by lia.
  destruct (Z.min_spec r (1024 - off mod 1024)) as [[H ->]|[H ->]].
  - rewrite Z.sub_diag. cbn [Z.eqb]. lia.
  - destruct (Z.eqb_spec (r - (1024 - off mod 1024)) 0); lia.
Qed.

Lemma readi_round F bl d w L s0 s ip x n tot off got :
  fs_idle F (pinned bl) d w L s0 s → (length bl < NBUF)%nat → s0.(k_inodes) !! ip = Some x → x.(i_dev) = dev →
  mapped F x (off + (n - tot)) → 0 ≤ off → tot < n →
  let m := Z.min (n - tot) (BSIZE - off mod BSIZE) in
  ∃ s', readi_body ip n (tot, off, D_local, got) s =
      Done (inl (tot + m, off + m, D_local, got ++ file_bytes F x off m)) s' ∧
    fs_idle F (pinned bl) d w L s0 s'.
Proof.
  intros I Hlen Hx Hdev Hm Ho Ht m. unfold readi_body. rewrite (proj2 (Z.ltb_lt _ _)) by done. cbn [negb].
  assert (Hbn : 0 ≤ off / BSIZE ∧ off / BSIZE * BSIZE < off + (n - tot)) by (unfold BSIZE; lia).
  destruct (bmap_mapped F bl d w L s0 s ip x _ (off / BSIZE) I Hlen Hx Hdev Hm) as (s1 & E1 & I1); [tauto..|].
  rewrite (bind_Done _ _ _ _ _ E1), (proj2 (Z.eqb_neq _ 0)) by (apply (mp_addr _ _ _ Hm); tauto).
  pose proof I1 as [lru A1]. rewrite (bind_Done _ _ _ _ _ (at_inode _ _ _ _ _ _ ip x i_dev A1 Hx)), Hdev.
  destruct (idle_bread F bl d w L s0 s1 (file_addr F x (off / BSIZE)) I1 Hlen) as (i & s2 & E2 & H2). rewrite (bind_Done _ _ _ _ _ E2).
  destruct (idle_read _ _ _ _ _ _ _ _ _ H2) as [E3 Hl]. rewrite (bind_Done _ _ _ _ _ E3). fold m.
  destruct H2 as [[lru2 A2] Hc]. destruct (at_myproc _ _ _ _ _ _ A2) as (s3 & E4 & A3).
  assert (E5 : either_copyout D_local (block_bytes (F (file_addr F x (off / BSIZE))) off m) m s2 = Done 0 s3).
  { unfold either_copyout. by rewrite (bind_Done _ _ _ _ _ E4). }
  rewrite (bind_Done _ _ _ _ _ E5). change (0 =? -1) with false. cbn iota.
  destruct (idle_brelse i (file_addr F x (off / BSIZE)) F bl d w L s0 s3) as (s4 & E6 & I4); [by split; [exists lru2|]|].
  rewrite (bind_Done _ _ _ _ _ E6). exists s4. split; [|done].
  rewrite block_bytes_file by (done || (unfold m, BSIZE; lia)). done.
Qed.

Lemma readi_loop F bl d w L s0 ip x n : ∀ fuel s tot off got,
  fs_idle F (pinned bl) d w L s0 s → (length bl < NBUF)%nat → s0.(k_inodes) !! ip = Some x → x.(i_dev) = dev →
  mapped F x (off + (n - tot)) → 0 ≤ off → tot ≤ n → rounds off (n - tot) < Z.of_nat fuel →
  ∃ s', loop fuel (readi_body ip n) (tot, off, D_local, got) s = Done (n, got ++ file_bytes F x off (n - tot)) s' ∧
    fs_idle F (pinned bl) d w L s0 s'.
Proof.
  induction fuel as [|fuel IH]; intros s tot off got I Hlen Hx Hdev Hm Ho Ht Hf.
  { unfold rounds, BSIZE in Hf. destruct (Z.eqb_spec (n - tot) 0); lia. }
  cbn [loop]. destruct (decide (tot = n)) as [->|Hne].
  - unfold readi_body. rewrite Z.ltb_irrefl, Z.sub_diag. cbn [negb]. exists s. split; [|done].
    unfold file_bytes. cbn [seq fmap list_fmap]. by rewrite app_nil_r.
  - destruct (readi_round F bl d w L s0 s ip x n tot off got I Hlen Hx Hdev Hm Ho) as (s1 & E1 & I1); [lia|].
    rewrite (bind_Done _ _ _ _ _ E1). cbn zeta. set (m := Z.min (n - tot) (BSIZE - off mod BSIZE)) in *.
    destruct (rounds_next off (n - tot) Ho ltac:(lia)) as [Hm0 Hr]. fold m in Hm0, Hr.
    destruct (IH s1 (tot + m) (off + m) (got ++ file_bytes F x off m)) as (s2 & E2 & I2); try done.
    + by replace (off + m + (n - (tot + m))) with (off + (n - tot)) by lia.
    + lia.
    + unfold m. lia.
    + replace (n - (tot + m)) with (n - tot - m) by lia. lia.
    + exists s2. split; [|done]. rewrite E2, <-app_assoc, file_bytes_app by (unfold m; lia). do 3 f_equal. f_equal. lia.
Qed.

Lemma mapped_le F x n n' : mapped F x n → n' ≤ n → mapped F x n'.
Proof. intros [M1 M2 M3 M4] H. split; [done|lia| |]; intros; [apply M3|apply M4]; lia. Qed.

Lemma readi_idle F bl d w L s0 s ip x off n :
  fs_idle F (pinned bl) d w L s0 s → (length bl < NBUF)%nat → s0.(k_inodes) !! ip = Some x → x.(i_dev) = dev →
  0 ≤ x.(i_size) → mapped F x x.(i_size) → 0 ≤ off < 2 ^ 32 → 0 ≤ n < 2 ^ 32 →
  let k := if (x.(i_size) <? off) || (2 ^ 32 <=? off + n) then 0 else Z.min n (x.(i_size) - off) in
  ∃ s', readi ip D_local off n s = Done (k, file_bytes F x off k) s' ∧ fs_idle F (pinned bl) d w L s0 s'.
Proof.
  intros I Hlen Hx Hdev Hs Hm Ho Hn k. pose proof I as [lru A]. unfold readi.
  rewrite (bind_Done _ _ _ _ _ (at_inode _ _ _ _ _ _ ip x i_size A Hx)).
  assert (Hw : (u32 (off + n) <? off) = (2 ^ 32 <=? off + n)).
  { unfold u32. destruct (Z.leb_spec (2 ^ 32) (off + n)), (Z.ltb_spec ((off + n) mod 2 ^ 32) off); lia. }
  rewrite Hw. unfold k. destruct (_ || _) eqn:Hc; [by exists s|]. apply orb_false_iff in Hc as [H1%Z.ltb_ge H2%Z.leb_gt].
  replace (u32 (off + n)) with (off + n) by (unfold u32; lia).
  set (n' := if _ <? _ then _ else _). replace (Z.min n (x.(i_size) - off)) with n' by
    (unfold n'; destruct (Z.ltb_spec x.(i_size) (off + n)); lia).
  assert (Hn' : 0 ≤ n' ∧ off + n' ≤ x.(i_size)) by (unfold n'; destruct (Z.ltb_spec x.(i_size) (off + n)); lia).
  destruct (readi_loop F bl d w L s0 ip x n' (io_fuel n') s 0 off []) as (s' & E & I'); try done; try lia.
  - apply (mapped_le F x x.(i_size)); [done|lia].
  - rewrite Z.sub_0_r. apply rounds_fuel. lia.
  - exists s'. rewrite E, Z.sub_0_r. done.
Qed.

End FileFacts.

(** ** [writei] *)

(** A file whose blocks up to byte [n] exist, each in one place, none of them in
    the log, in the indirect block or in the block of the inode. *)
Record file_ok (start size : Z) (sb : superblock) (F : Z → list Z) (x : inode) (n : Z) : Prop := {
  fk_mapped : mapped F x n;
  fk_inj bn bn' : 0 ≤ bn → 0 ≤ bn' → bn * BSIZE < n → bn' * BSIZE < n → file_addr F x bn = file_addr F x bn' → bn = bn';
  fk_home bn : 0 ≤ bn → bn * BSIZE < n → ¬ in_log start size (file_addr F x bn);
  fk_ind bn : 0 ≤ bn → bn * BSIZE < n → Some (file_addr F x bn) ≠ x.(i_addrs) !! NDIRECT;
  fk_inode bn : 0 ≤ bn → bn * BSIZE < n → file_addr F x bn ≠ IBLOCK x.(i_inum) sb;
  fk_table : x.(i_addrs) !! NDIRECT ≠ Some (IBLOCK x.(i_inum) sb)
}.

(** [F'] is [F] with the bytes [bs] of the file at [off], as far as the blocks of
    the first [n] bytes are concerned; all other blocks are the same. *)
Record wrote (F : Z → list Z) (x : inode) (n off : Z) (bs : list Z) (F' : Z → list Z) : Prop := {
  wr_byte i : 0 ≤ i < n → file_byte F' x i = if decide (off ≤ i < off + Z.of_nat (length bs)) then default 0 (bs !! Z.to_nat (i - off)) else file_byte F x i;
  wr_addr bn : 0 ≤ bn → bn * BSIZE < n → file_addr F' x bn = file_addr F x bn;
  wr_other m : (∀ bn, 0 ≤ bn → bn * BSIZE < n → m ≠ file_addr F x bn) → F' m = F m;
  wr_size : (∀ m, length (F m) = Z.to_nat BSIZE) → ∀ m, length (F' m) = Z.to_nat BSIZE
}.

Section WriteFacts.
Context (start size : Z) (sb : superblock).
Implicit Types (F : Z → list Z) (x : inode).

Lemma file_addr_ext F F' x bn :
  (Z.of_nat NDIRECT ≤ bn → F' (default 0 (x.(i_addrs) !! NDIRECT)) = F (default 0 (x.(i_addrs) !! NDIRECT))) →
  file_addr F' x bn = file_addr F x bn.
Proof. intros H. unfold file_addr. destruct (Z.ltb_spec bn (Z.of_nat NDIRECT)); [done|]. by rewrite H. Qed.

(** Storing some bytes in one block of the file *)
Lemma wrote_block F x n off q :
  file_ok start size sb F x n → (∀ m, length (F m) = Z.to_nat BSIZE) → 0 ≤ off →
  Z.of_nat (length q) ≤ BSIZE - off mod BSIZE → off + Z.of_nat (length q) ≤ n → q ≠ [] →
  let a := file_addr F x (off / BSIZE) in
  wrote F x n off q (zupd F a (splice (Z.to_nat (off mod BSIZE)) q (F a))).
Proof.
  intros [[M1 M2 M3 M4] K1 K2 K3 K4 K5] Hl Ho Hq Hn Hne a. assert (0 < Z.of_nat (length q)) by (destruct q; [done|simpl; lia]).
  assert (Hbn : 0 ≤ off / BSIZE ∧ off / BSIZE * BSIZE < n) by (unfold BSIZE in *; lia). destruct Hbn as [B0 B1].
  set (F' := zupd F a _).
  assert (Ha : ∀ bn, 0 ≤ bn → bn * BSIZE < n → file_addr F' x bn = file_addr F x bn).
  { intros bn H0 H1. apply file_addr_ext. intros Hd. unfold F'. apply zupd_ne.
    destruct (lookup_lt_is_Some_2 x.(i_addrs) NDIRECT) as [y Hy]; [lia|]. rewrite Hy. simpl. intros ->.
    apply (K3 (off / BSIZE) B0 B1). by rewrite Hy. }
  split; [|done| |].
  - intros i Hi. unfold file_byte. rewrite Ha by (unfold BSIZE in *; lia). destruct (decide (i / BSIZE = off / BSIZE)) as [E|E].
    + rewrite E. fold a. unfold F'. rewrite zupd_eq, lookup_splice by (rewrite Hl; unfold BSIZE in *; lia).
      unfold BSIZE in *. repeat case_decide; try lia. do 2 f_equal. lia.
    + unfold F'. rewrite zupd_ne, decide_False; [done|unfold BSIZE in *; lia|].
      intros Heq. apply E. apply K1; [unfold BSIZE in *; lia..|done].
  - intros m Hm. unfold F'. apply zupd_ne. by apply Hm.
  - intros _ m. unfold F', zupd. case_decide; [|done]. rewrite length_splice; [done|]. rewrite Hl. unfold BSIZE in *. lia.
Qed.

Lemma wrote_trans F x n off q q' F1 F2 :
  wrote F x n off q F1 → wrote F1 x n (off + Z.of_nat (length q)) q' F2 → wrote F x n off (q ++ q') F2.
Proof.
  intros [W1 W2 W3 W4] [V1 V2 V3 V4]. split.
  - intros i Hi. rewrite V1 by done. rewrite length_app. case_decide as D1.
    + rewrite decide_True, lookup_app_r by lia. do 2 f_equal. lia.
    + rewrite W1 by done. repeat case_decide; try lia. by rewrite lookup_app_l by lia.
  - intros bn H0 H1. by rewrite V2, W2.
  - intros m Hm. rewrite V3, W3; [done|done|]. intros bn H0 H1. rewrite W2 by done. by apply Hm.
  - auto.
Qed.

Lemma wrote_nil F x n off : wrote F x n off [] F.
Proof. split; try done. intros i Hi. simpl. by rewrite decide_False by lia. Qed.

Lemma file_ok_wrote F x n off q F' : file_ok start size sb F x n → wrote F x n off q F' → file_ok start size sb F' x n.
Proof.
  intros [[M1 M2 M3 M4] K1 K2 K3 K4 K5] [W1 W2 W3 W4]. split; [split; try done|..|done].
  - intros bn H0 H1. rewrite W2 by done. by apply M3.
  - intros bn bn' H0 H0' H1 H1'. rewrite !W2 by done. by apply K1.
  - intros bn H0 H1. rewrite W2 by done. by apply K2.
  - intros bn H0 H1. rewrite W2 by done. by apply K3.
  - intros bn H0 H1. rewrite W2 by done. by apply K4.
Qed.
End WriteFacts.

(** The bytes of the file after the write *)
Lemma wrote_file_bytes F x off bs (f : Z → Z) sz :
  0 ≤ off ≤ sz → let N := Z.max sz (off + Z.of_nat (length bs)) in
  (∀ i, 0 ≤ i < N → f i = if decide (off ≤ i < off + Z.of_nat (length bs)) then default 0 (bs !! Z.to_nat (i - off)) else file_byte F x i) →
  (λ j, f (0 + Z.of_nat j)) <$> seq 0 (Z.to_nat N) = splice (Z.to_nat off) bs (file_bytes F x 0 sz).
Proof.
  intros Ho N W1. unfold splice. apply list_eq. intros j. destruct (decide (j < Z.to_nat N)%nat) as [Hj|Hj].
  - rewrite list_lookup_fmap, lookup_seq_lt by done. cbn [fmap option_fmap option_map]. rewrite Nat.add_0_l, Z.add_0_l, W1 by lia. case_decide as D.
    + rewrite lookup_app_r, lookup_app_l by (rewrite length_take, length_file_bytes; lia).
      rewrite length_take, length_file_bytes, Nat.min_l by lia.
      destruct (lookup_lt_is_Some_2 bs (Z.to_nat (Z.of_nat j - off))) as [b Hb]; [lia|]. rewrite Hb. simpl. symmetry.
      rewrite <-Hb. f_equal. lia.
    + destruct (decide (Z.of_nat j < off)).
      * rewrite lookup_app_l, lookup_take_lt, lookup_file_bytes by (rewrite ?length_take, ?length_file_bytes; lia). done.
      * rewrite !lookup_app_r by (rewrite ?length_take, ?length_file_bytes; lia).
        rewrite lookup_drop, length_take, length_file_bytes, lookup_file_bytes by (rewrite ?length_take, ?length_file_bytes; lia).
        f_equal. f_equal. lia.
  - rewrite !lookup_ge_None_2; [done| |rewrite length_fmap, length_seq; lia].
    rewrite !length_app, length_take, length_drop, length_file_bytes. lia.
Qed.

Lemma wrote_bytes F x off bs F' sz :
  let N := Z.max sz (off + Z.of_nat (length bs)) in
  wrote F x N off bs F' → 0 ≤ off ≤ sz →
  file_bytes F' x 0 N = splice (Z.to_nat off) bs (file_bytes F x 0 sz).
Proof. intros N [W1 _ _ _] Ho. by apply (wrote_file_bytes F x off bs (file_byte F' x)). Qed.

Lemma seq2_Done {S A} (a b : M S unit) (k : M S A) s s' : (a;; b) s = Done tt s' → (a;; b;; k) s = k s'.
Proof.
  unfold mbind, M_bind. destruct (a s); cbn [obind]; try discriminate. intros ->. done.
Qed.

Section WriteSpec.
Context {HK : KernelImage} {WB : WaitBound} {BD : BlockDev} {BDok : BlockDevOk}.
Context (p : nat) (pid dev : Z) (start : Z) (Hstart : 0 ≤ start < 2 ^ 31).
Context (size : Z) (Hsize : 1 ≤ size ≤ LOGSIZE + 1).
Implicit Types (s : kstate) (d : gmap Z (list Z)) (w : list (Z * list Z)) (L : log).

Local Abbreviation tx_open := (tx_open p pid dev start size).
Local Abbreviation file_ok := (file_ok start size).

Lemma open_size F bl d w L s0 s : tx_open F bl d w L s0 s → ∀ m, length (F m) = Z.to_nat BSIZE.
Proof. intros [[lru A] _ _]. apply (bc_size _ _ _ _ (at_cache _ _ _ _ _ _ _ _ _ A)). Qed.

Lemma open_bmap F bl d w L s0 s ip x n bn :
  tx_open F bl d w L s0 s → (length bl < NBUF)%nat → s0.(k_inodes) !! ip = Some x → x.(i_dev) = dev →
  mapped F x n → 0 ≤ bn → bn * BSIZE < n →
  ∃ s', bmap ip bn s = Done (file_addr F x bn) s' ∧ tx_open F bl d w L s0 s'.
Proof.
  intros [I HL Ho] Hlen Hx Hdev Hm H0 Hb.
  destruct (bmap_mapped p pid dev F bl d w L s0 s ip x n bn I Hlen Hx Hdev Hm H0 Hb) as (s' & E & I').
  by exists s'.
Qed.

Lemma writei_round F bl d w L s0 s ip x N n tot off bs :
  tx_open F bl d w L s0 s → fits size (S (length bl)) → (length bl < NBUF)%nat → s0.(k_inodes) !! ip = Some x →
  x.(i_dev) = dev → file_ok s0.(k_sb) F x N → 0 ≤ off → tot < n → off + (n - tot) ≤ N →
  Z.of_nat (length bs) = n - tot →
  let m := Z.min (n - tot) (BSIZE - off mod BSIZE) in
  ∃ s' F' L', writei_body ip n (tot, off, S_local bs) s =
      Done (inl (tot + m, off + m, S_local (drop (Z.to_nat m) bs))) s' ∧
    tx_open F' (log_add bl (file_addr F x (off / BSIZE))) d w L' s0 s' ∧
    wrote F x N off (take (Z.to_nat m) bs) F'.
Proof.
  intros T Hf Hlen Hx Hdev Hok Ho Ht Hn Hbs m. assert (Hm : 0 < m ≤ n - tot ∧ m ≤ BSIZE - off mod BSIZE) by (unfold m, BSIZE; lia).
  assert (Hbn : 0 ≤ off / BSIZE ∧ off / BSIZE * BSIZE < N) by (unfold BSIZE; lia). destruct Hbn as [B0 B1].
  pose proof (fk_mapped _ _ _ _ _ _ Hok) as Hmap. unfold writei_body. rewrite (proj2 (Z.ltb_lt _ _)) by done. cbn [negb].
  destruct (open_bmap F bl d w L s0 s ip x N (off / BSIZE) T Hlen Hx Hdev Hmap B0 B1) as (s1 & E1 & T1).
  rewrite (bind_Done _ _ _ _ _ E1), (proj2 (Z.eqb_neq _ 0)) by (by apply (mp_addr _ _ _ Hmap)).
  pose proof T1 as [[lru A1] _ _]. rewrite (bind_Done _ _ _ _ _ (at_inode p pid dev _ _ _ _ _ _ ip x i_dev A1 Hx)), Hdev.
  set (a := file_addr F x (off / BSIZE)) in *.
  destruct (tx_bread p pid dev start Hstart size _ _ _ _ _ _ _ a T1 Hlen) as (i & s2 & E2 & [[lru2 A2] C2 L2 O2 N2 M2]).
  rewrite (bind_Done _ _ _ _ _ E2). fold m.
  destruct (at_myproc p pid dev _ _ _ _ _ _ A2) as (s3 & E3 & A3).
  assert (E4 : either_copyin (S_local bs) m s2 = Done (0, take (Z.to_nat m) bs) s3).
  { unfold either_copyin. by rewrite (bind_Done _ _ _ _ _ E3). }
  rewrite (bind_Done _ _ _ _ _ E4). cbn beta iota. change (0 =? -1) with false. cbn iota.
  pose proof (open_size _ _ _ _ _ _ _ T) as Hsz.
  set (q := take (Z.to_nat m) bs). assert (Lq : Z.of_nat (length q) = m) by (unfold q; rewrite length_take; lia).
  destruct (tx_store p pid dev start Hstart size Hsize i a (splice (Z.to_nat (off mod BSIZE)) q) F bl d w L s0 s3) as (s4 & L4 & E5 & T4 & _).
  - split; [by exists lru2|done..].
  - by apply (fk_home _ _ _ _ _ _ Hok).
  - done.
  - intros b Hb. rewrite length_splice; [done|]. unfold BSIZE in *. lia.
  - rewrite (seq3_Done _ _ _ _ _ _ E5). eexists s4, _, L4. split; [done|]. split; [done|].
    eapply wrote_block; [done|done|done|rewrite Lq; tauto|rewrite Lq; lia|]. intros Hq. rewrite Hq in Lq. simpl in Lq. lia.
Qed.

Lemma writei_loop d w s0 ip x N n : ∀ fuel F bl L s tot off bs,
  tx_open F bl d w L s0 s → Z.of_nat (length bl) + rounds off (n - tot) < size →
  Z.of_nat (length bl) + rounds off (n - tot) < Z.of_nat NBUF → s0.(k_inodes) !! ip = Some x →
  x.(i_dev) = dev → file_ok s0.(k_sb) F x N → 0 ≤ off → tot ≤ n → off + (n - tot) ≤ N →
  Z.of_nat (length bs) = n - tot → rounds off (n - tot) < Z.of_nat fuel →
  ∃ s' F' bl' L', loop fuel (writei_body ip n) (tot, off, S_local bs) s = Done (n, off + (n - tot)) s' ∧
    tx_open F' bl' d w L' s0 s' ∧ wrote F x N off bs F' ∧ Z.of_nat (length bl') ≤ Z.of_nat (length bl) + rounds off (n - tot).
Proof.
  induction fuel as [|fuel IH]; intros F bl L s tot off bs T Hsz Hnb Hx Hdev Hok Ho Ht HN Hbs Hf.
  { unfold rounds, BSIZE in Hf. destruct (Z.eqb_spec (n - tot) 0); lia. }
  cbn [loop]. destruct (decide (tot = n)) as [->|Hne].
  - unfold writei_body. rewrite Z.ltb_irrefl, Z.sub_diag, Z.add_0_r. cbn [negb]. exists s, F, bl, L. split; [done|]. split; [done|].
    destruct bs; [|simpl in Hbs; lia]. split; [apply wrote_nil|]. unfold rounds. simpl. lia.
  - destruct (rounds_next off (n - tot) Ho ltac:(lia)) as [Hm0 Hr].
    destruct (writei_round F bl d w L s0 s ip x N n tot off bs) as (s1 & F1 & L1 & E1 & T1 & W1); try done; try lia.
    { unfold fits. lia. }
    rewrite (bind_Done _ _ _ _ _ E1). cbn zeta. set (m := Z.min (n - tot) (BSIZE - off mod BSIZE)) in *.
    assert (Hm : m ≤ n - tot) by (unfold m; lia). pose proof (length_log_add bl (file_addr F x (off / BSIZE))) as Hla.
    assert (Lt : Z.of_nat (length (take (Z.to_nat m) bs)) = m) by (rewrite length_take; lia).
    replace (n - tot - m) with (n - (tot + m)) in Hr by lia.
    destruct (IH F1 (log_add bl (file_addr F x (off / BSIZE))) L1 s1 (tot + m) (off + m) (drop (Z.to_nat m) bs))
      as (s2 & F2 & bl2 & L2 & E2 & T2 & W2 & H2); try done; try lia.
    + by eapply file_ok_wrote.
    + rewrite length_drop. lia.
    + exists s2, F2, bl2, L2. split; [rewrite E2; do 2 f_equal; lia|]. split; [done|]. split; [|lia].
      rewrite <-(take_drop (Z.to_nat m) bs). eapply wrote_trans; [done|]. by rewrite Lt.
Qed.

(** The inode in memory is changed. *)
Lemma open_upd_inode F bl d w L s0 s i f :
  tx_open F bl d w L s0 s → tx_open F bl d w L (upd_inode i f s0) (upd_inode i f s).
Proof. intros [[lru A] HL Ho]. split; [|done|done]. exists lru. by apply at_upd_inode. Qed.

(** Writing the inode leaves the bytes of the file. *)
Lemma bytes_inode sb F x N off bs F1 F2 sz :
  file_ok sb F x N → wrote F x N off bs F1 → (∀ m, m ≠ IBLOCK x.(i_inum) sb → F2 m = F1 m) →
  file_bytes F2 (set_i_size sz x) 0 N = file_bytes F1 x 0 N.
Proof.
  intros Hfile W D. unfold file_bytes. apply list_fmap_ext. intros i j Hj. apply lookup_seq in Hj as [-> Hj].
  assert (Hb : 0 ≤ Z.of_nat i / BSIZE ∧ Z.of_nat i / BSIZE * BSIZE < N) by (unfold BSIZE; lia). destruct Hb as [H0 H1].
  rewrite !Z.add_0_l, Nat.add_0_l. unfold file_byte.
  change (file_addr F2 (set_i_size sz x)) with (file_addr F2 x).
  rewrite (file_addr_ext F1 F2); [|intros _; apply D].
  - rewrite D; [done|]. rewrite (wr_addr _ _ _ _ _ _ W) by done. by apply (fk_inode _ _ _ _ _ _ Hfile).
  - pose proof (mp_addrs _ _ _ (fk_mapped _ _ _ _ _ _ Hfile)) as Hl.
    destruct (lookup_lt_is_Some_2 x.(i_addrs) NDIRECT) as [y Hy]; [lia|]. rewrite Hy. simpl. intros ->.
    by apply (fk_table _ _ _ _ _ _ Hfile).
Qed.

(** What follows the loop: the size grows if the write went beyond it, and the
    inode is written. *)
Lemma writei_tail F bl d w L s0 s ip x off :
  let x' := set_i_size (Z.max x.(i_size) off) x in
  let blk := IBLOCK x.(i_inum) s0.(k_sb) in
  tx_open F bl d w L s0 s → s0.(k_inodes) !! ip = Some x → x.(i_dev) = dev → inode_ok x → 0 ≤ off < 2 ^ 32 →
  0 ≤ x.(i_inum) < 2 ^ 32 → ¬ in_log start size blk → fits size (1 + length bl) → (1 + length bl < NBUF)%nat →
  ∃ s' F' L', ((if x.(i_size) <? off then inode_set ip (set_i_size off) else mret tt);; iupdate ip) s = Done tt s' ∧
    tx_open F' (log_add bl blk) d w L' (upd_inode ip (λ _, x') s0) s' ∧ L'.(lg_outstanding) = L.(lg_outstanding) ∧
    (∀ y, dinode_load (dinode_off x.(i_inum)) (F' blk) y = with_dinode x' y) ∧
    (∀ i y, 0 ≤ i < 2 ^ 32 → i ≠ x.(i_inum) →
      dinode_load (dinode_off i) (F' (IBLOCK i s0.(k_sb))) y = dinode_load (dinode_off i) (F (IBLOCK i s0.(k_sb))) y) ∧
    ∀ m, m ≠ blk → F' m = F m.
Proof.
  intros x' blk T Hx Hdev Hok Ho Hi Hl Hf Hn.
  assert (Hok' : inode_ok x') by (destruct Hok as [K1 K2 K3 K4 K5 K6 K7]; split; try done; unfold x'; cbn; lia).
  assert (Hstep : ∃ s1, (if x.(i_size) <? off then inode_set ip (set_i_size off) else mret tt) s = Done tt s1 ∧
    tx_open F bl d w L (upd_inode ip (λ _, x') s0) s1).
  { unfold x'. destruct (Z.ltb_spec x.(i_size) off) as [Hlt|Hge].
    - exists (upd_inode ip (set_i_size off) s). split; [done|]. rewrite <-(upd_inode_agree ip (set_i_size off) _ x s0);
        [by apply open_upd_inode|done|]. by rewrite Z.max_r by lia.
    - exists s. split; [done|]. rewrite (upd_inode_same ip _ x); [done|done|]. rewrite Z.max_l by lia. by destruct x. }
  destruct Hstep as (s1 & E1 & T1). rewrite (bind_Done _ _ _ _ _ E1).
  exact (iupdate_open p pid dev start Hstart size Hsize F bl d w L _ s1 ip x' T1 (upd_inode_lookup ip _ x s0 Hx) Hdev Hok' Hi Hl Hf Hn).
Qed.

Lemma writei_open F bl d w L s0 s ip x off bs :
  let n := Z.of_nat (length bs) in
  let N := Z.max x.(i_size) (off + n) in
  let x' := set_i_size N x in
  let blk := IBLOCK x.(i_inum) s0.(k_sb) in
  tx_open F bl d w L s0 s → s0.(k_inodes) !! ip = Some x → x.(i_dev) = dev → inode_ok x →
  0 ≤ x.(i_inum) < 2 ^ 32 → ¬ in_log start size blk → 0 ≤ off ≤ x.(i_size) → file_ok s0.(k_sb) F x N →
  Z.of_nat (length bl) + rounds off n + 1 < size → Z.of_nat (length bl) + rounds off n + 1 < Z.of_nat NBUF →
  ∃ s' F' bl' L' s0', writei ip (S_local bs) off n s = Done n s' ∧ tx_open F' bl' d w L' s0' s' ∧
    s0'.(k_inodes) !! ip = Some x' ∧
    file_bytes F' x' 0 N = splice (Z.to_nat off) bs (file_bytes F x 0 x.(i_size)) ∧
    (∀ y, dinode_load (dinode_off x.(i_inum)) (F' blk) y = with_dinode x' y) ∧
    (∀ m, m ≠ blk → (∀ bn, 0 ≤ bn → bn * BSIZE < N → m ≠ file_addr F x bn) → F' m = F m).
Proof.
  intros n N x' blk T Hx Hdev Hok Hi Hl Ho Hfile Hsz Hnb. pose proof (mp_max _ _ _ (fk_mapped _ _ _ _ _ _ Hfile)) as Hmax.
  assert (Hn : 0 ≤ n ∧ off + n ≤ N) by lia. unfold MAXFILE, BSIZE in Hmax.
  pose proof T as [[lru A] _ _]. unfold writei. rewrite (bind_Done _ _ _ _ _ (at_inode p pid dev _ _ _ _ _ _ ip x i_size A Hx)).
  replace (u32 (off + n)) with (off + n) by (unfold u32; lia).
  rewrite (proj2 (Z.ltb_ge x.(i_size) off)), (proj2 (Z.ltb_ge (off + n) off)) by lia. cbn [orb].
  rewrite (proj2 (Z.ltb_ge (MAXFILE * BSIZE) (off + n))) by (unfold MAXFILE, BSIZE; lia).
  destruct (writei_loop d w s0 ip x N n (io_fuel n) F bl L s 0 off bs) as (s1 & F1 & bl1 & L1 & E1 & T1 & W1 & B1);
    rewrite ?Z.sub_0_r in *; try done; try lia; [apply rounds_fuel; lia|].
  rewrite (bind_Done _ _ _ _ _ E1). cbn beta iota.
  pose proof T1 as [[lru1 A1] _ _]. rewrite (bind_Done _ _ _ _ _ (at_inode p pid dev _ _ _ _ _ _ ip x i_size A1 Hx)).
  destruct (writei_tail F1 bl1 d w L1 s0 s1 ip x (off + n)) as (s2 & F2 & L2 & E2 & T2 & _ & D1 & _ & D2); try done; try lia.
  { unfold fits. lia. }
  eexists s2, F2, _, L2, _. split.
  - by rewrite (seq2_Done _ _ _ _ _ E2).
  - split; [exact T2|]. split; [exact (upd_inode_lookup ip (λ _, x') x s0 Hx)|]. split; [|split; [done|]].
    + rewrite <-(wrote_bytes F x off bs F1 x.(i_size)) by done. by eapply bytes_inode.
    + intros m Hm Hd. rewrite D2 by done. by apply (wr_other _ _ _ _ _ _ W1).
Qed.

End WriteSpec.

(** ** A file of the small file system *)

Definition inode8 : inode := mk_inode 1 8 1 true 2 0 0 1 1500 (46 :: 47 :: replicate 11 0).

Lemma inode8_mapped F : mapped F inode8 1500.
Proof.
  split; [done|by unfold MAXFILE, BSIZE| |unfold NDIRECT, BSIZE; lia].
  intros bn H0 Hb. assert (bn = 0 ∨ bn = 1) as [-> | ->] by (unfold BSIZE in Hb; lia); done.
Qed.


Lemma inode8_ok : inode_ok inode8.
Proof.
  split; try (cbn; lia); [done|]. apply (proj1 (Forall_forall (λ a, 0 ≤ a < 2 ^ 32) _)). cbn. repeat (constructor; [lia|]). constructor.
Qed.

Lemma inode8_file F : file_ok 2 30 sb_small F inode8 1600.
Proof.
  assert (Hbn : ∀ bn, 0 ≤ bn → bn * BSIZE < 1600 → bn = 0 ∨ bn = 1) by (unfold BSIZE; lia). split.
  - destruct (inode8_mapped F) as [M1 M2 M3 M4]. split; [done|by unfold MAXFILE, BSIZE| |unfold NDIRECT, BSIZE; lia].
    intros bn H0 H1. by destruct (Hbn bn H0 H1) as [-> | ->].
  - intros bn bn' H0 H0' H1 H1'. by destruct (Hbn bn H0 H1) as [-> | ->], (Hbn bn' H0' H1') as [-> | ->].
  - intros bn H0 H1. unfold in_log.
    destruct (Hbn bn H0 H1) as [-> | ->]; [change (file_addr F inode8 0) with 46|change (file_addr F inode8 1) with 47]; lia.
  - intros bn H0 H1. by destruct (Hbn bn H0 H1) as [-> | ->].
  - intros bn H0 H1. by destruct (Hbn bn H0 H1) as [-> | ->].
  - done.
Qed.
