(* ===== verification/DirFacts.v ===== *)
(** * Directories ([dirlookup], [dirlink] and [iget] of [kernel/fs.c])

    A directory is a file of 16-byte entries.  [dir_find] is what a directory
    means: the first entry in use with the name.  The file operations of FileFacts
    and the inode table give the operations on directories that meaning. *)

From S2P Require Import Prelude State Spinlock Cstring Riscv Kalloc Vm Proc ProcFacts Sleeplock.
From S2P Require Import Quiet Bio BioFacts BioSpec Log LogFacts LogSpec Fs FsFacts InodeFacts FileFacts.

(** ** Names *)

Definition is_byte (c : Z) : Prop := 0 ≤ c < 2 ^ 8.

(** A string argument that [namecmp] does not leave. *)
Definition name_ok (name : list Z) : Prop := Forall is_byte name ∧ ((DIRSIZ ≤ length name)%nat ∨ 0 ∈ name).

Lemma strncmp_defined n p q :
  Forall is_byte p → Forall is_byte q → (n ≤ length p)%nat ∨ 0 ∈ p → (n ≤ length q)%nat →
  ∃ v, strncmp p q n = Some v ∧ (v = 0 ↔ cstr n p = cstr n q).
Proof.
  revert p q; induction n as [|n IH]; intros p q Hp Hq H1 H2; [exists 0; by destruct p, q|].
  destruct q as [|d q]; [simpl in H2; lia|]. destruct p as [|c p].
  { destruct H1 as [H1|H1]; [simpl in H1; lia|by apply not_elem_of_nil in H1]. }
  apply Forall_cons in Hp as [Hc Hp]. apply Forall_cons in Hq as [Hd Hq]. cbn [strncmp cstr length] in *.
  assert (u8 c = c) as -> by (by apply Z.mod_small). assert (u8 d = d) as -> by (by apply Z.mod_small).
  destruct (Z.eqb_spec c 0) as [->|Hc0]; cbn [negb andb].
  { exists (0 - d). split; [done|]. destruct (Z.eqb_spec d 0); split; intros; (done || lia). }
  destruct (Z.eqb_spec c d) as [->|Hne].
  - destruct (IH p q) as (v & E & Hv); [done|done| |lia|].
    + destruct H1 as [H1|[H1|H1]%elem_of_cons]; [left; lia|by destruct Hc0|by right].
    + exists v. split; [done|]. rewrite (proj2 (Z.eqb_neq d 0)) by done. rewrite Hv. split; [by intros ->|by intros [= ?]].
  - exists (c - d). split; [done|]. split; [lia|]. destruct (Z.eqb_spec d 0); [done|]. intros [= ? ?]. done.
Qed.

Lemma strncpy_defined n t : (n ≤ length t)%nat ∨ 0 ∈ t → ∃ r, strncpy t n = Some r.
Proof.
  revert t; induction n as [|n IH]; intros t H; [by destruct t; eexists|]. destruct t as [|c t].
  { destruct H as [H|H]; [simpl in H; lia|by apply not_elem_of_nil in H]. }
  cbn [strncpy length] in *. destruct (Z.eqb_spec c 0) as [->|Hc]; [by eexists|].
  destruct (IH t) as [r Hr]; [|exists (c :: r); by rewrite Hr].
  destruct H as [H|[H|H]%elem_of_cons]; [left; lia|by destruct Hc|by right].
Qed.

(** What [strncpy] stores is the same name. *)
Lemma strncpy_cstr n t r : strncpy t n = Some r → cstr n r = cstr n t ∧ length r = n.
Proof.
  intros H. pose proof (strncpy_spec t n r H) as [E Hl]. split; [|done]. revert t r H E Hl.
  induction n as [|n IH]; intros [|c t] r H E Hl; cbn [strncpy cstr] in *; simplify_eq/=; try done.
  destruct (Z.eqb_spec c 0) as [->|Hc]; simplify_eq/=; [done|].
  apply bind_Some in H as (r' & Hr' & [= <-]). rewrite (proj2 (Z.eqb_neq c 0)) by done. f_equal.
  pose proof (strncpy_spec t n r' Hr') as [E' Hl']. by apply IH.
Qed.

(** ** Entries *)

Definition in_use (de : list Z) : bool := negb (de_inum de =? 0).

Definition names (name de : list Z) : bool := in_use de && bool_decide (cstr DIRSIZ (de_name de) = cstr DIRSIZ name).

(** The inode number and the offset of the first entry with the name. *)
Fixpoint dir_find (name : list Z) (slots : list (list Z)) (off : Z) : option (Z * Z) :=
  match slots with
  | [] => None
  | de :: slots => if names name de then Some (de_inum de, off) else dir_find name slots (off + dirent_size)
  end.

(** The offset of the first free entry, or the end. *)
Fixpoint dir_free (slots : list (list Z)) (off : Z) : Z :=
  match slots with
  | [] => off
  | de :: slots => if in_use de then dir_free slots (off + dirent_size) else off
  end.

(** The entries of a directory. *)
Definition dir_slots (F : Z → list Z) (x : inode) : list (list Z) :=
  (λ k, file_bytes F x (dirent_size * Z.of_nat k) dirent_size) <$> seq 0 (Z.to_nat (x.(i_size) / dirent_size)).

(** A directory in the inode table. *)
Record dir_ok (F : Z → list Z) (x : inode) : Prop := {
  do_type : x.(i_type) = T_DIR;
  do_size : 0 ≤ x.(i_size) ∧ x.(i_size) mod dirent_size = 0;
  do_mapped : mapped F x x.(i_size);
  do_bytes : Forall is_byte (file_bytes F x 0 x.(i_size))
}.

Lemma length_dir_slots F x : length (dir_slots F x) = Z.to_nat (x.(i_size) / dirent_size).
Proof. unfold dir_slots. by rewrite length_fmap, length_seq. Qed.

Lemma slots_fuel F x : dir_ok F x → (Z.to_nat (x.(i_size) / dirent_size) < dir_fuel x.(i_size))%nat.
Proof. intros [_ [D _] _ _]. unfold dir_fuel, dirent_size. lia. Qed.

Lemma lookup_dir_slots F x k : (k < length (dir_slots F x))%nat →
  dir_slots F x !! k = Some (file_bytes F x (dirent_size * Z.of_nat k) dirent_size).
Proof. rewrite length_dir_slots. intros Hk. unfold dir_slots. by rewrite list_lookup_fmap, lookup_seq_lt. Qed.

Lemma slot_bytes F x de : dir_ok F x → de ∈ dir_slots F x → Forall is_byte de ∧ length de = 16%nat.
Proof.
  intros [_ [D0 D1] _ D3] [k Hk]%list_elem_of_lookup_1. pose proof (lookup_lt_Some _ _ _ Hk) as Hlt.
  rewrite lookup_dir_slots in Hk by done. injection Hk as <-. rewrite length_dir_slots in Hlt. unfold dirent_size in *.
  split; [|by rewrite length_file_bytes]. rewrite Forall_forall in D3. apply Forall_forall. intros c [j Hj]%list_elem_of_lookup_1.
  pose proof (lookup_lt_Some _ _ _ Hj) as Hj'. rewrite length_file_bytes in Hj'. rewrite lookup_file_bytes in Hj by done. injection Hj as <-.
  apply D3. apply (list_elem_of_lookup_2 _ (16 * k + j)). rewrite lookup_file_bytes by lia. do 2 f_equal. lia.
Qed.

(** ** The inode table *)

Definition iget_hit (dev inum : Z) (tbl : list inode) (i : nat) : bool :=
  match tbl !! i with Some x => (0 <? x.(i_ref)) && (x.(i_dev) =? dev) && (x.(i_inum) =? inum) | None => false end.

Definition iget_empty (tbl : list inode) (i : nat) : bool :=
  match tbl !! i with Some x => x.(i_ref) =? 0 | None => false end.

Definition new_inode (dev inum : Z) (x : inode) : inode := set_i_valid false (set_i_ref 1 (set_i_inum inum (set_i_dev dev x))).

Definition one_more (x : inode) : inode := set_i_ref (x.(i_ref) + 1) x.

(** The entry that [iget] returns and how it changes: one more reference to the
    inode, or the first entry without references taken for it. *)
Definition iget_slot (dev inum : Z) (tbl : list inode) : option (nat * (inode → inode)) :=
  match List.find (iget_hit dev inum tbl) (seq 0 NINODE) with
  | Some i => Some (i, one_more)
  | None => i ← List.find (iget_empty tbl) (seq 0 NINODE); Some (i, new_inode dev inum)
  end.

Section DirFacts.
Context {WB : WaitBound} {BD : BlockDev} {BDok : BlockDevOk}.
Context (p : nat) (pid dev : Z).
Implicit Types (s : kstate) (d : gmap Z (list Z)) (w : list (Z * list Z)) (L : log).

Local Abbreviation fs_at := (fs_at p pid dev).
Local Abbreviation fs_idle := (fs_idle p pid dev).

Lemma iget_visit_ok inum s i x empty : s.(k_inodes) !! i = Some x →
  iget_visit dev inum i empty s =
  if iget_hit dev inum s.(k_inodes) i then (inode_set i one_more;; release L_itable;; mret (inr i)) s
  else Done (inl (if empty is None then if iget_empty s.(k_inodes) i then Some i else None else empty)) s.
Proof.
  intros Hx. unfold iget_visit. rewrite (bind_Done _ _ _ _ _ (inode_get_ok i_ref s i x Hx)).
  rewrite (bind_Done _ _ _ _ _ (inode_get_ok i_dev s i x Hx)), (bind_Done _ _ _ _ _ (inode_get_ok i_inum s i x Hx)).
  unfold iget_hit, iget_empty. rewrite Hx. by destruct (_ && _ && _).
Qed.

(** The scan of the table, when the lock can be released. *)
Lemma iget_scan inum s l empty : (∀ i, i ∈ l → (i < length s.(k_inodes))%nat) →
  match List.find (iget_hit dev inum s.(k_inodes)) l with
  | Some i => ∀ s', release L_itable (upd_inode i one_more s) = Done tt s' →
      for_acc l empty (iget_visit dev inum) s = Done (inr i) s'
  | None => for_acc l empty (iget_visit dev inum) s =
      Done (inl (if empty is None then List.find (iget_empty s.(k_inodes)) l else empty)) s
  end.
Proof.
  revert empty. induction l as [|i l IH]; intros empty Hl; cbn [for_acc List.find]; [by destruct empty|].
  destruct (lookup_lt_is_Some_2 s.(k_inodes) i) as [x Hx]; [apply Hl, list_elem_of_here|].
  assert (Hl' : ∀ j, j ∈ l → (j < length s.(k_inodes))%nat) by (intros j Hj; apply Hl; by right).
  pose proof (iget_visit_ok inum s i x empty Hx) as E. destruct (iget_hit dev inum s.(k_inodes) i).
  - intros s' Hs'. rewrite (bind_Done _ _ _ (inr i) s'); [done|]. rewrite E.
    rewrite (bind_Done (inode_set i one_more) _ s tt (upd_inode i one_more s) eq_refl). by rewrite (bind_Done _ _ _ _ _ Hs').
  - rewrite (bind_Done _ _ _ _ _ E). specialize (IH (if empty is None then if iget_empty s.(k_inodes) i then Some i else None else empty) Hl').
    destruct (List.find (iget_hit dev inum s.(k_inodes)) l); [done|]. rewrite IH.
    destruct empty; [done|]. by destruct (iget_empty s.(k_inodes) i).
Qed.

(** The lock of the table around a change of an entry. *)
Lemma at_itable V d w L s0 s : fs_at V d w L s0 s →
  ∃ s1, acquire L_itable s = Done tt s1 ∧ s1.(k_inodes) = s0.(k_inodes) ∧
    ∀ i f, ∃ s2, release L_itable (upd_inode i f s1) = Done tt s2 ∧ fs_at V d w L (upd_inode i f s0) s2.
Proof.
  intros [C B E1 E2 E3 Fr]. destruct (acquire_calm p pid [] s L_itable C) as (s1 & Ea & C1 & Q1);
    [apply bool_decide_eq_true_2; by apply (bool_decide_eq_true_1 _); vm_compute|apply not_elem_of_nil|done|].
  exists s1. split; [done|]. assert (Fr1 : fframe p s0 s1) by (eapply fframe_bframe; [done|by apply quietly_bframe]).
  split. { unfold fframe in Fr1. by rewrite (bframe_get p k_inodes _ _ Fr1). }
  intros i f. destruct (release_calm p pid [] (upd_inode i f s1) L_itable) as (s2 & Er & C2 & Q2); [by eapply calm_upd|].
  exists s2. split; [done|]. pose proof (quietly_parts _ _ _ Q1) as (X1 & X2 & X3). pose proof (quietly_parts _ _ _ Q2) as (Y1 & Y2 & Y3).
  split; [done| |rewrite Y1; by rewrite <-E1, <-X1|rewrite Y2; by rewrite <-E2, <-X2|rewrite Y3; by rewrite <-E3, <-X3|].
  - eapply quietly_bcache; [exact Q2|]. eapply bcache_ext; [eapply quietly_bcache; [exact Q1|exact B]|done..].
  - eapply fframe_bframe; [|by apply quietly_bframe].
    exact (bframe_upd p (upd_inode i f) _ _ Fr1 ltac:(done) ltac:(done) ltac:(done) ltac:(done) (proj2 Fr1)).
Qed.
Lemma upd_inode_upd i f g s : upd_inode i f (upd_inode i g s) = upd_inode i (f ∘ g) s.
Proof. unfold upd_inode. kproj. rewrite list_alter_alter_eq. keq. Qed.

Lemma iget_ok V d w L s0 s inum : fs_at V d w L s0 s → length s0.(k_inodes) = NINODE →
  match iget_slot dev inum s0.(k_inodes) with
  | Some (i, f) => ∃ s', iget dev inum s = Done i s' ∧ fs_at V d w L (upd_inode i f s0) s'
  | None => ∃ s', iget dev inum s = Panic "iget: no inodes" s'
  end.
Proof.
  intros A Hn. destruct (at_itable V d w L s0 s A) as (s1 & Ea & Ei & Hr). unfold iget. rewrite (bind_Done _ _ _ _ _ Ea).
  pose proof (iget_scan inum s1 (seq 0 NINODE) None) as Hs. rewrite Ei, Hn in Hs.
  specialize (Hs ltac:(intros i ?%elem_of_seq; lia)). unfold iget_slot.
  destruct (List.find (iget_hit dev inum s0.(k_inodes)) (seq 0 NINODE)) as [i|].
  - destruct (Hr i one_more) as (s2 & Er & A2). exists s2. split; [|done]. by rewrite (bind_Done _ _ _ _ _ (Hs s2 Er)).
  - rewrite (bind_Done _ _ _ _ _ Hs). destruct (List.find (iget_empty s0.(k_inodes)) (seq 0 NINODE)) as [i|]; [|by exists s1].
    cbn [mbind option_bind]. destruct (Hr i (new_inode dev inum)) as (s2 & Er & A2). exists s2. split; [|done].
    rewrite !(bind_Done (inode_set _ _) _ _ tt _ eq_refl), !upd_inode_upd.
    match goal with |- context [upd_inode i ?g s1] => change g with (new_inode dev inum) end. by rewrite (bind_Done _ _ _ _ _ Er).
Qed.
(** ** [dirlookup] *)

(** An entry is read in one piece. *)
Lemma read_slot F bl d w L s0 s dp x k de :
  fs_idle F (pinned bl) d w L s0 s → (length bl < NBUF)%nat → s0.(k_inodes) !! dp = Some x → x.(i_dev) = dev →
  dir_ok F x → x.(i_size) < 2 ^ 32 - dirent_size → dir_slots F x !! k = Some de →
  let off := dirent_size * Z.of_nat k in
  (off <? x.(i_size)) = true ∧ u32 (off + dirent_size) = dirent_size * Z.of_nat (S k) ∧
  ∃ s', readi dp D_local off dirent_size s = Done (dirent_size, de) s' ∧ fs_idle F (pinned bl) d w L s0 s'.
Proof.
  intros I Hlen Hx Hdev [D1 [D2 D2'] D3 D4] Hs Hk off. pose proof (lookup_lt_Some _ _ _ Hk) as Hlt.
  rewrite lookup_dir_slots in Hk by done. injection Hk as <-. rewrite length_dir_slots in Hlt.
  assert (Ho : 0 ≤ off ∧ off + 16 ≤ x.(i_size)) by (unfold off, dirent_size in *; lia).
  split; [apply Z.ltb_lt; lia|]. split; [unfold u32, off, dirent_size in *; lia|].
  destruct (readi_idle p pid dev F bl d w L s0 s dp x off dirent_size I Hlen Hx Hdev D2 D3) as (s' & E & I');
    [unfold dirent_size in *; lia..|]. exists s'. split; [|done]. rewrite E.
  rewrite (proj2 (Z.ltb_ge _ _)), (proj2 (Z.leb_gt _ _)), Z.min_l by (unfold dirent_size in *; lia). done.
Qed.

Lemma namecmp_ok F x name de : dir_ok F x → de ∈ dir_slots F x → name_ok name →
  ∃ v, namecmp name (de_name de) = Some v ∧ (v =? 0) = bool_decide (cstr DIRSIZ (de_name de) = cstr DIRSIZ name).
Proof.
  intros HD Hde [Hb Hn]. destruct (slot_bytes F x de HD Hde) as [Hd Hl].
  destruct (strncmp_defined DIRSIZ name (de_name de)) as (v & E & Hv); [done|by apply Forall_drop|done| |].
  - unfold de_name. rewrite length_drop, Hl. done.
  - exists v. split; [done|]. apply eq_true_iff_eq. rewrite Z.eqb_eq, bool_decide_eq_true, Hv. split; by intros ->.
Qed.

Lemma dirlookup_loop F bl d w L s0 dp x name : ∀ slots k fuel s,
  fs_idle F (pinned bl) d w L s0 s → (length bl < NBUF)%nat → s0.(k_inodes) !! dp = Some x → x.(i_dev) = dev →
  dir_ok F x → x.(i_size) < 2 ^ 32 - dirent_size → name_ok name → length s0.(k_inodes) = NINODE →
  drop k (dir_slots F x) = slots → (k ≤ length (dir_slots F x))%nat → (length slots < fuel)%nat →
  match dir_find name slots (dirent_size * Z.of_nat k) with
  | None => ∃ s', loop fuel (dirlookup_body dp name) (dirent_size * Z.of_nat k) s = Done None s' ∧ fs_idle F (pinned bl) d w L s0 s'
  | Some (inum, off) =>
      match iget_slot dev inum s0.(k_inodes) with
      | Some (ip, f) => ∃ s', loop fuel (dirlookup_body dp name) (dirent_size * Z.of_nat k) s = Done (Some (ip, off)) s' ∧
          fs_idle F (pinned bl) d w L (upd_inode ip f s0) s'
      | None => ∃ s', loop fuel (dirlookup_body dp name) (dirent_size * Z.of_nat k) s = Panic "iget: no inodes" s'
      end
  end.
Proof.
  induction slots as [|de slots IH]; intros k [|fuel] s I Hlen Hx Hdev HD Hs Hn Ht Hdrop Hk Hf; try (simpl in Hf; lia);
    pose proof I as [lru A]; cbn [loop dir_find].
  - exists s. split; [|done]. rewrite (bind_Done _ _ _ (inr None) s); [done|]. unfold dirlookup_body.
    rewrite (bind_Done _ _ _ _ _ (at_inode p pid dev _ _ _ _ _ _ dp x i_size A Hx)).
    apply (f_equal length) in Hdrop. rewrite length_drop, length_dir_slots in Hdrop. cbn [length] in Hdrop. rewrite length_dir_slots in Hk.
    destruct HD as [_ [D2 D2'] _ _]. by rewrite (proj2 (Z.ltb_ge _ _)) by (unfold dirent_size in *; lia).
  - assert (Hde : dir_slots F x !! k = Some de) by (rewrite <-(Nat.add_0_r k), <-lookup_drop, Hdrop; done).
    destruct (read_slot F bl d w L s0 s dp x k de I Hlen Hx Hdev HD Hs Hde) as (E0 & Eu & s1 & E1 & I1). pose proof I1 as [lru1 A1].
    pose proof (list_elem_of_lookup_2 _ _ _ Hde) as Hin. destruct (namecmp_ok F x name de HD Hin Hn) as (v & Ev & Hv).
    assert (Hnext : drop (S k) (dir_slots F x) = slots) by (by erewrite drop_S in Hdrop; [injection Hdrop|]).
    assert (Hk' : (S k ≤ length (dir_slots F x))%nat) by (by apply lookup_lt_Some in Hde).
    specialize (IH (S k) fuel s1 I1 Hlen Hx Hdev HD Hs Hn Ht Hnext Hk' ltac:(simpl in Hf; lia)).
    replace (dirent_size * Z.of_nat k + dirent_size) with (dirent_size * Z.of_nat (S k)) by lia.
    assert (Hbody : dirlookup_body dp name (dirent_size * Z.of_nat k) s =
      (if names name de then ip ← iget dev (de_inum de); mret (inr (Some (ip, dirent_size * Z.of_nat k)))
       else mret (inl (dirent_size * Z.of_nat (S k)))) s1).
    { unfold dirlookup_body. rewrite (bind_Done _ _ _ _ _ (at_inode p pid dev _ _ _ _ _ _ dp x i_size A Hx)), E0. cbn [negb].
      rewrite (bind_Done _ _ _ _ _ E1), Z.eqb_refl, Eu. cbn [negb]. unfold names, in_use.
      destruct (de_inum de =? 0); [done|]. cbn [negb andb]. rewrite Ev. cbn [opt_or_fault].
      rewrite (bind_Done _ _ s1 v s1) by done. rewrite Hv. destruct (bool_decide _); [|done].
      by rewrite (bind_Done _ _ _ _ _ (at_inode p pid dev _ _ _ _ _ _ dp x i_dev A1 Hx)), Hdev. }
    destruct (names name de).
    + pose proof (iget_ok _ _ _ _ _ _ (de_inum de) A1 Ht) as Hg. destruct (iget_slot dev (de_inum de) s0.(k_inodes)) as [[ip f]|].
      * destruct Hg as (s2 & E2 & A2). rewrite (bind_Done _ _ _ _ _ E2) in Hbody. rewrite (bind_Done _ _ _ _ _ Hbody).
        exists s2. split; [done|]. by exists lru1.
      * destruct Hg as (s2 & E2). exists s2. unfold mbind, M_bind. rewrite Hbody. unfold mbind, M_bind. by rewrite E2.
    + rewrite (bind_Done _ _ _ _ _ Hbody). exact IH.
Qed.
Lemma dirlookup_ok F bl d w L s0 s dp x name :
  fs_idle F (pinned bl) d w L s0 s → (length bl < NBUF)%nat → s0.(k_inodes) !! dp = Some x → x.(i_dev) = dev →
  dir_ok F x → x.(i_size) < 2 ^ 32 - dirent_size → name_ok name → length s0.(k_inodes) = NINODE →
  match dir_find name (dir_slots F x) 0 with
  | None => ∃ s', dirlookup dp name s = Done None s' ∧ fs_idle F (pinned bl) d w L s0 s'
  | Some (inum, off) =>
      match iget_slot dev inum s0.(k_inodes) with
      | Some (ip, f) => ∃ s', dirlookup dp name s = Done (Some (ip, off)) s' ∧ fs_idle F (pinned bl) d w L (upd_inode ip f s0) s'
      | None => ∃ s', dirlookup dp name s = Panic "iget: no inodes" s'
      end
  end.
Proof.
  intros I Hlen Hx Hdev HD Hs Hn Ht. pose proof I as [lru A]. unfold dirlookup.
  rewrite (bind_Done _ _ _ _ _ (at_inode p pid dev _ _ _ _ _ _ dp x i_type A Hx)), (do_type _ _ HD).
  change (T_DIR =? T_DIR) with true. cbn [negb]. rewrite (bind_Done _ _ _ _ _ (at_inode p pid dev _ _ _ _ _ _ dp x i_size A Hx)).
  apply (dirlookup_loop F bl d w L s0 dp x name (dir_slots F x) 0 (dir_fuel x.(i_size)) s I Hlen Hx Hdev HD Hs Hn Ht eq_refl); [lia|].
  rewrite length_dir_slots. eapply slots_fuel, HD.
Qed.

(** ** The search of [dirlink] *)

Lemma dirlink_loop F bl d w L s0 dp x : ∀ slots k fuel s,
  fs_idle F (pinned bl) d w L s0 s → (length bl < NBUF)%nat → s0.(k_inodes) !! dp = Some x → x.(i_dev) = dev →
  dir_ok F x → x.(i_size) < 2 ^ 32 - dirent_size →
  drop k (dir_slots F x) = slots → (k ≤ length (dir_slots F x))%nat → (length slots < fuel)%nat →
  ∃ s', loop fuel (dirlink_body dp) (dirent_size * Z.of_nat k) s = Done (dir_free slots (dirent_size * Z.of_nat k)) s' ∧
    fs_idle F (pinned bl) d w L s0 s'.
Proof.
  induction slots as [|de slots IH]; intros k [|fuel] s I Hlen Hx Hdev HD Hs Hdrop Hk Hf; try (simpl in Hf; lia);
    pose proof I as [lru A]; cbn [loop dir_free].
  - exists s. split; [|done]. rewrite (bind_Done _ _ _ (inr (dirent_size * Z.of_nat k)) s); [done|]. unfold dirlink_body.
    rewrite (bind_Done _ _ _ _ _ (at_inode p pid dev _ _ _ _ _ _ dp x i_size A Hx)).
    apply (f_equal length) in Hdrop. rewrite length_drop, length_dir_slots in Hdrop. cbn [length] in Hdrop. rewrite length_dir_slots in Hk.
    destruct HD as [_ [D2 D2'] _ _]. by rewrite (proj2 (Z.ltb_ge _ _)) by (unfold dirent_size in *; lia).
  - assert (Hde : dir_slots F x !! k = Some de) by (rewrite <-(Nat.add_0_r k), <-lookup_drop, Hdrop; done).
    destruct (read_slot F bl d w L s0 s dp x k de I Hlen Hx Hdev HD Hs Hde) as (E0 & Eu & s1 & E1 & I1).
    assert (Hbody : dirlink_body dp (dirent_size * Z.of_nat k) s =
      Done (if in_use de then inl (dirent_size * Z.of_nat (S k)) else inr (dirent_size * Z.of_nat k)) s1).
    { unfold dirlink_body. rewrite (bind_Done _ _ _ _ _ (at_inode p pid dev _ _ _ _ _ _ dp x i_size A Hx)), E0. cbn [negb].
      rewrite (bind_Done _ _ _ _ _ E1), Z.eqb_refl, Eu. cbn [negb]. unfold in_use. by destruct (de_inum de =? 0). }
    rewrite (bind_Done _ _ _ _ _ Hbody). destruct (in_use de); [|by exists s1].
    replace (dirent_size * Z.of_nat k + dirent_size) with (dirent_size * Z.of_nat (S k)) by lia.
    apply IH; try done; [by erewrite drop_S in Hdrop; [injection Hdrop|]|by apply lookup_lt_Some in Hde|simpl in Hf; lia].
Qed.
End DirFacts.

(** ** A directory as a map *)

Lemma dir_find_app name a b off :
  dir_find name (a ++ b) off =
  match dir_find name a off with Some r => Some r | None => dir_find name b (off + dirent_size * Z.of_nat (length a)) end.
Proof.
  revert off. induction a as [|de a IH]; intros off; cbn [app dir_find length]; [f_equal; lia|].
  destruct (names name de); [done|]. rewrite IH. destruct (dir_find name a _); [done|]. f_equal. lia.
Qed.

Lemma dir_free_spec slots off : ∃ j, (j ≤ length slots)%nat ∧ dir_free slots off = off + dirent_size * Z.of_nat j ∧
  ∀ de, slots !! j = Some de → in_use de = false.
Proof.
  revert off. induction slots as [|de slots IH]; intros off; cbn [dir_free].
  - exists 0%nat. split_and!; [done|lia|done].
  - destruct (in_use de) eqn:Hu.
    + destruct (IH (off + dirent_size)) as (j & Hj & E & Hde). exists (S j). split_and!; [simpl; lia|rewrite E; lia|done].
    + exists 0%nat. split_and!; [lia|lia|]. by intros ? [= <-].
Qed.

(** An entry written over a free one, or at the end. *)
Definition put_slot (j : nat) (de : list Z) (slots : list (list Z)) : list (list Z) := take j slots ++ de :: drop (S j) slots.

Lemma dir_find_put name j de slots : (j ≤ length slots)%nat → (∀ old, slots !! j = Some old → in_use old = false) →
  ∀ off, dir_find name (put_slot j de slots) off =
    match dir_find name (take j slots) off with
    | Some r => Some r
    | None => if names name de then Some (de_inum de, off + dirent_size * Z.of_nat j)
              else dir_find name (drop (S j) slots) (off + dirent_size * Z.of_nat j + dirent_size)
    end ∧
  dir_find name slots off =
    match dir_find name (take j slots) off with
    | Some r => Some r
    | None => dir_find name (drop (S j) slots) (off + dirent_size * Z.of_nat j + dirent_size)
    end.
Proof.
  intros Hj Hold off. unfold put_slot. split.
  - rewrite dir_find_app, length_take, Nat.min_l by done. done.
  - rewrite <-(take_drop j slots) at 1. rewrite dir_find_app, length_take, Nat.min_l by done.
    destruct (dir_find name (take j slots) off); [done|]. destruct (slots !! j) as [old|] eqn:E.
    + rewrite (drop_S _ _ _ E). cbn [dir_find]. unfold names. by rewrite (Hold old eq_refl).
    + apply lookup_ge_None in E. by rewrite !drop_ge by lia.
Qed.

(** The entries, from the bytes of the directory. *)
Lemma dir_slots_bytes F x k : 0 ≤ x.(i_size) → x.(i_size) mod dirent_size = 0 → (k < Z.to_nat (x.(i_size) / dirent_size))%nat →
  dir_slots F x !! k = Some (take 16 (drop (16 * k) (file_bytes F x 0 x.(i_size)))).
Proof.
  intros H0 Hm Hk. rewrite lookup_dir_slots by (by rewrite length_dir_slots). f_equal. unfold dirent_size in *.
  apply list_eq_same_length with 16%nat.
  - rewrite length_take, length_drop, length_file_bytes. lia.
  - by rewrite length_file_bytes.
  - intros i a b Hi. rewrite lookup_file_bytes, lookup_take_lt, lookup_drop, lookup_file_bytes by lia.
    intros [= <-] [= <-]. f_equal. lia.
Qed.

Lemma slot_splice (B de : list Z) (j k n : nat) :
  length B = (16 * n)%nat → length de = 16%nat → (j ≤ n)%nat → (k < n)%nat ∨ k = j →
  take 16 (drop (16 * k) (splice (16 * j) de B)) = if decide (k = j) then de else take 16 (drop (16 * k) B).
Proof.
  intros HB Hde Hj Hk. unfold splice. destruct (decide (k = j)) as [->|Hne].
  { rewrite drop_app_length' by (rewrite length_take; lia). by rewrite take_app_length'. }
  destruct (decide (k < j)%nat) as [Hlt|Hge].
  - rewrite drop_app_le, take_app_le by (rewrite ?length_drop, length_take; lia).
    rewrite skipn_firstn_comm, take_take. f_equal. lia.
  - rewrite app_assoc, drop_app_ge by (rewrite length_app, length_take; lia). rewrite drop_drop. do 2 f_equal.
    rewrite length_app, length_take. lia.
Qed.

Lemma lookup_put_slot j de slots k : (j ≤ length slots)%nat →
  put_slot j de slots !! k = if decide (k = j) then Some de else slots !! k.
Proof.
  intros Hj. unfold put_slot. assert (HL : length (take j slots) = j) by (rewrite length_take; lia).
  destruct (decide (k = j)) as [->|Hne]; [rewrite lookup_app_r, HL, Nat.sub_diag by lia; done|].
  destruct (decide (k < j)%nat); [rewrite lookup_app_l by lia; by apply lookup_take_lt|].
  rewrite lookup_app_r, HL by lia. destruct (k - j)%nat as [|i] eqn:Ei; [lia|].
  change (drop (S j) slots !! i = slots !! k). rewrite lookup_drop. f_equal. lia.
Qed.

Lemma dir_slots_splice F F' x j de :
  let N := Z.max x.(i_size) (dirent_size * Z.of_nat j + dirent_size) in let x' := set_i_size N x in
  0 ≤ x.(i_size) → x.(i_size) mod dirent_size = 0 → (j ≤ length (dir_slots F x))%nat → length de = 16%nat →
  file_bytes F' x' 0 N = splice (16 * j) de (file_bytes F x 0 x.(i_size)) →
  dir_slots F' x' = put_slot j de (dir_slots F x).
Proof.
  intros N x' H0 Hm Hj Hde HB. pose proof Hj as Hj'. rewrite length_dir_slots in Hj. change (i_size x') with N in *.
  assert (∃ n, Z.to_nat (x.(i_size) / dirent_size) = n ∧ x.(i_size) = 16 * Z.of_nat n) as (n & En & Hs).
  { eexists. split; [reflexivity|]. clear -H0 Hm. unfold dirent_size in *. lia. }
  assert (HN : 0 ≤ N ∧ N mod dirent_size = 0 ∧ Z.to_nat (N / dirent_size) = Nat.max n (S j)).
  { unfold N. rewrite Hs. clear. unfold dirent_size. lia. }
  destruct HN as (HN0 & HNm & HNd). rewrite En in Hj. clearbody N. clear Hm.
  assert (Hlen : length (file_bytes F x 0 (i_size x)) = (16 * n)%nat) by (rewrite length_file_bytes; lia).
  apply list_eq. intros k. rewrite lookup_put_slot by done. destruct (decide (k < Nat.max n (S j))%nat) as [Hk|Hk].
  - rewrite dir_slots_bytes by (change (i_size x') with N; try done; lia). change (i_size x') with N. rewrite HB.
    rewrite (slot_splice _ de j k n Hlen Hde Hj) by lia. case_decide; [done|]. symmetry. apply dir_slots_bytes; [done|rewrite Hs; clear; unfold dirent_size; lia|lia].
  - rewrite decide_False by lia. rewrite !lookup_ge_None_2; [done|rewrite length_dir_slots; lia|].
    rewrite length_dir_slots. change (i_size x') with N. lia.
Qed.

(** C23: [dirlookup] means [dir_find].  It returns no inode exactly when no entry
    in use has the name, and then nothing has changed; otherwise it returns the
    offset of the first such entry, and the entry of the inode table that [iget]
    gives for its inode number: the one that already has the inode, or a free one;
    with the table full it panics. *)
Theorem dirlookup_spec {WB : WaitBound} {BD : BlockDev} {BDok : BlockDevOk}
    p pid dev F bl d w L s0 s dp x name :
  fs_idle p pid dev F (pinned bl) d w L s0 s → (length bl < NBUF)%nat → s0.(k_inodes) !! dp = Some x → x.(i_dev) = dev →
  dir_ok F x → x.(i_size) < 2 ^ 32 - dirent_size → name_ok name → length s0.(k_inodes) = NINODE →
  match dir_find name (dir_slots F x) 0 with
  | None => ∃ s', dirlookup dp name s = Done None s' ∧ fs_idle p pid dev F (pinned bl) d w L s0 s'
  | Some (inum, off) =>
      match iget_slot dev inum s0.(k_inodes) with
      | Some (ip, f) => ∃ s', dirlookup dp name s = Done (Some (ip, off)) s' ∧
          fs_idle p pid dev F (pinned bl) d w L (upd_inode ip f s0) s'
      | None => ∃ s', dirlookup dp name s = Panic "iget: no inodes" s'
      end
  end.
Proof. apply dirlookup_ok. Qed.

Section Link.
Context {WB : WaitBound} {BD : BlockDev} {BDok : BlockDevOk}.
Context (p : nat) (pid dev : Z) (start : Z) (Hstart : 0 ≤ start < 2 ^ 31).
Context (size : Z) (Hsize : 1 ≤ size ≤ LOGSIZE + 1).

(** The new entry has the name and the number, and no other name. *)
Lemma new_entry name nm inum other :
  strncpy name DIRSIZ = Some nm → 0 < inum < 2 ^ 16 → let de := dirent_bytes inum nm in
  length de = 16%nat ∧ de_inum de = inum ∧ names other de = bool_decide (cstr DIRSIZ name = cstr DIRSIZ other).
Proof.
  intros Hnm Hi de. destruct (strncpy_cstr _ _ _ Hnm) as [Hc Hl].
  assert (Hin : de_inum de = inum) by (unfold de_inum, de, dirent_bytes; rewrite get_first; apply Z.mod_small; lia).
  split; [unfold de, dirent_bytes; by rewrite length_app, length_le_bytes, Hl|]. split; [done|].
  unfold names, in_use. rewrite Hin, (proj2 (Z.eqb_neq inum 0)) by lia. cbn [negb andb].
  unfold de_name, de, dirent_bytes. rewrite drop_app_length' by by rewrite length_le_bytes. by rewrite Hc.
Qed.


End Link.

(** ** A directory of the small file system *)

Definition dir8 : inode := mk_inode 1 8 1 true T_DIR 0 0 1 32 (46 :: replicate 12 0).

(** The file system with the entry [a], of inode 9, in the directory. *)
Definition disk_dir : gmap Z (list Z) :=
  <[46 := dirent_bytes 9 (97 :: replicate 13 0) ++ replicate 1008 0]> disk_small.

Lemma disk_dir_size n : length (disk_block disk_dir n) = Z.to_nat BSIZE.
Proof.
  unfold disk_dir, disk_block. destruct (decide (n = 46)) as [->|Hn]; [by rewrite lookup_insert_eq|].
  rewrite lookup_insert_ne by done. apply disk_small_size.
Qed.

(** A directory of two entries in block 46. *)
Lemma dir46_mapped F x : x.(i_addrs) = 46 :: replicate 12 0 → mapped F x 32.
Proof.
  intros E. split; [by rewrite E|by unfold MAXFILE, BSIZE| |unfold NDIRECT, BSIZE; lia].
  intros bn H0 Hb. assert (bn = 0) as -> by (unfold BSIZE in Hb; lia). unfold file_addr. by rewrite E.
Qed.

Lemma dir46_ok d x : x.(i_addrs) = 46 :: replicate 12 0 → x.(i_type) = T_DIR → x.(i_size) = 32 →
  Forall is_byte (file_bytes (disk_block d) x 0 32) → dir_ok (disk_block d) x.
Proof. intros Ha Ht Hs H. split; [done|rewrite Hs; by vm_compute|rewrite Hs; by apply dir46_mapped|by rewrite Hs]. Qed.

(** The bytes of a directory of the example. *)
Ltac dir_bytes := apply (bool_decide_unpack (Forall (λ c, 0 ≤ c < 2 ^ 8) _)); vm_compute; exact I.

Lemma name_a : name_ok [97; 0].
Proof. split; [repeat (constructor; [unfold is_byte; lia|]); constructor|right; set_solver]. Qed.

Lemma dirlookup_spec_witness :
  ∃ s', @dirlookup _ ideal_disk 0 [97; 0] (set_k_log log_one (with_inode dir8 (fs0 disk_dir))) = Done (Some (1%nat, 0)) s'.
Proof.
  pose proof (@dirlookup_spec _ ideal_disk _ 3 7 1 (disk_block disk_dir) [] disk_dir [] log_one _ _ 0%nat dir8 [97; 0]
    (with_inode_idle dir8 disk_dir _ (fs0_calm _) (fs0_bcache _ disk_dir_size) (fs0_disk _) (fs0_writes _))) as H.
  assert (Hf : dir_find [97; 0] (dir_slots (disk_block disk_dir) dir8) 0 = Some (9, 0)) by (vm_compute; reflexivity).
  assert (Ht : k_inodes (set_k_log log_one (with_inode dir8 (fs0 disk_dir))) = <[0%nat := dir8]> (replicate NINODE inode0))
    by (unfold with_inode; kproj; by rewrite fs0_inodes).
  assert (Hg : iget_slot 1 9 (<[0%nat := dir8]> (replicate NINODE inode0)) = Some (1%nat, new_inode 1 9)) by (vm_compute; reflexivity).
  rewrite Ht, Hf, Hg in H. destruct H as (s' & E & _).
  - unfold NBUF. simpl. lia.
  - reflexivity.
  - reflexivity.
  - apply dir46_ok; [done..|dir_bytes].
  - cbn. unfold dirent_size. lia.
  - apply name_a.
  - reflexivity.
  - exists s'. exact E.
Defined.

Lemma dir8_inode : inode_ok dir8.
Proof.
  split; try (cbn; unfold T_DIR; lia); [done|]. apply (proj1 (Forall_forall (λ a, 0 ≤ a < 2 ^ 32) _)). cbn. repeat (constructor; [lia|]). constructor.
Qed.

Lemma dir8_file F : file_ok 2 30 sb_small F dir8 32.
Proof.
  assert (Hbn : ∀ bn, 0 ≤ bn → bn * BSIZE < 32 → bn = 0) by (unfold BSIZE; lia).
  split; [by apply dir46_mapped| | | | |done].
  - intros bn bn' H0 H0' H1 H1'. by rewrite (Hbn bn H0 H1), (Hbn bn' H0' H1').
  - intros bn H0 H1. rewrite (Hbn bn H0 H1). unfold in_log. change (file_addr F dir8 0) with 46. lia.
  - intros bn H0 H1. by rewrite (Hbn bn H0 H1).
  - intros bn H0 H1. by rewrite (Hbn bn H0 H1).
Qed.

