(* ===== verification/NameFacts.v ===== *)
(** * The inode table and path names ([ilock], [iunlock], [iput], [idup], [namex] of
    [kernel/fs.c])

    [namex] walks down a path: at each directory it locks the inode, looks the
    name up, drops the directory and goes on with the inode it found.  [path_walk] is
    what a path means on the disk; the operations on the inode table, the sleep
    locks of its entries and [dirlookup] together implement it. *)

From S2P Require Import Prelude State Spinlock Cstring Riscv Kalloc Vm Proc ProcFacts Sleeplock.
From S2P Require Import Quiet Bio BioFacts BioSpec Log LogFacts LogSpec Fs FsFacts PathFacts InodeFacts FileFacts DirFacts.

(** ** Locks of inodes *)

Lemma is_static_inode i : (i < NINODE)%nat → is_static (L_sl (SL_inode i)) = true.
Proof.
  intros Hi. apply bool_decide_eq_true_2.
  assert (H : Forall (λ k, L_sl (SL_inode k) ∈ static_locks.*1) (seq 0 NINODE)).
  { apply (bool_decide_unpack _). by vm_compute. }
  rewrite Forall_forall in H. apply H, elem_of_seq. lia.
Qed.

Lemma is_static_itable : is_static L_itable = true.
Proof. by vm_compute. Qed.

Section Locks.
Context {WB : WaitBound} {BD : BlockDev} {BDok : BlockDevOk}.
Context (p : nat) (pid dev : Z).
Implicit Types (s : kstate) (d : gmap Z (list Z)) (w : list (Z * list Z)) (L : log) (V : bview).

Local Abbreviation fs_at := (fs_at p pid dev).
Local Abbreviation fs_idle := (fs_idle p pid dev).

(** The sleep lock of an inode is no part of the cache. *)
Lemma at_put_ilock V d w L s0 s i v n :
  fs_at V d w L s0 s → fs_at V d w L (put_sl (SL_inode i) v n s0) (put_sl (SL_inode i) v n s).
Proof.
  intros [C B E1 E2 E3 [Q I]]. split; [by apply put_sl_calm| |done|done|done|split].
  - destruct B as [H1 H2 H3 H4 H5 H6 H7 H8 H9 H10 H11 H12 H13]. split; try done.
    intros j Hj. specialize (H5 j Hj). unfold sl_mine, sl_free, put_sl in *. kproj. by rewrite lookup_alter_ne.
  - apply (quietly_put_sl p (SL_inode i) v n) in Q. exact Q.
  - intros j. specialize (I j). revert I. unfold put_sl. kproj. intros I.
    destruct (decide (j = i)) as [->|Hne]; [by rewrite !lookup_alter_eq, I|by rewrite !lookup_alter_ne by congruence].
Qed.

Lemma at_slock V d w L s0 s i : fs_at V d w L s0 s → s.(k_slocks) !! SL_inode i = s0.(k_slocks) !! SL_inode i.
Proof. intros [_ _ _ _ _ [_ I]]. exact (I i). Qed.

Lemma at_acquiresleep V d w L s0 s i :
  fs_at V d w L s0 s → (i < NINODE)%nat → sl_free (SL_inode i) s0 →
  ∃ s', acquiresleep (SL_inode i) s = Done tt s' ∧ fs_at V d w L (put_sl (SL_inode i) 1 pid s0) s'.
Proof.
  intros A Hi Hf. destruct (acquiresleep_calm p pid [] s (SL_inode i)) as (s' & E & C & Q).
  - apply A.
  - by apply is_static_inode.
  - apply not_elem_of_nil.
  - unfold sl_free. by rewrite (at_slock _ _ _ _ _ _ _ A).
  - exists s'. split; [done|]. eapply at_quiet; [by apply at_put_ilock|done|done].
Qed.

Lemma at_releasesleep V d w L s0 s i :
  fs_at V d w L s0 s → (i < NINODE)%nat → is_Some (s0.(k_slocks) !! SL_inode i) →
  ∃ s', releasesleep (SL_inode i) s = Done tt s' ∧ fs_at V d w L (put_sl (SL_inode i) 0 0 s0) s'.
Proof.
  intros A Hi Hf. destruct (releasesleep_calm p pid [] s (SL_inode i)) as (s' & E & C & Q).
  - apply A.
  - by apply is_static_inode.
  - apply not_elem_of_nil.
  - by rewrite (at_slock _ _ _ _ _ _ _ A).
  - exists s'. split; [done|]. eapply at_quiet; [by apply at_put_ilock|done|done].
Qed.

Lemma at_holdingsleep V d w L s0 s i :
  fs_at V d w L s0 s → (i < NINODE)%nat → sl_mine pid (SL_inode i) s0 →
  ∃ s', holdingsleep (SL_inode i) s = Done true s' ∧ fs_at V d w L s0 s'.
Proof.
  intros A Hi [nm Hf]. destruct (holdingsleep_calm p pid [] s (SL_inode i) (mk_sleeplock 1 nm pid)) as (s' & E & C & Q).
  - apply A.
  - by apply is_static_inode.
  - apply not_elem_of_nil.
  - by rewrite (at_slock _ _ _ _ _ _ _ A).
  - cbn [sl_locked sl_pid Z.eqb negb andb] in E. rewrite Z.eqb_refl in E. exists s'. split; [done|]. by eapply at_quiet.
Qed.

(** ** Operations on an entry of the table *)

(** The inode as [ilock] leaves it. *)
Definition load (F : Z → list Z) (sb : superblock) (x : inode) : inode :=
  if x.(i_valid) then x else set_i_valid true (dinode_load (dinode_off x.(i_inum)) (F (IBLOCK x.(i_inum) sb)) x).

Lemma at_sb V d w L s0 s : fs_at V d w L s0 s → gets k_sb s = Done s0.(k_sb) s.
Proof.
  intros A. unfold gets. pose proof (at_frame _ _ _ _ _ _ _ _ _ A) as Fr. unfold fframe in Fr.
  by rewrite (bframe_get p k_sb _ _ Fr) by done.
Qed.

Lemma ilock_ok F bl d w L s0 s ip x :
  fs_idle F (pinned bl) d w L s0 s → (length bl < NBUF)%nat → s0.(k_inodes) !! ip = Some x → 1 ≤ x.(i_ref) → x.(i_dev) = dev →
  (ip < NINODE)%nat → sl_free (SL_inode ip) s0 → (x.(i_valid) = false → (load F s0.(k_sb) x).(i_type) ≠ 0) →
  ∃ s', ilock (Some ip) s = Done tt s' ∧
    fs_idle F (pinned bl) d w L (upd_inode ip (load F s0.(k_sb)) (put_sl (SL_inode ip) 1 pid s0)) s'.
Proof.
  intros [lru A] Hlen Hx Hr Hdev Hi Hf Ht. unfold ilock.
  rewrite (bind_Done _ _ _ _ _ (at_inode p pid dev _ _ _ _ _ _ ip x i_ref A Hx)), (proj2 (Z.ltb_ge _ _)) by done.
  destruct (at_acquiresleep _ _ _ _ _ _ ip A Hi Hf) as (s1 & E1 & A1). rewrite (bind_Done _ _ _ _ _ E1).
  set (t0 := put_sl (SL_inode ip) 1 pid s0) in *. assert (Hx1 : t0.(k_inodes) !! ip = Some x) by done.
  rewrite (bind_Done _ _ _ _ _ (at_inode p pid dev _ _ _ _ _ _ ip x i_valid A1 Hx1)). destruct (i_valid x) eqn:Hv.
  - exists s1. split; [done|]. rewrite (upd_inode_same ip _ x) by (done || (unfold load; by rewrite Hv)). by exists lru.
  - rewrite (bind_Done _ _ _ _ _ (at_inode p pid dev _ _ _ _ _ _ ip x i_dev A1 Hx1)), Hdev.
    rewrite (bind_Done _ _ _ _ _ (at_inode p pid dev _ _ _ _ _ _ ip x i_inum A1 Hx1)), (bind_Done _ _ _ _ _ (at_sb _ _ _ _ _ _ A1)).
    change (k_sb t0) with (k_sb s0). set (n := IBLOCK (i_inum x) (k_sb s0)).
    destruct (idle_bread p pid dev F bl d w L t0 s1 n) as (i & s2 & E2 & H2); [by exists lru|done|]. rewrite (bind_Done _ _ _ _ _ E2).
    destruct (idle_read p pid dev _ _ _ _ _ _ _ _ _ H2) as [E3 _]. rewrite (bind_Done _ _ _ _ _ E3).
    set (ld := dinode_load (dinode_off (i_inum x)) (F n)). rewrite (bind_Done (inode_set ip ld) _ s2 tt (upd_inode ip ld s2) eq_refl).
    destruct H2 as [[lru2 A2] Hc]. apply (at_upd_inode p pid dev _ _ _ _ _ _ ip ld) in A2.
    destruct (idle_brelse p pid dev i n F bl d w L (upd_inode ip ld t0) (upd_inode ip ld s2)) as (s3 & E4 & [lru3 A3]);
      [by split; [exists lru2|]|].
    rewrite (bind_Done _ _ _ _ _ E4). apply (at_upd_inode p pid dev _ _ _ _ _ _ ip (set_i_valid true)) in A3.
    rewrite (bind_Done (inode_set ip (set_i_valid true)) _ s3 tt (upd_inode ip (set_i_valid true) s3) eq_refl). rewrite upd_inode_upd in A3.
    rewrite (upd_inode_agree ip _ (load F (k_sb s0)) x) in A3; [|done|unfold load; by rewrite Hv].
    rewrite (bind_Done _ _ _ _ _ (at_inode p pid dev _ _ _ _ _ _ ip _ i_type A3 (upd_inode_lookup _ _ _ _ Hx1))).
    rewrite (proj2 (Z.eqb_neq _ 0)) by by apply Ht. exists (upd_inode ip (set_i_valid true) s3). split; [done|]. by exists lru3.
Qed.

Lemma iunlock_ok V d w L s0 s ip x :
  fs_at V d w L s0 s → s0.(k_inodes) !! ip = Some x → 1 ≤ x.(i_ref) → (ip < NINODE)%nat → sl_mine pid (SL_inode ip) s0 →
  ∃ s', iunlock (Some ip) s = Done tt s' ∧ fs_at V d w L (put_sl (SL_inode ip) 0 0 s0) s'.
Proof.
  intros A Hx Hr Hi Hm. unfold iunlock. destruct (at_holdingsleep _ _ _ _ _ _ ip A Hi Hm) as (s1 & E1 & A1).
  rewrite (bind_Done _ _ _ _ _ E1). cbn [negb]. rewrite (bind_Done _ _ _ _ _ (at_inode p pid dev _ _ _ _ _ _ ip x i_ref A1 Hx)).
  rewrite (proj2 (Z.ltb_ge _ _)) by done. apply at_releasesleep; [done|done|]. destruct Hm as [nm Hm]. by rewrite Hm.
Qed.

(** A reference less, to an inode that stays or that has links. *)
Definition one_less (x : inode) : inode := set_i_ref (x.(i_ref) - 1) x.

Lemma iput_ok V d w L s0 s ip x :
  fs_at V d w L s0 s → s0.(k_inodes) !! ip = Some x → (x.(i_ref) =? 1) && x.(i_valid) && (x.(i_nlink) =? 0) = false →
  ∃ s', iput ip s = Done tt s' ∧ fs_at V d w L (upd_inode ip one_less s0) s'.
Proof.
  intros A Hx Hk. unfold iput. destruct (at_itable p pid dev V d w L s0 s A) as (s1 & E1 & Ei & Hrel). rewrite (bind_Done _ _ _ _ _ E1).
  rewrite <-Ei in Hx. rewrite (bind_Done _ _ _ _ _ (inode_get_ok i_ref s1 ip x Hx)), (bind_Done _ _ _ _ _ (inode_get_ok i_valid s1 ip x Hx)).
  rewrite (bind_Done _ _ _ _ _ (inode_get_ok i_nlink s1 ip x Hx)), Hk. rewrite (bind_Done (mret tt) _ s1 tt s1 eq_refl).
  rewrite (bind_Done (inode_set ip one_less) _ s1 tt (upd_inode ip one_less s1) eq_refl). apply Hrel.
Qed.

Lemma idup_ok V d w L s0 s ip :
  fs_at V d w L s0 s → ∃ s', idup ip s = Done ip s' ∧ fs_at V d w L (upd_inode ip one_more s0) s'.
Proof.
  intros A. unfold idup. destruct (at_itable p pid dev V d w L s0 s A) as (s1 & E1 & Ei & Hrel). rewrite (bind_Done _ _ _ _ _ E1).
  rewrite (bind_Done (inode_set ip one_more) _ s1 tt (upd_inode ip one_more s1) eq_refl). destruct (Hrel ip one_more) as (s2 & E2 & A2).
  rewrite (bind_Done _ _ _ _ _ E2). by exists s2.
Qed.

End Locks.

(** ** What a path means *)

Section Names.
Context {WB : WaitBound} {BD : BlockDev} {BDok : BlockDevOk}.
Context (p : nat) (pid dev : Z) (sb : superblock) (F : Z → list Z).
Implicit Types (s : kstate) (d : gmap Z (list Z)) (w : list (Z * list Z)) (L : log) (tbl : list inode) (r : list Z).

(** The inode [inum] of the disk. *)
Definition node (inum : Z) : inode :=
  dinode_load (dinode_off inum) (F (IBLOCK inum sb)) (mk_inode dev inum 0 true 0 0 0 0 0 []).

Definition is_dir (inum : Z) : bool := (node inum).(i_type) =? T_DIR.

(** The inode at the end of the components, or, for [parent], the directory that
    the last one is to be looked up in. *)
Fixpoint path_walk (parent : bool) (inum : Z) (cs : list (list Z)) : option Z :=
  match cs with
  | [] => if parent then None else Some inum
  | c :: rest =>
      if negb (is_dir inum) then None else
      if parent && bool_decide (rest = []) then Some inum else
      match dir_find c (dir_slots F (node inum)) 0 with Some (i, _) => path_walk parent i rest | None => None end
  end.

(** A set of inodes of the disk that are in use and have links, with every inode
    that an entry of a directory among them names. *)
Record tree (live : Z → Prop) : Prop := {
  tr_type i : live i → (node i).(i_type) ≠ 0;
  tr_nlink i : live i → (node i).(i_nlink) ≠ 0;
  tr_dir i : live i → is_dir i = true → dir_ok F (node i) ∧ (node i).(i_size) < 2 ^ 32 - dirent_size;
  tr_closed i name j off : live i → is_dir i = true → dir_find name (dir_slots F (node i)) 0 = Some (j, off) → live j
}.

Context (live : Z → Prop).

(** The table caches the disk. *)
Record itable (tbl : list inode) : Prop := {
  it_len : length tbl = NINODE;
  it_ref i x : tbl !! i = Some x → 0 ≤ x.(i_ref);
  it_valid i x : tbl !! i = Some x → 0 < x.(i_ref) → x.(i_dev) = dev → x.(i_valid) = true → live x.(i_inum) →
    x = set_i_ref x.(i_ref) (node x.(i_inum))
}.

Definition refs (tbl : list inode) : list Z := i_ref <$> tbl.

(** The entries that were referenced in [tbl0] still have their inodes. *)
Definition kept (tbl0 tbl : list inode) : Prop :=
  ∀ i x0, tbl0 !! i = Some x0 → 0 < x0.(i_ref) → ∃ x, tbl !! i = Some x ∧ x.(i_dev) = x0.(i_dev) ∧ x.(i_inum) = x0.(i_inum).

(** Two entries of the table are free. *)
Definition spare (tbl : list inode) : Prop :=
  ∃ i j, i ≠ j ∧ refs tbl !! i = Some 0 ∧ refs tbl !! j = Some 0.

(** The reference counts are [r], and every sleep lock of an inode is free but
    that of [lk], which the process holds. *)
Record settled (tbl0 : list inode) (r : list Z) (lk : option nat) (s : kstate) : Prop := {
  st_table : itable s.(k_inodes);
  st_refs : refs s.(k_inodes) = r;
  st_kept : kept tbl0 s.(k_inodes);
  st_locks i : (i < NINODE)%nat → if decide (lk = Some i) then sl_mine pid (SL_inode i) s else sl_free (SL_inode i) s
}.

(** The entry [ip] is referenced and has the inode [inum]. *)
Definition has_node (ip : nat) (inum : Z) (s : kstate) : Prop :=
  ∃ x, s.(k_inodes) !! ip = Some x ∧ 1 ≤ x.(i_ref) ∧ x.(i_dev) = dev ∧ x.(i_inum) = inum.

(** Nothing but the inode table and the sleep locks differs. *)
Definition iframe (s s' : kstate) : Prop := s' = set_k_inodes s'.(k_inodes) (set_k_slocks s'.(k_slocks) s).

#[local] Instance iframe_preorder : PreOrder iframe.
Proof.
  split; [intros s; unfold iframe; keq|]. intros x y z H1 H2. unfold iframe in *. rewrite H2. rewrite H1. keq.
Qed.

Lemma iframe_upd i f s : iframe s (upd_inode i f s).
Proof. unfold iframe. keq. Qed.

Lemma iframe_put l v n s : iframe s (put_sl l v n s).
Proof. unfold iframe, put_sl. keq. Qed.

Lemma iframe_sb s s' : iframe s s' → s'.(k_sb) = s.(k_sb).
Proof. intros ->. by kproj. Qed.

(** ** Steps of the table *)

(** Change an entry so that its references change by [g]. *)
Lemma refs_alter (f : inode → inode) (g : Z → Z) i tbl :
  (∀ x, tbl !! i = Some x → (f x).(i_ref) = g x.(i_ref)) → refs (alter f i tbl) = alter g i (refs tbl).
Proof.
  intros H. unfold refs. apply list_eq. intros k. rewrite list_lookup_fmap, !list_lookup_alter, !list_lookup_fmap.
  case_decide as Hk; [subst k|done]. destruct (tbl !! i) as [x|] eqn:E; [|done]. cbn. by rewrite H.
Qed.

Lemma itable_alter f i tbl :
  itable tbl → (∀ x, tbl !! i = Some x → 0 ≤ (f x).(i_ref)) →
  (∀ x, tbl !! i = Some x → 0 < (f x).(i_ref) → (f x).(i_dev) = dev → (f x).(i_valid) = true → live (f x).(i_inum) →
    f x = set_i_ref (f x).(i_ref) (node (f x).(i_inum))) → itable (alter f i tbl).
Proof.
  intros [H1 H2 H3] Hr Hv. split; [by rewrite length_alter|..]; intros k x Hk; rewrite list_lookup_alter in Hk; case_decide; subst;
    try (apply fmap_Some in Hk as (y & Hy & ->)); eauto.
Qed.

Lemma kept_alter tbl0 f i tbl :
  kept tbl0 tbl →
  (∀ x, tbl !! i = Some x → (∃ x0, tbl0 !! i = Some x0 ∧ 0 < x0.(i_ref)) → (f x).(i_dev) = x.(i_dev) ∧ (f x).(i_inum) = x.(i_inum)) →
  kept tbl0 (alter f i tbl).
Proof.
  intros H Hf k x0 Hx0 Hr. destruct (H k x0 Hx0 Hr) as (x & Hx & E1 & E2). rewrite list_lookup_alter. case_decide as Hk; [subst k|by exists x].
  exists (f x). rewrite Hx. destruct (Hf x Hx) as [-> ->]; [by exists x0|]. done.
Qed.

(** The inode as [ilock] leaves it is that of the disk. *)
Lemma load_node tbl ip x :
  itable tbl → tbl !! ip = Some x → 1 ≤ x.(i_ref) → x.(i_dev) = dev → live x.(i_inum) → load F sb x = set_i_ref x.(i_ref) (node x.(i_inum)).
Proof.
  intros T Hx Hr Hd Hl. unfold load. destruct (i_valid x) eqn:Hv; [apply (it_valid _ T ip); (done || lia)|].
  unfold node, dinode_load. cbn. by rewrite Hd.
Qed.

Lemma sl_put_other i j v n s : i ≠ j → sl_free (SL_inode i) s → sl_free (SL_inode i) (put_sl (SL_inode j) v n s).
Proof. intros H (nm & k & E). exists nm, k. unfold put_sl. kproj. by rewrite lookup_alter_ne by congruence. Qed.

Lemma ref_node k x : x = set_i_ref x.(i_ref) (node x.(i_inum)) → set_i_ref k x = set_i_ref k (node x.(i_inum)).
Proof. intros E. by trans (set_i_ref k (set_i_ref x.(i_ref) (node x.(i_inum)))); [rewrite <-E|]. Qed.

(** [ilock] *)
Lemma settled_lock tbl0 r ip inum s :
  settled tbl0 r None s → has_node ip inum s → live inum → (ip < NINODE)%nat →
  let s' := upd_inode ip (load F sb) (put_sl (SL_inode ip) 1 pid s) in
  settled tbl0 r (Some ip) s' ∧ ∃ k, s'.(k_inodes) !! ip = Some (set_i_ref k (node inum)) ∧ 1 ≤ k.
Proof.
  intros [T R K Lk] (x & Hx & Hr & Hd & Hi) Hl Hlt. subst inum. cbv zeta. unfold put_sl. kproj.
  pose proof (load_node _ _ _ T Hx Hr Hd Hl) as E. split; [split; kproj|].
  - apply itable_alter; [done|..]; intros y Hy; simplify_eq; rewrite E; cbn; [lia|done].
  - rewrite (refs_alter _ id); [rewrite <-R; apply list_alter_same; done|]. intros y Hy. simplify_eq. by rewrite E.
  - apply kept_alter; [done|]. intros y Hy _. simplify_eq. by rewrite E.
  - intros i Hi. specialize (Lk i Hi). cbn in Lk. destruct (decide (Some ip = Some i)) as [[= <-]|Hne].
    + destruct Lk as (nm & k & El). exists nm. kproj. by rewrite lookup_alter_eq, El.
    + apply (sl_put_other i ip 1 pid s); [congruence|done].
  - exists x.(i_ref). rewrite list_lookup_alter_eq, Hx. cbn. by rewrite E.
Qed.

(** [iunlock] *)
Lemma settled_unlock tbl0 r ip s :
  settled tbl0 r (Some ip) s → (ip < NINODE)%nat → settled tbl0 r None (put_sl (SL_inode ip) 0 0 s).
Proof.
  intros [T R K Lk] Hlt. split; [done..|]. intros i Hi. specialize (Lk i Hi). cbn. destruct (decide (Some ip = Some i)) as [[= <-]|Hne].
  - destruct Lk as (nm & El). exists nm, 0. unfold put_sl. kproj. by rewrite lookup_alter_eq, El.
  - apply sl_put_other; [congruence|done].
Qed.

(** [iput] *)
Lemma settled_drop tbl0 r lk ip inum s :
  settled tbl0 r lk s → has_node ip inum s → settled tbl0 (alter Z.pred ip r) lk (upd_inode ip one_less s).
Proof.
  intros [T R K Lk] (x & Hx & Hr & Hd & Hi). split; kproj; [| | |done].
  - apply itable_alter; [done|..]; intros y Hy; simplify_eq; unfold one_less; cbn; [lia|].
    intros H1 H2 H3 H4. apply ref_node, (it_valid _ T ip); (done || lia).
  - rewrite <-R. apply refs_alter. intros y _. unfold one_less. cbn. lia.
  - by apply kept_alter.
Qed.

(** [iget] *)
Lemma iget_slot_entry inum tbl j f : length tbl = NINODE → iget_slot dev inum tbl = Some (j, f) →
  ∃ y, tbl !! j = Some y ∧ (f y).(i_dev) = dev ∧ (f y).(i_inum) = inum ∧ (f y).(i_ref) = y.(i_ref) + 1 ∧
    (0 < y.(i_ref) ∧ f y = one_more y ∨ y.(i_ref) = 0 ∧ (f y).(i_valid) = false).
Proof.
  intros Hn. unfold iget_slot. destruct (List.find (iget_hit dev inum tbl) (seq 0 NINODE)) as [i|] eqn:Eh.
  - intros [= <- <-]. apply List.find_some in Eh as [_ Hh]. unfold iget_hit in Hh. destruct (tbl !! i) as [y|]; [|done].
    apply andb_true_iff in Hh as [[H1%Z.ltb_lt H2%Z.eqb_eq]%andb_true_iff H3%Z.eqb_eq]. exists y. split_and!; auto.
  - destruct (List.find (iget_empty tbl) (seq 0 NINODE)) as [i|] eqn:Ee; [|done]. intros [= <- <-].
    apply List.find_some in Ee as [_ He]. unfold iget_empty in He. destruct (tbl !! i) as [y|]; [|done].
    apply Z.eqb_eq in He. exists y. unfold new_inode. cbn. rewrite He. split_and!; auto.
Qed.

Lemma iget_slot_some inum tbl k : length tbl = NINODE → refs tbl !! k = Some 0 → is_Some (iget_slot dev inum tbl).
Proof.
  intros Hn Hk. unfold iget_slot. destruct (List.find (iget_hit dev inum tbl) (seq 0 NINODE)); [done|].
  destruct (List.find (iget_empty tbl) (seq 0 NINODE)) eqn:Ee; [done|]. exfalso.
  unfold refs in Hk. apply list_lookup_fmap_Some in Hk as (y & H0 & Hy). pose proof (lookup_lt_Some _ _ _ Hy) as Hlt.
  pose proof (List.find_none _ _ Ee k ltac:(apply in_seq; lia)) as He. unfold iget_empty in He. by rewrite Hy, <-H0 in He.
Qed.

Lemma settled_get tbl0 r lk inum j f s :
  settled tbl0 r lk s → iget_slot dev inum s.(k_inodes) = Some (j, f) → (∀ k, r !! k = Some 0 → refs tbl0 !! k = Some 0) →
  settled tbl0 (alter Z.succ j r) lk (upd_inode j f s) ∧ has_node j inum (upd_inode j f s).
Proof.
  intros [T R K Lk] Hs H0. destruct (iget_slot_entry _ _ _ _ (it_len _ T) Hs) as (y & Hy & E1 & E2 & E3 & Hc).
  pose proof (it_ref _ T j y Hy) as Hr. split; [split; kproj; [| | |done]|].
  - apply itable_alter; [done|..]; intros z Hz; simplify_eq; [lia|]. intros H1 H2 H3 H4.
    destruct Hc as [[Hp Ef]|[_ Ev]]; [|congruence]. rewrite Ef in *. unfold one_more in *. cbn in *.
    by apply ref_node, (it_valid _ T j).
  - rewrite <-R. apply refs_alter. intros z Hz. simplify_eq. lia.
  - apply kept_alter; [done|]. intros z Hz (x0 & Hx0 & Hp). rewrite Hy in Hz. injection Hz as <-. destruct Hc as [[_ ->]|[Hz0 _]]; [done|exfalso].
    specialize (H0 j). rewrite <-R in H0. unfold refs in H0. rewrite !list_lookup_fmap, Hy, Hx0 in H0. cbn in H0. rewrite Hz0 in H0.
    specialize (H0 eq_refl). injection H0 as H0. lia.
  - exists (f y). kproj. rewrite list_lookup_alter_eq, Hy. split_and!; (done || lia).
Qed.

(** ** One directory of the path *)

Context (T : tree live).

Local Abbreviation fs_idle := (fs_idle p pid dev).

Lemma has_node_lt tbl0 r lk ip inum s : settled tbl0 r lk s → has_node ip inum s → (ip < NINODE)%nat.
Proof. intros S (x & Hx & _). rewrite <-(it_len _ (st_table _ _ _ _ S)). by eapply lookup_lt_Some. Qed.

(** The last reference to an inode of the tree does not free it. *)
Lemma has_links tbl0 r lk ip inum s x :
  settled tbl0 r lk s → has_node ip inum s → live inum → s.(k_inodes) !! ip = Some x →
  (x.(i_ref) =? 1) && x.(i_valid) && (x.(i_nlink) =? 0) = false.
Proof.
  intros S (y & Hy & Hr & Hd & Hi) Hl Hx. rewrite Hx in Hy. injection Hy as <-. subst inum.
  destruct (i_valid x) eqn:Hv; [|by rewrite andb_false_r]. rewrite andb_true_r.
  pose proof (it_valid _ (st_table _ _ _ _ S) ip x Hx ltac:(lia) Hd Hv Hl) as ->. cbn [i_nlink set_i_ref].
  rewrite (proj2 (Z.eqb_neq _ 0)) by by apply (tr_nlink _ T). apply andb_false_r.
Qed.

Lemma iput_settled bl d w L tbl0 r lk ip inum s1 s :
  fs_idle F (pinned bl) d w L s1 s → settled tbl0 r lk s1 → has_node ip inum s1 → live inum →
  ∃ s', iput ip s = Done tt s' ∧ fs_idle F (pinned bl) d w L (upd_inode ip one_less s1) s' ∧
    settled tbl0 (alter Z.pred ip r) lk (upd_inode ip one_less s1).
Proof.
  intros [lru A] S N Hl. pose proof N as (x & Hx & _).
  destruct (iput_ok p pid dev _ _ _ _ _ _ ip x A Hx (has_links _ _ _ _ _ _ _ S N Hl Hx)) as (s' & E & A').
  exists s'. split; [done|]. split; [by exists lru|]. by eapply settled_drop.
Qed.

Lemma iunlock_settled bl d w L tbl0 r ip inum s1 s :
  fs_idle F (pinned bl) d w L s1 s → settled tbl0 r (Some ip) s1 → has_node ip inum s1 →
  ∃ s', iunlock (Some ip) s = Done tt s' ∧ fs_idle F (pinned bl) d w L (put_sl (SL_inode ip) 0 0 s1) s' ∧
    settled tbl0 r None (put_sl (SL_inode ip) 0 0 s1).
Proof.
  intros [lru A] S N. pose proof N as (x & Hx & Hr & _). pose proof (has_node_lt _ _ _ _ _ _ S N) as Hlt.
  pose proof (st_locks _ _ _ _ S ip Hlt) as Hm. rewrite decide_True in Hm by done.
  destruct (iunlock_ok p pid dev _ _ _ _ _ _ ip x A Hx Hr Hlt Hm) as (s' & E & A').
  exists s'. split; [done|]. split; [by exists lru|]. by apply settled_unlock.
Qed.

Lemma iunlockput_settled bl d w L tbl0 r ip inum s1 s :
  fs_idle F (pinned bl) d w L s1 s → settled tbl0 r (Some ip) s1 → has_node ip inum s1 → live inum →
  let s2 := upd_inode ip one_less (put_sl (SL_inode ip) 0 0 s1) in
  ∃ s', iunlockput ip s = Done tt s' ∧ fs_idle F (pinned bl) d w L s2 s' ∧ settled tbl0 (alter Z.pred ip r) None s2.
Proof.
  intros I S N Hl s2. unfold iunlockput. destruct (iunlock_settled _ _ _ _ _ _ _ _ _ _ I S N) as (s' & E & I' & S').
  rewrite (bind_Done _ _ _ _ _ E). by eapply iput_settled.
Qed.

Lemma ilock_settled bl d w L tbl0 r ip inum s1 s :
  fs_idle F (pinned bl) d w L s1 s → (length bl < NBUF)%nat → s1.(k_sb) = sb → settled tbl0 r None s1 → has_node ip inum s1 → live inum →
  let s2 := upd_inode ip (load F sb) (put_sl (SL_inode ip) 1 pid s1) in
  ∃ s' k, ilock (Some ip) s = Done tt s' ∧ fs_idle F (pinned bl) d w L s2 s' ∧ settled tbl0 r (Some ip) s2 ∧
    s2.(k_inodes) !! ip = Some (set_i_ref k (node inum)) ∧ 1 ≤ k.
Proof.
  intros I Hlen Hsb S N Hl s2. pose proof (has_node_lt _ _ _ _ _ _ S N) as Hlt. pose proof N as (x & Hx & Hr & Hd & Hi).
  destruct (settled_lock _ _ _ _ _ S N Hl Hlt) as (S2 & k & Hk & Hk1). pose proof (st_locks _ _ _ _ S ip Hlt) as Hf. cbn in Hf.
  destruct (ilock_ok p pid dev F bl d w L s1 s ip x I Hlen Hx Hr Hd Hlt Hf) as (s' & E & I').
  - intros _. rewrite Hsb, (load_node _ ip x (st_table _ _ _ _ S) Hx Hr Hd) by by rewrite Hi. rewrite Hi. by apply (tr_type _ T).
  - rewrite Hsb in I'. by exists s', k.
Qed.

Lemma node_has ip inum k s : s.(k_inodes) !! ip = Some (set_i_ref k (node inum)) → 1 ≤ k → has_node ip inum s.
Proof. intros H Hk. eexists. split; [exact H|]. done. Qed.

Lemma dropped ip r : alter Z.pred ip (alter Z.succ ip r) = r.
Proof. rewrite list_alter_alter_eq. apply list_alter_same. intros x _. cbn. lia. Qed.

Lemma moved j ip r : alter Z.pred ip (alter Z.succ j (alter Z.succ ip r)) = alter Z.succ j r.
Proof.
  apply list_eq. intros k. rewrite !list_lookup_alter.
  repeat case_decide; subst; destruct (r !! k); simplify_eq/=; f_equal; lia.
Qed.

(** A free entry is left when one inode is held. *)
Lemma spare_one tbl0 ip : spare tbl0 → ∃ k, alter Z.succ ip (refs tbl0) !! k = Some 0.
Proof.
  intros (i & j & Hne & Hi & Hj). destruct (decide (i = ip)) as [->|Hi']; [exists j|exists i]; by rewrite list_lookup_alter_ne by congruence.
Qed.

Lemma unheld tbl0 ip k : (∀ i z, refs tbl0 !! i = Some z → 0 ≤ z) → alter Z.succ ip (refs tbl0) !! k = Some 0 → refs tbl0 !! k = Some 0.
Proof.
  intros H. rewrite list_lookup_alter. case_decide; subst; [|done]. destruct (refs tbl0 !! k) as [z|] eqn:E; [|done].
  specialize (H _ _ E). intros [= ?]. lia.
Qed.

Lemma dir_find_name n n' slots off : cstr DIRSIZ n = cstr DIRSIZ n' → dir_find n slots off = dir_find n' slots off.
Proof.
  intros E. revert off. induction slots as [|de slots IH]; intros off; [done|]. cbn [dir_find]. unfold names. by rewrite E, IH.
Qed.

Lemma dir_ok_ref k x : dir_ok F x → dir_ok F (set_i_ref k x).
Proof. intros [D1 D2 [M1 M2 M3 M4] D4]. split; [exact D1|exact D2|split; [exact M1|exact M2|exact M3|exact M4]|exact D4]. Qed.

Lemma dir_slots_ref k x : dir_slots F (set_i_ref k x) = dir_slots F x.
Proof. reflexivity. Qed.

(** The look-up in a directory that is locked. *)
Lemma lookup_settled bl d w L tbl0 ip inum k name s1 s :
  fs_idle F (pinned bl) d w L s1 s → (length bl < NBUF)%nat → settled tbl0 (alter Z.succ ip (refs tbl0)) (Some ip) s1 →
  s1.(k_inodes) !! ip = Some (set_i_ref k (node inum)) → 1 ≤ k → live inum → is_dir inum = true → name_ok name → spare tbl0 →
  (∀ i z, refs tbl0 !! i = Some z → 0 ≤ z) →
  match dir_find name (dir_slots F (node inum)) 0 with
  | None => ∃ s', dirlookup ip name s = Done None s' ∧ fs_idle F (pinned bl) d w L s1 s'
  | Some (i, off) => ∃ s' j f, dirlookup ip name s = Done (Some (j, off)) s' ∧ fs_idle F (pinned bl) d w L (upd_inode j f s1) s' ∧
      settled tbl0 (alter Z.succ j (alter Z.succ ip (refs tbl0))) (Some ip) (upd_inode j f s1) ∧
      has_node j i (upd_inode j f s1) ∧ has_node ip inum (upd_inode j f s1)
  end.
Proof.
  intros I Hlen S Hx Hk Hl Hd Hn Hsp Hpos. destruct (tr_dir _ T inum Hl Hd) as [D Hs].
  pose proof (dirlookup_ok p pid dev F bl d w L s1 s ip (set_i_ref k (node inum)) name I Hlen Hx eq_refl) as H.
  rewrite dir_slots_ref in H.
  specialize (H (dir_ok_ref k _ D) Hs Hn (it_len _ (st_table _ _ _ _ S))).
  destruct (dir_find name (dir_slots F (node inum)) 0) as [[i off]|]; [|done].
  destruct (spare_one tbl0 ip Hsp) as [z Hz]. rewrite <-(st_refs _ _ _ _ S) in Hz.
  destruct (iget_slot_some i _ z (it_len _ (st_table _ _ _ _ S)) Hz) as [[j f] Hslot]. rewrite Hslot in H. destruct H as (s' & E & I').
  destruct (settled_get _ _ _ _ _ _ _ S Hslot) as [S' N']; [intros q; by apply unheld|]. exists s', j, f. split_and!; try done.
  destruct (decide (j = ip)) as [->|Hne].
  - destruct (iget_slot_entry _ _ _ _ (it_len _ (st_table _ _ _ _ S)) Hslot) as (y & Hy & _ & _ & _ & [[_ Ef]|[H0 _]]);
      rewrite Hx in Hy; injection Hy as <-; [|cbn in H0; lia].
    exists (one_more (set_i_ref k (node inum))). kproj. rewrite list_lookup_alter_eq, Hx. split_and!; [by rewrite <-Ef|cbn; lia|done|done].
  - eexists. kproj. rewrite list_lookup_alter_ne by congruence. split; [exact Hx|]. done.
Qed.

(** What a turn of the loop gives, in the state [s1] of the table. *)
Definition turn (tbl0 : list inode) (parent : bool) (inum : Z) (c : list Z) (rest : list (list Z)) (path' name' : list Z) (ip : nat)
    (res : list Z * nat * list Z + option nat * list Z) (s1 : kstate) : Prop :=
  if negb (is_dir inum) then res = inr (None, name') ∧ settled tbl0 (refs tbl0) None s1 else
  if parent && bool_decide (rest = []) then
    res = inr (Some ip, name') ∧ settled tbl0 (alter Z.succ ip (refs tbl0)) None s1 ∧ has_node ip inum s1 else
  match dir_find c (dir_slots F (node inum)) 0 with
  | None => res = inr (None, name') ∧ settled tbl0 (refs tbl0) None s1
  | Some (i, _) => ∃ j, res = inl (path', j, name') ∧ settled tbl0 (alter Z.succ j (refs tbl0)) None s1 ∧ has_node j i s1 ∧ live i
  end.

Lemma has_node_less j i ip s : has_node j i s → (j = ip → refs s.(k_inodes) !! ip ≠ Some 1) →
  has_node j i (upd_inode ip one_less (put_sl (SL_inode ip) 0 0 s)).
Proof.
  intros (x & Hx & Hr & Hd & Hi) H2. unfold put_sl. destruct (decide (j = ip)) as [->|Hne].
  - exists (one_less x). kproj. rewrite list_lookup_alter_eq, Hx. split_and!; [done| |done|done]. unfold one_less. cbn.
    specialize (H2 eq_refl). unfold refs in H2. rewrite list_lookup_fmap, Hx in H2. cbn in H2. assert (i_ref x ≠ 1) by congruence. lia.
  - exists x. kproj. by rewrite list_lookup_alter_ne by congruence.
Qed.

Lemma namex_turn bl d w L tbl0 parent path path' h ip inum name name' (c : list Z) (rest : list (list Z)) s1 s :
  skipelem path name = Some (Some path', name') → head path' = Some h → (h =? 0) = bool_decide (rest = []) →
  name_ok name' → cstr DIRSIZ name' = cstr DIRSIZ c → spare tbl0 → (∀ i z, refs tbl0 !! i = Some z → 0 ≤ z) →
  fs_idle F (pinned bl) d w L s1 s → (length bl < NBUF)%nat → s1.(k_sb) = sb →
  settled tbl0 (alter Z.succ ip (refs tbl0)) None s1 → has_node ip inum s1 → live inum →
  ∃ s' s1' res, iframe s1 s1' ∧ fs_idle F (pinned bl) d w L s1' s' ∧ namex_body parent (path, ip, name) s = Done res s' ∧
    turn tbl0 parent inum c rest path' name' ip res s1'.
Proof.
  intros E Hh Hrest Hn Hc Hsp Hpos I Hlen Hsb S N Hl. unfold namex_body, turn. rewrite E. cbn [opt_or_fault].
  rewrite (bind_Done (mret (Some path', name')) _ s _ s eq_refl).
  destruct (ilock_settled _ _ _ _ _ _ _ _ _ _ I Hlen Hsb S N Hl) as (sa & k & Ea & Ia & Sa & Hk & Hk1).
  set (s2 := upd_inode ip _ _) in *. rewrite (bind_Done _ _ _ _ _ Ea). pose proof Ia as [lru Aa].
  rewrite (bind_Done _ _ _ _ _ (at_inode p pid dev _ _ _ _ _ _ ip _ i_type Aa Hk)). cbn [i_type set_i_ref]. fold (is_dir inum).
  pose proof (node_has _ _ _ _ Hk Hk1) as Na. assert (F2 : iframe s1 s2) by (etrans; [apply iframe_put|apply iframe_upd]).
  assert (Hend : ∀ t, fs_idle F (pinned bl) d w L s2 t →
    ∃ s' s1', iframe s1 s1' ∧ fs_idle F (pinned bl) d w L s1' s' ∧ iunlockput ip t = Done tt s' ∧ settled tbl0 (refs tbl0) None s1').
  { intros t It. destruct (iunlockput_settled _ _ _ _ _ _ _ _ _ _ It Sa Na Hl) as (s' & E' & I' & S'). rewrite dropped in S'.
    eexists s', _. split; [|split_and!; [exact I'|exact E'|exact S']]. etrans; [exact F2|]. etrans; [apply iframe_put|apply iframe_upd]. }
  destruct (is_dir inum) eqn:Hd; cbn [negb].
  2:{ destruct (Hend sa Ia) as (s' & s1' & X1 & X2 & X3 & X4). rewrite (bind_Done _ _ _ _ _ X3). by eexists s', s1', _. }
  rewrite Hh. cbn [opt_or_fault]. rewrite (bind_Done (mret h) _ sa h sa eq_refl), Hrest. destruct (parent && bool_decide (rest = [])).
  { destruct (iunlock_settled _ _ _ _ _ _ _ _ _ _ Ia Sa Na) as (s' & E' & I' & S'). rewrite (bind_Done _ _ _ _ _ E').
    eexists s', _, _. split; [|split_and!; [exact I'|reflexivity|done|exact S'|exact Na]]. etrans; [exact F2|apply iframe_put]. }
  pose proof (lookup_settled _ _ _ _ _ _ _ _ name' _ _ Ia Hlen Sa Hk Hk1 Hl Hd Hn Hsp Hpos) as H. rewrite (dir_find_name _ c _ _ Hc) in H.
  destruct (dir_find c (dir_slots F (node inum)) 0) as [[i off]|] eqn:Hf.
  - destruct H as (sc & j & f & Ec & Ic & Sc & Nj & Ni). rewrite (bind_Done _ _ _ _ _ Ec).
    destruct (iunlockput_settled _ _ _ _ _ _ _ _ _ _ Ic Sc Ni Hl) as (s' & E' & I' & S'). rewrite (bind_Done _ _ _ _ _ E'). rewrite moved in S'.
    eexists s', _, _. split; [|split_and!; [exact I'|reflexivity|]].
    { etrans; [exact F2|]. etrans; [apply iframe_upd|]. etrans; [apply iframe_put|apply iframe_upd]. }
    exists j. split_and!; [done|exact S'| |by eapply (tr_closed _ T)]. apply (has_node_less j i ip _ Nj). intros ->.
    rewrite (st_refs _ _ _ _ Sc), !list_lookup_alter_eq. destruct (refs tbl0 !! ip) as [z|] eqn:Ez; [|done]. cbn. specialize (Hpos _ _ Ez). intros [= ?]. lia.
  - destruct H as (sc & Ec & Ic). rewrite (bind_Done _ _ _ _ _ Ec). destruct (Hend sc Ic) as (s' & s1' & X1 & X2 & X3 & X4).
    rewrite (bind_Done _ _ _ _ _ X3). by eexists s', s1', _.
Qed.

(** ** The loop *)

Lemma cstr_full n e : 0 ∉ e → cstr n e = take n e.
Proof.
  revert e. induction n as [|n IH]; intros [|c e] H; try done. apply not_elem_of_cons in H as [Hc H].
  cbn [cstr take]. rewrite (proj2 (Z.eqb_neq c 0)) by done. by rewrite IH.
Qed.

Lemma cstr_c_str n name : length name = n → cstr n name = c_str name.
Proof.
  intros <-. induction name as [|c name IH]; [done|]. cbn [length cstr c_str]. by rewrite IH.
Qed.

(** The outcome of the walk, in the state [s1] of the table. *)
Definition arrived (tbl0 : list inode) (parent : bool) (inum : Z) (cs : list (list Z)) (res : option nat * list Z) (s1 : kstate) : Prop :=
  match path_walk parent inum cs with
  | Some i => ∃ ip, res.1 = Some ip ∧ settled tbl0 (alter Z.succ ip (refs tbl0)) None s1 ∧ has_node ip i s1 ∧
      (parent = true → ∃ c, last cs = Some c ∧ c_str res.2 = take DIRSIZ c)
  | None => res.1 = None ∧ settled tbl0 (refs tbl0) None s1
  end.

Lemma namex_loop bl d w L tbl0 junk parent : ∀ fuel cs ip inum name s1 s,
  (length cs < fuel)%nat → 0 ∉ cs → Forall is_byte cs → length name = DIRSIZ → Forall is_byte name → spare tbl0 →
  (∀ i z, refs tbl0 !! i = Some z → 0 ≤ z) → fs_idle F (pinned bl) d w L s1 s → (length bl < NBUF)%nat → s1.(k_sb) = sb →
  settled tbl0 (alter Z.succ ip (refs tbl0)) None s1 → has_node ip inum s1 → live inum →
  ∃ s' s1' res, iframe s1 s1' ∧ fs_idle F (pinned bl) d w L s1' s' ∧
    loop fuel (namex_body parent) (cs ++ 0 :: junk, ip, name) s = Done res s' ∧ arrived tbl0 parent inum (components cs) res s1'.
Proof.
  induction fuel as [|fuel IH]; intros cs ip inum name s1 s Hf H0 Hb Hn Hnb Hsp Hpos I Hlen Hsb S N Hl; [lia|]. cbn [loop].
  pose proof (skipelem_step cs junk name H0 Hn) as Hs. unfold arrived. destruct (components cs) as [|c rest] eqn:Ec.
  - assert (Eb : namex_body parent (cs ++ 0 :: junk, ip, name) s =
      (if parent then iput ip;; mret (inr (None, name)) else mret (inr (Some ip, name))) s) by (unfold namex_body; by rewrite Hs).
    cbn [path_walk]. destruct parent.
    + destruct (iput_settled _ _ _ _ _ _ _ _ _ _ _ I S N Hl) as (s' & E & I' & S'). rewrite dropped in S'. rewrite (bind_Done _ _ _ _ _ E) in Eb.
      rewrite (bind_Done _ _ _ _ _ Eb). eexists s', _, _. split; [apply iframe_upd|]. split; [exact I'|]. split; [reflexivity|]. by split.
    + rewrite (bind_Done _ _ _ _ _ Eb). eexists s, s1, _. split; [done|]. split; [exact I|]. split; [reflexivity|]. by exists ip.
  - destruct Hs as (cs' & name' & E & Ec' & Hl' & Hin & Hh & H0c & Hn' & Hcn & Hbn).
    assert (H0' : 0 ∉ cs') by (intros Hx; by apply H0, Hin). assert (Hb' : Forall is_byte cs') by (rewrite Forall_forall in *; auto).
    assert (Hnb' : Forall is_byte name').
    { rewrite Forall_forall in *. intros y Hy. destruct (Hbn y Hy) as [->|[Hy'|Hy']]; [done|auto..]. }
    assert (∃ h, head (cs' ++ 0 :: junk) = Some h ∧ (h =? 0) = bool_decide (rest = [])) as (h & Eh & Eh').
    { destruct cs' as [|h cs'']; cbn [app head]; eexists; (split; [reflexivity|]); rewrite <-Ec'; [done|].
      rewrite bool_decide_eq_false_2 by (intros Hx; by apply components_nil_inv in Hx).
      apply Z.eqb_neq. intros ->. apply H0', list_elem_of_here. }
    destruct (namex_turn bl d w L tbl0 parent _ _ h ip inum name name' c rest s1 s E Eh Eh') as (s2 & s1' & res & F1 & I1 & E1 & Ht); try done.
    { split; [done|left; lia]. }
    { rewrite (cstr_c_str _ _ Hn'), Hcn. symmetry. by apply cstr_full. }
    rewrite (bind_Done _ _ _ _ _ E1). unfold turn in Ht. cbn [path_walk].
    destruct (negb (is_dir inum)). { destruct Ht as [-> S']. by eexists s2, s1', _. }
    destruct (parent && bool_decide (rest = [])) eqn:Hp.
    { destruct Ht as (-> & S' & N'). eexists s2, s1', _. split; [exact F1|]. split; [exact I1|]. split; [reflexivity|]. exists ip. split_and!; try done.
      intros _. apply andb_true_iff in Hp as [_ ->%bool_decide_eq_true]. by exists c. }
    destruct (dir_find c (dir_slots F (node inum)) 0) as [[i off]|]; [|destruct Ht as [-> S']; by eexists s2, s1', _].
    destruct Ht as (j & -> & S' & N' & Hl'').
    destruct (IH cs' j i name' s1' s2) as (s3 & s1'' & res & F3 & I3 & E3 & A3); try done; [lia|by rewrite (iframe_sb _ _ F1)|].
    rewrite Ec' in A3. eexists s3, s1'', res. split; [by etrans|]. split; [exact I3|]. split; [exact E3|]. unfold arrived in A3.
    destruct (path_walk parent i rest) as [i'|]; [|done]. destruct A3 as (ip' & X1 & X2 & X3 & X4). exists ip'. split_and!; try done.
    intros Hpt. destruct (X4 Hpt) as (c' & Hc' & Hcc). exists c'. split; [|done]. by destruct rest.
Qed.

(** Where the walk begins: at the root, or at the current directory. *)
Definition begins (cs : list Z) (inum : Z) (s : kstate) : Prop :=
  if decide (head cs = Some SLASH) then inum = ROOTINO
  else ∃ pr cwd, s.(k_procs) !! p = Some pr ∧ pr.(p_cwd) = Some cwd ∧ has_node cwd inum s.

Lemma at_cwd V d w L s0 s pr cwd :
  fs_at p pid dev V d w L s0 s → s0.(k_procs) !! p = Some pr → pr.(p_cwd) = Some cwd →
  ∃ s', (p ← curproc; cwd ← proc_get p p_cwd; cwd ← opt_or_fault cwd; idup cwd) s = Done cwd s' ∧
    fs_at p pid dev V d w L (upd_inode cwd one_more s0) s'.
Proof.
  intros A Hp Hc. destruct (curproc_calm p pid [] s (at_calm _ _ _ _ _ _ _ _ _ A)) as (s1 & E1 & C1 & Q1).
  pose proof (at_quiet p pid dev _ _ _ _ _ _ _ A C1 Q1) as A1. rewrite (bind_Done _ _ _ _ _ E1).
  assert (Hp1 : s1.(k_procs) !! p = Some pr) by (destruct A1 as [_ _ _ _ _ [[_ Hq] _]]; by rewrite Hq).
  assert (E2 : proc_get p p_cwd s1 = Done (Some cwd) s1) by (mred; rewrite Hp1; cbn; by rewrite Hc).
  rewrite (bind_Done _ _ _ _ _ E2). cbn [opt_or_fault]. rewrite (bind_Done (mret cwd) _ s1 cwd s1 eq_refl). by apply idup_ok.
Qed.

Lemma settled_dup tbl0 r lk ip inum s :
  settled tbl0 r lk s → has_node ip inum s → settled tbl0 (alter Z.succ ip r) lk (upd_inode ip one_more s) ∧ has_node ip inum (upd_inode ip one_more s).
Proof.
  intros [T' R K Lk] (x & Hx & Hr & Hd & Hi). split; [split; kproj; [| | |done]|].
  - apply itable_alter; [done|..]; intros y Hy; rewrite Hx in Hy; injection Hy as <-; unfold one_more; cbn; [lia|]. intros H1 H2 H3 H4.
    apply ref_node, (it_valid _ T' ip); (done || lia).
  - rewrite <-R. apply refs_alter. intros y _. unfold one_more. cbn. lia.
  - by apply kept_alter.
  - exists (one_more x). kproj. rewrite list_lookup_alter_eq, Hx. split_and!; [done|cbn; lia|done|done].
Qed.

Lemma namex_begin V d w L s0 s cs junk inum :
  fs_at p pid dev V d w L s0 s → dev = ROOTDEV → settled s0.(k_inodes) (refs s0.(k_inodes)) None s0 → spare s0.(k_inodes) → begins cs inum s0 →
  ∃ c s' ip f, head (cs ++ 0 :: junk) = Some c ∧
    (if c =? SLASH then iget ROOTDEV ROOTINO
     else p ← curproc; cwd ← proc_get p p_cwd; cwd ← opt_or_fault cwd; idup cwd) s = Done ip s' ∧
    fs_at p pid dev V d w L (upd_inode ip f s0) s' ∧
    settled s0.(k_inodes) (alter Z.succ ip (refs s0.(k_inodes))) None (upd_inode ip f s0) ∧ has_node ip inum (upd_inode ip f s0).
Proof.
  intros A Hdev S (i & j & _ & Hi & _) Hbeg. unfold begins in Hbeg.
  assert (∃ c, head (cs ++ 0 :: junk) = Some c ∧ (c =? SLASH) = bool_decide (head cs = Some SLASH)) as (c & Ec & Ec').
  { destruct cs as [|c cs]; cbn [app head]; eexists; (split; [reflexivity|]); [done|].
    destruct (Z.eqb_spec c SLASH) as [->|Hc]; symmetry; [by apply bool_decide_eq_true_2|by apply bool_decide_eq_false_2; intros [= ?]]. }
  exists c. rewrite Ec'. destruct (decide (head cs = Some SLASH)) as [Hh|Hh].
  - rewrite bool_decide_eq_true_2 by done. subst inum. rewrite <-Hdev. pose proof (it_len _ (st_table _ _ _ _ S)) as Hn.
    destruct (iget_slot_some ROOTINO _ i Hn Hi) as [[ip f] Hslot].
    pose proof (iget_ok p pid dev _ _ _ _ _ _ ROOTINO A Hn) as Hg. rewrite Hslot in Hg. destruct Hg as (sa & Ea & Aa).
    destruct (settled_get _ _ _ _ _ _ _ S Hslot) as [Sa Na]; [done|]. by exists sa, ip, f.
  - rewrite bool_decide_eq_false_2 by done. destruct Hbeg as (pr & cwd & Hp & Hc & N).
    destruct (at_cwd _ _ _ _ _ _ _ _ A Hp Hc) as (sa & Ea & Aa). destruct (settled_dup _ _ _ _ _ _ S N) as [Sa Na].
    by exists sa, cwd, one_more.
Qed.

(** C9: [namex], and with it [namei] and [nameiparent], resolves path names.  On a
    tree of directories, with the inode table in agreement with the disk and two
    of its entries free, a path of any length is walked as [path_walk] says, from the
    root or from the current directory.  The call returns the entry of the table
    that has the inode at the end of the walk, with exactly one reference more
    than before, and for [nameiparent] the last component, cut to [DIRSIZ]; when the
    walk has no end it returns null and no reference is left behind.  Every lock is
    free again and nothing else has changed. *)
Theorem namex_spec bl d w L s0 s parent cs junk name inum :
  fs_idle F (pinned bl) d w L s0 s → (length bl < NBUF)%nat → s0.(k_sb) = sb → dev = ROOTDEV →
  settled s0.(k_inodes) (refs s0.(k_inodes)) None s0 → spare s0.(k_inodes) → begins cs inum s0 → live inum →
  0 ∉ cs → Forall is_byte cs → length name = DIRSIZ → Forall is_byte name →
  ∃ s' s1 res, namex (cs ++ 0 :: junk) parent name s = Done res s' ∧ fs_idle F (pinned bl) d w L s1 s' ∧ iframe s0 s1 ∧
    arrived s0.(k_inodes) parent inum (components cs) res s1.
Proof.
  intros [lru A] Hlen Hsb Hdev S Hsp Hbeg Hl H0 Hb Hn Hnb.
  assert (Hpos : ∀ i z, refs s0.(k_inodes) !! i = Some z → 0 ≤ z).
  { intros i z Hz. unfold refs in Hz. apply list_lookup_fmap_Some in Hz as (x & -> & Hx). by eapply (it_ref _ (st_table _ _ _ _ S)). }
  destruct (namex_begin _ _ _ _ _ _ _ junk _ A Hdev S Hsp Hbeg) as (c & sa & ip & f & Ec & Ea & Aa & Sa & Na).
  unfold namex. rewrite Ec. cbn [opt_or_fault]. rewrite (bind_Done (mret c) _ s c s eq_refl), (bind_Done _ _ _ _ _ Ea).
  destruct (namex_loop bl d w L s0.(k_inodes) junk parent (Datatypes.S (length (cs ++ 0 :: junk))) cs ip inum name (upd_inode ip f s0) sa)
    as (s' & s1' & res & F' & I' & E' & A'); try done.
  { rewrite length_app. lia. }
  { by exists lru. }
  exists s', s1', res. split; [exact E'|]. split; [exact I'|]. split; [etrans; [apply iframe_upd|exact F']|exact A'].
Qed.

End Names.

(** ** A path of a small tree *)

(** The root directory, with the file [a] of inode 9 in it. *)
Definition root1 : inode := mk_inode 1 1 0 true T_DIR 0 0 1 32 (46 :: replicate 12 0).
Definition file9 : inode := mk_inode 1 9 0 true T_FILE 0 0 1 0 (replicate 13 0).
Definition disk_tree : gmap Z (list Z) :=
  <[32 := splice (dinode_off 1) (dinode_bytes root1) (splice (dinode_off 9) (dinode_bytes file9) (replicate 1024 0))]> disk_dir.

Lemma disk_tree_size n : length (disk_block disk_tree n) = Z.to_nat BSIZE.
Proof.
  unfold disk_tree, disk_block. destruct (decide (n = 32)) as [->|Hn]; [rewrite lookup_insert_eq; by vm_compute|].
  rewrite lookup_insert_ne by done. apply disk_dir_size.
Qed.

Definition in_tree (i : Z) : Prop := i = 1 ∨ i = 9.

Lemma tree_nodes : node 1 sb_small (disk_block disk_tree) 1 = root1 ∧ node 1 sb_small (disk_block disk_tree) 9 = file9.
Proof. split; by vm_compute. Qed.

Lemma tree_slots name : let slots := dir_slots (disk_block disk_tree) root1 in
  dir_find name slots 0 = None ∨ dir_find name slots 0 = Some (9, 0).
Proof.
  cbv zeta. assert (dir_slots (disk_block disk_tree) root1 = [dirent_bytes 9 (97 :: replicate 13 0); replicate 16 0]) as -> by by vm_compute.
  cbn [dir_find]. destruct (names name (dirent_bytes 9 _)); [by right|left]. by unfold names.
Qed.

Lemma small_tree : tree 1 sb_small (disk_block disk_tree) in_tree.
Proof.
  destruct tree_nodes as [E1 E9]. split; unfold is_dir.
  - intros i [-> | ->]; by rewrite ?E1, ?E9.
  - intros i [-> | ->]; by rewrite ?E1, ?E9.
  - intros i [-> | ->]; rewrite ?E1, ?E9; [intros _|done]. split; [apply dir46_ok; [done..|dir_bytes]|cbn; unfold dirent_size; lia].
  - intros i name j off [-> | ->]; rewrite ?E1, ?E9; [intros _|done]. destruct (tree_slots name) as [-> | ->]; [done|].
    intros [= <- _]. by right.
Qed.

(** The sleep locks of the inodes, as [iinit] leaves them. *)
Definition with_ilocks (s : kstate) : kstate :=
  set_k_slocks (list_to_map ((λ i, (SL_inode i, mk_sleeplock 0 "inode" 0)) <$> seq 0 NINODE) ∪ s.(k_slocks)) s.

Definition fs_tree (s : kstate) : kstate := set_k_log log_one (set_k_sb sb_small (with_ilocks s)).

Lemma with_ilocks_inode i s : (i < NINODE)%nat → (with_ilocks s).(k_slocks) !! SL_inode i = Some (mk_sleeplock 0 "inode" 0).
Proof.
  intros Hi. unfold with_ilocks. kproj. apply lookup_union_Some_l, elem_of_list_to_map_1.
  - rewrite <-list_fmap_compose. apply NoDup_fmap_2; [intros x y [= ?]; done|apply NoDup_seq].
  - apply list_elem_of_fmap. exists i. split; [done|]. apply elem_of_seq. lia.
Qed.

Lemma with_ilocks_buf i s : (with_ilocks s).(k_slocks) !! SL_buf i = s.(k_slocks) !! SL_buf i.
Proof.
  unfold with_ilocks. kproj. apply lookup_union_r, not_elem_of_list_to_map_1. rewrite <-list_fmap_compose.
  intros (j & ? & _)%list_elem_of_fmap. done.
Qed.

Lemma fs_tree_idle s :
  calm 3 7 [] s → bcache 7 1 (view0 disk_tree) s → s.(k_disk) = disk_tree → s.(k_dwrites) = [] →
  fs_idle 3 7 1 (disk_block disk_tree) (pinned []) disk_tree [] log_one (fs_tree s) (fs_tree s).
Proof.
  intros C [H1 H2 H3 H4 H5 H6 H7 H8 H9 H10 H11 H12 H13] Ed Ew. apply idle_log_one; [by eapply calm_upd| |done|done]. split; try done.
  intros i Hi. specialize (H5 i Hi). revert H5. unfold sl_mine, sl_free. by rewrite <-(with_ilocks_buf i s).
Qed.

Lemma fs_tree_inodes s : k_inodes (fs_tree s) = k_inodes s.
Proof. reflexivity. Qed.

Lemma fs_tree_settled s : s.(k_inodes) = replicate NINODE inode0 →
  settled 7 1 sb_small (disk_block disk_tree) in_tree (replicate NINODE inode0) (refs (replicate NINODE inode0)) None (fs_tree s).
Proof.
  intros E. split.
  - rewrite fs_tree_inodes, E. split; [done|..]; intros i x [-> _]%lookup_replicate; cbn; lia.
  - by rewrite fs_tree_inodes, E.
  - intros i x0 [-> _]%lookup_replicate Hr. cbn in Hr. lia.
  - intros i Hi. cbn. exists "inode", 0. by apply with_ilocks_inode.
Qed.

Lemma namex_spec_witness :
  ∃ s' ip name', @namex _ ideal_disk [47; 97; 0] false (replicate 14 0) (fs_tree (fs0 disk_tree)) = Done (Some ip, name') s'.
Proof.
  assert (Hi : k_inodes (fs_tree (fs0 disk_tree)) = replicate NINODE inode0) by (rewrite fs_tree_inodes; apply fs0_inodes).
  pose proof (@namex_spec _ ideal_disk _ 3 7 1 sb_small (disk_block disk_tree) in_tree small_tree [] disk_tree [] log_one
    (fs_tree (fs0 disk_tree)) (fs_tree (fs0 disk_tree)) false [47; 97] [] (replicate 14 0) 1
    (fs_tree_idle _ (fs0_calm _) (fs0_bcache _ disk_tree_size) (fs0_disk _) (fs0_writes _))) as H. rewrite Hi in H.
  destruct H as (s' & s1 & [r name'] & E & _ & _ & A).
  - unfold NBUF. simpl. lia.
  - reflexivity.
  - reflexivity.
  - apply fs_tree_settled, fs0_inodes.
  - exists 0%nat, 1%nat. split; [lia|]. split; reflexivity.
  - reflexivity.
  - by left.
  - apply (bool_decide_unpack _). by vm_compute.
  - repeat (constructor; [unfold is_byte; lia|]). constructor.
  - reflexivity.
  - repeat (constructor; [unfold is_byte; lia|]). constructor.
  - unfold arrived in A. assert (Hw : path_walk 1 sb_small (disk_block disk_tree) false 1 (components [47; 97]) = Some 9) by (vm_compute; reflexivity).
    rewrite Hw in A. destruct A as (ip & Hr & _). cbn in Hr. subst r. by exists s', ip, name'.
Defined.
