(* ===== verification/GrowFacts.v ===== *)
(** * Files that grow ([bmap] and [writei] of [kernel/fs.c])

    A write beyond the blocks of a file allocates them.  What the blocks of a file
    are, that an allocation gives the file a block of its own and takes nothing
    from anything else, and what [writei] then does: to the bytes of the file, to
    the bitmap, and to the log. *)

From S2P Require Import Prelude State Spinlock Cstring Riscv Kalloc Vm VmFacts UserMem Proc ProcFacts Sleeplock.
From S2P Require Import Quiet Bio BioFacts BioSpec Log LogFacts LogSpec Fs FsFacts InodeFacts FileFacts DirFacts NameFacts.

(** ** The blocks of a file *)

(** The indirect block, and the block at an index, 0 where there is none *)
Definition ind (x : inode) : Z := default 0 (x.(i_addrs) !! NDIRECT).
Definition blk (F : Z → list Z) (x : inode) (bn : Z) : Z :=
  if bn <? Z.of_nat NDIRECT then default 0 (x.(i_addrs) !! Z.to_nat bn)
  else if ind x =? 0 then 0 else get_le 4 (4 * Z.to_nat (bn - Z.of_nat NDIRECT)) (F (ind x)).

Definition owns (F : Z → list Z) (x : inode) (b : Z) : Prop :=
  b ≠ 0 ∧ (b = ind x ∨ ∃ bn, 0 ≤ bn < MAXFILE ∧ b = blk F x bn).

Lemma blk_addr F x bn : blk F x bn ≠ 0 → file_addr F x bn = blk F x bn.
Proof.
  unfold blk, file_addr. destruct (bn <? Z.of_nat NDIRECT); [done|]. fold (ind x).
  by destruct (Z.eqb_spec (ind x) 0).
Qed.

Section Layout.
Context (start size : Z) (sb : superblock).
Implicit Types (F : Z → list Z) (x : inode).

Definition bitmap_block (m : Z) : Prop := ∃ y, 0 ≤ y < sb.(sb_size) ∧ m = BBLOCK y sb.

(** A block in use, of the part of the disk that the bitmap governs *)
Record allotted F (b : Z) : Prop := {
  iu_range : 0 < b < sb.(sb_size);
  iu_bit : free_block sb F b = false;
  iu_home : ¬ in_log start size b;
  iu_bitmap : ¬ bitmap_block b
}.

(** The boot block, the block of the inode and the bitmap are marked in use. *)
Definition fixed (inum b : Z) : Prop := b = 0 ∨ b = IBLOCK inum sb ∨ bitmap_block b.

Record meta (inum : Z) F : Prop := {
  mt_home : bitmap_home start size sb F;
  mt_fixed b : fixed inum b → 0 ≤ b < sb.(sb_size) ∧ free_block sb F b = false;
  mt_table : ¬ bitmap_block (IBLOCK inum sb);
  mt_inode : ¬ in_log start size (IBLOCK inum sb)
}.

(** The blocks of the file are in use, and each has one place in it. *)
Record layout F x : Prop := {
  ly_len : length x.(i_addrs) = S NDIRECT;
  ly_data bn : 0 ≤ bn < MAXFILE → blk F x bn ≠ 0 →
    allotted F (blk F x bn) ∧ blk F x bn ≠ ind x ∧ blk F x bn ≠ IBLOCK x.(i_inum) sb;
  ly_ind : ind x ≠ 0 → allotted F (ind x) ∧ ind x ≠ IBLOCK x.(i_inum) sb;
  ly_inj bn bn' : 0 ≤ bn < MAXFILE → 0 ≤ bn' < MAXFILE → blk F x bn ≠ 0 → blk F x bn = blk F x bn' → bn = bn'
}.

(** What a write leaves alone *)
Definition untouched F x (m : Z) : Prop :=
  ¬ bitmap_block m ∧ ¬ owns F x m ∧ (0 ≤ m < sb.(sb_size) → free_block sb F m = false).

(** The file [x'] of [F'] has the blocks of [x], and others only that were free;
    those are all that is not free any more.  The blocks of [P] outside of it are the
    same. *)
Record evolved (P : Z → Prop) F x F' x' : Prop := {
  ev_blk bn : 0 ≤ bn < MAXFILE → blk F x bn ≠ 0 → blk F' x' bn = blk F x bn;
  ev_ind : ind x ≠ 0 → ind x' = ind x;
  ev_free b : 0 ≤ b < sb.(sb_size) → free_block sb F' b = true → free_block sb F b = true;
  ev_owner b : 0 ≤ b < sb.(sb_size) → free_block sb F b = true → free_block sb F' b = false → owns F' x' b;
  ev_new b : owns F' x' b → owns F x b ∨ (0 ≤ b < sb.(sb_size) ∧ free_block sb F b = true);
  ev_other m : P m → untouched F x m → F' m = F m
}.

Lemma evolved_refl P F x : evolved P F x F x.
Proof. split; try done; [congruence|by left]. Qed.

Lemma evolved_owns P F x F' x' b : evolved P F x F' x' → owns F x b → owns F' x' b.
Proof.
  intros E [Hb [->|(bn & Hbn & ->)]]; (split; [done|]).
  - left. symmetry. by apply (ev_ind _ _ _ _ _ E).
  - right. exists bn. split; [done|]. symmetry. by apply (ev_blk _ _ _ _ _ E).
Qed.

Lemma evolved_untouched P F x F' x' m : evolved P F x F' x' → untouched F x m → untouched F' x' m.
Proof.
  intros E (H1 & H2 & H3). split; [done|]. split.
  - intros Ho. destruct (ev_new _ _ _ _ _ E m Ho) as [?|[Hr Hf]]; [done|]. rewrite H3 in Hf by done. done.
  - intros Hr. apply not_true_is_false. intros Hf. apply (ev_free _ _ _ _ _ E m Hr) in Hf. rewrite H3 in Hf by done. done.
Qed.

Lemma evolved_trans P F x F1 x1 F2 x2 : evolved P F x F1 x1 → evolved P F1 x1 F2 x2 → evolved P F x F2 x2.
Proof.
  intros E1 E2. split.
  - intros bn Hbn H. rewrite (ev_blk _ _ _ _ _ E2), (ev_blk _ _ _ _ _ E1); try done. by rewrite (ev_blk _ _ _ _ _ E1).
  - intros H. rewrite (ev_ind _ _ _ _ _ E2), (ev_ind _ _ _ _ _ E1); try done. by rewrite (ev_ind _ _ _ _ _ E1).
  - intros b Hb H. by apply (ev_free _ _ _ _ _ E1), (ev_free _ _ _ _ _ E2).
  - intros b Hb H H'. destruct (free_block sb F1 b) eqn:H1; [by apply (ev_owner _ _ _ _ _ E2)|].
    eapply evolved_owns; [done|]. by apply (ev_owner _ _ _ _ _ E1).
  - intros b Hb. destruct (ev_new _ _ _ _ _ E2 b Hb) as [H|[Hr H]].
    + by apply (ev_new _ _ _ _ _ E1).
    + right. split; [done|]. by apply (ev_free _ _ _ _ _ E1).
  - intros m HP Hm. rewrite (ev_other _ _ _ _ _ E2); [by apply (ev_other _ _ _ _ _ E1)|done|]. by eapply evolved_untouched.
Qed.

Definition everywhere (m : Z) : Prop := True.

(** ** An allocation *)

Definition sized F : Prop := ∀ m, length (F m) = Z.to_nat BSIZE.

Section Alloc.
Context (inum : Z) (F : Z → list Z) (a : Z).
Context (Hm : meta inum F) (Hs : sized F) (Ha : 0 ≤ a < sb.(sb_size)) (Hfree : free_block sb F a = true).

Lemma alloc_fresh b : fixed inum b → a ≠ b.
Proof. intros Hb ->. destruct (mt_fixed _ _ Hm b Hb) as [_ H]. congruence. Qed.

Lemma alloc_bit b : 0 ≤ b < sb.(sb_size) →
  free_block sb (alloc_block sb F a) b = if decide (b = a) then false else free_block sb F b.
Proof.
  intros Hb. pose proof (proj1 (mt_home _ _ Hm)) as Hsz. unfold free_block, alloc_block.
  rewrite zupd_ne by (intros E; apply (alloc_fresh (BBLOCK b sb)); [right; right; by exists b|done]).
  destruct (decide (BBLOCK b sb = BBLOCK a sb)) as [E|E].
  - rewrite E, zupd_eq, clear_bit_set; [|unfold BPB, BSIZE; lia..|rewrite Hs; unfold BPB, BSIZE; lia].
    destruct (decide (b = a)) as [->|Hne]; [by rewrite decide_True|]. rewrite decide_False; [done|].
    intros E'. apply Hne. revert E E' Ha Hb Hsz. unfold BBLOCK, u32, BPB, BSIZE. clear. intros. lia.
  - rewrite zupd_ne by done. rewrite decide_False; [done|]. by intros ->.
Qed.

Lemma alloc_other m : m ≠ a → ¬ bitmap_block m → alloc_block sb F a m = F m.
Proof.
  intros Hne Hb. unfold alloc_block. rewrite !zupd_ne; [done| |done]. intros ->. apply Hb. by exists a.
Qed.

Lemma alloc_new : alloc_block sb F a a = zeros.
Proof. apply zupd_eq. Qed.

Lemma alloc_in_use : allotted (alloc_block sb F a) a ∧ a ≠ IBLOCK inum sb.
Proof.
  pose proof (alloc_fresh 0 ltac:(by left)) as H0. split; [|apply alloc_fresh; right; by left]. split; [lia| | |].
  - by rewrite alloc_bit, decide_True.
  - by apply (mt_home _ _ Hm).
  - intros Hb. apply (alloc_fresh a); [by right; right|done].
Qed.

Lemma alloc_kept b : allotted F b → allotted (alloc_block sb F a) b ∧ b ≠ a ∧ alloc_block sb F a b = F b.
Proof.
  intros [H1 H2 H3 H4]. assert (Hne : b ≠ a) by (intros ->; congruence). split; [|split; [done|by apply alloc_other]].
  split; try done. by rewrite alloc_bit, decide_False by (done || lia).
Qed.

Lemma alloc_meta : meta inum (alloc_block sb F a).
Proof.
  destruct Hm as [(M1 & M2 & M3) H2 H3 H4]. split; [|..|done|done].
  - split; [done|]. split; [done|]. intros y Hy. rewrite alloc_bit by done. case_decide; [done|]. by apply M3.
  - intros b Hb. destruct (H2 b Hb) as [Hr Hf]. split; [done|]. rewrite alloc_bit by done. by case_decide.
Qed.

Lemma alloc_sized : sized (alloc_block sb F a).
Proof.
  intros m. unfold alloc_block, zupd. case_decide; [apply length_replicate|].
  case_decide; [rewrite length_bit_set|]; apply Hs.
Qed.

(** ** A file gets the block *)

(** A pointer to the new block is stored, in the inode ([None]: that to the
    indirect block) or in the indirect block, where there was none. *)
Context (x x1 : inode) (F1 : Z → list Z) (at_ : option Z).
Context (Hl : layout F x) (Hlen : length x1.(i_addrs) = S NDIRECT) (Hinum : x.(i_inum) = inum) (Hx1 : x1.(i_inum) = inum).
Context (Hblk : ∀ bn, 0 ≤ bn < MAXFILE → blk F1 x1 bn = if decide (at_ = Some bn) then a else blk F x bn).
Context (Hind : ind x1 = if decide (at_ = None) then a else ind x).
Context (Hwas : match at_ with Some bn => 0 ≤ bn < MAXFILE ∧ blk F x bn = 0 | None => ind x = 0 end).
Context (HF1 : ∀ m, m ≠ ind x ∨ ind x = 0 → F1 m = alloc_block sb F a m).

Lemma grow_F1 m : bitmap_block m → F1 m = alloc_block sb F a m.
Proof.
  intros Hb. apply HF1. destruct (decide (ind x = 0)) as [|Hi]; [by right|left]. intros ->.
  by apply (iu_bitmap _ _ (proj1 (ly_ind _ _ Hl Hi))).
Qed.

Lemma grow_bit b : 0 ≤ b < sb.(sb_size) → free_block sb F1 b = free_block sb (alloc_block sb F a) b.
Proof. intros Hb. unfold free_block. rewrite grow_F1; [done|by exists b]. Qed.

Lemma grow_in_use b : allotted (alloc_block sb F a) b → allotted F1 b.
Proof. intros [H1 H2 H3 H4]. split; try done. rewrite grow_bit by lia. done. Qed.

Lemma grow_meta : meta inum F1.
Proof.
  destruct alloc_meta as [(M1 & M2 & M3) H2 H3 H4]. split; [|..|done|done].
  - split; [done|]. split; [done|]. intros y Hy. rewrite grow_bit by done. by apply M3.
  - intros b Hb. destruct (H2 b Hb) as [Hr Hf]. split; [done|]. by rewrite grow_bit.
Qed.

Lemma grow_layout : layout F1 x1.
Proof.
  destruct alloc_in_use as [Ua Ia].
  assert (Hna : ∀ bn, 0 ≤ bn < MAXFILE → blk F x bn ≠ a).
  { intros bn Hbn E. destruct (ly_data _ _ Hl bn Hbn) as (U & _); [rewrite E; pose proof (iu_range _ _ Ua); lia|].
    by destruct (alloc_kept _ U) as (_ & ? & _). }
  assert (Hni : ind x ≠ 0 → ind x ≠ a). { intros Hi. by destruct (alloc_kept _ (proj1 (ly_ind _ _ Hl Hi))) as (_ & ? & _). }
  split; [done|..].
  - intros bn Hbn. rewrite Hblk, Hind, Hx1 by done. pose proof (iu_range _ _ Ua) as Hra. destruct (decide (at_ = Some bn)) as [->|Hne].
    + rewrite decide_False by done. intros _. split; [by apply grow_in_use|]. split; [|done]. intros E.
      destruct (decide (ind x = 0)); [lia|]. by apply Hni.
    + intros Hb. destruct (ly_data _ _ Hl bn Hbn Hb) as (U & N1 & N2). rewrite Hinum in N2.
      split; [by apply grow_in_use, alloc_kept|]. split; [|done]. destruct (decide (at_ = None)); [by apply Hna|done].
  - rewrite Hind, Hx1. destruct (decide (at_ = None)); [intros _; split; [by apply grow_in_use|done]|]. intros Hi.
    destruct (ly_ind _ _ Hl Hi) as [U N]. rewrite Hinum in N. split; [by apply grow_in_use, alloc_kept|done].
  - intros bn bn' H1 H2. rewrite !Hblk by done.
    destruct (decide (at_ = Some bn)) as [E1|E1], (decide (at_ = Some bn')) as [E2|E2]; intros H0 E.
    + congruence.
    + by destruct (Hna bn' H2).
    + by destruct (Hna bn H1).
    + by apply (ly_inj _ _ Hl).
Qed.

Lemma grow_evolved : evolved everywhere F x F1 x1.
Proof.
  split.
  - intros bn Hbn Hb. rewrite Hblk by done. destruct (decide (at_ = Some bn)) as [E|]; [|done]. rewrite E in Hwas. by destruct Hwas.
  - intros Hi. rewrite Hind. destruct (decide (at_ = None)) as [E|]; [|done]. by rewrite E in Hwas.
  - intros b Hb. rewrite grow_bit, alloc_bit by done. by destruct (decide (b = a)).
  - intros b Hb Hf. rewrite grow_bit, alloc_bit by done. destruct (decide (b = a)) as [->|]; [|congruence]. intros _.
    split; [pose proof (alloc_fresh 0 ltac:(by left)); lia|]. revert Hblk Hind Hwas. destruct at_ as [bn|]; intros Hblk' Hind' Hwas'.
    + right. exists bn. split; [by destruct Hwas'|]. by rewrite Hblk', decide_True by (done || by destruct Hwas').
    + left. by rewrite Hind', decide_True.
  - intros b [Hb [->|(bn & Hbn & ->)]].
    + rewrite Hind in Hb |- *. destruct (decide (at_ = None)); [right; split; [lia|done]|]. left. split; [done|by left].
    + rewrite Hblk in Hb |- * by done. destruct (decide (at_ = Some bn)); [right; split; [lia|done]|]. left. split; [done|right; by exists bn].
  - intros m _ (U1 & U2 & U3). rewrite HF1, alloc_other; [done| |done|].
    + intros ->. by rewrite U3 in Hfree.
    + destruct (decide (ind x = 0)) as [|Hi]; [by right|left]. intros ->. apply U2. split; [done|by left].
Qed.

Lemma grow_data bn : 0 ≤ bn < MAXFILE → blk F x bn ≠ 0 → F1 (blk F x bn) = F (blk F x bn).
Proof.
  intros Hbn Hb. destruct (ly_data _ _ Hl bn Hbn Hb) as (U & N & _). rewrite HF1 by by left.
  by apply alloc_kept.
Qed.
End Alloc.

(** ** The two places of a pointer *)

Record grown F x F' x' : Prop := {
  gw_layout : layout F' x';
  gw_meta : meta x.(i_inum) F';
  gw_sized : sized F';
  gw_evolved : evolved everywhere F x F' x';
  gw_data bn : 0 ≤ bn < MAXFILE → blk F x bn ≠ 0 → F' (blk F x bn) = F (blk F x bn)
}.

Lemma grown_refl F x : layout F x → meta x.(i_inum) F → sized F → grown F x F x.
Proof. intros H1 H2 H3. split; try done. apply evolved_refl. Qed.

Lemma grown_trans F x F1 x1 F2 x2 : x1.(i_inum) = x.(i_inum) → grown F x F1 x1 → grown F1 x1 F2 x2 → grown F x F2 x2.
Proof.
  intros Hi [A1 A2 A3 A4 A5] [B1 B2 B3 B4 B5]. rewrite Hi in B2. split; try done; [by eapply evolved_trans|].
  intros bn Hbn Hb. rewrite <-A5 by done. rewrite <-(ev_blk _ _ _ _ _ A4 bn Hbn Hb). apply B5; [done|].
  by rewrite (ev_blk _ _ _ _ _ A4).
Qed.

Definition with_addr (k : nat) (a : Z) (x : inode) : inode := set_i_addrs (<[k := a]> x.(i_addrs)) x.

Lemma zero_word k : get_le 4 (4 * k) zeros = 0.
Proof.
  unfold get_le, zeros. rewrite drop_replicate, take_replicate.
  generalize (4 `min` (Z.to_nat BSIZE - 4 * k))%nat. induction n as [|n IH]; [done|]. simpl. by rewrite IH.
Qed.

Section Pointer.
Context (x : inode) (F : Z → list Z) (a : Z).
Context (Hl : layout F x) (Hm : meta x.(i_inum) F) (Hs : sized F) (Ha : 0 ≤ a < sb.(sb_size)) (Hfree : free_block sb F a = true).

Lemma grown_inode k : x.(i_addrs) !! k = Some 0 → grown F x (alloc_block sb F a) (with_addr k a x).
Proof.
  intros Hk. pose proof (ly_len _ _ Hl) as Hlen. pose proof (lookup_lt_Some _ _ _ Hk) as Hk'. unfold NDIRECT in *.
  pose proof (alloc_fresh _ F a Hm Ha Hfree 0 ltac:(by left)) as H0.
  assert (Hind : ind (with_addr k a x) = if decide (k = NDIRECT) then a else ind x).
  { unfold ind, with_addr. cbn [set_i_addrs i_addrs]. destruct (decide (k = NDIRECT)) as [->|Hne].
    - by rewrite list_lookup_insert_eq by done.
    - by rewrite list_lookup_insert_ne. }
  set (at_ := if decide (k = NDIRECT) then None else Some (Z.of_nat k)).
  assert (Hat : ∀ P Q : Z, (if decide (at_ = None) then P else Q) = if decide (k = NDIRECT) then P else Q).
  { intros P Q. unfold at_. by destruct (decide (k = NDIRECT)). }
  assert (Hblk : ∀ bn, 0 ≤ bn < MAXFILE → blk (alloc_block sb F a) (with_addr k a x) bn = if decide (at_ = Some bn) then a else blk F x bn).
  { intros bn Hbn. unfold blk. rewrite Hind. unfold at_, with_addr, NDIRECT in *. cbn [set_i_addrs i_addrs].
    destruct (Z.ltb_spec bn (Z.of_nat 12)) as [Hlt|Hge].
    - destruct (decide (k = 12%nat)) as [->|Hne]; [by rewrite list_lookup_insert_ne, decide_False by (done || lia)|].
      destruct (decide (Some (Z.of_nat k) = Some bn)) as [[= <-]|Hn].
      + by rewrite Nat2Z.id, list_lookup_insert_eq by done.
      + rewrite list_lookup_insert_ne; [done|]. intros ->. apply Hn. f_equal. lia.
    - destruct (decide (k = 12%nat)) as [->|Hne].
      + rewrite decide_False by done. rewrite (proj2 (Z.eqb_neq a 0)) by done. rewrite alloc_new, zero_word.
        unfold ind, NDIRECT. by rewrite Hk.
      + rewrite decide_False by (intros [= <-]; lia). destruct (Z.eqb_spec (ind x) 0) as [|Hi]; [done|].
        by destruct (alloc_kept _ F a Hm Hs Ha Hfree _ (proj1 (ly_ind _ _ Hl Hi))) as (_ & _ & ->). }
  assert (Hwas : match at_ with Some bn => 0 ≤ bn < MAXFILE ∧ blk F x bn = 0 | None => ind x = 0 end).
  { unfold at_. destruct (decide (k = NDIRECT)) as [->|Hne]; [unfold ind; by rewrite Hk|]. unfold MAXFILE, blk, NDIRECT in *.
    split; [lia|]. by rewrite (proj2 (Z.ltb_lt _ _)), Nat2Z.id, Hk by lia. }
  assert (HF1 : ∀ m, m ≠ ind x ∨ ind x = 0 → alloc_block sb F a m = alloc_block sb F a m) by done.
  rewrite <-Hat in Hind. assert (Hlen1 : length (with_addr k a x).(i_addrs) = S NDIRECT) by (cbn; by rewrite length_insert).
  split.
  - eapply grow_layout; eassumption || done.
  - by apply alloc_meta.
  - by apply alloc_sized.
  - eapply grow_evolved; eassumption || done.
  - eapply grow_data; eassumption || done.
Qed.

Lemma grown_indirect bn :
  Z.of_nat NDIRECT ≤ bn < MAXFILE → ind x ≠ 0 → blk F x bn = 0 →
  grown F x (zupd (alloc_block sb F a) (ind x) (put_le 4 (4 * Z.to_nat (bn - Z.of_nat NDIRECT)) a (F (ind x)))) x.
Proof.
  intros Hbn Hi Hb. pose proof (proj1 (mt_home _ _ Hm)) as Hsz. pose proof (ly_len _ _ Hl) as Hlen.
  pose proof (alloc_kept _ F a Hm Hs Ha Hfree _ (proj1 (ly_ind _ _ Hl Hi))) as (_ & Hia & Hki).
  set (F1 := zupd _ _ _). unfold NDIRECT, MAXFILE in *.
  assert (Hroom : (4 * Z.to_nat (bn - Z.of_nat 12) + 4 ≤ length (F (ind x)))%nat) by (rewrite Hs; unfold BSIZE; lia).
  assert (Hblk : ∀ bn', 0 ≤ bn' < MAXFILE → blk F1 x bn' = if decide (Some bn = Some bn') then a else blk F x bn').
  { intros bn' Hbn'. unfold blk, NDIRECT, MAXFILE in *. destruct (Z.ltb_spec bn' (Z.of_nat 12)) as [Hlt|Hge].
    - rewrite decide_False; [done|]. intros [= <-]. lia.
    - rewrite (proj2 (Z.eqb_neq _ _) Hi). unfold F1. rewrite zupd_eq. destruct (decide (Some bn = Some bn')) as [[= <-]|Hne].
      + rewrite get_le_put_same by done. apply Z.mod_small. change (2 ^ (8 * Z.of_nat 4)) with (2 ^ 32). lia.
      + rewrite get_le_put_other; [done|done|]. assert (bn ≠ bn') by congruence. lia. }
  assert (HF1 : ∀ m, m ≠ ind x ∨ ind x = 0 → F1 m = alloc_block sb F a m) by (intros m [?|?]; [by apply zupd_ne|done]).
  assert (Hind : ind x = if decide (Some bn = None) then a else ind x) by (by rewrite decide_False).
  assert (Hwas : match Some bn with Some bn => 0 ≤ bn < MAXFILE ∧ blk F x bn = 0 | None => ind x = 0 end)
    by (unfold MAXFILE; split; [lia|done]).
  split.
  - eapply grow_layout; eassumption || done.
  - eapply grow_meta; eassumption || done.
  - intros m. unfold F1, zupd. destruct (decide (m = ind x)); [by rewrite length_put_le|by apply (alloc_sized F a Hs)].
  - eapply grow_evolved; eassumption || done.
  - eapply grow_data; eassumption || done.
Qed.
End Pointer.
End Layout.

(** ** [bmap] *)

(** Only the inode [ip] and the console output differ. *)
Definition moved (ip : nat) (s0 s1 : kstate) (x : inode) : Prop := s1 = set_k_out s1.(k_out) (upd_inode ip (λ _, x) s0).

Lemma moved_same ip s x : s.(k_inodes) !! ip = Some x → moved ip s s x.
Proof. intros Hx. unfold moved. rewrite (upd_inode_same ip _ x) by done. by destruct s. Qed.

Lemma moved_trans ip s0 s1 s2 x1 x2 : moved ip s0 s1 x1 → moved ip s1 s2 x2 → moved ip s0 s2 x2.
Proof.
  unfold moved. intros E1 E2. rewrite E2, E1. unfold upd_inode. kproj. rewrite list_alter_alter. keq.
Qed.

Lemma moved_inode ip s0 s1 x1 x : moved ip s0 s1 x1 → s0.(k_inodes) !! ip = Some x → s1.(k_inodes) !! ip = Some x1.
Proof. intros -> Hx. unfold upd_inode. kproj. by rewrite list_lookup_alter_eq, Hx. Qed.

Lemma moved_sb ip s0 s1 x1 : moved ip s0 s1 x1 → s1.(k_sb) = s0.(k_sb).
Proof. by intros ->. Qed.

(** The blocks of the log that storing a pointer in the indirect block may add *)
Definition ind_cost (bl : list Z) (x : inode) : nat := if decide (ind x ≠ 0 ∧ ind x ∈ bl) then 0 else 2.

Lemma ind_cost_le bl bl' x x' : ind x' = ind x → bl ⊆ bl' → (ind_cost bl' x' ≤ ind_cost bl x)%nat.
Proof. intros E Hs. unfold ind_cost. rewrite E. destruct (decide (ind x ≠ 0 ∧ ind x ∈ bl)) as [[? Hi]|]; [|case_decide; lia]. by rewrite decide_True by auto. Qed.

Lemma seq3_inv {S} (a b c : M S unit) s s' : (a;; b;; c) s = Done tt s' →
  ∃ s1 s2, a s = Done tt s1 ∧ b s1 = Done tt s2 ∧ c s2 = Done tt s'.
Proof.
  unfold mbind, M_bind. destruct (a s) as [[] s1| | | | |]; try discriminate. cbn [obind].
  destruct (b s1) as [[] s2| | | | |] eqn:Eb; try discriminate. cbn [obind]. intros E. by exists s1, s2.
Qed.

Lemma bblock_address y sb : 0 ≤ BBLOCK y sb < 2 ^ 32.
Proof. unfold BBLOCK, u32. lia. Qed.

Section Bmap.
Context {HK : KernelImage} {WB : WaitBound} {BD : BlockDev} {BDok : BlockDevOk}.
Context (p : nat) (pid dev : Z) (start : Z) (Hstart : 0 ≤ start < 2 ^ 31).
Context (size : Z) (Hsize : 1 ≤ size ≤ LOGSIZE + 1).
Implicit Types (s : kstate) (d : gmap Z (list Z)) (w : list (Z * list Z)) (L : log) (bl : list Z).

Local Abbreviation tx_open := (tx_open p pid dev start size).
Local Abbreviation grown := (grown start size).
Local Abbreviation layout := (layout start size).
Local Abbreviation meta := (meta start size).

(** The state of a file changes from [F], [bl], [L], [s0], [x] to the others. *)
Record bumped (ip : nat) F bl L s0 x F' bl' L' s0' x' : Prop := {
  bp_out : L'.(lg_outstanding) = L.(lg_outstanding);
  bp_moved : moved ip s0 s0' x';
  bp_same : x' = set_i_addrs x'.(i_addrs) x;
  bp_grown : grown s0.(k_sb) F x F' x';
  bp_log : bl ⊆ bl';
  bp_range : addresses bl → addresses bl';
  bp_ok : inode_ok x → inode_ok x'
}.

Lemma bumped_refl ip F bl L s0 x :
  s0.(k_inodes) !! ip = Some x → layout s0.(k_sb) F x → meta s0.(k_sb) x.(i_inum) F → sized F → bumped ip F bl L s0 x F bl L s0 x.
Proof. intros H1 H2 H3 H4. split; try done; [by apply moved_same|by destruct x|by apply grown_refl]. Qed.

Lemma bumped_trans ip F bl L s0 x F1 bl1 L1 s1 x1 F2 bl2 L2 s2 x2 :
  bumped ip F bl L s0 x F1 bl1 L1 s1 x1 → bumped ip F1 bl1 L1 s1 x1 F2 bl2 L2 s2 x2 → bumped ip F bl L s0 x F2 bl2 L2 s2 x2.
Proof.
  intros [A1 A2 A3 A4 A5 A6 A7] [B1 B2 B3 B4 B5 B6 B7]. rewrite (moved_sb _ _ _ _ A2) in B4. split.
  - congruence.
  - by eapply moved_trans.
  - rewrite B3, A3. by destruct x.
  - eapply grown_trans; [|exact A4|exact B4]. by rewrite A3.
  - by etrans.
  - auto.
  - auto.
Qed.

Lemma bumped_file ip F bl L s0 x F' bl' L' s0' x' :
  bumped ip F bl L s0 x F' bl' L' s0' x' → layout s0'.(k_sb) F' x' ∧ meta s0'.(k_sb) x'.(i_inum) F'.
Proof.
  intros [_ M E G _ _ _]. rewrite (moved_sb _ _ _ _ M), E. destruct G as [G1 G2 _ _ _]. rewrite E in G1. done.
Qed.

Definition full sb F : Prop := ∀ y, 0 ≤ y < sb.(sb_size) → free_block sb F y = false.

Lemma open_addr F bl d w L s0 s ip x k a :
  tx_open F bl d w L s0 s → s0.(k_inodes) !! ip = Some x → x.(i_addrs) !! k = Some a → addr_get ip k s = Done a s.
Proof.
  intros [[lru A] _ _] Hx Ha. unfold addr_get. rewrite (bind_Done _ _ _ _ _ (at_inode p pid dev _ _ _ _ _ _ ip x i_addrs A Hx)), Ha. done.
Qed.

Lemma inode_ok_addr x k a : inode_ok x → 0 ≤ a < 2 ^ 32 → inode_ok (with_addr k a x).
Proof.
  intros [K1 K2 K3 K4 K5 K6 K7] Ha. split; try done; cbn; [by rewrite length_insert|].
  intros b [j Hj]%list_elem_of_lookup. destruct (decide (j = k)) as [->|Hne].
  - apply list_lookup_insert_Some in Hj as [(_ & -> & _)|[? _]]; done.
  - rewrite list_lookup_insert_ne in Hj by done. apply K7. by eapply list_elem_of_lookup_2.
Qed.

(** A pointer of the inode: the block it has, or a new one *)
Lemma bmap_pointer F bl d w L s0 s ip x k v :
  tx_open F bl d w L s0 s → s0.(k_inodes) !! ip = Some x → layout s0.(k_sb) F x → meta s0.(k_sb) x.(i_inum) F →
  x.(i_addrs) !! k = Some v → fits size (2 + length bl) → (2 + length bl < NBUF)%nat →
  ∃ a s' F' bl' L' s0' x',
    (if v =? 0 then a ← balloc dev; if a =? 0 then mret 0 else addr_set ip k a;; mret a else mret v) s = Done a s' ∧
    tx_open F' bl' d w L' s0' s' ∧ bumped ip F bl L s0 x F' bl' L' s0' x' ∧ x'.(i_addrs) !! k = Some a ∧
    (v ≠ 0 → F' = F ∧ bl' = bl ∧ x' = x) ∧ (length bl' ≤ length bl + 2)%nat ∧
    (v = 0 → a ≠ 0 → a ∈ bl' ∧ x' = with_addr k a x ∧ F' a = zeros) ∧ (a = 0 → full s0'.(k_sb) F' ∧ bl' = bl ∧ x' = x).
Proof.
  intros T Hx Hl Hm Hk Hf Hn. pose proof (open_size p pid dev start size _ _ _ _ _ _ _ T) as Hs.
  destruct (Z.eqb_spec v 0) as [->|Hv].
  2:{ exists v, s, F, bl, L, s0, x. split; [done|]. split; [done|]. split; [by apply bumped_refl|].
      split_and!; try done; lia. }
  destruct (balloc_with p pid dev start Hstart size Hsize None F bl d w L s0 s T (mt_home _ _ _ _ _ Hm)) as
    [(a & s1 & (Ha & Hfree & _) & E & L1 & T1 & O1)|(s1 & Hfull & E & T1)]; [done|done|done|..]; rewrite (bind_Done _ _ _ _ _ E).
  - pose proof (alloc_fresh _ _ _ _ _ _ Hm Ha Hfree 0 ltac:(by left)) as Ha0. rewrite (proj2 (Z.eqb_neq _ _) Ha0).
    rewrite (bind_Done (addr_set ip k a) _ s1 tt (upd_inode ip (with_addr k a) s1) eq_refl).
    apply (open_upd_inode p pid dev start size _ _ _ _ _ _ _ ip (with_addr k a)) in T1.
    eexists a, _, _, _, L1, _, (with_addr k a x). split; [done|]. split; [exact T1|].
    pose proof (mt_home _ _ _ _ _ Hm) as [Hsz _]. split_and!; try done; try lia.
    + split; [done| |by destruct x|by apply grown_inode| | |].
      * unfold moved. rewrite (upd_inode_agree ip _ (λ _, with_addr k a x) x) by done. unfold upd_inode. keq.
      * etrans; apply log_add_sub.
      * intros Hr. apply addresses_add; [apply addresses_add; [done|apply bblock_address]|lia].
      * intros Hok. apply inode_ok_addr; [done|lia].
    + cbn. apply list_lookup_insert_eq. by eapply lookup_lt_Some.
    + pose proof (length_log_add bl (BBLOCK a s0.(k_sb))). pose proof (length_log_add (log_add bl (BBLOCK a s0.(k_sb))) a). lia.
    + intros _ _. split; [|split; [done|apply alloc_new]]. rewrite elem_log_add. by left.
  - eexists 0, s1, F, bl, L, _, x. split; [done|]. split; [exact T1|]. split_and!; try done; try lia.
    split; try done; [|by destruct x|by apply grown_refl]. unfold moved. kproj. rewrite (upd_inode_same ip _ x) by done. done.
Qed.

(** An entry of the indirect block, with its buffer locked *)
Definition entry (bn : nat) (ind : Z) : M kstate Z :=
  bp ← bread dev ind;
  d ← buf_get bp b_data;
  let addr := get_le 4 (4 * bn) d in
  addr ← (if addr =? 0 then
            addr ← balloc dev;
            (if negb (addr =? 0) then
               buf_set bp (λ x, set_b_data (put_le 4 (4 * bn) addr x.(b_data)) x);;
               log_write bp
             else mret tt);;
            mret addr
          else mret addr);
  brelse bp;;
  mret addr.

Lemma apart_ind i F s0 x : layout s0.(k_sb) F x → ind x ≠ 0 → apart (Some (i, ind x)) s0.(k_sb) F.
Proof.
  intros Hl Hi y [= <-]. destruct (ly_ind _ _ _ _ _ Hl Hi) as [[U1 U2 U3 U4] _]. cbn. split.
  - intros z Hz E. apply U4. by exists z.
  - intros z Hz Hf E. congruence.
Qed.

(** Storing the pointer to the new block *)
Lemma entry_store F bl d w L s0 s ip x bn i a L1 s1 :
  s0.(k_inodes) !! ip = Some x → layout s0.(k_sb) F x → meta s0.(k_sb) x.(i_inum) F → sized F → ind x ≠ 0 →
  Z.of_nat NDIRECT ≤ bn < MAXFILE → blk F x bn = 0 → 0 ≤ a < s0.(k_sb).(sb_size) → free_block s0.(k_sb) F a = true →
  fits size (3 + length bl) → tx_hold p pid dev start size i (ind x) F bl d w L s0 s →
  tx_with p pid dev start size (Some (i, ind x)) (alloc_block s0.(k_sb) F a)
    (log_add (log_add bl (BBLOCK a s0.(k_sb))) a) d w L1 s0 s1 → L1.(lg_outstanding) = L.(lg_outstanding) →
  let bl' := log_add (log_add (log_add bl (BBLOCK a s0.(k_sb))) a) (ind x) in
  ∃ s' F' L', (buf_set i (λ x, set_b_data (put_le 4 (4 * Z.to_nat (bn - Z.of_nat NDIRECT)) a x.(b_data)) x);; log_write i;; brelse i) s1 =
      Done tt s' ∧ tx_open F' bl' d w L' s0 s' ∧ bumped ip F bl L s0 x F' bl' L' s0 x ∧ blk F' x bn = a.
Proof.
  intros Hx Hl Hm Hs Hi Hbn Hb Ha Hfree Hf TH [A1 HL1 Ho1] O1 bl'. pose proof (mt_home _ _ _ _ _ Hm) as [Hsz _].
  destruct (ly_ind _ _ _ _ _ Hl Hi) as [U _]. destruct (alloc_kept _ _ _ _ _ _ Hm Hs Ha Hfree _ U) as (_ & _ & Ei).
  set (bl1 := log_add (log_add bl (BBLOCK a s0.(k_sb))) a) in *.
  assert (Hlen : (length bl1 ≤ length bl + 2)%nat).
  { unfold bl1. pose proof (length_log_add bl (BBLOCK a s0.(k_sb))). pose proof (length_log_add (log_add bl (BBLOCK a s0.(k_sb))) a). lia. }
  assert (Hsub : bl ⊆ bl1) by (unfold bl1; etrans; apply log_add_sub).
  destruct (tx_store p pid dev start Hstart size Hsize i (ind x) (put_le 4 (4 * Z.to_nat (bn - Z.of_nat NDIRECT)) a)
    (alloc_block s0.(k_sb) F a) bl1 d w L1 s0 s1) as (s2 & L2 & E2 & T2 & O2).
  - split; try done. intros Hnb. rewrite Ei. apply (th_clean _ _ _ _ _ _ _ _ _ _ _ _ _ _ _ TH). auto.
  - apply U.
  - unfold fits in *. lia.
  - intros y Hy. rewrite length_put_le; [done|]. rewrite Hy. unfold BSIZE, NDIRECT, MAXFILE in *. lia.
  - eexists s2, _, L2. split; [exact E2|]. split; [exact T2|]. rewrite Ei. split; [split|].
    + congruence.
    + by apply moved_same.
    + by destruct x.
    + by apply grown_indirect.
    + etrans; [exact Hsub|apply log_add_sub].
    + intros Hr. pose proof (iu_range _ _ _ _ _ U). unfold bl', bl1. repeat apply addresses_add; try done; lia || apply bblock_address.
    + done.
    + unfold blk. rewrite (proj2 (Z.ltb_ge _ _)), (proj2 (Z.eqb_neq _ _) Hi), zupd_eq by lia.
      rewrite get_le_put_same by (rewrite Hs; unfold BSIZE, NDIRECT, MAXFILE in *; lia).
      apply Z.mod_small. change (2 ^ (8 * Z.of_nat 4)) with (2 ^ 32). lia.
Qed.

Lemma bmap_entry F bl d w L s0 s ip x bn :
  tx_open F bl d w L s0 s → s0.(k_inodes) !! ip = Some x → layout s0.(k_sb) F x → meta s0.(k_sb) x.(i_inum) F → ind x ≠ 0 →
  Z.of_nat NDIRECT ≤ bn < MAXFILE → fits size (3 + length bl) → (3 + length bl < NBUF)%nat →
  ∃ s' F' bl' L' s0', entry (Z.to_nat (bn - Z.of_nat NDIRECT)) (ind x) s = Done (blk F' x bn) s' ∧
    tx_open F' bl' d w L' s0' s' ∧ bumped ip F bl L s0 x F' bl' L' s0' x ∧
    (blk F x bn ≠ 0 → bl' = bl) ∧ (length bl' + ind_cost bl' x ≤ length bl + ind_cost bl x + 2)%nat ∧
    (blk F x bn = 0 → blk F' x bn ≠ 0 → blk F' x bn ∈ bl') ∧ (blk F' x bn = 0 → full s0'.(k_sb) F').
Proof.
  intros T Hx Hl Hm Hi Hbn Hf Hn. pose proof (open_size p pid dev start size _ _ _ _ _ _ _ T) as Hs. unfold entry.
  assert (Eb : get_le 4 (4 * Z.to_nat (bn - Z.of_nat NDIRECT)) (F (ind x)) = blk F x bn).
  { unfold blk. by rewrite (proj2 (Z.ltb_ge _ _)), (proj2 (Z.eqb_neq _ _) Hi) by lia. }
  destruct (tx_bread p pid dev start Hstart size F bl d w L s0 s (ind x) T ltac:(lia)) as (i & s1 & E1 & T1).
  rewrite (bind_Done _ _ _ _ _ E1), (bind_Done _ _ _ _ _ (tx_read _ _ _ _ _ _ _ _ _ _ _ _ _ _ _ T1)). cbn zeta. rewrite Eb.
  destruct (Z.eqb_spec (blk F x bn) 0) as [Hb|Hb].
  2:{ rewrite (bind_Done (mret _) _ s1 _ s1 eq_refl). destruct (tx_brelse p pid dev start Hstart size _ _ _ _ _ _ _ _ _ T1) as (s2 & E2 & T2).
      rewrite (bind_Done _ _ _ _ _ E2). exists s2, F, bl, L, s0. split; [done|]. split; [done|]. split; [by apply bumped_refl|].
      split_and!; try done; lia. }
  assert (TW : tx_with p pid dev start size (Some (i, ind x)) F bl d w L s0 s1) by (destruct T1 as [A HC HL Ho _ _]; by split).
  destruct (balloc_with p pid dev start Hstart size Hsize _ F bl d w L s0 s1 TW (mt_home _ _ _ _ _ Hm) (apart_ind i F s0 x Hl Hi)) as
    [(a & s2 & (Ha & Hfree & _) & E & L1 & T2 & O1)|(s2 & Hfull & E & T2)]; [unfold fits in *; lia|cbn; lia|..].
  - pose proof (alloc_fresh _ _ _ _ _ _ Hm Ha Hfree 0 ltac:(by left)) as Ha0.
    destruct (entry_store F bl d w L s0 s1 ip x bn i a L1 s2) as (s3 & F' & L' & E3 & T3 & B & Hblk); try done.
    apply seq3_inv in E3 as (s4 & s5 & X1 & X2 & X3). unfold mbind, M_bind. rewrite E. cbn [obind].
    rewrite (proj2 (Z.eqb_neq _ _) Ha0). cbn [negb obind]. rewrite X1. cbn [obind]. rewrite X2. cbn [obind mret M_ret]. rewrite X3. cbn [obind].
    set (bl' := log_add _ (ind x)) in *. exists s3, F', bl', L', s0. rewrite Hblk. split; [done|]. split; [done|]. split; [done|].
    assert (Hin : ind x ∈ bl') by (unfold bl'; rewrite elem_log_add; by left).
    split_and!; try done.
    + unfold ind_cost at 1. rewrite decide_True by done. unfold bl', ind_cost.
      pose proof (length_log_add bl (BBLOCK a s0.(k_sb))). pose proof (length_log_add (log_add bl (BBLOCK a s0.(k_sb))) a) as Hl2.
      pose proof (length_log_add (log_add (log_add bl (BBLOCK a s0.(k_sb))) a) (ind x)) as Hl3.
      case_decide as Hd; [|lia]. unfold log_add at 1. rewrite decide_True; [lia|]. apply log_add_sub, log_add_sub, Hd.
    + intros _ _. unfold bl'. apply log_add_sub. rewrite elem_log_add. by left.
  - unfold mbind, M_bind. rewrite E. cbn [obind Z.eqb negb mret M_ret].
    destruct (tx_brelse p pid dev start Hstart size i (ind x) F bl d w L (set_k_out (Printf "balloc: out of blocks\n" [] :: s0.(k_out)) s0) s2)
      as (s3 & E3 & T3).
    { destruct T2 as [A2 HL2 Ho2]. split; try done. apply (th_clean _ _ _ _ _ _ _ _ _ _ _ _ _ _ _ T1). }
    rewrite E3. cbn [obind]. rewrite Hb. eexists s3, F, bl, L, _. rewrite Hb. split; [done|]. split; [exact T3|]. split_and!; try done; try lia.
    split; try done; [|by destruct x|by apply grown_refl]. unfold moved. kproj. by rewrite (upd_inode_same ip _ x).
Qed.

(** [bmap] of any index of a file: the block that is there, or a new one, or 0
    when the disk is full. *)
Record mapped_to (ip : nat) F bl L s0 x bn a F' bl' L' s0' x' : Prop := {
  mp_bumped : bumped ip F bl L s0 x F' bl' L' s0' x';
  mp_result : blk F' x' bn = a;
  mp_old : blk F x bn ≠ 0 → bl' = bl ∧ x' = x;
  mp_cost : (length bl' + ind_cost bl' x' ≤ length bl + ind_cost bl x + 2)%nat;
  mp_fresh : blk F x bn = 0 → a ≠ 0 → a ∈ bl';
  mp_full : a = 0 → full s0'.(k_sb) F'
}.

Lemma bmap_grow F bl d w L s0 s ip x bn :
  tx_open F bl d w L s0 s → s0.(k_inodes) !! ip = Some x → x.(i_dev) = dev → layout s0.(k_sb) F x → meta s0.(k_sb) x.(i_inum) F →
  0 ≤ bn < MAXFILE → fits size (3 + ind_cost bl x + length bl) → (3 + ind_cost bl x + length bl < NBUF)%nat →
  ∃ a s' F' bl' L' s0' x', bmap ip bn s = Done a s' ∧ tx_open F' bl' d w L' s0' s' ∧ mapped_to ip F bl L s0 x bn a F' bl' L' s0' x'.
Proof.
  intros T Hx Hdev Hl Hm Hbn Hf Hn. pose proof T as [[lru A] _ _]. unfold bmap.
  rewrite (bind_Done _ _ _ _ _ (at_inode p pid dev _ _ _ _ _ _ ip x i_dev A Hx)), Hdev. pose proof (ly_len _ _ _ _ _ Hl) as Hlen.
  destruct (Z.ltb_spec bn (Z.of_nat NDIRECT)) as [Hd|Hd].
  - destruct (lookup_lt_is_Some_2 x.(i_addrs) (Z.to_nat bn)) as [v Hv]; [lia|].
    assert (Ev : ∀ F x, blk F x bn = default 0 (x.(i_addrs) !! Z.to_nat bn)) by (intros; unfold blk; by rewrite (proj2 (Z.ltb_lt _ _) Hd)).
    rewrite (bind_Done _ _ _ _ _ (open_addr _ _ _ _ _ _ _ _ _ _ _ T Hx Hv)).
    destruct (bmap_pointer F bl d w L s0 s ip x (Z.to_nat bn) v T Hx Hl Hm Hv) as
      (a & s1 & F1 & bl1 & L1 & t1 & x1 & E & T1 & B & Ha & Hold & Hlb & Hnew & Hfl); [unfold fits in *; lia|lia|].
    exists a, s1, F1, bl1, L1, t1, x1. split; [exact E|]. split; [done|]. split; rewrite ?Ev, ?Hv, ?Ha; cbn [default from_option id]; try done.
    + intros Hv0. by destruct (Hold Hv0) as (_ & -> & ->).
    + assert (Hi : ind x1 = ind x).
      { destruct (decide (v = 0)) as [->|Hv0]; [|by destruct (Hold Hv0) as (_ & _ & ->)].
        destruct (decide (a = 0)) as [Ha0|Ha0]; [by destruct (Hfl Ha0) as (_ & _ & ->)|].
        destruct (Hnew eq_refl Ha0) as (_ & -> & _). unfold ind, with_addr. cbn. by rewrite list_lookup_insert_ne by lia. }
      pose proof (ind_cost_le bl bl1 x x1 Hi (bp_log _ _ _ _ _ _ _ _ _ _ _ B)). lia.
    + intros H0 Ha0. by apply Hnew.
    + intros Ha0. by apply Hfl.
  - rewrite (proj2 (Z.ltb_lt _ _)) by (unfold NINDIRECT, MAXFILE, NDIRECT in *; lia).
    destruct (lookup_lt_is_Some_2 x.(i_addrs) NDIRECT) as [v Hv]; [lia|].
    rewrite (bind_Done _ _ _ _ _ (open_addr _ _ _ _ _ _ _ _ _ _ _ T Hx Hv)).
    destruct (bmap_pointer F bl d w L s0 s ip x NDIRECT v T Hx Hl Hm Hv) as
      (a & s1 & F1 & bl1 & L1 & t1 & x1 & E & T1 & B & Ha & Hold & Hlb & Hnew & Hfl); [unfold fits in *; lia|lia|].
    rewrite (bind_Done _ _ _ _ _ E). assert (Hi1 : ind x1 = a) by (unfold ind; by rewrite Ha).
    assert (Hix : ind x = v) by (unfold ind; by rewrite Hv).
    destruct (Z.eqb_spec a 0) as [Ha0|Ha0].
    + destruct (Hfl Ha0) as (Hfull & -> & ->). assert (Hb0 : blk F1 x bn = 0).
      { unfold blk. by rewrite (proj2 (Z.ltb_ge _ _)), Hi1, Ha0 by lia. }
      assert (Hb1 : blk F x bn = 0) by (unfold blk; by rewrite (proj2 (Z.ltb_ge _ _)), Hi1, Ha0 by lia).
      exists 0, s1, F1, bl, L1, t1, x. split; [done|]. split; [done|]. split; try done; lia.
    + destruct (bumped_file _ _ _ _ _ _ _ _ _ _ _ B) as [Hl1 Hm1].
      assert (Hc : (length bl1 + ind_cost bl1 x1 ≤ length bl + ind_cost bl x)%nat).
      { destruct (decide (v = 0)) as [->|Hv0]; [|by destruct (Hold Hv0) as (_ & -> & ->)].
        destruct (Hnew eq_refl Ha0) as [Hin _]. unfold ind_cost. rewrite Hi1, Hix.
        rewrite decide_True, decide_False by (done || by intros [? _]). lia. }
      destruct (bmap_entry F1 bl1 d w L1 t1 s1 ip x1 bn T1) as (s2 & F2 & bl2 & L2 & t2 & E2 & T2 & B2 & H1 & H2 & H3 & H4); try done.
      { by eapply moved_inode; [apply B|]. } { by rewrite Hi1. } { lia. } { unfold fits in *. lia. } { lia. }
      rewrite Hi1 in E2. exists (blk F2 x1 bn), s2, F2, bl2, L2, t2, x1. split; [exact E2|]. split; [done|].
      split; try done; [by eapply bumped_trans| |lia|].
      * intros Hb. assert (Hv0 : v ≠ 0) by (intros Ev; revert Hb; unfold blk; by rewrite (proj2 (Z.ltb_ge _ _)), Hix, Ev by lia).
        destruct (Hold Hv0) as (-> & -> & ->). by rewrite H1.
      * intros Hb. apply H3. destruct (decide (v = 0)) as [->|Hv0]; [|by destruct (Hold Hv0) as (-> & _ & ->)].
        destruct (Hnew eq_refl Ha0) as (_ & _ & Hz). unfold blk.
        rewrite (proj2 (Z.ltb_ge _ _)), (proj2 (Z.eqb_neq _ 0)), Hi1, Hz by (lia || by rewrite Hi1). apply zero_word.
Qed.
End Bmap.

(** ** What [writei] copies *)

Section Source.
Context {HK : KernelImage} {HKok : KernelImageOk} {WB : WaitBound} {BD : BlockDev} {BDok : BlockDevOk}.
Context (p : nat) (pid dev : Z).
Implicit Types (s : kstate) (d : gmap Z (list Z)) (w : list (Z * list Z)) (L : log) (V : bview) (bs : list Z).

(** The source has the bytes [bs]: they are given, or the process sees them at the
    address. *)
Definition supplies (src : source) bs s : Prop :=
  match src with
  | S_local l => l = bs
  | S_user va => ∃ pr G l, s.(k_procs) !! p = Some pr ∧ pt_inv s.(k_mem) pr.(p_pagetable) G l ∧ 0 ≤ va ∧
      va + Z.of_nat (length bs) + PGSIZE < 2 ^ 64 ∧ user_bytes s.(k_mem) G va (length bs) = Some bs
  end.

Lemma at_pagetable V d w L s0 s pr :
  fs_at p pid dev V d w L s0 s → s0.(k_procs) !! p = Some pr →
  proc_get p p_pagetable s = Done pr.(p_pagetable) s ∧ s.(k_mem) = s0.(k_mem).
Proof.
  intros A Hp. split.
  - assert (Hp1 : s.(k_procs) !! p = Some pr) by (destruct A as [_ _ _ _ _ [[_ Hq] _]]; by rewrite Hq). mred. by rewrite Hp1.
  - pose proof (at_frame _ _ _ _ _ _ _ _ _ A) as Fr. unfold fframe in Fr. by rewrite (bframe_get p k_mem _ _ Fr).
Qed.

Lemma at_copyin V d w L s0 s src bs m :
  fs_at p pid dev V d w L s0 s → supplies src bs s0 → 0 ≤ m ≤ Z.of_nat (length bs) →
  ∃ s', either_copyin src m s = Done (0, take (Z.to_nat m) bs) s' ∧ fs_at p pid dev V d w L s0 s'.
Proof.
  intros A Hsrc Hm. destruct (at_myproc p pid dev _ _ _ _ _ _ A) as (s1 & E1 & A1). exists s1. split; [|done].
  unfold either_copyin. rewrite (bind_Done _ _ _ _ _ E1). destruct src as [va|l]; cbn in Hsrc; [|by rewrite Hsrc].
  destruct Hsrc as (pr & G & l & Hp & Hpt & Hva & Hmax & Hb). cbn [opt_or_fault]. rewrite (bind_Done (mret p) _ s1 p s1 eq_refl).
  destruct (at_pagetable _ _ _ _ _ _ _ A1 Hp) as [E2 Em]. rewrite (bind_Done _ _ _ _ _ E2).
  rewrite <-Em in Hpt, Hb. destruct (copyin_ok s1 pr.(p_pagetable) G l va m Hpt Hva ltac:(lia) ltac:(lia)) as (r & E & Hr).
  destruct (user_bytes_split _ _ _ _ (Z.to_nat m) Hb) as [Hb' _]; [lia|]. rewrite Hb' in Hr. by rewrite E, Hr.
Qed.

Lemma supplies_add src bs s m : supplies src bs s → 0 ≤ m ≤ Z.of_nat (length bs) → supplies (source_add src m) (drop (Z.to_nat m) bs) s.
Proof.
  destruct src as [va|l]; cbn; [|by intros ->]. intros (pr & G & l & Hp & Hpt & Hva & Hmax & Hb) Hm. exists pr, G, l.
  unfold PGSIZE in *. unfold u64. rewrite Z.mod_small, length_drop by lia. split_and!; try done; try lia.
  destruct (user_bytes_split _ _ _ _ (Z.to_nat m) Hb) as [_ Hb']; [lia|]. by rewrite Z2Nat.id in Hb' by lia.
Qed.

Lemma supplies_moved src bs ip s0 s1 x : moved ip s0 s1 x → supplies src bs s0 → supplies src bs s1.
Proof. by intros ->. Qed.
End Source.

(** ** Storing bytes in a block of the file *)

Section Stored.
Context (start size : Z) (sb : superblock).
Implicit Types (F : Z → list Z) (x : inode).
Local Abbreviation layout := (layout start size sb).
Local Abbreviation meta := (meta start size sb).

(** The bytes [q] were stored at [off]; the other bytes are those they were. *)
Definition stored F x (off : Z) (q : list Z) F' x' : Prop :=
  ∀ i, 0 ≤ i < MAXFILE * BSIZE → blk F x (i / BSIZE) ≠ 0 ∨ off ≤ i < off + Z.of_nat (length q) →
    blk F' x' (i / BSIZE) ≠ 0 ∧
    file_byte F' x' i = if decide (off ≤ i < off + Z.of_nat (length q)) then default 0 (q !! Z.to_nat (i - off)) else file_byte F x i.

Lemma stored_grown F x F' x' off : grown start size sb F x F' x' → stored F x off [] F' x'.
Proof.
  intros G i Hi [Hb|Hr]; [|simpl in Hr; lia]. assert (Hbn : 0 ≤ i / BSIZE < MAXFILE) by (unfold BSIZE in *; lia).
  destruct G as [_ _ _ E D]. pose proof (ev_blk _ _ _ _ _ _ E _ Hbn Hb) as Eb. split; [by rewrite Eb|].
  rewrite decide_False by (simpl; lia). unfold file_byte. by rewrite !blk_addr, Eb, D by (done || by rewrite Eb).
Qed.

Lemma stored_trans F x F1 x1 F2 x2 off q q' :
  stored F x off q F1 x1 → stored F1 x1 (off + Z.of_nat (length q)) q' F2 x2 → stored F x off (q ++ q') F2 x2.
Proof.
  intros S1 S2 i Hi Hb. rewrite length_app, Nat2Z.inj_add in *.
  destruct (decide (off + Z.of_nat (length q) ≤ i < off + Z.of_nat (length q) + Z.of_nat (length q'))) as [D2|D2].
  - destruct (S2 i Hi (or_intror D2)) as [B2 E2]. split; [done|]. rewrite E2, !decide_True, lookup_app_r by lia. do 2 f_equal. lia.
  - destruct (S1 i Hi) as [B1 E1]. { destruct Hb; [by left|right; lia]. }
    destruct (S2 i Hi (or_introl B1)) as [B2 E2]. split; [done|]. rewrite E2, (decide_False (P := _ ≤ i < _ + Z.of_nat (length q'))), E1 by done.
    destruct (decide (off ≤ i < off + Z.of_nat (length q))) as [D1|D1].
    + by rewrite decide_True, lookup_app_l by lia.
    + by rewrite decide_False by lia.
Qed.

(** One block *)
Section Block.
Context (F : Z → list Z) (x : inode) (off : Z) (q : list Z).
Context (Hl : layout F x) (Hm : meta x.(i_inum) F) (Hs : sized F).
Context (Hoff : 0 ≤ off < MAXFILE * BSIZE) (Hq : Z.of_nat (length q) ≤ BSIZE - off mod BSIZE).
Context (Hb : blk F x (off / BSIZE) ≠ 0).
Local Abbreviation a := (blk F x (off / BSIZE)).
Local Abbreviation F' := (zupd F a (splice (Z.to_nat (off mod BSIZE)) q (F a))).

Lemma block_index : 0 ≤ off / BSIZE < MAXFILE.
Proof. unfold BSIZE in *. lia. Qed.

Lemma store_blk bn : blk F' x bn = blk F x bn.
Proof.
  unfold blk at 1. destruct (bn <? Z.of_nat NDIRECT) eqn:Ebn; [unfold blk; by rewrite Ebn|].
  destruct (Z.eqb_spec (ind x) 0) as [Ei|Ei]; [unfold blk; by rewrite Ebn, Ei|].
  rewrite zupd_ne by (symmetry; by apply (ly_data _ _ _ _ _ Hl _ block_index Hb)). unfold blk. by rewrite Ebn, (proj2 (Z.eqb_neq _ _) Ei).
Qed.

Lemma store_other m : m ≠ a → F' m = F m.
Proof. intros H. by apply zupd_ne. Qed.

Lemma store_bit b : 0 ≤ b < sb.(sb_size) → free_block sb F' b = free_block sb F b.
Proof.
  intros Hr. unfold free_block. rewrite store_other; [done|]. intros E.
  apply (iu_bitmap _ _ _ _ _ (proj1 (ly_data _ _ _ _ _ Hl _ block_index Hb))). by exists b.
Qed.

Lemma store_in_use b : allotted start size sb F b → allotted start size sb F' b.
Proof. intros [H1 H2 H3 H4]. split; try done. by rewrite store_bit by lia. Qed.

Lemma store_layout : layout F' x.
Proof.
  destruct Hl as [H1 H2 H3 H4]. split; [done|..].
  - intros bn Hbn. rewrite store_blk. intros Hz. destruct (H2 bn Hbn Hz) as (U & N1 & N2). split; [by apply store_in_use|done].
  - intros Hi. destruct (H3 Hi) as [U N]. split; [by apply store_in_use|done].
  - intros bn bn' Hbn Hbn'. rewrite !store_blk. by apply H4.
Qed.

Lemma store_meta : meta x.(i_inum) F'.
Proof.
  destruct Hm as [(M1 & M2 & M3) H2 H3 H4]. split; [|..|done|done].
  - split; [done|]. split; [done|]. intros y Hy. rewrite store_bit by done. by apply M3.
  - intros b Hbf. destruct (H2 b Hbf) as [Hr Hf]. split; [done|]. by rewrite store_bit.
Qed.

Lemma store_sized : sized F'.
Proof.
  intros m. unfold zupd. destruct (decide (m = a)); [|apply Hs]. rewrite length_splice; [apply Hs|]. rewrite Hs. unfold BSIZE in *. lia.
Qed.

Lemma store_evolved : evolved sb everywhere F x F' x.
Proof.
  split.
  - intros bn _ _. apply store_blk.
  - done.
  - intros b Hr. by rewrite store_bit.
  - intros b Hr H. rewrite store_bit by done. congruence.
  - intros b [H0 [->|(bn & Hbn & ->)]]; left; (split; [done|]); [by left|right]. exists bn. by rewrite store_blk.
  - intros m _ (_ & Ho & _). apply store_other. intros ->. apply Ho. split; [done|right]. by exists (off / BSIZE); split; [apply block_index|].
Qed.

Lemma store_stored : stored F x off q F' x.
Proof.
  intros i Hi Hor. rewrite store_blk. assert (Hbi : 0 ≤ i / BSIZE < MAXFILE) by (unfold BSIZE in *; lia).
  destruct (decide (i / BSIZE = off / BSIZE)) as [E|E].
  - rewrite E. split; [done|]. unfold file_byte. rewrite E, !blk_addr, store_blk, zupd_eq by (by rewrite ?store_blk).
    rewrite lookup_splice by (rewrite Hs; unfold BSIZE in *; lia).
    unfold BSIZE in *. repeat case_decide; try lia. do 2 f_equal. lia.
  - assert (Hn : ¬ off ≤ i < off + Z.of_nat (length q)) by (unfold BSIZE in *; lia). destruct Hor as [Hbl|?]; [|done]. split; [done|].
    rewrite decide_False by done. unfold file_byte. rewrite !blk_addr, store_blk by (by rewrite ?store_blk). rewrite zupd_ne; [done|].
    intros Eq. apply E. by apply (ly_inj _ _ _ _ _ Hl _ _ Hbi block_index Hbl).
Qed.
End Block.
End Stored.

(** ** Changes elsewhere *)

Section Elsewhere.
Context (start size : Z) (sb : superblock) (F F' : Z → list Z) (x : inode).
Local Abbreviation layout := (layout start size sb).
Local Abbreviation meta := (meta start size sb).

(** Outside of the log and of the block of the inode *)
Definition home_of (inum m : Z) : Prop := ¬ in_log start size m ∧ m ≠ IBLOCK inum sb.

Context (Hsame : ∀ m, home_of x.(i_inum) m → F' m = F m).
Context (Hl : layout F x) (Hm : meta x.(i_inum) F).

Lemma same_blk bn : blk F' x bn = blk F x bn.
Proof.
  unfold blk. destruct (bn <? Z.of_nat NDIRECT); [done|]. destruct (Z.eqb_spec (ind x) 0) as [|Hi]; [done|].
  destruct (ly_ind _ _ _ _ _ Hl Hi) as [U N]. rewrite Hsame; [done|]. split; [apply U|done].
Qed.

Lemma same_bit b : 0 ≤ b < sb.(sb_size) → free_block sb F' b = free_block sb F b.
Proof.
  intros Hb. unfold free_block. rewrite Hsame; [done|]. destruct (mt_home _ _ _ _ _ Hm) as (_ & M2 & _). split; [by apply M2|].
  intros E. apply (mt_table _ _ _ _ _ Hm). by exists b.
Qed.

Lemma same_in_use b : allotted start size sb F b → allotted start size sb F' b.
Proof. intros [H1 H2 H3 H4]. split; try done. by rewrite same_bit by lia. Qed.

Lemma same_layout : layout F' x.
Proof.
  destruct Hl as [H1 H2 H3 H4]. split; [done|..].
  - intros bn Hbn. rewrite same_blk. intros Hz. destruct (H2 bn Hbn Hz) as (U & N1 & N2). split; [by apply same_in_use|done].
  - intros Hi. destruct (H3 Hi) as [U N]. split; [by apply same_in_use|done].
  - intros bn bn' Hbn Hbn'. rewrite !same_blk. by apply H4.
Qed.

Lemma same_meta : meta x.(i_inum) F'.
Proof.
  destruct Hm as [(M1 & M2 & M3) H2 H3 H4]. split; [|..|done|done].
  - split; [done|]. split; [done|]. intros y Hy. rewrite same_bit by done. by apply M3.
  - intros b Hbf. destruct (H2 b Hbf) as [Hr Hf]. split; [done|]. by rewrite same_bit.
Qed.

Lemma same_evolved : evolved sb (home_of x.(i_inum)) F x F' x.
Proof.
  split.
  - intros bn _ _. apply same_blk.
  - done.
  - intros b Hr. by rewrite same_bit.
  - intros b Hr H. rewrite same_bit by done. congruence.
  - intros b [H0 [->|(bn & Hbn & ->)]]; left; (split; [done|]); [by left|right]. exists bn. by rewrite same_blk.
  - intros m HP _. by apply Hsame.
Qed.

Lemma same_byte i : 0 ≤ i < MAXFILE * BSIZE → blk F x (i / BSIZE) ≠ 0 → file_byte F' x i = file_byte F x i.
Proof.
  intros Hi Hb. unfold file_byte. rewrite !blk_addr, same_blk by (by rewrite ?same_blk). rewrite Hsame; [done|].
  destruct (ly_data _ _ _ _ _ Hl (i / BSIZE)) as (U & _ & N); [unfold BSIZE in *; lia|done|]. split; [apply U|done].
Qed.
End Elsewhere.

Lemma evolved_weaken sb (P Q : Z → Prop) F x F' x' : (∀ m, Q m → P m) → evolved sb P F x F' x' → evolved sb Q F x F' x'.
Proof. intros H [E1 E2 E3 E4 E5 E6]. split; auto. Qed.

(** The size of the file is no part of this. *)
Lemma layout_size start size sb F x n : layout start size sb F x → layout start size sb F (set_i_size n x).
Proof. intros [H1 H2 H3 H4]. by split. Qed.

Lemma evolved_size sb P F x F' x' n : evolved sb P F x F' x' → evolved sb P F x F' (set_i_size n x').
Proof. intros [H1 H2 H3 H4 H5 H6]. by split. Qed.
