(* ===== verification/WriteFacts.v ===== *)
(** * Writing a file ([writei] of [kernel/fs.c], [filewrite] of [kernel/file.c])

    [writei] inside a transaction, for a file that may grow: the bytes it stores,
    the blocks it allocates, and how many blocks of the log it needs. *)

From S2P Require Import Prelude State Spinlock Cstring Riscv Kalloc Vm VmFacts UserMem Proc ProcFacts Sleeplock.
From S2P Require Import Quiet Bio BioFacts BioSpec Log LogFacts LogSpec Fs FsFacts InodeFacts FileFacts DirFacts NameFacts GrowFacts.

(** ** The blocks that a write adds to the log *)

(** Two for each block of the file, the block and its part of the bitmap, but one
    for the first if it exists, as it does when the write starts inside it. *)
Definition write_cost (off r : Z) : Z :=
  if r <=? 0 then 0 else 2 * rounds off r - (if off mod BSIZE =? 0 then 0 else 1).

Lemma write_cost_next off r : 0 ≤ off → 0 < r →
  let m := Z.min r (BSIZE - off mod BSIZE) in
  (if off mod BSIZE =? 0 then 2 else 1) + write_cost (off + m) (r - m) ≤ write_cost off r ∧ 0 ≤ write_cost (off + m) (r - m).
Proof.
  intros Ho Hr m. destruct (rounds_next off r Ho Hr) as [Hm Hn]. fold m in Hm, Hn. unfold write_cost.
  rewrite (proj2 (Z.leb_gt r 0)) by lia. destruct (Z.leb_spec (r - m) 0) as [Hz|Hz].
  - destruct (off mod BSIZE =? 0); lia.
  - assert (Ha : (off + m) mod BSIZE = 0) by (unfold m, BSIZE in *; lia). rewrite Ha. simpl.
    destruct (off mod BSIZE =? 0); lia.
Qed.

(** At most what [filewrite] counts on, for the size of its pieces *)
Lemma write_cost_max off r : 0 ≤ off → 0 ≤ r ≤ 3 * BSIZE → write_cost off r ≤ 7.
Proof.
  intros Ho Hr. unfold write_cost, rounds, BSIZE in *. destruct (Z.leb_spec r 0); [lia|]. rewrite (proj2 (Z.eqb_neq r 0)) by lia.
  destruct (Z.eqb_spec (off mod 1024) 0); lia.
Qed.

(** ** Well-formed files, and a write *)

Section Written.
Context (start size : Z) (sb : superblock).
Implicit Types (F : Z → list Z) (x : inode).

Record file_wf F x : Prop := {
  fw_layout : layout start size sb F x;
  fw_meta : meta start size sb x.(i_inum) F;
  fw_ok : inode_ok x;
  fw_inum : 0 ≤ x.(i_inum) < 2 ^ 32;
  fw_max : x.(i_size) ≤ MAXFILE * BSIZE;
  fw_mapped bn : 0 ≤ bn → bn * BSIZE < x.(i_size) → blk F x bn ≠ 0
}.

(** The bytes [q] were written at [off]: the contents of the file, its inode on the
    disk, and what is not of the file *)
Record written F x (off : Z) (q : list Z) F' x' : Prop := {
  wn_file : file_wf F' x';
  wn_same : x' = set_i_size x'.(i_size) (set_i_addrs x'.(i_addrs) x);
  wn_size : x'.(i_size) = Z.max x.(i_size) (off + Z.of_nat (length q));
  wn_bytes : file_bytes F' x' 0 x'.(i_size) = splice (Z.to_nat off) q (file_bytes F x 0 x.(i_size));
  wn_disk y : dinode_load (dinode_off x.(i_inum)) (F' (IBLOCK x.(i_inum) sb)) y = with_dinode x' y;
  wn_inodes i y : 0 ≤ i < 2 ^ 32 → i ≠ x.(i_inum) → IBLOCK i sb = IBLOCK x.(i_inum) sb →
    dinode_load (dinode_off i) (F' (IBLOCK i sb)) y = dinode_load (dinode_off i) (F (IBLOCK i sb)) y;
  wn_evolved : evolved sb (home_of start size sb x.(i_inum)) F x F' x'
}.

(** The bytes of a file from those stored *)
Lemma stored_bytes F x off q F' x' sz :
  stored F x off q F' x' → (∀ bn, 0 ≤ bn → bn * BSIZE < sz → blk F x bn ≠ 0) → 0 ≤ off ≤ sz → sz ≤ MAXFILE * BSIZE →
  off + Z.of_nat (length q) ≤ MAXFILE * BSIZE →
  let N := Z.max sz (off + Z.of_nat (length q)) in
  file_bytes F' x' 0 N = splice (Z.to_nat off) q (file_bytes F x 0 sz) ∧ (∀ bn, 0 ≤ bn → bn * BSIZE < N → blk F' x' bn ≠ 0).
Proof.
  intros S Hmap Ho Hmax Hmax' N.
  assert (HS : ∀ i, 0 ≤ i < N → blk F x (i / BSIZE) ≠ 0 ∨ off ≤ i < off + Z.of_nat (length q)).
  { intros i Hi. destruct (decide (i < sz)); [left; apply Hmap; unfold BSIZE in *; lia|right; lia]. }
  split.
  - apply (wrote_file_bytes F x off q (file_byte F' x') sz Ho). intros i Hi. apply S; [lia|by apply HS].
  - intros bn H0 Hb. destruct (S (bn * BSIZE)) as [Hn _]; [unfold BSIZE in *; lia|apply HS; unfold BSIZE in *; lia|].
    by rewrite Z.div_mul in Hn.
Qed.

(** The block of the inode is none of the file's. *)
Lemma inode_untouched F x : file_wf F x → untouched sb F x (IBLOCK x.(i_inum) sb).
Proof.
  intros [Hl Hm _ _ _ _]. split; [apply (mt_table _ _ _ _ _ Hm)|]. split.
  - intros [H0 [E|(bn & Hbn & E)]]; rewrite E in H0.
    + by apply (ly_ind _ _ _ _ _ Hl H0).
    + by apply (ly_data _ _ _ _ _ Hl bn Hbn H0).
  - intros _. apply (mt_fixed _ _ _ _ _ Hm). right. by left.
Qed.

(** The bytes were stored, and then the inode. *)
Lemma stored_written F x off q F1 x1 F2 :
  let x2 := set_i_size (Z.max x.(i_size) (off + Z.of_nat (length q))) x1 in
  file_wf F x → 0 ≤ off ≤ x.(i_size) → off + Z.of_nat (length q) ≤ MAXFILE * BSIZE →
  x1 = set_i_addrs x1.(i_addrs) x → layout start size sb F1 x1 → meta start size sb x.(i_inum) F1 → inode_ok x1 →
  evolved sb everywhere F x F1 x1 → stored F x off q F1 x1 →
  (∀ y, dinode_load (dinode_off x.(i_inum)) (F2 (IBLOCK x.(i_inum) sb)) y = with_dinode x2 y) →
  (∀ i y, 0 ≤ i < 2 ^ 32 → i ≠ x.(i_inum) →
    dinode_load (dinode_off i) (F2 (IBLOCK i sb)) y = dinode_load (dinode_off i) (F1 (IBLOCK i sb)) y) →
  (∀ m, m ≠ IBLOCK x.(i_inum) sb → F2 m = F1 m) → written F x off q F2 x2.
Proof.
  intros x2 W Ho Hmax Hx1 Hl1 Hm1 Hok1 Ev St Hd1 Hd2 Hd3. pose proof W as [Hl Hm Hok Hi Hsz Hmap].
  pose proof (io_size _ Hok) as Hsz0. assert (Ei : x1.(i_inum) = x.(i_inum)) by (by rewrite Hx1).
  destruct (stored_bytes F x off q F1 x1 x.(i_size) St Hmap Ho Hsz Hmax) as [Hby Hmap1]. set (N := Z.max _ _) in *.
  assert (HN : 0 ≤ N ≤ MAXFILE * BSIZE) by lia. rewrite <-Ei in Hm1.
  assert (Hsame : ∀ m, home_of start size sb x1.(i_inum) m → F2 m = F1 m) by (intros m [_ H]; apply Hd3; by rewrite <-Ei).
  pose proof (same_blk start size sb F1 F2 x1 Hsame Hl1) as Hblk. split.
  - split.
    + apply layout_size. exact (same_layout start size sb F1 F2 x1 Hsame Hl1 Hm1).
    + exact (same_meta start size sb F1 F2 x1 Hsame Hm1).
    + destruct Hok1 as [K1 K2 K3 K4 K5 K6 K7]. split; try done. unfold x2, MAXFILE, BSIZE in *. cbn. lia.
    + unfold x2. cbn. by rewrite Ei.
    + unfold x2. cbn. lia.
    + intros bn H0 Hb. unfold x2 in Hb |- *. cbn in Hb. change (blk F2 (set_i_size N x1) bn) with (blk F2 x1 bn). rewrite Hblk. by apply Hmap1.
  - unfold x2. rewrite Hx1. by destruct x.
  - done.
  - change (i_size x2) with N. rewrite <-Hby. unfold file_bytes. apply list_fmap_ext. intros i j [-> Hj]%lookup_seq.
    change (file_byte F2 x2) with (file_byte F2 x1). apply (same_byte start size sb); [done..|lia|]. apply Hmap1; unfold BSIZE; lia.
  - done.
  - intros i y H1 H2 H3. rewrite Hd2 by done. rewrite H3, (ev_other _ _ _ _ _ _ Ev); [done|done|by apply inode_untouched].
  - apply evolved_size. eapply evolved_trans; [eapply evolved_weaken; [|exact Ev]; done|]. rewrite <-Ei.
    exact (same_evolved start size sb F1 F2 x1 Hsame Hl1 Hm1).
Qed.

(** ** Several writes in a row *)

Definition on_disk F x : Prop := ∀ y, dinode_load (dinode_off x.(i_inum)) (F (IBLOCK x.(i_inum) sb)) y = with_dinode x y.

Lemma splice_nil (n : nat) (l : list Z) : (n ≤ length l)%nat → splice n [] l = l.
Proof. intros H. unfold splice. simpl. by rewrite Nat.add_0_r, take_drop. Qed.

Lemma splice_splice (n : nat) (q q' l : list Z) : (n ≤ length l)%nat → splice (n + length q) q' (splice n q l) = splice n (q ++ q') l.
Proof.
  intros H. unfold splice. assert (Ht : length (take n l) = n) by (rewrite length_take; lia).
  assert (E1 : take (n + length q) (take n l ++ q ++ drop (n + length q) l) = take n l ++ q).
  { rewrite app_assoc. apply take_app_length'. rewrite length_app. lia. }
  assert (E2 : drop (n + length q + length q') (take n l ++ q ++ drop (n + length q) l) = drop (n + length (q ++ q')) l).
  { rewrite app_assoc, <-drop_drop, drop_app_length' by (rewrite length_app; lia). rewrite drop_drop, length_app. f_equal. lia. }
  by rewrite E1, E2, <-!app_assoc.
Qed.

Lemma written_refl F x off : file_wf F x → on_disk F x → 0 ≤ off ≤ x.(i_size) → written F x off [] F x.
Proof.
  intros W D Ho. split; try done.
  - by destruct x.
  - simpl. lia.
  - rewrite splice_nil; [done|]. rewrite length_file_bytes. lia.
  - apply evolved_refl.
Qed.

Lemma written_trans F x off q q' F1 x1 F2 x2 :
  0 ≤ off ≤ x.(i_size) → written F x off q F1 x1 → written F1 x1 (off + Z.of_nat (length q)) q' F2 x2 → written F x off (q ++ q') F2 x2.
Proof.
  intros Ho [A1 A2 A3 A4 A5 A6 A7] [B1 B2 B3 B4 B5 B6 B7]. assert (Ei : x1.(i_inum) = x.(i_inum)) by (by rewrite A2). rewrite Ei in *. split; try done.
  - rewrite B2, A2. by destruct x.
  - rewrite B3, A3, length_app. lia.
  - rewrite B4, A4, Z2Nat.inj_add, Nat2Z.id by lia. apply splice_splice. rewrite length_file_bytes. lia.
  - intros i y H1 H2 H3. by rewrite B6, A6.
  - by eapply evolved_trans.
Qed.

(** Only the blocks outside of the log count. *)
Lemma written_home F x off q F' x' F2 :
  written F x off q F' x' → (∀ m, ¬ in_log start size m → F2 m = F' m) → written F x off q F2 x'.
Proof.
  intros [A1 A2 A3 A4 A5 A6 A7] Hs. pose proof A1 as [Hl Hm Hok Hi Hmax Hmap]. assert (Ei : x'.(i_inum) = x.(i_inum)) by (by rewrite A2).
  assert (Hsame : ∀ m, home_of start size sb x'.(i_inum) m → F2 m = F' m) by (intros m [H _]; by apply Hs).
  assert (Hib : F2 (IBLOCK x.(i_inum) sb) = F' (IBLOCK x.(i_inum) sb)) by (apply Hs; rewrite <-Ei; apply (mt_inode _ _ _ _ _ Hm)).
  pose proof (same_blk start size sb F' F2 x' Hsame Hl) as Hblk. split; try done.
  - split; try done; [exact (same_layout start size sb F' F2 x' Hsame Hl Hm)|exact (same_meta start size sb F' F2 x' Hsame Hm)|].
    intros bn H0 Hb. rewrite Hblk. by apply Hmap.
  - rewrite <-A4. unfold file_bytes. apply list_fmap_ext. intros i j [-> Hj]%lookup_seq.
    apply (same_byte start size sb); [done..|lia|]. apply Hmap; unfold BSIZE; lia.
  - intros y. by rewrite Hib.
  - intros i y H1 H2 H3. rewrite H3, Hib, <-H3. by apply A6.
  - eapply evolved_trans; [exact A7|]. rewrite <-Ei. exact (same_evolved start size sb F' F2 x' Hsame Hl Hm).
Qed.
End Written.

Section Writei.
Context {HK : KernelImage} {HKok : KernelImageOk} {WB : WaitBound} {BD : BlockDev} {BDok : BlockDevOk}.
Context (p : nat) (pid dev : Z) (start : Z) (Hstart : 0 ≤ start < 2 ^ 31).
Context (size : Z) (Hsize : 1 ≤ size ≤ LOGSIZE + 1).
Implicit Types (s : kstate) (d : gmap Z (list Z)) (w : list (Z * list Z)) (L : log) (bl bs q : list Z) (F : Z → list Z) (x : inode).

Local Abbreviation tx_open := (tx_open p pid dev start size).
Local Abbreviation layout := (layout start size).
Local Abbreviation meta := (meta start size).

(** ** One round *)

(** The file was changed by storing [q] at [off]. *)
Record progress (ip : nat) F bl L s0 x off q F' bl' L' s0' x' : Prop := {
  pg_out : L'.(lg_outstanding) = L.(lg_outstanding);
  pg_moved : moved ip s0 s0' x';
  pg_same : x' = set_i_addrs x'.(i_addrs) x;
  pg_layout : layout s0.(k_sb) F' x';
  pg_meta : meta s0.(k_sb) x.(i_inum) F';
  pg_evolved : evolved s0.(k_sb) everywhere F x F' x';
  pg_stored : stored F x off q F' x';
  pg_range : addresses bl → addresses bl';
  pg_ok : inode_ok x → inode_ok x'
}.

Lemma bumped_progress ip F bl L s0 x F' bl' L' s0' x' off :
  bumped start size ip F bl L s0 x F' bl' L' s0' x' → progress ip F bl L s0 x off [] F' bl' L' s0' x'.
Proof. intros [A1 A2 A3 A4 A5 A6 A7]. split; try done; [apply A4..|]. by eapply stored_grown. Qed.

Lemma progress_trans ip F bl L s0 x F1 bl1 L1 s1 x1 F2 bl2 L2 s2 x2 off q q' :
  progress ip F bl L s0 x off q F1 bl1 L1 s1 x1 → progress ip F1 bl1 L1 s1 x1 (off + Z.of_nat (length q)) q' F2 bl2 L2 s2 x2 →
  progress ip F bl L s0 x off (q ++ q') F2 bl2 L2 s2 x2.
Proof.
  intros [A1 A2 A3 A4 A5 A6 A7 A8 A9] [B1 B2 B3 B4 B5 B6 B7 B8 B9]. rewrite (moved_sb _ _ _ _ A2) in *.
  assert (Ei : x1.(i_inum) = x.(i_inum)) by (by rewrite A3). rewrite Ei in *. split; try done.
  - congruence.
  - by eapply moved_trans.
  - rewrite B3, A3. by destruct x.
  - by eapply evolved_trans.
  - by eapply stored_trans.
  - auto.
  - auto.
Qed.

(** What a round starts from *)
Record ready (ip : nat) F bl d w L s0 s x : Prop := {
  rd_tx : tx_open F bl d w L s0 s;
  rd_inode : s0.(k_inodes) !! ip = Some x;
  rd_dev : x.(i_dev) = dev;
  rd_layout : layout s0.(k_sb) F x;
  rd_meta : meta s0.(k_sb) x.(i_inum) F
}.

Lemma progress_ready ip F bl d w L s0 s x off q F' bl' L' s0' s' x' :
  ready ip F bl d w L s0 s x → progress ip F bl L s0 x off q F' bl' L' s0' x' → tx_open F' bl' d w L' s0' s' → ready ip F' bl' d w L' s0' s' x'.
Proof.
  intros [R1 R2 R3 R4 R5] [A1 A2 A3 A4 A5 A6 A7 A8 A9] T. pose proof (moved_sb _ _ _ _ A2) as Esb. split; rewrite ?Esb; try done.
  - by eapply moved_inode.
  - by rewrite A3.
  - by rewrite A3.
Qed.

Definition grid (off : Z) : nat := if off mod BSIZE =? 0 then 2 else 1.

Lemma store_cost bl a x : (length (log_add bl a) + ind_cost (log_add bl a) x ≤ length bl + ind_cost bl x + (if decide (a ∈ bl) then 0 else 1))%nat.
Proof.
  pose proof (ind_cost_le bl (log_add bl a) x x eq_refl (log_add_sub bl a)). unfold log_add in *.
  case_decide; [lia|]. rewrite length_app. simpl. lia.
Qed.

(** The bytes go to the block. *)
Lemma writei_store F bl d w L s0 s ip x n tot off src bs :
  let a := blk F x (off / BSIZE) in let m := Z.min (n - tot) (BSIZE - off mod BSIZE) in
  ready ip F bl d w L s0 s x → supplies p src bs s0 → 0 ≤ off → tot < n → Z.of_nat (length bs) = n - tot →
  off + (n - tot) ≤ MAXFILE * BSIZE → a ≠ 0 → fits size (1 + length bl) → (1 + length bl < NBUF)%nat →
  ∃ s' F' L', (bp ← bread dev a; r ← either_copyin src m; let '(st, bs) := r in
      buf_set bp (λ b, set_b_data (splice (Z.to_nat (off mod BSIZE)) bs b.(b_data)) b);;
      if st =? -1 then brelse bp;; mret (inr (tot, off)) else
      log_write bp;; brelse bp;; mret (inl (tot + m, off + m, source_add src m))) s = Done (inl (tot + m, off + m, source_add src m)) s' ∧
    tx_open F' (log_add bl a) d w L' s0 s' ∧ progress ip F bl L s0 x off (take (Z.to_nat m) bs) F' (log_add bl a) L' s0 x.
Proof.
  intros a m [T Hx Hdev Hl Hm] Hsrc Ho Ht Hbs Hmax Ha Hf Hn. pose proof (open_size p pid dev start size _ _ _ _ _ _ _ T) as Hs.
  assert (Hmb : 0 < m ≤ n - tot ∧ m ≤ BSIZE - off mod BSIZE) by (unfold m, BSIZE; lia).
  assert (Hbn : 0 ≤ off / BSIZE < MAXFILE) by (unfold BSIZE in *; lia).
  assert (Lq : Z.of_nat (length (take (Z.to_nat m) bs)) = m) by (rewrite length_take; lia).
  destruct (tx_bread p pid dev start Hstart size F bl d w L s0 s a T ltac:(lia)) as (i & s2 & E2 & [[lru2 A2] C2 L2 O2 N2 M2]).
  rewrite (bind_Done _ _ _ _ _ E2). destruct (at_copyin p pid dev _ _ _ _ _ _ src bs m A2 Hsrc) as (s3 & E3 & A3); [lia|].
  rewrite (bind_Done _ _ _ _ _ E3). cbn beta iota. change (0 =? -1) with false. cbn iota.
  destruct (tx_store p pid dev start Hstart size Hsize i a (splice (Z.to_nat (off mod BSIZE)) (take (Z.to_nat m) bs)) F bl d w L s0 s3)
    as (s4 & L4 & E4 & T4 & O4).
  - split; [by exists lru2|done..].
  - apply (ly_data _ _ _ _ _ Hl _ Hbn Ha).
  - done.
  - intros b Hb. rewrite length_splice; [done|]. unfold BSIZE in *. lia.
  - rewrite (seq3_Done _ _ _ _ _ _ E4). eexists s4, _, L4. split; [done|]. split; [exact T4|].
    assert (Hoff : 0 ≤ off < MAXFILE * BSIZE) by lia. rewrite <-Lq in Hmb. destruct Hmb as [_ Hmb]. split; try done.
    + by apply moved_same.
    + by destruct x.
    + by apply store_layout.
    + by apply store_meta.
    + by eapply store_evolved.
    + by eapply store_stored.
    + intros Hr. apply addresses_add; [done|]. pose proof (mt_home _ _ _ _ _ Hm) as [Hz _].
      pose proof (iu_range _ _ _ _ _ (proj1 (ly_data _ _ _ _ _ Hl _ Hbn Ha))) as Hra. fold a in Hra. lia.
Qed.

(** The block at [off] exists if a write starts inside it. *)
Definition started F x (off : Z) : Prop := off mod BSIZE ≠ 0 → blk F x (off / BSIZE) ≠ 0.

Lemma writei_step F bl d w L s0 s ip x n tot off src bs :
  let m := Z.min (n - tot) (BSIZE - off mod BSIZE) in
  ready ip F bl d w L s0 s x → supplies p src bs s0 → started F x off → 0 ≤ off → tot < n → Z.of_nat (length bs) = n - tot →
  off + (n - tot) ≤ MAXFILE * BSIZE → fits size (3 + ind_cost bl x + length bl) → (3 + ind_cost bl x + length bl < NBUF)%nat →
  ∃ r q s' F' bl' L' s0' x', writei_body ip n (tot, off, src) s = Done r s' ∧ tx_open F' bl' d w L' s0' s' ∧
    progress ip F bl L s0 x off q F' bl' L' s0' x' ∧ (length bl' + ind_cost bl' x' ≤ length bl + ind_cost bl x + grid off)%nat ∧
    (r = inl (tot + m, off + m, source_add src m) ∧ q = take (Z.to_nat m) bs ∨ r = inr (tot, off) ∧ q = [] ∧ full s0.(k_sb) F').
Proof.
  intros m R Hsrc Hst Ho Ht Hbs Hmax Hf Hn. pose proof R as [T Hx Hdev Hl Hm]. unfold writei_body.
  rewrite (proj2 (Z.ltb_lt _ _)) by done. cbn [negb].
  assert (Hbn : 0 ≤ off / BSIZE < MAXFILE) by (unfold BSIZE in *; lia).
  destruct (bmap_grow p pid dev start Hstart size Hsize F bl d w L s0 s ip x (off / BSIZE) T Hx Hdev Hl Hm Hbn Hf Hn)
    as (a & s1 & F1 & bl1 & L1 & t1 & x1 & E1 & T1 & [B Er Hold Hcost Hnew Hfull]).
  rewrite (bind_Done _ _ _ _ _ E1). pose proof (bumped_progress _ _ _ _ _ _ _ _ _ _ _ off B) as P1.
  pose proof (progress_ready _ _ _ _ _ _ _ _ _ _ _ _ _ _ _ _ _ R P1 T1) as R1. pose proof (moved_sb _ _ _ _ (pg_moved _ _ _ _ _ _ _ _ _ _ _ _ _ P1)) as Esb.
  destruct (Z.eqb_spec a 0) as [Ha|Ha].
  - exists (inr (tot, off)), [], s1, F1, bl1, L1, t1, x1. split; [done|]. split; [done|]. split; [done|]. split; [|right; by rewrite <-Esb; auto].
    unfold grid. destruct (Z.eqb_spec (off mod BSIZE) 0) as [|Hne]; [done|].
    destruct (Hold (Hst Hne)) as [-> ->]. lia.
  - pose proof R1 as [_ Hx1 Hdev1 _ _]. pose proof T1 as [[lru A1] _ _].
    rewrite (bind_Done _ _ _ _ _ (at_inode p pid dev _ _ _ _ _ _ ip x1 i_dev A1 Hx1)), Hdev1.
    assert (Hlen : (length bl1 + ind_cost bl1 x1 ≤ length bl + ind_cost bl x + (if decide (a ∈ bl1) then grid off else grid off - 1))%nat).
    { unfold grid. destruct (decide (blk F x (off / BSIZE) = 0)) as [Hb|Hb].
      - rewrite decide_True by auto. destruct (Z.eqb_spec (off mod BSIZE) 0) as [|Hne]; [done|]. by destruct (Hst Hne).
      - destruct (Hold Hb) as [-> ->]. destruct (decide _), (off mod BSIZE =? 0); lia. }
    assert (grid off ≤ 2)%nat by (unfold grid; destruct (off mod BSIZE =? 0); lia).
    destruct (writei_store F1 bl1 d w L1 t1 s1 ip x1 n tot off src bs R1) as (s2 & F2 & L2 & E2 & T2 & P2); rewrite ?Er; try done.
    { by eapply supplies_moved; [apply B|]. } { unfold fits in *. destruct (decide (a ∈ bl1)); lia. } { destruct (decide (a ∈ bl1)); lia. }
    rewrite Er in *. fold m in E2. eexists _, _, s2, F2, (log_add bl1 a), L2, t1, x1. split; [exact E2|]. split; [done|].
    split; [|split; [|by left]].
    + change (take (Z.to_nat m) bs) with ([] ++ take (Z.to_nat m) bs). eapply progress_trans; [exact P1|]. cbn [length]. by rewrite Z.add_0_r.
    + pose proof (store_cost bl1 a x1). assert (1 ≤ grid off)%nat by (unfold grid; destruct (off mod BSIZE =? 0); lia).
      destruct (decide (a ∈ bl1)); lia.
Qed.

Lemma started_next F x off q F' x' m : stored F x off q F' x' → Z.of_nat (length q) = m → 0 < m → 0 ≤ off → off + m ≤ MAXFILE * BSIZE →
  started F' x' (off + m).
Proof.
  intros S Hq Hm Ho Hmax Hne. destruct (S (off + m - 1)) as [Hb _]; [lia|right; lia|].
  by replace ((off + m) / BSIZE) with ((off + m - 1) / BSIZE) by (unfold BSIZE in *; lia).
Qed.

(** ** The loop *)

Lemma writei_grow_loop d w ip n : ∀ fuel F bl L s0 s x tot off src bs,
  ready ip F bl d w L s0 s x → supplies p src bs s0 → started F x off → 0 ≤ off → tot ≤ n → Z.of_nat (length bs) = n - tot →
  off + (n - tot) ≤ MAXFILE * BSIZE → rounds off (n - tot) < Z.of_nat fuel →
  2 + Z.of_nat (length bl + ind_cost bl x) + write_cost off (n - tot) < size →
  2 + Z.of_nat (length bl + ind_cost bl x) + write_cost off (n - tot) < Z.of_nat NBUF →
  ∃ k s' F' bl' L' s0' x', loop fuel (writei_body ip n) (tot, off, src) s = Done (tot + k, off + k) s' ∧ 0 ≤ k ≤ n - tot ∧
    tx_open F' bl' d w L' s0' s' ∧ progress ip F bl L s0 x off (take (Z.to_nat k) bs) F' bl' L' s0' x' ∧
    (k < n - tot → full s0.(k_sb) F') ∧
    Z.of_nat (length bl' + ind_cost bl' x') ≤ Z.of_nat (length bl + ind_cost bl x) + write_cost off (n - tot).
Proof.
  induction fuel as [|fuel IH]; intros F bl L s0 s x tot off src bs R Hsrc Hst Ho Ht Hbs Hmax Hfu Hsz Hnb.
  { unfold rounds, BSIZE in Hfu. destruct (Z.eqb_spec (n - tot) 0); lia. }
  cbn [loop]. destruct (decide (tot = n)) as [->|Hne].
  - unfold writei_body. rewrite Z.ltb_irrefl. cbn [negb]. exists 0, s, F, bl, L, s0, x. rewrite !Z.add_0_r, Z.sub_diag. split; [done|]. split; [lia|].
    split; [apply R|]. split; [|split; [lia|unfold write_cost; simpl; lia]]. apply bumped_progress. destruct R as [T R2 R3 R4 R5].
    apply bumped_refl; try done. exact (open_size p pid dev start size _ _ _ _ _ _ _ T).
  - destruct (rounds_next off (n - tot) Ho ltac:(lia)) as [Hm0 Hr]. destruct (write_cost_next off (n - tot) Ho ltac:(lia)) as [Hc Hc0].
    set (m := Z.min (n - tot) (BSIZE - off mod BSIZE)) in *. assert (Hm : m ≤ n - tot) by (unfold m; lia).
    assert (Hg : Z.of_nat (grid off) = if off mod BSIZE =? 0 then 2 else 1) by (unfold grid; by destruct (off mod BSIZE =? 0)).
    assert (Hg1 : (1 ≤ grid off)%nat) by (unfold grid; destruct (off mod BSIZE =? 0); lia).
    destruct (writei_step F bl d w L s0 s ip x n tot off src bs R Hsrc Hst Ho ltac:(lia) Hbs Hmax) as
      (r & q & s1 & F1 & bl1 & L1 & t1 & x1 & E1 & T1 & P1 & Hlen & Hor); [unfold fits; lia|lia|].
    rewrite (bind_Done _ _ _ _ _ E1). destruct Hor as [[-> ->]|(-> & -> & Hfl)].
    2:{ exists 0, s1, F1, bl1, L1, t1, x1. rewrite !Z.add_0_r. split; [done|]. split; [lia|]. split; [done|]. split; [done|]. split; [done|lia]. }
    assert (Lq : Z.of_nat (length (take (Z.to_nat m) bs)) = m) by (rewrite length_take; lia). fold m in E1.
    pose proof (progress_ready _ _ _ _ _ _ _ _ _ _ _ _ _ _ _ _ _ R P1 T1) as R1.
    replace (n - tot - m) with (n - (tot + m)) in * by lia.
    destruct (IH F1 bl1 L1 t1 s1 x1 (tot + m) (off + m) (source_add src m) (drop (Z.to_nat m) bs) R1) as
      (k & s2 & F2 & bl2 & L2 & t2 & x2 & E2 & Hk & T2 & P2 & Hfl & Hlen2); try lia.
    + apply supplies_add; [|lia]. by eapply supplies_moved; [apply P1|].
    + eapply started_next; [apply P1|done|lia..].
    + rewrite length_drop. lia.
    + exists (m + k), s2, F2, bl2, L2, t2, x2. rewrite !Z.add_assoc. split; [exact E2|]. split; [lia|]. split; [done|].
      rewrite <-(moved_sb _ _ _ _ (pg_moved _ _ _ _ _ _ _ _ _ _ _ _ _ P1)). split; [|split; [intros; apply Hfl; lia|lia]].
      rewrite Z2Nat.inj_add, <-take_take_drop by lia. eapply progress_trans; [exact P1|]. by rewrite Lq.
Qed.

(** ** [writei] *)

Lemma writei_grow F bl d w L s0 s ip x off src bs :
  let n := Z.of_nat (length bs) in let sb := s0.(k_sb) in
  let cost := Z.of_nat (length bl + ind_cost bl x) + write_cost off n in
  tx_open F bl d w L s0 s → s0.(k_inodes) !! ip = Some x → x.(i_dev) = dev → file_wf start size sb F x →
  supplies p src bs s0 → 0 ≤ off ≤ x.(i_size) → off + n ≤ MAXFILE * BSIZE → 2 + cost < size → 2 + cost < Z.of_nat NBUF →
  ∃ k s' F' bl' L' s0' x', writei ip src off n s = Done (Z.of_nat k) s' ∧ (k ≤ length bs)%nat ∧
    tx_open F' bl' d w L' s0' s' ∧ L'.(lg_outstanding) = L.(lg_outstanding) ∧ moved ip s0 s0' x' ∧
    written start size sb F x off (take k bs) F' x' ∧ ((k < length bs)%nat → full sb F') ∧
    Z.of_nat (length bl') ≤ 1 + cost ∧ IBLOCK x.(i_inum) sb ∈ bl' ∧ (addresses bl → addresses bl').
Proof.
  intros n sb cost T Hx Hdev W Hsrc Ho Hmax Hsz Hnb. pose proof W as [Hl Hm Hok Hi Hfs Hmap]. pose proof (io_size _ Hok) as Hs0.
  assert (Hn : 0 ≤ n) by (unfold n; lia). pose proof T as [[lru A] _ _]. unfold writei.
  rewrite (bind_Done _ _ _ _ _ (at_inode p pid dev _ _ _ _ _ _ ip x i_size A Hx)).
  assert (Hu : u32 (off + n) = off + n) by (unfold u32, MAXFILE, BSIZE in *; lia). rewrite Hu.
  rewrite (proj2 (Z.ltb_ge x.(i_size) off)), (proj2 (Z.ltb_ge (off + n) off)) by lia. cbn [orb].
  rewrite (proj2 (Z.ltb_ge (MAXFILE * BSIZE) (off + n))) by lia.
  destruct (writei_grow_loop d w ip n (io_fuel n) F bl L s0 s x 0 off src bs) as
    (k & s1 & F1 & bl1 & L1 & t1 & x1 & E1 & Hk & T1 & P & Hfl & Hc); rewrite ?Z.sub_0_r in *; try done; try lia.
  { intros Hne. apply Hmap; unfold BSIZE in *; lia. }
  { by apply rounds_fuel. }
  rewrite Z.add_0_l in E1. rewrite (bind_Done _ _ _ _ _ E1). cbn beta iota.
  pose proof (progress_ready _ _ _ _ _ _ _ _ _ _ _ _ _ _ _ _ _ (Build_ready _ _ _ _ _ _ _ _ _ T Hx Hdev Hl Hm) P T1) as [_ Hx1 Hdev1 _ _].
  destruct P as [P1 P2 P3 P4 P5 P6 P7 Pr P8]. pose proof T1 as [[lru1 A1] _ _]. pose proof (moved_sb _ _ _ _ P2) as Esb.
  assert (Ei : x1.(i_inum) = x.(i_inum)) by (by rewrite P3). assert (Es : x1.(i_size) = x.(i_size)) by (by rewrite P3).
  rewrite (bind_Done _ _ _ _ _ (at_inode p pid dev _ _ _ _ _ _ ip x1 i_size A1 Hx1)).
  destruct (writei_tail p pid dev start Hstart size Hsize F1 bl1 d w L1 t1 s1 ip x1 (off + k)) as
    (s2 & F2 & L2 & E2 & T2 & O2 & D1 & D2 & D3); try done; rewrite ?Ei, ?Esb; try done; try lia.
  { auto. } { unfold MAXFILE, BSIZE in *. lia. } { apply (mt_inode _ _ _ _ _ Hm). } { unfold fits. lia. }
  rewrite Es, Ei, Esb in *. exists (Z.to_nat k). eexists s2, F2, _, L2, _, _. rewrite (seq2_Done _ _ _ _ _ E2).
  assert (Lq : Z.of_nat (length (take (Z.to_nat k) bs)) = k) by (rewrite length_take; lia).
  rewrite Z2Nat.id by lia. split; [done|]. split; [lia|]. split; [exact T2|]. split; [congruence|].
  split; [|split; [|split; [|split; [|split]]]].
  - eapply moved_trans; [exact P2|]. unfold moved, upd_inode. keq.
  - pose proof (stored_written start size sb F x off (take (Z.to_nat k) bs) F1 x1 F2) as SW. rewrite Lq in SW. apply SW; auto; lia.
  - intros Hlt. assert (k < n) by lia. intros y Hy. unfold free_block. rewrite D3; [by apply Hfl|].
    intros E. apply (mt_table _ _ _ _ _ Hm). by exists y.
  - pose proof (length_log_add bl1 (IBLOCK x.(i_inum) s0.(k_sb))). unfold cost. lia.
  - rewrite elem_log_add. by left.
  - intros Hr. apply addresses_add; [auto|]. unfold IBLOCK, u32. lia.
Qed.

(** C7: [writei] writes a file that may grow.  Inside a transaction with enough
    room in the log, a write of bytes that the kernel or the process has, at an
    offset within the file and not beyond the largest size, stores [k] of them:
    all, unless the disk is full then.  The file has these bytes at the offset, and
    is longer if the write went beyond its end; every block that the bitmap has given
    away is a block of the file, direct or indirect, and in no other place of it; the
    inode on the disk is the one in memory; no other inode and no block of anything
    else changes; and the file is as well-formed as before.  At most two blocks are
    added to the log for each block of the file, one for the first if the write starts
    inside it, two for the indirect block, and one for the inode.  Any other offset or
    size is refused with -1. *)
Theorem writei_spec F bl d w L s0 s ip x off src bs :
  let n := Z.of_nat (length bs) in let sb := s0.(k_sb) in
  let cost := Z.of_nat (length bl + ind_cost bl x) + write_cost off n in
  tx_open F bl d w L s0 s → s0.(k_inodes) !! ip = Some x → x.(i_dev) = dev → file_wf start size sb F x →
  supplies p src bs s0 → 0 ≤ off → n < 2 ^ 31 → 2 + cost < size → 2 + cost < Z.of_nat NBUF →
  if decide (off ≤ x.(i_size) ∧ off + n ≤ MAXFILE * BSIZE) then
    ∃ k s' F' bl' L' s0' x', writei ip src off n s = Done (Z.of_nat k) s' ∧ (k ≤ length bs)%nat ∧ ((k < length bs)%nat → full sb F') ∧
      tx_open F' bl' d w L' s0' s' ∧ moved ip s0 s0' x' ∧ written start size sb F x off (take k bs) F' x' ∧
      Z.of_nat (length bl') ≤ 1 + cost
  else writei ip src off n s = Done (-1) s.
Proof.
  intros n sb cost T Hx Hdev W Hsrc Ho Hn Hsz Hnb. case_decide as Hd.
  - destruct (writei_grow F bl d w L s0 s ip x off src bs) as (k & s' & F' & bl' & L' & s0' & x' & E & Hk & T' & _ & M & Wr & Hfl & Hlen & _);
      try done; try lia. by exists k, s', F', bl', L', s0', x'.
  - pose proof T as [[lru A] _ _]. unfold writei. rewrite (bind_Done _ _ _ _ _ (at_inode p pid dev _ _ _ _ _ _ ip x i_size A Hx)).
    pose proof (fw_max _ _ _ _ _ W) as Hfm. destruct (Z.ltb_spec x.(i_size) off) as [Hlt|Hge]; [done|].
    assert (Hu : u32 (off + n) = off + n) by (unfold u32, MAXFILE, BSIZE, n in *; lia). rewrite Hu. unfold n in *.
    rewrite (proj2 (Z.ltb_ge (off + _) off)), (proj2 (Z.ltb_lt (MAXFILE * BSIZE) _)) by lia. done.
Qed.
End Writei.

(** ** A file of the small file system that can grow *)

(** Two full blocks, 46 and 47; the bitmap has the first 48 blocks in use. *)
Definition inode48 : inode := mk_inode 1 8 1 true 2 0 0 1 2048 (46 :: 47 :: replicate 11 0).
Definition disk48 : gmap Z (list Z) :=
  <[32 := splice (dinode_off 8) (dinode_bytes inode48) zeros]> {[45 := replicate 6 255 ++ replicate 1018 0]}.

Lemma inode48_ok : inode_ok inode48.
Proof.
  split; try (cbn; lia); [done|]. apply (proj1 (Forall_forall (λ a, 0 ≤ a < 2 ^ 32) _)). cbn. repeat (constructor; [lia|]). constructor.
Qed.

Lemma disk48_size m : length (disk_block disk48 m) = Z.to_nat BSIZE.
Proof.
  unfold disk_block, disk48. destruct (decide (m = 32)) as [->|H32].
  - rewrite lookup_insert_eq. cbn [default from_option id]. rewrite length_splice; [apply length_replicate|].
    rewrite length_dinode_bytes by apply inode48_ok. unfold zeros. rewrite length_replicate. pose proof (dinode_off_bound 8). lia.
  - rewrite lookup_insert_ne by done. destruct (decide (m = 45)) as [->|H45]; [by rewrite lookup_singleton_eq|].
    rewrite lookup_singleton_ne by done. apply length_replicate.
Qed.

Lemma inode48_blk F bn : 0 ≤ bn < MAXFILE → blk F inode48 bn = if bn =? 0 then 46 else if bn =? 1 then 47 else 0.
Proof.
  intros H. unfold blk. destruct (Z.ltb_spec bn (Z.of_nat NDIRECT)) as [Hd|Hd].
  - unfold NDIRECT in Hd. assert (Hb : bn = 0 ∨ bn = 1 ∨ 2 ≤ bn < 12) by lia. destruct Hb as [->|[->|Hb]]; [done..|].
    rewrite (proj2 (Z.eqb_neq bn 0)), (proj2 (Z.eqb_neq bn 1)) by lia. cbn [inode48 i_addrs].
    replace (Z.to_nat bn) with (S (S (Z.to_nat (bn - 2)))) by lia. change (default 0 (replicate 11 0 !! Z.to_nat (bn - 2)) = 0).
    by rewrite lookup_replicate_2 by lia.
  - unfold NDIRECT in Hd. rewrite (proj2 (Z.eqb_neq bn 0)), (proj2 (Z.eqb_neq bn 1)) by lia. done.
Qed.

Lemma small_bitmap m : bitmap_block sb_small m → m = 45.
Proof. intros (y & Hy & ->). cbn in Hy. unfold BBLOCK, u32, BPB, BSIZE. cbn. lia. Qed.

Lemma disk48_data b : b = 46 ∨ b = 47 → allotted 2 30 sb_small (disk_block disk48) b.
Proof.
  intros Hb. split.
  - cbn. lia.
  - by destruct Hb as [-> | ->]; vm_compute.
  - unfold in_log. lia.
  - intros E%small_bitmap. lia.
Qed.

Lemma file48_wf : file_wf 2 30 sb_small (disk_block disk48) inode48.
Proof.
  assert (Hi : IBLOCK 8 sb_small = 32) by (vm_compute; reflexivity). split.
  - split; [done|..].
    + intros bn Hbn. rewrite inode48_blk by done. intros Hz. cbn [inode48 i_inum]. rewrite Hi.
      destruct (bn =? 0); [|destruct (bn =? 1); [|done]]; (split; [apply disk48_data; lia|done]).
    + done.
    + intros bn bn' H1 H2. rewrite !inode48_blk by done. destruct (Z.eqb_spec bn 0), (Z.eqb_spec bn' 0); try lia;
        destruct (Z.eqb_spec bn 1), (Z.eqb_spec bn' 1); lia.
  - cbn [inode48 i_inum]. split.
    + apply small_home. by vm_compute.
    + intros b [->|[->|Hb]]; [..|apply small_bitmap in Hb as ->]; rewrite ?Hi; (split; [cbn; lia|by vm_compute]).
    + rewrite Hi. intros E%small_bitmap. lia.
    + rewrite Hi. unfold in_log. lia.
  - apply inode48_ok.
  - cbn. lia.
  - cbn. unfold MAXFILE, BSIZE. lia.
  - intros bn H0 Hb. cbn in Hb. unfold BSIZE in Hb. rewrite inode48_blk by (unfold MAXFILE; lia).
    assert (bn = 0 ∨ bn = 1) as [-> | ->] by lia; done.
Qed.

Lemma writei_spec_witness :
  (∃ k s', @writei _ ideal_disk 0 (S_local (replicate 600 9)) 2048 600 (open_fs (with_inode inode48 (fs0 disk48))) = Done (Z.of_nat k) s') ∧
  @writei _ ideal_disk 0 (S_local (replicate 600 9)) 3000 600 (open_fs (with_inode inode48 (fs0 disk48))) =
    Done (-1) (open_fs (with_inode inode48 (fs0 disk48))).
Proof.
  assert (T : tx_open 3 7 1 2 30 (disk_block disk48) [] disk48 [] log_one (open_fs (with_inode inode48 (fs0 disk48))) (open_fs (with_inode inode48 (fs0 disk48)))).
  { apply with_inode_open; [apply fs0_calm|apply fs0_bcache, disk48_size|apply fs0_disk|apply fs0_writes]. }
  assert (Hx : k_inodes (open_fs (with_inode inode48 (fs0 disk48))) !! 0%nat = Some inode48) by first_inode.
  assert (W : file_wf 2 30 (k_sb (open_fs (with_inode inode48 (fs0 disk48)))) (disk_block disk48) inode48) by apply file48_wf.
  pose proof (λ off, @writei_spec image0 image0_ok _ ideal_disk _ 3 7 1 2 ltac:(lia) 30 ltac:(unfold LOGSIZE, MAXOPBLOCKS; lia)
    _ _ _ _ _ _ _ 0%nat inode48 off (S_local (replicate 600 9)) (replicate 600 9) T Hx eq_refl W eq_refl) as H.
  change (Z.of_nat (length (replicate 600 9))) with 600 in H. split.
  - specialize (H 2048 ltac:(lia) ltac:(lia) ltac:(vm_compute; reflexivity) ltac:(vm_compute; reflexivity)).
    rewrite decide_True in H by (cbn; unfold MAXFILE, BSIZE; lia). destruct H as (k & s' & _ & _ & _ & _ & _ & E & _). by exists k, s'.
  - specialize (H 3000 ltac:(lia) ltac:(lia) ltac:(vm_compute; reflexivity) ltac:(vm_compute; reflexivity)).
    rewrite decide_False in H by (cbn; lia). exact H.
Defined.
