(* ===== verification/Uart.v ===== *)
(** * The serial port driver ([kernel/uart.c])

    [k_uart] holds the 16550 (its control registers, the bytes stored in THR,
    the bytes waiting in RHR, the answers that reads of LSR will give) and the
    driver's transmit buffer. *)

From S2P Require Import Prelude State Spinlock Cstring Riscv Kalloc Vm Proc ProcFacts Sleeplock.

(** ** Registers *)

Definition RHR : Z := 0.
Definition THR : Z := 0.
Definition IER : Z := 1.
Definition IER_RX_ENABLE : Z := Z.shiftl 1 0.
Definition IER_TX_ENABLE : Z := Z.shiftl 1 1.
Definition FCR : Z := 2.
Definition FCR_FIFO_ENABLE : Z := Z.shiftl 1 0.
Definition FCR_FIFO_CLEAR : Z := Z.shiftl 3 1.
Definition LCR : Z := 3.
Definition LCR_EIGHT_BITS : Z := Z.shiftl 3 0.
Definition LCR_BAUD_LATCH : Z := Z.shiftl 1 7.
Definition LSR : Z := 5.
Definition LSR_RX_READY : Z := Z.shiftl 1 0.
Definition LSR_TX_IDLE : Z := Z.shiftl 1 5.

Definition UART_TX_BUF_SIZE : Z := 32.

Section Uart.
Context {HK : KernelImage} {WB : WaitBound}.

Definition uart_get {A} (f : uart → A) : M kstate A := gets (λ s, f s.(k_uart)).
Definition uart_set (f : uart → uart) : M kstate unit :=
  modify (λ s, set_k_uart (f s.(k_uart)) s).

(** The device: a read of LSR reports waiting input and whether THR is empty; a
    read of RHR takes the next input byte; a store to THR sends a byte, except
    in the mode that sets the baud rate, where registers 0 and 1 are the
    divisor. *)
Definition lsr_value (u : uart) : Z :=
  Z.lor (if u.(u_rx) is [] then 0 else LSR_RX_READY)
        (if default true (head u.(u_idle)) then LSR_TX_IDLE else 0).

Definition read_LSR : M kstate Z :=
  v ← uart_get lsr_value;
  uart_set (λ u, set_u_idle (tail u.(u_idle)) u);;
  mret v.

Definition read_RHR : M kstate Z :=
  rx ← uart_get u_rx;
  uart_set (λ u, set_u_rx (tail u.(u_rx)) u);;
  mret (default 0 (head rx)).

Definition baud_mode (u : uart) : bool :=
  negb (Z.land (default 0 (u.(u_regs) !! LCR)) LCR_BAUD_LATCH =? 0).

Definition WriteReg (reg v : Z) : M kstate unit :=
  uart_set (λ u,
    if (reg =? THR) && negb (baud_mode u) then set_u_sent (u.(u_sent) ++ [u8 v]) u
    else set_u_regs (<[reg := u8 v]> u.(u_regs)) u).

(** ** The driver *)

Definition uartinit : M kstate unit :=
  WriteReg IER 0x00;;
  WriteReg LCR LCR_BAUD_LATCH;;
  WriteReg 0 0x03;;
  WriteReg 1 0x00;;
  WriteReg LCR LCR_EIGHT_BITS;;
  WriteReg FCR (Z.lor FCR_FIFO_ENABLE FCR_FIFO_CLEAR);;
  WriteReg IER (Z.lor IER_TX_ENABLE IER_RX_ENABLE);;
  initlock L_uart_tx "uart".

(** One iteration of [uartstart]; at most [UART_TX_BUF_SIZE] bytes wait, so the
    loop is given that many iterations and one to leave it. *)
Definition uartstart_body (_ : unit) : M kstate (unit + unit) :=
  w ← uart_get u_tx_w;
  r ← uart_get u_tx_r;
  if w =? r then mret (inr tt) else
  lsr ← read_LSR;
  if Z.land lsr LSR_TX_IDLE =? 0 then mret (inr tt) else
  buf ← uart_get u_tx_buf;
  c ← opt_or_fault (buf !! Z.to_nat (r mod UART_TX_BUF_SIZE));
  uart_set (set_u_tx_r (u64 (r + 1)));;
  wakeup Ch_uart_tx_r;;
  WriteReg THR c;;
  mret (inl tt).

Definition uartstart : M kstate unit :=
  loop (S (Z.to_nat UART_TX_BUF_SIZE)) uartstart_body tt.

Definition uartputc (c : Z) : M kstate unit :=
  acquire L_uart_tx;;
  pk ← gets k_panicked;
  if pk : bool then spin else
  loop (S wakeups) (λ _,
    w ← uart_get u_tx_w;
    r ← uart_get u_tx_r;
    if w =? u64 (r + UART_TX_BUF_SIZE) then sleep Ch_uart_tx_r L_uart_tx;; mret (inl tt)
    else mret (inr tt)) tt;;
  w ← uart_get u_tx_w;
  uart_set (λ u, set_u_tx_buf (<[Z.to_nat (w mod UART_TX_BUF_SIZE) := u8 c]> u.(u_tx_buf)) u);;
  uart_set (set_u_tx_w (u64 (w + 1)));;
  uartstart;;
  release L_uart_tx.

(** The busy wait ends when the device reports an empty THR, at the latest
    after the recorded answers. *)
Definition uartputc_sync (c : Z) : M kstate unit :=
  push_off;;
  pk ← gets k_panicked;
  if pk : bool then spin else
  idle ← uart_get u_idle;
  loop (S (length idle)) (λ _,
    lsr ← read_LSR;
    if Z.land lsr LSR_TX_IDLE =? 0 then mret (inl tt) else mret (inr tt)) tt;;
  WriteReg THR c;;
  pop_off.

Definition uartgetc : M kstate Z :=
  lsr ← read_LSR;
  if negb (Z.land lsr 0x01 =? 0) then read_RHR else mret (-1).

(** [uartintr()], for the interrupt handler of the console. *)
Definition uartintr (consoleintr : Z → M kstate unit) : M kstate unit :=
  rx ← uart_get u_rx;
  loop (S (length rx)) (λ _,
    c ← uartgetc;
    if c =? -1 then mret (inr tt) else consoleintr c;; mret (inl tt)) tt;;
  acquire L_uart_tx;;
  uartstart;;
  release L_uart_tx.

End Uart.
