(* ===== verification/Console.v ===== *)
(** * The console ([kernel/console.c]) and kernel printing ([kernel/printf.c])

    The input buffer is a ring indexed by three counters, [r <= w <= e] modulo
    [2^32]: read, write (end of the last complete line) and edit. *)

From S2P Require Import Prelude State Spinlock Cstring Riscv Kalloc Vm Proc ProcFacts Sleeplock.
From S2P Require Import Uart.

Definition BACKSPACE : Z := 0x100.
Definition INPUT_BUF_SIZE : Z := 128.

(** [C(x)], control-x: [x - '@'] *)
Definition ctrl (x : Z) : Z := x - 64.
Definition ctrl_P : Z := ctrl 80.
Definition ctrl_U : Z := ctrl 85.
Definition ctrl_H : Z := ctrl 72.
Definition ctrl_D : Z := ctrl 68.
Definition DEL : Z := 0x7f.
Definition NL : Z := 10.
Definition CR : Z := 13.

Section Console.
Context {HK : KernelImage} {WB : WaitBound}.

Definition cons_get {A} (f : console → A) : M kstate A := gets (λ s, f s.(k_cons)).
Definition cons_set (f : console → console) : M kstate unit :=
  modify (λ s, set_k_cons (f s.(k_cons)) s).

(** [cons.buf[i % INPUT_BUF_SIZE]] *)
Definition cons_char (i : Z) (c : console) : Z :=
  default 0 (c.(cons_buf) !! Z.to_nat (i mod INPUT_BUF_SIZE)).

Definition consputc (c : Z) : M kstate unit :=
  if c =? BACKSPACE then
    uartputc_sync 8;; uartputc_sync 32;; uartputc_sync 8
  else uartputc_sync c.

(** The result is the number of characters written. *)
Definition consolewrite (src : Z) (n : Z) : M kstate Z :=
  r ← for_acc (seq 0 (Z.to_nat n)) 0 (λ i _,
    r ← either_copyin (S_user (u64 (src + Z.of_nat i))) 1;
    let '(st, c) := r in
    if st =? -1 then mret (inr (Z.of_nat i)) else
    uartputc (default 0 (head c));;
    mret (inl (Z.of_nat i + 1)));
  mret (match r with inl i => i | inr i => i end).

(** The inner loop of [consoleread]: wait for input.  [false]: the process was
    killed while waiting, and the lock is released. *)
Definition consoleread_wait : M kstate bool :=
  loop (S wakeups) (λ _,
    r ← cons_get cons_r;
    w ← cons_get cons_w;
    if r =? w then
      p ← curproc;
      k ← killed p;
      if negb (k =? 0) then release L_cons;; mret (inr false) else
      sleep Ch_cons_r L_cons;;
      mret (inl tt)
    else mret (inr true)) tt.

(** One character; the loop variables are [dst] and [n]. *)
Definition consoleread_body (target : Z) (x : Z * Z) : M kstate (Z * Z + option Z) :=
  let '(dst, n) := x in
  if negb (0 <? n) then mret (inr (Some n)) else
  ok ← consoleread_wait;
  if negb ok then mret (inr None) else
  r ← cons_get cons_r;
  c ← cons_get (cons_char r);
  cons_set (set_cons_r (u32 (r + 1)));;
  if c =? ctrl_D then
    (if n <? target then cons_set (λ c, set_cons_r (u32 (c.(cons_r) - 1)) c) else mret tt);;
    mret (inr (Some n))
  else
  st ← either_copyout (D_user dst) [c] 1;
  if st =? -1 then mret (inr (Some n)) else
  if c =? NL then mret (inr (Some (n - 1)))
  else mret (inl (u64 (dst + 1), n - 1)).

Definition consoleread (dst : Z) (n : Z) : M kstate Z :=
  acquire L_cons;;
  r ← loop (S (Z.to_nat n)) (consoleread_body n) (dst, n);
  match r with
  | None => mret (-1)
  | Some n' => release L_cons;; mret (n - n')
  end.

(** Kill line: erase back to the end of the last complete line. *)
Definition kill_line : M kstate unit :=
  e ← cons_get cons_e;
  w ← cons_get cons_w;
  loop (S (Z.to_nat (u32 (e - w)))) (λ _,
    e ← cons_get cons_e;
    w ← cons_get cons_w;
    c ← cons_get (cons_char (u32 (e - 1)));
    if negb (e =? w) && negb (c =? NL) then
      cons_set (set_cons_e (u32 (e - 1)));;
      consputc BACKSPACE;;
      mret (inl tt)
    else mret (inr tt)) tt.

(** The [default] case: an ordinary character. *)
Definition cons_input (c : Z) : M kstate unit :=
  e ← cons_get cons_e;
  r ← cons_get cons_r;
  if negb (c =? 0) && (u32 (e - r) <? INPUT_BUF_SIZE) then
    let c := if c =? CR then NL else c in
    consputc c;;
    cons_set (λ x, set_cons_buf (<[Z.to_nat (e mod INPUT_BUF_SIZE) := u8 c]> x.(cons_buf)) x);;
    cons_set (set_cons_e (u32 (e + 1)));;
    r ← cons_get cons_r;
    if (c =? NL) || (c =? ctrl_D) || (u32 (u32 (e + 1) - r) =? INPUT_BUF_SIZE) then
      cons_set (set_cons_w (u32 (e + 1)));;
      wakeup Ch_cons_r
    else mret tt
  else mret tt.

Definition consoleintr (c : Z) : M kstate unit :=
  acquire L_cons;;
  (if c =? ctrl_P then procdump
   else if c =? ctrl_U then kill_line
   else if (c =? ctrl_H) || (c =? DEL) then
     e ← cons_get cons_e;
     w ← cons_get cons_w;
     if negb (e =? w) then
       cons_set (set_cons_e (u32 (e - 1)));;
       consputc BACKSPACE
     else mret tt
   else cons_input c);;
  release L_cons.

Definition consoleinit : M kstate unit :=
  initlock L_cons "cons";;
  uartinit;;
  modify (λ s, set_k_devsw (<[Z.to_nat CONSOLE := true]> s.(k_devsw)) s).

(** ** [kernel/printf.c]

    The rest of the model records a call of [printf] as one event of [k_out];
    [vprintf] is what the call does: the characters it sends, one by one. *)

Definition digits : list Z := take 16 (cstring "0123456789abcdef").

(** [do { buf[i++] = digits[x % base]; } while((x /= base) != 0);], with the
    [fuel] elements of [buf]. *)
Fixpoint digit_loop (fuel : nat) (x base : Z) : option (list Z) :=
  match fuel with
  | O => None
  | S fuel =>
      d ← digits !! Z.to_nat (x mod base);
      if x / base =? 0 then Some [d]
      else r ← digit_loop fuel (x / base) base; Some (d :: r)
  end.

(** The characters of [printint], first to last. *)
Definition printint_chars (xx base : Z) (sign : bool) : option (list Z) :=
  let neg := sign && (xx <? 0) in
  let x := u32 (if neg then - xx else xx) in
  r ← digit_loop 16 x base;
  let buf := r ++ (if neg then [45] else []) in
  if (16 <? length buf)%nat then None else Some (reverse buf).

Definition printint (xx base : Z) (sign : bool) : M kstate unit :=
  cs ← opt_or_fault (printint_chars xx base sign);
  for_each cs consputc.

Definition printptr (x : Z) : M kstate unit :=
  consputc 48;;
  consputc 120;;
  for_each (seq 0 16) (λ i,
    let y := u64 (Z.shiftl x (4 * Z.of_nat i)) in
    d ← opt_or_fault (digits !! Z.to_nat (Z.shiftr y 60));
    consputc d).

(** The characters of a C string, up to its terminator. *)
Fixpoint put_string (s : list Z) : M kstate unit :=
  match s with
  | [] => fault
  | c :: s => if c =? 0 then mret tt else consputc c;; put_string s
  end.

(** One directive: the letter after [%], with the arguments not yet used. *)
Definition directive (c : Z) (ap : list printf_arg) : M kstate (list printf_arg) :=
  if c =? 100 then
    match ap with PInt n :: ap => printint n 10 true;; mret ap | _ => fault end
  else if c =? 120 then
    match ap with PInt n :: ap => printint n 16 true;; mret ap | _ => fault end
  else if c =? 112 then
    match ap with PInt n :: ap => printptr n;; mret ap | _ => fault end
  else if c =? 115 then
    match ap with PStr s :: ap => put_string s;; mret ap | _ => fault end
  else if c =? 37 then consputc 37;; mret ap
  else consputc 37;; consputc c;; mret ap.

(** The loop over the format string. *)
Fixpoint format_loop (fmt : list Z) (ap : list printf_arg) : M kstate unit :=
  match fmt with
  | [] => fault
  | c :: fmt =>
      if c =? 0 then mret tt else
      if negb (c =? 37) then consputc c;; format_loop fmt ap else
      match fmt with
      | [] => fault
      | c :: fmt =>
          if c =? 0 then mret tt else
          ap ← directive c ap;
          format_loop fmt ap
      end
  end.

Definition vprintf (fmt : list Z) (ap : list printf_arg) : M kstate unit :=
  locking ← gets k_pr_locking;
  when locking (acquire L_pr);;
  format_loop fmt ap;;
  when locking (release L_pr).

Definition panic_print (s : list Z) : M kstate unit :=
  modify (set_k_pr_locking false);;
  vprintf (cstring "panic: ") [];;
  vprintf s [];;
  vprintf [NL; 0] [];;
  modify (set_k_panicked true);;
  spin.

Definition printfinit : M kstate unit :=
  initlock L_pr "pr";;
  modify (set_k_pr_locking true).

End Console.
