(* ===== verification/ConsoleFacts.v ===== *)
(** * The console as a line editor ([kernel/console.c])

    [cons_at R L c]: the ring of the console holds the bytes [R] of complete
    lines, ready for [consoleread], and the bytes [L] of the line being edited.
    [consoleintr] implements the line editor [line_edit] on this abstract state
    and echoes what [line_echo] says. *)

From S2P Require Import Prelude State Spinlock Cstring Riscv Kalloc Vm Proc ProcFacts Sleeplock.
From S2P Require Import Quiet Uart Console.

(** ** The line editor *)

Definition room_left (R L : list Z) : bool := Z.of_nat (length R + length L) <? INPUT_BUF_SIZE.

(** The effect of the character [c] on the ready bytes and the current line. *)
Definition line_edit (c : Z) (RL : list Z * list Z) : list Z * list Z :=
  let '(R, L) := RL in
  if c =? ctrl_P then (R, L)
  else if c =? ctrl_U then (R, [])
  else if (c =? ctrl_H) || (c =? DEL) then (R, take (pred (length L)) L)
  else if negb (c =? 0) && room_left R L then
    let c := if c =? CR then NL else c in
    if (c =? NL) || (c =? ctrl_D) || negb (room_left R (L ++ [c])) then (R ++ L ++ [c], [])
    else (R, L ++ [c])
  else (R, L).

(** What it sends to the terminal. *)
Definition erase : list Z := [8; 32; 8].
Definition line_echo (c : Z) (RL : list Z * list Z) : list Z :=
  let '(R, L) := RL in
  if c =? ctrl_P then []
  else if c =? ctrl_U then mjoin (replicate (length L) erase)
  else if (c =? ctrl_H) || (c =? DEL) then if L is [] then [] else erase
  else if negb (c =? 0) && room_left R L then [if c =? CR then NL else c]
  else [].

Record cons_at (R L : list Z) (c : console) : Prop := {
  ca_len : length c.(cons_buf) = 128%nat;
  ca_r : 0 ≤ c.(cons_r) < 2 ^ 32;
  ca_w : c.(cons_w) = u32 (c.(cons_r) + Z.of_nat (length R));
  ca_e : c.(cons_e) = u32 (c.(cons_r) + Z.of_nat (length R + length L));
  ca_size : Z.of_nat (length R + length L) ≤ INPUT_BUF_SIZE;
  ca_data k b : (R ++ L) !! k = Some b → cons_char (c.(cons_r) + Z.of_nat k) c = b;
  ca_line : NL ∉ L
}.

(** ** The ring *)

Lemma cons_char_u32 i c : cons_char (u32 i) c = cons_char i c.
Proof. unfold cons_char, u32, INPUT_BUF_SIZE. do 3 f_equal. change (2 ^ 32) with (128 * 33554432). lia. Qed.

(** [cons.e--] *)
Lemma cons_erase R L x c :
  cons_at R (L ++ [x]) c → cons_at R L (set_cons_e (u32 (c.(cons_e) - 1)) c).
Proof.
  intros [H1 H2 H3 H4 H5 H6 H7]. rewrite length_app in H4, H5. simpl in H4, H5. split; try done; cbn.
  - rewrite H4. unfold u32. lia.
  - lia.
  - intros k b Hb. change (cons_char (cons_r c + Z.of_nat k) c = b). apply H6. rewrite app_assoc. by apply lookup_app_l_Some.
  - intros Hn. apply H7, elem_of_app. by left.
Qed.

(** [cons.buf[cons.e++ % INPUT_BUF_SIZE] = x] *)
Definition cons_put (x : Z) (c : console) : console :=
  set_cons_e (u32 (c.(cons_e) + 1))
    (set_cons_buf (<[Z.to_nat (c.(cons_e) mod INPUT_BUF_SIZE) := x]> c.(cons_buf)) c).

Lemma cons_put_data R L x c :
  cons_at R L c → Z.of_nat (length R + length L) < INPUT_BUF_SIZE →
  ∀ k b, (R ++ L ++ [x]) !! k = Some b → cons_char (c.(cons_r) + Z.of_nat k) (cons_put x c) = b.
Proof.
  intros [H1 H2 H3 H4 H5 H6 H7] Hs k b. unfold INPUT_BUF_SIZE in *. rewrite app_assoc.
  intros [Hb|[Hle Hb]]%lookup_app_Some.
  - pose proof (lookup_lt_Some _ _ _ Hb) as Hlt. rewrite length_app in Hlt. rewrite <-(H6 k b Hb).
    unfold cons_char, cons_put, INPUT_BUF_SIZE. cbn. rewrite list_lookup_insert_ne; [done|].
    rewrite H4. unfold u32. change (2 ^ 32) with (128 * 33554432). lia.
  - rewrite length_app in Hle, Hb. destruct (k - (length R + length L))%nat eqn:Ek; [|done]. injection Hb as <-.
    unfold cons_char, cons_put, INPUT_BUF_SIZE. cbn.
    assert (Z.to_nat (cons_e c mod 128) = Z.to_nat ((cons_r c + Z.of_nat k) mod 128)) as ->.
    { rewrite H4. unfold u32. change (2 ^ 32) with (128 * 33554432). lia. }
    rewrite list_lookup_insert_eq by lia. done.
Qed.

Lemma cons_put_line R L x c :
  cons_at R L c → Z.of_nat (length R + length L) < INPUT_BUF_SIZE → x ≠ NL → cons_at R (L ++ [x]) (cons_put x c).
Proof.
  intros C Hs Hx. pose proof (cons_put_data R L x c C Hs) as Hd. destruct C as [H1 H2 H3 H4 H5 H6 H7].
  split; try done; unfold cons_put; cbn; rewrite ?length_insert, ?length_app; simpl length.
  - done.
  - rewrite H4. unfold u32. lia.
  - unfold INPUT_BUF_SIZE in *. lia.
  - intros [Hn|Hn%list_elem_of_singleton]%elem_of_app; congruence.
Qed.

Lemma cons_put_commit R L x c :
  cons_at R L c → Z.of_nat (length R + length L) < INPUT_BUF_SIZE →
  cons_at (R ++ L ++ [x]) [] (set_cons_w (u32 (c.(cons_e) + 1)) (cons_put x c)).
Proof.
  intros C Hs. pose proof (cons_put_data R L x c C Hs) as Hd. destruct C as [H1 H2 H3 H4 H5 H6 H7].
  split; unfold cons_put; cbn; rewrite ?length_insert, ?length_app; simpl length; try done.
  - rewrite H4. unfold u32. lia.
  - rewrite H4. unfold u32. lia.
  - unfold INPUT_BUF_SIZE in *. lia.
  - intros k b. rewrite app_nil_r. apply Hd.
  - apply not_elem_of_nil.
Qed.

(** The tests on the counters. *)
Lemma cons_none R c : cons_at R [] c → c.(cons_e) = c.(cons_w).
Proof. intros [_ _ H3 H4 _ _ _]. rewrite H3, H4. simpl. by rewrite Nat.add_0_r. Qed.

Lemma cons_last R L x c :
  cons_at R (L ++ [x]) c →
  (c.(cons_e) =? c.(cons_w)) = false ∧ cons_char (u32 (c.(cons_e) - 1)) c = x ∧ x ≠ NL.
Proof.
  intros [H1 H2 H3 H4 H5 H6 H7]. rewrite length_app in H4, H5. simpl in H4, H5. unfold INPUT_BUF_SIZE in H5.
  split_and!.
  - apply Z.eqb_neq. rewrite H3, H4. unfold u32. lia.
  - rewrite <-(H6 (length R + length L)%nat x).
    + rewrite <-(cons_char_u32 (cons_r c + _)). f_equal. rewrite H4. unfold u32. lia.
    + rewrite app_assoc, <-length_app. by apply list_lookup_middle.
  - intros ->. apply H7, elem_of_app. right. apply list_elem_of_here.
Qed.

Lemma cons_room R L c :
  cons_at R L c → (u32 (c.(cons_e) - c.(cons_r)) <? INPUT_BUF_SIZE) = room_left R L.
Proof.
  intros [H1 H2 H3 H4 H5 H6 H7]. unfold room_left, INPUT_BUF_SIZE in *. f_equal. rewrite H4. unfold u32. lia.
Qed.

Lemma cons_full R L c x :
  cons_at R L c → Z.of_nat (length R + length L) < INPUT_BUF_SIZE →
  (u32 (u32 (c.(cons_e) + 1) - c.(cons_r)) =? INPUT_BUF_SIZE) = negb (room_left R (L ++ [x])).
Proof.
  intros [H1 H2 H3 H4 H5 H6 H7] Hs. unfold room_left, INPUT_BUF_SIZE in *. rewrite length_app. simpl.
  assert (u32 (u32 (cons_e c + 1) - cons_r c) = Z.of_nat (length R + length L + 1)) as ->
    by (rewrite H4; unfold u32; lia).
  destruct (Z.eqb_spec (Z.of_nat (length R + length L + 1)) 128), (Z.ltb_spec (Z.of_nat (length R + (length L + 1))) 128);
    done || lia.
Qed.

(** ** Echo *)

Section ConsoleFacts.
Context {HK : KernelImage} {WB : WaitBound}.
Context (p : nat) (pid : Z).
Implicit Types s : kstate.

Local Abbreviation calm := (calm p pid).

(** The terminal is ready to print. *)
Definition can_print s : Prop := s.(k_panicked) = false ∧ baud_mode s.(k_uart) = false.

(** The state after the bytes [out] went out; [idle] is what the device will
    answer to later reads of LSR. *)
Definition sent (out : list Z) (idle : list bool) s : kstate :=
  set_k_uart (set_u_idle idle (set_u_sent (s.(k_uart).(u_sent) ++ out) s.(k_uart))) s.

Lemma lsr_idle u : (Z.land (lsr_value u) LSR_TX_IDLE =? 0) = negb (default true (head u.(u_idle))).
Proof. unfold lsr_value. destruct (u_rx u), (default true (head (u_idle u))); done. Qed.

(** The body of the busy wait, which ends within the recorded answers. *)
Definition wait_tx (_ : unit) : M kstate (unit + unit) :=
  lsr ← read_LSR;
  if Z.land lsr LSR_TX_IDLE =? 0 then mret (inl tt) else mret (inr tt).

Lemma wait_tx_ok s :
  wait_tx tt s = Done (if default true (head s.(k_uart).(u_idle)) then inr tt else inl tt)
    (set_k_uart (set_u_idle (tail s.(k_uart).(u_idle)) s.(k_uart)) s).
Proof.
  unfold wait_tx, read_LSR, uart_get, uart_set, mbind, M_bind, gets, modify, mret, M_ret. cbn [obind].
  rewrite lsr_idle. by destruct (default true (head (u_idle (k_uart s)))).
Qed.

Lemma wait_idle n s :
  (length s.(k_uart).(u_idle) < n)%nat →
  ∃ idle, loop n wait_tx tt s = Done tt (set_k_uart (set_u_idle idle s.(k_uart)) s).
Proof.
  revert s. induction n as [|n IH]; intros s Hn; [lia|]. cbn [loop]. unfold mbind, M_bind.
  rewrite wait_tx_ok. cbn [obind].
  destruct (u_idle (k_uart s)) as [|b bs] eqn:Eb; [by eexists|]. destruct b; [by eexists|]. cbn [head default from_option id tail].
  destruct (IH (set_k_uart (set_u_idle bs (k_uart s)) s)) as [idle E2]; [simpl in Hn |- *; lia|].
  exists idle. rewrite E2. done_eq.
Qed.

Lemma uartputc_sync_at h H s c :
  calm (h :: H) s → can_print s → ∃ idle, uartputc_sync c s = Done tt (sent [u8 c] idle s).
Proof.
  intros C [Hp Hb]. destruct (calm_cpu _ _ _ _ C) as (cp & Hc & _ & Hn & Hwf).
  unfold uartputc_sync. unfold mbind, M_bind. rewrite (push_off_ok _ _ Hc). cbn [obind].
  unfold gets at 1. kproj. rewrite Hp. cbn [obind]. unfold uart_get, gets. cbn [obind].
  destruct (wait_idle (S (length (u_idle (k_uart (enter s))))) (enter s)) as [idle E]; [lia|].
  unfold wait_tx at 1, mbind, M_bind in E. rewrite E. cbn [obind]. exists idle.
  unfold WriteReg, uart_set, modify. cbn [obind]. change (THR =? THR) with true. cbn [andb]. kproj.
  change (baud_mode (set_u_idle idle (k_uart s))) with (baud_mode (k_uart s)). rewrite Hb. cbn [negb].
  rewrite (pop_off_ok _ (cpu_enter cp)).
  - pose proof (settle_id _ _ _ _ _ C) as Hs. rewrite <-(leave_enter s (calm_wf _ _ _ _ C)) in Hs.
    unfold sent. done_eq. exact (f_equal k_cpus Hs).
  - kproj. unfold enter. cpu_lookup.
  - done.
  - destruct Hwf as [Hw _]. unfold cpu_enter. simpl. lia.
Qed.

(** Steps that only print: a step that ends in [sent]. *)
Lemma sent_calm H out idle s : calm H s → calm H (sent out idle s).
Proof. intros C. by eapply calm_upd. Qed.

Lemma sent_print out idle s : can_print s → can_print (sent out idle s).
Proof. intros [H1 H2]. by split. Qed.

Lemma sent_sent a b i j s : sent b j (sent a i s) = sent (a ++ b) j s.
Proof. unfold sent. kproj. cbn. rewrite <-app_assoc. keq. Qed.

Lemma consputc_at h H s c :
  calm (h :: H) s → can_print s → 0 ≤ c < 256 → ∃ idle, consputc c s = Done tt (sent [c] idle s).
Proof.
  intros C Hp Hc. unfold consputc. rewrite (proj2 (Z.eqb_neq _ _)) by (unfold BACKSPACE; lia).
  destruct (uartputc_sync_at h H s c C Hp) as [idle E]. exists idle. rewrite E. unfold u8.
  by rewrite Z.mod_small.
Qed.

Lemma consputc_erase h H s :
  calm (h :: H) s → can_print s → ∃ idle, consputc BACKSPACE s = Done tt (sent erase idle s).
Proof.
  intros C Hp. unfold consputc. change (BACKSPACE =? BACKSPACE) with true. unfold mbind, M_bind.
  destruct (uartputc_sync_at h H s 8 C Hp) as [i1 E1]. rewrite E1. cbn [obind].
  destruct (uartputc_sync_at h H (sent [u8 8] i1 s) 32) as [i2 E2]; [by apply sent_calm|by apply sent_print|].
  rewrite E2. cbn [obind]. rewrite sent_sent.
  destruct (uartputc_sync_at h H (sent ([u8 8] ++ [u8 32]) i2 s) 8) as [i3 E3];
    [by apply sent_calm|by apply sent_print|].
  rewrite E3. exists i3. by rewrite sent_sent.
Qed.

(** ** [consoleintr] *)

(** The console's data [c] and the output [out] since [s0]; everything else is
    as quiet steps leave it. *)
Record cons_run (H : list lockid) (c : console) (out : list Z) (s0 s : kstate) : Prop := {
  cr_calm : calm H s;
  cr_cons : s.(k_cons) = c;
  cr_sent : s.(k_uart).(u_sent) = s0.(k_uart).(u_sent) ++ out;
  cr_print : can_print s
}.

Lemma run_set H c out s0 s f :
  cons_run H c out s0 s → ∃ s', cons_set f s = Done tt s' ∧ cons_run H (f c) out s0 s'.
Proof.
  intros [C Ec Es Hp]. eexists. split; [reflexivity|]. split; [by eapply calm_upd|by kproj; rewrite Ec|done..].
Qed.

Lemma run_get H c out s0 s {A} (f : console → A) :
  cons_run H c out s0 s → cons_get f s = Done (f c) s.
Proof. intros R. unfold cons_get, gets. by rewrite (cr_cons _ _ _ _ _ R). Qed.

Lemma run_sent H c out s0 s more idle :
  cons_run H c out s0 s → cons_run H c (out ++ more) s0 (sent more idle s).
Proof.
  intros [C Ec Es Hp]. split; [by apply sent_calm|by kproj| |by apply sent_print].
  unfold sent. kproj. cbn. by rewrite Es, app_assoc.
Qed.

Lemma run_quiet H H' c out s0 s s' :
  calm H' s' → quietly p s s' → cons_run H c out s0 s → cons_run H' c out s0 s'.
Proof.
  intros C Q [C0 Ec Es [Hp Hb]]. split; [done|..].
  - by rewrite (quietly_get p k_cons _ _ Q).
  - by rewrite (quietly_get p k_uart _ _ Q).
  - split; [by rewrite (quietly_get p k_panicked _ _ Q)|by rewrite (quietly_get p k_uart _ _ Q)].
Qed.

(** The loop of kill-line erases the whole line. *)
Lemma kill_line_loop n h H R L c out s0 s :
  cons_run (h :: H) c out s0 s → cons_at R L c → (length L < n)%nat →
  ∃ c' s', loop n (λ _, e ← cons_get cons_e; w ← cons_get cons_w;
      x ← cons_get (cons_char (u32 (e - 1)));
      if negb (e =? w) && negb (x =? NL) then
        cons_set (set_cons_e (u32 (e - 1)));; consputc BACKSPACE;; mret (inl tt)
      else mret (inr tt)) tt s = Done tt s' ∧
    cons_run (h :: H) c' (out ++ mjoin (replicate (length L) erase)) s0 s' ∧ cons_at R [] c'.
Proof.
  set (body := λ _ : unit, _). revert L c out s. induction n as [|n IH]; intros L c out s Rn Hc Hn; [lia|].
  cbn [loop]. unfold mbind at 1, M_bind at 1.
  assert (Ebody : body tt s = (if negb (cons_e c =? cons_w c) && negb (cons_char (u32 (cons_e c - 1)) c =? NL)
    then cons_set (set_cons_e (u32 (cons_e c - 1)));; consputc BACKSPACE;; mret (inl tt)
    else mret (inr tt)) s).
  { unfold body. unfold mbind at 1, M_bind at 1. rewrite (run_get _ _ _ _ _ _ Rn). cbn [obind].
    unfold mbind at 1, M_bind at 1. rewrite (run_get _ _ _ _ _ _ Rn). cbn [obind].
    unfold mbind at 1, M_bind at 1. rewrite (run_get _ _ _ _ _ _ Rn). done. }
  rewrite Ebody. clear Ebody.
  destruct L as [|x L _] using rev_ind.
  - exists c, s. rewrite (cons_none R c Hc), Z.eqb_refl. cbn [negb andb]. split; [done|].
    cbn [length replicate]. by rewrite app_nil_r.
  - destruct (cons_last R L x c Hc) as (E1 & E2 & Hx). rewrite E1, E2, (proj2 (Z.eqb_neq _ _) Hx). cbn [negb andb].
    rewrite length_app in Hn |- *. simpl in Hn |- *.
    destruct (run_set _ _ _ _ _ (set_cons_e (u32 (cons_e c - 1))) Rn) as (s1 & Es1 & R1).
    destruct (consputc_erase h H s1 (cr_calm _ _ _ _ _ R1) (cr_print _ _ _ _ _ R1)) as [idle Es2].
    unfold mbind, M_bind. rewrite Es1. cbn [obind]. rewrite Es2. cbn [obind].
    destruct (IH L _ _ _ (run_sent _ _ _ _ _ erase idle R1) (cons_erase R L x c Hc)) as (c' & s' & E & R' & Hc');
      [lia|].
    exists c', s'. split; [exact E|]. split; [|done]. rewrite Nat.add_1_r. simpl.
    by rewrite <-app_assoc in R'.
Qed.

Lemma kill_line_at h H R L c s0 s :
  cons_run (h :: H) c [] s0 s → cons_at R L c →
  ∃ c' s', kill_line s = Done tt s' ∧
    cons_run (h :: H) c' (mjoin (replicate (length L) erase)) s0 s' ∧ cons_at R [] c'.
Proof.
  intros Rn Hc. unfold kill_line. unfold mbind at 1, M_bind at 1. rewrite (run_get _ _ _ _ _ _ Rn). cbn [obind].
  unfold mbind at 1, M_bind at 1. rewrite (run_get _ _ _ _ _ _ Rn). cbn [obind].
  apply (kill_line_loop _ h H R L c [] s0 s); [done|done|]. destruct Hc as [H1 H2 H3 H4 H5 H6 H7].
  rewrite H3, H4. unfold u32, INPUT_BUF_SIZE in *. lia.
Qed.

(** The process list goes to the recorded output. *)
Lemma procdump_loop l H c out s0 s :
  (∀ i, i ∈ l → is_Some (s.(k_procs) !! i)) → cons_run H c out s0 s →
  ∃ s', for_each l (λ i, st ← proc_get i p_state;
      if decide (st = UNUSED) then mret tt else
      pid ← proc_get i p_pid; name ← proc_get i p_name;
      printf "%d %s %s" [PInt pid; PStr (cstring (state_name st)); PStr name];; printf "\n" []) s = Done tt s' ∧
    cons_run H c out s0 s'.
Proof.
  revert s. induction l as [|i l IH]; intros s Hl Rn; [by exists s|]. cbn [for_each].
  destruct (Hl i (list_elem_of_here i l)) as [pr Hpr].
  unfold mbind at 1, M_bind at 1.
  match goal with |- context [obind (?f s) _] => assert (E : ∃ o, f s = Done tt (set_k_out o s)) end.
  { mred. rewrite Hpr. cbn [obind]. destruct (decide (p_state pr = UNUSED)).
    - exists (k_out s). unfold mret, M_ret. f_equal. by destruct s.
    - rewrite Hpr. cbn [obind]. rewrite Hpr. cbn [obind]. eexists. unfold modify. cbn [obind]. done_eq. }
  destruct E as [o E]. rewrite E. cbn [obind]. apply IH.
  - intros j Hj. kproj. by apply Hl, list_elem_of_further.
  - destruct Rn as [C Ec Es Hp]. split; [by eapply calm_upd|done..].
Qed.

Lemma procdump_at h H R L c s0 s :
  cons_run (h :: H) c [] s0 s → cons_at R L c →
  ∃ s', procdump s = Done tt s' ∧ cons_run (h :: H) c [] s0 s' ∧ cons_at R L c.
Proof.
  intros Rn Hc. unfold procdump, mbind at 1, M_bind at 1, printf at 1, modify. cbn [obind].
  edestruct (procdump_loop proc_table (h :: H) c [] s0) as (s' & E & R'); [| |by exists s'].
  - intros i Hi. kproj. apply lookup_lt_is_Some. rewrite (calm_len _ _ _ _ (cr_calm _ _ _ _ _ Rn)).
    apply elem_of_seq in Hi. lia.
  - destruct Rn as [C Ec Es Hp]. split; [by eapply calm_upd|done..].
Qed.

Lemma is_static_cons : is_static L_cons = true.
Proof. by apply bool_decide_eq_true_2; vm_compute; repeat constructor. Qed.

Lemma backspace_at h H R L c s0 s :
  cons_run (h :: H) c [] s0 s → cons_at R L c →
  ∃ c' s', (e ← cons_get cons_e; w ← cons_get cons_w;
      if negb (e =? w) then cons_set (set_cons_e (u32 (e - 1)));; consputc BACKSPACE else mret tt) s = Done tt s' ∧
    cons_run (h :: H) c' (if L is [] then [] else erase) s0 s' ∧ cons_at R (take (pred (length L)) L) c'.
Proof.
  intros Rn Hc. unfold mbind at 1, M_bind at 1. rewrite (run_get _ _ _ _ _ _ Rn). cbn [obind].
  unfold mbind at 1, M_bind at 1. rewrite (run_get _ _ _ _ _ _ Rn). cbn [obind].
  destruct L as [|x L _] using rev_ind.
  - exists c, s. by rewrite (cons_none R c Hc), Z.eqb_refl.
  - destruct (cons_last R L x c Hc) as (E1 & _ & _). rewrite E1. cbn [negb].
    destruct (run_set _ _ _ _ _ (set_cons_e (u32 (cons_e c - 1))) Rn) as (s1 & Es1 & R1).
    destruct (consputc_erase h H s1 (cr_calm _ _ _ _ _ R1) (cr_print _ _ _ _ _ R1)) as [idle Es2].
    unfold mbind, M_bind. rewrite Es1. cbn [obind]. rewrite Es2.
    eexists _, _. split; [reflexivity|].
    rewrite length_app. simpl. rewrite Nat.add_1_r. cbn [pred]. rewrite take_app_length.
    split; [|by apply (cons_erase R L x)].
    assert ((match L ++ [x] with [] => [] | _ => erase end) = [] ++ erase) as -> by by destruct L.
    by apply run_sent.
Qed.

Lemma input_at h H R L c x s0 s :
  cons_run (h :: H) c [] s0 s → cons_at R L c → 0 ≤ x < 256 → 
  let RL := if negb (x =? 0) && room_left R L then
      let x := if x =? CR then NL else x in
      if (x =? NL) || (x =? ctrl_D) || negb (room_left R (L ++ [x])) then (R ++ L ++ [x], [])
      else (R, L ++ [x])
    else (R, L) in
  ∃ c' s', cons_input x s = Done tt s' ∧
    cons_run (h :: H) c' (if negb (x =? 0) && room_left R L then [if x =? CR then NL else x] else []) s0 s' ∧
    cons_at RL.1 RL.2 c'.
Proof.
  intros Rn Hc Hx RL. unfold cons_input. unfold mbind at 1, M_bind at 1. rewrite (run_get _ _ _ _ _ _ Rn). cbn [obind].
  unfold mbind at 1, M_bind at 1. rewrite (run_get _ _ _ _ _ _ Rn). cbn [obind].
  rewrite (cons_room R L c Hc). unfold RL. destruct (negb (x =? 0) && room_left R L) eqn:Er; [|by exists c, s].
  apply andb_true_iff in Er as [_ Er]. apply Z.ltb_lt in Er.
  set (y := if x =? CR then NL else x). assert (Hy : 0 ≤ y < 256) by (unfold y, NL; destruct (x =? CR); lia).
  destruct (consputc_at h H s y (cr_calm _ _ _ _ _ Rn) (cr_print _ _ _ _ _ Rn) Hy) as [idle E1].
  unfold mbind at 1, M_bind at 1. rewrite E1. cbn [obind].
  destruct (run_set _ _ _ _ _ (λ z, set_cons_buf (<[Z.to_nat (cons_e c mod INPUT_BUF_SIZE) := u8 y]> (cons_buf z)) z)
    (run_sent _ _ _ _ _ [y] idle Rn)) as (s2 & E2 & R2).
  destruct (run_set _ _ _ _ _ (set_cons_e (u32 (cons_e c + 1))) R2) as (s3 & E3 & R3).
  unfold mbind at 1, M_bind at 1. rewrite E2. cbn [obind]. unfold mbind at 1, M_bind at 1. rewrite E3. cbn [obind].
  unfold mbind at 1, M_bind at 1. rewrite (run_get _ _ _ _ _ _ R3). cbn [obind].
  unfold u8 in R3, E2, E3. rewrite (Z.mod_small y) in R3 by done. fold (cons_put y c) in R3.
  cbn [set_cons_e set_cons_buf cons_r]. rewrite (cons_full R L c y Hc Er).
  destruct ((y =? NL) || (y =? ctrl_D) || negb (room_left R (L ++ [y]))) eqn:Ec.
  - destruct (run_set _ _ _ _ _ (set_cons_w (u32 (cons_e c + 1))) R3) as (s4 & E4 & R4).
    destruct (wakeup_calm p pid _ s4 Ch_cons_r (cr_calm _ _ _ _ _ R4)) as (s5 & E5 & C5 & Q5).
    eexists _, s5. unfold mbind, M_bind. rewrite E4. cbn [obind]. split; [done|].
    split; [by eapply run_quiet|]. by apply cons_put_commit.
  - exists (cons_put y c), s3. split; [done|]. split; [done|]. apply cons_put_line; [done|done|].
    intros Hy2. by rewrite Hy2 in Ec.
Qed.


Lemma calm_set_cons H c s : calm H s → calm H (set_k_cons c s).
Proof. intros C. by eapply calm_upd. Qed.

End ConsoleFacts.

(** An empty ring whose counters are about to wrap around. *)
Definition console_wrap : console :=
  mk_console (replicate 128 0) (2 ^ 32 - 1) (2 ^ 32 - 1) (2 ^ 32 - 1).

Lemma console_wrap_at : cons_at [] [] console_wrap.
Proof. split; try done. apply not_elem_of_nil. Qed.

