(* ===== verification/PrintFacts.v ===== *)
(** * Printed numbers ([printint] of [kernel/printf.c])

    The characters that [printint] sends for a number read back as the number,
    and fit in its buffer. *)

From S2P Require Import Prelude State Spinlock Cstring Riscv Kalloc Vm Proc ProcFacts Sleeplock.
From S2P Require Import Uart Console.

(** ** Reading a number back *)

Definition digit_val (c : Z) : option Z := (λ x, Z.of_nat x.1) <$> list_find (λ d, d = c) digits.
Arguments digit_val : simpl never.

(** Most significant digit first. *)
Definition parse_digits (base : Z) (cs : list Z) : option Z :=
  foldl (λ a c, x ← a; v ← digit_val c; Some (x * base + v)) (Some 0) cs.

Definition parse_int (base : Z) (cs : list Z) : option Z :=
  match cs with
  | c :: cs' => if c =? 45 then Z.opp <$> parse_digits base cs' else parse_digits base cs
  | [] => None
  end.

(** ** The digits *)

Lemma digit_at x : 0 ≤ x < 16 → ∃ c, digits !! Z.to_nat x = Some c ∧ digit_val c = Some x ∧ c ≠ 45.
Proof.
  intros Hx. assert (Hall : forallb (λ k : nat, match digits !! k with
    | Some c => bool_decide (digit_val c = Some (Z.of_nat k)) && negb (c =? 45)
    | None => false end) (seq 0 16) = true) by by vm_compute.
  rewrite forallb_forall in Hall. specialize (Hall (Z.to_nat x)).
  destruct (digits !! Z.to_nat x) as [c|]; [|exfalso; cut (false = true); [done|apply Hall, in_seq; lia]].
  exists c. split; [done|]. rewrite Z2Nat.id in Hall by lia.
  apply andb_true_iff in Hall as [H1 H2]; [|apply in_seq; lia].
  apply bool_decide_eq_true in H1. apply negb_true_iff, Z.eqb_neq in H2. done.
Qed.

Lemma parse_digits_snoc base cs c v x :
  parse_digits base cs = Some x → digit_val c = Some v → parse_digits base (cs ++ [c]) = Some (x * base + v).
Proof.
  intros Hx Hv. unfold parse_digits in *. rewrite foldl_app. cbn [foldl]. rewrite Hx. cbn. by rewrite Hv.
Qed.

(** [n] digits are enough below [base ^ n]; the loop gives them least
    significant first. *)
Lemma digit_loop_parse n fuel x base :
  2 ≤ base ≤ 16 → 0 ≤ x < base ^ Z.of_nat (S n) → (n < fuel)%nat →
  ∃ r, digit_loop fuel x base = Some r ∧ parse_digits base (reverse r) = Some x ∧ (length r ≤ S n)%nat ∧
    ∃ c r', reverse r = c :: r' ∧ c ≠ 45.
Proof.
  intros Hb. revert fuel x. induction n as [|n IH]; intros fuel x Hx Hf; (destruct fuel as [|fuel]; [lia|]);
    cbn [digit_loop].
  - rewrite Z.pow_1_r in Hx. rewrite Z.mod_small, Z.div_small by lia.
    destruct (digit_at x) as (c & -> & Hv & Hc); [lia|]. cbn. exists [c].
    split; [done|]. split; [unfold parse_digits; cbn; by rewrite Hv|]. split; [simpl; lia|]. by exists c, [].
  - destruct (digit_at (x mod base)) as (c & -> & Hv & Hc); [lia|]. cbn [mbind option_bind].
    destruct (Z.eqb_spec (x / base) 0) as [E|E].
    + exists [c]. split; [done|]. split; [|split; [simpl; lia|by exists c, []]].
      unfold parse_digits. cbn. rewrite Hv. cbn. f_equal. pose proof (Z.div_mod x base). lia.
    + destruct (IH fuel (x / base)) as (r & -> & Hp & Hl & c0 & r0 & Er & Hc0); [|lia|].
      { split; [apply Z.div_pos; lia|]. apply Z.div_lt_upper_bound; [lia|].
        rewrite Nat2Z.inj_succ, Z.pow_succ_r in Hx by lia. lia. }
      cbn. exists (c :: r). split; [done|]. rewrite reverse_cons. split; [|split; [simpl; lia|]].
      * rewrite (parse_digits_snoc base (reverse r) c (x mod base) (x / base)) by done. f_equal.
        pose proof (Z.div_mod x base). lia.
      * exists c0, (r0 ++ [c]). by rewrite Er.
Qed.

(** [printint] of any C int, in base 10 or 16 (or between), gives a string
    that reads back as the number, and with its sign it fits in the 16
    characters of [buf]; this includes the least int, whose negation does not
    fit in an int. *)
Theorem printint_roundtrip xx base :
  - 2 ^ 31 ≤ xx < 2 ^ 31 → 10 ≤ base ≤ 16 →
  ∃ cs, printint_chars xx base true = Some cs ∧ parse_int base cs = Some xx ∧ (length cs ≤ 11)%nat.
Proof.
  intros Hx Hb. unfold printint_chars. cbn [andb].
  set (x := u32 (if xx <? 0 then - xx else xx)).
  assert (Ex : x = Z.abs xx) by (unfold x, u32; destruct (Z.ltb_spec xx 0); lia).
  destruct (digit_loop_parse 9 16 x base) as (r & -> & Hp & Hl & c & r' & Er & Hc); [lia| |lia|].
  { split; [lia|]. apply Z.lt_le_trans with (10 ^ 10); [lia|]. apply Z.pow_le_mono_l. lia. }
  cbn [mbind option_bind]. rewrite Er in Hp.
  destruct (Z.ltb_spec xx 0) as [Hneg|Hpos].
  - rewrite length_app. simpl length. rewrite (proj2 (Nat.ltb_ge 16 _)) by lia.
    exists (45 :: c :: r'). rewrite reverse_app, Er. split; [done|]. unfold parse_int. rewrite Z.eqb_refl, Hp.
    split; [cbn; f_equal; lia|]. apply (f_equal length) in Er. rewrite length_reverse in Er. simpl in *. lia.
  - rewrite app_nil_r, (proj2 (Nat.ltb_ge 16 _)) by lia. exists (c :: r'). rewrite Er. split; [done|].
    unfold parse_int. rewrite (proj2 (Z.eqb_neq c 45)), Hp by done. split; [f_equal; lia|].
    apply (f_equal length) in Er. rewrite length_reverse in Er. lia.
Qed.

Lemma printint_roundtrip_witness :
  ∃ cs, printint_chars (- 2 ^ 31) 10 true = Some cs ∧ parse_int 10 cs = Some (- 2 ^ 31).
Proof.
  destruct (printint_roundtrip (- 2 ^ 31) 10) as (cs & H1 & H2 & _); [lia|lia|].
  exists cs. exact (conj H1 H2).
Defined.
