(* ===== verification/Pipe.v ===== *)
(** * Pipes ([kernel/pipe.c])

    A [struct pipe] is a page of memory: the spin lock, the ring of [PIPESIZE]
    bytes and the counters at the offsets the compiler gives them; its lock is
    [L_pipe pi].  [pipealloc], which also opens the files, is in [File.v]. *)

From S2P Require Import Prelude State Spinlock Cstring Riscv Kalloc Vm Proc ProcFacts Sleeplock.

Definition PIPESIZE : Z := 512.

Definition pi_data : Z := 24.
Definition pi_nread : Z := 536.
Definition pi_nwrite : Z := 540.
Definition pi_readopen : Z := 544.
Definition pi_writeopen : Z := 548.

Section Pipe.
Context {HK : KernelImage} {WB : WaitBound}.

(** [pi->field] for a 4-byte field, and [pi->data[k % PIPESIZE]] *)
Definition pi_get (pi off : Z) : M kstate Z := mem_read (λ m, load 4 m (pi + off)).
Definition pi_set (pi off v : Z) : M kstate unit := mem_write (store 4 (pi + off) v).
Definition pi_slot (pi k : Z) : Z := pi + pi_data + k mod PIPESIZE.

Definition pipeclose (pi : Z) (writable : bool) : M kstate unit :=
  acquire (L_pipe pi);;
  (if writable then pi_set pi pi_writeopen 0;; wakeup (Ch_pipe_nread pi)
   else pi_set pi pi_readopen 0;; wakeup (Ch_pipe_nwrite pi));;
  ro ← pi_get pi pi_readopen;
  wo ← pi_get pi pi_writeopen;
  if (ro =? 0) && (wo =? 0) then release (L_pipe pi);; kfree pi
  else release (L_pipe pi).

(** One iteration; the loop variable is [i]. *)
Definition pipewrite_body (pi addr n : Z) (pr : nat) (i : Z) : M kstate (Z + option Z) :=
  if negb (i <? n) then mret (inr (Some i)) else
  ro ← pi_get pi pi_readopen;
  stop ← (if ro =? 0 then mret true else k ← killed pr; mret (negb (k =? 0)));
  if stop : bool then release (L_pipe pi);; mret (inr None) else
  nw ← pi_get pi pi_nwrite;
  nr ← pi_get pi pi_nread;
  if nw =? u32 (nr + PIPESIZE) then
    wakeup (Ch_pipe_nread pi);;
    sleep (Ch_pipe_nwrite pi) (L_pipe pi);;
    mret (inl i)
  else
  pt ← proc_get pr p_pagetable;
  r ← copyin pt (u64 (addr + i)) 1;
  let '(st, ch) := r in
  if st =? -1 then mret (inr (Some i)) else
  nw ← pi_get pi pi_nwrite;
  pi_set pi pi_nwrite (u32 (nw + 1));;
  mem_write (<[pi_slot pi nw := default 0 (head ch)]>);;
  mret (inl (i + 1)).

Definition pipewrite (pi addr n : Z) : M kstate Z :=
  pr ← curproc;
  acquire (L_pipe pi);;
  r ← loop (S (wakeups + Z.to_nat n)) (pipewrite_body pi addr n pr) 0;
  match r with
  | None => mret (-1)
  | Some i =>
      wakeup (Ch_pipe_nread pi);;
      release (L_pipe pi);;
      mret i
  end.

(** Wait for data or for the last writer to close; [false]: killed. *)
Definition piperead_wait (pi : Z) (pr : nat) : M kstate bool :=
  loop (S wakeups) (λ _,
    nr ← pi_get pi pi_nread;
    nw ← pi_get pi pi_nwrite;
    wo ← pi_get pi pi_writeopen;
    if (nr =? nw) && negb (wo =? 0) then
      k ← killed pr;
      if negb (k =? 0) then release (L_pipe pi);; mret (inr false) else
      sleep (Ch_pipe_nread pi) (L_pipe pi);;
      mret (inl tt)
    else mret (inr true)) tt.

(** One byte of the copy; the loop variable is [i]. *)
Definition piperead_body (pi addr n : Z) (pr : nat) (i : Z) : M kstate (Z + Z) :=
  if negb (i <? n) then mret (inr i) else
  nr ← pi_get pi pi_nread;
  nw ← pi_get pi pi_nwrite;
  if nr =? nw then mret (inr i) else
  pi_set pi pi_nread (u32 (nr + 1));;
  ch ← mem_read (λ m, byte_at m (pi_slot pi nr));
  pt ← proc_get pr p_pagetable;
  r ← copyout pt (u64 (addr + i)) [ch] 1;
  if r =? -1 then mret (inr i) else mret (inl (i + 1)).

Definition piperead (pi addr n : Z) : M kstate Z :=
  pr ← curproc;
  acquire (L_pipe pi);;
  ok ← piperead_wait pi pr;
  if negb ok then mret (-1) else
  i ← loop (S (Z.to_nat n)) (piperead_body pi addr n pr) 0;
  wakeup (Ch_pipe_nwrite pi);;
  release (L_pipe pi);;
  mret i.

End Pipe.
