(* ===== verification/PipeFacts.v ===== *)
(** * Pipes as bounded queues ([kernel/pipe.c])

    [pipe_at pi q m]: the ring in the page [pi] holds the bytes [q], oldest
    first.  The counters are 32-bit numbers that wrap around, and the ring has a
    size that divides 2^32.  [piperead] takes bytes from the front of [q] into
    user memory and [pipewrite] appends bytes of user memory at its end. *)

From S2P Require Import Prelude State Spinlock Cstring Riscv Kalloc Vm VmFacts UserMem Proc.
From S2P Require Import ProcFacts Sleeplock Quiet Pipe.

Record pipe_at (pi : Z) (q : list Z) (m : mem) : Prop := {
  pp_range : 0 ≤ load 4 m (pi + pi_nread) < 2 ^ 32;
  pp_write : load 4 m (pi + pi_nwrite) = u32 (load 4 m (pi + pi_nread) + Z.of_nat (length q));
  pp_len : Z.of_nat (length q) ≤ PIPESIZE;
  pp_data k b : q !! k = Some b → byte_at m (pi_slot pi (load 4 m (pi + pi_nread) + Z.of_nat k)) = b
}.

(** The bytes of a [struct pipe]. *)
Definition pipe_end : Z := 552.

Lemma slot_u32 pi k : pi_slot pi (u32 k) = pi_slot pi k.
Proof. unfold pi_slot, u32, PIPESIZE. f_equal. change (2 ^ 32) with (512 * 8388608). lia. Qed.

Lemma slot_bounds pi k : pi + pi_data ≤ pi_slot pi k < pi + pi_data + PIPESIZE.
Proof. unfold pi_slot, PIPESIZE. lia. Qed.

Lemma slot_inj pi r j k :
  0 ≤ j < PIPESIZE → 0 ≤ k < PIPESIZE → pi_slot pi (r + j) = pi_slot pi (r + k) → j = k.
Proof. unfold pi_slot, PIPESIZE. intros. lia. Qed.

(** Only the pipe's own bytes matter. *)
Lemma pipe_frame pi q m m' :
  pipe_at pi q m → (∀ a, pi ≤ a < pi + pipe_end → byte_at m' a = byte_at m a) → pipe_at pi q m'.
Proof.
  intros [H1 H2 H3 H4] Hm. unfold pipe_end in Hm.
  assert (E : ∀ off, 0 ≤ off ≤ 548 → load 4 m' (pi + off) = load 4 m (pi + off)).
  { intros off Ho. apply load_ext. intros x Hx. apply Hm. lia. }
  split; rewrite ?(E pi_nread), ?(E pi_nwrite) by (unfold pi_nread, pi_nwrite; lia); try done.
  intros k b Hb. rewrite Hm; [by apply H4|].
  pose proof (slot_bounds pi (load 4 m (pi + pi_nread) + Z.of_nat k)). unfold pi_data, PIPESIZE in *. lia.
Qed.

(** [pi->nread++] takes the oldest byte. *)
Lemma pipe_pop pi c q m :
  pipe_at pi (c :: q) m → let r := load 4 m (pi + pi_nread) in
  byte_at m (pi_slot pi r) = c ∧ pipe_at pi q (store 4 (pi + pi_nread) (u32 (r + 1)) m).
Proof.
  intros [H1 H2 H3 H4] r. simpl in H2, H3. fold r in H1, H2, H4. split.
  { rewrite <-(Z.add_0_r r). by apply (H4 0%nat). }
  assert (E : load 4 (store 4 (pi + pi_nread) (u32 (r + 1)) m) (pi + pi_nread) = u32 (r + 1)).
  { rewrite load_store_same. unfold u32. change (8 * Z.of_nat 4) with 32. lia. }
  split; rewrite ?E; [unfold u32; lia|..|lia|].
  - rewrite load_store_disjoint by (unfold pi_nread, pi_nwrite; lia). rewrite H2. unfold u32. lia.
  - intros k b Hb. rewrite byte_at_store.
    + rewrite <-(H4 (S k) b Hb), <-(slot_u32 pi (u32 (r + 1) + Z.of_nat k)), <-(slot_u32 pi (r + Z.of_nat (S k))).
      do 2 f_equal. unfold u32. lia.
    + pose proof (slot_bounds pi (u32 (r + 1) + Z.of_nat k)). unfold pi_nread, pi_data, PIPESIZE in *. lia.
Qed.

(** [pi->data[pi->nwrite++ % PIPESIZE] = c] appends a byte, if there is room. *)
Lemma pipe_push pi c q m :
  pipe_at pi q m → Z.of_nat (length q) < PIPESIZE → let w := load 4 m (pi + pi_nwrite) in
  pipe_at pi (q ++ [c]) (<[pi_slot pi w := c]> (store 4 (pi + pi_nwrite) (u32 (w + 1)) m)).
Proof.
  intros [H1 H2 H3 H4] Hq w. set (r := load 4 m (pi + pi_nread)) in *.
  assert (Hs : pi_slot pi w = pi_slot pi (r + Z.of_nat (length q))) by (unfold w; rewrite H2; apply slot_u32).
  set (m' := <[_ := c]> _).
  assert (El : ∀ off, 536 ≤ off → load 4 m' (pi + off) = load 4 (store 4 (pi + pi_nwrite) (u32 (w + 1)) m) (pi + off)).
  { intros off Ho. apply load_ext. intros x Hx. unfold m'. rewrite byte_at_insert, decide_False; [done|].
    pose proof (slot_bounds pi w). unfold pi_data, PIPESIZE in *. lia. }
  assert (Er : load 4 m' (pi + pi_nread) = r).
  { rewrite El by (unfold pi_nread; lia). by rewrite load_store_disjoint by (unfold pi_nread, pi_nwrite; lia). }
  split; rewrite ?Er; [done|..].
  - rewrite El by (unfold pi_nwrite; lia). rewrite load_store_same, length_app. unfold w. rewrite H2.
    simpl length. unfold u32. change (8 * Z.of_nat 4) with 32. lia.
  - rewrite length_app. simpl. lia.
  - intros k b Hb. unfold m'. rewrite byte_at_insert, Hs.
    apply lookup_app_Some in Hb as [Hb|[Hle Hb]].
    + pose proof (lookup_lt_Some _ _ _ Hb). rewrite decide_False by (intros E; apply slot_inj in E; lia).
      rewrite byte_at_store; [by apply H4|].
      pose proof (slot_bounds pi (r + Z.of_nat k)). unfold pi_nwrite, pi_data, PIPESIZE in *. lia.
    + destruct (k - length q)%nat eqn:Ek; [|done]. injection Hb as <-.
      rewrite decide_True; [done|]. do 2 f_equal. lia.
Qed.

(** The tests of the loops. *)
Lemma pipe_full pi q m :
  pipe_at pi q m → load 4 m (pi + pi_nwrite) = u32 (load 4 m (pi + pi_nread) + PIPESIZE) ↔
  Z.of_nat (length q) = PIPESIZE.
Proof.
  intros [H1 H2 H3 H4]. rewrite H2. unfold u32, PIPESIZE in *. split; intros; [lia|by f_equal; lia].
Qed.

Lemma pipe_empty pi q m :
  pipe_at pi q m → load 4 m (pi + pi_nread) = load 4 m (pi + pi_nwrite) ↔ q = [].
Proof.
  intros [H1 H2 H3 H4]. rewrite H2. unfold u32, PIPESIZE in *. split; intros H.
  - apply nil_length_inv. lia.
  - subst q. simpl. lia.
Qed.

(** ** [piperead] *)

Lemma user_range_sub {HK : KernelImage} m m' G l va len c n :
  0 ≤ va → 0 ≤ c → 0 ≤ n → c + n ≤ len → (∀ va, 0 ≤ va → mapping m' G va = mapping m G va) →
  user_range m G l va len → user_range m' G l (va + c) n.
Proof.
  intros Hva Hc Hn Hle Hmap Hr. destruct (user_range_rest m m' G l va len c) as [H1 H2]; [done|lia|done|done|].
  split; [intros i Hi; apply H1; lia|]. intros i j a Hi Hj. apply H2; lia.
Qed.

Section PipeFacts.
Context {HK : KernelImage} {HKok : KernelImageOk} {WB : WaitBound}.
Context (p : nat) (pid root : Z) (G : tree) (l : list Z) (pi : Z).
Context (addr n : Z) (Haddr : 0 ≤ addr) (Hmax : addr + n + PGSIZE < 2 ^ 64).
Context (Hpi : private_page G l pi).
Implicit Types (s : kstate) (q : list Z).

(** The user buffer is mapped, and its bytes are not in the pipe. *)
Definition buffer (m : mem) : Prop :=
  user_range m G l addr n ∧
  ∀ i, 0 ≤ i < n → ∃ a, upa m G (addr + i) = Some a ∧ (a < pi ∨ pi + PGSIZE ≤ a).

Definition same_map (m m' : mem) : Prop := ∀ va, 0 ≤ va → mapping m' G va = mapping m G va.

Lemma buffer_map m m' : same_map m m' → buffer m → buffer m'.
Proof.
  intros Hm [H1 H2]. split.
  - destruct (decide (0 ≤ n)) as [Hn|Hn]; [|split; intros; lia].
    rewrite <-(Z.add_0_r addr). by apply (user_range_sub m m' G l addr n 0 n); try lia.
  - intros i Hi. rewrite (upa_same_map m m') by (done || lia). by apply H2.
Qed.

(** A write to the pipe keeps the page table. *)
Lemma pipe_write s m' :
  pt_ready s root G l → same_except_page pi s.(k_mem) m' →
  pt_ready (set_k_mem m' s) root G l ∧ same_map s.(k_mem) m'.
Proof.
  intros Hpt Hm. destruct Hpi as (H1 & H2 & H3). split; [by apply (pt_ready_set_mem s root G l pi)|].
  destruct Hpt as [_ Hpt]. exact (proj2 (pt_inv_frame _ _ _ _ _ _ Hpt H1 H3 Hm)).
Qed.

Lemma pipe_counter_page m off v : 0 ≤ off ≤ 548 → same_except_page pi m (store 4 (pi + off) v m).
Proof. intros Ho a Ha. apply byte_at_store. unfold PGSIZE in *. lia. Qed.

Lemma set_k_mem_twice m1 m2 s : set_k_mem m2 (set_k_mem m1 s) = set_k_mem m2 s.
Proof. keq. Qed.

Lemma pi_get_ok off s : pi_get pi off s = Done (load 4 s.(k_mem) (pi + off)) s.
Proof. done. Qed.

Lemma pagetable_ok s pr : s.(k_procs) !! p = Some pr → proc_get p p_pagetable s = Done pr.(p_pagetable) s.
Proof. intros Hp. mred. by rewrite Hp. Qed.

(** One byte: the front of the queue goes to the user's byte [i]. *)
Lemma piperead_step s pr c q i :
  s.(k_procs) !! p = Some pr → pr.(p_pagetable) = root → pt_ready s root G l → buffer s.(k_mem) →
  pipe_at pi (c :: q) s.(k_mem) → 0 ≤ i < n →
  ∃ m', piperead_body pi addr n p i s = Done (inl (i + 1)) (set_k_mem m' s) ∧
    pt_ready (set_k_mem m' s) root G l ∧ same_map s.(k_mem) m' ∧ pipe_at pi q m' ∧
    (∃ a, upa s.(k_mem) G (addr + i) = Some a ∧ byte_at m' a = c) ∧
    ∀ a, (a < pi ∨ pi + PGSIZE ≤ a) → upa s.(k_mem) G (addr + i) ≠ Some a →
      byte_at m' a = byte_at s.(k_mem) a.
Proof.
  intros Hp Hroot Hpt [Hr Hb] Hpipe Hi. destruct (pipe_pop pi c q _ Hpipe) as [Hc Hq].
  set (r := load 4 (k_mem s) (pi + pi_nread)) in *. set (m1 := store 4 _ _ _) in Hq.
  assert (Hsame : same_except_page pi (k_mem s) m1) by (apply pipe_counter_page; unfold pi_nread; lia).
  destruct (pipe_write s m1 Hpt Hsame) as [Hpt1 Hmap1]. destruct (Hb i Hi) as (a & Ha & Hsep).
  destruct (copyout_ok (set_k_mem m1 s) root G l (addr + i) [c] 1) as (res & m2 & E2 & Hpt2 & [Hmap2 Hframe Hres]);
    [done|lia|lia|lia|done|kproj; apply (user_range_sub (k_mem s) _ G l addr n); lia || done|].
  revert Hmap2 Hframe Hres E2 Hpt2. kproj. intros Hmap2 Hframe Hres E2 Hpt2.
  rewrite set_k_mem_twice in E2, Hpt2.
  assert (Hu : ∀ j, 0 ≤ j < 1 → upa m1 G (addr + i + j) = Some a).
  { intros j Hj. replace (addr + i + j) with (addr + i) by lia. by rewrite (upa_same_map (k_mem s)) by (done || lia). }
  destruct Hres as [[-> Hres]|(_ & j & Hj & Hn)]; [|by rewrite Hu in Hn].
  exists m2. split; [|split; [done|split; [|split; [|split]]]].
  - unfold piperead_body. rewrite (proj2 (Z.ltb_lt _ _)) by lia. cbn [negb].
    unfold mbind, M_bind. rewrite !pi_get_ok. cbn [obind]. rewrite pi_get_ok. cbn [obind]. fold r.
    rewrite (proj2 (Z.eqb_neq _ _)) by (intros E; by apply (pipe_empty pi _ _ Hpipe) in E).
    unfold pi_set, mem_write, mem_read, modify, gets. cbn [obind]. fold m1.
    unfold mbind, M_bind. cbn [obind]. kproj.
    rewrite (pagetable_ok _ pr) by done. cbn [obind]. rewrite Hroot.
    assert (byte_at m1 (pi_slot pi r) = c) as ->.
    { rewrite <-Hc. apply byte_at_store. pose proof (slot_bounds pi r). unfold pi_nread, pi_data, PIPESIZE in *. lia. }
    unfold u64, PGSIZE in *. rewrite Z.mod_small by lia. by rewrite E2.
  - intros va Hva. by rewrite Hmap2, Hmap1.
  - eapply pipe_frame; [exact Hq|]. intros x Hx. apply Hframe. intros j Hj. rewrite Hu by done.
    intros [= ->]. unfold pipe_end, PGSIZE in *. lia.
  - exists a. split; [done|]. destruct (Hres 0) as (a' & Ha' & Hb'); [lia|]. rewrite Hu in Ha' by lia.
    by injection Ha' as <-.
  - intros x Hx Hne. rewrite Hframe; [by apply Hsame|]. intros j Hj. rewrite Hu by done. congruence.
Qed.

(** [k] bytes went from the queue [q] to the user's bytes from [i] on. *)
Record received (i : Z) (k : nat) (q : list Z) (m m' : mem) : Prop := {
  rc_map : same_map m m';
  rc_pipe : pipe_at pi (drop k q) m';
  rc_bytes j b : (j < k)%nat → q !! j = Some b →
    ∃ a, upa m G (addr + i + Z.of_nat j) = Some a ∧ byte_at m' a = b;
  rc_frame a : (a < pi ∨ pi + PGSIZE ≤ a) → (∀ j, i ≤ j < n → upa m G (addr + j) ≠ Some a) →
    byte_at m' a = byte_at m a
}.

Lemma received_nil i q m : pipe_at pi q m → received i 0 q m m.
Proof. intros Hq. split; [done|done|lia|done]. Qed.

Lemma received_cons i k c q m m1 m2 a0 :
  buffer m → 0 ≤ i < n → same_map m m1 → upa m G (addr + i) = Some a0 → byte_at m1 a0 = c →
  (∀ a, (a < pi ∨ pi + PGSIZE ≤ a) → upa m G (addr + i) ≠ Some a → byte_at m1 a = byte_at m a) →
  received (i + 1) k q m1 m2 → received i (S k) (c :: q) m m2.
Proof.
  intros [[_ Hinj] Hb] Hi Hmap Ha0 Hc Hold [R1 R2 R3 R4].
  assert (Hu : ∀ j, 0 ≤ j → upa m1 G (addr + j) = upa m G (addr + j)).
  { intros j Hj. apply upa_same_map; [lia|done]. }
  split; [by intros va Hva; rewrite R1, Hmap|done|..].
  - intros [|j] b Hj Hq; simpl in Hq.
    + injection Hq as <-. exists a0. rewrite Z.add_0_r. split; [done|]. rewrite R4; [done|..].
      * destruct (Hb i Hi) as (a & Ha & Hs). rewrite Ha in Ha0. by injection Ha0 as <-.
      * intros j Hj'. rewrite Hu by lia. intros Hj2. assert (i = j) by (by apply (Hinj i j a0); lia || done). lia.
    + destruct (R3 j b) as (a & Ha & Hab); [lia|done|]. exists a. split; [|done].
      rewrite <-Z.add_assoc, Hu in Ha by lia. rewrite <-Ha. f_equal. lia.
  - intros a Ha Hne. rewrite R4; [apply Hold; [done|apply Hne; lia]|done|]. intros j Hj. rewrite Hu by lia. apply Hne. lia.
Qed.

(** The loop takes as many bytes as there are, up to [n]. *)
Lemma piperead_loop fuel s pr q i :
  s.(k_procs) !! p = Some pr → pr.(p_pagetable) = root → pt_ready s root G l → buffer s.(k_mem) →
  pipe_at pi q s.(k_mem) → 0 ≤ i ≤ n → (Z.to_nat (n - i) < fuel)%nat →
  let k := Nat.min (Z.to_nat (n - i)) (length q) in
  ∃ m', loop fuel (piperead_body pi addr n p) i s = Done (i + Z.of_nat k) (set_k_mem m' s) ∧
    pt_ready (set_k_mem m' s) root G l ∧ received i k q s.(k_mem) m'.
Proof.
  revert s q i. induction fuel as [|fuel IH]; intros s q i Hp Hroot Hpt Hb Hq Hi Hf k; [lia|].
  assert (Hid : set_k_mem s.(k_mem) s = s) by by destruct s.
  cbn [loop]. unfold mbind, M_bind. destruct (decide (i < n)) as [Hlt|Hge].
  2:{ exists s.(k_mem). rewrite Hid. assert (k = 0%nat) as -> by lia. rewrite Z.add_0_r.
      split; [|split; [done|by apply received_nil]].
      unfold piperead_body. by rewrite (proj2 (Z.ltb_ge _ _)) by lia. }
  destruct q as [|c q].
  { exists s.(k_mem). rewrite Hid. assert (k = 0%nat) as -> by (unfold k; simpl; lia). rewrite Z.add_0_r.
    split; [|split; [done|by apply received_nil]].
    unfold piperead_body. rewrite (proj2 (Z.ltb_lt _ _)) by lia. cbn [negb]. unfold mbind, M_bind.
    rewrite !pi_get_ok. cbn [obind]. rewrite pi_get_ok. cbn [obind].
    by rewrite (proj2 (Z.eqb_eq _ _)) by by apply (pipe_empty pi [] (k_mem s)). }
  destruct (piperead_step s pr c q i) as (m1 & E1 & Hpt1 & Hmap1 & Hq1 & (a0 & Ha0 & Hc) & Hold1); [done..|lia|].
  destruct (IH (set_k_mem m1 s) q (i + 1)) as (m2 & E2 & Hpt2 & R2);
    [done|done|done|by eapply buffer_map|done|lia|lia|].
  revert E2 Hpt2 R2. rewrite set_k_mem_twice. kproj. intros E2 Hpt2 R2.
  exists m2. rewrite E1. cbn [obind]. rewrite E2.
  assert (k = S (Nat.min (Z.to_nat (n - (i + 1))) (length q))) as -> by (unfold k; simpl; lia).
  split; [f_equal; lia|]. split; [done|]. eapply received_cons; [done|lia|done..].
Qed.

(** ** [pipewrite] *)

(** The bytes of the buffer from [i] on. *)
Definition pending (m : mem) (i : Z) (bs : list Z) : Prop :=
  Z.of_nat (length bs) = n - i ∧
  ∀ j b, bs !! j = Some b → ∃ a, upa m G (addr + i + Z.of_nat j) = Some a ∧ byte_at m a = b.

Lemma pending_head m i b bs :
  0 ≤ i → pending m i (b :: bs) → user_bytes m G (addr + i) 1 = Some [b].
Proof.
  intros Hi [_ Hb]. destruct (Hb 0%nat b) as (a & Ha & Hab); [done|].
  unfold user_bytes. cbn [seq mapM]. change (Z.of_nat 0) with 0 in *. rewrite Ha. simpl. by rewrite Hab.
Qed.

Lemma pending_tail m m' i b bs :
  buffer m → 0 ≤ i → same_except_page pi m m' → same_map m m' → pending m i (b :: bs) → pending m' (i + 1) bs.
Proof.
  intros [_ Hbuf] Hi Hs Hmap [Hl Hb]. simpl in Hl. split; [lia|]. intros j c Hj.
  destruct (Hb (S j) c Hj) as (a & Ha & Hac). exists a. pose proof (lookup_lt_Some _ _ _ Hj) as Hlt.
  replace (addr + (i + 1) + Z.of_nat j) with (addr + i + Z.of_nat (S j)) by lia.
  rewrite (upa_same_map m) by (done || lia). split; [done|]. rewrite Hs; [done|].
  destruct (Hbuf (i + Z.of_nat (S j))) as (a' & Ha' & Hsep); [lia|]. rewrite Z.add_assoc, Ha in Ha'.
  by injection Ha' as <-.
Qed.

Definition push_mem (c : Z) (m : mem) : mem :=
  let w := load 4 m (pi + pi_nwrite) in
  <[pi_slot pi w := c]> (store 4 (pi + pi_nwrite) (u32 (w + 1)) m).

Lemma push_mem_page c m : same_except_page pi m (push_mem c m).
Proof.
  intros a Ha. unfold push_mem. pose proof (slot_bounds pi (load 4 m (pi + pi_nwrite))).
  rewrite byte_at_insert, decide_False by (unfold pi_data, PIPESIZE, PGSIZE in *; lia).
  apply byte_at_store. unfold pi_nwrite, PGSIZE in *. lia.
Qed.

Lemma push_mem_open c m : load 4 (push_mem c m) (pi + pi_readopen) = load 4 m (pi + pi_readopen).
Proof.
  apply load_ext. intros x Hx. unfold push_mem, pi_readopen in *.
  pose proof (slot_bounds pi (load 4 m (pi + pi_nwrite))).
  rewrite byte_at_insert, decide_False by (unfold pi_data, PIPESIZE, PGSIZE in *; lia).
  apply byte_at_store. unfold pi_nwrite in *. lia.
Qed.

Lemma pipewrite_step s pr q i b bs :
  calm p pid [L_pipe pi] s → s.(k_procs) !! p = Some pr → pr.(p_pagetable) = root → pr.(p_killed) = 0 →
  pt_ready s root G l → pipe_at pi q s.(k_mem) → Z.of_nat (length q) < PIPESIZE →
  load 4 s.(k_mem) (pi + pi_readopen) ≠ 0 → 0 ≤ i → pending s.(k_mem) i (b :: bs) →
  pipewrite_body pi addr n p i s = Done (inl (i + 1)) (set_k_mem (push_mem b s.(k_mem)) s).
Proof.
  intros C Hp Hroot Hk Hpt Hq Hlen Ho Hi Hb. pose proof (proj1 Hb) as Hl. simpl in Hl.
  unfold pipewrite_body. rewrite (proj2 (Z.ltb_lt _ _)) by lia. cbn [negb]. unfold mbind, M_bind.
  rewrite pi_get_ok. cbn [obind]. rewrite (proj2 (Z.eqb_neq _ _) Ho).
  rewrite (killed_calm p pid _ _ pr C Hp), (settle_id p pid _ _ _ C), Hk. unfold mret, M_ret. cbn [obind Z.eqb negb].
  rewrite pi_get_ok. cbn [obind]. rewrite pi_get_ok. cbn [obind].
  rewrite (proj2 (Z.eqb_neq _ _)) by (intros E; apply (pipe_full pi q _ Hq) in E; lia).
  rewrite (pagetable_ok _ pr) by done. cbn [obind]. rewrite Hroot.
  unfold u64, PGSIZE in *. rewrite Z.mod_small by lia.
  destruct (copyin_ok s root G l (addr + i) 1) as (r & E & Hr); [apply Hpt|lia|unfold PGSIZE; lia|lia|].
  change (Z.to_nat 1) with 1%nat in Hr. rewrite (pending_head _ i b bs) in Hr by done. subst r.
  rewrite E. cbn [obind Z.eqb]. rewrite pi_get_ok. cbn [obind].
  unfold pi_set, mem_write, modify. cbn [obind head default]. unfold push_mem. done_eq.
Qed.

Lemma pipewrite_loop bs fuel s pr q i :
  calm p pid [L_pipe pi] s → s.(k_procs) !! p = Some pr → pr.(p_pagetable) = root → pr.(p_killed) = 0 →
  pt_ready s root G l → buffer s.(k_mem) → pipe_at pi q s.(k_mem) →
  Z.of_nat (length q + length bs) ≤ PIPESIZE → load 4 s.(k_mem) (pi + pi_readopen) ≠ 0 →
  0 ≤ i → pending s.(k_mem) i bs → (length bs < fuel)%nat →
  ∃ m', loop fuel (pipewrite_body pi addr n p) i s = Done (Some n) (set_k_mem m' s) ∧
    pt_ready (set_k_mem m' s) root G l ∧ pipe_at pi (q ++ bs) m' ∧ same_except_page pi s.(k_mem) m'.
Proof.
  revert fuel s q i. induction bs as [|b bs IH]; intros fuel s q i C Hp Hroot Hk Hpt Hb Hq Hlen Ho Hi Hbs Hf;
    (destruct fuel as [|fuel]; [lia|]); cbn [loop]; unfold mbind, M_bind; simpl in Hlen, Hf.
  - exists s.(k_mem). assert (Hid : set_k_mem s.(k_mem) s = s) by by destruct s. rewrite Hid, app_nil_r.
    destruct Hbs as [Hl _]. simpl in Hl. assert (i = n) as -> by lia.
    split; [|done]. unfold pipewrite_body. by rewrite (proj2 (Z.ltb_ge n n)) by lia.
  - rewrite (pipewrite_step s pr q i b bs) by (done || lia). cbn [obind].
    set (m1 := push_mem b (k_mem s)). pose proof (push_mem_page b (k_mem s)) as Hs1. fold m1 in Hs1.
    destruct (pipe_write s m1 Hpt Hs1) as [Hpt1 Hmap1].
    destruct (IH fuel (set_k_mem m1 s) (q ++ [b]) (i + 1)) as (m2 & E2 & Hpt2 & Hq2 & Hs2); kproj; try done.
    + by eapply calm_upd.
    + by eapply buffer_map.
    + apply pipe_push; [done|lia].
    + rewrite length_app. simpl. lia.
    + unfold m1. by rewrite push_mem_open.
    + lia.
    + by eapply (pending_tail (k_mem s)).
    + lia.
    + exists m2. revert E2 Hpt2 Hs2. rewrite set_k_mem_twice. kproj. intros E2 Hpt2 Hs2. rewrite E2.
      rewrite <-app_assoc in Hq2. split_and!; try done. intros a Ha. by rewrite Hs2, Hs1.
Qed.

(** ** The calls *)

Lemma pt_ready_quiet H s s' :
  calm p pid H s' → L_kmem ∉ H → quietly p s s' → pt_ready s root G l → pt_ready s' root G l.
Proof.
  intros C Hn Q [(_ & _ & [K1 K2 K3]) Hpt].
  pose proof (quietly_get p k_mem _ _ Q (λ _ _ _ _, eq_refl)) as Em.
  pose proof (quietly_get p k_freelist _ _ Q (λ _ _ _ _, eq_refl)) as Ef.
  split; [|by rewrite Em]. split; [by eapply calm_wf|]. split.
  - by apply (calm_free _ _ _ _ C L_kmem).
  - split; [by rewrite Em, Ef|done..].
Qed.

(** What a call on the pipe starts from. *)
Record pipe_ready (q : list Z) (pr : proc) s : Prop := {
  pr_calm : calm p pid [] s;
  pr_free : lock_free (L_pipe pi) s;
  pr_proc : s.(k_procs) !! p = Some pr;
  pr_root : pr.(p_pagetable) = root;
  pr_pt : pt_ready s root G l;
  pr_buffer : buffer s.(k_mem);
  pr_pipe : pipe_at pi q s.(k_mem)
}.

(** [myproc()] and [acquire(&pi->lock)] *)
Lemma pipe_enter q pr s :
  pipe_ready q pr s → ∃ s1 s2, curproc s = Done p s1 ∧ acquire (L_pipe pi) s1 = Done tt s2 ∧
    calm p pid [L_pipe pi] s2 ∧ quietly p s s2 ∧ pt_ready s2 root G l.
Proof.
  intros [C F Hp Hroot Hpt Hb Hq]. destruct (curproc_calm p pid [] s C) as (s1 & E1 & C1 & Q1).
  rewrite (curproc_ok p 0) in E1 by apply C. injection E1 as <-.
  destruct (acquire_free p pid [] (settle s) (L_pipe pi)) as (s2 & E2 & C2 & Q2);
    [done|destruct F as [nm F]; exists nm; by kproj|apply not_elem_of_nil|done|].
  exists (settle s), s2. rewrite (curproc_ok p 0) by apply C.
  assert (Q : quietly p s s2) by by etrans. split_and!; try done.
  eapply pt_ready_quiet; [done| |done|done]. apply not_elem_of_cons. split; [done|apply not_elem_of_nil].
Qed.

(** [wakeup(...)] and [release(&pi->lock)] *)
Lemma pipe_leave ch s :
  calm p pid [L_pipe pi] s → ∃ s1 s2, wakeup ch s = Done tt s1 ∧ release (L_pipe pi) s1 = Done tt s2 ∧
    calm p pid [] s2 ∧ quietly p s s2 ∧ lock_free (L_pipe pi) s2.
Proof.
  intros C. destruct (wakeup_calm p pid _ s ch C) as (s1 & E1 & C1 & Q1).
  destruct (release_free p pid [] s1 _ C1) as (s2 & E2 & C2 & Q2 & F2).
  exists s1, s2. split_and!; try done. by etrans.
Qed.

(** C11: [piperead] is a bounded-queue read.  With [q] in the pipe (not empty, or
    the write side closed) and the user's buffer mapped, it does not wait: it
    returns the number [k] of bytes moved, the smaller of [n] and the length of
    [q]; the first [k] bytes of [q], in order, are in the buffer, the pipe holds
    the rest, and the lock is free again.  The counters may wrap around. *)
Theorem piperead_spec q pr s :
  0 ≤ n → pipe_ready q pr s → (q ≠ [] ∨ load 4 s.(k_mem) (pi + pi_writeopen) = 0) →
  let k := Nat.min (Z.to_nat n) (length q) in
  ∃ s', piperead pi addr n s = Done (Z.of_nat k) s' ∧
    user_bytes s'.(k_mem) G addr k = Some (take k q) ∧ pipe_at pi (drop k q) s'.(k_mem) ∧
    calm p pid [] s' ∧ lock_free (L_pipe pi) s'.
Proof.
  intros Hn R Hdata k. destruct (pipe_enter q pr s R) as (s1 & s2 & E1 & E2 & C2 & Q2 & Hpt2).
  destruct R as [C F Hp Hroot Hpt Hb Hq].
  pose proof (quietly_get p k_mem _ _ Q2 (λ _ _ _ _, eq_refl)) as Em.
  unfold piperead, mbind, M_bind. rewrite E1. cbn [obind]. rewrite E2. cbn [obind].
  assert (Ew : piperead_wait pi p s2 = Done true s2).
  { unfold piperead_wait. cbn [loop]. unfold mbind, M_bind. rewrite !pi_get_ok. cbn [obind].
    rewrite pi_get_ok. cbn [obind]. rewrite pi_get_ok. cbn [obind]. rewrite Em.
    destruct (Z.eqb_spec (load 4 (k_mem s) (pi + pi_nread)) (load 4 (k_mem s) (pi + pi_nwrite))) as [E|E]; [|done].
    apply (pipe_empty pi q _ Hq) in E. destruct Hdata as [Hd|Hd]; [done|]. by rewrite Hd. }
  rewrite Ew. cbn [obind negb].
  destruct (piperead_loop (S (Z.to_nat n)) s2 pr q 0) as (m' & E3 & Hpt3 & R3);
    [by rewrite (proj2 Q2)|done|done|by rewrite Em|by rewrite Em|lia|lia|].
  rewrite E3. cbn [obind]. rewrite Z.sub_0_r in *. fold k in R3 |- *. rewrite Em in R3.
  destruct (pipe_leave (Ch_pipe_nwrite pi) (set_k_mem m' s2)) as (s4 & s5 & E4 & E5 & C5 & Q5 & F5);
    [by eapply calm_upd|].
  rewrite E4. cbn [obind]. rewrite E5. cbn [obind]. exists s5.
  rewrite (quietly_get p k_mem _ _ Q5 (λ _ _ _ _, eq_refl)). kproj. destruct R3 as [R1 R2 R3 R4].
  split_and!; try done. apply mapM_Some_2, Forall2_same_length_lookup_2.
  { rewrite length_seq, length_take. lia. }
  intros i j b Hj Hb'. apply lookup_seq in Hj as [-> Hi]. rewrite lookup_take_lt in Hb' by done.
  destruct (R3 i b Hi Hb') as (a & Ha & Hab). rewrite (upa_same_map (k_mem s)) by (done || lia).
  rewrite Z.add_0_r in Ha. cbn. rewrite Ha. simpl. by rewrite Hab.
Qed.


End PipeFacts.

(** ** A pipe that holds two bytes, its counters about to wrap around *)

Definition demo_pipe : Z := 0x80107000.

Definition pipe_mem : mem :=
  <[demo_pipe + 534 := 65]> (<[demo_pipe + 535 := 66]>
    (store 4 (demo_pipe + pi_nread) (2 ^ 32 - 2) (store 4 (demo_pipe + pi_nwrite) 0
      (store 4 (demo_pipe + pi_readopen) 1 (store 4 (demo_pipe + pi_writeopen) 1 demo_mem))))).

Definition pipe_setup (s : kstate) : kstate :=
  set_k_locks (<[L_pipe demo_pipe := unlocked "pipe"]> s.(k_locks))
    (upd_proc 3 (set_p_pagetable demo_root)
      (set_k_freelist kstate_two.(k_freelist) (set_k_mem pipe_mem s))).

Definition kstate_pipe : kstate := pipe_setup (kstate_run 0 []).

Lemma pipe_setup_calm s : calm 3 7 [] s → calm 3 7 [] (pipe_setup s).
Proof.
  intros [H1 H2 H3 H4 H5 H6 (pr & Hpr & Hpid)]. unfold pipe_setup. split; try done.
  - intros l Hl Hn. destruct (H2 l Hl Hn) as [nm E]. exists nm. kproj.
    rewrite lookup_insert_ne; [done|]. intros <-. by vm_compute in Hl.
  - intros l Hl. by apply elem_of_nil in Hl.
  - kproj. by rewrite length_alter.
  - exists (set_p_pagetable demo_root pr). kproj. by rewrite list_lookup_alter_eq, Hpr.
Qed.

Lemma demo_pipe_private : private_page (HK:=image0) demo_tree two_pages demo_pipe.
Proof.
  split; [by vm_compute|]. split; [apply (bool_decide_unpack _); by vm_compute|].
  intros n [[_ E]|[[_ E]|[_ E]]]%demo_tree_Some; discriminate.
Qed.

Lemma pipe_mem_page : same_except_page demo_pipe demo_mem pipe_mem.
Proof.
  intros a Ha. unfold pipe_mem. unfold PGSIZE in Ha.
  rewrite !byte_at_insert, !decide_False by lia.
  by rewrite !byte_at_store by (unfold pi_nread, pi_nwrite, pi_readopen, pi_writeopen; lia).
Qed.

Lemma kstate_pipe_pt : pt_ready (HK:=image0) kstate_pipe demo_root demo_tree two_pages.
Proof.
  destruct kstate_user_ok as (Hpt & _ & _ & _).
  destruct (pipe_write demo_root demo_tree two_pages demo_pipe demo_pipe_private kstate_user pipe_mem Hpt
    pipe_mem_page) as [[(_ & _ & [K1 K2 K3]) Hpt'] _].
  split; [|exact Hpt']. split; [eapply calm_wf, pipe_setup_calm, kstate_run_calm|]. split.
  - apply (calm_free _ _ _ _ (pipe_setup_calm _ kstate_run_calm) L_kmem); [by vm_compute|apply not_elem_of_nil].
  - split; [exact K1|exact K2|exact K3].
Qed.

Lemma kstate_pipe_at : pipe_at demo_pipe [65; 66] pipe_mem.
Proof.
  split; [by vm_compute|by vm_compute|by vm_compute|].
  intros [|[|k]] b Hb; [injection Hb as <-; by vm_compute..|done].
Qed.

Lemma demo_buffer : buffer (HK:=image0) demo_tree two_pages demo_pipe 100 3 pipe_mem.
Proof.
  destruct kstate_user_ok as (Hpt & HG & Hl & Hmap).
  destruct (pipe_write demo_root demo_tree two_pages demo_pipe demo_pipe_private kstate_user pipe_mem Hpt
    pipe_mem_page) as [_ Hsame].
  apply (buffer_map demo_tree two_pages demo_pipe 100 3 ltac:(lia) _ _ Hsame). split; [by apply demo_range|].
  intros i Hi. exists (demo_page + (100 + i)). rewrite upa_upage by lia.
  rewrite (demo_upage demo_tree) by (done || (unfold PGSIZE; lia)).
  change (demo_page =? 0) with false. cbv iota. rewrite PGROUNDDOWN_eq.
  unfold demo_page, demo_pipe, PGSIZE. split; [f_equal; lia|lia].
Qed.

Definition proc_pipe : proc :=
  set_p_pagetable demo_root (set_p_cpu_affinity (-1) (set_p_pid 7 (set_p_state RUNNING proc0))).

Lemma kstate_pipe_ready :
  pipe_ready (HK:=image0) 3 7 demo_root demo_tree two_pages demo_pipe 100 3 [65; 66] proc_pipe kstate_pipe.
Proof.
  split.
  - apply pipe_setup_calm, kstate_run_calm.
  - exists "pipe". unfold kstate_pipe, pipe_setup. kproj. apply lookup_insert_eq.
  - by vm_compute.
  - reflexivity.
  - exact kstate_pipe_pt.
  - exact demo_buffer.
  - exact kstate_pipe_at.
Qed.

Lemma piperead_spec_witness :
  ∃ s', piperead demo_pipe 100 3 kstate_pipe = Done 2 s' ∧
    user_bytes s'.(k_mem) demo_tree 100 2 = Some [65; 66] ∧ pipe_at demo_pipe [] s'.(k_mem).
Proof.
  destruct (piperead_spec (HK:=image0) 3 7 demo_root demo_tree two_pages demo_pipe 100 3 ltac:(lia)
    ltac:(unfold PGSIZE; lia) demo_pipe_private [65; 66] proc_pipe kstate_pipe ltac:(lia) kstate_pipe_ready)
    as (s' & E & Hb & Hq & _); [by left|].
  exists s'. exact (conj E (conj Hb Hq)).
Defined.

