(* ===== verification/File.v ===== *)
(** * Open files ([kernel/file.c]) and [pipealloc] ([kernel/pipe.c])

    A [struct file *] is an index of [k_files].  [devsw[major]] is either empty
    or the console: [consoleinit] is the only code that fills it. *)

From S2P Require Import Prelude State Spinlock Cstring Riscv Kalloc Vm Proc ProcFacts Sleeplock Bio.
From S2P Require Import Log Fs Uart Console Pipe.

Section File.
Context {HK : KernelImage} {WB : WaitBound} {BD : BlockDev}.

Definition fileinit : M kstate unit := initlock L_ftable "ftable".

Definition filealloc : M kstate (option nat) :=
  acquire L_ftable;;
  r ← for_find (seq 0 NFILE) (λ f,
    n ← file_get f f_ref;
    if n =? 0 then
      file_set f (set_f_ref 1);;
      release L_ftable;;
      mret (Some f)
    else mret None);
  match r with
  | Some f => mret (Some f)
  | None => release L_ftable;; mret None
  end.

Definition filedup (f : nat) : M kstate nat :=
  acquire L_ftable;;
  n ← file_get f f_ref;
  if n <? 1 then panic "filedup" else
  file_set f (λ x, set_f_ref (x.(f_ref) + 1) x);;
  release L_ftable;;
  mret f.

Definition fileclose (f : nat) : M kstate unit :=
  acquire L_ftable;;
  n ← file_get f f_ref;
  if n <? 1 then panic "fileclose" else
  file_set f (λ x, set_f_ref (x.(f_ref) - 1) x);;
  n ← file_get f f_ref;
  if 0 <? n then release L_ftable else
  ff ← file_get f id;
  file_set f (set_f_ref 0);;
  file_set f (set_f_type FD_NONE);;
  release L_ftable;;
  match ff.(f_type) with
  | FD_PIPE => pipeclose ff.(f_pipe) ff.(f_writable)
  | FD_INODE | FD_DEVICE =>
      begin_op;;
      ip ← opt_or_fault ff.(f_ip);
      iput ip;;
      end_op
  | FD_NONE => mret tt
  end.

(** The bytes of a [struct stat]; [pad] is what the stack held in the padding
    before the 8-byte field [size]. *)
Definition stat_bytes (pad : list Z) (st : stat) : list Z :=
  le_bytes 4 st.(st_dev) ++ le_bytes 4 st.(st_ino) ++ le_bytes 2 st.(st_type) ++
  le_bytes 2 st.(st_nlink) ++ pad ++ le_bytes 8 st.(st_size).
Definition stat_size : Z := 24.

Definition filestat (pad : list Z) (f : nat) (addr : Z) : M kstate Z :=
  p ← curproc;
  t ← file_get f f_type;
  if decide (t = FD_INODE ∨ t = FD_DEVICE) then
    ip ← file_get f f_ip;
    ilock ip;;
    ip ← opt_or_fault ip;
    st ← stati ip;
    iunlock (Some ip);;
    pt ← proc_get p p_pagetable;
    r ← copyout pt addr (stat_bytes pad st) stat_size;
    mret (if r <? 0 then -1 else 0)
  else mret (-1).

(** Is there a device function for this major number? *)
Definition has_device (major : Z) : M kstate bool :=
  sw ← gets k_devsw;
  mret (negb ((major <? 0) || (NDEV <=? major)) && default false (sw !! Z.to_nat major)).

Definition fileread (f : nat) (addr n : Z) : M kstate Z :=
  rd ← file_get f f_readable;
  if negb rd then mret (-1) else
  t ← file_get f f_type;
  match t with
  | FD_PIPE => pi ← file_get f f_pipe; piperead pi addr n
  | FD_DEVICE =>
      major ← file_get f f_major;
      ok ← has_device major;
      if negb ok then mret (-1) else consoleread addr n
  | FD_INODE =>
      ip ← file_get f f_ip;
      ilock ip;;
      ip ← opt_or_fault ip;
      off ← file_get f f_off;
      r ← readi ip (D_user addr) off (u32 n);
      (if 0 <? r.1 then file_set f (λ x, set_f_off (u32 (x.(f_off) + r.1)) x) else mret tt);;
      iunlock (Some ip);;
      mret r.1
  | FD_NONE => panic "fileread"
  end.

(** [max]: the bytes one transaction may write *)
Definition write_max : Z := (MAXOPBLOCKS - 1 - 1 - 2) / 2 * BSIZE.

(** One transaction of [filewrite]; the loop variable is [i]. *)
Definition filewrite_body (f : nat) (addr n i : Z) : M kstate (Z + Z) :=
  if negb (i <? n) then mret (inr i) else
  let n1 := Z.min (n - i) write_max in
  begin_op;;
  ip ← file_get f f_ip;
  ilock ip;;
  ip ← opt_or_fault ip;
  off ← file_get f f_off;
  r ← writei ip (S_user (u64 (addr + i))) off n1;
  (if 0 <? r then file_set f (λ x, set_f_off (u32 (x.(f_off) + r)) x) else mret tt);;
  iunlock (Some ip);;
  end_op;;
  if negb (r =? n1) then mret (inr i) else mret (inl (i + r)).

Definition filewrite (f : nat) (addr n : Z) : M kstate Z :=
  wr ← file_get f f_writable;
  if negb wr then mret (-1) else
  t ← file_get f f_type;
  match t with
  | FD_PIPE => pi ← file_get f f_pipe; pipewrite pi addr n
  | FD_DEVICE =>
      major ← file_get f f_major;
      ok ← has_device major;
      if negb ok then mret (-1) else consolewrite addr n
  | FD_INODE =>
      i ← loop (S (S (Z.to_nat (n / write_max)))) (filewrite_body f addr n) 0;
      mret (if i =? n then n else -1)
  | FD_NONE => panic "filewrite"
  end.

(** ** [pipealloc] *)

(** The label [bad], for the values the pointers have there. *)
Definition pipealloc_bad (pi : Z) (f0 f1 : option nat) : M kstate (option (nat * nat)) :=
  when (negb (pi =? 0)) (kfree pi);;
  (match f0 with Some f => fileclose f | None => mret tt end);;
  (match f1 with Some f => fileclose f | None => mret tt end);;
  mret None.

(** [None] is the result [-1]; otherwise the two files. *)
Definition pipealloc : M kstate (option (nat * nat)) :=
  f0 ← filealloc;
  match f0 with
  | None => pipealloc_bad 0 None None
  | Some f0 =>
      f1 ← filealloc;
      match f1 with
      | None => pipealloc_bad 0 (Some f0) None
      | Some f1 =>
          pi ← kalloc;
          if pi =? 0 then pipealloc_bad 0 (Some f0) (Some f1) else
          pi_set pi pi_readopen 1;;
          pi_set pi pi_writeopen 1;;
          pi_set pi pi_nwrite 0;;
          pi_set pi pi_nread 0;;
          initlock (L_pipe pi) "pipe";;
          file_set f0 (set_f_type FD_PIPE);;
          file_set f0 (set_f_readable true);;
          file_set f0 (set_f_writable false);;
          file_set f0 (set_f_pipe pi);;
          file_set f1 (set_f_type FD_PIPE);;
          file_set f1 (set_f_readable false);;
          file_set f1 (set_f_writable true);;
          file_set f1 (set_f_pipe pi);;
          mret (Some (f0, f1))
      end
  end.

End File.
