(* ===== verification/FileSpec.v ===== *)
(** * Writing to an open file ([filewrite] of [kernel/file.c])

    The whole way of the bytes: from the memory of the process, in pieces that each
    are a transaction, to the blocks of the file on the disk, also when the machine
    stops at any store and recovers. *)

From S2P Require Import Prelude State Spinlock Cstring Riscv Kalloc Vm VmFacts UserMem Proc ProcFacts Sleeplock.
From S2P Require Import Quiet Bio BioFacts BioSpec Log LogFacts LogSpec Fs FsFacts InodeFacts FileFacts DirFacts NameFacts GrowFacts WriteFacts.
From S2P Require Import Uart Console Pipe File.

(** ** What a piece leaves alone *)

(** Only the file [f], the inode [ip], its lock and the console output differ. *)
Record wframe (f ip : nat) (s0 s1 : kstate) : Prop := {
  wf_state : s1 = set_k_out s1.(k_out) (set_k_slocks s1.(k_slocks) (set_k_inodes s1.(k_inodes) (set_k_files s1.(k_files) s0)));
  wf_files g : g ≠ f → s1.(k_files) !! g = s0.(k_files) !! g;
  wf_inodes j : j ≠ ip → s1.(k_inodes) !! j = s0.(k_inodes) !! j;
  wf_slocks l : l ≠ SL_inode ip → s1.(k_slocks) !! l = s0.(k_slocks) !! l
}.

#[global] Instance wframe_preorder f ip : PreOrder (wframe f ip).
Proof.
  split.
  - intros s. split; [by destruct s|done..].
  - intros s1 s2 s3 [A1 A2 A3 A4] [B1 B2 B3 B4]. split.
    + rewrite B1, A1. keq.
    + intros g Hg. by rewrite B2, A2.
    + intros j Hj. by rewrite B3, A3.
    + intros l Hl. by rewrite B4, A4.
Qed.

Lemma wframe_put f ip v n s : wframe f ip s (put_sl (SL_inode ip) v n s).
Proof.
  split; [unfold put_sl; keq|done|done|]. intros l Hl. unfold put_sl. kproj. by rewrite lookup_alter_ne.
Qed.

Lemma wframe_inode f ip g s : wframe f ip s (upd_inode ip g s).
Proof. split; [unfold upd_inode; keq|done| |done]. intros j Hj. unfold upd_inode. kproj. by rewrite list_lookup_alter_ne. Qed.

Lemma wframe_file f ip g s : wframe f ip s (upd_file f g s).
Proof. split; [unfold upd_file; keq| |done|done]. intros j Hj. unfold upd_file. kproj. by rewrite list_lookup_alter_ne. Qed.

Lemma wframe_moved f ip s s1 x : moved ip s s1 x → wframe f ip s s1.
Proof.
  intros ->. etrans; [apply (wframe_inode f ip (λ _, x))|]. split; [keq|done..].
Qed.

Lemma wframe_sb f ip s0 s1 : wframe f ip s0 s1 → s1.(k_sb) = s0.(k_sb).
Proof. intros [-> _ _ _]. by kproj. Qed.

Lemma seq_lock_Done {S A B} (a : M S unit) (g : M S (option A)) (l : option A → M S unit) (k : A → M S B) s v s1 :
  (a;; i ← g; l i;; opt_or_fault i) s = Done v s1 → (a;; i ← g; l i;; j ← opt_or_fault i; k j) s = k v s1.
Proof.
  unfold mbind, M_bind. destruct (a s) as [[] s2| | | | |]; try discriminate. cbn [obind].
  destruct (g s2) as [[i|] s3| | | | |]; try discriminate; cbn [obind].
  - destruct (l (Some i) s3) as [[] s4| | | | |]; try discriminate. cbn. by intros [= -> ->].
  - destruct (l None s3) as [[] s4| | | | |]; discriminate.
Qed.

Section FileSpec.
Context {HK : KernelImage} {HKok : KernelImageOk} {WB : WaitBound} {BD : BlockDev} {BDok : BlockDevOk}.
Context (p : nat) (pid dev : Z) (start : Z) (Hstart : 0 ≤ start < 2 ^ 31).
Context (size : Z) (Hsize : 1 ≤ size ≤ LOGSIZE + 1).
Implicit Types (s : kstate) (d : gmap Z (list Z)) (w : list (Z * list Z)) (L : log) (bl bs q : list Z) (F : Z → list Z) (x : inode).

Local Abbreviation tx_open := (tx_open p pid dev start size).
Local Abbreviation fs_idle := (fs_idle p pid dev).
Local Abbreviation fs_at := (fs_at p pid dev).

Lemma supplies_frame src bs f ip s0 s1 : wframe f ip s0 s1 → supplies p src bs s0 → supplies p src bs s1.
Proof. by intros [-> _ _ _]. Qed.

Lemma at_upd_file V d w L s0 s f g : fs_at V d w L s0 s → fs_at V d w L (upd_file f g s0) (upd_file f g s).
Proof.
  intros [C B E1 E2 E3 Fr]. split; [by eapply calm_upd|by eapply bcache_ext|done|done|done|].
  exact (bframe_upd p (upd_file f g) _ _ Fr ltac:(done) ltac:(done) ltac:(done) ltac:(done) (proj2 Fr)).
Qed.

Lemma at_file V d w L s0 s f fl {A} (g : file → A) :
  fs_at V d w L s0 s → s0.(k_files) !! f = Some fl → file_get f g s = Done (g fl) s.
Proof.
  intros A0 Hf. pose proof (at_frame _ _ _ _ _ _ _ _ _ A0) as Fr. unfold fframe in Fr.
  unfold file_get, gets, mbind, M_bind. cbn [obind]. rewrite (bframe_get p k_files _ _ Fr) by done. kproj. by rewrite Hf.
Qed.

(** ** The state between two pieces *)

(** The disk has everything, no transaction is open, the file is open for writing
    at [off], and the entry [ip] of the table has or gets the inode [x]. *)
Record resting (f ip : nat) d w L s0 s x off : Prop := {
  rs_idle : fs_idle (disk_block d) (λ _, 0) d w L s0 s;
  rs_log : log_has dev start size L [];
  rs_out : L.(lg_outstanding) = 0;
  rs_header : hd_n (disk_block d start) = 0;
  rs_file : ∃ fl, s0.(k_files) !! f = Some fl ∧ fl.(f_ip) = Some ip ∧ fl.(f_off) = off;
  rs_entry : (ip < NINODE)%nat ∧ sl_free (SL_inode ip) s0;
  rs_inode : ∃ y, s0.(k_inodes) !! ip = Some y ∧ load (disk_block d) s0.(k_sb) y = x ∧ 1 ≤ y.(i_ref) ∧ y.(i_dev) = dev ∧
    (y.(i_valid) = false → x.(i_type) ≠ 0);
  rs_wf : file_wf start size s0.(k_sb) (disk_block d) x;
  rs_disk : on_disk s0.(k_sb) (disk_block d) x;
  rs_off : 0 ≤ off ≤ x.(i_size)
}.


(** The inode is locked and loaded, in an open transaction. *)
Lemma resting_lock f ip d w L s0 s x off :
  resting f ip d w L s0 s x off →
  ∃ s' s1, (begin_op;; i ← file_get f f_ip; ilock i;; opt_or_fault i) s = Done ip s' ∧
    tx_open (disk_block d) [] d w (set_lg_outstanding 1 L) s1 s' ∧ wframe f ip s0 s1 ∧
    s1.(k_files) = s0.(k_files) ∧ s1.(k_inodes) !! ip = Some x ∧ sl_mine pid (SL_inode ip) s1 ∧ 1 ≤ x.(i_ref) ∧ x.(i_dev) = dev ∧ x.(i_valid) = true.
Proof.
  intros [I HL Ho Hh (fl & Hfl & Hip & Hoff) [Hlt Hfree] (y & Hy & Hload & Href & Hdev & Hty) W D Hr].
  destruct (begin_op_open p pid dev start Hstart size d w L s0 s I HL Ho) as (s1 & E1 & T1). rewrite (bind_Done _ _ _ _ _ E1).
  pose proof T1 as [[lru A1] HL1 Ho1]. rewrite (bind_Done _ _ _ _ _ (at_file _ _ _ _ _ _ f fl f_ip A1 Hfl)), Hip.
  destruct (ilock_ok p pid dev (disk_block d) [] d w (set_lg_outstanding 1 L) s0 s1 ip y) as (s2 & E2 & I2); try done.
  { by exists lru. } { unfold NBUF. simpl. lia. } { intros Hv. rewrite Hload. by apply Hty. }
  rewrite (bind_Done _ _ _ _ _ E2). eexists s2, _. split; [done|]. split; [split; [exact I2|done|done]|]. split_and!.
  - etrans; [apply wframe_put|apply wframe_inode].
  - done.
  - rewrite <-Hload. exact (upd_inode_lookup ip _ y (put_sl (SL_inode ip) 1 pid s0) Hy).
  - destruct Hfree as (nm & m & Hs). exists nm. unfold upd_inode, put_sl. kproj. by rewrite lookup_alter_eq, Hs.
  - rewrite <-Hload. unfold load. by destruct (i_valid y).
  - rewrite <-Hload. unfold load. by destruct (i_valid y).
  - rewrite <-Hload. unfold load. by destruct (i_valid y) eqn:Ev.
Qed.

(** The offset advances by what was written. *)
Lemma advance F bl d w L s0 s f fl (r : Z) :
  tx_open F bl d w L s0 s → s0.(k_files) !! f = Some fl → 0 ≤ r → 0 ≤ fl.(f_off) + r < 2 ^ 32 →
  let g := λ y, set_f_off (u32 (y.(f_off) + r)) y in
  ∃ s' s1, (if 0 <? r then file_set f g else mret tt) s = Done tt s' ∧ tx_open F bl d w L s1 s' ∧
    s1 = set_k_files s1.(k_files) s0 ∧ (∀ j, j ≠ f → s1.(k_files) !! j = s0.(k_files) !! j) ∧
    s1.(k_files) !! f = Some (set_f_off (fl.(f_off) + r) fl).
Proof.
  intros [[lru A] HL Ho] Hf Hr Hb g. destruct (Z.ltb_spec 0 r) as [Hp|Hz].
  - exists (upd_file f g s), (upd_file f g s0). split; [done|]. split; [split; [|done|done]; exists lru; by apply at_upd_file|].
    split; [unfold upd_file; keq|]. unfold upd_file. kproj. split; [intros j Hj; by rewrite list_lookup_alter_ne|].
    rewrite list_lookup_alter_eq, Hf. cbn. unfold g, u32. by rewrite Z.mod_small.
  - exists s, s0. split; [done|]. split; [by split; [exists lru|..]|]. split; [by destruct s0|]. split; [done|].
    rewrite Hf. replace (f_off fl + r) with (f_off fl) by lia. by destruct fl.
Qed.

(** ** One piece *)

Section Piece.
Context (f ip : nat) (addr n : Z).

(** The piece at [i], up to its commit *)
Lemma piece_open d w L s0 s x off bs i :
  let n1 := Z.min (n - i) write_max in let sb := s0.(k_sb) in
  resting f ip d w L s0 s x off → supplies p (S_user (u64 (addr + i))) bs s0 → 0 ≤ i < n → Z.of_nat (length bs) = n1 →
  off + n1 ≤ MAXFILE * BSIZE → MAXOPBLOCKS + 1 < size →
  ∃ k s' F' bl' L' s0' x',
    (k ≤ length bs)%nat ∧ tx_open F' bl' d w L' s0' s' ∧ L'.(lg_outstanding) = 1 ∧ wframe f ip s0 s0' ∧
    (filewrite_body f addr n i s = (end_op;; if negb (Z.of_nat k =? n1) then mret (inr i) else mret (inl (i + Z.of_nat k))) s') ∧
    written start size sb (disk_block d) x off (take k bs) F' x' ∧ ((k < length bs)%nat → full sb F') ∧
    Z.of_nat (length bl') ≤ MAXOPBLOCKS ∧ bl' ≠ [] ∧ addresses bl' ∧ sl_free (SL_inode ip) s0' ∧
    s0'.(k_inodes) !! ip = Some x' ∧ 1 ≤ x'.(i_ref) ∧ x'.(i_dev) = dev ∧ x'.(i_valid) = true ∧
    ∃ fl, s0'.(k_files) !! f = Some fl ∧ fl.(f_ip) = Some ip ∧ fl.(f_off) = off + Z.of_nat k.
Proof.
  intros n1 sb R Hsrc Hi Hbs Hmax Hsz. destruct (resting_lock _ _ _ _ _ _ _ _ _ R) as (s1 & t1 & E1 & T1 & Fr1 & Ef1 & Hx1 & Hmine & Href & Hdev & Hval).
  destruct R as [_ HL Ho Hh (fl & Hfl & Hip & Hoff) [Hlt _] _ W D Hr]. pose proof (wframe_sb _ _ _ _ Fr1) as Esb.
  assert (Hwm : write_max = 3 * BSIZE) by done. assert (Hn1 : 0 < n1 ≤ 3 * BSIZE) by (unfold n1, BSIZE in *; lia).
  pose proof (write_cost_max off n1 ltac:(lia) ltac:(lia)) as Hc. unfold MAXOPBLOCKS in *.
  assert (Hi0 : (ind_cost [] x ≤ 2)%nat) by (unfold ind_cost; case_decide; lia).
  destruct (writei_grow p pid dev start Hstart size Hsize (disk_block d) [] d w (set_lg_outstanding 1 L) t1 s1 ip x off (S_user (u64 (addr + i))) bs)
    as (k & s2 & F2 & bl2 & L2 & t2 & x2 & E2 & Hk & T2 & O2 & M2 & Wr & Hfull & Hlen & Hin & Hrange); rewrite ?Esb, ?Hbs; try done.
  { by eapply supplies_frame. } { simpl. lia. } { unfold NBUF. simpl. lia. }
  rewrite Hbs in *. rewrite Esb in Wr, Hfull. simpl in Hlen.
  assert (Hf2 : t2.(k_files) !! f = Some fl) by (rewrite M2; unfold upd_inode; kproj; by rewrite Ef1).
  pose proof (fw_max _ _ _ _ _ W) as Hfm. pose proof (wn_same _ _ _ _ _ _ _ _ _ Wr) as Hsame.
  destruct (advance F2 bl2 d w L2 t2 s2 f fl (Z.of_nat k) T2 Hf2) as (s3 & t3 & E3 & T3 & Et3 & Hoth & Hf3);
    [lia|rewrite Hoff; unfold MAXFILE, BSIZE in *; lia|].
  assert (Hx3 : t3.(k_inodes) !! ip = Some x2) by (rewrite Et3; kproj; by eapply moved_inode).
  assert (Hm3 : sl_mine pid (SL_inode ip) t3) by (rewrite Et3, M2; exact Hmine).
  pose proof T3 as [[lru A3] HL3 Ho3].
  destruct (iunlock_ok p pid dev _ _ _ _ _ _ ip x2 A3 Hx3) as (s4 & E4 & A4); [by rewrite Hsame|done|done|].
  exists k, s4, F2, bl2, L2, (put_sl (SL_inode ip) 0 0 t3), x2. split; [done|]. split; [by split; [exists lru|..]|]. split; [by rewrite O2|].
  split; [|split; [|split_and!]].
  - etrans; [exact Fr1|]. etrans; [by eapply wframe_moved|]. etrans; [|apply wframe_put].
    split; [rewrite Et3; keq|done| |]; intros; rewrite Et3; by kproj.
  - unfold filewrite_body. rewrite (proj2 (Z.ltb_lt _ _)) by lia. cbn [negb]. fold n1.
    rewrite (seq_lock_Done _ _ _ _ _ _ _ E1). pose proof T1 as [[lru1 A1] _ _].
    rewrite (bind_Done _ _ _ _ _ (at_file _ _ _ _ _ _ f fl f_off A1 ltac:(by rewrite Ef1))), Hoff.
    rewrite (bind_Done _ _ _ _ _ E2), (bind_Done _ _ _ _ _ E3), (bind_Done _ _ _ _ _ E4). done.
  - done.
  - done.
  - lia.
  - intros ->. by apply not_elem_of_nil in Hin.
  - apply Hrange. intros b Hb. by apply not_elem_of_nil in Hb.
  - destruct Hm3 as [nm Hm3]. exists nm, 0. unfold put_sl. kproj. by rewrite lookup_alter_eq, Hm3.
  - exact Hx3.
  - by rewrite Hsame.
  - by rewrite Hsame.
  - by rewrite Hsame.
  - exists (set_f_off (fl.(f_off) + Z.of_nat k) fl). split; [exact Hf3|]. split; [done|]. cbn. by rewrite Hoff.
Qed.

(** Wherever the machine stops among the stores [ws], recovery gives a file with
    some of the bytes written, from the first on, and nothing else changed. *)
Definition survives sb d x off bs (k : nat) (ws : list (Z * list Z)) : Prop :=
  ∀ pre s1, pre `prefix_of` ws → booted p pid dev start (store_all d pre) s1 →
    ∃ s2 j x', recover_from_log s1 = Done tt s2 ∧ (j ≤ k)%nat ∧
      written start size sb (disk_block d) x off (take j bs) (disk_block s2.(k_disk)) x'.

(** The state after [k] bytes were written with the stores [ws] *)
Record wrote_file d w s0 x off bs (k : nat) ws L' s0' s' x' : Prop := {
  wt_count : (k ≤ length bs)%nat;
  wt_resting : resting f ip (store_all d ws) (w ++ ws) L' s0' s' x' (off + Z.of_nat k);
  wt_frame : wframe f ip s0 s0';
  wt_written : written start size s0.(k_sb) (disk_block d) x off (take k bs) (disk_block (store_all d ws)) x';
  wt_full : (k < length bs)%nat → full s0.(k_sb) (disk_block (store_all d ws));
  wt_crash : survives s0.(k_sb) d x off bs k ws
}.

Lemma piece_ok d w L s0 s x off bs i :
  let n1 := Z.min (n - i) write_max in
  resting f ip d w L s0 s x off → supplies p (S_user (u64 (addr + i))) bs s0 → 0 ≤ i < n → Z.of_nat (length bs) = n1 →
  off + n1 ≤ MAXFILE * BSIZE → MAXOPBLOCKS + 1 < size →
  ∃ k s' ws L' s0' x', filewrite_body f addr n i s = Done (if decide (k = length bs) then inl (i + n1) else inr i) s' ∧
    wrote_file d w s0 x off bs k ws L' s0' s' x'.
Proof.
  intros n1 R Hsrc Hi Hbs Hmax Hsz.
  destruct (piece_open d w L s0 s x off bs i R Hsrc Hi Hbs Hmax Hsz) as
    (k & s1 & F1 & bl1 & L1 & t1 & x1 & Hk & T1 & O1 & Fr & E1 & Wr & Hfull & Hlen & Hne & Hadd & Hfree & Hx1 & Href & Hdev & Hval & Hfl).
  destruct R as [I HL Ho Hh _ [Hlt _] _ W D Hr]. pose proof (wframe_sb _ _ _ _ Fr) as Esb. unfold MAXOPBLOCKS in *.
  destruct (end_op_atomic p pid dev start Hstart size Hsize F1 bl1 d w L1 t1 s1 T1 O1 Hne) as
    (s2 & L2 & ws & E2 & I2 & HL2 & Ho2 & Hh2 & Hd2 & Hc); [unfold NBUF; lia|done|done|].
  pose proof (written_home _ _ _ _ _ _ _ _ _ _ Wr Hd2) as Wr2. exists k, s2, ws, L2, t1, x1. split; [|split; try done].
  - rewrite E1, (bind_Done _ _ _ _ _ E2). fold n1. destruct (decide (k = length bs)) as [->|Hnk].
    + rewrite Hbs, Z.eqb_refl. done.
    + rewrite (proj2 (Z.eqb_neq _ _)) by lia. done.
  - assert (Ei : x1.(i_inum) = x.(i_inum)) by (by rewrite (wn_same _ _ _ _ _ _ _ _ _ Wr)).
    split; try done; rewrite ?Esb.
    + exists x1. split; [done|]. split; [unfold load; by rewrite Hval|]. split; [done|]. split; [done|]. by rewrite Hval.
    + apply Wr2.
    + intros y. rewrite Ei. apply (wn_disk _ _ _ _ _ _ _ _ _ Wr2).
    + rewrite (wn_size _ _ _ _ _ _ _ _ _ Wr2), length_take. lia.
  - intros Hlk y Hy. unfold free_block. rewrite Hd2; [by apply Hfull|].
    destruct (mt_home _ _ _ _ _ (fw_meta _ _ _ _ _ W)) as (_ & M2 & _). by apply M2.
  - intros pre s3 Hp Hb. destruct (Hc pre s3 Hp Hb) as (s4 & E4 & [H4|H4]).
    + exists s4, 0%nat, x. split; [done|]. split; [lia|]. rewrite take_0. eapply written_home; [by apply written_refl|done].
    + exists s4, k, x1. split; [done|]. split; [done|]. exact (written_home _ _ _ _ _ _ _ _ _ _ Wr H4).
Qed.

(** ** All pieces *)

Lemma supplies_take va bs s m : supplies p (S_user va) bs s → supplies p (S_user va) (take m bs) s.
Proof.
  intros (pr & G & l & Hp & Hpt & Hva & Hmax & Hb). exists pr, G, l. rewrite length_take. split_and!; try done; [lia|].
  destruct (user_bytes_split _ _ _ _ (m `min` length bs)%nat Hb) as [Hb' _]; [lia|]. rewrite Hb'. f_equal. by rewrite <-take_take, firstn_all.
Qed.

Lemma prefix_split {A} (l1 l2 l : list A) : l `prefix_of` l1 ++ l2 → l `prefix_of` l1 ∨ ∃ l', l = l1 ++ l' ∧ l' `prefix_of` l2.
Proof.
  revert l. induction l1 as [|a l1 IH]; intros l H; [right; by exists l|]. destruct l as [|b l]; [left; apply prefix_nil|].
  cbn [app] in H. pose proof (prefix_cons_inv_1 _ _ _ _ H) as ->. apply prefix_cons_inv_2 in H. destruct (IH l H) as [?|(l' & -> & ?)].
  - left. by apply prefix_cons.
  - right. by exists l'.
Qed.

(** A piece that was written whole, and then the others *)
Lemma wrote_then d w s0 x off bs (m k : nat) ws1 L1 s1 t1 x1 ws2 L2 s2 t2 x2 :
  m = length (take m bs) → 0 ≤ off ≤ x.(i_size) → wrote_file d w s0 x off (take m bs) m ws1 L1 s1 t1 x1 →
  wrote_file (store_all d ws1) (w ++ ws1) s1 x1 (off + Z.of_nat m) (drop m bs) k ws2 L2 s2 t2 x2 →
  wrote_file d w s0 x off bs (m + k) (ws1 ++ ws2) L2 s2 t2 x2.
Proof.
  intros Hm Ho [A1 A2 A3 A4 A5 A6] [B1 B2 B3 B4 B5 B6]. pose proof (wframe_sb _ _ _ _ A3) as Esb. rewrite Esb in *.
  rewrite length_take in Hm. rewrite length_drop in *. assert (Htk : ∀ j, take (m + j) bs = take m bs ++ take j (drop m bs)) by (intros; by rewrite take_take_drop).
  rewrite take_take, Nat.min_id in A4.
  assert (Ho1 : off + Z.of_nat (length (take m bs)) = off + Z.of_nat m) by (rewrite length_take; lia).
  split.
  - lia.
  - rewrite store_all_app, app_assoc, Nat2Z.inj_add, Z.add_assoc. exact B2.
  - by etrans.
  - rewrite store_all_app, Htk. eapply written_trans; [done|exact A4|]. by rewrite Ho1.
  - intros Hlt. rewrite store_all_app. apply B5. lia.
  - intros pre s3 [Hp|(pre' & -> & Hp)]%prefix_split Hb.
    + destruct (A6 pre s3 Hp Hb) as (s4 & j & x' & E & Hj & Wr). exists s4, j, x'. split; [done|]. split; [lia|].
      by rewrite take_take, Nat.min_l in Wr by lia.
    + rewrite store_all_app in Hb. destruct (B6 pre' s3 Hp Hb) as (s4 & j & x' & E & Hj & Wr). exists s4, (m + j)%nat, x'.
      split; [done|]. split; [lia|]. rewrite Htk. eapply written_trans; [done|exact A4|]. by rewrite Ho1.
Qed.

Lemma wrote_nothing d w L s0 s x off bs : resting f ip d w L s0 s x off → length bs = 0%nat → wrote_file d w s0 x off bs 0 [] L s0 s x.
Proof.
  intros R Hbs. pose proof R as [I HL Ho Hh Hf [Hlt Hfr] Hy W D Hr]. cbn [store_all foldl]. split; rewrite ?app_nil_r, ?Z.add_0_r; try done; try lia.
  - rewrite take_0. by apply written_refl.
  - intros pre s1 ->%prefix_nil_inv (w1 & L1 & I1 & H1 & H2 & H3). cbn [store_all foldl] in I1.
    destruct (crash_atomic p pid dev start Hstart size Hsize (disk_block d) d [] [] w1 L1 s1) as (s2 & E2 & Ho2); try done.
    { apply (idle_size p pid dev _ _ _ _ _ _ _ I). } { constructor. } { unfold fits. simpl. lia. }
    { intros b Hb. by apply not_elem_of_nil in Hb. } { apply prefix_nil. }
    exists s2, 0%nat, x. split; [done|]. split; [lia|]. rewrite take_0. eapply written_home; [by apply written_refl|].
    intros m Hm. destruct Ho2 as [Ho2|Ho2]; by rewrite Ho2.
Qed.

Lemma filewrite_loop : ∀ fuel d w L s0 s x off bs i,
  resting f ip d w L s0 s x off → supplies p (S_user (u64 (addr + i))) bs s0 → 0 ≤ i ≤ n → Z.of_nat (length bs) = n - i →
  off + (n - i) ≤ MAXFILE * BSIZE → MAXOPBLOCKS + 1 < size → (n - i + (write_max - 1)) / write_max < Z.of_nat fuel →
  ∃ k s' ws L' s0' x' r, loop fuel (filewrite_body f addr n) i s = Done r s' ∧ (r = n ↔ k = length bs) ∧
    wrote_file d w s0 x off bs k ws L' s0' s' x'.
Proof.
  assert (Hwm : write_max = 3072) by done.
  induction fuel as [|fuel IH]; intros d w L s0 s x off bs i R Hsrc Hi Hbs Hmax Hsz Hfu; [lia|]. cbn [loop].
  destruct (decide (i = n)) as [->|Hne].
  { unfold filewrite_body. rewrite Z.ltb_irrefl. cbn [negb]. exists 0%nat, s, [], L, s0, x, n. split; [done|]. split; [split; lia|].
    apply wrote_nothing; [done|lia]. }
  set (n1 := Z.min (n - i) write_max) in *. assert (Hn1 : 0 < n1 ≤ n - i) by lia.
  assert (Lt : length (take (Z.to_nat n1) bs) = Z.to_nat n1) by (rewrite length_take; lia).
  destruct (piece_ok d w L s0 s x off (take (Z.to_nat n1) bs) i R) as (k & s1 & ws & L1 & t1 & x1 & E1 & Wr); try done; try lia.
  { by apply supplies_take. }
  rewrite (bind_Done _ _ _ _ _ E1). rewrite Lt in *. fold n1. destruct (decide (k = Z.to_nat n1)) as [->|Hk].
  - destruct (IH (store_all d ws) (w ++ ws) L1 t1 s1 x1 (off + n1) (drop (Z.to_nat n1) bs) (i + n1)) as
      (k2 & s2 & ws2 & L2 & t2 & x2 & r & E2 & Hr & Wr2).
    + pose proof (wt_resting _ _ _ _ _ _ _ _ _ _ _ _ Wr) as R1. by rewrite Z2Nat.id in R1 by lia.
    + eapply supplies_frame; [apply Wr|]. pose proof (supplies_add p _ _ _ n1 Hsrc ltac:(lia)) as H. cbn [source_add] in H.
      replace (u64 (addr + (i + n1))) with (u64 (u64 (addr + i) + n1)); [done|]. unfold u64. rewrite Z.add_mod_idemp_l by done. f_equal. lia.
    + lia.
    + rewrite length_drop. lia.
    + lia.
    + done.
    + unfold n1 in *. lia.
    + exists (Z.to_nat n1 + k2)%nat, s2, (ws ++ ws2), L2, t2, x2, r. split; [done|]. split; [rewrite Hr, length_drop; lia|].
      eapply wrote_then; [by rewrite Lt|apply R|exact Wr|]. by rewrite Z2Nat.id by lia.
  - exists k, s1, ws, L1, t1, x1, i. split; [done|]. pose proof Wr as [A1 A2 A3 A4 A5 A6]. rewrite Lt in *. split; [lia|].
    assert (Htk : ∀ j, (j ≤ k)%nat → take j (take (Z.to_nat n1) bs) = take j bs) by (intros j Hj; rewrite take_take; f_equal; lia).
    split; try done; [lia|by rewrite <-Htk|intros _; apply A5; lia|].
    intros pre s3 Hp Hb. destruct (A6 pre s3 Hp Hb) as (s4 & j & x' & E & Hj & W4). exists s4, j, x'. by rewrite Htk in W4.
Qed.
End Piece.

(** C2: [filewrite] writes to the file, whole or as far as there is room, and
    survives crashes.  For a file open for writing at an offset within it, and bytes
    that the process has in its memory, the call copies them in pieces, each in a
    transaction of at most [MAXOPBLOCKS] blocks, allocating blocks as the file grows.
    It returns their number, or -1 when the disk is full after the first [k] of them.
    The file on the disk then has the [k] bytes at the offset, the offset has
    advanced by [k], the blocks taken from the bitmap are blocks of the file, and
    every block, inode and open file that is not concerned is as before.  Wherever
    the machine stops among the stores to the disk, [recover_from_log] leaves the
    file with the first [j] of the bytes written, for some [j] up to [k], and as
    well-formed as before. *)
Theorem filewrite_spec f ip fl addr d w L s0 s x off bs :
  let n := Z.of_nat (length bs) in
  resting f ip d w L s0 s x off → s0.(k_files) !! f = Some fl → fl.(f_writable) = true → fl.(f_type) = FD_INODE →
  supplies p (S_user addr) bs s0 → 0 ≤ addr < 2 ^ 64 → off + n ≤ MAXFILE * BSIZE → MAXOPBLOCKS + 1 < size →
  ∃ k s' ws L' s0' x', filewrite f addr n s = Done (if decide (k = length bs) then n else -1) s' ∧
    wrote_file f ip d w s0 x off bs k ws L' s0' s' x'.
Proof.
  intros n R Hf Hw Ht Hsrc Ha Hmax Hsz. unfold filewrite. pose proof (rs_idle _ _ _ _ _ _ _ _ _ R) as [lru A].
  rewrite (bind_Done _ _ _ _ _ (at_file _ _ _ _ _ _ f fl f_writable A Hf)), Hw. cbn [negb].
  rewrite (bind_Done _ _ _ _ _ (at_file _ _ _ _ _ _ f fl f_type A Hf)), Ht.
  destruct (filewrite_loop f ip addr n (S (S (Z.to_nat (n / write_max)))) d w L s0 s x off bs 0 R) as
    (k & s' & ws & L' & s0' & x' & r & E & Hr & Wr); rewrite ?Z.add_0_r, ?Z.sub_0_r; try done; try lia.
  { unfold u64. by rewrite Z.mod_small. }
  { assert (Hwm : write_max = 3072) by done. rewrite Hwm. unfold n. lia. }
  rewrite (bind_Done _ _ _ _ _ E). exists k, s', ws, L', s0', x'. split; [|done]. destruct (decide (k = length bs)) as [Hk|Hk].
  - by rewrite (proj2 (Z.eqb_eq _ _)) by by apply Hr.
  - rewrite (proj2 (Z.eqb_neq _ _)); [done|]. by intros ->%Hr.
Qed.
End FileSpec.

(** ** An open file of the small file system *)

(** The process 3 has a page of memory, at the page table of [VmFacts]. *)
Definition with_memory (s : kstate) : kstate :=
  set_k_procs (alter (set_p_pagetable demo_root) 3%nat s.(k_procs)) (set_k_mem demo_mem s).

Definition file48 : file := mk_file FD_INODE 1 true true 0 (Some 0%nat) 2048 0.
Definition fs_write (s : kstate) : kstate :=
  set_k_log log_mkfs (set_k_files (<[5%nat := file48]> s.(k_files)) (set_k_sb sb_small (with_inode inode48 (with_ilocks (with_memory s))))).

Lemma with_memory_calm s : calm 3 7 [] s → calm 3 7 [] (with_memory s).
Proof.
  intros [H1 H2 H3 H4 H5 H6 (pr & H7 & H8)]. split; try done.
  - unfold with_memory. kproj. by rewrite length_alter.
  - exists (set_p_pagetable demo_root pr). unfold with_memory. kproj. by rewrite list_lookup_alter_eq, H7.
Qed.

Lemma fs_write_idle s :
  calm 3 7 [] s → bcache 7 1 (view0 disk48) s → s.(k_disk) = disk48 → s.(k_dwrites) = [] →
  fs_idle 3 7 1 (disk_block disk48) (λ _, 0) disk48 [] log_mkfs (fs_write s) (fs_write s).
Proof.
  intros C [H1 H2 H3 H4 H5 H6 H7 H8 H9 H10 H11 H12 H13] Ed Ew. unfold fs_write. set (t := set_k_files _ _). rewrite <-Ew.
  apply (idle_set_log 3 7 1 disk48 log_mkfs t); [eapply calm_upd; [by apply with_memory_calm|done..]| |done]. split; try done.
  intros i Hi. specialize (H5 i Hi). revert H5. unfold sl_mine, sl_free. unfold t, with_inode. kproj.
  pose proof (with_ilocks_buf i (with_memory s)) as E. revert E. unfold with_ilocks. kproj. by intros ->.
Qed.

Lemma fs0_files d : k_files (fs0 d) = replicate NFILE file0.
Proof. destruct (fs0_run d) as [_ I]. rewrite (bi_frame _ _ _ I). kproj. reflexivity. Qed.

Lemma fs_write_resting s :
  calm 3 7 [] s → bcache 7 1 (view0 disk48) s → s.(k_disk) = disk48 → s.(k_dwrites) = [] →
  s.(k_inodes) = replicate NINODE inode0 → s.(k_files) = replicate NFILE file0 →
  resting 3 7 1 2 30 5 0 disk48 [] log_mkfs (fs_write s) (fs_write s) inode48 2048.
Proof.
  intros C B Ed Ew Ei Ef. split.
  - by apply fs_write_idle.
  - apply log_mkfs_has.
  - done.
  - vm_compute. reflexivity.
  - exists file48. unfold fs_write. kproj. by rewrite Ef.
  - split; [unfold NINODE; lia|]. exists "inode", 0. exact (with_ilocks_inode 0 (with_memory s) ltac:(unfold NINODE; lia)).
  - exists inode48. unfold fs_write, with_inode, with_ilocks, with_memory. kproj. by rewrite Ei.
  - apply file48_wf.
  - intros y. change (disk_block disk48 (IBLOCK (i_inum inode48) _)) with (splice (dinode_off 8) (dinode_bytes inode48) zeros).
    apply dinode_roundtrip; [apply inode48_ok|apply length_replicate].
  - cbn. lia.
Qed.

Lemma fs_write_supplies s : calm 3 7 [] s → supplies (HK := image0) 3 (S_user 100) [0; 0; 0] (fs_write s).
Proof.
  intros C. destruct (calm_me _ _ _ _ C) as (pr & Hp & _). exists (set_p_pagetable demo_root pr), demo_tree, two_pages. split_and!.
  - unfold fs_write, with_inode, with_ilocks, with_memory. kproj. by rewrite list_lookup_alter_eq, Hp.
  - exact demo_user_inv.
  - lia.
  - unfold PGSIZE. simpl. lia.
  - vm_compute. reflexivity.
Qed.

Lemma filewrite_spec_witness :
  ∃ k s', @filewrite _ ideal_disk 5 100 3 (fs_write (fs0 disk48)) = Done (if decide (k = 3%nat) then 3 else -1) s'.
Proof.
  destruct (@filewrite_spec image0 image0_ok _ ideal_disk _ 3 7 1 2 ltac:(lia) 30 ltac:(unfold LOGSIZE, MAXOPBLOCKS; lia) 5%nat 0%nat file48 100
    _ _ _ _ _ _ _ [0; 0; 0] (fs_write_resting _ (fs0_calm _) (fs0_bcache _ disk48_size) (fs0_disk _) (fs0_writes _) (fs0_inodes _) (fs0_files _))) as (k & s' & _ & _ & _ & _ & E & _).
  - unfold fs_write. kproj. rewrite fs0_files. reflexivity.
  - reflexivity.
  - reflexivity.
  - apply fs_write_supplies, fs0_calm.
  - lia.
  - cbn. unfold MAXFILE, BSIZE. lia.
  - unfold MAXOPBLOCKS. lia.
  - exists k, s'. exact E.
Defined.
