(* ===== verification/ProcLife.v ===== *)
(** * Creation and exit of processes and threads ([kernel/proc.c])

    The operations of [kernel/proc.c] that use open files and inodes: the first
    process, [fork], [exit], and the thread calls of this kernel. *)

From S2P Require Import Prelude State Spinlock Cstring Riscv Kalloc Vm Proc ProcFacts Sleeplock Bio.
From S2P Require Import Log Fs Uart Console Pipe File.

(** [initcode]: a program that calls [exec("/init")] *)
Definition initcode : list Z := [
  0x17; 0x05; 0x00; 0x00; 0x13; 0x05; 0x45; 0x02;
  0x97; 0x05; 0x00; 0x00; 0x93; 0x85; 0x35; 0x02;
  0x93; 0x08; 0x70; 0x00; 0x73; 0x00; 0x00; 0x00;
  0x93; 0x08; 0x20; 0x00; 0x73; 0x00; 0x00; 0x00;
  0xef; 0xf0; 0x9f; 0xff; 0x2f; 0x69; 0x6e; 0x69;
  0x74; 0x00; 0x00; 0x24; 0x00; 0x00; 0x00; 0x00;
  0x00; 0x00; 0x00; 0x00 ].

Section ProcLife.
Context {HK : KernelImage} {WB : WaitBound} {BD : BlockDev}.

(** [sizeof(p->name)] *)
Definition pname_size : Z := 16.

(** [safestrcpy(np->name, t, sizeof(p->name))] *)
Definition set_name (np : nat) (t : list Z) : M kstate unit :=
  old ← proc_get np p_name;
  nm ← opt_or_fault (safestrcpy old t pname_size);
  proc_set np (set_p_name nm).

Definition userinit : M kstate unit :=
  r ← allocproc;
  modify (set_k_initproc r);;
  p ← opt_or_fault r;
  pt ← proc_get p p_pagetable;
  uvmfirst pt initcode (Z.of_nat (length initcode));;
  proc_set p (set_p_sz PGSIZE);;
  tf_set p tf_epc 0;;
  tf_set p tf_sp PGSIZE;;
  set_name p (cstring "initcode");;
  cwd ← namei (cstring "/");
  proc_set p (set_p_cwd cwd);;
  proc_set p (set_p_state RUNNABLE);;
  release (L_proc p).

(** [*(np->trapframe) = *(p->trapframe)] *)
Definition copy_trapframe (np p : nat) : M kstate unit :=
  src ← proc_get p p_trapframe;
  dst ← proc_get np p_trapframe;
  check_ptr src;;
  check_ptr dst;;
  mem_write (memmove dst src trapframe_size).

(** Share the open files and the current directory. *)
Definition dup_files (np p : nat) : M kstate unit :=
  for_each (seq 0 NOFILE) (λ i,
    ofile ← proc_get p p_ofile;
    f ← opt_or_fault (ofile !! i);
    match f with
    | Some f =>
        f' ← filedup f;
        proc_set np (λ x, set_p_ofile (<[i := Some f']> x.(p_ofile)) x)
    | None => mret tt
    end);;
  cwd ← proc_get p p_cwd;
  cwd ← opt_or_fault cwd;
  ip ← idup cwd;
  proc_set np (set_p_cwd (Some ip)).

Definition fork : M kstate Z :=
  p ← curproc;
  r ← allocproc;
  match r with
  | None => mret (-1)
  | Some np =>
      pt ← proc_get p p_pagetable;
      npt ← proc_get np p_pagetable;
      sz ← proc_get p p_sz;
      r ← uvmcopy pt npt sz;
      if r <? 0 then freeproc np;; release (L_proc np);; mret (-1) else
      proc_set np (set_p_sz sz);;
      copy_trapframe np p;;
      tf_set np tf_a0 0;;
      dup_files np p;;
      name ← proc_get p p_name;
      set_name np name;;
      pid ← proc_get np p_pid;
      release (L_proc np);;
      acquire L_wait;;
      proc_set np (set_p_parent (Some p));;
      release L_wait;;
      acquire (L_proc np);;
      proc_set np (set_p_state RUNNABLE);;
      release (L_proc np);;
      mret pid
  end.

(** Close all open files. *)
Definition close_files (p : nat) : M kstate unit :=
  for_each (seq 0 NOFILE) (λ fd,
    ofile ← proc_get p p_ofile;
    f ← opt_or_fault (ofile !! fd);
    match f with
    | Some f =>
        fileclose f;;
        proc_set p (λ x, set_p_ofile (<[fd := None]> x.(p_ofile)) x)
    | None => mret tt
    end).

Definition exit {A} (status : Z) : M kstate A :=
  p ← curproc;
  ini ← gets k_initproc;
  if decide (ini = Some p) then panic "init exiting" else
  close_files p;;
  begin_op;;
  cwd ← proc_get p p_cwd;
  cwd ← opt_or_fault cwd;
  iput cwd;;
  end_op;;
  proc_set p (set_p_cwd None);;
  acquire L_wait;;
  reparent p;;
  par ← proc_get p p_parent;
  wakeup (Ch_proc par);;
  acquire (L_proc p);;
  proc_set p (set_p_xstate status);;
  proc_set p (set_p_state ZOMBIE);;
  release L_wait;;
  sched;;
  panic "zombie exit".

(** ** Threads *)

(** Where the kernel page table maps a virtual address, if the kernel may
    store there. *)
Definition kernel_translate (va : Z) : M kstate (option Z) :=
  if MAXVA <=? va then mret None else
  kpt ← gets k_kpgtbl;
  pte ← walk kpt va false;
  if pte =? 0 then mret None else
  e ← pte_read pte;
  mret (if has e PTE_V && has e PTE_W && negb (has e PTE_U)
        then Some (PTE2PA e + va mod PGSIZE) else None).

(** [*(uint64 * )va = v] in the kernel: a store through the kernel page table. *)
Definition kernel_store64 (va v : Z) : M kstate unit :=
  for_each (zip (seq 0 8) (le_bytes 8 v)) (λ ib,
    pa ← kernel_translate (u64 (va + Z.of_nat ib.1));
    pa ← opt_or_fault pa;
    mem_write (<[pa := ib.2]>)).

Definition thread_create (fcn arg stack : Z) : M kstate Z :=
  p ← curproc;
  r ← allocproc;
  match r with
  | None => mret (-1)
  | Some np =>
      sz ← proc_get p p_sz;
      proc_set np (set_p_sz sz);;
      acquire L_wait;;
      proc_set np (set_p_parent (Some p));;
      release L_wait;;
      copy_trapframe np p;;
      let sret := u64 (stack + 4096 - 2 * 8) in
      printf "stack addr %p\n" [PInt sret];;
      kernel_store64 sret 0xFFFFFFF;;
      printf "kern 2\n" [];;
      let sarg := u64 (stack + 4096 - 1 * 8) in
      kernel_store64 sarg arg;;
      tf_set np tf_sp stack;;
      sp ← tf_get np tf_sp;
      tf_set np tf_sp (u64 (sp + (4096 - 2 * 8)));;
      sp ← tf_get np tf_sp;
      tf_set np tf_s0 sp;;
      tf_set np tf_epc fcn;;
      proc_set np (set_p_is_thread 1);;
      tf_set np tf_a0 0;;
      dup_files np p;;
      printf "kern here4" [];;
      name ← proc_get p p_name;
      set_name np name;;
      pid ← proc_get np p_pid;
      release (L_proc np);;
      acquire (L_proc np);;
      proc_set np (set_p_state RUNNABLE);;
      release (L_proc np);;
      printf "kern here5" [];;
      mret pid
  end.

(** One entry of the scan of [thread_join], like that of [wait]. *)
Definition thread_join_visit (p pp : nat) (havekids : bool) : M kstate (bool + Z) :=
  par ← proc_get pp p_parent;
  if decide (par = Some p) then
    acquire (L_proc pp);;
    st ← proc_get pp p_state;
    if decide (st = ZOMBIE) then
      pid ← proc_get pp p_pid;
      freeproc pp;;
      release (L_proc pp);;
      release L_wait;;
      mret (inr pid)
    else
    release (L_proc pp);;
    mret (inl true)
  else mret (inl havekids).

Definition thread_join : M kstate Z :=
  p ← curproc;
  acquire L_wait;;
  loop (S wakeups) (λ _,
    r ← for_acc proc_table false (thread_join_visit p);
    match r with
    | inr v => mret (inr v)
    | inl havekids =>
        k ← (if negb havekids then mret true else (k ← killed p; mret (negb (k =? 0))));
        if k : bool then release L_wait;; mret (inr (-1)) else
        sleep (Ch_proc (Some p)) L_wait;;
        mret (inl tt)
    end) tt.

Definition thread_exit {A} (status : Z) : M kstate A :=
  p ← curproc;
  ini ← gets k_initproc;
  if decide (ini = Some p) then panic "init exiting" else
  close_files p;;
  begin_op;;
  cwd ← proc_get p p_cwd;
  cwd ← opt_or_fault cwd;
  iput cwd;;
  end_op;;
  proc_set p (set_p_cwd None);;
  acquire L_wait;;
  reparent p;;
  par ← proc_get p p_parent;
  wakeup (Ch_proc par);;
  acquire (L_proc p);;
  proc_set p (set_p_xstate status);;
  proc_set p (set_p_state ZOMBIE);;
  release L_wait;;
  sched;;
  panic "zombie exit".

End ProcLife.
