(* ===== verification/Exec.v ===== *)
(** * Program loading ([kernel/exec.c]) *)

From S2P Require Import Prelude State Spinlock Cstring Riscv Kalloc Vm Proc ProcFacts Sleeplock Bio.
From S2P Require Import Log Fs.

(** ** ELF ([kernel/elf.h]) *)

Definition ELF_MAGIC : Z := 0x464C457F.
Definition ELF_PROG_LOAD : Z := 1.
Definition elfhdr_size : Z := 64.
Definition proghdr_size : Z := 56.

Definition elf_magic (b : list Z) : Z := get_le 4 0 b.
Definition elf_entry (b : list Z) : Z := get_le 8 24 b.
Definition elf_phoff (b : list Z) : Z := get_le 8 32 b.
Definition elf_phnum (b : list Z) : Z := get_le 2 56 b.

Definition ph_type (b : list Z) : Z := get_le 4 0 b.
Definition ph_flags (b : list Z) : Z := get_le 4 4 b.
Definition ph_off (b : list Z) : Z := get_le 8 8 b.
Definition ph_vaddr (b : list Z) : Z := get_le 8 16 b.
Definition ph_filesz (b : list Z) : Z := get_le 8 32 b.
Definition ph_memsz (b : list Z) : Z := get_le 8 40 b.

Definition flags2perm (flags : Z) : Z :=
  let perm := if negb (Z.land flags 0x1 =? 0) then PTE_X else 0 in
  if negb (Z.land flags 0x2 =? 0) then Z.lor perm PTE_W else perm.

Section Exec.
Context {HK : KernelImage} {WB : WaitBound} {BD : BlockDev}.

(** The loop variable is [i]. *)
Definition loadseg_body (pagetable va : Z) (ip : nat) (offset sz i : Z) : M kstate (Z + Z) :=
  if negb (i <? sz) then mret (inr 0) else
  pa ← walkaddr pagetable (u64 (va + i));
  if pa =? 0 then panic "loadseg: address should exist" else
  let n := if sz - i <? PGSIZE then sz - i else PGSIZE in
  r ← readi ip (D_phys pa) (u32 (offset + i)) n;
  if negb (r.1 =? n) then mret (inr (-1)) else
  mret (inl (u32 (i + PGSIZE))).

Definition loadseg (pagetable va : Z) (ip : nat) (offset sz : Z) : M kstate Z :=
  loop (S (S (Z.to_nat (sz / PGSIZE)))) (loadseg_body pagetable va ip offset sz) 0.

(** The label [bad]; [ip] is non-null until the file has been read. *)
Definition exec_bad (pagetable sz : Z) (ip : option nat) : M kstate Z :=
  when (negb (pagetable =? 0)) (proc_freepagetable pagetable sz);;
  (match ip with Some ip => iunlockput ip;; end_op | None => mret tt end);;
  mret (-1).

(** One program header; the loop variable is [sz], and the loop leaves early,
    with the value of [sz], for the label [bad]. *)
Definition load_header (pagetable : Z) (ip : nat) (off sz : Z) : M kstate (Z + Z) :=
  r ← readi ip D_local off proghdr_size;
  let '(k, ph) := r in
  if negb (k =? proghdr_size) then mret (inr sz) else
  if negb (ph_type ph =? ELF_PROG_LOAD) then mret (inl sz) else
  if ph_memsz ph <? ph_filesz ph then mret (inr sz) else
  if u64 (ph_vaddr ph + ph_memsz ph) <? ph_vaddr ph then mret (inr sz) else
  if negb (ph_vaddr ph mod PGSIZE =? 0) then mret (inr sz) else
  sz1 ← uvmalloc pagetable sz (u64 (ph_vaddr ph + ph_memsz ph)) (flags2perm (ph_flags ph));
  if sz1 =? 0 then mret (inr sz) else
  r ← loadseg pagetable (ph_vaddr ph) ip (u32 (ph_off ph)) (u32 (ph_filesz ph));
  if r <? 0 then mret (inr sz1) else mret (inl sz1).

Definition load_program (pagetable : Z) (ip : nat) (elf : list Z) : M kstate (Z + Z) :=
  for_acc (seq 0 (Z.to_nat (elf_phnum elf))) 0 (λ i sz,
    load_header pagetable ip (u32 (elf_phoff elf + Z.of_nat i * proghdr_size)) sz).

(** Push one argument string; the loop variables are [sp] and [ustack], and the
    loop leaves early for the label [bad]. *)
Definition push_arg (pagetable stackbase : Z) (arg : list Z) (x : Z * list Z)
    : M kstate (Z * list Z + unit) :=
  let '(sp, ustack) := x in
  if (MAXARG <=? length ustack)%nat then mret (inr tt) else
  len ← opt_or_fault (strlen arg);
  let sp := u64 (sp - (len + 1)) in
  let sp := sp - sp mod 16 in
  if sp <? stackbase then mret (inr tt) else
  r ← copyout pagetable sp arg (len + 1);
  if r <? 0 then mret (inr tt) else
  mret (inl (sp, ustack ++ [sp])).

(** The last path element, for the process's name. *)
Fixpoint path_last (last s : list Z) : option (list Z) :=
  match s with
  | [] => None
  | c :: s =>
      if c =? 0 then Some last
      else path_last (if c =? SLASH then s else last) s
  end.

(** From the stack on: the file has been read and closed. *)
Definition exec_stack (p : nat) (path : list Z) (argv : list (list Z)) (elf : list Z)
    (pagetable sz : Z) : M kstate Z :=
  oldsz ← proc_get p p_sz;
  let sz := PGROUNDUP sz in
  sz1 ← uvmalloc pagetable sz (u64 (sz + 2 * PGSIZE)) PTE_W;
  if sz1 =? 0 then exec_bad pagetable sz None else
  let sz := sz1 in
  uvmclear pagetable (u64 (sz - 2 * PGSIZE));;
  let stackbase := u64 (sz - PGSIZE) in
  r ← for_acc argv (sz, []) (push_arg pagetable stackbase);
  match r with
  | inr _ => exec_bad pagetable sz None
  | inl (sp, ustack) =>
      let argc := Z.of_nat (length ustack) in
      (* ustack[argc] = 0; ustack has MAXARG elements *)
      if (MAXARG <=? length ustack)%nat then fault else
      let sp := u64 (sp - (argc + 1) * 8) in
      let sp := sp - sp mod 16 in
      if sp <? stackbase then exec_bad pagetable sz None else
      r ← copyout pagetable sp (mjoin (le_bytes 8 <$> ustack ++ [0])) ((argc + 1) * 8);
      if r <? 0 then exec_bad pagetable sz None else
      tf_set p tf_a1 sp;;
      last ← opt_or_fault (path_last path path);
      name ← proc_get p p_name;
      name ← opt_or_fault (safestrcpy name last 16);
      proc_set p (set_p_name name);;
      oldpagetable ← proc_get p p_pagetable;
      proc_set p (set_p_pagetable pagetable);;
      proc_set p (set_p_sz sz);;
      tf_set p tf_epc (elf_entry elf);;
      tf_set p tf_sp sp;;
      proc_freepagetable oldpagetable oldsz;;
      mret argc
  end.

(** [argv] is the list of the strings before the null pointer. *)
Definition exec (path : list Z) (argv : list (list Z)) : M kstate Z :=
  p ← curproc;
  begin_op;;
  ip ← namei path;
  match ip with
  | None => end_op;; mret (-1)
  | Some ip =>
      ilock (Some ip);;
      r ← readi ip D_local 0 elfhdr_size;
      let '(k, elf) := r in
      if negb (k =? elfhdr_size) then exec_bad 0 0 (Some ip) else
      if negb (elf_magic elf =? ELF_MAGIC) then exec_bad 0 0 (Some ip) else
      pagetable ← proc_pagetable p;
      if pagetable =? 0 then exec_bad 0 0 (Some ip) else
      r ← load_program pagetable ip elf;
      match r with
      | inr sz => exec_bad pagetable sz (Some ip)
      | inl sz =>
          iunlockput ip;;
          end_op;;
          p ← curproc;
          exec_stack p path argv elf pagetable sz
      end
  end.

End Exec.
