(* ===== verification/Sysfile.v ===== *)
(** * System calls: arguments ([kernel/syscall.c]) and files ([kernel/sysfile.c])

    An array that a call fills from user memory is the list of its bytes.  The
    results are [int]s; [syscall] stores them as [uint64]. *)

From S2P Require Import Prelude State Spinlock Cstring Riscv Kalloc Vm Proc ProcFacts Sleeplock Bio.
From S2P Require Import Log Fs Uart Console Pipe File ProcLife Exec.

Section Sysfile.
Context {HK : KernelImage} {WB : WaitBound} {BD : BlockDev}.

(** ** Arguments *)

(** [None] is the result [-1]. *)
Definition fetchaddr (addr : Z) : M kstate (option Z) :=
  p ← curproc;
  sz ← proc_get p p_sz;
  if (sz <=? addr) || (sz <? u64 (addr + 8)) then mret None else
  pt ← proc_get p p_pagetable;
  r ← copyin pt addr 8;
  let '(st, bs) := r in
  mret (if negb (st =? 0) then None else Some (of_le bs)).

(** The result and the bytes stored in [buf]. *)
Definition fetchstr (addr max : Z) : M kstate (Z * list Z) :=
  p ← curproc;
  pt ← proc_get p p_pagetable;
  r ← copyinstr pt addr max;
  let '(st, bs) := r in
  if st <? 0 then mret (-1, bs) else
  n ← opt_or_fault (strlen bs);
  mret (n, bs).

Definition argraw (n : Z) : M kstate Z :=
  p ← curproc;
  if (0 <=? n) && (n <=? 5) then tf_get p (tf_a0 + 8 * n) else panic "argraw".

Definition argint (n : Z) : M kstate Z := v ← argraw n; mret (s32 v).
Definition argaddr (n : Z) : M kstate Z := argraw n.
Definition argstr (n max : Z) : M kstate (Z * list Z) := addr ← argaddr n; fetchstr addr max.

(** The descriptor and the file; [None] is the result [-1]. *)
Definition argfd (n : Z) : M kstate (option (nat * nat)) :=
  fd ← argint n;
  if (fd <? 0) || (Z.of_nat NOFILE <=? fd) then mret None else
  p ← curproc;
  ofile ← proc_get p p_ofile;
  f ← opt_or_fault (ofile !! Z.to_nat fd);
  mret ((λ f, (Z.to_nat fd, f)) <$> f).

Definition set_ofile (p fd : nat) (f : option nat) : M kstate unit :=
  proc_set p (λ x, set_p_ofile (<[fd := f]> x.(p_ofile)) x).

Definition fdalloc (f : nat) : M kstate Z :=
  p ← curproc;
  r ← for_find (seq 0 NOFILE) (λ fd,
    ofile ← proc_get p p_ofile;
    x ← opt_or_fault (ofile !! fd);
    match x with
    | None => set_ofile p fd (Some f);; mret (Some fd)
    | Some _ => mret None
    end);
  mret (match r with Some fd => Z.of_nat fd | None => -1 end).

(** ** Descriptors *)

Definition sys_dup : M kstate Z :=
  r ← argfd 0;
  match r with
  | None => mret (-1)
  | Some (_, f) =>
      fd ← fdalloc f;
      if fd <? 0 then mret (-1) else
      filedup f;;
      mret fd
  end.

Definition sys_read : M kstate Z :=
  p ← argaddr 1;
  n ← argint 2;
  r ← argfd 0;
  match r with
  | None => mret (-1)
  | Some (_, f) => fileread f p n
  end.

Definition sys_write : M kstate Z :=
  p ← argaddr 1;
  n ← argint 2;
  r ← argfd 0;
  match r with
  | None => mret (-1)
  | Some (_, f) => filewrite f p n
  end.

Definition sys_close : M kstate Z :=
  r ← argfd 0;
  match r with
  | None => mret (-1)
  | Some (fd, f) =>
      p ← curproc;
      set_ofile p fd None;;
      fileclose f;;
      mret 0
  end.

Definition sys_fstat (pad : list Z) : M kstate Z :=
  st ← argaddr 1;
  r ← argfd 0;
  match r with
  | None => mret (-1)
  | Some (_, f) => filestat pad f st
  end.

(** ** Directories *)

(** [goto bad] of [sys_link]: undo the increment of [nlink]. *)
Definition link_bad (ip : nat) : M kstate Z :=
  ilock (Some ip);;
  inode_set ip (λ x, set_i_nlink (s16 (x.(i_nlink) - 1)) x);;
  iupdate ip;;
  iunlockput ip;;
  end_op;;
  mret (-1).

Definition sys_link : M kstate Z :=
  r ← argstr 0 MAXPATH;
  let '(st, old) := r in
  if st <? 0 then mret (-1) else
  r ← argstr 1 MAXPATH;
  let '(st, new) := r in
  if st <? 0 then mret (-1) else
  begin_op;;
  ip ← namei old;
  match ip with
  | None => end_op;; mret (-1)
  | Some ip =>
      ilock (Some ip);;
      t ← inode_get ip i_type;
      if t =? T_DIR then iunlockput ip;; end_op;; mret (-1) else
      inode_set ip (λ x, set_i_nlink (s16 (x.(i_nlink) + 1)) x);;
      iupdate ip;;
      iunlock (Some ip);;
      r ← nameiparent new (replicate DIRSIZ 0);
      let '(dp, name) := r in
      match dp with
      | None => link_bad ip
      | Some dp =>
          ilock (Some dp);;
          ddev ← inode_get dp i_dev;
          dev ← inode_get ip i_dev;
          inum ← inode_get ip i_inum;
          r ← (if negb (ddev =? dev) then mret (-1) else dirlink dp name inum);
          if r <? 0 then iunlockput dp;; link_bad ip else
          iunlockput dp;;
          iput ip;;
          end_op;;
          mret 0
      end
  end.

Definition isdirempty (dp : nat) : M kstate bool :=
  size ← inode_get dp i_size;
  loop (dir_fuel size) (λ off,
    size ← inode_get dp i_size;
    if negb (off <? size) then mret (inr true) else
    r ← readi dp D_local off dirent_size;
    let '(k, de) := r in
    if negb (k =? dirent_size) then panic "isdirempty: readi" else
    if negb (de_inum de =? 0) then mret (inr false) else
    mret (inl (off + dirent_size))) (2 * dirent_size).

(** The label [bad] of [sys_unlink]. *)
Definition unlink_bad (dp : nat) : M kstate Z :=
  iunlockput dp;;
  end_op;;
  mret (-1).

Definition sys_unlink : M kstate Z :=
  r ← argstr 0 MAXPATH;
  let '(st, path) := r in
  if st <? 0 then mret (-1) else
  begin_op;;
  r ← nameiparent path (replicate DIRSIZ 0);
  let '(dp, name) := r in
  match dp with
  | None => end_op;; mret (-1)
  | Some dp =>
      ilock (Some dp);;
      c1 ← opt_or_fault (namecmp name (cstring "."));
      c2 ← (if c1 =? 0 then mret 0 else opt_or_fault (namecmp name (cstring "..")));
      if (c1 =? 0) || (c2 =? 0) then unlink_bad dp else
      r ← dirlookup dp name;
      match r with
      | None => unlink_bad dp
      | Some (ip, off) =>
          ilock (Some ip);;
          n ← inode_get ip i_nlink;
          if n <? 1 then panic "unlink: nlink < 1" else
          t ← inode_get ip i_type;
          e ← (if t =? T_DIR then isdirempty ip else mret true);
          if negb e then iunlockput ip;; unlink_bad dp else
          r ← writei dp (S_local (replicate (Z.to_nat dirent_size) 0)) off dirent_size;
          if negb (r =? dirent_size) then panic "unlink: writei" else
          t ← inode_get ip i_type;
          (if t =? T_DIR then
             inode_set dp (λ x, set_i_nlink (s16 (x.(i_nlink) - 1)) x);;
             iupdate dp
           else mret tt);;
          iunlockput dp;;
          inode_set ip (λ x, set_i_nlink (s16 (x.(i_nlink) - 1)) x);;
          iupdate ip;;
          iunlockput ip;;
          end_op;;
          mret 0
      end
  end.

(** The label [fail] of [create]. *)
Definition create_fail (dp ip : nat) : M kstate (option nat) :=
  inode_set ip (set_i_nlink 0);;
  iupdate ip;;
  iunlockput ip;;
  iunlockput dp;;
  mret None.

(** The part of [create] that makes the new inode and its entries. *)
Definition create_new (dp : nat) (name : list Z) (type major minor : Z) (ip : nat)
    : M kstate (option nat) :=
  ilock (Some ip);;
  inode_set ip (set_i_major major);;
  inode_set ip (set_i_minor minor);;
  inode_set ip (set_i_nlink 1);;
  iupdate ip;;
  inum ← inode_get ip i_inum;
  dinum ← inode_get dp i_inum;
  ok ← (if type =? T_DIR then
          r ← dirlink ip (cstring ".") inum;
          if r <? 0 then mret false else
          r ← dirlink ip (cstring "..") dinum;
          mret (negb (r <? 0))
        else mret true);
  if negb ok then create_fail dp ip else
  r ← dirlink dp name inum;
  if r <? 0 then create_fail dp ip else
  (if type =? T_DIR then
     inode_set dp (λ x, set_i_nlink (s16 (x.(i_nlink) + 1)) x);;
     iupdate dp
   else mret tt);;
  iunlockput dp;;
  mret (Some ip).

Definition create (path : list Z) (type major minor : Z) : M kstate (option nat) :=
  r ← nameiparent path (replicate DIRSIZ 0);
  let '(dp, name) := r in
  match dp with
  | None => mret None
  | Some dp =>
      ilock (Some dp);;
      r ← dirlookup dp name;
      match r with
      | Some (ip, _) =>
          iunlockput dp;;
          ilock (Some ip);;
          t ← inode_get ip i_type;
          if (type =? T_FILE) && ((t =? T_FILE) || (t =? T_DEVICE)) then mret (Some ip) else
          iunlockput ip;;
          mret None
      | None =>
          dev ← inode_get dp i_dev;
          r ← ialloc dev type;
          match r with
          | None => iunlockput dp;; mret None
          | Some ip => create_new dp name type major minor ip
          end
      end
  end.

(** ** Open and the remaining calls *)

(** [kernel/fcntl.h] *)
Definition O_RDONLY : Z := 0x000.
Definition O_WRONLY : Z := 0x001.
Definition O_RDWR : Z := 0x002.
Definition O_CREATE : Z := 0x200.
Definition O_TRUNC : Z := 0x400.

(** [x & y] as a condition *)
Definition flag (x y : Z) : bool := negb (Z.land x y =? 0).

(** The end of [sys_open], for the locked inode [ip]. *)
Definition open_inode (ip : nat) (omode : Z) : M kstate Z :=
  t ← inode_get ip i_type;
  major ← inode_get ip i_major;
  if (t =? T_DEVICE) && ((major <? 0) || (NDEV <=? major)) then
    iunlockput ip;; end_op;; mret (-1)
  else
  f ← filealloc;
  fd ← (match f with Some f => fdalloc f | None => mret (-1) end);
  match f with
  | None => iunlockput ip;; end_op;; mret (-1)
  | Some f =>
      if fd <? 0 then fileclose f;; iunlockput ip;; end_op;; mret (-1) else
      (if t =? T_DEVICE then
         file_set f (set_f_type FD_DEVICE);;
         file_set f (set_f_major major)
       else
         file_set f (set_f_type FD_INODE);;
         file_set f (set_f_off 0));;
      file_set f (set_f_ip (Some ip));;
      file_set f (set_f_readable (negb (flag omode O_WRONLY)));;
      file_set f (set_f_writable (flag omode O_WRONLY || flag omode O_RDWR));;
      (if flag omode O_TRUNC && (t =? T_FILE) then itrunc ip else mret tt);;
      iunlock (Some ip);;
      end_op;;
      mret fd
  end.

Definition sys_open : M kstate Z :=
  omode ← argint 1;
  r ← argstr 0 MAXPATH;
  let '(n, path) := r in
  if n <? 0 then mret (-1) else
  begin_op;;
  if flag omode O_CREATE then
    ip ← create path T_FILE 0 0;
    match ip with
    | None => end_op;; mret (-1)
    | Some ip => open_inode ip omode
    end
  else
    ip ← namei path;
    match ip with
    | None => end_op;; mret (-1)
    | Some ip =>
        ilock (Some ip);;
        t ← inode_get ip i_type;
        if (t =? T_DIR) && negb (omode =? O_RDONLY) then
          iunlockput ip;; end_op;; mret (-1)
        else open_inode ip omode
    end.

Definition sys_mkdir : M kstate Z :=
  begin_op;;
  r ← argstr 0 MAXPATH;
  let '(st, path) := r in
  ip ← (if st <? 0 then mret None else create path T_DIR 0 0);
  match ip with
  | None => end_op;; mret (-1)
  | Some ip => iunlockput ip;; end_op;; mret 0
  end.

Definition sys_mknod : M kstate Z :=
  begin_op;;
  major ← argint 1;
  minor ← argint 2;
  r ← argstr 0 MAXPATH;
  let '(st, path) := r in
  ip ← (if st <? 0 then mret None else create path T_DEVICE (s16 major) (s16 minor));
  match ip with
  | None => end_op;; mret (-1)
  | Some ip => iunlockput ip;; end_op;; mret 0
  end.

Definition sys_chdir : M kstate Z :=
  p ← curproc;
  begin_op;;
  r ← argstr 0 MAXPATH;
  let '(st, path) := r in
  ip ← (if st <? 0 then mret None else namei path);
  match ip with
  | None => end_op;; mret (-1)
  | Some ip =>
      ilock (Some ip);;
      t ← inode_get ip i_type;
      if negb (t =? T_DIR) then iunlockput ip;; end_op;; mret (-1) else
      iunlock (Some ip);;
      cwd ← proc_get p p_cwd;
      cwd ← opt_or_fault cwd;
      iput cwd;;
      end_op;;
      proc_set p (set_p_cwd (Some ip));;
      mret 0
  end.

(** One argument of [sys_exec]: a page of its own holds the string.  The loop
    variable is the pages filled so far; the flag of the early exit tells the
    end of the array from an error. *)
Definition exec_arg (uargv : Z) (i : nat) (argv : list Z) : M kstate (list Z + list Z * bool) :=
  a ← fetchaddr (u64 (uargv + 8 * Z.of_nat i));
  match a with
  | None => mret (inr (argv, false))
  | Some uarg =>
      if uarg =? 0 then mret (inr (argv, true)) else
      pg ← kalloc;
      if pg =? 0 then mret (inr (argv, false)) else
      r ← fetchstr uarg PGSIZE;
      let '(st, bs) := r in
      mem_write (write_bytes pg bs);;
      if st <? 0 then mret (inr (argv ++ [pg], false)) else
      mret (inl (argv ++ [pg]))
  end.

Definition sys_exec : M kstate Z :=
  uargv ← argaddr 1;
  r ← argstr 0 MAXPATH;
  let '(st, path) := r in
  if st <? 0 then mret (-1) else
  r ← for_acc (seq 0 MAXARG) [] (exec_arg uargv);
  match r with
  | inr (argv, true) =>
      strs ← mem_read (λ m, (λ a, bytes_at m a pgsize) <$> argv);
      ret ← exec path strs;
      for_each argv kfree;;
      mret ret
  | inr (argv, false) | inl argv => for_each argv kfree;; mret (-1)
  end.

Definition sys_pipe : M kstate Z :=
  p ← curproc;
  fdarray ← argaddr 0;
  r ← pipealloc;
  match r with
  | None => mret (-1)
  | Some (rf, wf) =>
      fd0 ← fdalloc rf;
      fd1 ← (if fd0 <? 0 then mret (-1) else fdalloc wf);
      if (fd0 <? 0) || (fd1 <? 0) then
        when (0 <=? fd0) (set_ofile p (Z.to_nat fd0) None);;
        fileclose rf;;
        fileclose wf;;
        mret (-1)
      else
      pt ← proc_get p p_pagetable;
      r ← copyout pt fdarray (le_bytes 4 fd0) 4;
      r ← (if r <? 0 then mret r else copyout pt (u64 (fdarray + 4)) (le_bytes 4 fd1) 4);
      if r <? 0 then
        set_ofile p (Z.to_nat fd0) None;;
        set_ofile p (Z.to_nat fd1) None;;
        fileclose rf;;
        fileclose wf;;
        mret (-1)
      else mret 0
  end.

End Sysfile.
