(* ===== verification/Syscall.v ===== *)
(** * System calls: processes ([kernel/sysproc.c]) and dispatch ([kernel/syscall.c]) *)

From S2P Require Import Prelude State Spinlock Cstring Riscv Kalloc Vm Proc ProcFacts Rwlock Rcu.
From S2P Require Import Klist Sleeplock Bio Log Fs Uart Console Pipe File ProcLife Exec Sysfile.

Section Syscall.
Context {HK : KernelImage} {WB : WaitBound} {BD : BlockDev}.

Definition sys_exit : M kstate Z := n ← argint 0; exit n.

Definition sys_getpid : M kstate Z := p ← curproc; proc_get p p_pid.

Definition sys_fork : M kstate Z := fork.

Definition sys_wait : M kstate Z := p ← argaddr 0; wait (S wakeups) p.

Definition sys_sbrk : M kstate Z :=
  n ← argint 0;
  p ← curproc;
  addr ← proc_get p p_sz;
  r ← growproc n;
  mret (if r <? 0 then -1 else addr).

(** [ticks - ticks0 < n] is a comparison of [uint]s. *)
Definition sys_sleep : M kstate Z :=
  n ← argint 0;
  acquire L_tick;;
  ticks0 ← gets k_ticks;
  loop (S wakeups) (λ _,
    t ← gets k_ticks;
    if u32 (t - ticks0) <? u32 n then
      p ← curproc;
      k ← killed p;
      if negb (k =? 0) then release L_tick;; mret (inr (-1)) else
      sleep Ch_ticks L_tick;;
      mret (inl tt)
    else release L_tick;; mret (inr 0)) tt.

Definition sys_kill : M kstate Z := pid ← argint 0; kill pid.

Definition sys_uptime : M kstate Z :=
  acquire L_tick;;
  t ← gets k_ticks;
  release L_tick;;
  mret t.

Definition sys_thread_create : M kstate Z :=
  fcn ← argaddr 0;
  arg ← argaddr 1;
  user_stack ← argaddr 2;
  thread_create fcn arg user_stack.

Definition sys_thread_join : M kstate Z := thread_join.

Definition sys_thread_exit : M kstate Z := n ← argint 0; thread_exit n.

Definition sys_klist_insert : M kstate Z :=
  n ← argint 0;
  is_rcu ← argint 1;
  (if negb (is_rcu =? 0) then init_list else init_list_lock);;
  for_each (Z.of_nat <$> seq 1 (Z.to_nat n)) (λ i,
    if negb (is_rcu =? 0) then insert i else insert_lock i);;
  free ← get_total_free_pages;
  printf "Total free pages %d\n" [PInt free];;
  mret 1.

Definition sys_klist_delete : M kstate Z :=
  n ← argint 0;
  is_rcu ← argint 1;
  (if negb (is_rcu =? 0) then deleteNode n else deleteNode_lock n);;
  mret 1.

Definition sys_klist_query : M kstate Z :=
  n ← argint 0;
  is_rcu ← argint 1;
  res ← (if negb (is_rcu =? 0) then search n else search_lock n);
  (if negb (res =? 0) then printf "present\n" [] else mret tt);;
  mret 1.

Definition sys_klist_print : M kstate Z := printList;; mret 1.

(** ** Dispatch

    The table [syscalls], indexed by the numbers of [kernel/syscall.h].  [pad]
    is the padding that [sys_fstat] copies out. *)
Definition syscalls (pad : list Z) (num : Z) : option (M kstate Z) :=
  match num with
  | 1 => Some sys_fork
  | 2 => Some sys_exit
  | 3 => Some sys_wait
  | 4 => Some sys_pipe
  | 5 => Some sys_read
  | 6 => Some sys_kill
  | 7 => Some sys_exec
  | 8 => Some (sys_fstat pad)
  | 9 => Some sys_chdir
  | 10 => Some sys_dup
  | 11 => Some sys_getpid
  | 12 => Some sys_sbrk
  | 13 => Some sys_sleep
  | 14 => Some sys_uptime
  | 15 => Some sys_open
  | 16 => Some sys_write
  | 17 => Some sys_mknod
  | 18 => Some sys_unlink
  | 19 => Some sys_link
  | 20 => Some sys_mkdir
  | 21 => Some sys_close
  | 22 => Some sys_rcusync
  | 23 => Some sys_rcureadlock
  | 24 => Some sys_rcureadunlock
  | 25 => Some sys_thread_create
  | 26 => Some sys_thread_join
  | 27 => Some sys_thread_exit
  | 28 => Some sys_klist_insert
  | 29 => Some sys_klist_delete
  | 30 => Some sys_klist_query
  | 31 => Some sys_klist_print
  | _ => None
  end.

Definition syscall (pad : list Z) : M kstate unit :=
  p ← curproc;
  a7 ← tf_get p tf_a7;
  let num := s32 a7 in
  match syscalls pad num with
  | Some call =>
      r ← call;
      tf_set p tf_a0 (u64 r)
  | None =>
      pid ← proc_get p p_pid;
      name ← proc_get p p_name;
      printf "%d %s: unknown sys call %d\n" [PInt pid; PStr name; PInt num];;
      tf_set p tf_a0 (u64 (-1))
  end.

End Syscall.
