(* ===== verification/SyscallFacts.v ===== *)
(** * System call dispatch ([kernel/syscall.c])

    The number in [a7] selects the call, its result goes to [a0] of the trap
    frame, and a number outside the table gives -1. *)

From S2P Require Import Prelude State Spinlock Cstring Riscv Kalloc Vm VmFacts UserMem Proc.
From S2P Require Import ProcFacts Rwlock Rcu Klist Sleeplock Quiet Bio Log Fs Uart Console Pipe.
From S2P Require Import File ProcLife Exec Sysfile Syscall.

Section SyscallFacts.
Context {HK : KernelImage} {WB : WaitBound} {BD : BlockDev}.
Context (p : nat) (pid : Z).
Implicit Types s : kstate.

Local Abbreviation calm := (calm p pid).

(** The process's trap frame is at [tf]. *)
Definition trapframe_at (tf : Z) s : Prop :=
  tf ≠ 0 ∧ ∃ pr, s.(k_procs) !! p = Some pr ∧ pr.(p_trapframe) = tf.

Lemma tf_get_ok tf off s : trapframe_at tf s → tf_get p off s = Done (load64 s.(k_mem) (tf + off)) s.
Proof.
  intros [H0 (pr & Hp & <-)]. unfold tf_get, check_ptr. mred. rewrite Hp. cbn [obind].
  by rewrite (proj2 (Z.eqb_neq _ _) H0).
Qed.

Lemma tf_set_ok tf off v s :
  trapframe_at tf s → tf_set p off v s = Done tt (set_k_mem (store64 (tf + off) v s.(k_mem)) s).
Proof.
  intros [H0 (pr & Hp & <-)]. unfold tf_set, check_ptr. mred. rewrite Hp. cbn [obind].
  by rewrite (proj2 (Z.eqb_neq _ _) H0).
Qed.

(** The table has the calls 1 to 31. *)
Lemma syscalls_range pad num : is_Some (syscalls pad num) ↔ 1 ≤ num ≤ 31.
Proof.
  split.
  - intros [c Hc]. destruct num as [|n|n]; [done| |done]. split; [lia|].
    do 5 (destruct n as [n|n|]; try discriminate Hc; try lia).
  - intros Hn. assert (∃ k, (k < 31)%nat ∧ num = Z.of_nat k + 1) as (k & Hk & ->) by (exists (Z.to_nat (num - 1)); lia).
    do 31 (destruct k as [|k]; [by eexists|]). lia.
Qed.


End SyscallFacts.

(** A process that asks for the call 99. *)
Definition demo_tf : Z := 0x80108000.
Definition ask (s : kstate) : kstate :=
  set_k_mem (store64 (demo_tf + tf_a7) 99 ∅) (upd_proc 3 (set_p_trapframe demo_tf) s).

Lemma ask_calm s : calm 3 7 [] s → calm 3 7 [] (ask s).
Proof.
  intros [H1 H2 H3 H4 H5 H6 (pr & Hp & Hpid)]. unfold ask. split; try done; kproj.
  - by rewrite length_alter.
  - exists (set_p_trapframe demo_tf pr). by rewrite list_lookup_alter_eq, Hp.
Qed.

