(* ===== verification/Trap.v ===== *)
(** * Traps, interrupts and start-up ([kernel/trap.c], [plic.c], [start.c], [main.c])

    The control registers of the executing hart are an element of [k_csrs],
    except the SIE bit of [sstatus], which is [c_sie].  A kernel entry ends with
    the jump to [userret]; its result is the argument of that jump. *)

From S2P Require Import Prelude State Spinlock Cstring Riscv Kalloc Vm Proc ProcFacts Rwlock Rcu.
From S2P Require Import Klist Sleeplock Bio Virtio Log Fs Uart Console Pipe File ProcLife Exec.
From S2P Require Import Sysfile Syscall.

(** ** Bits of the registers ([kernel/riscv.h]) *)

Definition MSTATUS_MPP_MASK : Z := Z.shiftl 3 11.
Definition MSTATUS_MPP_S : Z := Z.shiftl 1 11.
Definition MSTATUS_MIE : Z := Z.shiftl 1 3.
Definition SSTATUS_SPP : Z := Z.shiftl 1 8.
Definition SSTATUS_SPIE : Z := Z.shiftl 1 5.
Definition SSTATUS_SIE : Z := Z.shiftl 1 1.
Definition SIE_SEIE : Z := Z.shiftl 1 9.
Definition SIE_STIE : Z := Z.shiftl 1 5.
Definition SIE_SSIE : Z := Z.shiftl 1 1.
Definition MIE_MTIE : Z := Z.shiftl 1 7.

Section Trap.
Context {HK : KernelImage} {WB : WaitBound} {BD : BlockDev} {VD : VirtioDevice}.

(** [r_x()] and [w_x(v)] for a register of the executing hart *)
Definition csr_get {A} (f : csrs → A) : M kstate A :=
  h ← cpuid; cs ← gets k_csrs; c ← opt_or_fault (cs !! h); mret (f c).
Definition csr_set (f : csrs → csrs) : M kstate unit :=
  h ← cpuid; modify (λ s, set_k_csrs (alter f h s.(k_csrs)) s).

Definition r_sstatus : M kstate Z :=
  v ← csr_get csr_sstatus;
  i ← intr_get;
  mret (if i : bool then Z.lor v SSTATUS_SIE else v).

Definition w_sstatus (x : Z) : M kstate unit :=
  csr_set (set_csr_sstatus (Z.land x (Z.lnot SSTATUS_SIE)));;
  if Z.testbit x 1 then intr_on else intr_off.

Definition kvminithart : M kstate unit :=
  kpt ← gets k_kpgtbl;
  csr_set (set_csr_satp (MAKE_SATP kpt)).

(** ** The interrupt controller ([kernel/plic.c]) *)

Definition soc_get {A} (f : soc → A) : M kstate A := gets (λ s, f s.(k_soc)).
Definition soc_set (f : soc → soc) : M kstate unit :=
  modify (λ s, set_k_soc (f s.(k_soc)) s).
Definition plic_write (a v : Z) : M kstate unit :=
  soc_set (λ x, set_plic_regs (<[a := v]> x.(plic_regs)) x).

Definition plicinit : M kstate unit :=
  plic_write (PLIC + UART0_IRQ * 4) 1;;
  plic_write (PLIC + VIRTIO0_IRQ * 4) 1.

Definition plicinithart : M kstate unit :=
  hart ← cpuid;
  plic_write (PLIC_SENABLE (Z.of_nat hart))
    (Z.lor (Z.shiftl 1 UART0_IRQ) (Z.shiftl 1 VIRTIO0_IRQ));;
  plic_write (PLIC_SPRIORITY (Z.of_nat hart)) 0.

(** A read of the claim register takes the pending interrupt of the highest
    priority, or gives 0. *)
Definition plic_claim : M kstate Z :=
  pend ← soc_get plic_pending;
  soc_set (set_plic_pending (tail pend));;
  mret (default 0 (head pend)).

Definition plic_complete (irq : Z) : M kstate unit :=
  hart ← cpuid;
  plic_write (PLIC_SCLAIM (Z.of_nat hart)) irq.

(** ** Interrupts *)

Definition trapinit : M kstate unit := initlock L_tick "time".
Definition trapinithart : M kstate unit := csr_set (set_csr_stvec kernelvec).

Definition clockintr : M kstate unit :=
  acquire L_tick;;
  t ← gets k_ticks;
  modify (set_k_ticks (u32 (t + 1)));;
  wakeup Ch_ticks;;
  release L_tick.

Definition devintr : M kstate Z :=
  scause ← csr_get csr_scause;
  if Z.testbit scause 63 && (Z.land scause 0xff =? 9) then
    irq ← plic_claim;
    (if irq =? UART0_IRQ then uartintr consoleintr
     else if irq =? VIRTIO0_IRQ then virtio_disk_intr
     else when (negb (irq =? 0)) (printf "unexpected interrupt irq=%d\n" [PInt irq]));;
    when (negb (irq =? 0)) (plic_complete irq);;
    mret 1
  else if scause =? 0x8000000000000001 then
    id ← cpuid;
    when (bool_decide (id = 0%nat)) clockintr;;
    csr_set (λ c, set_csr_sip (Z.land c.(csr_sip) (Z.lnot 2)) c);;
    mret 2
  else mret 0.

(** The argument is what [uservec] will find in the trapframe; the result is
    the argument of the jump to [userret]. *)
Definition usertrapret : M kstate Z :=
  p ← curproc;
  intr_off;;
  csr_set (set_csr_stvec (TRAMPOLINE + (uservec - trampoline)));;
  satp ← csr_get csr_satp;
  tf_set p tf_kernel_satp satp;;
  kstack ← proc_get p p_kstack;
  tf_set p tf_kernel_sp (u64 (kstack + PGSIZE));;
  tf_set p tf_kernel_trap usertrap_addr;;
  tp ← cpuid;
  tf_set p tf_kernel_hartid (Z.of_nat tp);;
  x ← r_sstatus;
  let x := Z.land x (Z.lnot SSTATUS_SPP) in
  let x := Z.lor x SSTATUS_SPIE in
  w_sstatus x;;
  epc ← tf_get p tf_epc;
  csr_set (set_csr_sepc epc);;
  pt ← proc_get p p_pagetable;
  mret (MAKE_SATP pt).

(** The cases of [usertrap]; the result is [which_dev]. *)
Definition usertrap_cause (pad : list Z) (p : nat) : M kstate Z :=
  scause ← csr_get csr_scause;
  if scause =? 8 then
    k ← killed p;
    (if negb (k =? 0) then exit (-1) else mret tt);;
    epc ← tf_get p tf_epc;
    tf_set p tf_epc (u64 (epc + 4));;
    intr_on;;
    syscall pad;;
    mret 0
  else
  which_dev ← devintr;
  (if which_dev =? 0 then
     scause ← csr_get csr_scause;
     pid ← proc_get p p_pid;
     printf "usertrap(): unexpected scause %p pid=%d\n" [PInt scause; PInt pid];;
     sepc ← csr_get csr_sepc;
     stval ← csr_get csr_stval;
     printf "            sepc=%p stval=%p\n" [PInt sepc; PInt stval];;
     setkilled p
   else mret tt);;
  mret which_dev.

Definition usertrap (pad : list Z) : M kstate Z :=
  st ← r_sstatus;
  if negb (Z.land st SSTATUS_SPP =? 0) then panic "usertrap: not from user mode" else
  csr_set (set_csr_stvec kernelvec);;
  p ← curproc;
  sepc ← csr_get csr_sepc;
  tf_set p tf_epc sepc;;
  which_dev ← usertrap_cause pad p;
  k ← killed p;
  (if negb (k =? 0) then exit (-1) else mret tt);;
  when (which_dev =? 2) yield;;
  usertrapret.

Definition kerneltrap : M kstate unit :=
  sepc ← csr_get csr_sepc;
  sstatus ← r_sstatus;
  scause ← csr_get csr_scause;
  if Z.land sstatus SSTATUS_SPP =? 0 then panic "kerneltrap: not from supervisor mode" else
  i ← intr_get;
  if i : bool then panic "kerneltrap: interrupts enabled" else
  which_dev ← devintr;
  if which_dev =? 0 then
    printf "scause %p\n" [PInt scause];;
    sepc ← csr_get csr_sepc;
    stval ← csr_get csr_stval;
    printf "sepc=%p stval=%p\n" [PInt sepc; PInt stval];;
    panic "kerneltrap"
  else
  (if which_dev =? 2 then
     me ← myproc;
     match me with
     | None => mret tt
     | Some _ =>
         p ← curproc;
         st ← proc_get p p_state;
         if decide (st = RUNNING) then yield else mret tt
     end
   else mret tt);;
  csr_set (set_csr_sepc sepc);;
  w_sstatus sstatus.

(** The first code of a new process, entered from the scheduler. *)
Definition forkret : M kstate Z :=
  p ← curproc;
  release (L_proc p);;
  first ← gets k_first;
  (if first : bool then modify (set_k_first false);; fsinit ROOTDEV else mret tt);;
  usertrapret.

(** ** Start-up *)

(** [scratch[k]] is word [k] of the area of hart [id]. *)
Definition timerinit : M kstate unit :=
  id ← cpuid;
  let interval := 1000000 in
  mtime ← soc_get (λ x, default 0 (x.(clint_regs) !! CLINT_MTIME));
  soc_set (λ x, set_clint_regs
    (<[CLINT_MTIMECMP (Z.of_nat id) := u64 (mtime + interval)]> x.(clint_regs)) x);;
  let scratch := timer_scratch + 5 * 8 * Z.of_nat id in
  mem_write (store64 (scratch + 8 * 3) (CLINT_MTIMECMP (Z.of_nat id)));;
  mem_write (store64 (scratch + 8 * 4) interval);;
  csr_set (set_csr_mscratch scratch);;
  csr_set (set_csr_mtvec timervec);;
  csr_set (λ c, set_csr_mstatus (Z.lor c.(csr_mstatus) MSTATUS_MIE) c);;
  csr_set (λ c, set_csr_mie (Z.lor c.(csr_mie) MIE_MTIE) c).

(** [mhartid] is the number of the executing hart, which [start] keeps in [tp]. *)
Definition start : M kstate unit :=
  csr_set (λ c, set_csr_mstatus
    (Z.lor (Z.land c.(csr_mstatus) (Z.lnot MSTATUS_MPP_MASK)) MSTATUS_MPP_S) c);;
  csr_set (set_csr_mepc main_addr);;
  csr_set (set_csr_satp 0);;
  csr_set (set_csr_medeleg 0xffff);;
  csr_set (set_csr_mideleg 0xffff);;
  csr_set (λ c, set_csr_sie (Z.lor (Z.lor (Z.lor c.(csr_sie) SIE_SEIE) SIE_STIE) SIE_SSIE) c);;
  csr_set (set_csr_pmpaddr0 0x3fffffffffffff);;
  csr_set (set_csr_pmpcfg0 0xf);;
  timerinit.

(** What [main] does before the scheduler.  Another hart waits for [started]. *)
Definition main_init : M kstate unit :=
  id ← cpuid;
  if decide (id = 0%nat) then
    consoleinit;;
    printfinit;;
    printf "\n" [];;
    printf "xv6 kernel is booting\n" [];;
    printf "\n" [];;
    kinit;;
    kvminit;;
    kvminithart;;
    procinit;;
    trapinit;;
    trapinithart;;
    plicinit;;
    plicinithart;;
    binit;;
    iinit;;
    fileinit;;
    virtio_disk_init;;
    userinit;;
    modify (set_k_started true)
  else
    st ← gets k_started;
    if negb st then spin else
    printf "hart %d starting\n" [PInt (Z.of_nat id)];;
    kvminithart;;
    trapinithart;;
    plicinithart.

Definition main (rounds : nat) : M kstate unit := main_init;; scheduler rounds.

End Trap.
