(* ===== verification/Asm.v ===== *)
(** * The assembly code ([entry.S], [swtch.S], [trampoline.S], [kernelvec.S], and
    [user/initcode.S], [user/usys.S])

    A program is the list of its instructions, in the order of the source; the
    state is the registers and memory of one hart.  Addresses are translated by
    the parameter [xlate] (the MMU with the page table of [satp]), except in
    machine mode; [callee] is the effect of calling a C function, the change of
    [ra] by the call included. *)

From S2P Require Import Prelude State Cstring Proc Bio ProcLife Rcu Sysfile Syscall.

(** ** The machine *)

Variant reg : Type :=
  | zero | ra | sp | gp | tp | t0 | t1 | t2 | s0 | s1 | a0 | a1 | a2 | a3 | a4 | a5 | a6 | a7
  | s2 | s3 | s4 | s5 | s6 | s7 | s8 | s9 | s10 | s11 | t3 | t4 | t5 | t6.

#[export] Instance reg_eq_dec : EqDecision reg.
Proof. solve_decision. Defined.

Variant csr : Type := sscratch | satp | mscratch | sip | mhartid.

#[export] Instance csr_eq_dec : EqDecision csr.
Proof. solve_decision. Defined.

(** Instructions and pseudo-instructions that the code uses; [sd r o b] is
    [sd r, o(b)]. *)
Variant instr : Type :=
  | sd (r : reg) (o : Z) (b : reg) | ld (r : reg) (o : Z) (b : reg)
  | li (r : reg) (v : Z) | la (r : reg) (sym : string)
  | addi (r x : reg) (v : Z) | add (r x y : reg) | mul (r x y : reg)
  | csrw (c : csr) (r : reg) | csrr (r : reg) (c : csr) | csrrw (r : reg) (c : csr) (x : reg)
  | sfence_vma | call (f : string) | ecall | jr (r : reg) | ret | j (label : string) | sret | mret.

Variant priv : Type := User | Supervisor | Machine.

Record hart : Type := mk_hart {
  h_regs : reg → Z;
  h_csrs : csr → Z;
  h_priv : priv;
  h_mem : mem
}.

(** A write of [zero] has no effect. *)
Definition set_reg (r : reg) (v : Z) (h : hart) : hart :=
  mk_hart (λ x, if decide (x = r ∧ r ≠ zero) then v else h.(h_regs) x) h.(h_csrs) h.(h_priv) h.(h_mem).
Definition set_csr (c : csr) (v : Z) (h : hart) : hart :=
  mk_hart h.(h_regs) (λ x, if decide (x = c) then v else h.(h_csrs) x) h.(h_priv) h.(h_mem).
Definition set_mem (m : mem) (h : hart) : hart := mk_hart h.(h_regs) h.(h_csrs) h.(h_priv) m.

(** How a program ends: a jump to an address or a label, a return from a trap,
    a trap, or by running past its end. *)
Variant flow : Type := Jump (a : Z) | Goto (label : string) | Sret | Mret | Trap | Past_end.

Section Machine.
Context (xlate : Z → Z → option Z) (symbol : string → Z) (callee : string → hart → option hart).

Definition addr (h : hart) (va : Z) : option Z :=
  match h.(h_priv) with Machine => Some va | _ => xlate (h.(h_csrs) satp) va end.

(** One instruction: the next state, or how the program ends; [None] is a fault. *)
Definition step (i : instr) (h : hart) : option (hart + flow) :=
  let R := h.(h_regs) in
  match i with
  | sd r o b => a ← addr h (u64 (R b + o)); Some (inl (set_mem (store64 a (R r) h.(h_mem)) h))
  | ld r o b => a ← addr h (u64 (R b + o)); Some (inl (set_reg r (load64 h.(h_mem) a) h))
  | li r v => Some (inl (set_reg r (u64 v) h))
  | la r sym => Some (inl (set_reg r (u64 (symbol sym)) h))
  | addi r x v => Some (inl (set_reg r (u64 (R x + v)) h))
  | add r x y => Some (inl (set_reg r (u64 (R x + R y)) h))
  | mul r x y => Some (inl (set_reg r (u64 (R x * R y)) h))
  | csrw c r => Some (inl (set_csr c (R r) h))
  | csrr r c => Some (inl (set_reg r (h.(h_csrs) c) h))
  | csrrw r c x => Some (inl (set_reg r (h.(h_csrs) c) (set_csr c (R x) h)))
  | sfence_vma => Some (inl h)
  | call f => inl <$> callee f h
  | ecall => Some (inr Trap)
  | jr r => Some (inr (Jump (R r)))
  | ret => Some (inr (Jump (R ra)))
  | j label => Some (inr (Goto label))
  | sret => Some (inr Sret)
  | mret => Some (inr Mret)
  end.

Fixpoint execute (p : list instr) (h : hart) : option (flow * hart) :=
  match p with
  | [] => Some (Past_end, h)
  | i :: p => x ← step i h; match x with inl h => execute p h | inr f => Some (f, h) end
  end.

(** ** The programs *)

(** [swtch(old, new)] *)
Definition swtch : list instr := [
  sd ra 0 a0; sd sp 8 a0; sd s0 16 a0; sd s1 24 a0; sd s2 32 a0; sd s3 40 a0; sd s4 48 a0;
  sd s5 56 a0; sd s6 64 a0; sd s7 72 a0; sd s8 80 a0; sd s9 88 a0; sd s10 96 a0; sd s11 104 a0;
  ld ra 0 a1; ld sp 8 a1; ld s0 16 a1; ld s1 24 a1; ld s2 32 a1; ld s3 40 a1; ld s4 48 a1;
  ld s5 56 a1; ld s6 64 a1; ld s7 72 a1; ld s8 80 a1; ld s9 88 a1; ld s10 96 a1; ld s11 104 a1;
  ret ].

Definition uservec : list instr := [
  csrw sscratch a0;
  li a0 TRAPFRAME;
  sd ra 40 a0; sd sp 48 a0; sd gp 56 a0; sd tp 64 a0; sd t0 72 a0; sd t1 80 a0; sd t2 88 a0;
  sd s0 96 a0; sd s1 104 a0; sd a1 120 a0; sd a2 128 a0; sd a3 136 a0; sd a4 144 a0;
  sd a5 152 a0; sd a6 160 a0; sd a7 168 a0; sd s2 176 a0; sd s3 184 a0; sd s4 192 a0;
  sd s5 200 a0; sd s6 208 a0; sd s7 216 a0; sd s8 224 a0; sd s9 232 a0; sd s10 240 a0;
  sd s11 248 a0; sd t3 256 a0; sd t4 264 a0; sd t5 272 a0; sd t6 280 a0;
  csrr t0 sscratch;
  sd t0 112 a0;
  ld sp 8 a0;
  ld tp 32 a0;
  ld t0 16 a0;
  ld t1 0 a0;
  sfence_vma;
  csrw satp t1;
  sfence_vma;
  jr t0 ].

(** [userret(pagetable)] *)
Definition userret : list instr := [
  sfence_vma;
  csrw satp a0;
  sfence_vma;
  li a0 TRAPFRAME;
  ld ra 40 a0; ld sp 48 a0; ld gp 56 a0; ld tp 64 a0; ld t0 72 a0; ld t1 80 a0; ld t2 88 a0;
  ld s0 96 a0; ld s1 104 a0; ld a1 120 a0; ld a2 128 a0; ld a3 136 a0; ld a4 144 a0;
  ld a5 152 a0; ld a6 160 a0; ld a7 168 a0; ld s2 176 a0; ld s3 184 a0; ld s4 192 a0;
  ld s5 200 a0; ld s6 208 a0; ld s7 216 a0; ld s8 224 a0; ld s9 232 a0; ld s10 240 a0;
  ld s11 248 a0; ld t3 256 a0; ld t4 264 a0; ld t5 272 a0; ld t6 280 a0;
  ld a0 112 a0;
  sret ].

Definition kernelvec : list instr := [
  addi sp sp (-256);
  sd ra 0 sp; sd sp 8 sp; sd gp 16 sp; sd tp 24 sp; sd t0 32 sp; sd t1 40 sp; sd t2 48 sp;
  sd s0 56 sp; sd s1 64 sp; sd a0 72 sp; sd a1 80 sp; sd a2 88 sp; sd a3 96 sp; sd a4 104 sp;
  sd a5 112 sp; sd a6 120 sp; sd a7 128 sp; sd s2 136 sp; sd s3 144 sp; sd s4 152 sp;
  sd s5 160 sp; sd s6 168 sp; sd s7 176 sp; sd s8 184 sp; sd s9 192 sp; sd s10 200 sp;
  sd s11 208 sp; sd t3 216 sp; sd t4 224 sp; sd t5 232 sp; sd t6 240 sp;
  call "kerneltrap";
  ld ra 0 sp; ld sp 8 sp; ld gp 16 sp; ld t0 32 sp; ld t1 40 sp; ld t2 48 sp;
  ld s0 56 sp; ld s1 64 sp; ld a0 72 sp; ld a1 80 sp; ld a2 88 sp; ld a3 96 sp; ld a4 104 sp;
  ld a5 112 sp; ld a6 120 sp; ld a7 128 sp; ld s2 136 sp; ld s3 144 sp; ld s4 152 sp;
  ld s5 160 sp; ld s6 168 sp; ld s7 176 sp; ld s8 184 sp; ld s9 192 sp; ld s10 200 sp;
  ld s11 208 sp; ld t3 216 sp; ld t4 224 sp; ld t5 232 sp; ld t6 240 sp;
  addi sp sp 256;
  sret ].

Definition timervec : list instr := [
  csrrw a0 mscratch a0;
  sd a1 0 a0;
  sd a2 8 a0;
  sd a3 16 a0;
  ld a1 24 a0;
  ld a2 32 a0;
  ld a3 0 a1;
  add a3 a3 a2;
  sd a3 0 a1;
  li a1 2;
  csrw sip a1;
  ld a3 16 a0;
  ld a2 8 a0;
  ld a1 0 a0;
  csrrw a0 mscratch a0;
  mret ].

Definition entry : list instr := [
  la sp "stack0";
  li a0 (1024 * 4);
  csrr a1 mhartid;
  addi a1 a1 1;
  mul a0 a0 a1;
  add sp sp a0;
  call "start";
  j "spin" ].

(** The stub of a system call that [usys.pl] generates. *)
Definition stub (num : Z) : list instr := [li a7 num; ecall; ret].

(** ** Saving and restoring a list of registers *)

(** [sd r, o(b)] for every [(r, o)] of the list; [ld r, o(b)] likewise. *)
Definition saves (b : reg) (l : list (reg * Z)) : list instr := (λ x, sd x.1 x.2 b) <$> l.
Definition restores (b : reg) (l : list (reg * Z)) : list instr := (λ x, ld x.1 x.2 b) <$> l.

Definition save_mem (pa : Z) (R : reg → Z) (l : list (reg * Z)) (m : mem) : mem :=
  foldl (λ m x, store64 (pa + x.2) (R x.1) m) m l.

(** The doublewords at the offsets of [l] from [va] are at [pa]. *)
Definition mapped (h : hart) (va pa : Z) (l : list (reg * Z)) : Prop :=
  Forall (λ x, addr h (u64 (va + x.2)) = Some (pa + x.2)) l.

Lemma exec_app_cons i p h h' : step i h = Some (inl h') → execute (i :: p) h = execute p h'.
Proof. intros E. simpl. by rewrite E. Qed.

Lemma exec_sd r o b p h a :
  addr h (u64 (h.(h_regs) b + o)) = Some a →
  execute (sd r o b :: p) h = execute p (set_mem (store64 a (h.(h_regs) r) h.(h_mem)) h).
Proof. intros E. apply exec_app_cons. cbn. by rewrite E. Qed.

Lemma exec_ld r o b p h a :
  addr h (u64 (h.(h_regs) b + o)) = Some a →
  execute (ld r o b :: p) h = execute p (set_reg r (load64 h.(h_mem) a) h).
Proof. intros E. apply exec_app_cons. cbn. by rewrite E. Qed.

Lemma exec_saves b pa l p h :
  mapped h (h.(h_regs) b) pa l →
  execute (saves b l ++ p) h = execute p (set_mem (save_mem pa h.(h_regs) l h.(h_mem)) h).
Proof.
  revert h; induction l as [|[r o] l IH]; intros h Hm; [by destruct h|].
  apply Forall_cons in Hm as [Ho Hm].
  change (saves b ((r, o) :: l) ++ p) with (sd r o b :: saves b l ++ p).
  rewrite (exec_sd _ _ _ _ _ _ Ho). by rewrite IH.
Qed.

Lemma exec_restores b pa l p h :
  mapped h (h.(h_regs) b) pa l → NoDup l.*1 → zero ∉ l.*1 →
  (∀ o, (b, o) ∈ l → load64 h.(h_mem) (pa + o) = h.(h_regs) b) →
  ∃ R, execute (restores b l ++ p) h = execute p (mk_hart R h.(h_csrs) h.(h_priv) h.(h_mem)) ∧
    (∀ r o, (r, o) ∈ l → R r = load64 h.(h_mem) (pa + o)) ∧
    ∀ r, r ∉ l.*1 → R r = h.(h_regs) r.
Proof.
  revert h; induction l as [|[r o] l IH]; intros h Hm Hnd Hz Hb.
  { exists h.(h_regs). split_and!; [by destruct h| |done]. intros r o H. by apply elem_of_nil in H. }
  apply Forall_cons in Hm as [Ho Hm]. apply NoDup_cons in Hnd as [Hr Hnd].
  apply not_elem_of_cons in Hz as [Hrz Hz]. simpl in Ho, Hr, Hrz.
  change (restores b ((r, o) :: l) ++ p) with (ld r o b :: restores b l ++ p).
  set (h1 := set_reg r (load64 h.(h_mem) (pa + o)) h).
  rewrite (exec_ld _ _ _ _ _ _ Ho : _ = execute _ h1).
  assert (Hh1 : h1.(h_regs) b = h.(h_regs) b).
  { unfold h1. simpl. case_decide as E; [|done]. destruct E as [-> _]. apply Hb. by left. }
  destruct (IH h1) as (R & -> & Hin & Hout); rewrite ?Hh1; try done.
  { intros o' H. apply Hb. by right. }
  exists R. split_and!; [done| |].
  - intros r' o' [[= -> ->]|H]%elem_of_cons; [|by apply Hin].
    rewrite Hout by done. unfold h1. simpl. by rewrite decide_True by auto.
  - intros r' H. simpl in H. apply not_elem_of_cons in H as [Hne H]. rewrite Hout by done.
    unfold h1. simpl. rewrite decide_False; [done|]. by intros [].
Qed.

(** ** Doublewords at distinct offsets *)

Definition dwords (l : list (reg * Z)) : Prop := NoDup l.*2 ∧ Forall (λ x, x.2 mod 8 = 0) l.

#[local] Instance dwords_dec l : Decision (dwords l).
Proof. unfold dwords. apply _. Defined.

Lemma load_save_other pa R l m o :
  Forall (λ x, x.2 mod 8 = 0) l → o mod 8 = 0 → o ∉ l.*2 →
  load64 (save_mem pa R l m) (pa + o) = load64 m (pa + o).
Proof.
  intros Hl Ho. revert m. induction Hl as [|[r o'] l Ho' _ IH]; intros m Hn; [done|].
  simpl in Hn, Ho'. apply not_elem_of_cons in Hn as [Hne Hn]. change (save_mem pa R ((r, o') :: l) m) with
    (save_mem pa R l (store64 (pa + o') (R r) m)).
  rewrite IH by done. apply load_store_disjoint. lia.
Qed.

Lemma load_save pa R l m r o :
  dwords l → (r, o) ∈ l → load64 (save_mem pa R l m) (pa + o) = u64 (R r).
Proof.
  intros [Hnd Hal]. revert m. induction Hal as [|[r' o'] l Ho' Hal IH]; intros m Hin.
  { by apply elem_of_nil in Hin. }
  simpl in Hnd, Ho'. apply NoDup_cons in Hnd as [Hn Hnd].
  change (save_mem pa R ((r', o') :: l) m) with (save_mem pa R l (store64 (pa + o') (R r') m)).
  apply elem_of_cons in Hin as [[= -> ->]|Hin]; [|by apply IH].
  rewrite load_save_other by done. apply (load_store_same 8).
Qed.

Lemma byte_save_mem pa R l m x :
  (∀ r o, (r, o) ∈ l → x < pa + o ∨ pa + o + 8 ≤ x) →
  byte_at (save_mem pa R l m) x = byte_at m x.
Proof.
  revert m. induction l as [|[r o] l IH]; intros m Hx; [done|].
  change (save_mem pa R ((r, o) :: l) m) with (save_mem pa R l (store64 (pa + o) (R r) m)).
  rewrite IH by (intros r' o' H; apply (Hx r' o'); by right).
  apply byte_at_store. specialize (Hx r o ltac:(by left)). lia.
Qed.

Definition regs_ok (h : hart) : Prop := ∀ r, 0 ≤ h.(h_regs) r < 2 ^ 64.

Lemma u64_reg h r : regs_ok h → u64 (h.(h_regs) r) = h.(h_regs) r.
Proof. intros H. unfold u64. apply Z.mod_small, H. Qed.

(** ** The trampoline *)

(** Where [struct trapframe] keeps the user registers. *)
Definition trapframe_regs : list (reg * Z) := [
  (ra, 40); (sp, 48); (gp, 56); (tp, 64); (t0, 72); (t1, 80); (t2, 88); (s0, 96); (s1, 104);
  (a0, 112); (a1, 120); (a2, 128); (a3, 136); (a4, 144); (a5, 152); (a6, 160); (a7, 168);
  (s2, 176); (s3, 184); (s4, 192); (s5, 200); (s6, 208); (s7, 216); (s8, 224); (s9, 232);
  (s10, 240); (s11, 248); (t3, 256); (t4, 264); (t5, 272); (t6, 280) ].

(** All but [a0]. *)
Definition user_slots : list (reg * Z) := Eval cbv in filter (λ x, x.1 ≠ a0) trapframe_regs.

(** Under [pagetable] the page [TRAPFRAME] is the trap frame at [tf]. *)
Definition trapframe_mapped (pagetable tf : Z) : Prop :=
  ∀ o, 0 ≤ o < 288 → o mod 8 = 0 → xlate pagetable (TRAPFRAME + o) = Some (tf + o).

Lemma u64_TRAPFRAME o : 0 ≤ o < 288 → u64 (TRAPFRAME + o) = TRAPFRAME + o.
Proof. intros H. unfold u64. apply Z.mod_small. change TRAPFRAME with 274877898752. lia. Qed.

Lemma trapframe_addr h tf o :
  h.(h_priv) = Supervisor → trapframe_mapped (h.(h_csrs) satp) tf → 0 ≤ o < 288 → o mod 8 = 0 →
  addr h (u64 (TRAPFRAME + o)) = Some (tf + o).
Proof. intros Hp Hm Ho Ha. unfold addr. rewrite Hp, u64_TRAPFRAME by done. by apply Hm. Qed.

Lemma trapframe_slots h tf l :
  h.(h_priv) = Supervisor → trapframe_mapped (h.(h_csrs) satp) tf →
  Forall (λ x, (0 ≤ x.2 < 288) ∧ x.2 mod 8 = 0) l → mapped h TRAPFRAME tf l.
Proof.
  intros Hp Hm Hl. eapply Forall_impl; [exact Hl|]. intros [r o] [Ho Ha]. by apply trapframe_addr.
Qed.

Lemma trapframe_reg_user r : r ≠ zero → r ≠ a0 → ∃ o, (r, o) ∈ trapframe_regs ∧ (r, o) ∈ user_slots.
Proof.
  intros Hz Ha. destruct r; try done; eexists; split; apply list_elem_of_In; simpl; eauto 40.
Qed.

Lemma user_slots_range : Forall (λ x : reg * Z, (0 ≤ x.2 < 288) ∧ x.2 mod 8 = 0) user_slots.
Proof. apply (bool_decide_unpack _). vm_compute. done. Qed.

Lemma user_slots_dwords : dwords user_slots.
Proof. apply (bool_decide_unpack _). vm_compute. done. Qed.

Lemma trapframe_reg_slot r o : (r, o) ∈ trapframe_regs → (r, o) = (a0, 112) ∨ (r, o) ∈ user_slots.
Proof.
  intros H. destruct (decide ((r, o) = (a0, 112))); [by left|right].
  revert H. rewrite !list_elem_of_In. unfold trapframe_regs, user_slots. simpl. intuition congruence.
Qed.

(** One instruction that does not access memory. *)
Ltac asm_step := erewrite exec_app_cons; [|cbn [step]; reflexivity].

(** The fields that [uservec] loads for the kernel. *)
Definition kernel_slots : list (reg * Z) :=
  [(sp, tf_kernel_sp); (tp, tf_kernel_hartid); (t0, tf_kernel_trap); (t1, tf_kernel_satp)].

Lemma kernel_slot_ok r o : (r, o) ∈ kernel_slots → (0 ≤ o ≤ 32) ∧ r ≠ a0.
Proof.
  assert (H : Forall (λ x, (0 ≤ x.2 ≤ 32) ∧ x.1 ≠ a0) kernel_slots)
    by (apply (bool_decide_unpack _); vm_compute; done).
  intros Hin. exact (proj1 (Forall_forall _ _) H _ Hin).
Qed.

(** Memory after [uservec]. *)
Definition saved (tf : Z) (h : hart) : mem :=
  store64 (tf + 112) (h.(h_regs) a0) (save_mem tf h.(h_regs) user_slots h.(h_mem)).

Definition slot_ok (x : reg * Z) : Prop := (40 ≤ x.2 < 288) ∧ x.2 mod 8 = 0 ∧ x.2 ≠ 112 ∧ x.1 ≠ a0.

Lemma user_slot_ok r o : (r, o) ∈ user_slots → slot_ok (r, o).
Proof.
  assert (H : Forall slot_ok user_slots)
    by (unfold slot_ok; apply (bool_decide_unpack _); vm_compute; done).
  intros Hin. exact (proj1 (Forall_forall _ _) H _ Hin).
Qed.

Lemma load_saved_reg tf h r o :
  (r, o) ∈ trapframe_regs → load64 (saved tf h) (tf + o) = u64 (h.(h_regs) r).
Proof.
  intros [[= -> ->]|H]%trapframe_reg_slot; [apply (load_store_same 8)|].
  destruct (user_slot_ok _ _ H) as (? & ? & ? & ?). simpl in *. unfold saved.
  rewrite load_store_disjoint by lia. apply load_save; [apply user_slots_dwords|done].
Qed.

Lemma byte_saved tf h x : (x < tf + 40 ∨ tf + 288 ≤ x) → byte_at (saved tf h) x = byte_at h.(h_mem) x.
Proof.
  intros Hx. unfold saved. rewrite byte_at_store by lia. apply byte_save_mem.
  intros r o H. destruct (user_slot_ok _ _ H) as (? & ? & _). simpl in *. lia.
Qed.

Lemma load_saved_kernel tf h o :
  0 ≤ o ≤ 32 → load64 (saved tf h) (tf + o) = load64 h.(h_mem) (tf + o).
Proof. intros H. apply load_ext. intros x Hx. apply byte_saved. lia. Qed.

(** [save_mem] reads the registers of its list only. *)
Lemma save_mem_ext pa R R' l m :
  (∀ r o, (r, o) ∈ l → R r = R' r) → save_mem pa R l m = save_mem pa R' l m.
Proof.
  revert m. induction l as [|[r o] l IH]; intros m H; [done|].
  change (save_mem pa ?R ((r, o) :: l) m) with (save_mem pa R l (store64 (pa + o) (R r) m)).
  rewrite (H r o) by (by left). apply IH. intros r' o' Hin. apply (H r' o'). by right.
Qed.

(** What [uservec] does: it saves every user register in the trap frame, and
    jumps to [usertrap] on the kernel stack with the kernel page table. *)
Lemma uservec_run tf h :
  h.(h_priv) = Supervisor → trapframe_mapped (h.(h_csrs) satp) tf →
  let m := h.(h_mem) in
  ∃ h', execute uservec h = Some (Jump (load64 m (tf + tf_kernel_trap)), h') ∧
    h'.(h_regs) sp = load64 m (tf + tf_kernel_sp) ∧ h'.(h_regs) tp = load64 m (tf + tf_kernel_hartid) ∧
    h'.(h_csrs) satp = load64 m (tf + tf_kernel_satp) ∧ h'.(h_priv) = Supervisor ∧
    (∀ r o, (r, o) ∈ trapframe_regs → load64 h'.(h_mem) (tf + o) = u64 (h.(h_regs) r)) ∧
    ∀ x, (x < tf + 40 ∨ tf + 288 ≤ x) → byte_at h'.(h_mem) x = byte_at m x.
Proof.
  intros Hp Hm m.
  change uservec with (csrw sscratch a0 :: li a0 TRAPFRAME :: saves a0 user_slots ++
    [csrr t0 sscratch; sd t0 112 a0; ld sp 8 a0; ld tp 32 a0; ld t0 16 a0; ld t1 0 a0; sfence_vma;
     csrw satp t1; sfence_vma; jr t0]).
  do 2 asm_step.
  rewrite (exec_saves a0 tf) by (by apply trapframe_slots, user_slots_range).
  rewrite (save_mem_ext _ _ h.(h_regs)).
  2:{ intros r o H. destruct (user_slot_ok _ _ H) as (_ & _ & _ & ?). simpl in *.
      rewrite decide_False; [done|]. by intros []. }
  asm_step.
  rewrite (exec_sd _ _ _ _ _ (tf + 112)) by (by apply (trapframe_addr _ tf 112)).
  set (h1 := set_mem _ _).
  assert (Hm1 : h1.(h_mem) = saved tf h) by reflexivity.
  assert (Ha1 : h1.(h_regs) a0 = TRAPFRAME) by reflexivity.
  assert (Hs1 : mapped h1 (h1.(h_regs) a0) tf kernel_slots)
    by (apply (trapframe_slots h1); [done..|apply (bool_decide_unpack _); vm_compute; done]).
  assert (Hc1 : h1.(h_priv) = Supervisor) by exact Hp.
  clearbody h1.
  change ([ld sp 8 a0; ld tp 32 a0; ld t0 16 a0; ld t1 0 a0; sfence_vma; csrw satp t1; sfence_vma; jr t0])
    with (restores a0 kernel_slots ++ [sfence_vma; csrw satp t1; sfence_vma; jr t0]).
  destruct (exec_restores a0 tf kernel_slots [sfence_vma; csrw satp t1; sfence_vma; jr t0] h1)
    as (R & -> & Hin & _); [done|apply (bool_decide_unpack _); vm_compute; done..| |].
  { intros o H. by destruct (kernel_slot_ok _ _ H). }
  rewrite Hm1 in Hin.
  assert (HR : ∀ r o, (r, o) ∈ kernel_slots → R r = load64 m (tf + o)).
  { intros r o H. rewrite (Hin r o H). by apply load_saved_kernel, (kernel_slot_ok r). }
  cbn. rewrite (HR t0 16), (HR t1 0) by (apply list_elem_of_In; simpl; tauto).
  eexists. split; [reflexivity|]. cbn.
  rewrite (HR sp 8), (HR tp 32) by (apply list_elem_of_In; simpl; tauto). rewrite Hm1.
  split_and!; [done..| |].
  - intros r o H. by apply load_saved_reg.
  - intros x Hx. by apply byte_saved.
Qed.

(** What [userret] does: it switches to the page table in [a0] and loads every
    register from the trap frame. *)
Lemma userret_run tf h :
  h.(h_priv) = Supervisor → trapframe_mapped (h.(h_regs) a0) tf →
  ∃ h', execute userret h = Some (Sret, h') ∧ h'.(h_csrs) satp = h.(h_regs) a0 ∧ h'.(h_mem) = h.(h_mem) ∧
    ∀ r o, (r, o) ∈ trapframe_regs → h'.(h_regs) r = load64 h.(h_mem) (tf + o).
Proof.
  intros Hp Hm.
  change userret with (sfence_vma :: csrw satp a0 :: sfence_vma :: li a0 TRAPFRAME ::
    restores a0 user_slots ++ [ld a0 112 a0; sret]).
  do 4 asm_step. set (h1 := set_reg _ _ _).
  assert (Hs : h1.(h_priv) = Supervisor ∧ h1.(h_csrs) satp = h.(h_regs) a0 ∧ h1.(h_mem) = h.(h_mem) ∧
    h1.(h_regs) a0 = TRAPFRAME) by done.
  clearbody h1. destruct Hs as (Hp1 & Hc1 & Hm1 & Ha1). rewrite <- Hc1 in Hm.
  destruct (exec_restores a0 tf user_slots [ld a0 112 a0; sret] h1) as (R & -> & Hin & Hout).
  { rewrite Ha1. by apply trapframe_slots, user_slots_range. }
  1,2: apply (bool_decide_unpack _); vm_compute; done.
  { intros o H. by destruct (user_slot_ok _ _ H) as (_ & _ & _ & ?). }
  rewrite (exec_ld _ _ _ _ _ (tf + 112)).
  2:{ cbn. rewrite Hout, Ha1 by (apply (bool_decide_unpack _); vm_compute; done).
      by apply (trapframe_addr _ tf 112). }
  eexists. split; [reflexivity|]. cbn. rewrite <- Hm1. split_and!; [done..|].
  intros r o [[= -> ->]|H]%trapframe_reg_slot; [done|].
  rewrite decide_False; [by apply Hin|].
  intros [-> _]. by destruct (user_slot_ok _ _ H) as (_ & _ & _ & ?).
Qed.


(** ** Context switches *)

(** Where [struct context] keeps the callee-saved registers. *)
Definition context_regs : list (reg * Z) := [
  (ra, 0); (sp, 8); (s0, 16); (s1, 24); (s2, 32); (s3, 40); (s4, 48); (s5, 56); (s6, 64);
  (s7, 72); (s8, 80); (s9, 88); (s10, 96); (s11, 104) ].

(** The context at [c], which the kernel's page table maps to itself. *)
Definition context_mapped (h : hart) (c : Z) : Prop := mapped h c c context_regs.

Lemma context_reg_ok r o : (r, o) ∈ context_regs → (0 ≤ o < 112) ∧ o mod 8 = 0 ∧ r ≠ a0 ∧ r ≠ a1.
Proof.
  assert (H : Forall (λ x, (0 ≤ x.2 < 112) ∧ x.2 mod 8 = 0 ∧ x.1 ≠ a0 ∧ x.1 ≠ a1) context_regs)
    by (apply (bool_decide_unpack _); vm_compute; done).
  intros Hin. exact (proj1 (Forall_forall _ _) H _ Hin).
Qed.

Lemma context_dwords : dwords context_regs.
Proof. apply (bool_decide_unpack _). vm_compute. done. Qed.

Lemma swtch_run h :
  let old := h.(h_regs) a0 in let new := h.(h_regs) a1 in
  context_mapped h old → context_mapped h new → (old + 112 ≤ new ∨ new + 112 ≤ old) →
  ∃ h', execute swtch h = Some (Jump (load64 h.(h_mem) new), h') ∧
    h'.(h_mem) = save_mem old h.(h_regs) context_regs h.(h_mem) ∧
    (∀ r o, (r, o) ∈ context_regs → h'.(h_regs) r = load64 h.(h_mem) (new + o)) ∧
    ∀ r, r ∉ context_regs.*1 → h'.(h_regs) r = h.(h_regs) r.
Proof.
  intros old new Ho Hn Hd. change swtch with (saves a0 context_regs ++ restores a1 context_regs ++ [ret]).
  rewrite (exec_saves a0 old) by done. set (m' := save_mem _ _ _ _).
  assert (Hl : ∀ o, 0 ≤ o < 112 → o mod 8 = 0 → load64 m' (new + o) = load64 h.(h_mem) (new + o)).
  { intros o Hlt Hal. apply load_ext. intros x Hx. apply byte_save_mem. intros r o' H.
    destruct (context_reg_ok _ _ H) as (? & ? & _). lia. }
  destruct (exec_restores a1 new context_regs [ret] (set_mem m' h)) as (R & -> & Hin & Hout).
  { done. }
  1,2: apply (bool_decide_unpack _); vm_compute; done.
  { intros o H. by destruct (context_reg_ok _ _ H) as (_ & _ & _ & ?). }
  assert (HR : ∀ r o, (r, o) ∈ context_regs → R r = load64 h.(h_mem) (new + o)).
  { intros r o H. rewrite (Hin r o H). by apply Hl; apply (context_reg_ok r). }
  exists (mk_hart R h.(h_csrs) h.(h_priv) m'). split_and!; [|done..].
  cbn. rewrite (HR ra 0), Z.add_0_r by (by left). reflexivity.
Qed.

(** [swtch] is a coroutine switch.  A call of [swtch(old, new)] continues at
    the return address in [new] with the callee-saved registers of [new], and
    changes only the memory of [old].  When some hart later calls [swtch] with
    [old] as its second argument, and nothing wrote to [old] meanwhile, the
    first call returns: control is at its return address, and its callee-saved
    registers, stack pointer included, are as they were. *)
Theorem swtch_roundtrip h :
  let old := h.(h_regs) a0 in let new := h.(h_regs) a1 in
  regs_ok h → context_mapped h old → context_mapped h new → (old + 112 ≤ new ∨ new + 112 ≤ old) →
  ∃ h', execute swtch h = Some (Jump (load64 h.(h_mem) new), h') ∧
    (∀ r o, (r, o) ∈ context_regs → h'.(h_regs) r = load64 h.(h_mem) (new + o)) ∧
    (∀ x, (x < old ∨ old + 112 ≤ x) → byte_at h'.(h_mem) x = byte_at h.(h_mem) x) ∧
    ∀ k, let other := k.(h_regs) a0 in k.(h_regs) a1 = old →
      context_mapped k other → context_mapped k old → (other + 112 ≤ old ∨ old + 112 ≤ other) →
      (∀ x, old ≤ x < old + 112 → byte_at k.(h_mem) x = byte_at h'.(h_mem) x) →
      ∃ k', execute swtch k = Some (Jump (h.(h_regs) ra), k') ∧
        ∀ r, r ∈ context_regs.*1 → k'.(h_regs) r = h.(h_regs) r.
Proof.
  intros old new Hr Ho Hn Hd. destruct (swtch_run h Ho Hn Hd) as (h' & E & Hm & HR & _).
  exists h'. split_and!; [done..| |].
  { intros x Hx. rewrite Hm. apply byte_save_mem. intros r o H.
    destruct (context_reg_ok _ _ H) as (? & ? & _). fold old. lia. }
  intros k other Ha1 Hok Hold Hdk Hk. rewrite <- Ha1 in Hold.
  destruct (swtch_run k Hok Hold) as (k' & Ek & _ & HRk & _); [rewrite Ha1; exact Hdk|].
  assert (Hl : ∀ r o, (r, o) ∈ context_regs → load64 k.(h_mem) (old + o) = h.(h_regs) r).
  { intros r o H. rewrite <- (u64_reg h r Hr), <- (load_save old h.(h_regs) _ h.(h_mem) r o context_dwords H).
    apply load_ext. intros x Hx. destruct (context_reg_ok _ _ H) as (? & ? & _).
    rewrite Hk by lia. by rewrite Hm. }
  exists k'. rewrite Ek. split.
  - rewrite Ha1. by rewrite <- (Hl ra 0), Z.add_0_r by (by left).
  - intros r ([r' o] & -> & H)%list_elem_of_fmap. simpl. rewrite (HRk r' o H), Ha1. by apply Hl.
Qed.

(** ** Traps from the kernel *)

(** The frame of [kernelvec]; it restores all but [tp]. *)
Definition kernel_frame : list (reg * Z) := [
  (ra, 0); (sp, 8); (gp, 16); (tp, 24); (t0, 32); (t1, 40); (t2, 48); (s0, 56); (s1, 64);
  (a0, 72); (a1, 80); (a2, 88); (a3, 96); (a4, 104); (a5, 112); (a6, 120); (a7, 128);
  (s2, 136); (s3, 144); (s4, 152); (s5, 160); (s6, 168); (s7, 176); (s8, 184); (s9, 192);
  (s10, 200); (s11, 208); (t3, 216); (t4, 224); (t5, 232); (t6, 240) ].
Definition kernel_restored : list (reg * Z) := Eval cbv in filter (λ x, x.1 ≠ tp) kernel_frame.

Lemma kernel_restored_ok r o :
  (r, o) ∈ kernel_restored → (r, o) ∈ kernel_frame ∧ (0 ≤ o < 248) ∧ o mod 8 = 0 ∧ r ≠ tp ∧ (r = sp → o = 8).
Proof.
  assert (H : Forall (λ x, x ∈ kernel_frame ∧ (0 ≤ x.2 < 248) ∧ x.2 mod 8 = 0 ∧ x.1 ≠ tp ∧ (x.1 = sp → x.2 = 8))
    kernel_restored) by (apply (bool_decide_unpack _); vm_compute; done).
  intros Hin. exact (proj1 (Forall_forall _ _) H _ Hin).
Qed.

Lemma kernel_restored_reg r : r ≠ zero → r ≠ tp → ∃ o, (r, o) ∈ kernel_restored.
Proof. intros Hz Ht. destruct r; try done; eexists; apply list_elem_of_In; simpl; eauto 40. Qed.

Lemma kernel_frame_dwords : dwords kernel_frame.
Proof. apply (bool_decide_unpack _). vm_compute. done. Qed.

(** What the calling convention says of a C function called with the stack
    pointer [va], at physical address [pa]: it returns with the same stack
    pointer and page table, and leaves the frame of its caller alone. *)
Definition keeps_frame (pa : Z) (h h' : hart) : Prop :=
  h'.(h_regs) sp = h.(h_regs) sp ∧ h'.(h_csrs) satp = h.(h_csrs) satp ∧ h'.(h_priv) = h.(h_priv) ∧
  ∀ x, pa ≤ x < pa + 256 → byte_at h'.(h_mem) x = byte_at h.(h_mem) x.

Lemma set_reg_eq r v h : r ≠ zero → (set_reg r v h).(h_regs) r = v.
Proof. intros Hr. cbn. by rewrite decide_True. Qed.

Lemma set_reg_ne r v h x : x ≠ r → (set_reg r v h).(h_regs) x = h.(h_regs) x.
Proof. intros Hr. cbn. rewrite decide_False; [done|]. by intros []. Qed.

(** An interrupt of the kernel is transparent to the interrupted code.  For
    any [kerneltrap] that follows the calling convention, [kernelvec] returns
    with every register as at the interrupt, except [tp], which is what
    [kerneltrap] left there: the thread may have moved to another hart. *)
Theorem kernelvec_transparent pa h h2 :
  regs_ok h →
  let h1 := set_reg sp (u64 (h.(h_regs) sp - 256)) h in
  let h1 := set_mem (save_mem pa h1.(h_regs) kernel_frame h.(h_mem)) h1 in
  mapped h1 (h1.(h_regs) sp) pa kernel_frame →
  callee "kerneltrap" h1 = Some h2 → keeps_frame pa h1 h2 →
  ∃ h', execute kernelvec h = Some (Sret, h') ∧ h'.(h_mem) = h2.(h_mem) ∧
    (∀ r, r ≠ zero → r ≠ tp → h'.(h_regs) r = h.(h_regs) r) ∧ h'.(h_regs) tp = h2.(h_regs) tp.
Proof.
  intros Hr h0 h1 Hmap Hcall (Hsp & Hsatp & Hp & Hfr).
  change kernelvec with (addi sp sp (-256) :: saves sp kernel_frame ++ call "kerneltrap" ::
    restores sp kernel_restored ++ [addi sp sp 256; sret]).
  rewrite (exec_app_cons (addi sp sp (-256)) _ h h0 eq_refl), (exec_saves sp pa) by exact Hmap. fold h1.
  rewrite (exec_app_cons (call "kerneltrap") _ h1 h2) by (unfold step; by rewrite Hcall).
  assert (Hl : ∀ r o, (r, o) ∈ kernel_restored → load64 h2.(h_mem) (pa + o) = u64 (h0.(h_regs) r)).
  { intros r o H. destruct (kernel_restored_ok r o H) as (Hin & ? & ? & _).
    rewrite <- (load_save pa h0.(h_regs) _ h.(h_mem) r o kernel_frame_dwords Hin).
    apply load_ext. intros x Hx. apply Hfr. lia. }
  assert (Hsp0 : h0.(h_regs) sp = u64 (h.(h_regs) sp - 256)) by by apply set_reg_eq.
  destruct (exec_restores sp pa kernel_restored [addi sp sp 256; sret] h2) as (R & -> & Hin & Hout).
  { apply Forall_forall. intros [r o] H. destruct (kernel_restored_ok r o H) as (Hf & _).
    pose proof (proj1 (Forall_forall _ _) Hmap _ Hf) as Ha. unfold addr in *. by rewrite Hp, Hsatp, Hsp. }
  1,2: apply (bool_decide_unpack _); vm_compute; done.
  { intros o H. rewrite (Hl sp o H), Hsp. change (h1.(h_regs) sp) with (h0.(h_regs) sp). rewrite Hsp0.
    unfold u64. lia. }
  eexists. split; [reflexivity|]. cbn [h_mem set_reg]. split_and!; [done| |].
  - intros r Hz Ht. destruct (kernel_restored_reg r Hz Ht) as [o Ho].
    destruct (decide (r = sp)) as [->|Hn].
    + rewrite set_reg_eq by done. cbn [h_regs]. rewrite (Hin sp o Ho), (Hl sp o Ho), Hsp0.
      pose proof (Hr sp). unfold u64. lia.
    + rewrite set_reg_ne by done. cbn [h_regs]. rewrite (Hin r o Ho), (Hl r o Ho).
      unfold h0. rewrite set_reg_ne by done. by apply u64_reg.
  - rewrite set_reg_ne by done. apply Hout. apply (bool_decide_unpack _). vm_compute. done.
Qed.

(** ** Timer interrupts *)

Definition timer_saved : list (reg * Z) := [(a1, 0); (a2, 8); (a3, 16)].

(** The save area is a scratch buffer of the kernel and not the register of the
    CLINT; it does not wrap around. *)
Definition timer_area (scratch cmp : Z) : Prop :=
  0 ≤ scratch ∧ scratch + 40 ≤ 2 ^ 64 ∧ 0 ≤ cmp < 2 ^ 64 ∧ (cmp + 8 ≤ scratch ∨ scratch + 40 ≤ cmp).

Lemma machine_mapped h scratch l :
  h.(h_priv) = Machine → 0 ≤ scratch → scratch + 40 ≤ 2 ^ 64 → Forall (λ x, 0 ≤ x.2 < 40) l →
  mapped h scratch scratch l.
Proof.
  intros Hp H0 H1 Hl. eapply Forall_impl; [exact Hl|]. intros [r o] Ho. simpl in *. unfold addr. rewrite Hp.
  f_equal. unfold u64. lia.
Qed.

(** The instructions that add the interval to [mtimecmp] and raise the
    supervisor software interrupt. *)
Lemma timer_rearm p h cmp :
  h.(h_priv) = Machine → h.(h_regs) a1 = cmp → 0 ≤ cmp < 2 ^ 64 →
  let m := store64 cmp (u64 (load64 h.(h_mem) cmp + h.(h_regs) a2)) h.(h_mem) in
  ∃ h', execute (ld a3 0 a1 :: add a3 a3 a2 :: sd a3 0 a1 :: li a1 2 :: csrw sip a1 :: p) h = execute p h' ∧
    h'.(h_mem) = m ∧ h'.(h_priv) = Machine ∧ h'.(h_csrs) sip = 2 ∧
    h'.(h_csrs) mscratch = h.(h_csrs) mscratch ∧
    ∀ r, r ≠ a1 → r ≠ a3 → h'.(h_regs) r = h.(h_regs) r.
Proof.
  intros Hp H1 Hc m.
  assert (Ha : u64 (cmp + 0) = cmp) by (unfold u64; lia).
  rewrite (exec_ld _ _ _ _ _ cmp) by (unfold addr; by rewrite Hp, H1, Ha).
  asm_step. rewrite (exec_sd _ _ _ _ _ cmp) by (unfold addr; cbn [h_priv set_reg]; by rewrite Hp, !set_reg_ne, H1, Ha).
  do 2 asm_step. eexists. split; [reflexivity|]. split_and!; [done..|].
  intros r Hr1 Hr3. cbn. by rewrite !decide_False by (by intros []).
Qed.

Lemma timer_saved_frame sc R m x :
  (x < sc ∨ sc + 24 ≤ x) → byte_at (save_mem sc R timer_saved m) x = byte_at m x.
Proof.
  intros Hx. apply byte_save_mem. intros r o H. apply list_elem_of_In in H. simpl in H.
  intuition (simplify_eq; lia).
Qed.

Lemma timer_saved_load sc h m r o :
  regs_ok h → (r, o) ∈ timer_saved → load64 (save_mem sc h.(h_regs) timer_saved m) (sc + o) = h.(h_regs) r.
Proof.
  intros Hr H. rewrite (load_save _ _ _ _ r) by (done || apply (bool_decide_unpack _); vm_compute; done).
  by apply u64_reg.
Qed.

Ltac timer_side :=
  first [done | apply (bool_decide_unpack _); vm_compute; done
    | intros o H; apply list_elem_of_In in H; simpl in H; intuition congruence
    | rewrite !list_elem_of_In in *; simpl in *; intuition congruence].

(** The entry: the registers are saved, [a1] and [a2] loaded. *)
Lemma timer_enter p h :
  let sc := h.(h_csrs) mscratch in
  h.(h_priv) = Machine → 0 ≤ sc → sc + 40 ≤ 2 ^ 64 →
  ∃ h', execute (csrrw a0 mscratch a0 :: saves a0 timer_saved ++ restores a0 [(a1, 24); (a2, 32)] ++ p) h = execute p h' ∧
    h'.(h_priv) = Machine ∧ h'.(h_mem) = save_mem sc h.(h_regs) timer_saved h.(h_mem) ∧
    h'.(h_csrs) mscratch = h.(h_regs) a0 ∧ h'.(h_regs) a0 = sc ∧
    h'.(h_regs) a1 = load64 h.(h_mem) (sc + 24) ∧ h'.(h_regs) a2 = load64 h.(h_mem) (sc + 32) ∧
    ∀ r, r ∉ [a0; a1; a2] → h'.(h_regs) r = h.(h_regs) r.
Proof.
  intros sc Hp Hs0 Hs1. asm_step. fold sc. set (h0 := set_reg a0 sc _).
  assert (H0 : h0.(h_priv) = Machine ∧ h0.(h_mem) = h.(h_mem) ∧ h0.(h_csrs) mscratch = h.(h_regs) a0 ∧
    h0.(h_regs) a0 = sc ∧ ∀ r, r ≠ a0 → h0.(h_regs) r = h.(h_regs) r).
  { split_and!; [done..|]. intros r Hne. exact (set_reg_ne a0 sc (set_csr mscratch (h.(h_regs) a0) h) r Hne). }
  clearbody h0. destruct H0 as (Hp0 & Hm0 & Hsc0 & Ha0 & Hr0).
  rewrite (exec_saves a0 sc) by (rewrite Ha0; apply machine_mapped; [done..|repeat constructor; simpl; lia]).
  rewrite Hm0, (save_mem_ext _ _ h.(h_regs)).
  2:{ intros r o H. apply Hr0. apply list_elem_of_In in H. simpl in H. intuition congruence. }
  edestruct (exec_restores a0 sc [(a1, 24); (a2, 32)]) as (R & -> & Hin & Hout);
    [cbn; rewrite Ha0; apply machine_mapped; [done..|repeat constructor; simpl; lia]|timer_side..|].
  eexists. split; [reflexivity|]. cbn [h_mem h_regs h_csrs h_priv set_mem] in *.
  rewrite (Hin a1 24), (Hin a2 32), !Hout by (timer_side || (apply list_elem_of_In; simpl; tauto)).
  split_and!; [done..| | |].
  1,2: apply load_ext; intros x Hx; apply timer_saved_frame; lia.
  intros r Hn. rewrite Hout, Hr0; timer_side.
Qed.

(** [timervec] in machine mode, with [mscratch] pointing to the area that
    [timerinit] filled, schedules the next interrupt one interval after the last
    one, raises a supervisor software interrupt, and returns with all registers
    and [mscratch] as they were; of memory it changes the three words of its
    save area and [mtimecmp] only. *)
Theorem timervec_spec h :
  let scratch := h.(h_csrs) mscratch in let m := h.(h_mem) in
  let cmp := load64 m (scratch + 24) in let interval := load64 m (scratch + 32) in
  h.(h_priv) = Machine → regs_ok h → timer_area scratch cmp →
  ∃ h', execute timervec h = Some (Mret, h') ∧ (∀ r, h'.(h_regs) r = h.(h_regs) r) ∧
    h'.(h_csrs) mscratch = scratch ∧ h'.(h_csrs) sip = 2 ∧
    load64 h'.(h_mem) cmp = u64 (load64 m cmp + interval) ∧
    ∀ x, (x < scratch ∨ scratch + 24 ≤ x) → (x < cmp ∨ cmp + 8 ≤ x) → byte_at h'.(h_mem) x = byte_at m x.
Proof.
  intros sc m cmp interval Hp Hr (Hs0 & Hs1 & Hc & Hd).
  change timervec with (csrrw a0 mscratch a0 :: saves a0 timer_saved ++ restores a0 [(a1, 24); (a2, 32)] ++
    ld a3 0 a1 :: add a3 a3 a2 :: sd a3 0 a1 :: li a1 2 :: csrw sip a1 ::
    restores a0 [(a3, 16); (a2, 8); (a1, 0)] ++ [csrrw a0 mscratch a0; mret]).
  edestruct timer_enter as (h1 & -> & Hp1 & Hm1 & Hsc1 & H0 & H1 & H2 & Hr1); [done..|].
  edestruct (timer_rearm) as (h2 & -> & Hm2 & Hp2 & Hsip & Hsc2 & Hr2); [exact Hp1|exact H1|exact Hc|].
  fold sc m cmp interval in Hm1, H0, H1, H2. fold m sc cmp in Hm2. rewrite H2, Hm1 in Hm2.
  set (m1 := save_mem sc _ _ _) in *.
  assert (Hcmp : load64 m1 cmp = load64 m cmp)
    by (apply load_ext; intros x Hx; apply timer_saved_frame; lia).
  assert (Hs : ∀ r o, (r, o) ∈ timer_saved → load64 h2.(h_mem) (sc + o) = h.(h_regs) r).
  { intros r o H. rewrite Hm2, load_store_disjoint; [by apply timer_saved_load|].
    apply list_elem_of_In in H. simpl in H. intuition (simplify_eq; lia). }
  assert (H20 : h2.(h_regs) a0 = sc) by by rewrite Hr2.
  edestruct (exec_restores a0 sc [(a3, 16); (a2, 8); (a1, 0)]) as (R & -> & Hin & Hout);
    [rewrite H20; apply machine_mapped; [done..|repeat constructor; simpl; lia]|timer_side..|].
  eexists. split; [reflexivity|]. split_and!.
  - intros r. destruct (decide (r = a0)) as [->|Hne].
    { rewrite set_reg_eq by done. cbn. by rewrite Hsc2. }
    rewrite set_reg_ne by done. cbn [h_regs set_csr].
    destruct (decide (r ∈ timer_saved.*1)) as [([r' o] & -> & H)%list_elem_of_fmap|Hn].
    + cbn [fst]. rewrite (Hin r' o); [by apply Hs|]. revert H. rewrite !list_elem_of_In. simpl. tauto.
    + rewrite Hout, Hr2, Hr1; timer_side.
  - cbn. by rewrite Hout by timer_side.
  - done.
  - cbn [h_mem set_reg set_csr]. rewrite Hm2, (load_store_same 8), Hcmp. apply Z.mod_mod. lia.
  - intros x Hx Hx'. cbn [h_mem set_reg set_csr]. rewrite Hm2, byte_at_store by lia. by apply timer_saved_frame.
Qed.
(** ** Start-up *)

(** [_entry] calls [start] on a stack of its own for each hart, the slice of
    [stack0] that ends at [stack0 + 4096 * (hartid + 1)], and stops if [start]
    returns. *)
Lemma entry_stack h :
  let hartid := h.(h_csrs) mhartid in
  0 ≤ hartid < Z.of_nat NCPU → 0 ≤ symbol "stack0" → symbol "stack0" + 4096 * Z.of_nat NCPU < 2 ^ 64 →
  ∃ h1, h1.(h_regs) sp = symbol "stack0" + 4096 * (hartid + 1) ∧ h1.(h_mem) = h.(h_mem) ∧
    execute entry h = pair (Goto "spin") <$> callee "start" h1.
Proof.
  intros hartid Hh Hs0 Hs1. change (Z.of_nat NCPU) with 8 in *.
  unfold entry. do 6 asm_step. set (h1 := set_reg sp _ _).
  exists h1. split_and!; [|done|].
  - change (u64 (u64 (symbol "stack0") + u64 (4096 * u64 (hartid + 1))) = symbol "stack0" + 4096 * (hartid + 1)).
    unfold u64. rewrite (Z.mod_small (hartid + 1)) by lia. lia.
  - simpl. by destruct (callee "start" h1).
Qed.

End Machine.

(** ** System call stubs *)

(** The names and the numbers of [kernel/syscall.h]. *)
Variant syscall_name : Type :=
  | SYS_fork | SYS_exit | SYS_wait | SYS_pipe | SYS_read | SYS_kill | SYS_exec | SYS_fstat
  | SYS_chdir | SYS_dup | SYS_getpid | SYS_sbrk | SYS_sleep | SYS_uptime | SYS_open | SYS_write
  | SYS_mknod | SYS_unlink | SYS_link | SYS_mkdir | SYS_close | SYS_rcusync | SYS_rcureadlock
  | SYS_rcureadunlock | SYS_thread_create | SYS_thread_join | SYS_thread_exit | SYS_klist_insert
  | SYS_klist_delete | SYS_klist_query | SYS_klist_print.

Definition syscall_number (c : syscall_name) : Z :=
  match c with
  | SYS_fork => 1 | SYS_exit => 2 | SYS_wait => 3 | SYS_pipe => 4 | SYS_read => 5
  | SYS_kill => 6 | SYS_exec => 7 | SYS_fstat => 8 | SYS_chdir => 9 | SYS_dup => 10
  | SYS_getpid => 11 | SYS_sbrk => 12 | SYS_sleep => 13 | SYS_uptime => 14 | SYS_open => 15
  | SYS_write => 16 | SYS_mknod => 17 | SYS_unlink => 18 | SYS_link => 19 | SYS_mkdir => 20
  | SYS_close => 21 | SYS_rcusync => 22 | SYS_rcureadlock => 23 | SYS_rcureadunlock => 24
  | SYS_thread_create => 25 | SYS_thread_join => 26 | SYS_thread_exit => 27
  | SYS_klist_insert => 28 | SYS_klist_delete => 29 | SYS_klist_query => 30
  | SYS_klist_print => 31
  end.

(** [user/usys.S]: the stubs, by name. *)
Definition usys : list (string * list instr) := [
  ("fork", stub (syscall_number SYS_fork));
  ("exit", stub (syscall_number SYS_exit));
  ("wait", stub (syscall_number SYS_wait));
  ("pipe", stub (syscall_number SYS_pipe));
  ("read", stub (syscall_number SYS_read));
  ("write", stub (syscall_number SYS_write));
  ("close", stub (syscall_number SYS_close));
  ("kill", stub (syscall_number SYS_kill));
  ("exec", stub (syscall_number SYS_exec));
  ("open", stub (syscall_number SYS_open));
  ("mknod", stub (syscall_number SYS_mknod));
  ("unlink", stub (syscall_number SYS_unlink));
  ("fstat", stub (syscall_number SYS_fstat));
  ("link", stub (syscall_number SYS_link));
  ("mkdir", stub (syscall_number SYS_mkdir));
  ("chdir", stub (syscall_number SYS_chdir));
  ("dup", stub (syscall_number SYS_dup));
  ("getpid", stub (syscall_number SYS_getpid));
  ("sbrk", stub (syscall_number SYS_sbrk));
  ("sleep", stub (syscall_number SYS_sleep));
  ("uptime", stub (syscall_number SYS_uptime));
  ("rcureadlock", stub (syscall_number SYS_rcureadlock));
  ("rcureadunlock", stub (syscall_number SYS_rcureadunlock));
  ("rcusync", stub (syscall_number SYS_rcusync));
  ("thread_create", stub (syscall_number SYS_thread_create));
  ("thread_join", stub (syscall_number SYS_thread_join));
  ("thread_exit", stub (syscall_number SYS_thread_exit));
  ("klist_insert", stub (syscall_number SYS_klist_insert));
  ("klist_delete", stub (syscall_number SYS_klist_delete));
  ("klist_query", stub (syscall_number SYS_klist_query));
  ("klist_print", stub (syscall_number SYS_klist_print)) ].

Section Stubs.
Context {HK : KernelImage} {WB : WaitBound} {BD : BlockDev}.
Context (xlate : Z → Z → option Z) (symbol : string → Z) (callee : string → hart → option hart).

(** The kernel's function for a system call of the user interface. *)
Definition handler (pad : list Z) (name : string) : option (M kstate Z) :=
  (λ x, x.2.2) <$> list_find (λ x, x.1 = name) [
    ("fork", sys_fork);
    ("exit", sys_exit);
    ("wait", sys_wait);
    ("pipe", sys_pipe);
    ("read", sys_read);
    ("write", sys_write);
    ("close", sys_close);
    ("kill", sys_kill);
    ("exec", sys_exec);
    ("open", sys_open);
    ("mknod", sys_mknod);
    ("unlink", sys_unlink);
    ("fstat", sys_fstat pad);
    ("link", sys_link);
    ("mkdir", sys_mkdir);
    ("chdir", sys_chdir);
    ("dup", sys_dup);
    ("getpid", sys_getpid);
    ("sbrk", sys_sbrk);
    ("sleep", sys_sleep);
    ("uptime", sys_uptime);
    ("rcureadlock", sys_rcureadlock);
    ("rcureadunlock", sys_rcureadunlock);
    ("rcusync", sys_rcusync);
    ("thread_create", sys_thread_create);
    ("thread_join", sys_thread_join);
    ("thread_exit", sys_thread_exit);
    ("klist_insert", sys_klist_insert);
    ("klist_delete", sys_klist_delete);
    ("klist_query", sys_klist_query);
    ("klist_print", sys_klist_print) ].

(** The numbers of the stubs agree with the kernel's table: the stub of every
    system call traps with a number in [a7] for which [syscall] runs the
    function of that name, and changes no other register. *)
Lemma stub_dispatch pad name code h :
  (name, code) ∈ usys →
  ∃ num f, execute xlate symbol callee code h = Some (Trap, set_reg a7 num h) ∧
    syscalls pad (s32 num) = Some f ∧ handler pad name = Some f.
Proof.
  intros H. apply list_elem_of_In in H. simpl in H.
  repeat (destruct H as [[= <- <-]|H]; [eexists _, _; split_and!; reflexivity|]). done.
Qed.
End Stubs.

(** ** [user/initcode.S] *)

Definition regno (r : reg) : Z :=
  match r with zero => 0 | ra => 1 | a0 => 10 | a1 => 11 | a7 => 17 | _ => 0 end.

(** The encodings of the instructions of [initcode.S]. *)
Definition enc_auipc (rd : reg) (imm : Z) : Z := Z.lor (Z.shiftl imm 12) (Z.lor (Z.shiftl (regno rd) 7) 0x17).
Definition enc_addi (rd rs : reg) (imm : Z) : Z :=
  Z.lor (Z.shiftl (imm mod 2 ^ 12) 20) (Z.lor (Z.shiftl (regno rs) 15) (Z.lor (Z.shiftl (regno rd) 7) 0x13)).
Definition enc_ecall : Z := 0x73.
Definition bits (x hi lo : Z) : Z := Z.land (Z.shiftr x lo) (Z.ones (hi - lo + 1)).
Definition enc_jal (rd : reg) (off : Z) : Z :=
  let o := off mod 2 ^ 21 in
  Z.lor (Z.shiftl (bits o 20 20) 31) (Z.lor (Z.shiftl (bits o 10 1) 21) (Z.lor (Z.shiftl (bits o 11 11) 20)
    (Z.lor (Z.shiftl (bits o 19 12) 12) (Z.lor (Z.shiftl (regno rd) 7) 0x6f)))).

(** [la r, label] at address [pc]: two instructions. *)
Definition enc_la (r : reg) (pc label : Z) : list Z := [enc_auipc r 0; enc_addi r r (label - pc)].

(** The program, assembled at address 0: [start] at 0, [exit] at 24, [init] at
    36, and [argv] at the given address, with padding up to it. *)
Definition initcode_S (argv : Z) : list Z :=
  let code := enc_la a0 0 36 ++ enc_la a1 8 argv ++ [enc_addi a7 zero (syscall_number SYS_exec); enc_ecall] ++
    [enc_addi a7 zero (syscall_number SYS_exit); enc_ecall; enc_jal ra (24 - 32)] in
  let text := (code ≫= le_bytes 4) ++ cstring "/init" ++ [0] in
  text ++ replicate (Z.to_nat argv - length text) 0 ++ le_bytes 4 36 ++ le_bytes 4 0.

(** The bytes [initcode] of [kernel/proc.c] are those of the program with [argv]
    right after the string, at the odd address 43, and one byte of padding at
    the end; with the [.p2align 2] of the source, [argv] is at 44 and the bytes
    differ. *)
Lemma initcode_assembled :
  initcode = initcode_S 43 ++ [0] ∧ initcode ≠ initcode_S 44 ∧ length (initcode_S 44) = length initcode.
Proof. split_and!; by vm_compute. Qed.

(** ** Concrete runs *)

Definition demo_regs (r : reg) : Z := match r with a0 => 4096 | a1 => 8192 | sp => 16384 | s5 => 42 | _ => 7 end.
Definition demo_hart (p : priv) (m : mem) : hart :=
  mk_hart demo_regs (λ c, match c with mscratch => 0x80010000 | _ => 3 end) p m.
Definition xlate_tf (_ va : Z) : option Z := Some (0x87fff000 + (va - TRAPFRAME)).
Definition xlate_id (_ va : Z) : option Z := Some va.

Lemma demo_regs_ok p m : regs_ok (demo_hart p m).
Proof. by intros []. Qed.


Lemma swtch_roundtrip_witness :
  ∃ h', execute xlate_id (λ _, 0) (λ _ _, None) swtch (demo_hart Supervisor ∅) = Some (Jump 0, h') ∧
    h'.(h_regs) sp = 0.
Proof.
  assert (Hm : ∀ c, 0 ≤ c < 2 ^ 63 → context_mapped xlate_id (demo_hart Supervisor ∅) c).
  { intros c Hc. apply Forall_forall. intros [r o] H. destruct (context_reg_ok _ _ H) as (? & _).
    cbn. unfold xlate_id, u64. f_equal. lia. }
  destruct (swtch_roundtrip xlate_id (λ _, 0) (λ _ _, None) (demo_hart Supervisor ∅))
    as (h' & E & HR & _); [apply demo_regs_ok|by apply Hm|by apply Hm|cbn; lia|].
  rewrite load_empty in E. exists h'. split; [exact E|].
  rewrite (HR sp 8) by (apply list_elem_of_In; simpl; tauto). apply load_empty.
Defined.

(** A [kerneltrap] that moves the thread to hart 5. *)
Definition demo_kerneltrap (f : string) (h : hart) : option hart := Some (set_reg tp 5 h).

Lemma kernelvec_transparent_witness :
  ∃ h', execute xlate_id (λ _, 0) demo_kerneltrap kernelvec (demo_hart Supervisor ∅) = Some (Sret, h') ∧
    h'.(h_regs) sp = 16384 ∧ h'.(h_regs) s5 = 42 ∧ h'.(h_regs) tp = 5.
Proof.
  edestruct (kernelvec_transparent xlate_id (λ _, 0) demo_kerneltrap (16384 - 256) (demo_hart Supervisor ∅))
    as (h' & E & _ & HR & Ht); [apply demo_regs_ok| |reflexivity|done|].
  - repeat (constructor; [reflexivity|]). constructor.
  - exists h'. split_and!; [exact E|by apply HR..|exact Ht].
Defined.

Lemma timervec_spec_witness :
  ∃ h', execute xlate_id (λ _, 0) (λ _ _, None) timervec
      (demo_hart Machine (store64 (0x80010000 + 24) 0x2004000 (store64 (0x80010000 + 32) 1000000 ∅)))
      = Some (Mret, h') ∧ load64 h'.(h_mem) 0x2004000 = 1000000.
Proof.
  destruct (timervec_spec xlate_id (λ _, 0) (λ _ _, None)
    (demo_hart Machine (store64 (0x80010000 + 24) 0x2004000 (store64 (0x80010000 + 32) 1000000 ∅))))
    as (h' & E & _ & _ & _ & Hl & _); [done|apply demo_regs_ok|split_and!; [by vm_compute..|left; by vm_compute]|].
  exists h'. split; [exact E|]. exact Hl.
Defined.
