(* ===== verification/User.v ===== *)
(** * User processes ([user/user.h], [user/usys.S])

    A user program is a tree of the system calls it makes: a node is a call,
    its branches are the answers of the kernel.  The variables of the program
    live in the closures of the tree, so that [fork], which duplicates the
    memory of a process, is a node whose tree continues twice, once with the
    answer 0.  [run] plays a program against an operating system; [Streams] is
    what the programs that copy and filter bytes rely on. *)

From S2P Require Import Prelude Cstring Fs.

(** ** System calls *)

(** The calls of [user.h] with their arguments, and the type of the answer: the
    value returned and what the kernel stores through the pointer arguments.  A
    path is the list of its characters, without the final 0. *)
Inductive sys : Type → Type :=
| Fork : sys Z
| Wait : sys (Z * Z)
| Pipe : sys (Z * (Z * Z))
| Write (fd : Z) (bs : list Z) : sys Z
| Read (fd n : Z) : sys (Z * list Z)
| Close (fd : Z) : sys Z
| Kill (pid : Z) : sys Z
| Exec (path : list Z) (argv : list (list Z)) : sys Z
| Open (path : list Z) (mode : Z) : sys Z
| Mknod (path : list Z) (major minor : Z) : sys Z
| Unlink (path : list Z) : sys Z
| Fstat (fd : Z) : sys (Z * stat)
| Link (old new : list Z) : sys Z
| Mkdir (path : list Z) : sys Z
| Chdir (path : list Z) : sys Z
| Dup (fd : Z) : sys Z
| Getpid : sys Z
| Sbrk (n : Z) : sys Z
| Sleep (n : Z) : sys Z
| Uptime : sys Z
| Rcureadlock : sys Z
| Rcureadunlock : sys Z
| Rcusync : sys Z
| Klist_insert (count is_rcu : Z) : sys Z
| Klist_delete (key is_rcu : Z) : sys Z
| Klist_query (key is_rcu : Z) : sys Z
| Klist_print : sys Z.

(** ** Programs *)

(** A program returns (from the function that is modelled), calls [exit], makes
    a system call, or is killed for an access outside its memory; [Hang] stands
    for a loop that exceeds the bound given to it in the model. *)
Inductive uprog (A : Type) : Type :=
| Ret (a : A)
| Exit (status : Z)
| Call {R : Type} (c : sys R) (k : R → uprog A)
| Segv
| Hang.

Arguments Ret {A} a.
Arguments Exit {A} status.
Arguments Call {A R} c k.
Arguments Segv {A}.
Arguments Hang {A}.

Fixpoint ubind {A B : Type} (m : uprog A) (f : A → uprog B) : uprog B :=
  match m with
  | Ret a => f a
  | Exit n => Exit n
  | Call c k => Call c (λ r, ubind (k r) f)
  | Segv => Segv
  | Hang => Hang
  end.

#[global] Instance uprog_ret : MRet uprog := λ A a, Ret a.
#[global] Instance uprog_bind : MBind uprog := λ A B f m, ubind m f.

Definition call {R : Type} (c : sys R) : uprog R := Call c Ret.

(** Reading through a pointer that may be outside its object. *)
Definition opt_or_segv {A} (o : option A) : uprog A :=
  match o with Some a => Ret a | None => Segv end.

(** Reduce a program that starts by returning a value. *)
Ltac ustep := cbn [mbind uprog_bind ubind mret uprog_ret opt_or_segv].

Fixpoint uloop {X R : Type} (fuel : nat) (body : X → uprog (X + R)) (x : X) : uprog R :=
  match fuel with
  | O => Hang
  | S fuel =>
      r ← body x;
      match r with inl x' => uloop fuel body x' | inr v => mret v end
  end.

Fixpoint ufor {A : Type} (l : list A) (body : A → uprog unit) : uprog unit :=
  match l with
  | [] => mret tt
  | x :: l => body x;; ufor l body
  end.

(** ** Running a program *)

(** An operating system answers a call, or never does. *)
Definition os (W : Type) : Type := ∀ R : Type, sys R → W → option (R * W).

Variant uresult (W A : Type) : Type :=
| Returned (a : A) (w : W)
| Exited (status : Z) (w : W)
| Blocked (w : W)
| Segfault (w : W)
| Hung.

Arguments Returned {W A} a w.
Arguments Exited {W A} status w.
Arguments Blocked {W A} w.
Arguments Segfault {W A} w.
Arguments Hung {W A}.

Fixpoint run {W A : Type} (h : os W) (m : uprog A) (w : W) : uresult W A :=
  match m with
  | Ret a => Returned a w
  | Exit n => Exited n w
  | Call c k => match h _ c w with Some (r, w') => run h (k r) w' | None => Blocked w end
  | Segv => Segfault w
  | Hang => Hung
  end.

Definition rbind {W A B : Type} (r : uresult W A) (f : A → W → uresult W B) : uresult W B :=
  match r with
  | Returned a w => f a w
  | Exited n w => Exited n w
  | Blocked w => Blocked w
  | Segfault w => Segfault w
  | Hung => Hung
  end.

Section Run.
Context {W : Type} (h : os W).

Lemma run_bind {A B} (m : uprog A) (f : A → uprog B) w :
  run h (m ≫= f) w = rbind (run h m w) (λ a w', run h (f a) w').
Proof.
  revert w. induction m as [a|n|R c k IH| |]; intros w; simpl; try done.
  destruct (h R c w) as [[r w']|]; [apply IH|done].
Qed.

Lemma run_call {R} (c : sys R) w r w' : h R c w = Some (r, w') → run h (call c) w = Returned r w'.
Proof. intros H. simpl. by rewrite H. Qed.

Lemma run_bind_returned {A B} (m : uprog A) (f : A → uprog B) w a w' :
  run h m w = Returned a w' → run h (m ≫= f) w = run h (f a) w'.
Proof. intros H. by rewrite run_bind, H. Qed.

Lemma run_bind_exited {A B} (m : uprog A) (f : A → uprog B) w n w' :
  run h m w = Exited n w' → run h (m ≫= f) w = Exited n w'.
Proof. intros H. by rewrite run_bind, H. Qed.

Lemma run_some {A B} (a : A) (f : A → uprog B) w : run h (opt_or_segv (Some a) ≫= f) w = run h (f a) w.
Proof. done. Qed.

End Run.

(** ** Byte streams *)

(** A system in which some descriptors can be read and some written, without
    errors: [unread fd w] are the bytes that [read] has yet to give, [written fd
    w] those given to [write].  A read gives at least one byte as long as there
    are any, but as few as it likes. *)
Class Streams {W : Type} (h : os W) : Type := {
  unread : Z → W → list Z;
  written : Z → W → list Z;
  read_spec fd n w :
    0 ≤ n →
    ∃ (k : nat) w', h _ (Read fd n) w = Some ((Z.of_nat k, take k (unread fd w)), w') ∧
      Z.of_nat k ≤ n ∧ (k ≤ length (unread fd w))%nat ∧ (0 < n → unread fd w ≠ [] → (0 < k)%nat) ∧
      unread fd w' = drop k (unread fd w) ∧ (∀ fd', fd' ≠ fd → unread fd' w' = unread fd' w) ∧
      (∀ fd', written fd' w' = written fd' w);
  write_spec fd bs w :
    ∃ w', h _ (Write fd bs) w = Some (Z.of_nat (length bs), w') ∧
      written fd w' = written fd w ++ bs ∧ (∀ fd', fd' ≠ fd → written fd' w' = written fd' w) ∧
      (∀ fd', unread fd' w' = unread fd' w)
}.

(** A system that gives at most [chunk + 1] bytes for each read. *)
Record pipes : Type := mk_pipes { p_in : Z → list Z; p_out : Z → list Z }.

Definition pipes_os (chunk : nat) : os pipes := λ R c w,
  match c in sys R return option (R * pipes) with
  | Read fd n =>
      let k := Nat.min (Nat.min (Z.to_nat n) (S chunk)) (length (w.(p_in) fd)) in
      Some ((Z.of_nat k, take k (w.(p_in) fd)),
        mk_pipes (λ x, if x =? fd then drop k (w.(p_in) fd) else w.(p_in) x) w.(p_out))
  | Write fd bs =>
      Some (Z.of_nat (length bs),
        mk_pipes w.(p_in) (λ x, if x =? fd then w.(p_out) fd ++ bs else w.(p_out) x))
  | Fork => None | Wait => None | Pipe => None | Fstat _ => None
  | _ => Some (-1, w)
  end.

#[global] Instance pipes_streams chunk : Streams (pipes_os chunk).
Proof.
  refine {| unread := λ fd w, w.(p_in) fd; written := λ fd w, w.(p_out) fd |}.
  - intros fd n w Hn. eexists _, _. split; [reflexivity|]. cbn [p_in p_out].
    split_and!; try lia; [|by rewrite Z.eqb_refl| |done].
    + intros ? Hne. destruct (w.(p_in) fd); [done|]. simpl. lia.
    + intros fd' Hne. by rewrite (proj2 (Z.eqb_neq _ _) Hne).
  - intros fd bs w. eexists. split; [reflexivity|]. cbn [p_in p_out].
    split_and!; [by rewrite Z.eqb_refl| |done].
    intros fd' Hne. by rewrite (proj2 (Z.eqb_neq _ _) Hne).
Defined.

(** [emits fd bs w w']: between the two states, [bs] was written to [fd] and
    nothing else. *)
Section Emits.
Context {W : Type} (h : os W) `{!Streams h}.

Definition emits (fd : Z) (bs : list Z) (w w' : W) : Prop :=
  written fd w' = written fd w ++ bs ∧ (∀ fd', fd' ≠ fd → written fd' w' = written fd' w) ∧
  (∀ fd', unread fd' w' = unread fd' w).

Lemma emits_nil fd w : emits fd [] w w.
Proof. split_and!; [by rewrite app_nil_r|done..]. Qed.

Lemma emits_app fd bs bs' w w1 w2 : emits fd bs w w1 → emits fd bs' w1 w2 → emits fd (bs ++ bs') w w2.
Proof.
  intros (A & B & C) (A' & B' & C'). split_and!.
  - by rewrite A', A, app_assoc.
  - intros fd' Hne. by rewrite B', B.
  - intros fd'. by rewrite C', C.
Qed.

Lemma run_write fd bs w :
  ∃ w', run h (call (Write fd bs)) w = Returned (Z.of_nat (length bs)) w' ∧ emits fd bs w w'.
Proof.
  destruct (write_spec fd bs w) as (w' & E & H). exists w'. split; [by apply run_call|done].
Qed.

(** A loop of writes. *)
Lemma run_ufor_emits {A} (l : list A) (body : A → uprog unit) (out : A → list Z) fd w :
  (∀ a w, a ∈ l → ∃ w', run h (body a) w = Returned tt w' ∧ emits fd (out a) w w') →
  ∃ w', run h (ufor l body) w = Returned tt w' ∧ emits fd (l ≫= out) w w'.
Proof.
  revert w. induction l as [|a l IH]; intros w H; cbn [ufor].
  { exists w. split; [done|apply emits_nil]. }
  destruct (H a w (list_elem_of_here _ _)) as (w1 & E1 & M1). rewrite (run_bind_returned _ _ _ _ _ _ E1).
  destruct (IH w1) as (w2 & E2 & M2). { intros b w' Hb. apply H. by right. }
  exists w2. split; [done|]. cbn [mbind list_bind]. by apply emits_app with w1.
Qed.

End Emits.

(** ** Total correctness

    [uwp m Q]: whatever the system answers, the program neither leaves its
    memory nor exceeds the bounds of the model, and if it returns, it returns a
    value that satisfies [Q]. *)

Fixpoint uwp {A : Type} (m : uprog A) (Q : A → Prop) : Prop :=
  match m with
  | Ret a => Q a
  | Exit _ => True
  | Call c k => ∀ r, uwp (k r) Q
  | Segv => False
  | Hang => False
  end.

Lemma uwp_bind {A B} (m : uprog A) (f : A → uprog B) Q : uwp m (λ a, uwp (f a) Q) → uwp (m ≫= f) Q.
Proof. induction m as [a|n|R c k IH| |]; simpl; try done. intros H r. apply IH, H. Qed.

Lemma uwp_mono {A} (m : uprog A) (Q Q' : A → Prop) : uwp m Q → (∀ a, Q a → Q' a) → uwp m Q'.
Proof. intros H HQ. induction m as [a|n|R c k IH| |]; simpl in *; auto. Qed.

Lemma uwp_ret {A B} (a : A) (f : A → uprog B) Q : uwp (f a) Q → uwp (Ret a ≫= f) Q.
Proof. done. Qed.

(** A loop in which every turn decreases a measure. *)
Lemma uwp_loop {X R} (body : X → uprog (X + R)) (μ : X → nat) (I : X → Prop) (Q : R → Prop) :
  (∀ x, I x → uwp (body x) (λ r, match r with inl x' => I x' ∧ (μ x' < μ x)%nat | inr v => Q v end)) →
  ∀ fuel x, I x → (μ x < fuel)%nat → uwp (uloop fuel body x) Q.
Proof.
  intros Hb fuel. induction fuel as [|fuel IH]; intros x Hx Hf; [lia|]. cbn [uloop]. apply uwp_bind.
  apply uwp_mono with (1 := Hb x Hx). intros [x'|v]; [|done]. intros [Hx' Hμ]. apply IH; [done|lia].
Qed.
