(* ===== verification/Ulib.v ===== *)
(** * The user library ([user/ulib.c])

    Character arrays are lists of bytes and a pointer into an array is an
    offset; a function that reads a string is given the bytes of the array from
    the pointer on.  [None] stands for an access past the end of the array.  On
    RISC-V a [char] is unsigned. *)

From Stdlib Require Import Ascii.
From S2P Require Import Prelude Cstring Fs User.

(** Character constants and string constants (without the terminator), with the
    escapes of C. *)
Definition ch (a : ascii) : Z := Z.of_N (Ascii.N_of_ascii a).
Arguments ch a%_char.

Definition escape (c : Z) : Z :=
  if c =? ch "n" then 10 else if c =? ch "r" then 13 else if c =? ch "t" then 9
  else if c =? ch "v" then 11 else c.

Fixpoint unescape (s : list Z) : list Z :=
  match s with
  | c :: ((d :: r) as t) => if c =? 92 then escape d :: unescape r else c :: unescape t
  | _ => s
  end.

Definition chars (s : string) : list Z := unescape (ch <$> String.list_ascii_of_string s).

Definition newline : Z := 10.

(** ** Strings *)

(** The array at [s] after [strcpy(s, t)]. *)
Fixpoint strcpy (s t : list Z) : option (list Z) :=
  match s, t with
  | _ :: s, c :: t => if c =? 0 then Some (c :: s) else r ← strcpy s t; Some (c :: r)
  | _, _ => None
  end.

Fixpoint strcmp (p q : list Z) : option Z :=
  match p, q with
  | c :: p', d :: q' => if negb (c =? 0) && (c =? d) then strcmp p' q' else Some (u8 c - u8 d)
  | _, _ => None
  end.

Fixpoint strlen (s : list Z) : option Z :=
  match s with
  | [] => None
  | c :: s => if c =? 0 then Some 0 else n ← strlen s; Some (u32 (n + 1))
  end.

(** The array at [dst] after [memset(dst, c, n)]. *)
Fixpoint memset (dst : list Z) (c : Z) (n : nat) : option (list Z) :=
  match n, dst with
  | O, _ => Some dst
  | S n, _ :: dst => r ← memset dst c n; Some (u8 c :: r)
  | S n, [] => None
  end.

(** [Some None] is the null pointer, [Some (Some i)] is [s + i]. *)
Fixpoint strchr (s : list Z) (c : Z) : option (option nat) :=
  match s with
  | [] => None
  | x :: s =>
      if x =? 0 then Some None
      else if x =? c then Some (Some O)
      else r ← strchr s c; Some (option_map S r)
  end.

(** [while('0' <= *s && *s <= '9') n = n*10 + *s++ - '0'], in [int] arithmetic. *)
Fixpoint atoi_loop (n : Z) (s : list Z) : option Z :=
  match s with
  | [] => None
  | c :: s => if (48 <=? c) && (c <=? 57) then atoi_loop (s32 (n * 10 + c - 48)) s else Some n
  end.

Definition atoi (s : list Z) : option Z := atoi_loop 0 s.

(** ** Memory *)

(** [a[i] = v] *)
Definition put (a : list Z) (i : nat) (v : Z) : option (list Z) :=
  if (i <? length a)%nat then Some (<[i:=v]> a) else None.

(** Both pointers are offsets into the memory [a]. *)
Fixpoint memmove_fwd (a : list Z) (dst src n : nat) : option (list Z) :=
  match n with
  | O => Some a
  | S n => c ← a !! src; a' ← put a dst c; memmove_fwd a' (S dst) (S src) n
  end.

(** The copy from the end: [*--dst = *--src], with [dst] and [src] past the end. *)
Fixpoint memmove_bwd (a : list Z) (dst src n : nat) : option (list Z) :=
  match n with
  | O => Some a
  | S n => c ← a !! (src + n)%nat; a' ← put a (dst + n)%nat c; memmove_bwd a' dst src n
  end.

Definition memmove (a : list Z) (dst src : nat) (n : Z) : option (list Z) :=
  if (dst <? src)%nat then memmove_fwd a dst src (Z.to_nat n) else memmove_bwd a dst src (Z.to_nat n).

Definition memcpy (a : list Z) (dst src : nat) (n : Z) : option (list Z) := memmove a dst src (s32 n).

Fixpoint memcmp (s1 s2 : list Z) (n : nat) : option Z :=
  match n with
  | O => Some 0
  | S n =>
      match s1, s2 with
      | c1 :: s1, c2 :: s2 => if negb (c1 =? c2) then Some (c1 - c2) else memcmp s1 s2 n
      | _, _ => None
      end
  end.

(** ** Functions that make system calls *)

Definition _main (main : uprog Z) : uprog Z := main;; Exit 0.

(** One iteration of [gets]; the loop state is [i] and the array. *)
Definition gets_body (max : Z) (x : nat * list Z) : uprog (nat * list Z + nat * list Z) :=
  let '(i, buf) := x in
  if Z.of_nat i + 1 <? max then
    '(cc, bs) ← call (Read 0 1);
    if cc <? 1 then mret (inr (i, buf)) else
    c ← opt_or_segv (bs !! 0%nat);
    buf ← opt_or_segv (put buf i c);
    if (c =? newline) || (c =? 13) then mret (inr (S i, buf)) else mret (inl (S i, buf))
  else mret (inr (i, buf)).

Definition gets (buf : list Z) (max : Z) : uprog (list Z) :=
  '(i, buf) ← uloop (S (Z.to_nat max)) (gets_body max) (O, buf);
  opt_or_segv (put buf i 0).

(** [-1] and no [stat] when the file cannot be opened. *)
Definition stat (n : list Z) : uprog (Z * option Fs.stat) :=
  fd ← call (Open n 0);
  if fd <? 0 then mret (-1, None) else
  '(r, st) ← call (Fstat fd);
  call (Close fd);;
  mret (r, Some st).

(** ** Strings as C reads them *)

(** [str s]: the bytes before the first terminator. *)
Fixpoint str (s : list Z) : list Z :=
  match s with
  | [] => []
  | c :: s => if c =? 0 then [] else c :: str s
  end.

(** A string in an array: its characters are not 0, and a 0 follows them. *)
Definition no_nul (s : list Z) : Prop := Forall (λ c, c ≠ 0) s.

Lemma str_app s r : no_nul s → str (s ++ 0 :: r) = s.
Proof. induction 1 as [|c s Hc _ IH]; simpl; [done|]. rewrite (proj2 (Z.eqb_neq _ _) Hc). by rewrite IH. Qed.

Lemma str_no_nul s : no_nul (str s).
Proof. induction s as [|c s IH]; simpl; [constructor|]. destruct (Z.eqb_spec c 0); by constructor. Qed.

Lemma str_split s : 0 ∈ s → ∃ r, s = str s ++ 0 :: r.
Proof.
  induction s as [|c s IH]; intros H; [by apply elem_of_nil in H|]. simpl.
  destruct (Z.eqb_spec c 0) as [->|Hc]; [by exists s|].
  destruct IH as [r Hr]; [apply elem_of_cons in H; destruct H; congruence|]. exists r. simpl. by f_equal.
Qed.

Lemma strlen_str s r : no_nul s → Z.of_nat (length s) < 2 ^ 32 → strlen (s ++ 0 :: r) = Some (Z.of_nat (length s)).
Proof.
  induction 1 as [|c s Hc _ IH]; simpl; [done|]. intros Hl. rewrite (proj2 (Z.eqb_neq _ _) Hc).
  rewrite IH by lia. simpl. f_equal. unfold u32. rewrite Z.mod_small; lia.
Qed.

Lemma strcpy_str d s r :
  no_nul s → (length s < length d)%nat → strcpy d (s ++ 0 :: r) = Some (s ++ 0 :: drop (S (length s)) d).
Proof.
  intros Hs. revert d. induction Hs as [|c s Hc _ IH]; intros [|x d] Hl; simpl in *; try lia; [by rewrite drop_0|].
  rewrite (proj2 (Z.eqb_neq _ _) Hc), IH by lia. done.
Qed.

(** Two strings compare equal exactly when they are equal. *)
Lemma strcmp_str p q r r' :
  no_nul p → no_nul q → Forall (λ c, 0 ≤ c < 2 ^ 8) p → Forall (λ c, 0 ≤ c < 2 ^ 8) q →
  ∃ v, strcmp (p ++ 0 :: r) (q ++ 0 :: r') = Some v ∧ (v = 0 ↔ p = q).
Proof.
  intros Hp. revert q. induction Hp as [|c p Hc _ IH]; intros q Hq Rp Rq.
  - destruct q as [|d q]; simpl; [by eexists|]. eexists. split; [done|].
    apply Forall_cons in Hq as [Hd _]. apply Forall_cons in Rq as [Rd _]. unfold u8. split; [|done].
    rewrite Z.mod_0_l, (Z.mod_small d) by lia. lia.
  - apply Forall_cons in Rp as [Rc Rp]. destruct q as [|d q]; simpl.
    + rewrite (proj2 (Z.eqb_neq c 0) Hc). simpl. eexists. split; [done|]. split; [|done].
      unfold u8. rewrite Z.mod_0_l, (Z.mod_small c) by lia. lia.
    + apply Forall_cons in Hq as [Hd Hq]. apply Forall_cons in Rq as [Rd Rq].
      rewrite (proj2 (Z.eqb_neq c 0) Hc). simpl. destruct (Z.eqb_spec c d) as [->|Hcd].
      * destruct (IH q Hq Rp Rq) as (v & -> & Hv). exists v. split; [done|]. rewrite Hv. split; congruence.
      * eexists. split; [done|]. unfold u8. rewrite !Z.mod_small by lia. split; [lia|congruence].
Qed.

(** [strchr] finds the first occurrence in the string. *)
Lemma strchr_found s c r : c ≠ 0 → no_nul s → c ∉ s → strchr (s ++ c :: r) c = Some (Some (length s)).
Proof.
  intros H0. induction 1 as [|x s Hx _ IH]; intros Hn; simpl.
  - by rewrite (proj2 (Z.eqb_neq c 0) H0), Z.eqb_refl.
  - apply not_elem_of_cons in Hn as [Hcx Hn].
    rewrite (proj2 (Z.eqb_neq x 0) Hx), (proj2 (Z.eqb_neq x c)), IH by congruence. done.
Qed.

Lemma strchr_absent s c r : no_nul s → c ∉ s → strchr (s ++ 0 :: r) c = Some None.
Proof.
  induction 1 as [|x s Hx _ IH]; intros Hn; simpl; [done|]. apply not_elem_of_cons in Hn as [Hcx Hn].
  rewrite (proj2 (Z.eqb_neq x 0) Hx), (proj2 (Z.eqb_neq x c)), IH by congruence. done.
Qed.

(** ** [memmove] *)

Lemma put_in a i v : (i < length a)%nat → put a i v = Some (<[i:=v]> a).
Proof. intros H. unfold put. by rewrite (proj2 (Nat.ltb_lt _ _) H). Qed.

Lemma memmove_fwd_lookup a dst src n :
  (dst ≤ src)%nat → (src + n ≤ length a)%nat →
  ∃ a', memmove_fwd a dst src n = Some a' ∧ length a' = length a ∧
    ∀ k, a' !! k = if decide (dst ≤ k < dst + n)%nat then a !! (src + (k - dst))%nat else a !! k.
Proof.
  revert a dst src. induction n as [|n IH]; intros a dst src Hle Hn; simpl.
  { exists a. split_and!; [done..|]. intros k. by rewrite decide_False by lia. }
  destruct (lookup_lt_is_Some_2 a src) as [c Hc]; [lia|]. rewrite Hc. simpl. rewrite put_in by lia. simpl.
  destruct (IH (<[dst:=c]> a) (S dst) (S src)) as (a' & E & L & H); [lia|rewrite length_insert; lia|].
  exists a'. rewrite length_insert in L. split_and!; [done..|]. intros k. rewrite H.
  destruct (decide (S dst ≤ k < S dst + n)%nat).
  - rewrite decide_True by lia. rewrite list_lookup_insert_ne by lia. f_equal. lia.
  - destruct (decide (k = dst)) as [->|].
    + rewrite decide_True by lia. rewrite list_lookup_insert_eq by lia. rewrite <-Hc. f_equal. lia.
    + rewrite decide_False by lia. by rewrite list_lookup_insert_ne.
Qed.

Lemma memmove_bwd_lookup a dst src n :
  (src ≤ dst)%nat → (dst + n ≤ length a)%nat →
  ∃ a', memmove_bwd a dst src n = Some a' ∧ length a' = length a ∧
    ∀ k, a' !! k = if decide (dst ≤ k < dst + n)%nat then a !! (src + (k - dst))%nat else a !! k.
Proof.
  revert a. induction n as [|n IH]; intros a Hle Hn; simpl.
  { exists a. split_and!; [done..|]. intros k. by rewrite decide_False by lia. }
  destruct (lookup_lt_is_Some_2 a (src + n)%nat) as [c Hc]; [lia|]. rewrite Hc. simpl. rewrite put_in by lia. simpl.
  destruct (IH (<[(dst + n)%nat:=c]> a)) as (a' & E & L & H); [lia|rewrite length_insert; lia|].
  exists a'. rewrite length_insert in L. split_and!; [done..|]. intros k. rewrite H.
  destruct (decide (dst ≤ k < dst + n)%nat).
  - rewrite decide_True by lia. rewrite list_lookup_insert_ne by lia. done.
  - destruct (decide (k = dst + n)%nat) as [->|].
    + rewrite decide_True by lia. rewrite list_lookup_insert_eq by lia. rewrite <-Hc. f_equal. lia.
    + rewrite decide_False by lia. by rewrite list_lookup_insert_ne by lia.
Qed.

(** [memmove] copies the [n] bytes as they were, however the regions overlap. *)
Lemma memmove_ok a dst src n :
  0 ≤ n → (dst + Z.to_nat n ≤ length a)%nat → (src + Z.to_nat n ≤ length a)%nat →
  memmove a dst src n = Some (splice dst (take (Z.to_nat n) (drop src a)) a).
Proof.
  intros H0 Hd Hs. assert (L : length (take (Z.to_nat n) (drop src a)) = Z.to_nat n)
    by (rewrite length_take, length_drop; lia).
  assert (∃ a', memmove a dst src n = Some a' ∧ length a' = length a ∧
    ∀ k, a' !! k = if decide (dst ≤ k < dst + Z.to_nat n)%nat then a !! (src + (k - dst))%nat else a !! k)
    as (a' & -> & La & H).
  { unfold memmove. destruct (Nat.ltb_spec dst src); [apply memmove_fwd_lookup|apply memmove_bwd_lookup]; lia. }
  f_equal. apply list_eq. intros k. rewrite H, lookup_splice, L by lia.
  destruct (decide _); [|done]. by rewrite lookup_take_lt, lookup_drop by lia.
Qed.
