(* ===== verification/Ttest.v ===== *)
(** * Threads and the lock of the user library ([user/ulib.c], [user/ttest.c])

    The worker threads of [ttest.c]: each adds 1 to a shared counter [amount]
    times, and every addition is a load, a delay and a store between [acquire]
    and [release] of the user library's spin lock.  The model interleaves them:
    one access of the shared memory by one thread is one step.  Shown are mutual
    exclusion, that no addition is lost, and that the workers finish under
    every fair schedule.  The model is of threads that share their memory, which
    is what [ttest.c] is written for. *)

From Stdlib Require Import Ascii.
From S2P Require Import Prelude Ulib.

(** [struct balance] *)
Record balance : Type := mk_balance { b_name : list Z; b_amount : Z }.

Definition b1 : balance := mk_balance (chars "b1") 3200.
Definition b2 : balance := mk_balance (chars "b2") 2800.

(** ** The lock *)

(** [lk->locked] after [initlock]; an attempt of [acquire], which says whether
    the thread has the lock, and [release]. *)
Definition initlock : Z := 0.
Definition acquire (locked : Z) : bool * Z := (locked =? 0, 1).
Definition release (locked : Z) : Z := 0.

(** ** A worker *)

(** Where a thread that runs [do_work] is. *)
Variant wpc : Type :=
| W_start      (** the first [fprintf] *)
| W_test       (** [i < b->amount] *)
| W_acquire    (** in the loop of [acquire] *)
| W_load       (** [old = total_balance] *)
| W_delay      (** [delay(100000)] *)
| W_store      (** [total_balance = old + 1] *)
| W_release    (** [release(&thread_lock)] and [i++] *)
| W_done       (** the last [fprintf] *)
| W_exit.      (** after [thread_exit(0)] *)

Record worker : Type := mk_worker { w_b : balance; w_i : Z; w_old : Z; w_pc : wpc }.

Definition at_pc (w : worker) (p : wpc) : worker := mk_worker w.(w_b) w.(w_i) w.(w_old) p.

(** The variables that the threads share. *)
Record shared : Type := mk_shared { thread_lock : Z; total_balance : Z }.

(** One step of [do_work(b)]; [do_work2] is the same code with the global
    variable [b1] in the place of its argument. *)
Definition do_work (w : worker) (m : shared) : worker * shared :=
  match w.(w_pc) with
  | W_start => (at_pc w W_test, m)
  | W_test => (at_pc w (if w.(w_i) <? w.(w_b).(b_amount) then W_acquire else W_done), m)
  | W_acquire =>
      let '(got, l) := acquire m.(thread_lock) in
      (if got : bool then at_pc w W_load else w, mk_shared l m.(total_balance))
  | W_load => (mk_worker w.(w_b) w.(w_i) m.(total_balance) W_delay, m)
  | W_delay => (at_pc w W_store, m)
  | W_store => (at_pc w W_release, mk_shared m.(thread_lock) (s32 (w.(w_old) + 1)))
  | W_release =>
      (mk_worker w.(w_b) (s32 (w.(w_i) + 1)) w.(w_old) W_test, mk_shared (release m.(thread_lock)) m.(total_balance))
  | W_done => (at_pc w W_exit, m)
  | W_exit => (w, m)
  end.

Definition thread (b : balance) : worker := mk_worker b 0 0 W_start.

Record tsys : Type := mk_tsys { sh : shared; ws : list worker }.

Definition tstart (bs : list balance) : tsys := mk_tsys (mk_shared initlock 0) (thread <$> bs).

(** Thread [k] makes a step. *)
Definition tstep (s : tsys) (k : nat) : tsys :=
  match s.(ws) !! k with
  | Some w => let '(w', m) := do_work w s.(sh) in mk_tsys m (<[k := w']> s.(ws))
  | None => s
  end.

Definition trun (sched : list nat) (s : tsys) : tsys := foldl tstep s sched.

(** ** Sums over the threads *)

Definition sumw (f : worker → Z) (l : list worker) : Z := foldr (λ w n, f w + n) 0 l.

Lemma sumw_insert f l k w w' : l !! k = Some w → sumw f (<[k := w']> l) = sumw f l - f w + f w'.
Proof.
  revert k. induction l as [|v l IH]; intros [|k] H; simpl in *; simplify_eq; [lia|]. rewrite (IH _ H). lia.
Qed.

Lemma sumw_le f g l : (∀ w, w ∈ l → f w ≤ g w) → sumw f l ≤ sumw g l.
Proof.
  induction l as [|v l IH]; intros H; simpl; [done|].
  pose proof (H v (list_elem_of_here _ _)). assert (sumw f l ≤ sumw g l) by (apply IH; intros; apply H; by right). lia.
Qed.

Lemma sumw_sub f g l : sumw (λ w, f w - g w) l = sumw f l - sumw g l.
Proof. induction l as [|v l IH]; simpl; lia. Qed.

Lemma sumw_zero l : sumw (λ _, 0) l = 0.
Proof. by induction l. Qed.

Lemma sumw_nonneg f l : (∀ w, w ∈ l → 0 ≤ f w) → 0 ≤ sumw f l.
Proof. intros H. rewrite <-(sumw_zero l). by apply sumw_le. Qed.

Lemma sumw_one f l k w : (∀ w, w ∈ l → 0 ≤ f w) → l !! k = Some w → f w ≤ sumw f l.
Proof.
  revert k. induction l as [|u l IH]; intros [|k] H Hk; simpl in *; simplify_eq.
  - pose proof (sumw_nonneg f l ltac:(intros; apply H; by right)). lia.
  - specialize (IH k ltac:(intros; apply H; by right) Hk). pose proof (H u (list_elem_of_here _ _)). lia.
Qed.

Lemma sumw_two f l j k w v :
  (∀ w, w ∈ l → 0 ≤ f w) → l !! j = Some w → l !! k = Some v → j ≠ k → f w + f v ≤ sumw f l.
Proof.
  revert j k. induction l as [|u l IH]; intros j k H Hj Hk Hne; [done|].
  assert (Hl : ∀ w, w ∈ l → 0 ≤ f w) by (intros; apply H; by right). pose proof (H u (list_elem_of_here _ _)).
  destruct j as [|j], k as [|k]; simpl in *; simplify_eq.
  - pose proof (sumw_one f l k v Hl Hk). lia.
  - pose proof (sumw_one f l j w Hl Hj). lia.
  - specialize (IH j k Hl Hj Hk ltac:(lia)). lia.
Qed.

(** ** The invariant *)

(** A thread that has the lock; the additions it has made; what it has yet to do. *)
Definition holder (w : worker) : Z :=
  match w.(w_pc) with W_load | W_delay | W_store | W_release => 1 | _ => 0 end.

Definition added (w : worker) : Z := w.(w_i) + match w.(w_pc) with W_release => 1 | _ => 0 end.

Definition work (w : worker) : Z :=
  7 * (w.(w_b).(b_amount) - w.(w_i)) +
  match w.(w_pc) with
  | W_start => 4 | W_test => 3 | W_acquire => 2 | W_load => 1 | W_delay => 0 | W_store => -1 | W_release => -2
  | W_done => 1 | W_exit => 0
  end.

Definition amount (w : worker) : Z := w.(w_b).(b_amount).

Definition worker_ok (tot : Z) (w : worker) : Prop :=
  0 ≤ w.(w_i) ≤ amount w ∧
  match w.(w_pc) with
  | W_acquire | W_load | W_release => w.(w_i) < amount w
  | W_delay | W_store => w.(w_i) < amount w ∧ w.(w_old) = tot
  | W_done | W_exit => w.(w_i) = amount w
  | _ => True
  end.

Record tinv (s : tsys) : Prop := {
  ti_lock : s.(sh).(thread_lock) = sumw holder s.(ws);
  ti_excl : sumw holder s.(ws) ≤ 1;
  ti_total : s.(sh).(total_balance) = sumw added s.(ws);
  ti_ok w : w ∈ s.(ws) → worker_ok s.(sh).(total_balance) w;
  ti_room : sumw amount s.(ws) < 2 ^ 31
}.

Lemma holder_range w : 0 ≤ holder w ≤ 1.
Proof. unfold holder. destruct (w_pc w); lia. Qed.

(** The threads that do not hold the lock do not depend on the total. *)
Lemma worker_ok_total tot tot' w : holder w = 0 → worker_ok tot w → worker_ok tot' w.
Proof. unfold holder, worker_ok. destruct (w_pc w); intros; try lia; tauto. Qed.

Lemma tinv_others s j k w v : tinv s → s.(ws) !! k = Some w → holder w = 1 → s.(ws) !! j = Some v → j ≠ k → holder v = 0.
Proof.
  intros I Hk Hw Hj Hne. pose proof (ti_excl _ I). pose proof (holder_range v).
  pose proof (sumw_two holder _ j k v w ltac:(intros; apply holder_range) Hj Hk Hne). lia.
Qed.

(** A thread's additions, and those it has yet to make. *)
Lemma added_le s k w : tinv s → s.(ws) !! k = Some w →
  amount w - added w ≤ sumw amount s.(ws) - sumw added s.(ws) ∧ added w ≤ sumw added s.(ws) ∧ amount w ≤ sumw amount s.(ws).
Proof.
  intros I Hk. assert (Ha : ∀ v, v ∈ ws s → 0 ≤ added v ≤ amount v).
  { intros v Hv. destruct (ti_ok _ I v Hv) as [H H']. unfold added. destruct (w_pc v); lia. }
  rewrite <-sumw_sub. split_and!; [apply (sumw_one (λ w, amount w - added w) _ k w)|apply (sumw_one added _ k w)|apply (sumw_one amount _ k w)];
    try done; intros v Hv; specialize (Ha v Hv); lia.
Qed.

#[local] Ltac solve_step := split_and!; first [lia | by auto | right; lia | left; split; f_equal; lia].

(** What a step of a thread does to the sums. *)
Lemma do_work_step s k w w' m : tinv s → s.(ws) !! k = Some w → do_work w s.(sh) = (w', m) →
  m.(thread_lock) - s.(sh).(thread_lock) = holder w' - holder w ∧ 0 ≤ m.(thread_lock) ≤ 1 ∧
  m.(total_balance) - s.(sh).(total_balance) = added w' - added w ∧
  (m.(total_balance) = s.(sh).(total_balance) ∨ holder w = 1) ∧
  amount w' = amount w ∧ worker_ok m.(total_balance) w' ∧ (w' = w ∧ m = s.(sh) ∨ work w' < work w).
Proof.
  intros I Hk E. pose proof (list_elem_of_lookup_2 _ _ _ Hk) as Hin.
  destruct (ti_ok _ I w Hin) as [Hi Hpc]. pose proof (ti_lock _ I). pose proof (ti_excl _ I).
  pose proof (ti_room _ I). pose proof (ti_total _ I).
  pose proof (sumw_one holder _ k w ltac:(intros; apply holder_range) Hk).
  destruct (added_le s k w I Hk) as (Hgap & Hadd & Ham).
  pose proof (sumw_nonneg holder (ws s) ltac:(intros; apply holder_range)).
  destruct w as [b i old pc], (sh s) as [l tot]. unfold do_work, at_pc, acquire, release in E.
  revert E. generalize dependent (sumw holder (ws s)). generalize dependent (sumw added (ws s)). generalize dependent (sumw amount (ws s)).
  unfold worker_ok, holder, added, work, amount in *. cbn [w_b w_i w_old w_pc thread_lock total_balance] in *.
  intros. destruct pc; simplify_eq; cbn [w_b w_i w_old w_pc thread_lock total_balance] in *; try solve_step.
  - destruct (Z.ltb_spec i (b_amount b)); solve_step.
  - match goal with |- context [?x =? 0] => destruct (Z.eqb_spec x 0) end; simplify_eq; cbn [w_b w_i w_old w_pc thread_lock total_balance] in *; solve_step.
  - destruct Hpc as [? Ho]. rewrite s32_id by lia. solve_step.
  - rewrite s32_id by lia. solve_step.
Qed.

Lemma tstep_inv s k : tinv s → tinv (tstep s k) ∧ sumw amount (tstep s k).(ws) = sumw amount s.(ws) ∧
  length (tstep s k).(ws) = length s.(ws) ∧ (tstep s k = s ∨ sumw work (tstep s k).(ws) < sumw work s.(ws)).
Proof.
  intros I. unfold tstep. destruct (ws s !! k) as [w|] eqn:Hk; [|by auto].
  destruct (do_work w (sh s)) as [w' m] eqn:E. destruct (do_work_step s k w w' m I Hk E) as (L & Lr & T & Ts & A & O & P).
  cbn [sh ws]. rewrite length_insert. split_and!; [|rewrite (sumw_insert _ _ _ _ _ Hk); lia|done|].
  - pose proof (ti_lock _ I). pose proof (ti_total _ I). pose proof (ti_room _ I).
    split; cbn [sh ws]; rewrite ?(sumw_insert _ _ _ _ _ Hk); try lia.
    intros v [j Hj]%list_elem_of_lookup_1. destruct (decide (j = k)) as [->|Hne].
    { rewrite list_lookup_insert_eq in Hj by (by eapply lookup_lt_Some). by simplify_eq. }
    rewrite list_lookup_insert_ne in Hj by done. pose proof (ti_ok _ I v (list_elem_of_lookup_2 _ _ _ Hj)) as Hv.
    destruct Ts as [->|Hw]; [done|]. eapply worker_ok_total; [|done]. by apply (tinv_others s j k w v).
  - destruct P as [[-> ->]|P]; [left|right; rewrite (sumw_insert _ _ _ _ _ Hk); lia].
    rewrite list_insert_id by done. by destruct s.
Qed.

Lemma trun_inv sched s : tinv s → tinv (trun sched s) ∧ sumw amount (trun sched s).(ws) = sumw amount s.(ws) ∧
  length (trun sched s).(ws) = length s.(ws) ∧ (trun sched s = s ∨ sumw work (trun sched s).(ws) < sumw work s.(ws)).
Proof.
  revert s. induction sched as [|k sched IH]; intros s I; [by auto|].
  change (trun (k :: sched) s) with (trun sched (tstep s k)).
  destruct (tstep_inv s k I) as (I1 & A1 & L1 & P1). destruct (IH _ I1) as (I2 & A2 & L2 & P2).
  split_and!; [done|congruence|congruence|]. destruct P1 as [E|P1]; [by rewrite E in *; auto|].
  right. destruct P2 as [E|P2]; [rewrite E|]; lia.
Qed.

Lemma sumw_threads f n bs : (∀ b, b ∈ bs → f (thread b) = n b) → sumw f (thread <$> bs) = foldr (λ b s, n b + s) 0 bs.
Proof.
  induction bs as [|b bs IH]; intros H; [done|]. rewrite fmap_cons. unfold sumw in *. cbn [foldr].
  rewrite (H b (list_elem_of_here _ _)), IH; [done|]. intros. apply H. by right.
Qed.

Definition amounts (bs : list balance) : Z := foldr (λ b s, b.(b_amount) + s) 0 bs.

Lemma tstart_inv bs : Forall (λ b, 0 ≤ b.(b_amount)) bs → amounts bs < 2 ^ 31 → tinv (tstart bs).
Proof.
  intros Hb Hr. split; cbn [tstart sh ws thread_lock total_balance initlock].
  - rewrite (sumw_threads _ (λ _, 0)) by done. clear. by induction bs.
  - rewrite (sumw_threads _ (λ _, 0)) by done. clear. induction bs; simpl; lia.
  - rewrite (sumw_threads _ (λ _, 0)) by done. clear. by induction bs.
  - intros w (b & -> & Hin)%list_elem_of_fmap. rewrite Forall_forall in Hb. specialize (Hb _ Hin).
    unfold worker_ok, thread, amount. simpl. lia.
  - by rewrite (sumw_threads _ b_amount) by done.
Qed.

(** ** Progress *)

(** A thread that is not waiting for the lock changes the state, and so does one
    that waits for it when nobody has it. *)
Lemma step_moves s k w : tinv s → s.(ws) !! k = Some w → w.(w_pc) ≠ W_exit →
  (w.(w_pc) = W_acquire → s.(sh).(thread_lock) = 0) → tstep s k ≠ s.
Proof.
  intros I Hk Hx Ha E. unfold tstep in E. rewrite Hk in E. destruct (do_work w (sh s)) as [w' m] eqn:Ed.
  assert (w' = w).
  { assert (H : (<[k := w']> (ws s)) !! k = ws s !! k) by (rewrite <-E at 2; done).
    rewrite list_lookup_insert_eq, Hk in H by (eapply lookup_lt_Some, Hk). by simplify_eq. }
  subst w'. destruct w as [b i old pc]. unfold do_work, at_pc, acquire in Ed. cbn [w_b w_i w_old w_pc] in *.
  destruct pc; try done; try discriminate Ed.
  - destruct (i <? b_amount b); discriminate Ed.
  - rewrite (Ha eq_refl) in Ed. discriminate Ed.
Qed.

(** As long as a thread has not ended, one of them can move. *)
Lemma some_moves s : tinv s → (∃ w, w ∈ s.(ws) ∧ w.(w_pc) ≠ W_exit) → ∃ k, (k < length s.(ws))%nat ∧ tstep s k ≠ s.
Proof.
  intros I (w & [k Hk]%list_elem_of_lookup_1 & Hw). destruct (decide (thread_lock (sh s) = 0)) as [Hl|Hl].
  { exists k. split; [by eapply lookup_lt_Some|]. by eapply step_moves. }
  assert (∃ v, v ∈ ws s ∧ holder v = 1) as (v & [j Hj]%list_elem_of_lookup_1 & Hv).
  { rewrite (ti_lock _ I) in Hl. revert Hl. generalize (ws s). clear. intros l. induction l as [|v l IH]; simpl; [done|].
    intros H. pose proof (holder_range v). destruct (decide (holder v = 1)); [exists v; split; [by left|done]|].
    destruct IH as (u & Hu & Hh); [lia|]. exists u. split; [by right|done]. }
  exists j. split; [by eapply lookup_lt_Some|]. eapply step_moves; [done..| |];
    unfold holder in Hv; destruct (w_pc v); done.
Qed.

(** A round: every thread is scheduled at least once. *)
Definition fair (n : nat) (round : list nat) : Prop := ∀ k, (k < n)%nat → k ∈ round.

Lemma fixed_trun r s : trun r s = s → tinv s → ∀ k, k ∈ r → tstep s k = s.
Proof.
  induction r as [|k r IH]; intros E I j Hj; [by apply not_elem_of_nil in Hj|].
  destruct (tstep_inv s k I) as (I1 & _ & _ & P). cbn [trun foldl] in E.
  destruct (trun_inv r _ I1) as (_ & _ & _ & P').
  assert (Es : tstep s k = s).
  { destruct P as [?|P]; [done|]. unfold trun in P'. rewrite E in P'. destruct P' as [<-|P']; [done|lia]. }
  rewrite Es in E. apply elem_of_cons in Hj as [->|Hj]; [done|]. by apply IH.
Qed.

#[global] Instance wpc_eq_dec : EqDecision wpc.
Proof. solve_decision. Defined.

Definition exited (s : tsys) : Prop := Forall (λ w, w.(w_pc) = W_exit) s.(ws).

Lemma work_pos s w : tinv s → w ∈ s.(ws) → 0 ≤ work w ∧ (w.(w_pc) = W_exit ↔ work w = 0).
Proof.
  intros I Hw. destruct (ti_ok _ I w Hw) as [Hi Hp]. unfold work, amount in *. destruct (w_pc w); split; try lia; split; intros; (done || lia).
Qed.

Lemma exited_work s : tinv s → exited s ↔ sumw work s.(ws) ≤ 0.
Proof.
  intros I. unfold exited. rewrite Forall_forall. split; intros H.
  - rewrite <-(sumw_zero (ws s)). apply sumw_le. intros w Hw. by rewrite (proj1 (proj2 (work_pos s w I Hw)) (H w Hw)).
  - intros w Hw. apply (work_pos s w I Hw). pose proof (proj1 (work_pos s w I Hw)). apply list_elem_of_lookup_1 in Hw as [k Hk].
    pose proof (sumw_one work (ws s) k w ltac:(intros; by apply (work_pos s)) Hk). lia.
Qed.

Lemma round_works r s : tinv s → fair (length s.(ws)) r → ¬ exited s → sumw work (trun r s).(ws) < sumw work s.(ws).
Proof.
  intros I Hr Hx. destruct (trun_inv r s I) as (_ & _ & _ & [E|?]); [|done]. destruct (some_moves s I) as (k & Hk & Hm).
  - apply not_Forall_Exists, Exists_exists in Hx; [|solve_decision]. done.
  - by destruct Hm; apply (fixed_trun r s E I), Hr.
Qed.

Lemma rounds_end rounds s : tinv s → Forall (fair (length s.(ws))) rounds →
  sumw work s.(ws) ≤ Z.of_nat (length rounds) → exited (trun (concat rounds) s).
Proof.
  revert s. induction rounds as [|r rounds IH]; intros s I Hf Hw; [by apply exited_work|].
  apply Forall_cons in Hf as [Hr Hf]. cbn [concat length] in *. unfold trun. rewrite foldl_app. fold (trun r s).
  destruct (trun_inv r s I) as (I' & _ & L & P). apply IH; [done|by rewrite L|].
  destruct (decide (exited s)) as [Hx|Hx].
  - apply exited_work in Hx; [|done]. destruct P as [->|P]; lia.
  - pose proof (round_works r s I Hr Hx). lia.
Qed.

Lemma exited_total s : tinv s → exited s → s.(sh).(total_balance) = sumw amount s.(ws).
Proof.
  intros I Hx. rewrite (ti_total _ I). unfold exited in Hx. rewrite Forall_forall in Hx.
  assert (H : ∀ w, w ∈ ws s → added w = amount w).
  { intros w Hw. destruct (ti_ok _ I w Hw) as [_ Hp]. unfold added. rewrite (Hx w Hw) in *. lia. }
  apply Z.le_antisymm; apply sumw_le; intros w Hw; rewrite (H w Hw); lia.
Qed.

Lemma start_work bs : sumw work (tstart bs).(ws) = 7 * amounts bs + 4 * Z.of_nat (length bs).
Proof.
  cbn [tstart ws]. rewrite (sumw_threads _ (λ b, 7 * b.(b_amount) + 4)) by (intros; unfold work; simpl; lia).
  unfold amounts. induction bs as [|b bs IH]; cbn [foldr length]; lia.
Qed.

(** C29: The workers of [ttest.c] on the user library's lock.  In no interleaving
    of their steps are two of them between [acquire] and [release], and under
    every schedule made of enough rounds in which each thread is scheduled at
    least once, in any order and as often as it likes, all of them end and the
    shared counter is the sum of their amounts: no addition is lost, and the
    lock does not stop the threads. *)
Theorem ttest_counts bs : Forall (λ b, 0 ≤ b.(b_amount)) bs → amounts bs < 2 ^ 31 →
  (∀ sched j k w v, (trun sched (tstart bs)).(ws) !! j = Some w → (trun sched (tstart bs)).(ws) !! k = Some v →
     holder w = 1 → holder v = 1 → j = k) ∧
  (∀ rounds, Forall (fair (length bs)) rounds → 7 * amounts bs + 4 * Z.of_nat (length bs) ≤ Z.of_nat (length rounds) →
     exited (trun (concat rounds) (tstart bs)) ∧ (trun (concat rounds) (tstart bs)).(sh).(total_balance) = amounts bs).
Proof.
  intros Hb Hr. pose proof (tstart_inv bs Hb Hr) as I. split.
  - intros sched j k w v Hj Hk Hw Hv. destruct (trun_inv sched _ I) as (I' & _).
    destruct (decide (j = k)) as [|Hne]; [done|]. pose proof (tinv_others _ j k v w I' Hk Hv Hj Hne). lia.
  - intros rounds Hf Hl. destruct (trun_inv (concat rounds) _ I) as (I' & A & _).
    assert (Hx : exited (trun (concat rounds) (tstart bs))).
    { apply rounds_end; [done| |by rewrite start_work]. cbn [tstart ws]. by rewrite length_fmap. }
    split; [done|]. rewrite exited_total, A by done. cbn [tstart ws]. by rewrite (sumw_threads _ b_amount).
Qed.

(** The threads of [main]: the second one runs [do_work2], which counts to the
    amount of [b1] and not to that of its argument [b2]. *)
Lemma ttest_counts_witness :
  (trun (concat (replicate (Z.to_nat 44808) [1; 0]%nat)) (tstart [b1; b1])).(sh).(total_balance) = 6400 ∧ amounts [b1; b2] = 6000.
Proof.
  destruct (ttest_counts [b1; b1]) as [_ H].
  - repeat constructor; vm_compute; discriminate.
  - reflexivity.
  - split; [|reflexivity]. apply (H (replicate (Z.to_nat 44808) [1; 0]%nat)).
    + apply Forall_replicate. intros k Hk. simpl in Hk. destruct k as [|[|k]]; [by right; left|by left|lia].
    + rewrite length_replicate, Z2Nat.id by lia. vm_compute. discriminate.
Defined.
