(* ===== verification/Uprintf.v ===== *)
(** * Formatted output of user programs ([user/printf.c])

    The variable arguments are a list of values: an integer, or a string by the
    bytes from its pointer on ([None] is the null pointer).  Every character is
    a [write] of its own. *)

From Stdlib Require Import Ascii.
From S2P Require Import Prelude Cstring User Ulib.

Variant uarg : Type := AInt (n : Z) | AStr (s : option (list Z)).

Definition digits : list Z := chars "0123456789ABCDEF".

Definition putc (fd c : Z) : uprog unit := call (Write fd [u8 c]);; mret tt.

(** [do buf[i++] = digits[x % base]; while((x /= base) != 0)]: the digits, least
    significant first; [None] past the end of [buf[16]]. *)
Fixpoint digit_loop (fuel : nat) (x base : Z) : option (list Z) :=
  match fuel with
  | O => None
  | S fuel =>
      d ← digits !! Z.to_nat (x mod base);
      if x / base =? 0 then Some [d] else r ← digit_loop fuel (x / base) base; Some (d :: r)
  end.

(** The characters that [printint] prints, first to last. *)
Definition printint_chars (xx base : Z) (sgn : bool) : option (list Z) :=
  let neg := sgn && (xx <? 0) in
  let x := u32 (if neg then - xx else xx) in
  r ← digit_loop 16 x base;
  let buf := r ++ (if neg then chars "-" else []) in
  if (16 <? length buf)%nat then None else Some (reverse buf).

Definition printint (fd xx base : Z) (sgn : bool) : uprog unit :=
  cs ← opt_or_segv (printint_chars xx base sgn);
  ufor cs (putc fd).

Definition printptr_chars (x : Z) : option (list Z) :=
  mapM (λ i : nat, digits !! Z.to_nat (Z.shiftr (u64 (Z.shiftl x (4 * Z.of_nat i))) 60)) (seq 0 16).

Definition printptr (fd x : Z) : uprog unit :=
  putc fd (ch "0");;
  putc fd (ch "x");;
  cs ← opt_or_segv (printptr_chars x);
  ufor cs (putc fd).

(** The loop [while( *s != 0)] of the directive [%s] *)
Fixpoint put_string (fd : Z) (s : list Z) : uprog unit :=
  match s with
  | [] => Segv
  | c :: s => if c =? 0 then mret tt else putc fd c;; put_string fd s
  end.

(** One directive: the letter after [%], with the arguments not yet used.  The
    parameter of [printint] is an [int]. *)
Definition directive (fd c : Z) (ap : list uarg) : uprog (list uarg) :=
  if c =? ch "d" then
    match ap with AInt n :: ap => printint fd (s32 n) 10 true;; mret ap | _ => Segv end
  else if c =? ch "l" then
    match ap with AInt n :: ap => printint fd (s32 n) 10 false;; mret ap | _ => Segv end
  else if c =? ch "x" then
    match ap with AInt n :: ap => printint fd (s32 n) 16 false;; mret ap | _ => Segv end
  else if c =? ch "p" then
    match ap with AInt n :: ap => printptr fd (u64 n);; mret ap | _ => Segv end
  else if c =? ch "s" then
    match ap with
    | AStr s :: ap => put_string fd (match s with Some s => s | None => chars "(null)" ++ [0] end);; mret ap
    | _ => Segv
    end
  else if c =? ch "c" then
    match ap with AInt n :: ap => putc fd n;; mret ap | _ => Segv end
  else if c =? ch "%" then putc fd c;; mret ap
  else putc fd (ch "%");; putc fd c;; mret ap.

(** The loop over the format; [state] tells whether a [%] came before. *)
Fixpoint vprintf_loop (fd : Z) (fmt : list Z) (state : bool) (ap : list uarg) : uprog unit :=
  match fmt with
  | [] => Segv
  | c :: fmt =>
      if c =? 0 then mret tt else
      if state then ap ← directive fd c ap; vprintf_loop fd fmt false ap
      else if c =? ch "%" then vprintf_loop fd fmt true ap
      else putc fd c;; vprintf_loop fd fmt false ap
  end.

Definition vprintf (fd : Z) (fmt : list Z) (ap : list uarg) : uprog unit := vprintf_loop fd fmt false ap.

(** The format is a string constant. *)
Definition fprintf (fd : Z) (fmt : string) (ap : list uarg) : uprog unit := vprintf fd (chars fmt ++ [0]) ap.

Definition printf (fmt : string) (ap : list uarg) : uprog unit := vprintf 1 (chars fmt ++ [0]) ap.

(** ** What is printed *)

(** A format, directive by directive. *)
Variant piece : Type :=
| Lit (c : Z) | Dec (n : Z) | Long (n : Z) | Hex (n : Z) | Ptr (n : Z) | Str (s : option (list Z)) | Chr (n : Z)
| Percent.

Definition piece_fmt (p : piece) : list Z :=
  match p with
  | Lit c => [c] | Dec _ => [ch "%"; ch "d"] | Long _ => [ch "%"; ch "l"] | Hex _ => [ch "%"; ch "x"] | Ptr _ => [ch "%"; ch "p"]
  | Str _ => [ch "%"; ch "s"] | Chr _ => [ch "%"; ch "c"] | Percent => [ch "%"; ch "%"]
  end.

Definition piece_args (p : piece) : list uarg :=
  match p with
  | Lit _ | Percent => []
  | Dec n | Long n | Hex n | Ptr n | Chr n => [AInt n]
  | Str s => [AStr ((λ s, s ++ [0]) <$> s)]
  end.

(** The text of a piece. *)
Definition piece_text (p : piece) : option (list Z) :=
  match p with
  | Lit c => Some [c]
  | Dec n => printint_chars (s32 n) 10 true
  | Long n => printint_chars (s32 n) 10 false
  | Hex n => printint_chars (s32 n) 16 false
  | Ptr n => cs ← printptr_chars (u64 n); Some (chars "0x" ++ cs)
  | Str s => Some (default (chars "(null)") s)
  | Chr n => Some [u8 n]
  | Percent => Some (chars "%")
  end.

Definition byte (c : Z) : Prop := 0 ≤ c < 2 ^ 8.

Definition piece_ok (p : piece) : Prop :=
  match p with
  | Lit c => byte c ∧ c ≠ 0 ∧ c ≠ ch "%"
  | Str (Some s) => no_nul s ∧ Forall byte s
  | _ => True
  end.

Lemma digits_bytes : Forall byte digits.
Proof. unfold byte. rewrite Forall_forall. intros c Hc. vm_compute in Hc. apply list_elem_of_In in Hc. simpl in Hc. lia. Qed.

Lemma digit_loop_bytes fuel x base r : digit_loop fuel x base = Some r → Forall byte r.
Proof.
  revert x r. induction fuel as [|fuel IH]; intros x r; simpl; [done|].
  destruct (digits !! Z.to_nat (x mod base)) as [d|] eqn:Hd; [|done]. simpl.
  assert (byte d) by exact (Forall_lookup_1 _ _ _ _ digits_bytes Hd).
  destruct (x / base =? 0); [intros [= <-]; constructor; [done|constructor]|].
  destruct (digit_loop fuel (x / base) base) as [r'|] eqn:Hr; simpl; [|done]. intros [= <-].
  constructor; [done|]. by apply IH with (x / base).
Qed.

Lemma printint_bytes xx base sgn cs : printint_chars xx base sgn = Some cs → Forall byte cs.
Proof.
  unfold printint_chars. destruct (digit_loop _ _ _) as [r|] eqn:Hr; cbn [mbind option_bind]; [|done].
  destruct (Nat.ltb _ _); [done|]. intros [= <-]. apply Forall_reverse, Forall_app. split; [by eapply digit_loop_bytes|].
  destruct (sgn && (xx <? 0)); repeat constructor; unfold ch; simpl; lia.
Qed.

Lemma printptr_bytes x cs : printptr_chars x = Some cs → Forall byte cs.
Proof.
  unfold printptr_chars. intros H%mapM_Some. eapply Forall2_Forall_r; [exact H|].
  apply Forall_true. intros i y Hy. exact (Forall_lookup_1 _ _ _ _ digits_bytes Hy).
Qed.

Section Output.
Context {W : Type} (h : os W) `{!Streams h}.

Local Abbreviation emits := (emits h).

Lemma run_putc fd c w : ∃ w', run h (putc fd c) w = Returned tt w' ∧ emits fd [u8 c] w w'.
Proof.
  destruct (run_write h fd [u8 c] w) as (w' & E & H). exists w'. split; [|done].
  unfold putc. by rewrite (run_bind_returned _ _ _ _ _ _ E).
Qed.

Lemma run_putc_byte fd c w : byte c → ∃ w', run h (putc fd c) w = Returned tt w' ∧ emits fd [c] w w'.
Proof. intros Hc. destruct (run_putc fd c w) as (w' & E & H). exists w'. unfold u8 in H. by rewrite Z.mod_small in H. Qed.

Lemma run_putcs fd cs w : Forall byte cs → ∃ w', run h (ufor cs (putc fd)) w = Returned tt w' ∧ emits fd cs w w'.
Proof.
  intros Hcs. destruct (run_ufor_emits h cs (putc fd) (λ c, [c]) fd w) as (w' & E & H).
  { intros c w' Hc. apply run_putc_byte. by eapply Forall_forall in Hcs. }
  exists w'. split; [done|]. replace cs with (cs ≫= λ c, [c]) at 1; [done|].
  clear. induction cs as [|c cs IH]; [done|]. cbn. by f_equal.
Qed.

Lemma run_put_string fd s r w :
  no_nul s → Forall byte s → ∃ w', run h (put_string fd (s ++ 0 :: r)) w = Returned tt w' ∧ emits fd s w w'.
Proof.
  intros Hn. revert w. induction Hn as [|c s Hc _ IH]; intros w Hb.
  { exists w. split; [done|apply emits_nil]. }
  apply Forall_cons in Hb as [Hc' Hb]. cbn [app put_string]. rewrite (proj2 (Z.eqb_neq _ _) Hc).
  destruct (run_putc_byte fd c w Hc') as (w1 & E1 & M1). rewrite (run_bind_returned _ _ _ _ _ _ E1).
  destruct (IH w1 Hb) as (w2 & E2 & M2). exists w2. split; [done|]. exact (emits_app h fd [c] s w w1 w2 M1 M2).
Qed.

Lemma run_printint fd xx base sgn cs w :
  printint_chars xx base sgn = Some cs → ∃ w', run h (printint fd xx base sgn) w = Returned tt w' ∧ emits fd cs w w'.
Proof.
  intros E. unfold printint. rewrite E. apply run_putcs. by eapply printint_bytes.
Qed.

Lemma run_printptr fd x cs w :
  printptr_chars x = Some cs →
  ∃ w', run h (printptr fd x) w = Returned tt w' ∧ emits fd (chars "0x" ++ cs) w w'.
Proof.
  intros E. unfold printptr. rewrite E.
  destruct (run_putc fd (ch "0") w) as (w1 & E1 & M1). rewrite (run_bind_returned _ _ _ _ _ _ E1).
  destruct (run_putc fd (ch "x") w1) as (w2 & E2 & M2). rewrite (run_bind_returned _ _ _ _ _ _ E2).
  destruct (run_putcs fd cs w2) as (w3 & E3 & M3); [by eapply printptr_bytes|].
  exists w3. split; [done|]. exact (emits_app h fd _ _ _ _ _ M1 (emits_app h fd _ _ _ _ _ M2 M3)).
Qed.

(** A directive that prints [cs] and leaves the arguments [ap]. *)
Lemma run_directive_then (m : uprog unit) (ap : list uarg) (k : list uarg → uprog unit) fd cs w :
  (∃ w', run h m w = Returned tt w' ∧ emits fd cs w w') →
  ∃ w', emits fd cs w w' ∧ run h ((m;; mret ap) ≫= k) w = run h (k ap) w'.
Proof.
  intros (w' & E & M). exists w'. split; [done|]. by rewrite !run_bind, E.
Qed.

Lemma run_piece fd p cs rest ap w :
  piece_ok p → piece_text p = Some cs →
  ∃ w', emits fd cs w w' ∧
    run h (vprintf_loop fd (piece_fmt p ++ rest) false (piece_args p ++ ap)) w =
      run h (vprintf_loop fd rest false ap) w'.
Proof.
  intros Hok Ht. destruct p as [c|n|n|n|n|s|n|].
  - destruct Hok as (Hb & H0 & Hp). injection Ht as <-.
    destruct (run_putc_byte fd c w Hb) as (w' & E & M). exists w'. split; [done|]. cbn [piece_fmt piece_args app].
    cbn [vprintf_loop]. by rewrite (proj2 (Z.eqb_neq _ _) H0), (proj2 (Z.eqb_neq _ _) Hp), (run_bind_returned _ _ _ _ _ _ E).
  - apply (run_directive_then (printint fd (s32 n) 10 true)), run_printint, Ht.
  - apply (run_directive_then (printint fd (s32 n) 10 false)), run_printint, Ht.
  - apply (run_directive_then (printint fd (s32 n) 16 false)), run_printint, Ht.
  - apply (run_directive_then (printptr fd (u64 n))). cbn [piece_text] in Ht.
    destruct (printptr_chars (u64 n)) as [cs'|] eqn:E; [|done]. injection Ht as <-. by apply run_printptr.
  - injection Ht as <-. destruct s as [s|].
    + apply (run_directive_then (put_string fd (s ++ [0]))). destruct Hok. by apply run_put_string.
    + apply (run_directive_then (put_string fd (chars "(null)" ++ [0]))). apply run_put_string;
        repeat constructor; done.
  - injection Ht as <-. apply (run_directive_then (putc fd n)), run_putc.
  - injection Ht as <-. apply (run_directive_then (putc fd (ch "%"))), run_putc.
Qed.

(** The output of [vprintf] is the text of its pieces, in order. *)
Lemma run_vprintf fd ps cs r w :
  Forall piece_ok ps → mapM piece_text ps = Some cs →
  ∃ w', run h (vprintf fd ((ps ≫= piece_fmt) ++ 0 :: r) (ps ≫= piece_args)) w = Returned tt w' ∧
    emits fd (concat cs) w w'.
Proof.
  unfold vprintf. intros Hok. revert cs w. induction Hok as [|p ps Hp _ IH]; intros cs w.
  { intros [= <-]. exists w. split; [done|apply emits_nil]. }
  cbn [mapM]. destruct (piece_text p) as [c|] eqn:Hc; [|done]. cbn [mbind option_bind].
  destruct (mapM piece_text ps) as [cs'|]; [|done]. intros [= <-].
  destruct (run_piece fd p c ((ps ≫= piece_fmt) ++ 0 :: r) (ps ≫= piece_args) w Hp Hc) as (w1 & M1 & E1).
  destruct (IH cs' w1 eq_refl) as (w2 & E2 & M2). exists w2. split.
  - cbn [mbind list_bind]. rewrite <-app_assoc. by rewrite <-E2, <-E1.
  - cbn [concat]. by apply emits_app with w1.
Qed.

End Output.

(** ** Printed numbers and [atoi] *)

Lemma digit_char x : 0 ≤ x < 10 → digits !! Z.to_nat x = Some (48 + x).
Proof.
  intros Hx. assert (x = 0 ∨ x = 1 ∨ x = 2 ∨ x = 3 ∨ x = 4 ∨ x = 5 ∨ x = 6 ∨ x = 7 ∨ x = 8 ∨ x = 9) as H by lia.
  repeat (destruct H as [->|H]; [done|]). by rewrite H.
Qed.

Lemma atoi_digit x t : 0 ≤ x < 2 ^ 31 → atoi_loop (x / 10) (48 + x mod 10 :: t) = atoi_loop x t.
Proof.
  intros Hx. cbn [atoi_loop]. rewrite (proj2 (Z.leb_le 48 _)), (proj2 (Z.leb_le _ 57)) by lia. cbn [andb].
  replace (x / 10 * 10 + (48 + x mod 10) - 48) with x by lia.
  f_equal. rewrite <-(s32_small x) at 2 by lia. by rewrite Z.mod_small by lia.
Qed.

Lemma atoi_digits n fuel x t :
  0 ≤ x < 10 ^ Z.of_nat (S n) → x < 2 ^ 31 → (n < fuel)%nat →
  ∃ r, digit_loop fuel x 10 = Some r ∧ (length r ≤ S n)%nat ∧ no_nul r ∧
    atoi_loop 0 (reverse r ++ t) = atoi_loop x t.
Proof.
  revert fuel x t. induction n as [|n IH]; intros fuel x t Hx Hm Hf; (destruct fuel as [|fuel]; [lia|]);
    cbn [digit_loop]; rewrite digit_char by lia; cbn [mbind option_bind];
    (destruct (Z.eqb_spec (x / 10) 0) as [E|E];
      [exists [48 + x mod 10]; split; [done|]; split; [simpl; lia|]; split; [constructor; [lia|constructor]|];
       by rewrite <-(atoi_digit x t), E by lia|]).
  - rewrite Z.pow_1_r in Hx. lia.
  - destruct (IH fuel (x / 10) (48 + x mod 10 :: t)) as (r & -> & Hl & Hn & Ha); [|lia..|].
    { rewrite Nat2Z.inj_succ, Z.pow_succ_r in Hx by lia. lia. }
    eexists. split; [done|]. split; [simpl; lia|]. split; [constructor; [lia|done]|].
    rewrite reverse_cons, <-app_assoc. cbn [app]. rewrite Ha. apply atoi_digit. lia.
Qed.

(** What [printf] prints for [%d] of a number that is not negative, [atoi] reads
    back. *)
Lemma printint_atoi n t :
  0 ≤ n < 2 ^ 31 →
  ∃ cs, printint_chars n 10 true = Some cs ∧ no_nul cs ∧ (length cs ≤ 10)%nat ∧ atoi (cs ++ 0 :: t) = Some n.
Proof.
  intros Hn. unfold printint_chars. rewrite (proj2 (Z.ltb_ge _ _)) by lia. cbn [andb]. unfold u32.
  rewrite Z.mod_small by lia. destruct (atoi_digits 9 16 n (0 :: t)) as (r & -> & Hl & Hnn & Ha); [simpl; lia|lia|lia|].
  cbn [mbind option_bind]. rewrite app_nil_r, (proj2 (Nat.ltb_ge 16 _)) by lia.
  exists (reverse r). split; [done|]. split; [by apply Forall_reverse|]. rewrite length_reverse. split; [done|].
  unfold atoi. by rewrite Ha.
Qed.
