(* ===== verification/Grind.v ===== *)
(** * Random system calls ([user/grind.c])

    The random number generator, and the program that draws system calls with
    it.  The program loops for ever: [go] and [main] take the number of turns
    after which the model stops following them ([Hang]).  Shown are what the
    generator computes, without overflow, and that it has the full period. *)

From Stdlib Require Import Ascii ZArith Zdivisibility Zpow_facts.
From S2P Require Import Prelude Cstring Fs Sysfile User Ulib Uprintf.

(** ** The generator *)

(** The value of [*ctx] afterwards, which is also the result: the variables are
    64 bits wide, and the divisions are those of C on the values they get. *)
Definition do_rand (ctx : Z) : Z :=
  let x := ctx mod 0x7ffffffe + 1 in
  let hi := Z.quot x 127773 in
  let lo := Z.rem x 127773 in
  let x := 16807 * lo - 2836 * hi in
  let x := if x <? 0 then x + 0x7fffffff else x in
  x - 1.

(** ** The program *)

(** [rand_next], and the variables [fd], [iters] and [buf] of [go]. *)
Record gstate : Type := mk_gstate { rand_next : Z; g_fd : Z; g_iters : Z; g_buf : list Z }.

Definition set_fd (fd : Z) (x : gstate) : gstate := mk_gstate x.(rand_next) fd x.(g_iters) x.(g_buf).

(** [rand]: the result and the variables after it *)
Definition rand (x : gstate) : Z * gstate :=
  let r := do_rand x.(rand_next) in (s32 r, mk_gstate (u64 r) x.(g_fd) x.(g_iters) x.(g_buf)).

Definition RDWR_CREATE : Z := Z.lor O_CREATE O_RDWR.

(** [close(open(path, O_CREATE|O_RDWR))] *)
Definition touch (path : string) : uprog unit :=
  fd ← call (Open (chars path) RDWR_CREATE);
  call (Close fd);;
  mret tt.

(** [printf] of a message and [exit(1)] *)
Definition give {A} (msg : string) : uprog A := printf msg [];; Exit 1.

(** [fork] with the code of the child, which then exits, and the check of the
    result. *)
Definition fork_child (child : uprog unit) : uprog Z :=
  pid ← call Fork;
  if pid =? 0 then child;; Exit 0
  else if pid <? 0 then give "grind: fork failed\n"
  else mret pid.

Definition go_chdir : uprog unit :=
  r ← call (Chdir (chars "grindir"));
  if negb (r =? 0) then give "grind: chdir grindir failed\n" else mret tt.

(** [what == 17] *)
Definition go_kill_child : uprog unit :=
  pid ← fork_child (touch "a");
  r ← call (Chdir (chars "../grindir/.."));
  if negb (r =? 0) then give "grind: chdir failed\n" else
  call (Kill pid);;
  call Wait;;
  mret tt.

(** [what == 19] *)
Definition go_pipe : uprog unit :=
  '(r, (fds0, fds1)) ← call Pipe;
  if r <? 0 then give "grind: pipe failed\n" else
  fork_child (
    call Fork;;
    call Fork;;
    n ← call (Write fds1 (chars "x"));
    (if negb (n =? 1) then printf "grind: pipe write failed\n" [] else mret tt);;
    '(n, _) ← call (Read fds0 1);
    (if negb (n =? 1) then printf "grind: pipe read failed\n" [] else mret tt));;
  call (Close fds0);;
  call (Close fds1);;
  call Wait;;
  mret tt.

(** [what == 20] *)
Definition go_unlinked_dir : uprog unit :=
  fork_child (
    call (Unlink (chars "a"));;
    call (Mkdir (chars "a"));;
    call (Chdir (chars "a"));;
    call (Unlink (chars "../a"));;
    call (Open (chars "x") RDWR_CREATE);;
    call (Unlink (chars "x"));;
    mret tt);;
  call Wait;;
  mret tt.

(** [what == 21] *)
Definition go_create_c : uprog unit :=
  call (Unlink (chars "c"));;
  fd1 ← call (Open (chars "c") RDWR_CREATE);
  if fd1 <? 0 then give "grind: create c failed\n" else
  n ← call (Write fd1 (chars "x"));
  if negb (n =? 1) then give "grind: write c failed\n" else
  '(r, st) ← call (Fstat fd1);
  if negb (r =? 0) then give "grind: fstat failed\n" else
  if negb (st.(st_size) =? 1) then printf "grind: fstat reports wrong size %d\n" [AInt (s32 st.(st_size))];; Exit 1 else
  if 200 <? st.(st_ino) then printf "grind: fstat reports crazy i-number %d\n" [AInt st.(st_ino)];; Exit 1 else
  call (Close fd1);;
  call (Unlink (chars "c"));;
  mret tt.

(** The child of [what == 22] that runs [echo hi], writing to the pipe [aa]. *)
Definition go_echo (aa0 aa1 bb0 bb1 : Z) : uprog unit :=
  call (Close bb0);;
  call (Close bb1);;
  call (Close aa0);;
  call (Close 1);;
  d ← call (Dup aa1);
  if negb (d =? 1) then fprintf 2 "grind: dup failed\n" [];; Exit 1 else
  call (Close aa1);;
  call (Exec (chars "grindir/../echo") [chars "echo"; chars "hi"]);;
  fprintf 2 "grind: echo: not found\n" [];;
  Exit 2.

(** The one that runs [cat], from the pipe [aa] to the pipe [bb]. *)
Definition go_cat (aa0 aa1 bb0 bb1 : Z) : uprog unit :=
  call (Close aa1);;
  call (Close bb0);;
  call (Close 0);;
  d ← call (Dup aa0);
  if negb (d =? 0) then fprintf 2 "grind: dup failed\n" [];; Exit 4 else
  call (Close aa0);;
  call (Close 1);;
  d ← call (Dup bb1);
  if negb (d =? 1) then fprintf 2 "grind: dup failed\n" [];; Exit 5 else
  call (Close bb1);;
  call (Exec (chars "/cat") [chars "cat"]);;
  fprintf 2 "grind: cat: not found\n" [];;
  Exit 6.

(** [read(bb[0], buf+i, 1)] *)
Definition read_at (fd : Z) (i : nat) (buf : list Z) : uprog (list Z) :=
  '(_, bs) ← call (Read fd 1);
  mret (match bs with b :: _ => <[i := b]> buf | [] => buf end).

(** [what == 22]; a [wait] that fails leaves its variable, which is not
    initialised, as it was. *)
Definition go_pipeline : uprog unit :=
  '(r, (aa0, aa1)) ← call Pipe;
  if r <? 0 then fprintf 2 "grind: pipe failed\n" [];; Exit 1 else
  '(r, (bb0, bb1)) ← call Pipe;
  if r <? 0 then fprintf 2 "grind: pipe failed\n" [];; Exit 1 else
  pid1 ← call Fork;
  if pid1 =? 0 then go_echo aa0 aa1 bb0 bb1
  else if pid1 <? 0 then fprintf 2 "grind: fork failed\n" [];; Exit 3 else
  pid2 ← call Fork;
  if pid2 =? 0 then go_cat aa0 aa1 bb0 bb1
  else if pid2 <? 0 then fprintf 2 "grind: fork failed\n" [];; Exit 7 else
  call (Close aa0);;
  call (Close aa1);;
  call (Close bb1);;
  buf ← read_at bb0 0 [0; 0; 0; 0];
  buf ← read_at bb0 1 buf;
  buf ← read_at bb0 2 buf;
  call (Close bb0);;
  '(_, st1) ← call Wait;
  '(_, st2) ← call Wait;
  differ ← (if negb (st1 =? 0) || negb (st2 =? 0) then mret true
            else c ← opt_or_segv (strcmp buf (chars "hi\n" ++ [0])); mret (negb (c =? 0)));
  if differ : bool then
    vprintf 1 (chars "grind: exec pipeline failed %d %d " ++ [34] ++ chars "%s" ++ [34; newline; 0])
      [AInt st1; AInt st2; AStr (Some buf)];;
    Exit 1
  else mret tt.

(** The action drawn. *)
Definition go_action (break0 what : Z) (x : gstate) : uprog gstate :=
  if what =? 1 then touch "grindir/../a";; mret x
  else if what =? 2 then touch "grindir/../grindir/../b";; mret x
  else if what =? 3 then call (Unlink (chars "grindir/../a"));; mret x
  else if what =? 4 then go_chdir;; call (Unlink (chars "../b"));; call (Chdir (chars "/"));; mret x
  else if what =? 5 then
    call (Close x.(g_fd));; fd ← call (Open (chars "/grindir/../a") RDWR_CREATE); mret (set_fd fd x)
  else if what =? 6 then
    call (Close x.(g_fd));; fd ← call (Open (chars "/./grindir/./../b") RDWR_CREATE); mret (set_fd fd x)
  else if what =? 7 then call (Write x.(g_fd) x.(g_buf));; mret x
  else if what =? 8 then
    '(_, bs) ← call (Read x.(g_fd) 999);
    mret (mk_gstate x.(rand_next) x.(g_fd) x.(g_iters) (bs ++ drop (length bs) x.(g_buf)))
  else if what =? 9 then
    call (Mkdir (chars "grindir/../a"));; touch "a/../a/./a";; call (Unlink (chars "a/a"));; mret x
  else if what =? 10 then
    call (Mkdir (chars "/../b"));; touch "grindir/../b/b";; call (Unlink (chars "b/b"));; mret x
  else if what =? 11 then
    call (Unlink (chars "b"));; call (Link (chars "../grindir/./../a") (chars "../b"));; mret x
  else if what =? 12 then
    call (Unlink (chars "../grindir/../a"));; call (Link (chars ".././b") (chars "/grindir/../a"));; mret x
  else if what =? 13 then fork_child (mret tt);; call Wait;; mret x
  else if what =? 14 then fork_child (call Fork;; call Fork;; mret tt);; call Wait;; mret x
  else if what =? 15 then call (Sbrk 6011);; mret x
  else if what =? 16 then
    p ← call (Sbrk 0);
    (if u64 break0 <? u64 p then q ← call (Sbrk 0); call (Sbrk (s32 (- (q - break0))));; mret tt else mret tt);;
    mret x
  else if what =? 17 then go_kill_child;; mret x
  else if what =? 18 then
    fork_child (pid ← call Getpid; call (Kill pid);; mret tt);; call Wait;; mret x
  else if what =? 19 then go_pipe;; mret x
  else if what =? 20 then go_unlinked_dir;; mret x
  else if what =? 21 then go_create_c;; mret x
  else if what =? 22 then go_pipeline;; mret x
  else mret x.

(** One turn of the loop. *)
Definition go_body (which_child : Z) (break0 : Z) (x : gstate) : uprog (gstate + gstate) :=
  let x := mk_gstate x.(rand_next) x.(g_fd) (u64 (x.(g_iters) + 1)) x.(g_buf) in
  (if x.(g_iters) mod 500 =? 0
   then call (Write 1 (if negb (which_child =? 0) then chars "B" else chars "A"));; mret tt else mret tt);;
  let '(r, x) := rand x in
  x ← go_action break0 (Z.rem r 23) x;
  mret (inl x).

Definition go (turns : nat) (which_child : Z) (seed : Z) : uprog gstate :=
  break0 ← call (Sbrk 0);
  call (Mkdir (chars "grindir"));;
  go_chdir;;
  call (Chdir (chars "/"));;
  uloop turns (go_body which_child break0) (mk_gstate seed (-1) 0 (replicate 999 0)).

(** A [wait] that fails leaves the variable at -1. *)
Definition iter (turns : nat) (seed : Z) : uprog unit :=
  call (Unlink (chars "a"));;
  call (Unlink (chars "b"));;
  pid1 ← call Fork;
  if pid1 <? 0 then give "grind: fork failed\n" else
  if pid1 =? 0 then go turns 0 (Z.lxor seed 31);; Exit 0 else
  pid2 ← call Fork;
  if pid2 <? 0 then give "grind: fork failed\n" else
  if pid2 =? 0 then go turns 1 (Z.lxor seed 7177);; Exit 0 else
  '(r, st) ← call Wait;
  let st1 := if r <? 0 then -1 else st in
  (if negb (st1 =? 0) then call (Kill pid1);; call (Kill pid2);; mret tt else mret tt);;
  call Wait;;
  Exit 0.

Definition grind_body (turns : nat) (seed : Z) : uprog (Z + unit) :=
  pid ← call Fork;
  if pid =? 0 then iter turns seed;; Exit 0 else
  (if 0 <? pid then call Wait;; mret tt else mret tt);;
  call (Sleep 20);;
  mret (inl (u64 (seed + 1))).

Definition grind_main (turns : nat) : uprog unit := uloop turns (grind_body turns) 1.

(** ** What the generator computes *)

(** The modulus and the multiplier: [x = (7^5 * x) mod (2^31 - 1)]. *)
Definition modulus : Z := 2 ^ 31 - 1.
Definition multiplier : Z := 7 ^ 5.

Fixpoint no_divisor (k : nat) (d n : Z) : bool :=
  match k with
  | O => true
  | S k => negb (n mod d =? 0) && no_divisor k (d + 1) n
  end.

Lemma no_divisor_spec k d n e : no_divisor k d n = true → d ≤ e < d + Z.of_nat k → n mod e ≠ 0.
Proof.
  revert d. induction k as [|k IH]; intros d H He; [lia|]. cbn [no_divisor] in H. apply andb_prop in H as [H1 H2].
  destruct (decide (e = d)) as [->|]; [by apply Z.eqb_neq, negb_true_iff|]. apply (IH (d + 1)); [done|lia].
Qed.

Lemma prime_check n : 1 < n → no_divisor (Z.to_nat (Z.sqrt n - 1)) 2 n = true → Z.prime n.
Proof.
  intros Hn H. split; [done|]. intros m Hm [q Hq]. pose proof (Z.sqrt_spec n ltac:(lia)) as Hs. simpl in Hs.
  assert (Hd : ∀ e f, 1 < e → n = e * f → e ≤ Z.sqrt n → False).
  { intros e f He -> Hle. refine (no_divisor_spec _ _ _ e H _ _); [lia|]. rewrite Z.mul_comm. apply Z_mod_mult. }
  destruct (Z.le_gt_cases m (Z.sqrt n)); [apply (Hd m q); lia|]. apply (Hd q m); nia.
Qed.

Lemma prime_modulus : Z.prime modulus.
Proof. apply prime_check; vm_compute; reflexivity. Qed.

Lemma multiplier_coprime : Z.coprime modulus multiplier.
Proof. vm_compute. reflexivity. Qed.

Lemma step_nonzero x : 0 < x < modulus → (multiplier * x) mod modulus ≠ 0.
Proof.
  intros H E%Z.mod_divide; [|done]. apply Z.gauss in E; [|apply multiplier_coprime]. apply Z.divide_pos_le in E; lia.
Qed.

(** The division by parts gives the remainder. *)
Lemma schrage x : 0 < x < modulus →
  (let y := 16807 * Z.rem x 127773 - 2836 * Z.quot x 127773 in if y <? 0 then y + 0x7fffffff else y) = (multiplier * x) mod modulus.
Proof.
  intros H. pose proof (step_nonzero x H) as Hnz. rewrite Z.rem_mod_nonneg, Z.quot_div_nonneg by lia.
  pose proof (Z.div_mod x 127773 ltac:(lia)). pose proof (Z.mod_pos_bound x 127773 ltac:(lia)).
  change modulus with 2147483647 in *. change multiplier with 16807 in *.
  assert (0 ≤ x / 127773 ≤ 16807) by (split; [apply Z.div_pos; lia|apply Z.lt_succ_r, Z.div_lt_upper_bound; lia]).
  set (hi := x / 127773) in *. set (lo := x mod 127773) in *. cbv zeta.
  destruct (Z.ltb_spec (16807 * lo - 2836 * hi) 0).
  - apply (Z.mod_unique _ _ (hi - 1)); [left|]; lia.
  - apply (Z.mod_unique _ _ hi); [left|]; lia.
Qed.

Lemma do_rand_eq ctx : 0 ≤ ctx →
  do_rand ctx = (multiplier * (ctx mod (modulus - 1) + 1)) mod modulus - 1 ∧ 0 ≤ do_rand ctx < modulus - 1.
Proof.
  intros H. pose proof (Z.mod_pos_bound ctx (modulus - 1) ltac:(done)) as Hb.
  assert (E : do_rand ctx = (multiplier * (ctx mod (modulus - 1) + 1)) mod modulus - 1).
  { unfold do_rand. change 0x7ffffffe with (modulus - 1). f_equal. apply schrage. lia. }
  split; [done|]. rewrite E. pose proof (step_nonzero (ctx mod (modulus - 1) + 1) ltac:(lia)).
  pose proof (Z.mod_pos_bound (multiplier * (ctx mod (modulus - 1) + 1)) modulus ltac:(done)). lia.
Qed.

(** ** The period *)

(** The exponents that give 1. *)
Definition to_one (d : Z) : Prop := multiplier ^ d mod modulus = 1.

Lemma to_one_rem d n : 0 < d → 0 ≤ n → to_one d → to_one n → to_one (n mod d).
Proof.
  unfold to_one. intros Hd Hn Ed En. rewrite (Z.div_mod n d) in En by lia.
  assert (0 ≤ n / d) by (apply Z.div_pos; lia). pose proof (Z.mod_pos_bound n d Hd).
  rewrite Z.pow_add_r, Z.pow_mul_r in En by lia.
  rewrite Z.mul_mod, (Zpower_mod (multiplier ^ d)), Ed, Z.pow_1_l in En by (done || lia).
  rewrite <-Z.mul_mod, Z.mul_1_l in En by done. done.
Qed.

(** The smallest exponent reached by remainders divides. *)
Lemma to_one_divisor n d : 0 ≤ n → to_one n → 0 < d → to_one d → ∃ m, 0 < m ≤ d ∧ to_one m ∧ (m | n).
Proof.
  intros Hn En. remember (Z.to_nat d) as k eqn:Hk. revert d Hk. induction (lt_wf k) as [k _ IH]. intros d -> Hd Ed.
  destruct (decide (n mod d = 0)) as [E|E].
  { exists d. split; [lia|]. split; [done|]. by apply Z.mod_divide; [lia|]. }
  pose proof (Z.mod_pos_bound n d Hd). destruct (IH (Z.to_nat (n mod d))) with (d := n mod d) as (m & Hm & H');
    [lia|done|lia|by apply to_one_rem|]. exists m. split; [lia|done].
Qed.

Definition factors : list Z := [2; 3; 7; 11; 31; 151; 331].

Lemma factors_prime q : q ∈ factors → Z.prime q.
Proof.
  revert q. apply Forall_forall. unfold factors.
  repeat apply Forall_cons_2; try apply Forall_nil_2; apply prime_check; vm_compute; reflexivity.
Qed.

Lemma factors_of k : (k | modulus - 1) → 1 < k → ∃ q, q ∈ factors ∧ (q | k).
Proof.
  intros Hk H1. destruct (decide (Forall (λ q, k mod q ≠ 0) factors)) as [Hf|Hf].
  - assert (Hc : Z.coprime k (modulus - 1)); [|unfold Z.coprime in Hc; rewrite (proj1 (Z.divide_gcd_iff k _ ltac:(lia)) Hk) in Hc; lia].
    change (modulus - 1) with (2 * (3 * (3 * (7 * (11 * (31 * (151 * 331))))))).
    assert (Hq : ∀ q, q ∈ factors → Z.coprime k q).
    { intros q Hq. symmetry. apply Z.coprime_prime_l; [by apply factors_prime|].
      intros D%Z.mod_divide; [by apply (proj1 (Forall_forall _ _) Hf q Hq)|]. by destruct (factors_prime q Hq); lia. }
    repeat apply Z.coprime_mul_r; apply Hq; unfold factors; repeat (try (by left); right).
  - apply not_Forall_Exists in Hf; [|intros x; apply _]. apply Exists_exists in Hf as (q & Hq & Hd). exists q.
    split; [done|]. apply Z.mod_divide; [by destruct (factors_prime q Hq); lia|by apply dec_stable].
Qed.

(** No smaller exponent than [modulus - 1] gives 1. *)
Lemma order d : 0 < d < modulus - 1 → ¬ to_one d.
Proof.
  intros Hd Ed. assert (EN : to_one (modulus - 1)).
  { unfold to_one. rewrite <-Zpow_mod_correct by (vm_compute; discriminate). vm_compute. reflexivity. }
  destruct (to_one_divisor (modulus - 1) d) as (m & Hm & Em & [k Hk]); [vm_compute; discriminate|exact EN|apply Hd|exact Ed|].
  clear EN Ed. destruct (factors_of k) as (q & Hq & [j ->]); [by exists m; rewrite Z.mul_comm|nia|].
  destruct (factors_prime q Hq) as [Hq1 _]. assert (Hj : 0 ≤ j) by (change (modulus - 1) with 2147483646 in Hk; nia).
  assert (E : to_one (m * j)).
  { unfold to_one in *. rewrite Z.pow_mul_r, Zpower_mod, Em, Z.pow_1_l by lia. reflexivity. }
  replace (m * j) with ((modulus - 1) / q) in E.
  - unfold to_one in E. rewrite <-Zpow_mod_correct in E by (vm_compute; discriminate). revert E. clear -Hq.
    unfold factors in Hq. repeat (apply elem_of_cons in Hq as [->|Hq]; [vm_compute; discriminate|]). by apply not_elem_of_nil in Hq.
  - rewrite Hk. replace (j * q * m) with (m * j * q) by lia. apply Z.div_mul. lia.
Qed.

Lemma iter_rand k ctx : 0 ≤ ctx → 0 ≤ Nat.iter (S k) do_rand ctx < modulus - 1 ∧
  Nat.iter (S k) do_rand ctx = (multiplier ^ Z.of_nat (S k) * (ctx mod (modulus - 1) + 1)) mod modulus - 1.
Proof.
  intros H. induction k as [|k [IHr IH]].
  - destruct (do_rand_eq ctx H) as [E R]. split; [exact R|]. cbn [Nat.iter nat_rect]. by rewrite E, Z.pow_1_r.
  - rewrite Nat.iter_succ. destruct (do_rand_eq _ (proj1 IHr)) as [E R]. split; [exact R|].
    rewrite E, (Z.mod_small _ (modulus - 1)), IH, Z.sub_add, Z.mul_mod_idemp_r by (done || lia).
    rewrite (Nat2Z.inj_succ (S k)), Z.pow_succ_r, Z.mul_assoc by lia. done.
Qed.

(** Two states that are the same are a period apart. *)
Lemma rand_distinct ctx (i j : nat) : 0 ≤ ctx → (i < j)%nat → Z.of_nat j - Z.of_nat i < modulus - 1 →
  Nat.iter (S i) do_rand ctx ≠ Nat.iter (S j) do_rand ctx.
Proof.
  intros H Hij Hd E. destruct (iter_rand i ctx H) as [_ Ei], (iter_rand j ctx H) as [_ Ej]. rewrite Ei, Ej in E.
  pose proof (Z.mod_pos_bound ctx (modulus - 1) ltac:(done)) as Hb. set (x := ctx mod (modulus - 1) + 1) in *.
  apply (order (Z.of_nat j - Z.of_nat i)); [lia|]. unfold to_one. clear Ei Ej.
  replace (Z.of_nat (S j)) with (Z.of_nat (S i) + (Z.of_nat j - Z.of_nat i)) in E by lia.
  rewrite Z.pow_add_r in E by lia. set (d := Z.of_nat j - Z.of_nat i) in *. set (a := multiplier ^ Z.of_nat (S i)) in *.
  assert (Ha : Z.coprime modulus (a * x)).
  { apply Z.coprime_mul_r; [apply Z.coprime_pow_r; [lia|apply multiplier_coprime]|].
    apply Z.coprime_prime_small; [apply prime_modulus|lia]. }
  assert (D : (modulus | (a * x) * (multiplier ^ d - 1))).
  { apply Z.mod_divide; [done|]. replace (a * x * (multiplier ^ d - 1)) with (a * multiplier ^ d * x - a * x) by lia.
    rewrite Zminus_mod. replace ((a * multiplier ^ d * x) mod modulus) with ((a * x) mod modulus) by lia. by rewrite Z.sub_diag. }
  apply Z.gauss in D; [|exact Ha]. destruct D as [q D]. symmetry. apply (Z.mod_unique _ _ q); [left; done|lia].
Qed.

(** The generator of [grind.c].  [do_rand] computes, on the range of its
    state, the multiplication by [7^5] modulo [2^31 - 1] that its comment names,
    without leaving that range, and it has the full period: no two of the first
    [2^31 - 2] states are the same, whatever the seed. *)
Theorem do_rand_spec ctx : 0 ≤ ctx →
  do_rand ctx = (7 ^ 5 * (ctx mod 0x7ffffffe + 1)) mod (2 ^ 31 - 1) - 1 ∧ 0 ≤ do_rand ctx ≤ 0x7ffffffd ∧
  ∀ i j : nat, (i < j)%nat → Z.of_nat j - Z.of_nat i < 2 ^ 31 - 2 →
    Nat.iter (S i) do_rand ctx ≠ Nat.iter (S j) do_rand ctx.
Proof.
  intros H. destruct (do_rand_eq ctx H) as [E R]. change (2 ^ 31 - 1) with modulus. change (2 ^ 31 - 2) with (modulus - 1).
  split_and!; [exact E|lia|change 0x7ffffffd with (modulus - 2); lia|]. intros i j. by apply rand_distinct.
Qed.

Lemma do_rand_spec_witness : do_rand 1 = 33613 ∧ Nat.iter 1 do_rand 1 ≠ Nat.iter 1001 do_rand 1.
Proof.
  destruct (do_rand_spec 1) as (E & _ & H); [lia|]. split; [exact E|]. apply (H 0%nat 1000%nat); lia.
Defined.
