(* ===== verification/Grep.v ===== *)
(** * Searching ([user/grep.c])

    The matcher of patterns, against a declarative reading of the patterns, and
    the loop that reads lines through a buffer of 1024 bytes, against the list
    of the lines of its input. *)

From Stdlib Require Import Ascii.
From S2P Require Import Prelude Cstring User Ulib Uprintf.

(** ** The matcher *)

(** [do if(matchhere(re, text)) return 1; while( *text != 0 && ...)]: the
    function is given what [matchhere(re, .)] does. *)
Fixpoint matchstar (here : list Z → option bool) (c : Z) (text : list Z) : option bool :=
  b ← here text;
  if b : bool then Some true else
  match text with
  | [] => None
  | t :: text => if negb (t =? 0) && ((t =? c) || (c =? ch ".")) then matchstar here c text else Some false
  end.

Fixpoint matchhere (re text : list Z) : option bool :=
  match re with
  | [] => None
  | r0 :: re1 =>
      if r0 =? 0 then Some true else
      match re1 with
      | [] => None
      | r1 :: re2 =>
          if r1 =? ch "*" then matchstar (matchhere re2) r0 text
          else if (r0 =? ch "$") && (r1 =? 0) then t ← head text; Some (t =? 0)
          else
            t ← head text;
            if negb (t =? 0) && ((r0 =? ch ".") || (r0 =? t)) then matchhere re1 (tail text) else Some false
      end
  end.

(** The loop of [match] over the positions of the text. *)
Fixpoint match_loop (re text : list Z) : option bool :=
  b ← matchhere re text;
  if b : bool then Some true else
  match text with
  | [] => None
  | t :: text => if negb (t =? 0) then match_loop re text else Some false
  end.

Definition match_ (re text : list Z) : option bool :=
  r0 ← head re;
  if r0 =? ch "^" then matchhere (tail re) text else match_loop re text.

(** ** The program *)

(** One iteration of the loop over the lines in the buffer; [p] is an offset. *)
Definition scan_body (pattern : list Z) (x : nat * list Z) : uprog (nat * list Z + nat * list Z) :=
  let '(p, buf) := x in
  q ← opt_or_segv (strchr (drop p buf) newline);
  match q with
  | None => mret (inr (p, buf))
  | Some i =>
      let q := (p + i)%nat in
      buf ← opt_or_segv (put buf q 0);
      b ← opt_or_segv (match_ pattern (drop p buf));
      buf ← (if b : bool then
               buf ← opt_or_segv (put buf q newline);
               call (Write 1 (take (S q - p) (drop p buf)));;
               mret buf
             else mret buf);
      mret (inl (S q, buf))
  end.

Definition BUF : nat := 1024.

(** One iteration of the loop that fills the buffer; [m] bytes of it are in use. *)
Definition grep_body (pattern : list Z) (fd : Z) (x : nat * list Z) : uprog (nat * list Z + list Z) :=
  let '(m, buf) := x in
  '(n, bs) ← call (Read fd (Z.of_nat BUF - Z.of_nat m - 1));
  if 0 <? n then
    let buf := splice m bs buf in
    let m := (m + Z.to_nat n)%nat in
    buf ← opt_or_segv (put buf m 0);
    '(p, buf) ← uloop (S BUF) (scan_body pattern) (O, buf);
    if (0 <? m)%nat then
      let m := (m - p)%nat in
      buf ← opt_or_segv (memmove buf 0 p (Z.of_nat m));
      mret (inl (m, buf))
    else mret (inl (m, buf))
  else mret (inr buf).

(** [buf] is the global array; the result is its contents at the end. *)
Definition grep (fuel : nat) (pattern : list Z) (fd : Z) (buf : list Z) : uprog (list Z) :=
  uloop fuel (grep_body pattern fd) (O, buf).

Fixpoint grep_files (fuel : nat) (pattern : list Z) (buf : list Z) (files : list (list Z)) : uprog unit :=
  match files with
  | [] => mret tt
  | path :: files =>
      fd ← call (Open path 0);
      if fd <? 0 then printf "grep: cannot open %s\n" [AStr (Some (path ++ [0]))];; Exit 1 else
      buf ← grep fuel pattern fd buf;
      call (Close fd);;
      grep_files fuel pattern buf files
  end.

Definition grep_main (fuel : nat) (buf : list Z) (argv : list (list Z)) : uprog unit :=
  match argv with
  | _ :: pattern :: [] => grep fuel (pattern ++ [0]) 0 buf;; Exit 0
  | _ :: pattern :: files => grep_files fuel (pattern ++ [0]) buf files;; Exit 0
  | _ => fprintf 2 "usage: grep pattern [file ...]\n" [];; Exit 1
  end.

(** ** Patterns *)

(** A pattern is a sequence of items, each one character or any number of
    characters, that may have to end at the end of the text. *)
Variant atom : Type := AnyChar | Char (c : Z).
Variant item : Type := One (a : atom) | Star (a : atom).

Definition atom_of (c : Z) : atom := if c =? ch "." then AnyChar else Char c.

Definition accepts (a : atom) (c : Z) : Prop := match a with AnyChar => True | Char d => c = d end.

(** The items of a pattern, and whether a final [$] anchors it.  A [*] that
    follows nothing stands for itself, and so does a [$] that is not last. *)
Fixpoint items (re : list Z) : list item * bool :=
  match re with
  | [] => ([], false)
  | c :: re1 =>
      match re1 with
      | [] => if c =? ch "$" then ([], true) else ([One (atom_of c)], false)
      | d :: re2 =>
          if d =? ch "*" then (Star (atom_of c) :: (items re2).1, (items re2).2)
          else (One (atom_of c) :: (items re1).1, (items re1).2)
      end
  end.

(** The texts that a sequence of items describes. *)
Fixpoint describes (l : list item) (s : list Z) : Prop :=
  match l with
  | [] => s = []
  | One a :: l => ∃ c s', s = c :: s' ∧ accepts a c ∧ describes l s'
  | Star a :: l => ∃ u v, s = u ++ v ∧ Forall (accepts a) u ∧ describes l v
  end.

(** A prefix of the text is described, all of it if the pattern is anchored. *)
Definition matches_here (p : list item * bool) (text : list Z) : Prop :=
  ∃ u v, text = u ++ v ∧ describes p.1 u ∧ (p.2 = true → v = []).

(** The pattern occurs in the text, at its beginning if it starts with [^]. *)
Definition matches (re text : list Z) : Prop :=
  match re with
  | c :: re' =>
      if c =? ch "^" then matches_here (items re') text
      else ∃ x y, text = x ++ y ∧ matches_here (items re) y
  | [] => True
  end.

(** ** The matcher finds the patterns *)

Lemma atom_of_spec c t : accepts (atom_of c) t ↔ (t =? c) || (c =? ch ".") = true.
Proof.
  unfold atom_of. rewrite orb_true_iff, !Z.eqb_eq. destruct (Z.eqb_spec c (ch ".")); simpl; tauto.
Qed.

Lemma matches_here_one a l e s :
  matches_here (One a :: l, e) s ↔ ∃ c s', s = c :: s' ∧ accepts a c ∧ matches_here (l, e) s'.
Proof.
  unfold matches_here. simpl. split.
  - intros (u & v & -> & (c & s' & -> & Ha & Hd) & He). exists c, (s' ++ v). eauto 10.
  - intros (c & s' & -> & Ha & u & v & -> & Hd & He). exists (c :: u), v. eauto 10.
Qed.

Lemma matches_here_star a l e s :
  matches_here (Star a :: l, e) s ↔ ∃ u v, s = u ++ v ∧ Forall (accepts a) u ∧ matches_here (l, e) v.
Proof.
  unfold matches_here. simpl. split.
  - intros (w & v & -> & (u & u' & -> & Ha & Hd) & He). exists u, (u' ++ v). rewrite app_assoc. eauto 10.
  - intros (u & w & -> & Ha & u' & v & -> & Hd & He). exists (u ++ u'), v. rewrite app_assoc. eauto 10.
Qed.

Lemma matches_here_nil e s : matches_here ([], e) s ↔ (e = true → s = []).
Proof.
  unfold matches_here. simpl. split.
  - by intros (u & v & -> & -> & He).
  - intros He. by exists [], s.
Qed.

(** [decides o P]: a result is given, and it is that of [P]. *)
Definition decides (o : option bool) (P : Prop) : Prop := ∃ b, o = Some b ∧ (b = true ↔ P).

Lemma decides_iff o P Q : decides o P → (P ↔ Q) → decides o Q.
Proof. intros (b & -> & H) HPQ. exists b. by rewrite H. Qed.

Lemma decides_true (P : Prop) : P → decides (Some true) P.
Proof. intros HP. by exists true. Qed.

Lemma decides_false (P : Prop) : ¬ P → decides (Some false) P.
Proof. intros HP. by exists false. Qed.

Lemma matchstar_decides here c text r (P : list Z → Prop) :
  (∀ t, no_nul t → decides (here (t ++ 0 :: r)) (P t)) → no_nul text →
  decides (matchstar here c (text ++ 0 :: r))
    (∃ u v, text = u ++ v ∧ Forall (accepts (atom_of c)) u ∧ P v).
Proof.
  intros Hh. induction 1 as [|t text Ht Hn IH].
  - destruct (Hh [] ltac:(constructor)) as (b & E & Hb). simpl in *. rewrite E. simpl. destruct b.
    + apply decides_true. exists [], []. split_and!; [done|constructor|by apply Hb].
    + apply decides_false. intros (u & v & Huv & _ & HP).
      symmetry in Huv. apply app_eq_nil in Huv as [-> ->]. by apply Hb in HP.
  - destruct (Hh (t :: text) ltac:(by constructor)) as (b & E & Hb). simpl in *. rewrite E. simpl. destruct b.
    { apply decides_true. exists [], (t :: text). split_and!; [done|constructor|by apply Hb]. }
    rewrite (proj2 (Z.eqb_neq t 0) Ht). simpl. destruct ((t =? c) || (c =? ch ".")) eqn:Hc.
    + apply atom_of_spec in Hc. apply decides_iff with (1 := IH). split.
      * intros (u & v & -> & Hu & HP). exists (t :: u), v. eauto.
      * intros ([|x u] & v & Huv & Hu & HP); simpl in Huv; [subst v; by apply Hb in HP|].
        injection Huv as <- ->. apply Forall_cons in Hu as [_ Hu]. eauto.
    + apply decides_false. intros ([|x u] & v & Huv & Hu & HP); simpl in Huv.
      * subst v. by apply Hb in HP.
      * injection Huv as <- ->. apply Forall_cons in Hu as [Hu _]. apply atom_of_spec in Hu. congruence.
Qed.

(** The last branch of [matchhere]: one character. *)
Lemma matchone_decides here c text r p :
  (∀ t, no_nul t → decides (here (t ++ 0 :: r)) (matches_here p t)) → no_nul text →
  decides (t ← head (text ++ 0 :: r);
      if negb (t =? 0) && ((c =? ch ".") || (c =? t)) then here (tail (text ++ 0 :: r)) else Some false)
    (matches_here (One (atom_of c) :: p.1, p.2) text).
Proof.
  intros Hh [|t text' Ht Hn]; simpl.
  { apply decides_false. rewrite matches_here_one. by intros (x & y & ? & _). }
  rewrite (proj2 (Z.eqb_neq t 0) Ht), (Z.eqb_sym c t), orb_comm. cbn [negb andb].
  destruct ((t =? c) || (c =? ch ".")) eqn:Hm.
  - apply decides_iff with (1 := Hh _ Hn). rewrite matches_here_one, <-surjective_pairing.
    apply atom_of_spec in Hm. split; [by intros H; exists t, text'|]. by intros (x & y & [= <- <-] & _ & H).
  - apply decides_false. rewrite matches_here_one. intros (x & y & [= <- <-] & Ha & _).
    apply atom_of_spec in Ha. congruence.
Qed.

Lemma matchhere_decides re text r r' :
  no_nul re → no_nul text →
  decides (matchhere (re ++ 0 :: r) (text ++ 0 :: r')) (matches_here (items re) text).
Proof.
  remember (length re) as n eqn:Hn. revert re text Hn.
  induction (lt_wf n) as [n _ IH]. intros re text -> Hre Ht.
  destruct re as [|c re1]; [by apply decides_true, matches_here_nil|].
  apply Forall_cons in Hre as [Hc Hre]. cbn [app matchhere]. rewrite (proj2 (Z.eqb_neq c 0) Hc).
  destruct re1 as [|d re2]; cbn [app items].
  - change (0 =? ch "*") with false. rewrite andb_true_r. destruct (Z.eqb_spec c (ch "$")) as [->|Hd].
    + destruct Ht as [|t text Ht _]; simpl; [by apply decides_true, matches_here_nil|].
      rewrite (proj2 (Z.eqb_neq t 0) Ht). apply decides_false. rewrite matches_here_nil. intros H. by specialize (H eq_refl).
    + apply (matchone_decides (matchhere (0 :: r)) c text r' ([], false)); [|done].
      intros t' _. by apply decides_true, matches_here_nil.
  - apply Forall_cons in Hre as [Hd0 Hre]. destruct (Z.eqb_spec d (ch "*")) as [->|Hd].
    + eapply decides_iff; [|symmetry; apply matches_here_star].
      apply matchstar_decides; [|done]. intros t' Hn'. rewrite <-surjective_pairing.
      by apply (IH (length re2)); [simpl; lia|..].
    + rewrite (proj2 (Z.eqb_neq d 0) Hd0), andb_false_r.
      apply (matchone_decides (matchhere (d :: re2 ++ 0 :: r)) c text r' (items (d :: re2))); [|done].
      intros t' Hn'. apply (IH (length (d :: re2)) ltac:(simpl; lia) (d :: re2)); [done|by constructor|done].
Qed.

Lemma match_loop_decides re text r r' :
  no_nul re → no_nul text →
  decides (match_loop (re ++ 0 :: r) (text ++ 0 :: r')) (∃ x y, text = x ++ y ∧ matches_here (items re) y).
Proof.
  intros Hre. induction 1 as [|t text Ht Hn IH]; cbn [app match_loop].
  - destruct (matchhere_decides re [] r r' Hre ltac:(constructor)) as (b & E & Hb). cbn [app] in E.
    rewrite E. cbn [mbind option_bind]. destruct b.
    + apply decides_true. exists [], []. split; [done|by apply Hb].
    + apply decides_false. intros (x & y & Hxy & H). symmetry in Hxy. apply app_eq_nil in Hxy as [-> ->].
      by apply Hb in H.
  - destruct (matchhere_decides re (t :: text) r r' Hre ltac:(by constructor)) as (b & E & Hb). cbn [app] in E.
    rewrite E. cbn [mbind option_bind]. destruct b.
    + apply decides_true. exists [], (t :: text). split; [done|by apply Hb].
    + rewrite (proj2 (Z.eqb_neq t 0) Ht). cbn [negb]. apply decides_iff with (1 := IH). split.
      * intros (x & y & -> & H). by exists (t :: x), y.
      * intros ([|z x] & y & Hxy & H); simpl in Hxy; [subst y; by apply Hb in H|].
        injection Hxy as <- ->. by exists x, y.
Qed.

Lemma match_decides re text r r' :
  no_nul re → no_nul text → decides (match_ (re ++ 0 :: r) (text ++ 0 :: r')) (matches re text).
Proof.
  intros Hre Ht. unfold match_. destruct re as [|c re].
  - cbn [app head mbind option_bind]. change (0 =? ch "^") with false.
    apply decides_iff with (1 := match_loop_decides [] text r r' Hre Ht). simpl. split; [done|].
    intros _. exists [], text. split; [done|]. by apply matches_here_nil.
  - cbn [app head tail mbind option_bind]. cbn [matches]. destruct (Z.eqb_spec c (ch "^")).
    + apply matchhere_decides; [|done]. by apply Forall_cons in Hre as [_ ?].
    + by apply (match_loop_decides (c :: re)).
Qed.

(** ** Lines *)

(** The complete lines of a text, when [cur] came before it, and what comes
    after the last newline. *)
Fixpoint split_lines (cur text : list Z) : list (list Z) :=
  match text with
  | [] => []
  | c :: text => if c =? newline then cur :: split_lines [] text else split_lines (cur ++ [c]) text
  end.

Fixpoint leftover (cur text : list Z) : list Z :=
  match text with
  | [] => cur
  | c :: text => if c =? newline then leftover [] text else leftover (cur ++ [c]) text
  end.

Lemma split_lines_app cur a b : split_lines cur (a ++ b) = split_lines cur a ++ split_lines (leftover cur a) b.
Proof. revert cur. induction a as [|c a IH]; intros cur; simpl; [done|]. destruct (c =? newline); simpl; by rewrite IH. Qed.

Lemma leftover_app cur a b : leftover cur (a ++ b) = leftover (leftover cur a) b.
Proof. revert cur. induction a as [|c a IH]; intros cur; simpl; [done|]. by destruct (c =? newline). Qed.

Lemma split_no_newline cur l : newline ∉ l → split_lines cur l = [] ∧ leftover cur l = cur ++ l.
Proof.
  revert cur. induction l as [|c l IH]; intros cur H; simpl; [by rewrite app_nil_r|].
  apply not_elem_of_cons in H as [Hc Hl]. rewrite (proj2 (Z.eqb_neq c _)) by congruence.
  destruct (IH (cur ++ [c]) Hl) as [-> ->]. by rewrite <-app_assoc.
Qed.

Lemma split_line l text : newline ∉ l →
  split_lines [] (l ++ newline :: text) = l :: split_lines [] text ∧ leftover [] (l ++ newline :: text) = leftover [] text.
Proof.
  intros Hl. rewrite split_lines_app, leftover_app. destruct (split_no_newline [] l Hl) as [-> ->]. done.
Qed.

Lemma leftover_no_newline cur text : newline ∉ cur → newline ∉ leftover cur text.
Proof.
  revert cur. induction text as [|c text IH]; intros cur H; simpl; [done|].
  destruct (Z.eqb_spec c newline); apply IH; [apply not_elem_of_nil|].
  rewrite not_elem_of_app. split; [done|]. by apply not_elem_of_cons; split; [congruence|apply not_elem_of_nil].
Qed.

Lemma leftover_no_nul cur text : no_nul cur → no_nul text → no_nul (leftover cur text).
Proof.
  intros Hc Ht. revert cur Hc. induction Ht as [|c text Hx _ IH]; intros cur Hc; simpl; [done|].
  destruct (c =? newline); apply IH; [constructor|]. apply Forall_app. split; [done|]. by constructor.
Qed.

(** The first line is at least as long as what came before. *)
Lemma split_lines_first cur text l ls : split_lines cur text = l :: ls → (length cur ≤ length l)%nat.
Proof.
  revert cur. induction text as [|c text IH]; intros cur; simpl; [done|].
  destruct (c =? newline); [intros [= -> _]; lia|]. intros H%IH. rewrite length_app in H. lia.
Qed.

(** ** The loops *)

Section GrepLoop.
Context {W : Type} (h : os W) `{!Streams h}.
Context (pattern : list Z) (Hpat : no_nul pattern).

Local Abbreviation emits := (emits h).

(** Does the line match? *)
Definition selected (l : list Z) : bool := default false (match_ (pattern ++ [0]) (l ++ [0])).

Definition kept (ls : list (list Z)) : list Z := ls ≫= λ l, if selected l then l ++ [newline] else [].

Lemma selected_match l r : no_nul l → match_ (pattern ++ [0]) (l ++ 0 :: r) = Some (selected l).
Proof.
  intros Hl. destruct (match_decides pattern l [] r Hpat Hl) as (b & E & Hb).
  destruct (match_decides pattern l [] [] Hpat Hl) as (b' & E' & Hb').
  unfold selected. rewrite E, E'. simpl. f_equal. destruct b, b'; intuition congruence.
Qed.

(** One line of the buffer. *)
Lemma scan_line p buf l data r w :
  drop p buf = l ++ newline :: data ++ 0 :: r → newline ∉ l → no_nul l →
  ∃ buf' w', run h (scan_body (pattern ++ [0]) (p, buf)) w = Returned (inl (S (p + length l), buf')) w' ∧
    emits 1 (kept [l]) w w' ∧ drop (S (p + length l)) buf' = data ++ 0 :: r ∧ length buf' = length buf.
Proof.
  intros Hd Hl Hn. set (q := (p + length l)%nat). assert (Hq : (q < length buf)%nat).
  { apply (f_equal length) in Hd. rewrite length_drop, length_app in Hd. simpl in Hd. lia. }
  assert (Hput : ∀ v (b : list Z), drop p b = l ++ newline :: data ++ 0 :: r ∨ drop p b = l ++ 0 :: data ++ 0 :: r →
      length b = length buf → drop p (<[q:=v]> b) = l ++ v :: data ++ 0 :: r).
  { intros v b Hb Lb. rewrite <-(take_drop p b) at 1. rewrite insert_app_r_alt by (rewrite length_take; lia).
    rewrite drop_app_ge by (rewrite length_take; lia). rewrite length_take, Nat.min_l, Nat.sub_diag, drop_0 by lia.
    replace (q - p)%nat with (length l + 0)%nat by lia.
    destruct Hb as [-> | ->]; by rewrite insert_app_r. }
  assert (Hnext : ∀ v b, drop p b = l ++ v :: data ++ 0 :: r → drop (S q) b = data ++ 0 :: r).
  { intros v b Hb. replace (S q) with (p + S (length l))%nat by lia. rewrite <-drop_drop, Hb.
    rewrite drop_app_ge by lia. by replace (S (length l) - length l)%nat with 1%nat by lia. }
  set (b0 := <[q:=0]> buf). assert (Hb0 : drop p b0 = l ++ 0 :: data ++ 0 :: r) by (apply Hput; auto).
  assert (Lb0 : length b0 = length buf) by apply length_insert.
  unfold scan_body. rewrite Hd, strchr_found, run_some, put_in, run_some by done. fold q b0.
  rewrite Hb0, selected_match, run_some by done.
  unfold kept. cbn [mbind list_bind]. destruct (selected l).
  - rewrite put_in by lia. set (b1 := <[q:=newline]> b0).
    assert (Hb1 : drop p b1 = l ++ newline :: data ++ 0 :: r) by (apply Hput; auto).
    assert (Hw : take (S q - p) (drop p b1) = l ++ [newline]).
    { rewrite Hb1. replace (S q - p)%nat with (length (l ++ [newline])) by (rewrite length_app; simpl; lia).
        change (newline :: data ++ 0 :: r) with ([newline] ++ data ++ 0 :: r). by rewrite app_assoc, take_app_length. }
    destruct (run_write h 1 (l ++ [newline]) w) as (w' & E & M). exists b1, w'. split_and!.
    + rewrite run_bind, run_some. by rewrite Hw, run_bind, E.
    + by rewrite app_nil_r.
    + by apply Hnext with newline.
    + unfold b1. by rewrite length_insert.
  - exists b0, w. split_and!; [done|apply emits_nil|by apply Hnext with 0|done].
Qed.

Lemma kept_app a b : kept (a ++ b) = kept a ++ kept b.
Proof. apply bind_app. Qed.

(** All the lines of the buffer. *)
Lemma scan_lines fuel p buf data r w :
  drop p buf = data ++ 0 :: r → no_nul data → (length data < fuel)%nat →
  ∃ p' buf' w', run h (uloop fuel (scan_body (pattern ++ [0])) (p, buf)) w = Returned (p', buf') w' ∧
    emits 1 (kept (split_lines [] data)) w w' ∧ drop p' buf' = leftover [] data ++ 0 :: r ∧
    length buf' = length buf ∧ (p' + length (leftover [] data) = p + length data)%nat.
Proof.
  revert p buf data w. induction fuel as [|fuel IH]; intros p buf data w Hd Hn Hf; [lia|].
  cbn [uloop]. destruct (decide (newline ∈ data)) as [Hin|Hnin].
  - apply list_elem_of_split_l in Hin as (l & data' & -> & Hl). apply Forall_app in Hn as [Hnl Hn].
    apply Forall_cons in Hn as [_ Hn]. rewrite length_app in Hf. simpl in Hf.
    rewrite <-app_assoc in Hd. cbn [app] in Hd.
    destruct (scan_line p buf l data' r w Hd Hl Hnl) as (b1 & w1 & E1 & M1 & D1 & L1).
    rewrite (run_bind_returned _ _ _ _ _ _ E1).
    destruct (IH (S (p + length l)) b1 data' w1 D1 Hn) as (p' & b2 & w2 & E2 & M2 & D2 & L2 & P2); [lia|].
    destruct (split_line l data' Hl) as [-> ->]. exists p', b2, w2. split_and!; [done| |done|lia|].
    + change (l :: ?x) with ([l] ++ x). rewrite kept_app. by apply emits_app with w1.
    + rewrite length_app. simpl. lia.
  - destruct (split_no_newline [] data Hnin) as [-> ->]. exists p, buf, w.
    split_and!; [|apply emits_nil|done|done|done].
    unfold scan_body. by rewrite Hd, strchr_absent by done.
Qed.

(** Reading into the buffer after the bytes [pending], and ending the string. *)
Lemma fill_buffer m buf bs :
  (m + length bs < length buf)%nat →
  ∃ r, put (splice m bs buf) (m + length bs) 0 = Some (take m buf ++ bs ++ 0 :: r) ∧
    length (take m buf ++ bs ++ 0 :: r) = length buf.
Proof.
  intros Hl. assert (L : length (splice m bs buf) = length buf) by (apply length_splice; lia).
  rewrite put_in by lia. unfold splice in *.
  destruct (drop (m + length bs) buf) as [|x r] eqn:Hd.
  { apply (f_equal length) in Hd. rewrite length_drop in Hd. simpl in Hd. lia. }
  exists r. split; [|revert L; rewrite !length_app; simpl; lia].
  f_equal. rewrite app_assoc, (app_assoc _ bs). replace (m + length bs)%nat with (length (take m buf ++ bs) + 0)%nat.
  - by rewrite insert_app_r.
  - rewrite length_app, length_take. lia.
Qed.

(** What is kept of the buffer: the beginning of a line. *)
Lemma keep_leftover p buf (l r : list Z) :
  drop p buf = l ++ 0 :: r → ∃ buf', memmove buf 0 p (Z.of_nat (length l)) = Some buf' ∧
    take (length l) buf' = l ∧ length buf' = length buf.
Proof.
  intros Hd. assert (Hl : (p + length l ≤ length buf)%nat).
  { apply (f_equal length) in Hd. rewrite length_drop, length_app in Hd. simpl in Hd. lia. }
  assert (E : take (length l) (drop p buf) = l) by (by rewrite Hd, take_app_length).
  eexists. split; [apply memmove_ok; lia|]. rewrite Nat2Z.id, E. split.
  - unfold splice. rewrite take_0, app_nil_l. apply take_app_length.
  - apply length_splice. lia.
Qed.

(** One turn of the outer loop, when there are bytes to read. *)
Lemma grep_turn fd m buf k w w1 :
  let rest := unread fd w in
  length buf = BUF → newline ∉ take m buf → no_nul (take m buf) → no_nul rest →
  h _ (Read fd (Z.of_nat BUF - Z.of_nat m - 1)) w = Some ((Z.of_nat k, take k rest), w1) →
  (0 < k ≤ length rest)%nat → (m + k < BUF)%nat →
  ∃ m' buf' w2, run h (grep_body (pattern ++ [0]) fd (m, buf)) w = Returned (inl (m', buf')) w2 ∧
    length buf' = BUF ∧ (m' < BUF)%nat ∧ take m' buf' = leftover (take m buf) (take k rest) ∧
    emits 1 (kept (split_lines (take m buf) (take k rest))) w1 w2.
Proof.
  intros rest Lb Hnl Hn0 Hu E Hk Hm. assert (Ltk : length (take k rest) = k) by (rewrite length_take; lia).
  unfold grep_body. rewrite (run_bind_returned _ _ _ _ _ _ (run_call _ _ _ _ _ E)).
  rewrite (proj2 (Z.ltb_lt 0 (Z.of_nat k))), Nat2Z.id by lia.
  destruct (fill_buffer m buf (take k rest)) as (r & Hp & Lp); [lia|].
  rewrite Ltk in Hp. rewrite Hp, run_some. rewrite app_assoc in Lp. rewrite app_assoc.
  set (data := take m buf ++ take k rest) in *.
  assert (Hdata : no_nul data) by (apply Forall_app; split; [done|by apply Forall_take]).
  assert (Ldata : length data = (m + k)%nat) by (unfold data; rewrite length_app, length_take; lia).
  destruct (scan_lines (S BUF) 0 (data ++ 0 :: r) data r w1) as (p & b2 & w2 & E2 & M2 & D2 & L2 & P2);
    [done|done|lia|].
  rewrite (run_bind_returned _ _ _ _ _ _ E2), (proj2 (Nat.ltb_lt 0 (m + k))) by lia.
  destruct (keep_leftover p b2 _ r D2) as (b3 & E3 & T3 & L3).
  replace (m + k - p)%nat with (length (leftover [] data)) by lia. rewrite E3, run_some.
  assert (split_lines [] data = split_lines (take m buf) (take k rest) ∧
    leftover [] data = leftover (take m buf) (take k rest)) as [Hs1 Hs2].
  { unfold data. rewrite split_lines_app, leftover_app. by destruct (split_no_newline [] _ Hnl) as [-> ->]. }
  rewrite <-Hs1, <-Hs2. eexists _, b3, w2. split; [done|]. split_and!; [lia|lia|done|done].
Qed.

(** The last turn: the end of the input, or a full buffer. *)
Lemma grep_last fd m buf w w1 bs :
  h _ (Read fd (Z.of_nat BUF - Z.of_nat m - 1)) w = Some ((0, bs), w1) →
  run h (grep_body (pattern ++ [0]) fd (m, buf)) w = Returned (inr buf) w1.
Proof. intros E. unfold grep_body. by rewrite (run_bind_returned _ _ _ _ _ _ (run_call _ _ _ _ _ E)). Qed.

Lemma grep_loop fd fuel m buf w :
  length buf = BUF → (m < BUF)%nat → newline ∉ take m buf → no_nul (take m buf) → no_nul (unread fd w) →
  Forall (λ l, (length l < BUF - 1)%nat) (split_lines (take m buf) (unread fd w)) →
  (length (unread fd w) < fuel)%nat →
  ∃ buf' w', run h (uloop fuel (grep_body (pattern ++ [0]) fd) (m, buf)) w = Returned buf' w' ∧
    written 1 w' = written 1 w ++ kept (split_lines (take m buf) (unread fd w)) ∧
    (∀ fd', fd' ≠ 1 → written fd' w' = written fd' w).
Proof.
  revert m buf w. induction fuel as [|fuel IH]; intros m buf w Lb Hm Hnl Hn0 Hu Hs Hf; [lia|].
  destruct (read_spec fd (Z.of_nat BUF - Z.of_nat m - 1) w) as (k & w1 & E & Hk & Hk' & Hpos & Hun & _ & Hw);
    [lia|]. cbn [uloop]. destruct (decide (k = 0%nat)) as [->|Hk0].
  - rewrite (run_bind_returned _ _ _ _ _ _ (grep_last fd m buf w w1 _ E)).
    exists buf, w1. split_and!; [done| |intros fd' _; by rewrite Hw]. rewrite Hw.
    enough (split_lines (take m buf) (unread fd w) = []) as -> by (by rewrite app_nil_r).
    destruct (split_lines (take m buf) (unread fd w)) as [|l ls] eqn:El; [done|].
    apply Forall_cons in Hs as [Hl _]. pose proof (split_lines_first _ _ _ _ El) as Hle.
    rewrite length_take in Hle. assert (unread fd w ≠ []) as Hne by (by intros Hz; rewrite Hz in El).
    specialize (Hpos ltac:(lia) Hne). lia.
  - destruct (grep_turn fd m buf k w w1 Lb Hnl Hn0 Hu E) as (m' & b2 & w2 & E2 & L2 & Hm2 & T2 & M2 & M2' & M2'');
      [lia|lia|].
    rewrite (run_bind_returned _ _ _ _ _ _ E2). rewrite <-(take_drop k (unread fd w)), split_lines_app in Hs. rewrite <-(take_drop k (unread fd w)), split_lines_app.
    apply Forall_app in Hs as [_ Hs]. assert (Hun2 : unread fd w2 = drop k (unread fd w)) by (by rewrite M2'', Hun).
    destruct (IH m' b2 w2) as (b4 & w4 & E4 & W4 & W4'); rewrite ?T2, ?Hun2; try done.
    + by apply leftover_no_newline.
    + apply leftover_no_nul; [done|by apply Forall_take].
    + by apply Forall_drop.
    + rewrite length_drop. lia.
    + exists b4, w4. split_and!; [done| |].
      * rewrite W4, T2, Hun2, M2, Hw, kept_app. by rewrite app_assoc.
      * intros fd' Hne. by rewrite W4', M2', Hw.
Qed.

End GrepLoop.

Lemma split_lines_concat lines last :
  Forall (λ l, newline ∉ l) lines → newline ∉ last →
  split_lines [] (concat ((λ l, l ++ [newline]) <$> lines) ++ last) = lines.
Proof.
  intros H Hl. induction H as [|l lines Hn _ IH]; [by destruct (split_no_newline [] last Hl)|].
  rewrite fmap_cons. cbn [concat]. rewrite <-!app_assoc. cbn [app]. destruct (split_line l
    (concat ((λ l, l ++ [newline]) <$> lines) ++ last) Hn) as [-> _]. by rewrite IH.
Qed.

(** C28: [match] is the meaning of the patterns: for every pattern and every text
    (as C strings, with any bytes after their terminators) it returns, and it
    returns 1 exactly when the text has a part that the pattern describes, where
    [.] is any character, [c*] any number of [c], [^] the beginning of the text
    and [$] its end. *)
Theorem match_correct re text r r' :
  no_nul re → no_nul text →
  ∃ b, match_ (re ++ 0 :: r) (text ++ 0 :: r') = Some b ∧ (b = true ↔ matches re text).
Proof. intros Hre Ht. exact (match_decides re text r r' Hre Ht). Qed.

Lemma match_correct_witness : ∃ b, match_ (chars "b.*d$" ++ [0]) (chars "abccd" ++ [0]) = Some b ∧ b = true.
Proof.
  destruct (match_correct (chars "b.*d$") (chars "abccd") [] []) as (b & E & _);
    [repeat constructor; discriminate..|]. exists b. split; [exact E|]. revert E. vm_compute. congruence.
Defined.

(** [grep] writes to its standard output exactly the lines of the input that
    match the pattern, each with its newline and in order, whatever the number
    of bytes each [read] gives, as long as no line has more than 1022 characters
    (the input may end in a line without a newline, which is not printed). *)
Theorem grep_selects {W} (h : os W) `{!Streams h} fuel pattern fd buf lines last w :
  no_nul pattern → length buf = BUF →
  unread fd w = concat ((λ l, l ++ [newline]) <$> lines) ++ last →
  no_nul (unread fd w) → Forall (λ l, (newline ∉ l) ∧ (length l ≤ 1022)%nat) lines → newline ∉ last →
  (length (unread fd w) < fuel)%nat →
  ∃ buf' w' keep, run h (grep fuel (pattern ++ [0]) fd buf) w = Returned buf' w' ∧
    Forall2 (λ l b, b = true ↔ matches pattern l) lines keep ∧
    written 1 w' = written 1 w ++ concat (zip_with (λ l (b : bool), if b then l ++ [newline] else []) lines keep) ∧
    ∀ fd', fd' ≠ 1 → written fd' w' = written fd' w.
Proof.
  intros Hp Lb Hu Hn Hl Hlast Hf. apply Forall_and in Hl as [Hl Hlen].
  assert (Hs : split_lines [] (unread fd w) = lines) by (rewrite Hu; by apply split_lines_concat).
  assert (Hnl : Forall no_nul lines).
  { rewrite Hu in Hn. apply Forall_app in Hn as [Hn _]. clear -Hn. induction lines as [|l ls IH]; [constructor|].
    rewrite fmap_cons in Hn. cbn [concat] in Hn. apply Forall_app in Hn as [H1 H2]. apply Forall_app in H1 as [H1 _].
    constructor; [done|by apply IH]. }
  destruct (grep_loop h pattern Hp fd fuel 0 buf w) as (b & w' & E & O & O'); rewrite ?take_0, ?Hs; try done.
  - unfold BUF. lia.
  - apply not_elem_of_nil.
  - constructor.
  - eapply Forall_impl; [exact Hlen|]. unfold BUF. simpl. lia.
  - rewrite take_0, Hs in O. exists b, w', (selected pattern <$> lines). split_and!; [done| |rewrite O; f_equal|done].
    + clear -Hnl Hp. induction Hnl as [|l ls Hl _ IH]; constructor; [|done].
      destruct (match_decides pattern l [] [] Hp Hl) as (b & E & Hb).
      rewrite (selected_match pattern Hp l [] Hl) in E. injection E as ->. done.
    + clear. unfold kept. induction lines as [|l ls IH]; [done|]. cbn. by rewrite IH.
Qed.

Lemma grep_selects_witness : ∃ w' buf',
  run (pipes_os 6) (grep 30 (chars "^a.*c" ++ [0]) 0 (replicate BUF 7))
    (mk_pipes (λ _, chars "abc\nxac\nacme\nac") (λ _, [])) = Returned buf' w' ∧
  p_out w' 1 = chars "abc\nacme\n".
Proof.
  destruct (grep_selects (pipes_os 6) 30 (chars "^a.*c") 0 (replicate BUF 7) [chars "abc"; chars "xac"; chars "acme"]
    (chars "ac") (mk_pipes (λ _, chars "abc\nxac\nacme\nac") (λ _, []))) as (buf' & w' & keep & E & K & O & _).
  - repeat constructor; discriminate.
  - apply length_replicate.
  - done.
  - repeat constructor; discriminate.
  - apply (bool_decide_eq_true_1 _). vm_compute. reflexivity.
  - apply (bool_decide_eq_true_1 _). vm_compute. reflexivity.
  - vm_compute. lia.
  - exists w', buf'. split; [exact E|].
    change ((match Returned buf' w' with Returned _ w => p_out w 1 | _ => [] end) = chars "abc\nacme\n").
    rewrite <-E. vm_compute. reflexivity.
Defined.
