(* ===== verification/Uprogs.v ===== *)
(** * User programs ([user/cat.c], [echo.c], [wc.c], [ls.c], [init.c], ...)

    Each program is a function of its arguments ([argv], the strings without
    their terminators; [argv[0]] first).  The bytes that [read] stores in a
    buffer are those of its answer.  A program that loops on its input takes a
    bound for the loop of the model; the theorems give one that is enough. *)

From Stdlib Require Import Ascii.
From S2P Require Import Prelude Cstring State Fs Sysfile User Ulib Uprintf.

(** A string argument of [printf]. *)
Definition AString (s : list Z) : uarg := AStr (Some (s ++ [0])).

(** ** [cat.c] *)

Definition cat_body (fd : Z) (_ : unit) : uprog (unit + Z) :=
  '(n, bs) ← call (Read fd 512);
  if 0 <? n then
    r ← call (Write 1 bs);
    if negb (r =? n) then fprintf 2 "cat: write error\n" [];; Exit 1 else mret (inl tt)
  else mret (inr n).

Definition cat (fuel : nat) (fd : Z) : uprog unit :=
  n ← uloop fuel (cat_body fd) tt;
  if n <? 0 then fprintf 2 "cat: read error\n" [];; Exit 1 else mret tt.

Definition cat_main (fuel : nat) (argv : list (list Z)) : uprog unit :=
  if (length argv <=? 1)%nat then cat fuel 0;; Exit 0 else
  ufor (tail argv) (λ arg,
    fd ← call (Open arg 0);
    if fd <? 0 then fprintf 2 "cat: cannot open %s\n" [AString arg];; Exit 1 else
    cat fuel fd;;
    call (Close fd);;
    mret tt);;
  Exit 0.

(** ** [echo.c] *)

(** The arguments from [argv[i]] on. *)
Fixpoint echo_loop (args : list (list Z)) : uprog unit :=
  match args with
  | [] => mret tt
  | arg :: args =>
      call (Write 1 arg);;
      (match args with
       | _ :: _ => call (Write 1 (chars " "))
       | [] => call (Write 1 (chars "\n"))
       end);;
      echo_loop args
  end.

Definition echo_main (argv : list (list Z)) : uprog unit := echo_loop (tail argv);; Exit 0.

(** ** [wc.c] *)

(** The counters [l], [w], [c] and [inword]. *)
Record counts : Type := mk_counts { n_l : Z; n_w : Z; n_c : Z; inword : bool }.

Definition wc_char (x : counts) (b : Z) : counts :=
  let c := s32 (x.(n_c) + 1) in
  let l := if b =? newline then s32 (x.(n_l) + 1) else x.(n_l) in
  match strchr (chars " \r\t\n\v" ++ [0]) b with
  | Some (Some _) => mk_counts l x.(n_w) c false
  | _ => if negb x.(inword) then mk_counts l (s32 (x.(n_w) + 1)) c true else mk_counts l x.(n_w) c x.(inword)
  end.

Definition wc_body (fd : Z) (x : counts) : uprog (counts + Z * counts) :=
  '(n, bs) ← call (Read fd 512);
  if 0 <? n then mret (inl (foldl wc_char x bs)) else mret (inr (n, x)).

Definition wc (fuel : nat) (fd : Z) (name : list Z) : uprog unit :=
  '(n, x) ← uloop fuel (wc_body fd) (mk_counts 0 0 0 false);
  if n <? 0 then printf "wc: read error\n" [];; Exit 1 else
  printf "%d %d %d %s\n" [AInt x.(n_l); AInt x.(n_w); AInt x.(n_c); AString name].

Definition wc_main (fuel : nat) (argv : list (list Z)) : uprog unit :=
  if (length argv <=? 1)%nat then wc fuel 0 [];; Exit 0 else
  ufor (tail argv) (λ arg,
    fd ← call (Open arg 0);
    if fd <? 0 then printf "wc: cannot open %s\n" [AString arg];; Exit 1 else
    wc fuel fd arg;;
    call (Close fd);;
    mret tt);;
  Exit 0.

(** ** [kill.c], [ln.c], [mkdir.c], [rm.c], [zombie.c] *)

Definition kill_main (argv : list (list Z)) : uprog unit :=
  if (length argv <? 2)%nat then fprintf 2 "usage: kill pid...\n" [];; Exit 1 else
  ufor (tail argv) (λ arg, pid ← opt_or_segv (atoi (arg ++ [0])); call (Kill pid);; mret tt);;
  Exit 0.

Definition ln_main (argv : list (list Z)) : uprog unit :=
  match argv with
  | [_; old; new] =>
      r ← call (Link old new);
      (if r <? 0 then fprintf 2 "link %s %s: failed\n" [AString old; AString new] else mret tt);;
      Exit 0
  | _ => fprintf 2 "Usage: ln old new\n" [];; Exit 1
  end.

(** The loop of [mkdir] and [rm]: it stops at the first failure. *)
Fixpoint until_failure (f : list Z → sys Z) (msg : string) (args : list (list Z)) : uprog unit :=
  match args with
  | [] => mret tt
  | arg :: args =>
      r ← call (f arg);
      if r <? 0 then fprintf 2 msg [AString arg] else until_failure f msg args
  end.

Definition mkdir_main (argv : list (list Z)) : uprog unit :=
  if (length argv <? 2)%nat then fprintf 2 "Usage: mkdir files...\n" [];; Exit 1 else
  until_failure Mkdir "mkdir: %s failed to create\n" (tail argv);;
  Exit 0.

Definition rm_main (argv : list (list Z)) : uprog unit :=
  if (length argv <? 2)%nat then fprintf 2 "Usage: rm files...\n" [];; Exit 1 else
  until_failure Unlink "rm: %s failed to delete\n" (tail argv);;
  Exit 0.

Definition zombie_main : uprog unit :=
  pid ← call Fork;
  (if 0 <? pid then call (Sleep 5) else mret 0);;
  Exit 0.

(** ** [ls.c] *)

(** [for(p=path+strlen(path); p >= path && *p != '/'; p--); p++]: the offset of
    the first character after the last slash, looking from offset [i] down. *)
Fixpoint after_slash (path : list Z) (i : nat) : nat :=
  if bool_decide (path !! i = Some (ch "/")) then S i else
  match i with O => O | S i => after_slash path i end.

(** The name, padded with blanks in the static buffer, whose last byte is 0. *)
Definition fmtname (path : list Z) : list Z :=
  let p := drop (after_slash path (length path)) path in
  if (DIRSIZ <=? length p)%nat then p else p ++ replicate (DIRSIZ - length p) (ch " ").

(** One entry of a directory; [dir] is the path up to and with the slash. *)
Definition ls_entry (dir : list Z) (de : list Z) : uprog unit :=
  if de_inum de =? 0 then mret tt else
  let buf := dir ++ str (take DIRSIZ (de_name de)) in
  '(r, st) ← stat buf;
  match st with
  | Some st =>
      if r <? 0 then printf "ls: cannot stat %s\n" [AString buf] else
      printf "%s %d %d %d\n" [AString (fmtname buf); AInt st.(st_type); AInt st.(st_ino); AInt st.(st_size)]
  | None => printf "ls: cannot stat %s\n" [AString buf]
  end.

Definition ls_dir_body (fd : Z) (dir : list Z) (_ : unit) : uprog (unit + unit) :=
  '(n, de) ← call (Read fd dirent_size);
  if n =? dirent_size then ls_entry dir de;; mret (inl tt) else mret (inr tt).

Definition ls (fuel : nat) (path : list Z) : uprog unit :=
  fd ← call (Open path 0);
  if fd <? 0 then fprintf 2 "ls: cannot open %s\n" [AString path] else
  '(r, st) ← call (Fstat fd);
  if r <? 0 then fprintf 2 "ls: cannot stat %s\n" [AString path];; call (Close fd);; mret tt else
  (if (st.(st_type) =? T_DEVICE) || (st.(st_type) =? T_FILE) then
     printf "%s %d %d %l\n" [AString (fmtname path); AInt st.(st_type); AInt st.(st_ino); AInt st.(st_size)]
   else if st.(st_type) =? T_DIR then
     if (512 <? length path + 1 + DIRSIZ + 1)%nat then printf "ls: path too long\n" [] else
     uloop fuel (ls_dir_body fd (path ++ chars "/")) tt
   else mret tt);;
  call (Close fd);;
  mret tt.

Definition ls_main (fuel : nat) (argv : list (list Z)) : uprog unit :=
  if (length argv <? 2)%nat then ls fuel (chars ".");; Exit 0 else
  ufor (tail argv) (ls fuel);;
  Exit 0.

(** ** [init.c] *)

(** The inner loop: wait for the shell, whatever else exits before. *)
Definition init_wait (pid : Z) (_ : unit) : uprog (unit + unit) :=
  '(wpid, _) ← call Wait;
  if wpid =? pid then mret (inr tt)
  else if wpid <? 0 then printf "init: wait returned an error\n" [];; Exit 1
  else mret (inl tt).

Definition init_body (fuel : nat) (_ : unit) : uprog (unit + unit) :=
  printf "init: starting sh\n" [];;
  pid ← call Fork;
  if pid <? 0 then printf "init: fork failed\n" [];; Exit 1
  else if pid =? 0 then
    call (Exec (chars "sh") [chars "sh"]);;
    printf "init: exec sh failed\n" [];;
    Exit 1
  else
    uloop fuel (init_wait pid) tt;;
    mret (inl tt).

Definition init_main (fuel : nat) : uprog unit :=
  fd ← call (Open (chars "console") O_RDWR);
  (if fd <? 0 then
     call (Mknod (chars "console") CONSOLE 0);;
     call (Open (chars "console") O_RDWR);;
     mret tt
   else mret tt);;
  call (Dup 0);;
  call (Dup 0);;
  uloop fuel (init_body fuel) tt.

(** ** [forktest.c] *)

Definition N : nat := 1000.

Definition print (s : string) : uprog unit := call (Write 1 (chars s));; mret tt.

(** The number of children when [fork] fails, or [N]. *)
Fixpoint fork_loop (k n : nat) : uprog nat :=
  match k with
  | O => mret n
  | S k =>
      pid ← call Fork;
      if pid <? 0 then mret n
      else if pid =? 0 then Exit 0
      else fork_loop k (S n)
  end.

Definition forktest : uprog unit :=
  print "fork test\n";;
  n ← fork_loop N 0;
  if (n =? N)%nat then print "fork claimed to work N times!\n";; Exit 1 else
  ufor (seq 0 n) (λ _,
    '(r, _) ← call Wait;
    if r <? 0 then print "wait stopped early\n";; Exit 1 else mret tt);;
  '(r, _) ← call Wait;
  if negb (r =? -1) then print "wait got too many\n";; Exit 1 else
  print "fork test OK\n".

Definition forktest_main : uprog unit := forktest;; Exit 0.

(** ** [stressfs.c] *)

(** [for(i = 0; i < 4; i++) if(fork() > 0) break;]: the value of [i]. *)
Fixpoint stress_forks (k : nat) (i : Z) : uprog Z :=
  match k with
  | O => mret i
  | S k => pid ← call Fork; if 0 <? pid then mret i else stress_forks k (i + 1)
  end.

Definition stressfs_main : uprog unit :=
  let data := replicate 512 (ch "a") in
  printf "stressfs starting\n" [];;
  i ← stress_forks 4 0;
  printf "write %d\n" [AInt i];;
  let path := <[8%nat := u8 (ch "0" + i)]> (chars "stressfs0") in
  fd ← call (Open path (Z.lor O_CREATE O_RDWR));
  ufor (seq 0 20) (λ _, call (Write fd data);; mret tt);;
  call (Close fd);;
  printf "read\n" [];;
  fd ← call (Open path O_RDONLY);
  ufor (seq 0 20) (λ _, call (Read fd 512);; mret tt);;
  call (Close fd);;
  call Wait;;
  Exit 0.

(** ** [testrcu.c] *)

Definition INSERT_COUNT : Z := 1000.
Definition QUERY_COUNT : nat := 300.
Definition DELETE_COUNT : nat := 200.
Definition IS_RCU : Z := 0.

Definition rcu_test : uprog unit :=
  call (Klist_insert INSERT_COUNT IS_RCU);;
  call Klist_print;;
  pid ← call Fork;
  (if pid =? 0 then
     ufor (Z.of_nat <$> seq 1 QUERY_COUNT) (λ i,
       call (Klist_query i IS_RCU);;
       (if negb (i mod 10 =? 0) then call (Sleep 1);; mret tt else mret tt));;
     Exit 0
   else
     ufor (Z.of_nat <$> seq 1 DELETE_COUNT) (λ i,
       call (Klist_delete i IS_RCU);;
       (if negb (i mod 12 =? 0) then call (Sleep 1);; mret tt else mret tt)));;
  call Wait;;
  call Klist_print;;
  mret tt.

Definition testrcu_main : uprog unit :=
  start ← call Uptime;
  rcu_test;;
  end_ ← call Uptime;
  fprintf 1 "Total time: %d\n" [AInt (s32 (end_ - start))];;
  Exit 0.

(** ** Copying *)

Section Copy.
Context {W : Type} (h : os W) `{!Streams h}.

Lemma cat_loop fuel fd w :
  (length (unread fd w) < fuel)%nat →
  ∃ w', run h (uloop fuel (cat_body fd) tt) w = Returned 0 w' ∧
    written 1 w' = written 1 w ++ unread fd w ∧ unread fd w' = [] ∧ ∀ fd', fd' ≠ 1 → written fd' w' = written fd' w.
Proof.
  revert w. induction fuel as [|fuel IH]; intros w Hf; [lia|]. cbn [uloop]. unfold cat_body.
  destruct (read_spec fd 512 w) as (k & w1 & E & _ & Hk & Hpos & Hun & _ & Hw); [lia|].
  rewrite !run_bind, (run_call _ _ _ _ _ E). cbn [rbind]. destruct (Z.ltb_spec 0 (Z.of_nat k)) as [H|H].
  - destruct (run_write h 1 (take k (unread fd w)) w1) as (w2 & E2 & M2 & M2' & M2'').
    rewrite run_bind, E2. cbn [rbind]. rewrite length_take, Nat.min_l, Z.eqb_refl by lia. cbn [negb run mret uprog_ret rbind].
    destruct (IH w2) as (w3 & E3 & W3 & U3 & W3'). { rewrite M2'', Hun, length_drop. lia. }
    exists w3. split; [exact E3|]. rewrite W3, M2, M2'', Hun, Hw, <-app_assoc, take_drop. split_and!; [done..|].
    intros fd' Hne. by rewrite W3', M2', Hw.
  - assert (k = 0%nat) as -> by lia. exists w1. cbn [run mret uprog_ret rbind]. split; [done|].
    destruct (decide (unread fd w = [])) as [Hz|Hz]; [|specialize (Hpos ltac:(lia) Hz); lia].
    rewrite Hun, Hw, Hz, app_nil_r. done.
Qed.

(** [cat] copies its input to its standard output: it returns, the bytes
    written are all the bytes that could be read, in order, however they are
    divided among the reads, and nothing is written elsewhere. *)
Theorem cat_copies fuel fd w :
  (length (unread fd w) < fuel)%nat →
  ∃ w', run h (cat fuel fd) w = Returned tt w' ∧
    written 1 w' = written 1 w ++ unread fd w ∧ unread fd w' = [] ∧ ∀ fd', fd' ≠ 1 → written fd' w' = written fd' w.
Proof.
  intros Hf. destruct (cat_loop fuel fd w Hf) as (w' & E & H). exists w'. split; [|done].
  unfold cat. by rewrite run_bind, E.
Qed.

(** ** Counting *)

Definition is_space (b : Z) : bool := bool_decide (b ∈ chars " \r\t\n\v").

Definition line_count (text : list Z) : nat := length (filter (λ b, b = newline) text).

(** A word starts at a character that is not a space, at the beginning of the
    text or after a space. *)
Definition word_start (text : list Z) (i : nat) : Prop :=
  (is_space <$> text !! i) = Some false ∧ (i = 0%nat ∨ (is_space <$> text !! pred i) = Some true).

#[global] Instance word_start_dec text i : Decision (word_start text i).
Proof. unfold word_start. apply _. Defined.

Definition word_count (text : list Z) : nat := length (filter (word_start text) (seq 0 (length text))).

(** In a word at the end of the text? *)
Definition in_word (text : list Z) : bool := match last text with Some b => negb (is_space b) | None => false end.

Lemma strchr_space b :
  match strchr (chars " \r\t\n\v" ++ [0]) b with Some (Some _) => is_space b = true | _ => is_space b = false end.
Proof.
  unfold is_space. assert (Hn : no_nul (chars " \r\t\n\v")) by (by repeat constructor).
  set (l := chars " \r\t\n\v") in *. clearbody l. destruct (decide (b ∈ l)) as [H|H].
  - apply list_elem_of_split_l in H as (l1 & l2 & -> & Hl). apply Forall_app in Hn as [H1 H2].
    apply Forall_cons in H2 as [Hb _]. rewrite <-app_assoc. cbn [app]. rewrite strchr_found by done.
    apply bool_decide_eq_true. apply elem_of_app. right. left.
  - rewrite strchr_absent by done. by apply bool_decide_eq_false.
Qed.

Lemma word_start_snoc text b i : (i < length text)%nat → word_start (text ++ [b]) i ↔ word_start text i.
Proof. intros Hi. unfold word_start. by rewrite !lookup_app_l by lia. Qed.

Lemma word_count_snoc text b :
  word_count (text ++ [b]) = (word_count text + if negb (is_space b) && negb (in_word text) then 1 else 0)%nat.
Proof.
  unfold word_count. rewrite length_app, seq_app, filter_app, length_app. simpl length. cbn [seq]. f_equal.
  - f_equal. apply list_filter_agree. intros i Hi%elem_of_seq. apply word_start_snoc. lia.
  - assert (word_start (text ++ [b]) (0 + length text) ↔ negb (is_space b) && negb (in_word text) = true) as Hiff.
    { unfold word_start, in_word. rewrite lookup_app_r, Nat.sub_diag by lia. simpl.
      destruct (is_space b); simpl; [split; [by intros []|done]|].
      destruct text as [|c text _] using rev_ind; simpl; [split; auto|].
      rewrite last_snoc, length_app, Nat.add_1_r. simpl. rewrite lookup_app_l by (rewrite length_app; simpl; lia).
      rewrite lookup_app_r, Nat.sub_diag by lia. simpl. destruct (is_space c); simpl; intuition congruence. }
    rewrite filter_cons. destruct (decide _) as [H|H]; simpl.
    + apply Hiff in H. by rewrite H.
    + destruct (negb _ && negb _); [by destruct H; apply Hiff|done].
Qed.

Definition counted (text : list Z) : counts :=
  mk_counts (Z.of_nat (line_count text)) (Z.of_nat (word_count text)) (Z.of_nat (length text)) (in_word text).

Lemma counted_snoc text b : Z.of_nat (length text) + 1 < 2 ^ 31 → wc_char (counted text) b = counted (text ++ [b]).
Proof.
  intros Hl. assert (Hs : ∀ n, (n ≤ length text)%nat → s32 (Z.of_nat n + 1) = Z.of_nat (n + 1)).
  { intros n Hn. rewrite <-(s32_small (Z.of_nat (n + 1))), Z.mod_small by lia. f_equal. lia. }
  assert (Hlc : (line_count text ≤ length text)%nat) by apply length_filter.
  assert (Hwc : (word_count text ≤ length text)%nat).
  { unfold word_count. etrans; [apply length_filter|]. by rewrite length_seq. }
  assert (El : (if b =? newline then s32 (Z.of_nat (line_count text) + 1) else Z.of_nat (line_count text)) =
    Z.of_nat (line_count (text ++ [b]))).
  { unfold line_count. rewrite filter_app, length_app, filter_cons.
    destruct (Z.eqb_spec b newline), (decide (b = newline)); try done; simpl; [by apply Hs|lia]. }
  unfold wc_char. cbn [n_l n_w n_c inword counted]. rewrite El, Hs by lia. unfold counted.
  rewrite word_count_snoc, length_app. cbn [length].
  assert (in_word (text ++ [b]) = negb (is_space b)) as -> by (unfold in_word; by rewrite last_snoc).
  pose proof (strchr_space b) as Hsp. destruct (strchr _ b) as [[?|]|]; rewrite Hsp; cbn [negb andb].
  1: by rewrite Nat.add_0_r. all: destruct (in_word text) eqn:E; cbn [negb andb]; rewrite ?Nat.add_0_r, ?Hs by lia; done.
Qed.

Lemma counted_app text bs : Z.of_nat (length (text ++ bs)) < 2 ^ 31 → foldl wc_char (counted text) bs = counted (text ++ bs).
Proof.
  revert text. induction bs as [|b bs IH]; intros text Hl; simpl; [by rewrite app_nil_r|].
  rewrite length_app in Hl. simpl in Hl. rewrite counted_snoc by lia.
  replace (text ++ b :: bs) with ((text ++ [b]) ++ bs) by (by rewrite <-app_assoc).
  apply IH. rewrite !length_app. simpl. lia.
Qed.

Lemma wc_loop fuel fd before w :
  (length (unread fd w) < fuel)%nat → Z.of_nat (length (before ++ unread fd w)) < 2 ^ 31 →
  ∃ w', run h (uloop fuel (wc_body fd) (counted before)) w = Returned (0, counted (before ++ unread fd w)) w' ∧
    ∀ fd', written fd' w' = written fd' w.
Proof.
  revert before w. induction fuel as [|fuel IH]; intros before w Hf Hl; [lia|]. cbn [uloop]. unfold wc_body.
  destruct (read_spec fd 512 w) as (k & w1 & E & _ & Hk & Hpos & Hun & _ & Hw); [lia|].
  rewrite !run_bind, (run_call _ _ _ _ _ E). cbn [rbind]. destruct (Z.ltb_spec 0 (Z.of_nat k)) as [H|H].
  - cbn [run mret uprog_ret rbind]. rewrite length_app in Hl.
    rewrite counted_app by (rewrite length_app, length_take; lia).
    destruct (IH (before ++ take k (unread fd w)) w1) as (w2 & E2 & W2).
    + rewrite Hun, length_drop. lia.
    + rewrite Hun, <-app_assoc, take_drop, length_app. lia.
    + exists w2. rewrite Hun, <-app_assoc, take_drop in E2. split; [exact E2|]. intros fd'. by rewrite W2, Hw.
  - assert (k = 0%nat) as -> by lia. exists w1. cbn [run mret uprog_ret rbind]. split; [|done].
    destruct (decide (unread fd w = [])) as [Hz|Hz]; [|specialize (Hpos ltac:(lia) Hz); lia].
    by rewrite Hz, app_nil_r.
Qed.

(** A number as [printf] prints it. *)
Definition numeral (n : nat) (cs : list Z) : Prop := atoi (cs ++ [0]) = Some (Z.of_nat n).

Lemma dec_numeral n : Z.of_nat n < 2 ^ 31 → ∃ cs, piece_text (Dec (Z.of_nat n)) = Some cs ∧ numeral n cs.
Proof.
  intros Hn. destruct (printint_atoi (Z.of_nat n) []) as (cs & E & _ & _ & A); [lia|]. exists cs.
  split; [|done]. cbn [piece_text]. rewrite <-E. f_equal.
  rewrite <-(s32_small (Z.of_nat n)) at 2 by lia. by rewrite Z.mod_small by lia.
Qed.

(** [wc] prints the number of lines, words and characters of its input, in
    decimal, then the name; the counts do not depend on how the input is divided
    among the reads (a word can straddle two of them). *)
Theorem wc_counts fuel fd name w :
  let text := unread fd w in
  no_nul name → Forall byte name → (length text < fuel)%nat → Z.of_nat (length text) < 2 ^ 31 →
  ∃ w' dl dw dc, run h (wc fuel fd name) w = Returned tt w' ∧
    numeral (line_count text) dl ∧ numeral (word_count text) dw ∧ numeral (length text) dc ∧
    written 1 w' = written 1 w ++ dl ++ chars " " ++ dw ++ chars " " ++ dc ++ chars " " ++ name ++ chars "\n".
Proof.
  intros text Hn Hb Hf Hl. destruct (wc_loop fuel fd [] w Hf Hl) as (w1 & E & Hw). cbn [app] in E. fold text in E.
  assert (Hlc : (line_count text ≤ length text)%nat) by apply length_filter.
  assert (Hwc : (word_count text ≤ length text)%nat).
  { unfold word_count. etrans; [apply length_filter|]. by rewrite length_seq. }
  destruct (dec_numeral (line_count text)) as (dl & Tl & Nl); [lia|].
  destruct (dec_numeral (word_count text)) as (dw & Tw & Nw); [lia|].
  destruct (dec_numeral (length text)) as (dc & Tc & Nc); [lia|].
  set (ps := [Dec (Z.of_nat (line_count text)); Lit 32; Dec (Z.of_nat (word_count text)); Lit 32;
    Dec (Z.of_nat (length text)); Lit 32; Str (Some name); Lit 10]).
  destruct (run_vprintf h 1 ps [dl; [32]; dw; [32]; dc; [32]; name; [10]] [] w1) as (w2 & E2 & M2 & _).
  { repeat apply Forall_cons_2; try apply Forall_nil_2; simpl; unfold byte; try done; repeat split; try lia; done. }
  { unfold ps. cbn [mapM]. by rewrite Tl, Tw, Tc. }
  exists w2, dl, dw, dc. split_and!; [|done..|].
  - unfold wc. change (mk_counts 0 0 0 false) with (counted []). rewrite (run_bind_returned _ _ _ _ _ _ E). exact E2.
  - rewrite M2, Hw. cbn [concat]. by rewrite app_nil_r.
Qed.

End Copy.

Lemma cat_copies_witness : ∃ w',
  run (pipes_os 2) (cat 9 0) (mk_pipes (λ _, chars "a\nbc d\n") (λ _, [])) = Returned tt w' ∧ p_out w' 1 = chars "a\nbc d\n".
Proof.
  destruct (cat_copies (pipes_os 2) 9 0 (mk_pipes (λ _, chars "a\nbc d\n") (λ _, []))) as (w' & E & O & _);
    [vm_compute; lia|]. exists w'. exact (conj E O).
Defined.

Lemma wc_counts_witness : ∃ w',
  run (pipes_os 2) (wc 12 0 (chars "f")) (mk_pipes (λ _, chars "a\nbcd d\n") (λ _, [])) = Returned tt w' ∧
    p_out w' 1 = chars "2 3 8 f\n".
Proof.
  destruct (wc_counts (pipes_os 2) 12 0 (chars "f") (mk_pipes (λ _, chars "a\nbcd d\n") (λ _, [])))
    as (w' & dl & dw & dc & E & _).
  - repeat constructor; discriminate.
  - repeat constructor; discriminate.
  - vm_compute. lia.
  - vm_compute. reflexivity.
  - exists w'. split; [exact E|].
    change ((match Returned tt w' with Returned _ w => p_out w 1 | _ => [] end) = chars "2 3 8 f\n").
    rewrite <-E. vm_compute. reflexivity.
Defined.
