(* ===== verification/Umalloc.v ===== *)
(** * The allocator of user programs ([user/umalloc.c])

    Memory is the byte memory of the process.  A [Header] has 16 bytes, the
    pointer in the first 8 and the size in the next 4; pointers to headers are
    addresses, and [p + n] moves by [16 * n].  [base] is the address of the
    static header; the list of free blocks is circular, starts at [base] and is
    sorted by address. *)

From S2P Require Import Prelude Cstring User Ulib.

Record heap : Type := mk_heap { hp_mem : mem; hp_freep : Z }.

(** [p->s.ptr], [p->s.size] and the stores to them, and [p + n]. *)
Definition ptr (m : mem) (p : Z) : Z := load64 m p.
Definition size (m : mem) (p : Z) : Z := load32 m (p + 8).
Definition set_ptr (p v : Z) (m : mem) : mem := store64 p v m.
Definition set_size (p v : Z) (m : mem) : mem := store32 (p + 8) v m.
Definition plus (p n : Z) : Z := u64 (p + 16 * n).

Definition opt_or_hang {A} (o : option A) : uprog A :=
  match o with Some a => Ret a | None => Hang end.

(** The loop of [free]: [None] when it takes more than [fuel] steps. *)
Fixpoint free_find (fuel : nat) (m : mem) (bp p : Z) : option Z :=
  match fuel with
  | O => None
  | S fuel =>
      if (p <? bp) && (bp <? ptr m p) then Some p
      else if (ptr m p <=? p) && ((p <? bp) || (bp <? ptr m p)) then Some p
      else free_find fuel m bp (ptr m p)
  end.

(** The block joined to the one above it, and then to the one below. *)
Definition join_upper (bp p : Z) (m : mem) : mem :=
  if plus bp (size m bp) =? ptr m p then
    let m := set_size bp (u32 (size m bp + size m (ptr m p))) m in
    set_ptr bp (ptr m (ptr m p)) m
  else set_ptr bp (ptr m p) m.

Definition join_lower (bp p : Z) (m : mem) : mem :=
  if plus p (size m p) =? bp then
    let m := set_size p (u32 (size m p + size m bp)) m in
    set_ptr p (ptr m bp) m
  else set_ptr p bp m.

Definition free (fuel : nat) (ap : Z) (h : heap) : option heap :=
  let bp := ap - 16 in
  p ← free_find fuel h.(hp_mem) bp h.(hp_freep);
  Some (mk_heap (join_lower bp p (join_upper bp p h.(hp_mem))) p).

(** The argument of [sbrk] is an [int]. *)
Definition morecore (fuel : nat) (nu : Z) (h : heap) : uprog (Z * heap) :=
  let nu := if nu <? 4096 then 4096 else nu in
  p ← call (Sbrk (s32 (nu * 16)));
  if p =? -1 then mret (0, h) else
  h ← opt_or_hang (free fuel (plus p 1) (mk_heap (set_size p nu h.(hp_mem)) h.(hp_freep)));
  mret (h.(hp_freep), h).

(** The block [p] found by [malloc], with [prevp] before it. *)
Definition take_block (nunits prevp p : Z) (h : heap) : Z * heap :=
  let m := h.(hp_mem) in
  if size m p =? nunits then (plus p 1, mk_heap (set_ptr prevp (ptr m p) m) prevp)
  else
    let m := set_size p (u32 (size m p - nunits)) m in
    let p := plus p (size m p) in
    (plus p 1, mk_heap (set_size p nunits m) prevp).

Definition malloc_body (fuel : nat) (nunits : Z) (x : Z * Z * heap) : uprog (Z * Z * heap + Z * heap) :=
  let '(prevp, p, h) := x in
  if nunits <=? size h.(hp_mem) p then mret (inr (take_block nunits prevp p h)) else
  if p =? h.(hp_freep) then
    '(p, h) ← morecore fuel nunits h;
    if p =? 0 then mret (inr (0, h)) else mret (inl (p, ptr h.(hp_mem) p, h))
  else mret (inl (p, ptr h.(hp_mem) p, h)).

Section Malloc.
(** The address of the static header. *)
Context (base : Z).

Definition malloc (fuel : nat) (nbytes : Z) (h : heap) : uprog (Z * heap) :=
  let nunits := u32 ((nbytes + 16 - 1) / 16 + 1) in
  let h := if h.(hp_freep) =? 0 then mk_heap (set_size base 0 (set_ptr base base h.(hp_mem))) base else h in
  uloop fuel (malloc_body fuel nunits) (h.(hp_freep), ptr h.(hp_mem) h.(hp_freep), h).

End Malloc.

(** ** Headers in memory *)

(** Two headers that are equal or do not overlap. *)
Definition apart (p q : Z) : Prop := p + 16 ≤ q ∨ q + 16 ≤ p.

Lemma ptr_set_ptr p v m : 0 ≤ v < 2 ^ 64 → ptr (set_ptr p v m) p = v.
Proof. intros H. unfold ptr, set_ptr. rewrite load_store_same. by apply Z.mod_small. Qed.

Lemma size_set_size p v m : 0 ≤ v < 2 ^ 32 → size (set_size p v m) p = v.
Proof. intros H. unfold size, set_size. rewrite load_store_same. by apply Z.mod_small. Qed.

Lemma ptr_set_ptr_apart p q v m : apart p q → ptr (set_ptr q v m) p = ptr m p.
Proof. unfold apart. intros H. apply load_store_disjoint. lia. Qed.

Lemma size_set_size_apart p q v m : apart p q → size (set_size q v m) p = size m p.
Proof. unfold apart. intros H. apply load_store_disjoint. lia. Qed.

Lemma ptr_set_size p q v m : p = q ∨ apart p q → ptr (set_size q v m) p = ptr m p.
Proof. unfold apart. intros H. apply load_store_disjoint. lia. Qed.

Lemma size_set_ptr p q v m : p = q ∨ apart p q → size (set_ptr q v m) p = size m p.
Proof. unfold apart. intros H. apply load_store_disjoint. lia. Qed.

Definition header_only (q : Z) (m m' : mem) : Prop := ∀ x, x < q ∨ q + 16 ≤ x → byte_at m' x = byte_at m x.

Lemma set_ptr_only q v m : header_only q m (set_ptr q v m).
Proof. intros x Hx. apply byte_at_store. lia. Qed.

Lemma set_size_only q v m : header_only q m (set_size q v m).
Proof. intros x Hx. apply byte_at_store. lia. Qed.

(** ** The free list *)

(** The header of each block of [l] has its size and points to the next one, the
    last one to [last]. *)
Definition first (l : list (Z * Z)) (last : Z) : Z := match l with (a, _) :: _ => a | [] => last end.

Fixpoint chain (m : mem) (l : list (Z * Z)) (last : Z) : Prop :=
  match l with
  | [] => True
  | (a, s) :: l => size m a = s ∧ ptr m a = first l last ∧ chain m l last
  end.

(** Blocks in order of address, with a gap between one and the next. *)
Fixpoint blocks (lo : Z) (l : list (Z * Z)) (hi : Z) : Prop :=
  match l with
  | [] => lo ≤ hi
  | (a, s) :: l => lo < a ∧ 1 ≤ s ∧ blocks (a + 16 * s) l hi
  end.

Lemma first_app l r last : first (l ++ r) last = first l (first r last).
Proof. by destruct l as [|[a s] l]. Qed.

Lemma chain_app m l r last : chain m (l ++ r) last ↔ chain m l (first r last) ∧ chain m r last.
Proof.
  induction l as [|[a s] l IH]; simpl; [tauto|]. rewrite IH, first_app. tauto.
Qed.

(** Writes to other headers do not matter. *)
Lemma free_chain_frame m m' l last :
  (∀ a s, (a, s) ∈ l → size m' a = size m a ∧ ptr m' a = ptr m a) → chain m l last → chain m' l last.
Proof.
  induction l as [|[a s] l IH]; simpl; [done|]. intros Hf (Hs & Hp & Hc).
  destruct (Hf a s (list_elem_of_here _ _)) as [-> ->]. split_and!; [done..|].
  apply IH; [|done]. intros b t Hb. apply (Hf b t). by right.
Qed.

Lemma blocks_le lo l hi : blocks lo l hi → lo ≤ hi.
Proof. revert lo. induction l as [|[a s] l IH]; intros lo; simpl; [done|]. intros (H1 & H2 & H3%IH). lia. Qed.

Lemma blocks_lower lo lo' l hi : lo' ≤ lo → blocks lo l hi → blocks lo' l hi.
Proof. destruct l as [|[a s] l]; simpl; intros ?; [lia|]. intros (? & ? & ?). split_and!; [lia|done..]. Qed.

Lemma blocks_upper lo l hi hi' : hi ≤ hi' → blocks lo l hi → blocks lo l hi'.
Proof. intros H. revert lo. induction l as [|[a s] l IH]; intros lo; simpl; [lia|]. intros (? & ? & ?). eauto. Qed.

Lemma blocks_in lo l hi a s : blocks lo l hi → (a, s) ∈ l → lo < a ∧ 1 ≤ s ∧ a + 16 * s ≤ hi.
Proof.
  revert lo. induction l as [|[b t] l IH]; intros lo; simpl; [by intros _ ?%elem_of_nil|].
  intros (Hlo & Ht & Hl) H%elem_of_cons. destruct H as [[= -> ->]|H].
  - pose proof (blocks_le _ _ _ Hl). lia.
  - destruct (IH _ Hl H) as (? & ? & ?). lia.
Qed.

(** The blocks below and above an address range that none of them touches. *)
Lemma blocks_split lo l hi a s :
  blocks lo l hi → lo ≤ a → 1 ≤ s → a + 16 * s ≤ hi →
  (∀ b t, (b, t) ∈ l → a + 16 * s ≤ b ∨ b + 16 * t ≤ a) →
  ∃ L R, l = L ++ R ∧ blocks lo L a ∧ blocks (a + 16 * s - 1) R hi.
Proof.
  revert lo. induction l as [|[b t] l IH]; intros lo; cbn [blocks].
  { intros _ Hlo Hs Hhi _. exists [], []. split_and!; [done|cbn [blocks]; lia..]. }
  intros (Hb & Ht & Hl) Hlo Hs Hhi Hd. destruct (Hd b t (list_elem_of_here _ _)) as [H|H].
  - exists [], ((b, t) :: l). split_and!; [done|cbn [blocks]; lia|cbn [blocks]]. split_and!; [lia|done..].
  - destruct (IH (b + 16 * t)) as (L & R & -> & HL & HR); [done|done|done|done| |].
    { intros c u Hc. apply (Hd c u). by right. }
    exists ((b, t) :: L), R. split_and!; [done|cbn [blocks]|done]. by split_and!.
Qed.

Lemma blocks_app lo l mid r hi : blocks lo l mid → blocks mid r hi → blocks lo (l ++ r) hi.
Proof.
  revert lo. induction l as [|[b t] l IH]; intros lo; cbn [blocks app]; [intros H; by apply blocks_lower|].
  intros (? & ? & ?) ?. split_and!; [done..|]. by apply IH.
Qed.

(** ** Joining blocks *)

(** The block [(a, s)] in front of the blocks [R]. *)
Definition joined (a s : Z) (R : list (Z * Z)) : list (Z * Z) :=
  match R with
  | (b, t) :: R' => if a + 16 * s =? b then (a, s + t) :: R' else (a, s) :: R
  | [] => [(a, s)]
  end.

Lemma joined_blocks a s R hi lo :
  lo < a → 1 ≤ s → a + 16 * s ≤ hi → blocks (a + 16 * s - 1) R hi → blocks lo (joined a s R) hi.
Proof.
  intros Hlo Hs Hhi. destruct R as [|[b t] R]; cbn [joined blocks]; [intros _; split_and!; lia|].
  intros (Hb & Ht & HR). destruct (Z.eqb_spec (a + 16 * s) b) as [<-|Hne]; cbn [blocks].
  - split_and!; [lia..|]. by replace (a + 16 * (s + t)) with (a + 16 * s + 16 * t) by lia.
  - split_and!; [lia..|done].
Qed.

(** The units in a list of blocks. *)
Definition covers (l : list (Z * Z)) (x : Z) : Prop := ∃ a s, (a, s) ∈ l ∧ a ≤ x < a + 16 * s.

Lemma covers_nil x : ¬ covers [] x.
Proof. by intros (a & s & ?%elem_of_nil & _). Qed.

Lemma covers_cons a s l x : covers ((a, s) :: l) x ↔ (a ≤ x < a + 16 * s) ∨ covers l x.
Proof.
  unfold covers. split.
  - intros (b & t & [[= -> ->]|H]%elem_of_cons & Hx); [by left|right; by exists b, t].
  - intros [H|(b & t & H & Hx)]; [exists a, s|exists b, t]; (split; [|done]); [left|by right].
Qed.

Lemma covers_app l r x : covers (l ++ r) x ↔ covers l x ∨ covers r x.
Proof.
  unfold covers. setoid_rewrite elem_of_app. split.
  - intros (a & s & [H|H] & Hx); [left|right]; by exists a, s.
  - intros [(a & s & H & Hx)|(a & s & H & Hx)]; exists a, s; auto.
Qed.

Lemma joined_covers a s R x : 1 ≤ s → (∀ b t, (b, t) ∈ R → 1 ≤ t) →
  covers (joined a s R) x ↔ (a ≤ x < a + 16 * s) ∨ covers R x.
Proof.
  intros Hs HR. destruct R as [|[b t] R]; cbn [joined]; [apply covers_cons|].
  pose proof (HR b t (list_elem_of_here _ _)).
  destruct (Z.eqb_spec (a + 16 * s) b) as [<-|]; rewrite !covers_cons; [|tauto].
  assert (a ≤ x < a + 16 * (s + t) ↔ a ≤ x < a + 16 * s ∨ a + 16 * s ≤ x < a + 16 * s + 16 * t) as -> by lia.
  tauto.
Qed.

Lemma joined_length a s R : (length (joined a s R) ≤ S (length R))%nat.
Proof. destruct R as [|[b t] R]; simpl; [done|]. destruct (_ =? _); simpl; lia. Qed.

Lemma header_only_trans q m m1 m2 : header_only q m m1 → header_only q m1 m2 → header_only q m m2.
Proof. intros H1 H2 x Hx. by rewrite H2, H1. Qed.

Lemma header_only_apart q m m' a : header_only q m m' → apart a q → size m' a = size m a ∧ ptr m' a = ptr m a.
Proof.
  unfold apart. intros H Ha. split; apply load_ext; intros x Hx; apply H; lia.
Qed.

Lemma chain_header_only q m m' l last :
  header_only q m m' → (∀ a s, (a, s) ∈ l → apart a q) → chain m l last → chain m' l last.
Proof. intros H Ha. apply free_chain_frame. intros a s Hin. apply header_only_apart with q; eauto. Qed.

(** Addresses and sizes in a heap of at most 4 GB. *)
Lemma plus_small p n : 0 ≤ p → 0 ≤ n → p + 16 * n ≤ 2 ^ 32 → plus p n = p + 16 * n.
Proof. intros. unfold plus, u64. apply Z.mod_small. lia. Qed.

Lemma join_upper_ok m bp p s R last :
  size m bp = s → ptr m p = first R last → chain m R last → apart p bp → 0 ≤ bp → 1 ≤ s →
  bp + 16 * s ≤ 2 ^ 32 → blocks (bp + 16 * s - 1) R (2 ^ 32) → 0 ≤ last < bp →
  chain (join_upper bp p m) (joined bp s R) last ∧ header_only bp m (join_upper bp p m).
Proof.
  intros Hs Hp Hc Ha H0 Hs1 Hbp HR Hl.
  unfold join_upper. rewrite Hs, Hp, plus_small by lia. destruct R as [|[b t] R]; cbn [first joined].
  - rewrite (proj2 (Z.eqb_neq _ _)) by lia. split; [|apply set_ptr_only].
    cbn [chain first]. rewrite size_set_ptr, ptr_set_ptr by (unfold apart; lia). done.
  - destruct Hc as (Ht & Hb & Hc). destruct HR as (Hlo & Ht1 & HR).
    assert (Hbt : b + 16 * t ≤ 2 ^ 32) by by apply blocks_le in HR.
    assert (HRin : ∀ c u, (c, u) ∈ R → apart c bp).
    { intros c u Hin. destruct (blocks_in _ _ _ _ _ HR Hin). unfold apart. lia. }
    destruct (Z.eqb_spec (bp + 16 * s) b) as [<-|Hne].
    + rewrite Ht. set (m1 := set_size bp (u32 (s + t)) m).
      assert (O1 : header_only bp m m1) by apply set_size_only.
      assert (E1 : ptr m1 p = bp + 16 * s) by (unfold m1; rewrite ptr_set_size by auto; done).
      rewrite E1. assert (E2 : ptr m1 (bp + 16 * s) = first R last).
      { unfold m1. rewrite ptr_set_size by (unfold apart; lia). done. }
      rewrite E2. assert (Hf : 0 ≤ first R last < 2 ^ 64).
      { destruct R as [|[c u] R]; cbn [first]; [lia|]. destruct HR as (? & ? & ?%blocks_le). lia. }
      assert (O2 : header_only bp m (set_ptr bp (first R last) m1)) by exact (header_only_trans _ _ _ _ O1 (set_ptr_only _ _ _)).
      split; [|done]. cbn [chain]. rewrite size_set_ptr, ptr_set_ptr by auto. unfold m1 at 1.
      unfold u32. rewrite Z.mod_small, size_set_size by lia. split_and!; [done..|].
      by apply (chain_header_only bp m).
    + split; [|apply set_ptr_only]. cbn [chain first].
      assert (O : header_only bp m (set_ptr bp b m)) by apply set_ptr_only.
      destruct (header_only_apart bp m _ b O ltac:(unfold apart; lia)) as [-> ->].
      rewrite size_set_ptr, ptr_set_ptr by (unfold apart; lia). split_and!; [done..|].
      by apply (chain_header_only bp m).
Qed.

Lemma join_lower_ok m bp p sp s X last :
  size m p = sp → chain m ((bp, s) :: X) last → 0 ≤ p → 0 ≤ sp → p + 16 * Z.max 1 sp ≤ bp →
  blocks (bp - 1) ((bp, s) :: X) (2 ^ 32) → 0 ≤ last < 2 ^ 64 →
  chain (join_lower bp p m) (if p + 16 * sp =? bp then (p, sp + s) :: X else (p, sp) :: (bp, s) :: X) last ∧
  header_only p m (join_lower bp p m).
Proof.
  intros Hsp (Hs & Hb & Hc) H0 H0s Hle (_ & Hs1 & HX) Hl.
  assert (Hbp : bp + 16 * s ≤ 2 ^ 32) by by apply blocks_le in HX.
  assert (HXin : ∀ c u, (c, u) ∈ X → apart c p).
  { intros c u Hin. destruct (blocks_in _ _ _ _ _ HX Hin). unfold apart. lia. }
  unfold join_lower. rewrite Hsp, plus_small by lia. destruct (Z.eqb_spec (p + 16 * sp) bp) as [E|E].
  - rewrite Hs. set (m1 := set_size p (u32 (sp + s)) m).
    assert (O1 : header_only p m m1) by apply set_size_only.
    assert (E1 : ptr m1 bp = first X last) by (unfold m1; rewrite ptr_set_size by (unfold apart; lia); done).
    rewrite E1. assert (Hf : 0 ≤ first X last < 2 ^ 64).
    { destruct X as [|[c u] R]; cbn [first]; [lia|]. destruct HX as (? & ? & ?%blocks_le). lia. }
    assert (O2 : header_only p m (set_ptr p (first X last) m1)) by exact (header_only_trans _ _ _ _ O1 (set_ptr_only _ _ _)).
    split; [|done]. cbn [chain]. rewrite size_set_ptr, ptr_set_ptr by auto. unfold m1 at 1.
    unfold u32. rewrite Z.mod_small, size_set_size by lia. split_and!; [done..|].
    by apply (chain_header_only p m).
  - split; [|apply set_ptr_only]. cbn [chain first].
    assert (O : header_only p m (set_ptr p bp m)) by apply set_ptr_only.
    destruct (header_only_apart p m _ bp O ltac:(unfold apart; lia)) as [-> ->].
    rewrite size_set_ptr, ptr_set_ptr by (unfold apart; lia). split_and!; [done..|].
    by apply (chain_header_only p m).
Qed.

(** ** The search of [free] *)

Fixpoint ascending (lo : Z) (l : list (Z * Z)) : Prop :=
  match l with [] => True | (a, _) :: l => lo < a ∧ ascending a l end.

Lemma blocks_ascending lo l hi : blocks lo l hi → ascending lo l.
Proof.
  revert lo. induction l as [|[a s] l IH]; intros lo; cbn [blocks ascending]; [done|]. intros (? & ? & H).
  split; [done|]. apply IH. apply blocks_lower with (2 := H). lia.
Qed.

Lemma ascending_lower lo lo' l : lo' ≤ lo → ascending lo l → ascending lo' l.
Proof. destruct l as [|[a s] l]; cbn [ascending]; [done|]. intros ? []. split; [lia|done]. Qed.

Lemma ascending_in lo l a s : ascending lo l → (a, s) ∈ l → lo < a.
Proof.
  revert lo. induction l as [|[b t] l IH]; intros lo; [by intros _ ?%elem_of_nil|]. intros [H1 H2].
  intros [[= -> ->]|H]%elem_of_cons; [done|]. specialize (IH b H2 H). lia.
Qed.

Lemma ascending_app lo l r : ascending lo (l ++ r) → ascending lo l ∧ ascending lo r.
Proof.
  revert lo. induction l as [|[b t] l IH]; intros lo; cbn [app ascending]; [done|]. intros [H1 H2].
  destruct (IH b H2). split; [done|]. apply ascending_lower with b; [lia|done].
Qed.

Section Search.
Context (base : Z).

(** From a block below the place: up to the last one that is below it. *)
Lemma find_from_below fuel m bp P p sp R :
  chain m (P ++ (p, sp) :: R) base → ascending (base - 1) (P ++ (p, sp) :: R) →
  p < bp → (R ≠ [] → bp < first R base) → (length P < fuel)%nat →
  free_find fuel m bp (first (P ++ [(p, sp)]) base) = Some p.
Proof.
  revert fuel. induction P as [|[a s] P IH]; intros fuel Hc Ha Hp HR Hf; (destruct fuel as [|fuel]; [simpl in Hf; lia|]).
  - destruct Hc as (_ & Hn & _). cbn [app first free_find]. rewrite Hn. destruct Ha as [Hb Ha].
    destruct R as [|[r t] R]; cbn [first].
    + rewrite (proj2 (Z.ltb_lt p bp)), (proj2 (Z.ltb_ge bp base)), (proj2 (Z.leb_le base p)) by lia. done.
    + specialize (HR ltac:(done)). cbn [first] in HR.
      by rewrite (proj2 (Z.ltb_lt p bp)), (proj2 (Z.ltb_lt bp r)) by lia.
  - destruct Hc as (_ & Hn & Hc). destruct Ha as [Hb Ha]. cbn [app first free_find]. rewrite Hn.
    assert (Hfirst : first (P ++ (p, sp) :: R) base = first (P ++ [(p, sp)]) base) by (by rewrite !first_app).
    assert (Hnext : a < first (P ++ [(p, sp)]) base ≤ p).
    { destruct P as [|[c u] P]; cbn [app first] in *; destruct Ha as [Hac Ha]; [lia|]. split; [done|].
      apply Z.lt_le_incl, (ascending_in c (P ++ (p, sp) :: R) p sp); [done|]. apply elem_of_app. right. left. }
    rewrite Hfirst, (proj2 (Z.ltb_ge bp _)), (proj2 (Z.leb_gt _ a)), andb_false_r by lia. cbn [andb].
    apply IH; [done| |done|done|simpl in Hf; lia]. apply ascending_lower with a; [lia|done].
Qed.

(** From a block above the place: around, through [base]. *)
Lemma find_from_above fuel m bp q t R :
  chain m ((q, t) :: R) base → ascending (base - 1) ((q, t) :: R) → base < bp → bp < q →
  free_find (S (length R) + fuel) m bp q = free_find fuel m bp base.
Proof.
  revert q t. induction R as [|[r u] R IH]; intros q t (_ & Hn & Hc) [Hb Ha] Hbp Hq;
    change (free_find (S ?n + fuel) m bp q) with (free_find (S (n + fuel)) m bp q); cbn [free_find]; rewrite Hn.
  - cbn [first]. rewrite (proj2 (Z.ltb_ge q bp)), (proj2 (Z.ltb_ge bp base)) by lia. cbn [andb orb]. by rewrite andb_false_r.
  - cbn [first]. destruct Ha as [Hr Ha].
    rewrite (proj2 (Z.ltb_ge q bp)), (proj2 (Z.leb_gt r q)) by lia. cbn [andb].
    apply (IH r u); [done| |done|lia]. split; [lia|done].
Qed.

Lemma free_find_ok fuel m bp L0 p sp R q :
  chain m (L0 ++ (p, sp) :: R) base → ascending (base - 1) (L0 ++ (p, sp) :: R) →
  first (L0 ++ (p, sp) :: R) base = base → base < bp →
  p < bp → (R ≠ [] → bp < first R base) → q ∈ (L0 ++ (p, sp) :: R).*1 →
  (S (length (L0 ++ (p, sp) :: R)) ≤ fuel)%nat → free_find fuel m bp q = Some p.
Proof.
  intros Hc Ha Hb Hbb Hp HR Hq Hf. rewrite length_app in Hf. cbn [length] in Hf.
  assert (Hlow : ∀ f, (length L0 < f)%nat → free_find f m bp base = Some p).
  { intros f Hlf. rewrite <-Hb. rewrite first_app. change (first ((p, sp) :: R) base) with (first [(p, sp)] base).
    rewrite <-first_app. by apply find_from_below with R. }
  apply list_elem_of_fmap in Hq as ([q' t] & -> & Hq). cbn [fst].
  apply elem_of_app in Hq as [Hq|[[= -> ->]|Hq]%elem_of_cons].
  - apply list_elem_of_split in Hq as (P1 & P2 & ->). rewrite <-app_assoc in Hc, Ha. cbn [app] in Hc, Ha.
    apply chain_app in Hc as [_ Hc]. apply ascending_app in Ha as [_ Ha].
    apply (find_from_below fuel m bp ((q', t) :: P2) p sp R); try done.
    rewrite length_app in Hf. simpl in *. lia.
  - apply chain_app in Hc as [_ Hc]. apply ascending_app in Ha as [_ Ha].
    apply (find_from_below fuel m bp [] p sp R); try done. simpl. lia.
  - apply list_elem_of_split in Hq as (P1 & P2 & ->). rewrite length_app in Hf. cbn [length] in Hf.
    replace fuel with (S (length P2) + (fuel - S (length P2)))%nat by lia.
    replace (L0 ++ (p, sp) :: P1 ++ (q', t) :: P2) with ((L0 ++ (p, sp) :: P1) ++ (q', t) :: P2) in Hc, Ha
      by (by rewrite <-app_assoc).
    apply chain_app in Hc as [_ Hc]. pose proof Ha as Ha'. apply ascending_app in Ha as [_ Ha].
    rewrite (find_from_above _ m bp q' t P2); [apply Hlow; lia|done|done|done|].
    specialize (HR ltac:(by destruct P1)). rewrite first_app in HR. destruct P1 as [|[r u] P1]; cbn [first] in HR; [done|].
    rewrite <-app_assoc in Ha'. apply ascending_app in Ha' as [_ Ha']. destruct Ha' as [_ [_ Ha']].
    assert (r < q'); [|lia]. apply (ascending_in r (P1 ++ (q', t) :: P2) q' t); [done|]. apply elem_of_app. right. left.
Qed.

End Search.

(** ** [free] on a well-formed list *)

Lemma blocks_snoc lo l p s hi : blocks lo (l ++ [(p, s)]) hi ↔ blocks lo l (p - 1) ∧ 1 ≤ s ∧ p + 16 * s ≤ hi.
Proof.
  revert lo. induction l as [|[a t] l IH]; intros lo; cbn [app blocks]; [lia|]. rewrite IH. tauto.
Qed.

Lemma joined_cons a s R : (∀ b t, (b, t) ∈ R → 1 ≤ t) → ∃ s' X, joined a s R = (a, s') :: X ∧ s ≤ s'.
Proof.
  intros HR. destruct R as [|[b t] R]; cbn [joined]; [by exists s, []|].
  pose proof (HR b t (list_elem_of_here _ _)). destruct (_ =? _); eexists _, _; (split; [done|lia]).
Qed.

Section FreeList.
Context (base : Z).

(** The list of free blocks [F], below [hi]. *)
Record list_ok (F : list (Z * Z)) (hi : Z) (h : heap) : Prop := {
  lo_chain : chain h.(hp_mem) ((base, 0) :: F) base;
  lo_blocks : blocks (base + 15) F hi;
  lo_freep : h.(hp_freep) ∈ ((base, 0) :: F).*1;
  lo_base : 0 < base ∧ base + 16 ≤ hi;
  lo_hi : hi ≤ 2 ^ 32
}.

(** The last block below an address. *)
Lemma last_below L bp :
  blocks (base + 15) L bp → base + 16 ≤ bp →
  ∃ L0 p sp, (base, 0) :: L = L0 ++ [(p, sp)] ∧ 0 ≤ sp ∧ base ≤ p ∧ p + 16 * Z.max 1 sp ≤ bp ∧
    ((L0 = [] ∧ p = base ∧ sp = 0) ∨ ∃ L1, L0 = (base, 0) :: L1 ∧ 1 ≤ sp ∧ blocks (base + 15) L1 (p - 1)).
Proof.
  intros HL Hb. destruct L as [|[p sp] L1 _] using rev_ind.
  - exists [], base, 0. split_and!; [done|lia..|by left].
  - apply blocks_snoc in HL as (H1 & Hs & Hp). pose proof (blocks_le _ _ _ H1).
    exists ((base, 0) :: L1), p, sp. split_and!; [done|lia..|]. right. by exists L1.
Qed.

Lemma list_ok_ascending F hi h : list_ok F hi h → ascending (base - 1) ((base, 0) :: F).
Proof.
  intros O. split; [lia|]. apply ascending_lower with (base + 15); [lia|]. by eapply blocks_ascending, lo_blocks.
Qed.

(** The memory of the list and of a block: nothing else is written. *)
Definition outside (F : list (Z * Z)) (m m' : mem) : Prop :=
  ∀ x, ¬ covers ((base, 1) :: F) x → byte_at m' x = byte_at m x.

(** The list with the block [(bp, s)] put after [L0 ++ [(p, sp)]]. *)
Definition inserted (L0 : list (Z * Z)) (p sp bp s' : Z) (X : list (Z * Z)) : list (Z * Z) :=
  L0 ++ (if p + 16 * sp =? bp then (p, sp + s') :: X else (p, sp) :: (bp, s') :: X).

Lemma inserted_covers L0 p sp bp s' X x :
  0 ≤ sp → 1 ≤ s' → covers (inserted L0 p sp bp s' X) x ↔ covers (L0 ++ [(p, sp)]) x ∨ covers ((bp, s') :: X) x.
Proof.
  intros Hsp Hs. unfold inserted. rewrite !covers_app. destruct (Z.eqb_spec (p + 16 * sp) bp) as [<-|];
    rewrite !covers_cons; pose proof (covers_nil x); [|tauto].
  assert (p ≤ x < p + 16 * (sp + s') ↔ p ≤ x < p + 16 * sp ∨ p + 16 * sp ≤ x < p + 16 * sp + 16 * s') as -> by lia.
  tauto.
Qed.

Lemma inserted_blocks L0 p sp bp s' X hi :
  p + 16 * Z.max 1 sp ≤ bp → base + 16 ≤ bp → 1 ≤ s' → blocks (bp + 16 * s') X hi →
  ((L0 = [] ∧ p = base ∧ sp = 0) ∨ ∃ L1, L0 = (base, 0) :: L1 ∧ 1 ≤ sp ∧ blocks (base + 15) L1 (p - 1)) →
  ∃ F', inserted L0 p sp bp s' X = (base, 0) :: F' ∧ blocks (base + 15) F' hi.
Proof.
  intros Hp Hb Hs HX [(-> & -> & ->)|(L1 & -> & Hsp & HL1)]; unfold inserted.
  - rewrite (proj2 (Z.eqb_neq _ _)) by lia. eexists. split; [done|]. cbn [blocks]. split_and!; [lia|lia|done].
  - eexists. split; [done|]. apply blocks_app with (p - 1); [done|].
    destruct (Z.eqb_spec (p + 16 * sp) bp) as [<-|]; cbn [blocks].
    + split_and!; [lia|lia|]. by replace (p + 16 * (sp + s')) with (p + 16 * sp + 16 * s') by lia.
    + split_and!; [lia..|done].
Qed.

(** Where a block goes in the list. *)
Record place (F : list (Z * Z)) (hi bp s : Z) (L0 : list (Z * Z)) (p sp : Z) (R : list (Z * Z)) : Prop := {
  pl_nodes : (base, 0) :: F = L0 ++ (p, sp) :: R;
  pl_p : base ≤ p ∧ 0 ≤ sp ∧ p + 16 * Z.max 1 sp ≤ bp;
  pl_R : blocks (bp + 16 * s - 1) R hi;
  pl_L0 : (L0 = [] ∧ p = base ∧ sp = 0) ∨ ∃ L1, L0 = (base, 0) :: L1 ∧ 1 ≤ sp ∧ blocks (base + 15) L1 (p - 1)
}.

Lemma place_exists F hi bp s :
  blocks (base + 15) F hi → 1 ≤ s → base + 16 ≤ bp → bp + 16 * s ≤ hi →
  (∀ b t, (b, t) ∈ F → bp + 16 * s ≤ b ∨ b + 16 * t ≤ bp) → ∃ L0 p sp R, place F hi bp s L0 p sp R.
Proof.
  intros HB Hs Hb Hhi Hd. destruct (blocks_split _ _ _ bp s HB ltac:(lia) Hs Hhi Hd) as (L & R & -> & HL & HR).
  destruct (last_below L bp HL Hb) as (L0 & p & sp & EL & Hsp & Hbp & Hp & HL0). exists L0, p, sp, R.
  split; [|done..]. by rewrite app_comm_cons, EL, <-app_assoc.
Qed.

Lemma place_below F hi bp s L0 p sp R a t : place F hi bp s L0 p sp R → (a, t) ∈ L0 → a + 16 ≤ p.
Proof.
  intros [_ _ _ [(-> & _)|(L1 & -> & _ & HL1)]] Hin; [by apply elem_of_nil in Hin|].
  pose proof (blocks_le _ _ _ HL1). apply elem_of_cons in Hin as [[= -> ->]|Hin]; [lia|].
  destruct (blocks_in _ _ _ _ _ HL1 Hin) as (? & ? & ?). lia.
Qed.

Lemma place_find fuel F hi h bp s L0 p sp R :
  list_ok F hi h → place F hi bp s L0 p sp R → 1 ≤ s → (S (S (length F)) ≤ fuel)%nat →
  free_find fuel h.(hp_mem) bp h.(hp_freep) = Some p.
Proof.
  intros O [EN [Hb [Hsp Hp]] HR HL0] Hs Hf. pose proof (list_ok_ascending F hi h O) as Hasc.
  destruct O as [Hc _ Hfp _ _]. assert (Hlen : length (L0 ++ (p, sp) :: R) = S (length F)) by (by rewrite <-EN).
  rewrite EN in Hc, Hfp, Hasc. apply (free_find_ok base) with L0 sp R; try done; [|lia..| |by rewrite Hlen].
  - destruct HL0 as [(-> & -> & _)|(L1 & -> & _)]; done.
  - intros HRn. destruct R as [|[r t] R]; [done|]. destruct HR as [? _]. cbn [first]. lia.
Qed.

(** The writes of [free] put the block in the list. *)
Lemma place_join F hi h bp s L0 p sp R :
  list_ok F hi h → place F hi bp s L0 p sp R → size h.(hp_mem) bp = s → 1 ≤ s → bp + 16 * s ≤ hi →
  let m1 := join_upper bp p h.(hp_mem) in
  let m2 := join_lower bp p m1 in
  ∃ s' X, joined bp s R = (bp, s') :: X ∧ s ≤ s' ∧ header_only bp h.(hp_mem) m1 ∧ header_only p m1 m2 ∧
    chain m2 (inserted L0 p sp bp s' X) base ∧ blocks (bp + 16 * s') X hi.
Proof.
  intros O PL Hs Hs1 Hhi m1 m2. assert (Hbelow : ∀ a t, (a, t) ∈ L0 → a + 16 ≤ p)
    by (intros a t; by apply place_below with F hi bp s sp R).
  destruct O as [Hc _ _ H0 H32]. pose proof PL as [EN [Hb [Hsp Hp]] HR HL0].
  rewrite EN in Hc. apply chain_app in Hc as [HcL (Hps & Hpp & HcR)].
  assert (HR32 : blocks (bp + 16 * s - 1) R (2 ^ 32)) by (by apply blocks_upper with hi).
  assert (HRs : ∀ b t, (b, t) ∈ R → 1 ≤ t) by (intros b t Hbt; eapply blocks_in in Hbt as (_ & ? & _); done).
  destruct (join_upper_ok h.(hp_mem) bp p s R base) as [Hc1 O1]; [done|done|done|unfold apart; lia|lia|done|lia|done|lia|].
  destruct (joined_cons bp s R HRs) as (s' & X & EJ & Hs').
  assert (HJ : blocks (bp - 1) (joined bp s R) hi) by (apply joined_blocks; [lia|done|done|done]). rewrite EJ in Hc1, HJ.
  assert (Eps : size m1 p = sp) by (rewrite <-Hps; apply (header_only_apart bp); [done|unfold apart; lia]).
  destruct (join_lower_ok m1 bp p sp s' X base) as [Hc2 O2]; [done|done|lia|lia|done| |lia|].
  { by apply blocks_upper with hi. }
  exists s', X. destruct HJ as (_ & _ & HX). split_and!; [done..| |done].
  unfold inserted. apply chain_app. split; [|done].
  replace (first _ base) with p by (by destruct (_ =? _)).
  apply (chain_header_only p m1); [done|intros a t Hin; left; by eapply Hbelow|].
  apply (chain_header_only bp h.(hp_mem)); [done|intros a t Hin; left|done].
  specialize (Hbelow a t Hin). lia.
Qed.

Lemma free_block fuel F hi h bp s :
  list_ok F hi h → size h.(hp_mem) bp = s → 1 ≤ s → base + 16 ≤ bp → bp + 16 * s ≤ hi →
  (∀ b t, (b, t) ∈ F → bp + 16 * s ≤ b ∨ b + 16 * t ≤ bp) → (S (S (length F)) ≤ fuel)%nat →
  ∃ F' h', free fuel (bp + 16) h = Some h' ∧ list_ok F' hi h' ∧
    (∀ x, covers F' x ↔ covers F x ∨ bp ≤ x < bp + 16 * s) ∧ outside ((bp, s) :: F) h.(hp_mem) h'.(hp_mem) ∧
    (length F' ≤ S (length F))%nat ∧
    (s ≤ size h'.(hp_mem) h'.(hp_freep) ∨ s ≤ size h'.(hp_mem) (ptr h'.(hp_mem) h'.(hp_freep))).
Proof.
  intros O Hs Hs1 Hb Hhi Hd Hf.
  destruct (place_exists F hi bp s (lo_blocks _ _ _ O) Hs1 Hb Hhi Hd) as (L0 & p & sp & R & PL).
  pose proof (place_find fuel F hi h bp s L0 p sp R O PL Hs1 Hf) as Hfind.
  destruct (place_join F hi h bp s L0 p sp R O PL Hs Hs1 Hhi) as (s' & X & EJ & Hs' & O1 & O2 & Hc2 & HX).
  set (m1 := join_upper bp p h.(hp_mem)) in *. set (m2 := join_lower bp p m1) in *.
  destruct PL as [EN [Hbp [Hsp Hp]] HR HL0].
  destruct (inserted_blocks L0 p sp bp s' X hi) as (F' & EF & HF'); [done|done|lia|done|done|].
  assert (HRs : ∀ b t, (b, t) ∈ R → 1 ≤ t) by (intros b t Hbt; eapply blocks_in in Hbt as (_ & ? & _); done).
  assert (Hcov : ∀ l x, covers ((base, 0) :: l) x ↔ covers l x) by (intros l x; rewrite covers_cons; intuition lia).
  exists F', (mk_heap m2 p). cbn [hp_mem hp_freep]. split_and!.
  - unfold free. replace (bp + 16 - 16) with bp by lia. by rewrite Hfind.
  - destruct O as [_ _ _ H0 H32]. split; cbn [hp_mem hp_freep]; [by rewrite <-EF|done| |done|done].
    rewrite <-EF. unfold inserted. rewrite fmap_app. apply elem_of_app. right. destruct (_ =? _); left.
  - intros x. rewrite <-(Hcov F'), <-EF, inserted_covers, <-EJ, joined_covers by (done || lia).
    rewrite <-(Hcov F), EN. change ((p, sp) :: R) with ([(p, sp)] ++ R). rewrite app_assoc, (covers_app _ R). tauto.
  - intros x Hx. rewrite !covers_cons in Hx. rewrite O2, O1; [done|lia|].
    destruct HL0 as [(_ & -> & _)|(L1 & EL0 & Hsp1 & _)]; [lia|]. destruct (decide (p ≤ x < p + 16)) as [Hpx|]; [|lia].
    destruct Hx. right. right. rewrite <-(Hcov F), EN, covers_app, covers_cons. right. left. lia.
  - assert (Hl : (length ((base, 0%Z) :: F') ≤ S (length ((base, 0%Z) :: F)))%nat); [|simpl in *; lia].
    pose proof (joined_length bp s R) as HJl. rewrite EJ in HJl. rewrite <-EF, EN. unfold inserted.
    rewrite !length_app. destruct (_ =? _); simpl in *; lia.
  - unfold inserted in Hc2. apply chain_app in Hc2 as [_ Hc2]. destruct (_ =? _).
    + destruct Hc2 as [-> _]. left. lia.
    + destruct Hc2 as (_ & -> & Hc2). cbn [first]. destruct Hc2 as [-> _]. right. done.
Qed.

(** ** Taking a block from the list *)

Lemma blocks_remove lo l a s r hi : blocks lo (l ++ (a, s) :: r) hi → blocks lo (l ++ r) hi.
Proof.
  revert lo. induction l as [|[b t] l IH]; intros lo; cbn [app blocks].
  - intros (? & ? & H). apply blocks_lower with (2 := H). lia.
  - intros (? & ? & H). split_and!; [done..|]. by apply IH.
Qed.

Lemma blocks_shrink lo l a s s' r hi :
  1 ≤ s' ≤ s → blocks lo (l ++ (a, s) :: r) hi → blocks lo (l ++ (a, s') :: r) hi.
Proof.
  intros Hs. revert lo. induction l as [|[b t] l IH]; intros lo; cbn [app blocks].
  - intros (? & ? & H). split_and!; [done|lia|]. apply blocks_lower with (2 := H). lia.
  - intros (? & ? & H). split_and!; [done..|]. by apply IH.
Qed.

(** A block is apart from the rest of the list. *)
Lemma blocks_apart lo l a s r hi b t :
  blocks lo (l ++ (a, s) :: r) hi → (b, t) ∈ l ++ r → b + 16 * t ≤ a ∨ a + 16 * s ≤ b.
Proof.
  revert lo. induction l as [|[c u] l IH]; intros lo; cbn [app blocks].
  - intros (? & ? & H) Hin. right. apply Z.lt_le_incl. by eapply blocks_in in H as (? & _).
  - intros (? & ? & H) [[= -> ->]|Hin]%elem_of_cons; [|by eapply IH].
    left. apply (blocks_in _ _ _ a s) in H as (? & _); [lia|]. apply elem_of_app. right. left.
Qed.

(** The node of a free block and the one that points to it. *)
Lemma pred_node F hi h y a :
  list_ok F hi h → y ∈ ((base, 0) :: F).*1 → ptr h.(hp_mem) y = a → a ≠ base →
  ∃ P sy Q, (base, 0) :: F = P ++ (y, sy) :: (a, size h.(hp_mem) a) :: Q.
Proof.
  intros O Hy Hp Ha. apply list_elem_of_fmap in Hy as ([y' sy] & -> & Hy). cbn [fst] in *.
  apply list_elem_of_split in Hy as (P & Q & EN). pose proof (lo_chain _ _ _ O) as Hc. rewrite EN in Hc.
  apply chain_app in Hc as [_ (_ & Hq & Hc)]. rewrite Hp in Hq. destruct Q as [|[b t] Q]; cbn [first] in Hq; [done|].
  subst b. destruct Hc as [<- _]. by exists P, sy, Q.
Qed.

Lemma split_nodes F P y sy a s Q :
  (base, 0) :: F = P ++ (y, sy) :: (a, s) :: Q → ∃ l, F = l ++ (a, s) :: Q ∧ (base, 0) :: l = P ++ [(y, sy)].
Proof.
  intros E. destruct P as [|x P]; injection E as -> ->; [by exists []|].
  exists (P ++ [(y, sy)]). by rewrite <-app_assoc.
Qed.

(** The headers of the list do not overlap. *)
Lemma nodes_apart F hi h P y sy Q b t :
  list_ok F hi h → (base, 0) :: F = P ++ (y, sy) :: Q → (b, t) ∈ P ++ Q → apart b y.
Proof.
  intros O E Hin. pose proof (lo_blocks _ _ _ O) as HB. unfold apart. destruct P as [|x P]; [injection E as <- <- ->|injection E as <- ->].
  - destruct (blocks_in _ _ _ _ _ HB Hin). lia.
  - destruct (blocks_in _ _ _ y sy HB) as (? & ? & _); [apply elem_of_app; right; left|].
    apply elem_of_cons in Hin as [[= -> ->]|Hin]; [lia|].
    destruct (blocks_apart _ _ _ _ _ _ b t HB Hin) as [?|?]; [|lia].
    destruct (blocks_in _ _ _ b t HB) as (_ & ? & _); [|lia].
    apply elem_of_app. apply elem_of_app in Hin as [?|?]; [by left|right; by right].
Qed.

(** A free block of the list, with the block [l] before it and [Q] after it. *)
Lemma free_block_facts F hi h P y sy a s Q :
  list_ok F hi h → (base, 0) :: F = P ++ (y, sy) :: (a, s) :: Q →
  ∃ l, F = l ++ (a, s) :: Q ∧ (base, 0) :: l = P ++ [(y, sy)] ∧ base + 16 ≤ a ∧ 1 ≤ s ∧ a + 16 * s ≤ hi ∧
    (∀ b t, (b, t) ∈ (P ++ [(y, sy)]) ++ Q → b + 16 ≤ a ∨ a + 16 * s ≤ b) ∧
    ∀ x, a ≤ x < a + 16 * s → ¬ covers (l ++ Q) x.
Proof.
  intros O E. pose proof (lo_blocks _ _ _ O) as HB. destruct (split_nodes _ _ _ _ _ _ _ E) as (l & -> & El).
  destruct (blocks_in _ _ _ a s HB) as (? & ? & ?); [apply elem_of_app; right; left|].
  exists l. split_and!; [done|done|lia|done|done| |].
  - intros b t. rewrite <-El. cbn [app]. intros [[= -> ->]|Hin]%elem_of_cons; [lia|].
    destruct (blocks_apart _ _ _ _ _ _ b t HB Hin) as [?|?]; [|lia].
    destruct (blocks_in _ _ _ b t HB) as (_ & ? & _); [|lia].
    apply elem_of_app. apply elem_of_app in Hin as [?|?]; [by left|right; by right].
  - intros x Hx (b & t & Hin & Hbx). destruct (blocks_apart _ _ _ _ _ _ b t HB Hin); lia.
Qed.

Lemma covers_split l a s Q x : covers (l ++ (a, s) :: Q) x ↔ covers (l ++ Q) x ∨ a ≤ x < a + 16 * s.
Proof. rewrite !covers_app, covers_cons. tauto. Qed.

(** An exact fit. *)
Lemma take_whole F hi h P y sy a s Q l :
  list_ok F hi h → (base, 0) :: F = P ++ (y, sy) :: (a, s) :: Q → F = l ++ (a, s) :: Q → (base, 0) :: l = P ++ [(y, sy)] →
  list_ok (l ++ Q) hi (mk_heap (set_ptr y (ptr h.(hp_mem) a) h.(hp_mem)) y).
Proof.
  intros O E EF El. pose proof (lo_chain _ _ _ O) as Hc. rewrite E in Hc.
  apply chain_app in Hc as [HcP (Hy & Hyp & Ha & Hap & HcQ)]. set (m := h.(hp_mem)) in *.
  assert (Hfirst : 0 ≤ first Q base < 2 ^ 64).
  { pose proof (lo_base _ _ _ O). pose proof (lo_hi _ _ _ O). destruct Q as [|[c u] Q']; cbn [first]; [|].
    - pose proof (lo_blocks _ _ _ O) as HB%blocks_le. lia.
    - destruct (blocks_in _ _ _ c u (lo_blocks _ _ _ O)) as (? & ? & ?); [|lia].
      rewrite EF. apply elem_of_app. right. right. left. }
  assert (EN : (base, 0) :: l ++ Q = P ++ (y, sy) :: Q) by (by rewrite app_comm_cons, El, <-app_assoc).
  assert (HO : header_only y m (set_ptr y (ptr m a) m)) by apply set_ptr_only.
  assert (Hap' : ∀ b t, (b, t) ∈ P ++ Q → apart b y).
  { intros b t Hin. apply (nodes_apart F hi h P y sy ((a, s) :: Q) b t O E).
    apply elem_of_app in Hin as [?|?]; apply elem_of_app; [by left|right; by right]. }
  destruct O as [_ HB _ H0 H32]. split; cbn [hp_mem hp_freep]; [|rewrite EF in HB; by eapply blocks_remove| |done|done].
  - rewrite EN. apply chain_app. split.
    + apply (chain_header_only y m); [done| |done]. intros b t Hin. apply (Hap' b t). apply elem_of_app. by left.
    + cbn [chain]. rewrite size_set_ptr, Hap, ptr_set_ptr by auto. split_and!; [done..|].
      rewrite <-Hap. apply (chain_header_only y m); [done| |done]. intros b t Hin. apply (Hap' b t). apply elem_of_app. by right.
  - rewrite EN, fmap_app. apply elem_of_app. right. left.
Qed.

(** The end of a larger block. *)
Lemma take_end F hi h P y sy a s Q l n :
  list_ok F hi h → (base, 0) :: F = P ++ (y, sy) :: (a, s) :: Q → F = l ++ (a, s) :: Q → (base, 0) :: l = P ++ [(y, sy)] →
  (∀ b t, (b, t) ∈ (P ++ [(y, sy)]) ++ Q → b + 16 ≤ a ∨ a + 16 * s ≤ b) → 1 ≤ n < s → a + 16 * s ≤ hi → 0 ≤ a →
  list_ok (l ++ (a, s - n) :: Q) hi
    (mk_heap (set_size (a + 16 * (s - n)) n (set_size a (s - n) h.(hp_mem))) y).
Proof.
  intros O E EF El Hap Hn Hhi H0a. pose proof (lo_chain _ _ _ O) as Hc. rewrite E in Hc.
  change ((y, sy) :: (a, s) :: Q) with ([(y, sy)] ++ (a, s) :: Q) in Hc. rewrite app_assoc in Hc.
  apply chain_app in Hc as [HcP (Ha & Hp & HcQ)].
  set (m := h.(hp_mem)) in *. set (m1 := set_size a (s - n) m). set (m2 := set_size (a + 16 * (s - n)) n m1).
  assert (Hfr : ∀ b t, (b, t) ∈ (P ++ [(y, sy)]) ++ Q → size m2 b = size m b ∧ ptr m2 b = ptr m b).
  { intros b t Hin. specialize (Hap b t Hin). unfold m2, m1.
    rewrite !size_set_size_apart, !ptr_set_size by (unfold apart; lia). done. }
  destruct O as [_ HB _ H0 H32].
  split; cbn [hp_mem hp_freep]; [|rewrite EF in HB; apply blocks_shrink with (2 := HB); lia| |done|done].
  - rewrite app_comm_cons, El. apply chain_app. split.
    + apply (free_chain_frame m); [|done]. intros b t Hin. apply (Hfr b t). apply elem_of_app. by left.
    + cbn [chain]. fold m1 m2. unfold m2, m1. rewrite size_set_size_apart by (unfold apart; lia).
      rewrite size_set_size by lia. rewrite !ptr_set_size by (unfold apart; lia). split_and!; [done..|].
      apply (free_chain_frame m); [|done]. intros b t Hin. apply (Hfr b t). apply elem_of_app. by right.
  - rewrite app_comm_cons, El, !fmap_app. apply elem_of_app. left. apply elem_of_app. right. left.
Qed.

Lemma take_block_ok F hi h y a n :
  list_ok F hi h → y ∈ ((base, 0) :: F).*1 → ptr h.(hp_mem) y = a → a ≠ base → 1 ≤ n ≤ size h.(hp_mem) a →
  ∃ F' h' b, take_block n y a h = (b + 16, h') ∧ list_ok F' hi h' ∧ size h'.(hp_mem) b = n ∧
    (∀ x, covers F x ↔ covers F' x ∨ b ≤ x < b + 16 * n) ∧ (∀ x, b ≤ x < b + 16 * n → ¬ covers F' x) ∧
    outside F h.(hp_mem) h'.(hp_mem) ∧ base + 16 ≤ b ∧ b + 16 * n ≤ hi ∧ (length F' ≤ length F)%nat.
Proof.
  intros O Hy Hp Ha Hn. destruct (pred_node F hi h y a O Hy Hp Ha) as (P & sy & Q & E).
  set (m := h.(hp_mem)) in *. set (s := size m a) in *.
  destruct (free_block_facts F hi h P y sy a s Q O E) as (l & EF & El & Hba & Hs & Hhi & Hap & Hcov).
  pose proof (lo_base _ _ _ O). pose proof (lo_hi _ _ _ O).
  assert (Hyb : y = base ∨ ∃ t, (y, t) ∈ F).
  { apply list_elem_of_fmap in Hy as ([y' t] & -> & [[= -> ->]|Hy]%elem_of_cons); [by left|right; by exists t]. }
  unfold take_block. fold m s. destruct (Z.eqb_spec s n) as [<-|Hne].
  - exists (l ++ Q), (mk_heap (set_ptr y (ptr m a) m) y), a. rewrite plus_small by lia. cbn [hp_mem].
    split_and!; [by f_equal; lia|by apply (take_whole F hi h P y sy a s)| |by intros x; rewrite EF, covers_split|done| |done|done|rewrite EF, !length_app; simpl; lia].
    + rewrite size_set_ptr; [done|]. right. destruct (Hap y sy) as [?|?]; [|unfold apart; lia..].
      apply elem_of_app. left. apply elem_of_app. right. left.
    + intros x Hx. apply set_ptr_only. rewrite covers_cons in Hx. destruct Hyb as [->|[t Ht]]; [lia|].
      destruct (decide (y ≤ x < y + 16)); [|lia]. destruct Hx. right. exists y, t. split; [done|].
      destruct (blocks_in _ _ _ _ _ (lo_blocks _ _ _ O) Ht) as (_ & ? & _). lia.
  - unfold u32. rewrite Z.mod_small by lia. rewrite size_set_size by lia. rewrite (plus_small a) by lia.
    eexists (l ++ (a, s - n) :: Q), _, (a + 16 * (s - n)). rewrite plus_small by lia. cbn [hp_mem].
    split_and!; [by f_equal; lia|by apply (take_end F hi h P y sy a s); try done; lia|by apply size_set_size; lia| | | |lia|lia|rewrite EF, !length_app; simpl; lia].
    + intros x. rewrite EF, !covers_split. assert (a ≤ x < a + 16 * s ↔ (a ≤ x < a + 16 * (s - n)) ∨
        (a + 16 * (s - n) ≤ x < a + 16 * (s - n) + 16 * n)) as -> by lia. tauto.
    + intros x Hx. rewrite covers_split. intros [Hc|Hc]; [|lia]. apply (Hcov x); [lia|done].
    + intros x Hx. rewrite covers_cons, EF, covers_split in Hx. cbn [hp_mem].
      rewrite (set_size_only (a + 16 * (s - n)) _ _ x), (set_size_only a _ _ x) by lia. done.
Qed.
End FreeList.

(** ** The search of [malloc] *)

(** Following the list from [q] visits the blocks [V]. *)
Fixpoint path (m : mem) (q : Z) (V : list (Z * Z)) : Prop :=
  match V with
  | [] => True
  | (a, s) :: V => ptr m q = a ∧ size m a = s ∧ path m a V
  end.

(** Where it ends. *)
Fixpoint path_end (q : Z) (V : list (Z * Z)) : Z :=
  match V with [] => q | (a, _) :: V => path_end a V end.

Lemma heap_path_app m q V V' : path m q (V ++ V') ↔ path m q V ∧ path m (path_end q V) V'.
Proof. revert q. induction V as [|[a s] V IH]; intros q; cbn [app path path_end]; [tauto|]. rewrite IH. tauto. Qed.

Lemma path_end_app q V V' : path_end q (V ++ V') = path_end (path_end q V) V'.
Proof. revert q. induction V as [|[a s] V IH]; intros q; cbn [app path_end]; auto. Qed.

Lemma path_end_in q V (l : list Z) : q ∈ l → (∀ a s, (a, s) ∈ V → a ∈ l) → path_end q V ∈ l.
Proof.
  revert q. induction V as [|[a s] V IH]; intros q Hq HV; cbn [path_end]; [done|]. apply IH.
  - apply (HV a s). left.
  - intros b t Hb. apply (HV b t). by right.
Qed.

Lemma chain_path m a s l last : chain m ((a, s) :: l) last → path m a l ∧ ptr m (path_end a l) = last.
Proof.
  revert a s. induction l as [|[b t] l IH]; intros a s; cbn [chain path path_end first].
  - by intros (_ & ? & _).
  - intros (_ & Hp & Hc). destruct (IH b t Hc). destruct Hc as [Hs _]. done.
Qed.

(** Once around, from a node of the list. *)
Lemma list_path base F hi h q :
  list_ok base F hi h → q ∈ ((base, 0) :: F).*1 →
  ∃ V s, path h.(hp_mem) q (V ++ [(q, s)]) ∧ length V = length F ∧
    (∀ a t, (a, t) ∈ V → a ∈ ((base, 0) :: F).*1 ∧ a ≠ q) ∧
    (∀ a t, (a, t) ∈ V ++ [(q, s)] ↔ (a, t) ∈ (base, 0) :: F).
Proof.
  intros O Hq. apply list_elem_of_fmap in Hq as ([q' s] & -> & Hq). cbn [fst].
  apply list_elem_of_split in Hq as (P & Q & E). pose proof (lo_chain _ _ _ _ O) as Hc.
  assert (Hin : ∀ a t, (a, t) ∈ (Q ++ P) ++ [(q', s)] ↔ (a, t) ∈ P ++ (q', s) :: Q).
  { intros a t. rewrite !elem_of_app, !elem_of_cons, elem_of_nil. tauto. }
  exists (Q ++ P), s. split_and!; [| | |by rewrite E].
  - assert (HQ : path h.(hp_mem) q' Q ∧ ptr h.(hp_mem) (path_end q' Q) = base).
    { rewrite E in Hc. apply chain_app in Hc as [_ Hc]. by apply chain_path in Hc. }
    rewrite <-app_assoc. apply heap_path_app. split; [apply HQ|]. destruct HQ as [_ HQ].
    assert (Hb : ∃ t V, P ++ [(q', s)] = (base, t) :: V).
    { destruct P as [|x P]; injection E; [intros _ <- <-|intros _ <-]; eexists _, _; reflexivity. }
    destruct Hb as (t & V & Hb).
    change ((q', s) :: Q) with ([(q', s)] ++ Q) in E. rewrite app_assoc, Hb in E. rewrite E in Hc.
    rewrite Hb. cbn [app] in Hc.
    apply chain_path in Hc as Hp. destruct Hp as [Hp _]. apply heap_path_app in Hp as [Hp _].
    cbn [path]. split_and!; [done|by destruct Hc|done].
  - apply (f_equal length) in E. rewrite !length_app in *. simpl in *. lia.
  - intros a t Ha. split; [|].
    + rewrite E. apply list_elem_of_fmap. exists (a, t). split; [done|]. apply Hin. apply elem_of_app. by left.
    + intros ->. assert (apart q' q'); [|unfold apart in *; lia].
      apply (nodes_apart base F hi h P q' s Q q' t O E). apply elem_of_app. apply elem_of_app in Ha. tauto.
Qed.

Section Walk.
Context (fuel0 : nat) (n : Z) (h : heap).

Lemma malloc_body_skip q p :
  size h.(hp_mem) p < n → p ≠ h.(hp_freep) → malloc_body fuel0 n (q, p, h) = mret (inl (p, ptr h.(hp_mem) p, h)).
Proof. intros Hs Hp. unfold malloc_body. by rewrite (proj2 (Z.leb_gt _ _)), (proj2 (Z.eqb_neq _ _)). Qed.

Lemma malloc_body_found q p :
  n ≤ size h.(hp_mem) p → malloc_body fuel0 n (q, p, h) = mret (inr (take_block n q p h)).
Proof. intros Hs. unfold malloc_body. by rewrite (proj2 (Z.leb_le _ _)). Qed.

Lemma walk_skip V fuel q :
  path h.(hp_mem) q V → (∀ a s, (a, s) ∈ V → s < n ∧ a ≠ h.(hp_freep)) →
  uloop (length V + fuel) (malloc_body fuel0 n) (q, ptr h.(hp_mem) q, h) =
    uloop fuel (malloc_body fuel0 n) (path_end q V, ptr h.(hp_mem) (path_end q V), h).
Proof.
  revert q. induction V as [|[a s] V IH]; intros q Hp HV; [done|]. destruct Hp as (-> & Hs & Hp).
  destruct (HV a s (list_elem_of_here _ _)) as [Hn Ha]. cbn [length Nat.add uloop path_end].
  rewrite malloc_body_skip by (done || lia). cbn [mbind uprog_bind ubind mret uprog_ret].
  apply IH; [done|]. intros b t Hb. apply (HV b t). by right.
Qed.

Lemma walk_found fuel q a :
  ptr h.(hp_mem) q = a → n ≤ size h.(hp_mem) a →
  uloop (S fuel) (malloc_body fuel0 n) (q, a, h) = mret (take_block n q a h).
Proof. intros Hp Hn. cbn [uloop]. by rewrite malloc_body_found. Qed.

(** The first block that is large enough, if there is one. *)
Lemma first_fit (V : list (Z * Z)) :
  (∀ a s, (a, s) ∈ V → s < n) ∨ ∃ V1 a s V2, V = V1 ++ (a, s) :: V2 ∧ n ≤ s ∧ ∀ b t, (b, t) ∈ V1 → t < n.
Proof.
  induction V as [|[a s] V IH]; [left; by intros a s ?%elem_of_nil|].
  destruct (decide (n ≤ s)) as [H|H].
  - right. exists [], a, s, V. split_and!; [done|done|]. by intros b t ?%elem_of_nil.
  - destruct IH as [IH|(V1 & b & t & V2 & -> & Ht & IH)]; [left|right].
    + intros b t [[= -> ->]|Hb]%elem_of_cons; [lia|eauto].
    + exists ((a, s) :: V1), b, t, V2. split_and!; [done|done|].
      intros c u [[= -> ->]|Hc]%elem_of_cons; [lia|eauto].
Qed.
End Walk.

(** ** The heap *)

(** What the allocator relies on: the end of the memory of the process, that
    [sbrk] moves.  A process has less than 4 GB. *)
Class Break {W : Type} (o : os W) : Type := {
  brk : W → Z;
  brk_range w : 0 ≤ brk w ≤ 2 ^ 32;
  sbrk_spec n w : 0 ≤ n →
    ∃ r w', o _ (Sbrk n) w = Some (r, w') ∧
      ((r = -1 ∧ brk w' = brk w) ∨ (r = brk w ∧ brk w' = brk w + n))
}.

Section Heap.
Context (base : Z).

(** The free blocks [F] and the blocks [A] in use (the number of units by the
    address of the header) are below [hi] and do not overlap. *)
Record heap_ok (F : list (Z * Z)) (A : gmap Z Z) (hi : Z) (h : heap) : Prop := {
  ho_list : list_ok base F hi h;
  ho_live a s : A !! a = Some s →
    base + 16 ≤ a ∧ 1 ≤ s ∧ a + 16 * s ≤ hi ∧ size h.(hp_mem) a = s ∧ ∀ x, a ≤ x < a + 16 * s → ¬ covers F x;
  ho_sep a s b t : A !! a = Some s → A !! b = Some t → a ≠ b → a + 16 * s ≤ b ∨ b + 16 * t ≤ a
}.

(** The blocks in use keep their contents. *)
Definition untouched (A : gmap Z Z) (m m' : mem) : Prop :=
  ∀ a s x, A !! a = Some s → a ≤ x < a + 16 * s → byte_at m' x = byte_at m x.

Lemma untouched_size A m m' a s : untouched A m m' → A !! a = Some s → 1 ≤ s → size m' a = size m a.
Proof. intros U Ha Hs. apply load_ext. intros x Hx. apply (U a s); [done|lia]. Qed.

(** A new list of free blocks, with memory written only outside the blocks in use. *)
Lemma heap_ok_update F F' A hi hi' h h' :
  heap_ok F A hi h → list_ok base F' hi' h' → hi ≤ hi' → untouched A h.(hp_mem) h'.(hp_mem) →
  (∀ a s x, A !! a = Some s → a ≤ x < a + 16 * s → ¬ covers F' x) → heap_ok F' A hi' h'.
Proof.
  intros [_ HA HS] O Hhi U HF. split; [done| |done].
  intros a s Ha. destruct (HA a s Ha) as (? & ? & ? & Hsz & _).
  split_and!; [done|done|lia|by rewrite (untouched_size A _ _ a s U Ha)|intros x; by apply HF].
Qed.

Lemma heap_ok_take F F' A hi h h' b n :
  heap_ok F A hi h → list_ok base F' hi h' → 1 ≤ n → base + 16 ≤ b → b + 16 * n ≤ hi → size h'.(hp_mem) b = n →
  (∀ x, covers F x ↔ covers F' x ∨ b ≤ x < b + 16 * n) → (∀ x, b ≤ x < b + 16 * n → ¬ covers F' x) →
  outside base F h.(hp_mem) h'.(hp_mem) →
  A !! b = None ∧ heap_ok F' (<[b:=n]> A) hi h' ∧ untouched A h.(hp_mem) h'.(hp_mem).
Proof.
  intros [HL HA HS] O Hn Hb Hhi Hsz Hc Hc' Ho.
  assert (U : untouched A h.(hp_mem) h'.(hp_mem)).
  { intros a s x Ha Hx. destruct (HA a s Ha) as (? & ? & _ & _ & Hf). apply Ho. rewrite covers_cons.
    intros [?|?]; [lia|by apply (Hf x)]. }
  assert (D : ∀ a s, A !! a = Some s → a + 16 * s ≤ b ∨ b + 16 * n ≤ a).
  { intros a s Ha. destruct (HA a s Ha) as (_ & ? & _ & _ & Hf).
    destruct (decide (a + 16 * s ≤ b ∨ b + 16 * n ≤ a)) as [|Hd]; [done|].
    destruct (Hf (Z.max a b) ltac:(lia)). apply Hc. right. lia. }
  assert (Hnew : A !! b = None).
  { destruct (A !! b) as [s|] eqn:E; [|done]. destruct (HA b s E) as (_ & ? & _). destruct (D b s E); lia. }
  split_and!; [done| |done]. split; [done| |].
  - intros a s [[<- <-]|[Hne Ha]]%lookup_insert_Some; [by split_and!|].
    destruct (HA a s Ha) as (? & ? & ? & Hs' & Hf). split_and!; [done..|by rewrite (untouched_size A _ _ a s U Ha)|].
    intros x Hx Hx'. apply (Hf x Hx). apply Hc. by left.
  - intros a s c t [[<- <-]|[Hne Ha]]%lookup_insert_Some [[<- <-]|[Hne' Hc1]]%lookup_insert_Some ?; [done|..].
    + destruct (D c t Hc1); lia.
    + destruct (D a s Ha); lia.
    + by apply HS.
Qed.

(** ** [free] *)

Lemma free_live fuel F A hi h a s :
  heap_ok F A hi h → A !! a = Some s → (S (S (length F)) ≤ fuel)%nat →
  ∃ F' h', free fuel (a + 16) h = Some h' ∧ heap_ok F' (delete a A) hi h' ∧
    (∀ x, covers F' x ↔ covers F x ∨ a ≤ x < a + 16 * s) ∧ untouched (delete a A) h.(hp_mem) h'.(hp_mem) ∧
    (length F' ≤ S (length F))%nat.
Proof.
  intros [HL HA HS] Ha Hf. destruct (HA a s Ha) as (Hb & Hs & Hhi & Hsz & Hfr).
  destruct (free_block base fuel F hi h a s HL Hsz Hs Hb Hhi) as (F' & h' & E & O & Hc & Ho & Hl & _); [|done|].
  { intros b t Hin. destruct (decide (a + 16 * s ≤ b ∨ b + 16 * t ≤ a)) as [|Hd]; [done|].
    destruct (blocks_in _ _ _ _ _ (lo_blocks _ _ _ _ HL) Hin) as (_ & ? & _).
    destruct (Hfr (Z.max a b) ltac:(lia)). exists b, t. split; [done|lia]. }
  assert (D : ∀ b t x, delete a A !! b = Some t → b ≤ x < b + 16 * t → ¬ (covers F x ∨ a ≤ x < a + 16 * s)).
  { intros b t x [Hne Hb']%lookup_delete_Some Hx. destruct (HA b t Hb') as (_ & _ & _ & _ & Hf').
    intros [H|H]; [by apply (Hf' x)|]. destruct (HS a s b t Ha Hb' Hne); lia. }
  assert (U : untouched (delete a A) h.(hp_mem) h'.(hp_mem)).
  { intros b t x Hb' Hx. apply Ho. rewrite !covers_cons. intros H. apply (D b t x Hb' Hx).
    apply lookup_delete_Some in Hb' as [_ Hb']. destruct (HA b t Hb') as (? & _). destruct H as [H|[H|H]]; [lia|tauto..]. }
  exists F', h'. split_and!; [done| |done|done|done]. split; [done| |].
  - intros b t Hb'. pose proof Hb' as [_ Hb2]%lookup_delete_Some. destruct (HA b t Hb2) as (? & ? & ? & Hs' & _).
    split_and!; [done..|by rewrite (untouched_size _ _ _ b t U Hb')|]. intros x Hx. rewrite Hc. by apply (D b t).
  - intros b t c u [_ H1]%lookup_delete_Some [_ H2]%lookup_delete_Some. by apply HS.
Qed.

(** ** [malloc] *)

Lemma walk_fit fuel0 fuel n F A hi h a s :
  heap_ok F A hi h → 1 ≤ n → (a, s) ∈ (base, 0) :: F → n ≤ s → (S (length F) < fuel)%nat →
  ∃ F' h' b, uloop fuel (malloc_body fuel0 n) (h.(hp_freep), ptr h.(hp_mem) h.(hp_freep), h) = mret (b + 16, h') ∧
    A !! b = None ∧ heap_ok F' (<[b:=n]> A) hi h' ∧ untouched A h.(hp_mem) h'.(hp_mem) ∧ (length F' ≤ length F)%nat.
Proof.
  intros HO Hn Hin Hs Hf. pose proof (ho_list _ _ _ _ HO) as O. set (q := h.(hp_freep)).
  destruct (list_path base F hi h q O (lo_freep _ _ _ _ O)) as (V & t & HV & LV & HVin & Hiff).
  assert (∃ V1 b u V2, V ++ [(q, t)] = V1 ++ (b, u) :: V2 ∧ n ≤ u ∧ (length V1 ≤ length F)%nat ∧
    ∀ c v, (c, v) ∈ V1 → v < n ∧ c ≠ q ∧ c ∈ ((base, 0) :: F).*1) as (V1 & b & u & V2 & EV & Hu & LV1 & HV1).
  { destruct (first_fit n V) as [Hno|(V1 & b & u & V2 & -> & Hu & HV1)].
    - exists V, q, t, []. split_and!; [done| |lia|].
      + apply Hiff in Hin. apply elem_of_app in Hin as [Hin|[[= -> ->]|?%elem_of_nil]%elem_of_cons]; [|done|done].
        specialize (Hno a s Hin). lia.
      + intros c v Hc. destruct (HVin c v Hc). split; [eauto|done].
    - exists V1, b, u, (V2 ++ [(q, t)]). rewrite length_app in LV. split_and!; [by rewrite <-app_assoc|done|lia|].
      intros c v Hc. destruct (HVin c v); [apply elem_of_app; by left|]. split; [eauto|done]. }
  rewrite EV in HV. apply heap_path_app in HV as [HV (Hp & Hsz & _)].
  replace fuel with (length V1 + S (fuel - S (length V1)))%nat by lia.
  rewrite walk_skip; [|done|intros c v Hc; by destruct (HV1 c v Hc) as (? & ? & _)].
  rewrite Hp, (walk_found fuel0 n h _ (path_end q V1) b Hp) by lia.
  assert (Hbase : b ≠ base). { intros ->. destruct (lo_chain _ _ _ _ O) as [Hz _]. lia. }
  destruct (take_block_ok base F hi h (path_end q V1) b n O) as
    (F' & h' & b' & E & O' & Hsz' & Hc & Hc' & Ho & Hb' & Hhi' & Hl'); [|done|done|lia|].
  { apply path_end_in; [apply (lo_freep _ _ _ _ O)|]. intros c v Hcv. by apply (HV1 c v). }
  exists F', h', b'. rewrite E. split; [done|]. by destruct (heap_ok_take F F' A hi h h' b' n) as (? & ? & ?).
Qed.

Lemma walk_none fuel0 fuel n F hi h :
  list_ok base F hi h → (∀ a s, (a, s) ∈ (base, 0) :: F → s < n) →
  ∃ q, uloop (length F + fuel) (malloc_body fuel0 n) (h.(hp_freep), ptr h.(hp_mem) h.(hp_freep), h) =
    uloop fuel (malloc_body fuel0 n) (q, h.(hp_freep), h) ∧ size h.(hp_mem) h.(hp_freep) < n.
Proof.
  intros O Hno. set (q := h.(hp_freep)).
  destruct (list_path base F hi h q O (lo_freep _ _ _ _ O)) as (V & t & HV & LV & HVin & Hiff).
  apply heap_path_app in HV as [HV (Hp & Hsz & _)]. exists (path_end q V). rewrite <-LV, walk_skip, Hp; [|done|].
  - split; [done|]. rewrite Hsz. apply (Hno q). apply Hiff, elem_of_app. right. left.
  - intros a s Ha. destruct (HVin a s Ha). split; [|done]. apply (Hno a), Hiff, elem_of_app. by left.
Qed.

(** The nodes of the list are closed under [ptr], and have their sizes. *)
Lemma node_size F hi h y :
  list_ok base F hi h → y ∈ ((base, 0) :: F).*1 →
  (y, size h.(hp_mem) y) ∈ (base, 0) :: F ∧ ptr h.(hp_mem) y ∈ ((base, 0) :: F).*1.
Proof.
  intros O Hy. apply list_elem_of_fmap in Hy as ([y' s] & -> & Hy). cbn [fst].
  apply list_elem_of_split in Hy as (P & Q & E). pose proof (lo_chain _ _ _ _ O) as Hc. rewrite E in Hc |- *.
  apply chain_app in Hc as [_ (-> & -> & Hc)]. split; [apply elem_of_app; right; left|].
  rewrite fmap_app. destruct Q as [|[b t] Q]; cbn [first].
  - destruct P as [|x P]; injection E; [intros _ _ ->|intros _ <-]; left.
  - apply elem_of_app. right. right. left.
Qed.

Context {W : Type} (o : os W) `{!Break o}.

(** More memory from the system: a new free block, or nothing. *)
Lemma morecore_ok fuel n F A h w :
  heap_ok F A (brk w) h → 1 ≤ n → n * 16 < 2 ^ 31 → (S (S (length F)) ≤ fuel)%nat →
  ∃ w', (run o (morecore fuel n h) w = Returned (0, h) w' ∧ brk w' = brk w) ∨
    ∃ F' h', run o (morecore fuel n h) w = Returned (h'.(hp_freep), h') w' ∧ h'.(hp_freep) ≠ 0 ∧
      heap_ok F' A (brk w') h' ∧ untouched A h.(hp_mem) h'.(hp_mem) ∧ (length F' ≤ S (length F))%nat ∧
      ∃ a s, (a, s) ∈ (base, 0) :: F' ∧ n ≤ s.
Proof.
  intros HO Hn Hmax Hf. unfold morecore. set (nu := if n <? 4096 then 4096 else n).
  assert (Hnu : n ≤ nu ∧ 4096 ≤ nu ∧ nu * 16 < 2 ^ 31) by (unfold nu; destruct (Z.ltb_spec n 4096); lia).
  assert (Es : s32 (nu * 16) = nu * 16) by (rewrite <-(s32_small (nu * 16)) at 2 by lia; by rewrite Z.mod_small by lia).
  rewrite Es. destruct (sbrk_spec (nu * 16) w ltac:(lia)) as (r & w' & E & Hr). exists w'.
  rewrite run_bind, (run_call _ _ _ _ _ E). cbn [rbind]. destruct Hr as [[-> Hb]|[-> Hb]].
  { left. done. }
  right. pose proof (brk_range w) as Hw. pose proof (brk_range w') as Hw'.
  rewrite (proj2 (Z.eqb_neq (brk w) (-1))), plus_small by lia. replace (brk w + 16 * 1) with (brk w + 16) by lia.
  set (p := brk w) in *. set (h1 := mk_heap (set_size p nu h.(hp_mem)) h.(hp_freep)).
  pose proof (ho_list _ _ _ _ HO) as O. pose proof (blocks_le _ _ _ (lo_blocks _ _ _ _ O)) as Hbp.
  assert (O1 : list_ok base F (brk w') h1).
  { destruct O as [Hc HB Hfp H0 _]. split; [|by apply blocks_upper with p; [lia|]|done|lia|lia].
    apply (chain_header_only p h.(hp_mem)); [apply set_size_only| |done].
    intros a s [[= -> ->]|Ha]%elem_of_cons; [unfold apart; lia|].
    destruct (blocks_in _ _ _ _ _ HB Ha) as (? & ? & ?). unfold apart. lia. }
  assert (HF : ∀ b t, (b, t) ∈ F → b + 16 * t ≤ p).
  { intros b t Hb'. by destruct (blocks_in _ _ _ _ _ (lo_blocks _ _ _ _ O) Hb') as (_ & _ & ?). }
  destruct (free_block base fuel F (brk w') h1 p nu O1) as (F' & h2 & E2 & O2 & Hc & Ho & Hl & Hfit); try done.
  { apply size_set_size. lia. } { lia. } { pose proof (lo_base _ _ _ _ O). lia. } { lia. } { intros b t ?%HF. by right. }
  assert (HA : ∀ a s x, A !! a = Some s → a ≤ x < a + 16 * s → base + 16 ≤ x < p ∧ ¬ covers F x).
  { intros a s x Ha Hx. destruct (ho_live _ _ _ _ HO a s Ha) as (? & _ & ? & _ & Hx'). split; [lia|by apply Hx']. }
  assert (U : untouched A h.(hp_mem) h2.(hp_mem)).
  { intros a s x Ha Hx. destruct (HA a s x Ha Hx) as [? Hx']. rewrite Ho.
    - apply set_size_only. lia.
    - rewrite !covers_cons. intros [?|[?|?]]; [lia|lia|done]. }
  exists F', h2. split_and!; [by rewrite E2| |by apply (heap_ok_update F F' A p (brk w') h h2); [| |lia| |
    intros a s x Ha Hx; destruct (HA a s x Ha Hx) as [? Hx']; rewrite Hc; intros [?|?]; [done|lia]]|done|done|].
  - pose proof (lo_freep _ _ _ _ O2) as Hfp. apply list_elem_of_fmap in Hfp as ([y s] & -> & Hy). cbn [fst].
    pose proof (lo_base _ _ _ _ O2). apply elem_of_cons in Hy as [[= -> ->]|Hy]; [lia|].
    destruct (blocks_in _ _ _ _ _ (lo_blocks _ _ _ _ O2) Hy). lia.
  - destruct (node_size F' _ h2 _ O2 (lo_freep _ _ _ _ O2)) as [H1 H2].
    destruct (node_size F' _ h2 _ O2 H2) as [H3 _].
    destruct Hfit as [Hfit|Hfit]; eexists _, _; [split; [exact H1|lia]|split; [exact H3|lia]].
Qed.

(** The units of a request: enough for the bytes and a header. *)
Definition units (nbytes : Z) : Z := (nbytes + 15) / 16 + 1.

Lemma malloc_loop fuel n F A h w :
  heap_ok F A (brk w) h → 1 ≤ n → n * 16 < 2 ^ 31 → (2 * length F + 5 ≤ fuel)%nat →
  ∃ r h' w', run o (uloop fuel (malloc_body fuel n) (h.(hp_freep), ptr h.(hp_mem) h.(hp_freep), h)) w =
      Returned (r, h') w' ∧ untouched A h.(hp_mem) h'.(hp_mem) ∧
    ((r = 0 ∧ h' = h ∧ brk w' = brk w ∧ ∀ a s, (a, s) ∈ F → s < n) ∨
     ∃ F' b, r = b + 16 ∧ A !! b = None ∧ heap_ok F' (<[b:=n]> A) (brk w') h' ∧ (length F' ≤ S (length F))%nat).
Proof.
  intros HO Hn Hmax Hf. destruct (first_fit n ((base, 0) :: F)) as [Hno|(V1 & a & s & V2 & E & Hs & _)].
  - destruct (walk_none fuel (fuel - length F) n F (brk w) h (ho_list _ _ _ _ HO) Hno) as (q & E & Hsz).
    replace (length F + (fuel - length F))%nat with fuel in E by lia. rewrite E.
    destruct (fuel - length F)%nat as [|k] eqn:Hk; [lia|]. cbn [uloop]. rewrite run_bind.
    unfold malloc_body at 1. rewrite (proj2 (Z.leb_gt _ _)), Z.eqb_refl, run_bind by done.
    destruct (morecore_ok fuel n F A h w HO Hn Hmax ltac:(lia)) as (w' & [[Em Hb]|(F' & h' & Em & Hz & HO' & U & Hl & a & s & Hin & Hs)]).
    + rewrite Em. exists 0, h, w'. split; [done|]. split; [by intros ???|]. left. split_and!; [done..|].
      intros a s Ha. apply (Hno a). by right.
    + rewrite Em. cbn [rbind]. rewrite (proj2 (Z.eqb_neq _ _) Hz). cbn [run rbind mret uprog_ret].
      destruct (walk_fit fuel k n F' A (brk w') h' a s HO' Hn Hin Hs ltac:(lia)) as (F2 & h2 & b & E2 & Hb & HO2 & U2 & Hl2).
      rewrite E2. exists (b + 16), h2, w'. split; [done|]. split; [|right; exists F2, b; split_and!; (done || lia)].
      intros c t x Hc Hx. by rewrite (U2 c t x), (U c t x).
  - destruct (walk_fit fuel fuel n F A (brk w) h a s HO Hn) as (F2 & h2 & b & E2 & Hb & HO2 & U2 & Hl2); [|done|lia|].
    { rewrite E. apply elem_of_app. right. left. }
    rewrite E2. exists (b + 16), h2, w. split; [done|]. split; [done|]. right. exists F2, b. split_and!; (done || lia).
Qed.

(** The first call. *)
Lemma heap_ok_init m hi :
  0 < base → base + 16 ≤ hi ≤ 2 ^ 32 → heap_ok [] ∅ hi (mk_heap (set_size base 0 (set_ptr base base m)) base).
Proof.
  intros H0 Hhi. split; [|by intros ???|by intros ??????]. split; cbn [hp_mem hp_freep]; [|cbn [blocks]; lia|left|lia|lia].
  cbn [chain first]. rewrite size_set_size, ptr_set_size, ptr_set_ptr by (auto || lia). done.
Qed.

(** Before the first call, and after it. *)
Definition heap_inv (F : list (Z * Z)) (A : gmap Z Z) (hi : Z) (h : heap) : Prop :=
  (h.(hp_freep) = 0 ∧ F = [] ∧ A = ∅ ∧ 0 < base ∧ base + 16 ≤ hi) ∨ heap_ok F A hi h.

Lemma malloc_ok fuel nbytes F A h w :
  heap_inv F A (brk w) h → 0 ≤ nbytes < 2 ^ 31 - 32 → (2 * length F + 5 ≤ fuel)%nat →
  ∃ r h' w', run o (malloc base fuel nbytes h) w = Returned (r, h') w' ∧ untouched A h.(hp_mem) h'.(hp_mem) ∧
    ((r = 0 ∧ heap_ok F A (brk w') h' ∧ brk w' = brk w ∧ ∀ a s, (a, s) ∈ F → s < units nbytes) ∨
     ∃ F' b, r = b + 16 ∧ nbytes ≤ 16 * (units nbytes - 1) ∧ A !! b = None ∧
       heap_ok F' (<[b:=units nbytes]> A) (brk w') h' ∧ (length F' ≤ S (length F))%nat).
Proof.
  intros HI Hn Hf. unfold malloc. replace (u32 ((nbytes + 16 - 1) / 16 + 1)) with (units nbytes)
    by (unfold units, u32; rewrite Z.mod_small by lia; do 2 f_equal; lia).
  set (h0 := if h.(hp_freep) =? 0 then _ else h). pose proof (brk_range w) as Hw.
  assert (heap_ok F A (brk w) h0 ∧ untouched A h.(hp_mem) h0.(hp_mem)) as [HO U0].
  { unfold h0. destruct HI as [(-> & -> & -> & H0 & Hb)|HO].
    - split; [apply heap_ok_init; lia|by intros ???].
    - pose proof (lo_freep _ _ _ _ (ho_list _ _ _ _ HO)) as Hfp. apply list_elem_of_fmap in Hfp as ([y s] & E & Hy).
      pose proof (lo_base _ _ _ _ (ho_list _ _ _ _ HO)). rewrite (proj2 (Z.eqb_neq _ 0)); [by split; [|intros ???]|].
      rewrite E. cbn [fst]. apply elem_of_cons in Hy as [[= -> ->]|Hy]; [lia|].
      destruct (blocks_in _ _ _ _ _ (lo_blocks _ _ _ _ (ho_list _ _ _ _ HO)) Hy). lia. }
  destruct (malloc_loop fuel (units nbytes) F A h0 w HO) as (r & h' & w' & E & U & R); [unfold units; lia..|done|].
  exists r, h', w'. split; [exact E|]. split; [intros a s x Ha Hx; by rewrite (U a s x), (U0 a s x)|].
  destruct R as [(-> & -> & Hb & Hno)|(F' & b & -> & Hb & HO' & Hl')]; [left|right].
  - split_and!; [done| |done|done]. by rewrite Hb.
  - exists F', b. split_and!; [done|unfold units; lia|done..].
Qed.


(** [free] makes the block free again: it returns, the free memory is what it
    was with exactly the units of the block added, joined to its neighbours, and
    the other blocks in use stay in use with their contents. *)
Theorem free_spec fuel F A hi h a s :
  heap_ok F A hi h → A !! a = Some s → (S (S (length F)) ≤ fuel)%nat →
  ∃ F' h', free fuel (a + 16) h = Some h' ∧ heap_ok F' (delete a A) hi h' ∧
    (∀ x, covers F' x ↔ covers F x ∨ a ≤ x < a + 16 * s) ∧ untouched (delete a A) h.(hp_mem) h'.(hp_mem).
Proof.
  intros HO Ha Hf. destruct (free_live fuel F A hi h a s HO Ha Hf) as (F' & h' & E & O & Hc & U & _). by exists F', h'.
Qed.

End Heap.

(** ** Concrete runs *)

(** A system with 4 GB for the process. *)
Definition brk_of (w : Z) : Z := if (0 <=? w) && (w <=? 2 ^ 32) then w else 0.

Definition brk_os : os Z := λ R c w,
  match c in sys R return option (R * Z) with
  | Sbrk n => Some (if brk_of w + n <=? 2 ^ 32 then (brk_of w, brk_of w + n) else (-1, w))
  | _ => None
  end.

#[global] Instance brk_break : Break brk_os.
Proof.
  refine {| brk := brk_of |}.
  - intros w. unfold brk_of. destruct (Z.leb_spec 0 w), (Z.leb_spec w (2 ^ 32)); simpl; lia.
  - intros n w Hn. cbn [brk_os]. assert (0 ≤ brk_of w).
    { unfold brk_of. destruct (Z.leb_spec 0 w), (Z.leb_spec w (2 ^ 32)); simpl; lia. }
    destruct (Z.leb_spec (brk_of w + n) (2 ^ 32)); eexists _, _; (split; [reflexivity|]); [right|by left].
    split; [done|]. unfold brk_of at 1. by rewrite (proj2 (Z.leb_le _ _)), (proj2 (Z.leb_le _ _)) by lia.
Defined.


Definition demo_heap : heap := mk_heap (set_size 4112 2 (set_size 4096 0 (set_ptr 4096 4096 ∅))) 4096.

Lemma demo_heap_ok : heap_ok 4096 [] {[4112 := 2]} 8192 demo_heap.
Proof.
  split.
  - split; [by vm_compute|vm_compute; discriminate|left|lia|lia].
  - intros a s [<- <-]%lookup_singleton_Some. split_and!; [lia..|by vm_compute|]. intros x _. apply covers_nil.
  - intros a s b t [<- <-]%lookup_singleton_Some [<- <-]%lookup_singleton_Some. done.
Qed.

Lemma free_spec_witness : ∃ F' h', free 2 4128 demo_heap = Some h' ∧ heap_ok 4096 F' ∅ 8192 h' ∧ covers F' 4112.
Proof.
  destruct (free_spec 4096 2 [] {[4112 := 2]} 8192 demo_heap 4112 2 demo_heap_ok) as (F' & h' & E & O & C & _).
  - apply lookup_singleton_eq.
  - simpl. lia.
  - exists F', h'. rewrite delete_singleton_eq in O. split_and!; [exact E|exact O|]. apply C. right. lia.
Defined.

(** A request of 2 GB or more makes the argument of [sbrk] negative: [malloc]
    asks the system to take memory away. *)
Lemma morecore_negative fuel h : ∃ k, morecore fuel (units (2 ^ 31)) h = Call (Sbrk (-2147483632)) k.
Proof. eexists. reflexivity. Qed.
