(* ===== verification/Ulist.v ===== *)
(** * The linked list of the user library ([user/linkedlist.c])

    The list is linked into every user program.  Its nodes come from [malloc] and
    go back through [free], so its theorems are about the list and the allocator
    together.  The variable that [head_ref] points to and the lock are objects of
    their own, outside of the heap.  A store through the null pointer is an access
    to the text of the program, which is not writable. *)

From Stdlib Require Import Ascii.
From S2P Require Import Prelude Cstring User Ulib Ttest Uprintf Umalloc.

(** [struct Node]: [data] and [next] *)
Definition sizeof_Node : Z := 16.
Definition data (m : mem) (p : Z) : Z := s32 (load32 m p).
Definition next (m : mem) (p : Z) : Z := load64 m (p + 8).
Definition set_data (p v : Z) (m : mem) : mem := store32 p v m.
Definition set_next (p v : Z) (m : mem) : mem := store64 (p + 8) v m.

(** The memory, [*head_ref] and [list_lock.locked]. *)
Record ulist : Type := mk_ulist { ul_heap : heap; ul_head : Z; ul_lock : Z }.

Definition ul_mem (s : ulist) : mem := s.(ul_heap).(hp_mem).
Definition set_ul_heap (h : heap) (s : ulist) : ulist := mk_ulist h s.(ul_head) s.(ul_lock).
Definition set_ul_mem (m : mem) (s : ulist) : ulist := set_ul_heap (mk_heap m s.(ul_heap).(hp_freep)) s.
Definition set_ul_head (p : Z) (s : ulist) : ulist := mk_ulist s.(ul_heap) p s.(ul_lock).
Definition set_ul_lock (l : Z) (s : ulist) : ulist := mk_ulist s.(ul_heap) s.(ul_head) l.

Definition init_lock (s : ulist) : ulist := set_ul_lock initlock s.

(** [acquire(&list_lock)]: with the lock taken, the loop does not end. *)
Definition lock_list (s : ulist) : uprog ulist :=
  let '(got, l) := acquire s.(ul_lock) in
  if got : bool then mret (set_ul_lock l s) else Hang.
Definition unlock_list (s : ulist) : ulist := set_ul_lock (release s.(ul_lock)) s.

Section Ulist.
(** The static header of the allocator. *)
Context (base : Z).

Definition insert (fuel : nat) (new_data : Z) (s : ulist) : uprog ulist :=
  '(new_node, h) ← malloc base fuel sizeof_Node s.(ul_heap);
  let s := set_ul_heap h s in
  if new_node =? 0 then Segv else
  let s := set_ul_mem (set_data new_node new_data (ul_mem s)) s in
  let s := set_ul_mem (set_next new_node s.(ul_head) (ul_mem s)) s in
  mret (set_ul_head new_node s).

Definition free_node (fuel : nat) (p : Z) (s : ulist) : uprog ulist :=
  h ← opt_or_hang (free fuel p s.(ul_heap)); mret (set_ul_heap h s).

(** The end of a deletion: leave the lock, wait for the readers, free the node. *)
Definition retire (fuel : nat) (temp : Z) (s : ulist) : uprog ulist :=
  let s := unlock_list s in
  call Rcusync;;
  free_node fuel temp s.

(** [while (temp != 0 && temp->data != key)]; the variables are [prev] and [temp]. *)
Definition scan_list (m : mem) (key : Z) (x : Z * Z) : uprog (Z * Z + Z * Z) :=
  let '(prev, temp) := x in
  if negb (temp =? 0) && negb (data m temp =? key) then mret (inl (temp, next m temp)) else mret (inr (prev, temp)).

Definition deleteNode (fuel : nat) (key : Z) (s : ulist) : uprog ulist :=
  let temp := s.(ul_head) in
  s ← lock_list s;
  if negb (temp =? 0) && (data (ul_mem s) temp =? key) then
    retire fuel temp (set_ul_head (next (ul_mem s) temp) s)
  else
    '(prev, temp) ← uloop fuel (scan_list (ul_mem s) key) (0, temp);
    if temp =? 0 then mret (unlock_list s) else
    if prev =? 0 then Segv else
    retire fuel temp (set_ul_mem (set_next prev (next (ul_mem s) temp) (ul_mem s)) s).

(** The loop of [search]; [rcureadunlock] comes before both returns. *)
Definition search_list (m : mem) (key current : Z) : uprog (Z + Z) :=
  if negb (current =? 0) then
    if data m current =? key then mret (inr current) else mret (inl (next m current))
  else mret (inr 0).

Definition search (fuel : nat) (head key : Z) (s : ulist) : uprog Z :=
  let current := head in
  call Rcureadlock;;
  r ← uloop fuel (search_list (ul_mem s) key) current;
  call Rcureadunlock;;
  mret r.

Definition updateNode (fuel : nat) (head key new_data : Z) (s : ulist) : uprog ulist :=
  nodeToUpdate ← search fuel head key s;
  if negb (nodeToUpdate =? 0) then mret (set_ul_mem (set_data nodeToUpdate new_data (ul_mem s)) s)
  else printf "Node with key %d not found.\n" [AInt key];; mret s.

End Ulist.

Lemma ret_bind {A B} (a : A) (f : A → uprog B) : (mret a ≫= f) = f a.
Proof. reflexivity. Qed.

(** ** Nodes in memory *)

(** The nodes of the list [l] from [p] on: for each the block it is in and its
    value. *)
Fixpoint nodes (m : mem) (l : list (Z * Z)) (p : Z) : Prop :=
  match l with
  | [] => p = 0
  | (b, v) :: l => p = b + 16 ∧ data m p = v ∧ nodes m l (next m p)
  end.

Definition same_block (b : Z) (m m' : mem) : Prop := ∀ x, b + 16 ≤ x < b + 32 → byte_at m' x = byte_at m x.

Lemma same_data_next b m m' : same_block b m m' → data m' (b + 16) = data m (b + 16) ∧ next m' (b + 16) = next m (b + 16).
Proof. intros H. unfold data, next. split; [f_equal|]; apply load_ext; intros x Hx; apply H; lia. Qed.

Lemma nodes_frame m m' l p : (∀ b, b ∈ l.*1 → same_block b m m') → nodes m l p → nodes m' l p.
Proof.
  revert p. induction l as [|[b v] l IH]; intros p H; [done|]. cbn [nodes]. intros (-> & Hd & Hn).
  destruct (same_data_next b m m') as [E1 E2]; [apply H; left|]. rewrite E1, E2. split_and!; [done..|].
  apply IH; [|done]. intros c Hc. apply H. by right.
Qed.

(** Blocks of nodes that do not overlap. *)
Definition spread (l : list (Z * Z)) : Prop :=
  NoDup l.*1 ∧ (∀ b, b ∈ l.*1 → 0 ≤ b < 2 ^ 32) ∧ ∀ b c, b ∈ l.*1 → c ∈ l.*1 → b ≠ c → b + 32 ≤ c ∨ c + 32 ≤ b.

Lemma set_next_other b c v m : b + 32 ≤ c ∨ c + 32 ≤ b → same_block b m (set_next (c + 16) v m).
Proof. intros H x Hx. apply byte_at_store. lia. Qed.

Lemma set_data_other b c v m : b + 32 ≤ c ∨ c + 32 ≤ b → same_block b m (set_data (c + 16) v m).
Proof. intros H x Hx. apply byte_at_store. lia. Qed.

Lemma data_set_next p v m : data (set_next p v m) p = data m p.
Proof. unfold data, set_next. by rewrite load_store_disjoint by lia. Qed.

Lemma next_set_data p v m : next (set_data p v m) p = next m p.
Proof. unfold next, set_data. by rewrite load_store_disjoint by lia. Qed.

Lemma next_set_next p v m : 0 ≤ v < 2 ^ 64 → next (set_next p v m) p = v.
Proof. intros H. unfold next, set_next. rewrite load_store_same. by apply Z.mod_small. Qed.

Lemma data_set_data p v m : - 2 ^ 31 ≤ v < 2 ^ 31 → data (set_data p v m) p = v.
Proof.
  intros H. unfold data, set_data. rewrite load_store_same. by apply s32_small.
Qed.

Lemma nodes_head_range m l p : spread l → nodes m l p → 0 ≤ p < 2 ^ 64.
Proof.
  intros (_ & H & _). destruct l as [|[b v] l]; cbn [nodes]; [lia|]. intros (-> & _). specialize (H b ltac:(left)). lia.
Qed.

(** The first node with the key. *)
Fixpoint split_at_key (key : Z) (l : list (Z * Z)) : option (list (Z * Z) * Z * list (Z * Z)) :=
  match l with
  | [] => None
  | (b, v) :: l =>
      if v =? key then Some ([], b, l)
      else match split_at_key key l with Some (l1, c, l2) => Some ((b, v) :: l1, c, l2) | None => None end
  end.

Lemma split_at_key_Some key l l1 b l2 : split_at_key key l = Some (l1, b, l2) → l = l1 ++ (b, key) :: l2.
Proof.
  revert l1. induction l as [|[c v] l IH]; intros l1; cbn [split_at_key]; [done|].
  destruct (Z.eqb_spec v key) as [->|Hv]; [by intros [= <- <- <-]|].
  destruct (split_at_key key l) as [[[l1' b'] l2']|]; [|done]. intros [= <- <- <-]. by rewrite (IH l1').
Qed.

(** The last node before, or [p]. *)
Definition before (p : Z) (l : list (Z * Z)) : Z := match last l with Some (b, _) => b + 16 | None => p end.

Lemma before_cons p b v l : before p ((b, v) :: l) = before (b + 16) l.
Proof. unfold before. destruct l as [|x l]; [done|]. rewrite last_cons_cons. destruct (last (x :: l)) eqn:E; [done|by apply last_None in E]. Qed.

Lemma node_nonzero b l : spread l → b ∈ l.*1 → (b + 16 =? 0) = false.
Proof. intros (_ & H & _) Hb. apply Z.eqb_neq. specialize (H b Hb). lia. Qed.

Lemma spread_tail x l : spread (x :: l) → spread l.
Proof.
  intros (H1 & H2 & H3). cbn in H1. apply NoDup_cons in H1 as [_ H1]. split_and!; [done|..]; intros; [apply H2|apply H3]; (done || by right).
Qed.

Lemma scan_list_at m key prev p : scan_list m key (prev, p) =
  if negb (p =? 0) && negb (data m p =? key) then mret (inl (p, next m p)) else mret (inr (prev, p)).
Proof. reflexivity. Qed.

Lemma scan_list_ok m key : ∀ l fuel prev p,
  nodes m l p → spread l → (length l < fuel)%nat →
  uloop fuel (scan_list m key) (prev, p) =
  mret (match split_at_key key l with Some (l1, b, _) => (before prev l1, b + 16) | None => (before prev l, 0) end).
Proof.
  induction l as [|[b v] l IH]; intros [|fuel] prev p Hn Hs Hf; try (simpl in Hf; lia); cbn [uloop nodes] in *.
  - by rewrite Hn.
  - destruct Hn as (-> & Hd & Hn). rewrite scan_list_at, (node_nonzero b ((b, v) :: l) Hs), Hd by left. cbn [negb andb split_at_key].
    destruct (Z.eqb_spec v key) as [->|Hv]; cbn [negb]; [done|]. cbn [mret uprog_ret mbind uprog_bind].
    change (uloop fuel (scan_list m key) (b + 16, next m (b + 16)) = mret (match
      match split_at_key key l with Some (l1, c, l2) => Some ((b, v) :: l1, c, l2) | None => None end with
      Some (l1, b0, _) => (before prev l1, b0 + 16) | None => (before prev ((b, v) :: l), 0) end)).
    rewrite (IH fuel (b + 16) (next m (b + 16)) Hn (spread_tail _ _ Hs)) by (simpl in Hf; lia).
    destruct (split_at_key key l) as [[[l1 c] l2]|]; by rewrite before_cons.
Qed.

Lemma search_list_at m key p : search_list m key p =
  if negb (p =? 0) then if data m p =? key then mret (inr p) else mret (inl (next m p)) else mret (inr 0).
Proof. reflexivity. Qed.

Lemma search_list_ok m key : ∀ l fuel p,
  nodes m l p → spread l → (length l < fuel)%nat →
  uloop fuel (search_list m key) p = mret (match split_at_key key l with Some (_, b, _) => b + 16 | None => 0 end).
Proof.
  induction l as [|[b v] l IH]; intros [|fuel] p Hn Hs Hf; try (simpl in Hf; lia); cbn [uloop nodes] in *.
  - by rewrite Hn.
  - destruct Hn as (-> & Hd & Hn). rewrite search_list_at, (node_nonzero b ((b, v) :: l) Hs), Hd by left. cbn [negb split_at_key].
    destruct (Z.eqb_spec v key) as [->|Hv]; [done|]. etrans; [apply (IH fuel (next m (b + 16)) Hn (spread_tail _ _ Hs)); simpl in Hf; lia|].
    by destruct (split_at_key key l) as [[[l1 c] l2]|].
Qed.

Lemma before_in p l : l ≠ [] → ∃ d, before p l = d + 16 ∧ d ∈ l.*1.
Proof.
  intros Hl. unfold before. destruct (last l) as [[d v]|] eqn:E; [|by apply last_None in E].
  exists d. split; [done|]. apply last_Some in E as [l' ->]. rewrite fmap_app. apply elem_of_app. right. left.
Qed.

(** The node after [l1] is taken out. *)
Lemma nodes_unlink m key : ∀ l p l1 b l2,
  nodes m l p → spread l → split_at_key key l = Some (l1, b, l2) → l1 ≠ [] →
  nodes (set_next (before 0 l1) (next m (b + 16)) m) (l1 ++ l2) p.
Proof.
  induction l as [|[c v] l IH]; intros p l1 b l2 Hn Hs; cbn [split_at_key nodes] in *; [done|].
  destruct (v =? key); [by intros [= <- <- <-]|]. destruct (split_at_key key l) as [[[l1' b'] l2']|] eqn:El; [|done].
  intros [= <- <- <-] _. destruct Hn as (-> & Hd & Hn). pose proof (split_at_key_Some _ _ _ _ _ El) as Hl. rewrite before_cons.
  pose proof Hs as (Hnd & Hr & Hsep). cbn in Hnd. apply NoDup_cons in Hnd as [Hc _]. cbn [app nodes].
  assert (Hin : ∀ d, d ∈ l.*1 → d + 32 ≤ c ∨ c + 32 ≤ d).
  { intros d Hd'. apply Hsep; [by right|left|]. intros ->. by apply Hc. }
  destruct (decide (l1' = [])) as [->|Hne].
  - cbn [before last app] in *. subst l. cbn [nodes] in Hn. destruct Hn as (Eb & _ & Hn). rewrite <-Eb in *.
    rewrite data_set_next, next_set_next.
    + split_and!; [done..|]. eapply nodes_frame; [|exact Hn]. intros d Hd'. apply set_next_other, Hin. by right.
    + eapply nodes_head_range; [|exact Hn]. by apply (spread_tail (b', key)), (spread_tail (c, v)).
  - destruct (before_in (c + 16) l1' Hne) as (d & Ed & Hd'). destruct (before_in 0 l1' Hne) as (d' & Ed' & _).
    assert (d' = d) as -> by (unfold before in *; destruct (last l1') as [[? ?]|] eqn:E; [lia|by apply last_None in E]).
    assert (Hdl : d ∈ l.*1) by (rewrite Hl, fmap_app; apply elem_of_app; by left).
    specialize (IH _ _ _ _ Hn (spread_tail _ _ Hs) eq_refl Hne). rewrite Ed' in IH. rewrite Ed.
    destruct (same_data_next c m (set_next (d + 16) (next m (b' + 16)) m)) as [E1 E2]; [apply set_next_other; specialize (Hin d Hdl); lia|].
    rewrite E1, E2. done.
Qed.

(** The value of a node is changed. *)
Lemma nodes_update m key v : ∀ l p l1 b l2,
  - 2 ^ 31 ≤ v < 2 ^ 31 → nodes m l p → spread l → split_at_key key l = Some (l1, b, l2) →
  nodes (set_data (b + 16) v m) (l1 ++ (b, v) :: l2) p.
Proof.
  induction l as [|[c u] l IH]; intros p l1 b l2 Hv Hn Hs; cbn [split_at_key nodes] in *; [done|].
  pose proof Hs as (Hnd & Hr & Hsep). cbn in Hnd. apply NoDup_cons in Hnd as [Hc _]. destruct Hn as (-> & Hd & Hn).
  assert (Hin : ∀ d, d ∈ l.*1 → d + 32 ≤ c ∨ c + 32 ≤ d).
  { intros d Hd'. apply Hsep; [by right|left|]. intros ->. by apply Hc. }
  destruct (u =? key).
  - intros [= <- <- <-]. cbn [app nodes]. rewrite data_set_data, next_set_data by done. split_and!; [done..|].
    eapply nodes_frame; [|exact Hn]. intros d Hd'. by apply set_data_other, Hin.
  - destruct (split_at_key key l) as [[[l1' b'] l2']|] eqn:El; [|done]. intros [= <- <- <-]. cbn [app nodes].
    pose proof (split_at_key_Some _ _ _ _ _ El) as Hl.
    destruct (same_data_next c m (set_data (b' + 16) v m)) as [E1 E2].
    { apply set_data_other. destruct (Hin b'); [rewrite Hl, fmap_app; apply elem_of_app; right; left|lia..]. }
    rewrite E1, E2. split_and!; [done..|]. by apply IH; [..|by apply spread_tail in Hs|].
Qed.

(** ** The list and the heap *)

(** A store to the contents of a block in use does not concern the allocator. *)
Lemma heap_ok_write base F A hi h b s m :
  heap_ok base F A hi h → A !! b = Some s → (∀ x, x < b + 16 ∨ b + 16 * s ≤ x → byte_at m x = byte_at h.(hp_mem) x) →
  heap_ok base F A hi (mk_heap m h.(hp_freep)).
Proof.
  intros [[Hc HB Hfp Hb0 Hhi] HA HS] Hb Hm. destruct (HA b s Hb) as (Hbb & Hs & Hbhi & _ & Hfree).
  assert (Hh : ∀ q, q + 16 ≤ b + 16 ∨ b + 16 * s ≤ q → size m q = size h.(hp_mem) q ∧ ptr m q = ptr h.(hp_mem) q).
  { intros q Hq. split; apply load_ext; intros x Hx; apply Hm; lia. }
  split; [split; cbn [hp_mem hp_freep]; [|done..]| |done].
  - eapply free_chain_frame; [|exact Hc]. intros a t [[= -> ->]|Ha]%elem_of_cons; apply Hh; [lia|].
    destruct (blocks_in _ _ _ _ _ HB Ha) as (_ & Ht & _).
    destruct (decide (a + 16 ≤ b + 16 ∨ b + 16 * s ≤ a)) as [|Hn]; [done|exfalso].
    apply (Hfree a ltac:(lia)). exists a, t. split; [done|lia].
  - intros a t Ha. destruct (HA a t Ha) as (? & ? & ? & Hsz & ?). cbn [hp_mem]. split_and!; try done.
    rewrite <-Hsz. apply Hh. destruct (decide (a = b)) as [->|Hne]; [lia|]. destruct (HS a t b s Ha Hb Hne); lia.
Qed.

Section Spec.
Context (base : Z) (A0 : gmap Z Z).

(** The list holds [l]; its nodes are the blocks in use besides those of [A0], and
    the lock is free. *)
Record list_inv (F : list (Z * Z)) (A : gmap Z Z) (hi : Z) (l : list (Z * Z)) (s : ulist) : Prop := {
  li_heap : heap_inv base F A hi s.(ul_heap);
  li_nodes : nodes (ul_mem s) l s.(ul_head);
  li_nodup : NoDup l.*1;
  li_own b k : A !! b = Some k ↔ A0 !! b = Some k ∨ (b ∈ l.*1 ∧ k = 2);
  li_new b : b ∈ l.*1 → A0 !! b = None;
  li_lock : s.(ul_lock) = 0
}.

Lemma li_live F A hi l s b : list_inv F A hi l s → b ∈ l.*1 → A !! b = Some 2.
Proof. intros I Hb. apply (li_own _ _ _ _ _ I). by right. Qed.

Lemma li_ok F A hi l s b : list_inv F A hi l s → b ∈ l.*1 → heap_ok base F A hi s.(ul_heap).
Proof. intros I Hb. pose proof (li_live _ _ _ _ _ _ I Hb) as H. destruct (li_heap _ _ _ _ _ I) as [(_ & _ & -> & _)|HO]; [done|exact HO]. Qed.

Lemma li_spread F A hi l s : list_inv F A hi l s → spread l.
Proof.
  intros I. split; [apply I|]. split.
  - intros b Hb. pose proof (li_ok _ _ _ _ _ _ I Hb) as HO. destruct (ho_live _ _ _ _ _ HO b 2 (li_live _ _ _ _ _ _ I Hb)) as (? & _ & ? & _).
    pose proof (lo_base _ _ _ _ (ho_list _ _ _ _ _ HO)). pose proof (lo_hi _ _ _ _ (ho_list _ _ _ _ _ HO)). lia.
  - intros b c Hb Hc Hne. pose proof (li_ok _ _ _ _ _ _ I Hb) as HO.
    destruct (ho_sep _ _ _ _ _ HO b 2 c 2 (li_live _ _ _ _ _ _ I Hb) (li_live _ _ _ _ _ _ I Hc) Hne); lia.
Qed.

(** What the list calls of the system: memory, and the RCU calls, which return and
    leave the memory of the process alone. *)
Class RcuSystem {W : Type} (o : os W) `{!Break o} : Prop := {
  rcusync_returns w : ∃ r w', o _ Rcusync w = Some (r, w') ∧ brk w' = brk w;
  rcureadlock_returns w : ∃ r w', o _ Rcureadlock w = Some (r, w') ∧ brk w' = brk w;
  rcureadunlock_returns w : ∃ r w', o _ Rcureadunlock w = Some (r, w') ∧ brk w' = brk w
}.

Context {W : Type} (o : os W) `{!Break o} `{!RcuSystem o}.

(** No free block has room for a node. *)
Definition exhausted (F : list (Z * Z)) : Prop := ∀ a k, (a, k) ∈ F → k < 2.

Lemma ulist_insert_ok fuel v F A l s w :
  list_inv F A (brk w) l s → - 2 ^ 31 ≤ v < 2 ^ 31 → (2 * length F + 5 ≤ fuel)%nat →
  (∃ w', run o (insert base fuel v s) w = Segfault w' ∧ exhausted F) ∨
  ∃ s' w' F' A' b, run o (insert base fuel v s) w = Returned s' w' ∧ list_inv F' A' (brk w') ((b, v) :: l) s' ∧ (length F' ≤ S (length F))%nat.
Proof.
  intros I Hv Hf. pose proof (li_spread _ _ _ _ _ I) as Hsp.
  destruct (malloc_ok base o fuel sizeof_Node F A s.(ul_heap) w (li_heap _ _ _ _ _ I)) as (r & h & w' & E & U & R); [unfold sizeof_Node; lia|done|].
  unfold insert. rewrite (run_bind_returned _ _ _ _ _ _ E). destruct R as [(-> & _ & _ & Hx)|(F' & b & -> & _ & Hb & HO & Hl)].
  { left. exists w'. split; [done|]. exact Hx. }
  right. change (units sizeof_Node) with 2 in HO. set (A' := <[b:=2]> A) in *. assert (HbA : A' !! b = Some 2) by apply lookup_insert_eq.
  destruct (ho_live _ _ _ _ _ HO b 2 HbA) as (Hbb & _). pose proof (lo_base _ _ _ _ (ho_list _ _ _ _ _ HO)) as Hb0.
  rewrite (proj2 (Z.eqb_neq _ 0)) by lia. cbn [run mret uprog_ret].
  assert (Hnl : b ∉ l.*1) by (intros Hin; by rewrite (li_live _ _ _ _ _ _ I Hin) in Hb).
  assert (Hsep : ∀ c, c ∈ l.*1 → A' !! c = Some 2 ∧ (c + 32 ≤ b ∨ b + 32 ≤ c)).
  { intros c Hc. assert (HcA : A' !! c = Some 2) by (unfold A'; rewrite lookup_insert_ne by (by intros ->); by apply (li_live _ _ _ _ _ _ I)).
    split; [done|]. destruct (ho_sep _ _ _ _ _ HO c 2 b 2 HcA HbA) as [?|?]; [by intros ->|lia..]. }
  set (m1 := set_data (b + 16) v h.(hp_mem)). set (m2 := set_next (b + 16) s.(ul_head) m1).
  exists (mk_ulist (mk_heap m2 h.(hp_freep)) (b + 16) s.(ul_lock)), w', F', A', b. split; [reflexivity|]. split; [|done]. split; cbn [ul_heap ul_head ul_lock].
  - right. apply (heap_ok_write base F' A' (brk w') h b 2); [done|done|]. intros x Hx. unfold m2, m1, set_next, set_data. by rewrite !byte_at_store by lia.
  - change (ul_mem _) with m2. cbn [nodes]. unfold m2. rewrite data_set_next, next_set_next by (by eapply nodes_head_range; [|apply I]).
    split_and!; [done|unfold m1; by apply data_set_data|]. eapply nodes_frame; [|apply (li_nodes _ _ _ _ _ I)]. intros c Hc x Hx.
    destruct (Hsep c Hc) as [_ Hd]. rewrite (set_next_other c b) by done. unfold m1. rewrite (set_data_other c b) by done.
    apply (U c 2); [by apply (li_live _ _ _ _ _ _ I)|lia].
  - cbn. by apply NoDup_cons; split; [|apply I].
  - intros c k. unfold A'. rewrite lookup_insert_Some, (li_own _ _ _ _ _ I). cbn. rewrite elem_of_cons. split.
    { intros [[<- <-]|[_ [H|[H ->]]]]; [right; by split; [left|]|by left|right; by split; [right|]]. }
    intros [H|[[->|H] ->]]; [|by left|]; right; (split; [|by auto]); intros ->; [|done].
    assert (A !! c = Some k) by (apply (li_own _ _ _ _ _ I); by left). congruence.
  - cbn. intros c [->|Hc]%elem_of_cons; [|by apply (li_new _ _ _ _ _ I)]. destruct (A0 !! b) as [k|] eqn:E0; [|done].
    assert (A !! b = Some k) by (apply (li_own _ _ _ _ _ I); by left). congruence.
  - apply I.
Qed.

(** The nodes without the one of block [b]. *)
Lemma own_delete F A hi l1 b v l2 s :
  list_inv F A hi (l1 ++ (b, v) :: l2) s → (b ∉ (l1 ++ l2).*1) ∧ NoDup (l1 ++ l2).*1 ∧ (∀ c, c ∈ (l1 ++ l2).*1 → c ∈ (l1 ++ (b, v) :: l2).*1) ∧
  ∀ c k, delete b A !! c = Some k ↔ A0 !! c = Some k ∨ (c ∈ (l1 ++ l2).*1 ∧ k = 2).
Proof.
  intros I. pose proof (li_nodup _ _ _ _ _ I) as Hnd. rewrite fmap_app in Hnd. cbn in Hnd.
  assert (Hp : (l1 ++ (b, v) :: l2).*1 ≡ₚ b :: (l1 ++ l2).*1) by (rewrite !fmap_app; cbn; symmetry; apply Permutation_middle).
  rewrite <-Permutation_middle in Hnd. apply NoDup_cons in Hnd as [Hb Hnd]. rewrite <-fmap_app in Hb, Hnd. split_and!; [done|done| |].
  - intros c Hc. rewrite Hp. by right.
  - intros c k. rewrite lookup_delete_Some, (li_own _ _ _ _ _ I), Hp, elem_of_cons. split.
    + intros [Hne [H|[[->|H] ->]]]; [by left|done|by right].
    + intros [H|[H ->]]; (split; [intros <-|auto]); [|done].
      assert (A0 !! b = None) by (apply (li_new _ _ _ _ _ I); rewrite Hp; left). congruence.
Qed.

Lemma retire_ok fuel F A l1 b v l2 s s1 w :
  list_inv F A (brk w) (l1 ++ (b, v) :: l2) s → heap_ok base F A (brk w) s1.(ul_heap) → nodes (ul_mem s1) (l1 ++ l2) s1.(ul_head) →
  (S (S (length F)) ≤ fuel)%nat →
  ∃ s' w' F' A', run o (retire fuel (b + 16) s1) w = Returned s' w' ∧ list_inv F' A' (brk w') (l1 ++ l2) s' ∧ (length F' ≤ S (length F))%nat.
Proof.
  intros I HO Hn Hf. destruct (own_delete _ _ _ _ _ _ _ _ I) as (Hb & Hnd & Hin & Hown).
  assert (HbA : A !! b = Some 2) by (apply (li_live _ _ _ _ _ _ I); rewrite fmap_app; apply elem_of_app; right; left).
  destruct (free_live base fuel F A (brk w) s1.(ul_heap) b 2 HO HbA Hf) as (F' & h' & E & HO' & _ & U & Hl).
  destruct (rcusync_returns w) as (r & w' & Er & Hbrk). unfold retire. rewrite (run_bind_returned _ _ _ _ _ _ (run_call _ _ _ _ _ Er)).
  unfold free_node, unlock_list, set_ul_lock. cbn [ul_heap]. rewrite E.
  eexists _, w', F', (delete b A). split; [reflexivity|]. rewrite Hbrk. split; [|done]. split; cbn [set_ul_heap ul_heap ul_head ul_lock].
  - by right.
  - eapply nodes_frame; [|exact Hn]. intros c Hc x Hx. apply (U c 2); [|lia]. rewrite lookup_delete_ne by (by intros ->).
    by apply (li_live _ _ _ _ _ _ I), Hin.
  - done.
  - done.
  - intros c Hc. by apply (li_new _ _ _ _ _ I), Hin.
  - done.
Qed.

Lemma ulist_delete_ok fuel key F A l s w :
  list_inv F A (brk w) l s → (length l < fuel)%nat → (S (S (length F)) ≤ fuel)%nat →
  ∃ s' w' F' A', run o (deleteNode fuel key s) w = Returned s' w' ∧
    list_inv F' A' (brk w') (match split_at_key key l with Some (l1, _, l2) => l1 ++ l2 | None => l end) s' ∧ (length F' ≤ S (length F))%nat.
Proof.
  intros I Hfl Hf. pose proof (li_spread _ _ _ _ _ I) as Hsp. pose proof (li_nodes _ _ _ _ _ I) as Hn. unfold deleteNode.
  assert (El : lock_list s = mret (set_ul_lock 1 s)) by (unfold lock_list; by rewrite (li_lock _ _ _ _ _ I)). rewrite El, ret_bind.
  set (s1 := set_ul_lock 1 s). change (ul_mem s1) with (ul_mem s).
  assert (Hrel : unlock_list s1 = s) by (pose proof (li_lock _ _ _ _ _ I) as E; destruct s; cbn in E; by rewrite E).
  pose proof (scan_list_ok (ul_mem s) key l fuel 0 s.(ul_head) Hn Hsp Hfl) as Hscan. destruct l as [|[b v] l].
  - cbn [nodes] in Hn. rewrite Hn in *. cbn [Z.eqb negb andb]. rewrite Hscan. cbn [split_at_key]. rewrite ret_bind. exists s, w, F, A. cbn [Z.eqb]. rewrite Hrel. split_and!; (done || lia).
  - pose proof Hn as (Hh & Hd & Hn'). pose proof (li_ok _ _ _ _ _ b I ltac:(left)) as HO.
    rewrite Hh, (node_nonzero b ((b, v) :: l) Hsp), <-Hh, Hd by left. cbn [negb andb split_at_key]. destruct (Z.eqb_spec v key) as [->|Hv].
    + rewrite Hh. apply (retire_ok fuel F A [] b key l s); [done|exact HO| |done]. rewrite Hh in Hn'. exact Hn'.
    + rewrite Hscan. cbn [split_at_key]. rewrite (proj2 (Z.eqb_neq v key)) by done.
      destruct (split_at_key key l) as [[[l1 c] l2]|] eqn:Es; rewrite ret_bind; cbn beta iota.
      2:{ exists s, w, F, A. rewrite Hrel. split_and!; (done || lia). }
      assert (Es' : split_at_key key ((b, v) :: l) = Some ((b, v) :: l1, c, l2)) by (cbn; by rewrite (proj2 (Z.eqb_neq v key)), Es).
      pose proof (split_at_key_Some _ _ _ _ _ Es') as Hl. destruct (before_in 0 ((b, v) :: l1)) as (d & Ed & Hdin); [done|].
      assert (Hdl : d ∈ ((b, v) :: l).*1) by (rewrite Hl, fmap_app; apply elem_of_app; by left).
      assert (Hcl : c ∈ ((b, v) :: l).*1) by (rewrite Hl, fmap_app; apply elem_of_app; right; left).
      rewrite (node_nonzero c _ Hsp Hcl), Ed, (node_nonzero d _ Hsp Hdl). rewrite Hl in I.
      apply (retire_ok fuel F A ((b, v) :: l1) c key l2 s); [exact I| | |done].
      * apply (heap_ok_write base F A (brk w) s.(ul_heap) d 2 _ HO); [apply (li_live _ _ _ _ _ _ I); by rewrite <-Hl|].
        intros x Hx. apply byte_at_store. lia.
      * rewrite <-Ed. exact (nodes_unlink _ _ _ _ _ _ _ Hn Hsp Es' ltac:(done)).
Qed.

Lemma ulist_update_ok fuel key v F A l l1 b l2 s w :
  list_inv F A (brk w) l s → (length l < fuel)%nat → - 2 ^ 31 ≤ v < 2 ^ 31 → split_at_key key l = Some (l1, b, l2) →
  ∃ s' w', run o (updateNode fuel s.(ul_head) key v s) w = Returned s' w' ∧ list_inv F A (brk w') (l1 ++ (b, v) :: l2) s'.
Proof.
  intros I Hfl Hv Es. pose proof (li_spread _ _ _ _ _ I) as Hsp. pose proof (li_nodes _ _ _ _ _ I) as Hn.
  destruct (rcureadlock_returns w) as (r1 & w1 & E1 & B1). destruct (rcureadunlock_returns w1) as (r2 & w2 & E2 & B2).
  pose proof (split_at_key_Some _ _ _ _ _ Es) as Hl. assert (Hb : b ∈ l.*1) by (rewrite Hl, fmap_app; apply elem_of_app; right; left).
  assert (Hs : run o (search fuel s.(ul_head) key s) w = Returned (b + 16) w2).
  { unfold search. rewrite (run_bind_returned _ _ _ _ _ _ (run_call _ _ _ _ _ E1)).
    rewrite (search_list_ok _ _ l _ _ Hn Hsp Hfl), Es, ret_bind. by rewrite (run_bind_returned _ _ _ _ _ _ (run_call _ _ _ _ _ E2)). }
  unfold updateNode. rewrite (run_bind_returned _ _ _ _ _ _ Hs), (node_nonzero b l Hsp Hb). cbn [negb].
  exists (set_ul_mem (set_data (b + 16) v (ul_mem s)) s), w2. split; [done|]. rewrite B2, B1.
  assert (El : (l1 ++ (b, v) :: l2).*1 = l.*1) by (rewrite Hl, !fmap_app; done).
  split; rewrite ?El; [|by apply (nodes_update _ key v l)|apply I|apply I|apply I|apply I]. right.
  apply (heap_ok_write base F A (brk w) s.(ul_heap) b 2); [by eapply li_ok|by apply (li_live _ _ _ _ _ _ I)|]. intros x Hx. apply byte_at_store. lia.
Qed.

(** ** Sequences of operations *)

Variant list_op : Type := Insert (v : Z) | Delete (key : Z) | Update (key v : Z).

Definition perform (fuel : nat) (c : list_op) (s : ulist) : uprog ulist :=
  match c with
  | Insert v => insert base fuel v s
  | Delete key => deleteNode fuel key s
  | Update key v => updateNode fuel s.(ul_head) key v s
  end.

Fixpoint perform_all (fuel : nat) (cs : list list_op) (s : ulist) : uprog ulist :=
  match cs with [] => mret s | c :: cs => s ← perform fuel c s; perform_all fuel cs s end.

(** What they mean for the values of the list: at the first occurrence of a key. *)
Fixpoint remove_first (key : Z) (vs : list Z) : list Z :=
  match vs with [] => [] | v :: vs => if v =? key then vs else v :: remove_first key vs end.
Fixpoint replace_first (key new : Z) (vs : list Z) : list Z :=
  match vs with [] => [] | v :: vs => if v =? key then new :: vs else v :: replace_first key new vs end.

Definition meaning (c : list_op) (vs : list Z) : list Z :=
  match c with Insert v => v :: vs | Delete key => remove_first key vs | Update key v => replace_first key v vs end.

(** Values are [int]s, and an update names a key that the list has. *)
Definition op_ok (c : list_op) (vs : list Z) : Prop :=
  match c with
  | Insert v => - 2 ^ 31 ≤ v < 2 ^ 31
  | Delete _ => True
  | Update key v => - 2 ^ 31 ≤ v < 2 ^ 31 ∧ key ∈ vs
  end.
Fixpoint ops_ok (cs : list list_op) (vs : list Z) : Prop :=
  match cs with [] => True | c :: cs => op_ok c vs ∧ ops_ok cs (meaning c vs) end.

Lemma split_at_key_values key l :
  match split_at_key key l with
  | Some (l1, b, l2) => remove_first key l.*2 = (l1 ++ l2).*2 ∧ ∀ v, replace_first key v l.*2 = (l1 ++ (b, v) :: l2).*2
  | None => remove_first key l.*2 = l.*2 ∧ key ∉ l.*2
  end.
Proof.
  induction l as [|[b v] l IH]; cbn; [split; [done|apply not_elem_of_nil]|]. destruct (Z.eqb_spec v key) as [->|Hv]; [done|].
  destruct (split_at_key key l) as [[[l1 c] l2]|]; destruct IH as [-> H]; cbn; (split; [done|]); [by intros u; rewrite H|].
  apply not_elem_of_cons. by split.
Qed.

Lemma perform_ok fuel c F A l s w :
  list_inv F A (brk w) l s → op_ok c l.*2 → (2 * length F + 5 ≤ fuel)%nat → (length l < fuel)%nat →
  (∃ w', run o (perform fuel c s) w = Segfault w' ∧ exhausted F) ∨
  ∃ s' w' F' A' l', run o (perform fuel c s) w = Returned s' w' ∧ list_inv F' A' (brk w') l' s' ∧ l'.*2 = meaning c l.*2 ∧
    (length F' ≤ S (length F))%nat ∧ (length l' ≤ S (length l))%nat.
Proof.
  intros I Hc Hf Hfl. destruct c as [v|key|key v]; cbn [perform op_ok meaning] in *.
  - destruct (ulist_insert_ok fuel v F A l s w I Hc Hf) as [H|(s' & w' & F' & A' & b & E & I' & Hl)]; [by left|right].
    exists s', w', F', A', ((b, v) :: l). split_and!; (done || simpl; lia).
  - right. destruct (ulist_delete_ok fuel key F A l s w I Hfl ltac:(lia)) as (s' & w' & F' & A' & E & I' & Hl).
    pose proof (split_at_key_values key l) as Hs. destruct (split_at_key key l) as [[[l1 b] l2]|] eqn:Es; destruct Hs as [Hs _].
    + exists s', w', F', A', (l1 ++ l2). split_and!; try done. rewrite (split_at_key_Some _ _ _ _ _ Es), !length_app. simpl. lia.
    + exists s', w', F', A', l. split_and!; (done || lia).
  - right. destruct Hc as [Hv Hk]. pose proof (split_at_key_values key l) as Hs. destruct (split_at_key key l) as [[[l1 b] l2]|] eqn:Es; [|tauto].
    destruct (ulist_update_ok fuel key v F A l l1 b l2 s w I Hfl Hv Es) as (s' & w' & E & I').
    exists s', w', F, A, (l1 ++ (b, v) :: l2). split_and!; try done; [by rewrite (proj2 Hs)|lia|].
    rewrite (split_at_key_Some _ _ _ _ _ Es), !length_app. simpl. lia.
Qed.


End Spec.

(** ** A run *)

(** The system of the allocator's example, with the RCU calls. *)
Definition rcu_os : os Z := λ R c w,
  match c in sys R return option (R * Z) with
  | Rcusync => Some (0, w)
  | Rcureadlock => Some (0, w)
  | Rcureadunlock => Some (0, w)
  | c => brk_os _ c w
  end.

#[global] Instance rcu_os_break : Break rcu_os.
Proof. refine {| brk := @brk _ brk_os _ |}; [apply brk_range|]. intros n w Hn. exact (@sbrk_spec _ brk_os _ n w Hn). Defined.

#[global] Instance rcu_os_rcu : RcuSystem rcu_os.
Proof. split; intros w; by eexists _, _. Qed.

