(* ===== verification/Sh.v ===== *)
(** * The shell ([user/sh.c])

    A command line is an array of bytes and the pointers into it are offsets.
    The nodes of the parsed command are values of the type [cmd]: the strings of
    a node are given by the offsets of their beginning and their end.  While
    [parseexec] collects the arguments of an [EXEC] node it already wraps
    redirections around it; in the model the redirections are collected, and
    wrapped around the node when its arguments are complete.  The constructors
    are modelled for a [malloc] that succeeds. *)

From Stdlib Require Import Ascii.
From S2P Require Import Prelude Cstring State Sysfile User Ulib Uprintf Uprogs.

Definition MAXARGS : nat := 10.

(** The string between two pointers. *)
Definition span : Type := nat * nat.

Inductive cmd : Type :=
| EXEC (argv : list span)
| REDIR (c : cmd) (file : span) (mode fd : Z)
| PIPE (left right : cmd)
| LIST (left right : cmd)
| BACK (c : cmd).

(** A redirection that is still to be wrapped around a command. *)
Record redir : Type := mk_redir { r_file : span; r_mode : Z; r_fd : Z }.

Definition redirs (c : cmd) (rs : list redir) : cmd :=
  foldl (λ c r, REDIR c r.(r_file) r.(r_mode) r.(r_fd)) c rs.

Definition sh_panic {A} (s : string) : uprog A := fprintf 2 "%s\n" [AString (chars s)];; Exit 1.

Definition fork1 : uprog Z :=
  pid ← call Fork;
  if pid =? -1 then sh_panic "fork" else mret pid.

(** ** Tokens *)

Definition whitespace : list Z := chars " \t\r\n\v".
Definition symbols : list Z := chars "<|>&;()".

(** [strchr(set, c)] as a condition. *)
Definition in_set (set : list Z) (c : Z) : bool :=
  match strchr (set ++ [0]) c with Some (Some _) => true | _ => false end.

Section Parser.
(** The line, and the offset of its end. *)
Context (buf : list Z) (es : nat).

(** [while(s < es && p( *s)) s++] *)
Fixpoint skip (n : nat) (p : Z → bool) (s : nat) : nat :=
  match n with
  | O => s
  | S n => match buf !! s with Some c => if p c then skip n p (S s) else s | None => s end
  end.

Definition skip_ws (s : nat) : nat := skip (es - s) (in_set whitespace) s.

(** The token, its span, and the offset of what follows. *)
Definition gettoken (s : nat) : uprog (Z * span * nat) :=
  let s := skip_ws s in
  let q := s in
  c ← opt_or_segv (buf !! s);
  '(ret, s) ←
    (if c =? 0 then mret (c, s)
     else if in_set (chars "|();&<") c then mret (c, S s)
     else if c =? ch ">" then
       d ← opt_or_segv (buf !! S s);
       if d =? ch ">" then mret (ch "+", S (S s)) else mret (c, S s)
     else mret (ch "a", skip (es - s) (λ c, negb (in_set whitespace c) && negb (in_set symbols c)) s));
  mret (ret, (q, s), skip_ws s).

Definition peek (s : nat) (toks : string) : uprog (bool * nat) :=
  let s := skip_ws s in
  c ← opt_or_segv (buf !! s);
  mret (negb (c =? 0) && in_set (chars toks) c, s).

(** ** The grammar *)

Definition parseredirs_body (x : list redir * nat) : uprog (list redir * nat + list redir * nat) :=
  let '(rs, s) := x in
  '(b, s) ← peek s "<>";
  if b : bool then
    '(tok, _, s) ← gettoken s;
    '(t, file, s) ← gettoken s;
    if negb (t =? ch "a") then sh_panic "missing file for redirection" else
    if tok =? ch "<" then mret (inl (rs ++ [mk_redir file O_RDONLY 0], s))
    else if tok =? ch ">" then
      mret (inl (rs ++ [mk_redir file (Z.lor (Z.lor O_WRONLY O_CREATE) O_TRUNC) 1], s))
    else if tok =? ch "+" then mret (inl (rs ++ [mk_redir file (Z.lor O_WRONLY O_CREATE) 1], s))
    else mret (inl (rs, s))
  else mret (inr (rs, s)).

(** The redirections; every one takes at least two characters of the line. *)
Definition parseredirs (s : nat) : uprog (list redir * nat) :=
  uloop (S (length buf)) parseredirs_body ([], s).

(** One iteration of the loop of [parseexec]. *)
Definition parseexec_body (x : list span * list redir * nat) :
    uprog (list span * list redir * nat + list span * list redir * nat) :=
  let '(argv, rs, s) := x in
  '(b, s) ← peek s "|)&;";
  if b : bool then mret (inr (argv, rs, s)) else
  '(tok, arg, s) ← gettoken s;
  if tok =? 0 then mret (inr (argv, rs, s)) else
  if negb (tok =? ch "a") then sh_panic "syntax" else
  let argv := argv ++ [arg] in
  if (MAXARGS <=? length argv)%nat then sh_panic "too many args" else
  '(rs', s) ← parseredirs s;
  mret (inl (argv, rs ++ rs', s)).

Definition parsearg (s : nat) : uprog (cmd * nat) :=
  '(rs, s) ← parseredirs s;
  '(argv, rs, s) ← uloop (S MAXARGS) parseexec_body ([], rs, s);
  mret (redirs (EXEC argv) rs, s).

(** [while(peek(ps, es, "&")) cmd = backcmd(cmd)] *)
Definition parseback_body (x : cmd * nat) : uprog (cmd * nat + cmd * nat) :=
  let '(c, s) := x in
  '(b, s) ← peek s "&";
  if b : bool then '(_, _, s) ← gettoken s; mret (inl (BACK c, s)) else mret (inr (c, s)).

Fixpoint parseline (fuel : nat) (s : nat) : uprog (cmd * nat) :=
  match fuel with
  | O => Hang
  | S fuel =>
      '(c, s) ← parsepipe fuel s;
      '(c, s) ← uloop (S (length buf)) parseback_body (c, s);
      '(b, s) ← peek s ";";
      if b : bool then
        '(_, _, s) ← gettoken s;
        '(c2, s) ← parseline fuel s;
        mret (LIST c c2, s)
      else mret (c, s)
  end
with parsepipe (fuel : nat) (s : nat) : uprog (cmd * nat) :=
  match fuel with
  | O => Hang
  | S fuel =>
      '(c, s) ← parseexec fuel s;
      '(b, s) ← peek s "|";
      if b : bool then
        '(_, _, s) ← gettoken s;
        '(c2, s) ← parsepipe fuel s;
        mret (PIPE c c2, s)
      else mret (c, s)
  end
with parseexec (fuel : nat) (s : nat) : uprog (cmd * nat) :=
  match fuel with
  | O => Hang
  | S fuel =>
      '(b, s) ← peek s "(";
      if b : bool then parseblock fuel s else parsearg s
  end
with parseblock (fuel : nat) (s : nat) : uprog (cmd * nat) :=
  match fuel with
  | O => Hang
  | S fuel =>
      '(b, s) ← peek s "(";
      if negb b then sh_panic "parseblock" else
      '(_, _, s) ← gettoken s;
      '(c, s) ← parseline fuel s;
      '(b, s) ← peek s ")";
      if negb b then sh_panic "syntax - missing )" else
      '(_, _, s) ← gettoken s;
      '(rs, s) ← parseredirs s;
      mret (redirs c rs, s)
  end.

(** The equations of the grammar. *)
Lemma parseline_S fuel s : parseline (S fuel) s =
  '(c, s) ← parsepipe fuel s;
  '(c, s) ← uloop (S (length buf)) parseback_body (c, s);
  '(b, s) ← peek s ";";
  if b : bool then
    '(_, _, s) ← gettoken s;
    '(c2, s) ← parseline fuel s;
    mret (LIST c c2, s)
  else mret (c, s).
Proof. reflexivity. Qed.

Lemma parsepipe_S fuel s : parsepipe (S fuel) s =
  '(c, s) ← parseexec fuel s;
  '(b, s) ← peek s "|";
  if b : bool then
    '(_, _, s) ← gettoken s;
    '(c2, s) ← parsepipe fuel s;
    mret (PIPE c c2, s)
  else mret (c, s).
Proof. reflexivity. Qed.

Lemma parseexec_S fuel s : parseexec (S fuel) s =
  '(b, s) ← peek s "(";
  if b : bool then parseblock fuel s else parsearg s.
Proof. reflexivity. Qed.

Lemma parseblock_S fuel s : parseblock (S fuel) s =
  '(b, s) ← peek s "(";
  if negb b then sh_panic "parseblock" else
  '(_, _, s) ← gettoken s;
  '(c, s) ← parseline fuel s;
  '(b, s) ← peek s ")";
  if negb b then sh_panic "syntax - missing )" else
  '(_, _, s) ← gettoken s;
  '(rs, s) ← parseredirs s;
  mret (redirs c rs, s).
Proof. reflexivity. Qed.

End Parser.

(** The stores of [nulterminate], in its order. *)
Fixpoint nulterminate (c : cmd) (buf : list Z) : option (list Z) :=
  match c with
  | EXEC argv => foldl (λ b x, b ← b; put b x.2 0) (Some buf) argv
  | REDIR c file _ _ => buf ← nulterminate c buf; put buf file.2 0
  | PIPE l r => buf ← nulterminate l buf; nulterminate r buf
  | LIST l r => buf ← nulterminate l buf; nulterminate r buf
  | BACK c => nulterminate c buf
  end.

(** The command, and the line with its strings terminated. *)
Definition parsecmd (fuel : nat) (buf : list Z) : uprog (cmd * list Z) :=
  es ← opt_or_segv (strlen buf);
  let es := Z.to_nat es in
  '(c, s) ← parseline buf es fuel O;
  '(_, s) ← peek buf es s "";
  if negb (s =? es)%nat then
    fprintf 2 "leftovers: %s\n" [AStr (Some (drop s buf))];; sh_panic "syntax"
  else
  buf ← opt_or_segv (nulterminate c buf);
  mret (c, buf).

(** ** Running a command *)

(** The string at a pointer. *)
Definition string_at (buf : list Z) (x : span) : list Z := str (drop x.1 buf).

(** [runcmd] never returns: every branch ends in [exit]. *)
Fixpoint runcmd (buf : list Z) (c : cmd) : uprog unit :=
  match c with
  | EXEC argv =>
      match argv with
      | [] => Exit 1
      | arg :: _ =>
          call (Exec (string_at buf arg) (string_at buf <$> argv));;
          fprintf 2 "exec %s failed\n" [AString (string_at buf arg)];;
          Exit 0
      end
  | REDIR c file mode fd =>
      call (Close fd);;
      r ← call (Open (string_at buf file) mode);
      if r <? 0 then
        fprintf 2 "open %s failed\n" [AString (string_at buf file)];; Exit 1
      else runcmd buf c;; Exit 0
  | LIST l r =>
      pid ← fork1;
      (if pid =? 0 then runcmd buf l else mret tt);;
      call Wait;;
      runcmd buf r;;
      Exit 0
  | PIPE l r =>
      '(res, (p0, p1)) ← call Pipe;
      if res <? 0 then sh_panic "pipe" else
      pid ← fork1;
      (if pid =? 0 then
         call (Close 1);; call (Dup p1);; call (Close p0);; call (Close p1);; runcmd buf l
       else mret tt);;
      pid ← fork1;
      (if pid =? 0 then
         call (Close 0);; call (Dup p0);; call (Close p0);; call (Close p1);; runcmd buf r
       else mret tt);;
      call (Close p0);;
      call (Close p1);;
      call Wait;;
      call Wait;;
      Exit 0
  | BACK c =>
      pid ← fork1;
      (if pid =? 0 then runcmd buf c else mret tt);;
      Exit 0
  end.

(** ** The loop of the shell *)

(** [-1] at the end of the input. *)
Definition getcmd (buf : list Z) (nbuf : nat) : uprog (Z * list Z) :=
  call (Write 2 (chars "$ "));;
  buf ← opt_or_segv (memset buf 0 nbuf);
  buf ← gets buf (Z.of_nat nbuf);
  c ← opt_or_segv (buf !! 0%nat);
  if c =? 0 then mret (-1, buf) else mret (0, buf).

(** [while((fd = open("console", O_RDWR)) >= 0)] *)
Definition open_console (_ : unit) : uprog (unit + unit) :=
  fd ← call (Open (chars "console") O_RDWR);
  if fd <? 0 then mret (inr tt)
  else if 3 <=? fd then call (Close fd);; mret (inr tt)
  else mret (inl tt).

Definition sh_body (fuel : nat) (buf : list Z) : uprog (list Z + unit) :=
  '(r, buf) ← getcmd buf 100;
  if r <? 0 then mret (inr tt) else
  if bool_decide (take 3 buf = chars "cd ") then
    n ← opt_or_segv (strlen buf);
    buf ← opt_or_segv (put buf (Z.to_nat n - 1) 0);
    r ← call (Chdir (str (drop 3 buf)));
    (if r <? 0 then fprintf 2 "cannot cd %s\n" [AString (str (drop 3 buf))] else mret tt);;
    mret (inl buf)
  else
    pid ← fork1;
    (if pid =? 0 then '(c, b) ← parsecmd fuel buf; runcmd b c else mret tt);;
    call Wait;;
    mret (inl buf).

Definition sh_main (fuel : nat) : uprog unit :=
  uloop fuel open_console tt;;
  uloop fuel (sh_body fuel) (replicate 100 0);;
  Exit 0.
