(* ===== verification/ShFacts.v ===== *)
(** * The parser of the shell

    The parser reads every line: it returns or reports an error, within a bound
    that is linear in the length of the line, and never reads outside of it.
    The strings of the command it returns are words of the line, and after
    [nulterminate] they are what a program finds in [argv].  A command printed
    as text parses back to the command. *)

From Stdlib Require Import Ascii.
From S2P Require Import Prelude Cstring State Sysfile User Ulib Uprintf Uprogs Sh.

(** ** Error messages *)

Lemma uwp_putc fd c Q : Q tt → uwp (putc fd c) Q.
Proof. intros H. simpl. auto. Qed.

Lemma uwp_put_string fd s r Q : no_nul s → Q tt → uwp (put_string fd (s ++ 0 :: r)) Q.
Proof.
  induction 1 as [|c s Hc _ IH]; intros HQ; cbn [app put_string]; [done|].
  rewrite (proj2 (Z.eqb_neq _ _) Hc). apply uwp_bind, uwp_putc. auto.
Qed.

Lemma uwp_lit fd l fmt ap Q :
  Forall (λ c, c ≠ 0 ∧ c ≠ ch "%") l → uwp (vprintf_loop fd fmt false ap) Q → uwp (vprintf_loop fd (l ++ fmt) false ap) Q.
Proof.
  induction 1 as [|c l [Hc Hp] _ IH]; intros HQ; cbn [app vprintf_loop]; [done|].
  rewrite (proj2 (Z.eqb_neq _ _) Hc), (proj2 (Z.eqb_neq _ _) Hp). apply uwp_bind, uwp_putc. auto.
Qed.

Lemma uwp_string_directive fd fmt s r ap Q :
  no_nul s → uwp (vprintf_loop fd fmt false ap) Q →
  uwp (vprintf_loop fd ([ch "%"; ch "s"] ++ fmt) false (AStr (Some (s ++ 0 :: r)) :: ap)) Q.
Proof.
  intros Hs HQ. change (uwp ((put_string fd (s ++ 0 :: r);; mret ap) ≫= vprintf_loop fd fmt false) Q).
  apply uwp_bind, uwp_bind, uwp_put_string; done.
Qed.

Lemma uwp_fprintf_s fd (a b : list Z) s r Q :
  Forall (λ c, c ≠ 0 ∧ c ≠ ch "%") a → Forall (λ c, c ≠ 0 ∧ c ≠ ch "%") b → no_nul s → Q tt →
  uwp (vprintf fd ((a ++ [ch "%"; ch "s"] ++ b) ++ [0]) [AStr (Some (s ++ 0 :: r))]) Q.
Proof.
  intros Ha Hb Hs HQ. unfold vprintf. rewrite <-!app_assoc. apply uwp_lit; [done|].
  apply uwp_string_directive; [done|]. by apply uwp_lit.
Qed.

Ltac no_percent := apply (bool_decide_eq_true_1 _); vm_compute; reflexivity.

Lemma uwp_panic {A} s (Q : A → Prop) : no_nul (chars s) → uwp (sh_panic s) Q.
Proof.
  intros Hs. unfold sh_panic, fprintf. apply uwp_bind.
  change (chars "%s\n") with ([] ++ [ch "%"; ch "s"] ++ [newline]). apply uwp_fprintf_s; [constructor|no_percent|done|done].
Qed.

Ltac sh_panics := apply uwp_panic; apply (bool_decide_eq_true_1 _); vm_compute; reflexivity.

(** ** Characters *)

Lemma in_set_spec set c : no_nul set → in_set set c = true ↔ c ∈ set.
Proof.
  intros Hn. unfold in_set. destruct (decide (c ∈ set)) as [H|H].
  - split; [done|intros _]. apply list_elem_of_split_l in H as (l1 & l2 & -> & Hl).
    apply Forall_app in Hn as [H1 H2]. apply Forall_cons in H2 as [Hc _]. rewrite <-app_assoc. cbn [app].
    by rewrite strchr_found.
  - rewrite strchr_absent by done. split; [done|done].
Qed.

Definition word_char (c : Z) : bool := negb (c =? 0) && negb (in_set whitespace c) && negb (in_set symbols c).

Section Line.
(** The line, and whatever follows its terminator. *)
Context (line after : list Z) (Hline : no_nul line).

Local Abbreviation buf := (line ++ 0 :: after).
Local Abbreviation es := (length line).

Lemma at_end : buf !! es = Some 0.
Proof. by rewrite lookup_app_r, Nat.sub_diag by lia. Qed.

Lemma at_line s : (s < es)%nat → ∃ c, buf !! s = Some c ∧ c ≠ 0 ∧ line !! s = Some c.
Proof.
  intros Hs. destruct (lookup_lt_is_Some_2 line s Hs) as [c Hc]. exists c. rewrite lookup_app_l by done.
  split_and!; [done| |done]. by apply (Forall_lookup_1 _ _ _ _ Hline Hc).
Qed.

(** [skip] stops at the end or at the first character that is not skipped. *)
Lemma skip_spec n p s :
  (s + n = es)%nat → let e := skip buf n p s in
  (s ≤ e ≤ es)%nat ∧ (∀ i c, (s ≤ i < e)%nat → buf !! i = Some c → p c = true) ∧
  ((e < es)%nat → ∃ c, buf !! e = Some c ∧ p c = false).
Proof.
  revert s. induction n as [|n IH]; intros s Hs; cbn [skip]; [split_and!; lia || (intros; lia)|].
  destruct (at_line s) as (c & Hc & _); [lia|]. rewrite Hc. destruct (p c) eqn:Hp.
  - destruct (IH (S s)) as (H1 & H2 & H3); [lia|]. split_and!; [lia|lia| |done].
    intros i d Hi Hd. destruct (decide (i = s)) as [->|]; [congruence|]. apply (H2 i); [lia|done].
  - split_and!; [lia|lia|intros; lia|]. intros _. by exists c.
Qed.

Lemma skip_ws_spec s : (s ≤ es)%nat → let e := skip_ws buf es s in
  (s ≤ e ≤ es)%nat ∧ ((e < es)%nat → ∃ c, buf !! e = Some c ∧ in_set whitespace c = false).
Proof. intros Hs. destruct (skip_spec (es - s) (in_set whitespace) s) as (H1 & _ & H3); [lia|]. by split. Qed.

(** A word of the line: a maximal string of word characters. *)
Definition span_ok (x : span) : Prop :=
  (x.1 < x.2 ≤ es)%nat ∧ (∀ i c, (x.1 ≤ i < x.2)%nat → buf !! i = Some c → word_char c = true) ∧
  ∃ c, buf !! x.2 = Some c ∧ word_char c = false.


(** ** Tokens *)

Lemma skip_ws_idem s : (s ≤ es)%nat → skip_ws buf es (skip_ws buf es s) = skip_ws buf es s.
Proof.
  intros Hs. destruct (skip_ws_spec s Hs) as [H1 H2]. set (e := skip_ws buf es s) in *. unfold skip_ws.
  destruct (es - e)%nat as [|k] eqn:Hk; cbn [skip]; [done|]. destruct H2 as (c & -> & ->); [lia|done].
Qed.

Lemma peek_ok s toks :
  (s ≤ es)%nat →
  ∃ s1 c, peek buf es s toks = Ret (negb (c =? 0) && in_set (chars toks) c, s1) ∧ (s ≤ s1 ≤ es)%nat ∧
    buf !! s1 = Some c ∧ skip_ws buf es s1 = s1 ∧ s1 = skip_ws buf es s.
Proof.
  intros Hs. destruct (skip_ws_spec s Hs) as [H1 _]. set (e := skip_ws buf es s) in *.
  assert (∃ c, buf !! e = Some c) as [c Hc].
  { destruct (decide (e < es)%nat) as [He|He]; [destruct (at_line e He) as (c & ? & _); by exists c|].
    assert (e = es) as -> by lia. exists 0. apply at_end. }
  exists e, c. split_and!; [|lia|lia|done|by apply skip_ws_idem|done]. unfold peek. fold e. by rewrite Hc.
Qed.

(** The cases of [gettoken], for the character [c] at [q]. *)
Lemma token_end c q :
  (q ≤ es)%nat → buf !! q = Some c → ((q < es)%nat → in_set whitespace c = false) →
  ∃ tok e, (if c =? 0 then mret (c, q)
     else if in_set (chars "|();&<") c then mret (c, S q)
     else if c =? ch ">" then
       d ← opt_or_segv (buf !! S q);
       if d =? ch ">" then mret (ch "+", S (S q)) else mret (c, S q)
     else mret (ch "a", skip buf (es - q) (λ c, negb (in_set whitespace c) && negb (in_set symbols c)) q)) =
    (Ret (tok, e) : uprog (Z * nat)) ∧ (q ≤ e ≤ es)%nat ∧ (c ≠ 0 → (q < e)%nat) ∧ (tok = ch "a" → span_ok (q, e)).
Proof.
  intros Hq Hc Hws. destruct (Z.eqb_spec c 0) as [->|H0].
  { eexists _, _. split; [done|]. split_and!; [lia..|done|done]. }
  assert (Hlt : (q < es)%nat).
  { destruct (decide (q = es)) as [->|]; [|lia]. rewrite at_end in Hc. congruence. }
  specialize (Hws Hlt). destruct (in_set (chars "|();&<") c) eqn:Hsym.
  { eexists _, _. split; [done|]. split_and!; [lia..|]. intros ->. by vm_compute in Hsym. }
  destruct (Z.eqb_spec c (ch ">")) as [->|Hgt].
  { assert (∃ d, buf !! S q = Some d ∧ (d = 0 ∨ (S q < es)%nat)) as (d & -> & Hd).
    { destruct (decide (S q < es)%nat) as [He|He]; [destruct (at_line (S q) He) as (d & ? & _); eauto|].
      assert (S q = es) as -> by lia. exists 0. split; [apply at_end|by left]. }
    cbn [opt_or_segv mbind uprog_bind ubind]. destruct (Z.eqb_spec d (ch ">")) as [->|];
      (eexists _, _; split; [done|]; split_and!; [lia| |lia|done]); [destruct Hd; [done|lia]|lia]. }
  destruct (skip_spec (es - q) (λ c, negb (in_set whitespace c) && negb (in_set symbols c)) q) as (H1 & H2 & H3); [lia|].
  assert (Hs : in_set symbols c = false).
  { apply not_true_is_false. rewrite in_set_spec by (no_percent). intros Hin.
    assert (in_set (chars "|();&<") c = true ∨ c = ch ">") as [?|?]; [|congruence|done].
    rewrite in_set_spec by no_percent. apply list_elem_of_In in Hin. vm_compute in Hin.
    destruct Hin as [<-|[<-|[<-|[<-|[<-|[<-|[<-|[]]]]]]]]; [left|left|by right|left..]; apply list_elem_of_In; vm_compute; tauto. }
  set (e := skip _ _ _ q) in *. assert (Hqe : (q < e)%nat).
  { destruct (decide (q = e)) as [Heq|]; [|lia]. destruct H3 as (d & Hd & Hp); [lia|].
    rewrite <-Heq, Hc in Hd. injection Hd as <-. by rewrite Hws, Hs in Hp. }
  exists (ch "a"), e. split; [done|]. split_and!; [lia..|done|]. intros _. split_and!; [done|simpl; lia| |].
  - cbn [fst snd]. intros i d Hi Hd. unfold word_char. rewrite <-andb_assoc, (H2 i d Hi Hd), andb_true_r.
    destruct (at_line i) as (d' & Hd' & Hz & _); [lia|]. rewrite Hd in Hd'. injection Hd' as <-.
    by rewrite (proj2 (Z.eqb_neq _ _) Hz).
  - cbn [snd]. destruct (decide (e < es)%nat) as [He|He].
    + destruct H3 as (d & Hd & Hp); [done|]. exists d. split; [done|]. unfold word_char. by rewrite <-andb_assoc, Hp, andb_false_r.
    + assert (e = es) as -> by lia. exists 0. split; [apply at_end|done].
Qed.

Lemma gettoken_ok s :
  (s ≤ es)%nat →
  ∃ tok q e s' c, gettoken buf es s = Ret (tok, (q, e), s') ∧ q = skip_ws buf es s ∧ buf !! q = Some c ∧
    (s ≤ q ≤ e)%nat ∧ (e ≤ s' ≤ es)%nat ∧ (c ≠ 0 → (q < e)%nat) ∧ (tok = ch "a" → span_ok (q, e)).
Proof.
  intros Hs. destruct (skip_ws_spec s Hs) as [H1 H2]. destruct (peek_ok s "" Hs) as (s1 & c & _ & _ & Hc & _ & ->).
  unfold gettoken. set (q := skip_ws buf es s) in *. rewrite Hc.
  destruct (token_end c q) as (tok & e & E & He & Hne & Ha); [lia|done| |].
  { intros Hlt. destruct (H2 Hlt) as (d & Hd & Hp). congruence. }
  destruct (skip_ws_spec e) as [H3 _]; [lia|].
  exists tok, q, e, (skip_ws buf es e), c. cbn [opt_or_segv mbind uprog_bind ubind].
  split; [by rewrite E|]. split_and!; [done|done|lia..|done|done].
Qed.

(** ** Commands *)

(** How a redirection opens its file. *)
Definition redir_mode (mode fd : Z) : Prop :=
  (mode = O_RDONLY ∧ fd = 0) ∨ (mode = Z.lor (Z.lor O_WRONLY O_CREATE) O_TRUNC ∧ fd = 1) ∨
  (mode = Z.lor O_WRONLY O_CREATE ∧ fd = 1).

(** A well-formed command: its strings are words of the line, an [EXEC] node has
    room for the null pointer after its arguments, and redirections are of the
    standard input or output. *)
Fixpoint cmd_ok (c : cmd) : Prop :=
  match c with
  | EXEC argv => Forall span_ok argv ∧ (length argv < MAXARGS)%nat
  | REDIR c file mode fd => cmd_ok c ∧ span_ok file ∧ redir_mode mode fd
  | PIPE l r => cmd_ok l ∧ cmd_ok r
  | LIST l r => cmd_ok l ∧ cmd_ok r
  | BACK c => cmd_ok c
  end.

Definition redir_ok (r : redir) : Prop := span_ok r.(r_file) ∧ redir_mode r.(r_mode) r.(r_fd).

Lemma redirs_ok c rs : cmd_ok c → Forall redir_ok rs → cmd_ok (redirs c rs).
Proof.
  intros Hc Hrs. revert c Hc. induction Hrs as [|r rs [H1 H2] _ IH]; intros c Hc; [done|]. apply IH. done.
Qed.

Lemma parseredirs_ok s :
  (s ≤ es)%nat → uwp (parseredirs buf es s) (λ x, Forall redir_ok x.1 ∧ (s ≤ x.2 ≤ es)%nat).
Proof.
  intros Hs. unfold parseredirs.
  apply (uwp_loop _ (λ x, es - x.2)%nat (λ x, Forall redir_ok x.1 ∧ (s ≤ x.2 ≤ es)%nat));
    [|done|rewrite length_app; simpl; lia].
  intros [rs s0] [Hrs Hs0]. cbn [fst snd] in *. unfold parseredirs_body.
  destruct (peek_ok s0 "<>") as (s1 & c & -> & Hs1 & Hc & Hidem & _); [lia|]. apply uwp_ret.
  destruct (negb (c =? 0) && in_set (chars "<>") c) eqn:Hb; [|split; [done|simpl; lia]].
  destruct (gettoken_ok s1) as (tok & q & e & s2 & c' & -> & -> & Hc' & Hq & He & Hne & _); [lia|]. apply uwp_ret.
  rewrite Hidem in *. rewrite Hc in Hc'. injection Hc' as <-.
  apply andb_true_iff in Hb as [H0%negb_true_iff%Z.eqb_neq _]. specialize (Hne H0).
  destruct (gettoken_ok s2) as (t & q' & e' & s3 & c' & -> & _ & _ & Hq' & He' & _ & Ha); [lia|]. apply uwp_ret.
  destruct (Z.eqb_spec t (ch "a")) as [->|]; cbn [negb]; [|sh_panics]. specialize (Ha eq_refl).
  unfold redir_ok, redir_mode. destruct (tok =? ch "<"); [|destruct (tok =? ch ">"); [|destruct (tok =? ch "+")]];
    (split; [|simpl; lia]); (split; [|simpl; lia]); cbn [fst]; try (apply Forall_app; split; [done|];
      apply Forall_singleton; split; [done|]; cbn [r_mode r_fd]; tauto). done.
Qed.

Lemma parsearg_ok s :
  (s ≤ es)%nat → uwp (parsearg buf es s) (λ x, cmd_ok x.1 ∧ (s ≤ x.2 ≤ es)%nat).
Proof.
  intros Hs. unfold parsearg. apply uwp_bind. apply uwp_mono with (1 := parseredirs_ok s Hs).
  intros [rs s1] [Hrs Hs1]. cbn [fst snd] in *. apply uwp_bind.
  pose (I := λ x : list span * list redir * nat, Forall span_ok x.1.1 ∧ (length x.1.1 < MAXARGS)%nat ∧
    Forall redir_ok x.1.2 ∧ (s ≤ x.2 ≤ es)%nat).
  apply uwp_mono with I.
  2:{ intros [[argv rs'] s2] (H1 & H2 & H3 & H4). split; [|done]. by apply redirs_ok. }
  apply (uwp_loop _ (λ x, MAXARGS - length x.1.1)%nat I);
    [|unfold I; cbn [fst snd length]; split_and!; [apply Forall_nil_2|unfold MAXARGS; lia|done|lia..]|cbn [fst length]; lia].
  intros [[argv rs'] s2] (H1 & H2 & H3 & H4). cbn [fst snd] in *. unfold parseexec_body.
  destruct (peek_ok s2 "|)&;") as (s3 & c & -> & Hs3 & _); [lia|]. apply uwp_ret.
  destruct (_ && _); [split_and!; cbn [fst snd]; (done || lia)|].
  destruct (gettoken_ok s3) as (tok & q & e & s4 & c' & -> & _ & _ & Hq & He & _ & Ha); [lia|]. apply uwp_ret.
  destruct (tok =? 0); [split_and!; cbn [fst snd]; (done || lia)|].
  destruct (Z.eqb_spec tok (ch "a")) as [->|]; cbn [negb]; [|sh_panics]. specialize (Ha eq_refl).
  rewrite length_app. simpl length. destruct (Nat.leb_spec MAXARGS (length argv + 1)); [sh_panics|].
  apply uwp_bind. apply uwp_mono with (1 := parseredirs_ok s4 ltac:(lia)). intros [rs2 s5] [Hrs2 Hs5]. cbn [fst snd] in *.
  assert (L : length (argv ++ [(q, e)]) = (length argv + 1)%nat) by (by rewrite length_app).
  change (I (argv ++ [(q, e)], rs' ++ rs2, s5) ∧ (MAXARGS - length (argv ++ [(q, e)]) < MAXARGS - length argv)%nat).
  unfold I. cbn [fst snd]. rewrite L. split_and!; [|lia| |lia..].
  - apply Forall_app. split; [done|]. by apply Forall_singleton.
  - by apply Forall_app.
Qed.

Lemma parseback_ok c s :
  cmd_ok c → (s ≤ es)%nat →
  uwp (uloop (S (length buf)) (parseback_body buf es) (c, s)) (λ x, cmd_ok x.1 ∧ (s ≤ x.2 ≤ es)%nat).
Proof.
  intros Hc Hs. apply (uwp_loop _ (λ x, es - x.2)%nat (λ x, cmd_ok x.1 ∧ (s ≤ x.2 ≤ es)%nat));
    [|done|rewrite length_app; simpl; lia].
  intros [c0 s0] [Hc0 Hs0]. cbn [fst snd] in *. unfold parseback_body.
  destruct (peek_ok s0 "&") as (s1 & d & -> & Hs1 & Hd & Hidem & _); [lia|]. apply uwp_ret.
  destruct (negb (d =? 0) && in_set (chars "&") d) eqn:Hb; [|split; [done|simpl; lia]].
  destruct (gettoken_ok s1) as (tok & q & e & s2 & c' & -> & -> & Hc' & Hq & He & Hne & _); [lia|]. apply uwp_ret.
  rewrite Hidem in *. rewrite Hd in Hc'. injection Hc' as <-.
  apply andb_true_iff in Hb as [H0%negb_true_iff%Z.eqb_neq _]. specialize (Hne H0).
  split; [split; [done|simpl; lia]|simpl; lia].
Qed.

(** A token that was seen by [peek] is consumed. *)
Lemma peek_gettoken s toks (k1 : bool * nat → uprog (cmd * nat)) (Q : cmd * nat → Prop) :
  (s ≤ es)%nat →
  (∀ s1 tok x s2, (s ≤ s1 < s2)%nat → (s2 ≤ es)%nat → gettoken buf es s1 = Ret (tok, x, s2) → uwp (k1 (true, s1)) Q) →
  (∀ s1, (s ≤ s1 ≤ es)%nat → uwp (k1 (false, s1)) Q) →
  uwp (peek buf es s toks ≫= k1) Q.
Proof.
  intros Hs Ht Hf. destruct (peek_ok s toks) as (s1 & d & -> & Hs1 & Hd & Hidem & _); [lia|]. apply uwp_ret.
  destruct (negb (d =? 0) && in_set (chars toks) d) eqn:Hb; [|apply Hf; lia].
  destruct (gettoken_ok s1) as (tok & q & e & s2 & c' & E & -> & Hc' & Hq & He & Hne & _); [lia|].
  rewrite Hidem in *. rewrite Hd in Hc'. injection Hc' as <-.
  apply andb_true_iff in Hb as [H0%negb_true_iff%Z.eqb_neq _]. specialize (Hne H0).
  apply (Ht s1 tok (s1, e) s2); [lia|lia|done].
Qed.

Definition parsed (s : nat) (x : cmd * nat) : Prop := cmd_ok x.1 ∧ (s ≤ x.2 ≤ es)%nat.

Lemma parse_ok fuel :
  (∀ s, (s ≤ es)%nat → (4 * (es - s) + 4 ≤ fuel)%nat → uwp (parseline buf es fuel s) (parsed s)) ∧
  (∀ s, (s ≤ es)%nat → (4 * (es - s) + 3 ≤ fuel)%nat → uwp (parsepipe buf es fuel s) (parsed s)) ∧
  (∀ s, (s ≤ es)%nat → (4 * (es - s) + 2 ≤ fuel)%nat → uwp (parseexec buf es fuel s) (parsed s)) ∧
  (∀ s, (s ≤ es)%nat → (4 * (es - s) + 1 ≤ fuel)%nat → uwp (parseblock buf es fuel s) (parsed s)).
Proof.
  induction fuel as [|fuel (IHl & IHp & IHe & IHb)]; [split_and!; intros; lia|].
  split_and!; intros s Hs Hf; cbn [parseline parsepipe parseexec parseblock].
  - apply uwp_bind. apply uwp_mono with (1 := IHp s Hs ltac:(lia)). intros [c s1] [Hc Hs1]. cbn [fst snd] in *.
    apply uwp_bind. apply uwp_mono with (1 := parseback_ok c s1 Hc ltac:(lia)). intros [c' s2] [Hc' Hs2]. cbn [fst snd] in *.
    apply peek_gettoken; [lia| |].
    + intros s3 tok x s4 H3 H4 E. rewrite E. apply uwp_ret. apply uwp_bind.
      apply uwp_mono with (1 := IHl s4 H4 ltac:(lia)). intros [c2 s5] [Hc2 Hs5]. by split; [split|simpl in *; lia].
    + intros s3 H3. split; [done|simpl; lia].
  - apply uwp_bind. apply uwp_mono with (1 := IHe s Hs ltac:(lia)). intros [c s1] [Hc Hs1]. cbn [fst snd] in *.
    apply peek_gettoken; [lia| |].
    + intros s3 tok x s4 H3 H4 E. rewrite E. apply uwp_ret. apply uwp_bind.
      apply uwp_mono with (1 := IHp s4 H4 ltac:(lia)). intros [c2 s5] [Hc2 Hs5]. by split; [split|simpl in *; lia].
    + intros s3 H3. split; [done|simpl; lia].
  - destruct (peek_ok s "(") as (s1 & c & -> & Hs1 & _); [lia|]. apply uwp_ret. destruct (_ && _).
    + apply uwp_mono with (1 := IHb s1 ltac:(lia) ltac:(lia)). intros [c' s2] [? ?]. split; [done|simpl in *; lia].
    + apply uwp_mono with (1 := parsearg_ok s1 ltac:(lia)). intros [c' s2] [? ?]. split; [done|simpl in *; lia].
  - apply peek_gettoken; [lia| |intros; cbn [negb]; sh_panics]. cbn [negb].
    intros s1 tok x s2 H1 H2 E. rewrite E. apply uwp_ret. apply uwp_bind.
    apply uwp_mono with (1 := IHl s2 H2 ltac:(lia)). intros [c s3] [Hc Hs3]. cbn [fst snd] in *.
    apply peek_gettoken; [lia| |intros; cbn [negb]; sh_panics]. cbn [negb].
    intros s4 tok' x' s5 H4 H5 E'. rewrite E'. apply uwp_ret. apply uwp_bind.
    apply uwp_mono with (1 := parseredirs_ok s5 H5). intros [rs s6] [Hrs Hs6]. split; [by apply redirs_ok|simpl in *; lia].
Qed.

(** ** The strings of a command *)

Fixpoint spans (c : cmd) : list span :=
  match c with
  | EXEC argv => argv
  | REDIR c file _ _ => spans c ++ [file]
  | PIPE l r => spans l ++ spans r
  | LIST l r => spans l ++ spans r
  | BACK c => spans c
  end.

Lemma spans_ok c : cmd_ok c → Forall span_ok (spans c).
Proof.
  induction c as [argv|c IH f m d|l IHl r IHr|l IHl r IHr|c IH]; cbn [cmd_ok spans].
  - by intros [? _].
  - intros (? & ? & _). apply Forall_app. split; [auto|]. by apply Forall_singleton.
  - intros [? ?]. apply Forall_app. auto.
  - intros [? ?]. apply Forall_app. auto.
  - done.
Qed.

(** The line, with some characters that are not in words overwritten by 0. *)
Definition zeroed (b : list Z) : Prop :=
  length b = length buf ∧
  ∀ i c, buf !! i = Some c → b !! i = Some c ∨ (b !! i = Some 0 ∧ word_char c = false).

Definition keeps_zeros (b b' : list Z) : Prop := ∀ i, b !! i = Some 0 → b' !! i = Some 0.

(** [nulterminate] stores a 0 at the end of every string, in some order. *)
Fixpoint put_zeros (xs : list span) (b : list Z) : option (list Z) :=
  match xs with [] => Some b | x :: xs => b ← put b x.2 0; put_zeros xs b end.

Lemma put_zeros_app xs ys b : put_zeros (xs ++ ys) b = b ← put_zeros xs b; put_zeros ys b.
Proof. revert b. induction xs as [|x xs IH]; intros b; simpl; [done|]. destruct (put b x.2 0); simpl; [apply IH|done]. Qed.

Lemma foldl_put_None (argv : list span) : foldl (λ b x, b ← b; put b x.2 0) None argv = None.
Proof. induction argv as [|x argv IH]; [done|]. apply IH. Qed.

Lemma nulterminate_zeros c b : nulterminate c b = put_zeros (spans c) b.
Proof.
  revert b. induction c as [argv|c IH f m d|l IHl r IHr|l IHl r IHr|c IH]; intros b; cbn [nulterminate spans].
  - revert b. induction argv as [|x argv IH]; intros b; simpl; [done|].
    destruct (put b x.2 0); simpl; [apply IH|apply foldl_put_None].
  - rewrite put_zeros_app, IH. destruct (put_zeros (spans c) b) as [b'|]; simpl; [|done]. by destruct (put b' f.2 0).
  - rewrite put_zeros_app, IHl. destruct (put_zeros (spans l) b); simpl; [apply IHr|done].
  - rewrite put_zeros_app, IHl. destruct (put_zeros (spans l) b); simpl; [apply IHr|done].
  - apply IH.
Qed.

Lemma put_zeros_ok xs b :
  Forall span_ok xs → zeroed b →
  ∃ b', put_zeros xs b = Some b' ∧ zeroed b' ∧ keeps_zeros b b' ∧ ∀ x, x ∈ xs → b' !! x.2 = Some 0.
Proof.
  intros Hxs. revert b. induction Hxs as [|x xs Hx _ IH]; intros b [Lb Hb].
  { exists b. split_and!; [done|done|by intros i|by intros x ?%elem_of_nil]. }
  destruct Hx as (_ & _ & c & Hc & Hw). assert (Hlt : (x.2 < length b)%nat).
  { rewrite Lb. apply lookup_lt_is_Some_1. by exists c. }
  destruct (IH (<[x.2:=0]> b)) as (b' & E & Z' & K & H).
  { split; [by rewrite length_insert|]. intros i d Hd. destruct (decide (i = x.2)) as [->|Hne].
    - right. rewrite list_lookup_insert_eq by done. split; [done|]. congruence.
    - rewrite list_lookup_insert_ne by done. by apply Hb. }
  exists b'. cbn [put_zeros]. rewrite put_in by done. split_and!; [done|done| |].
  - intros i Hi. apply K. destruct (decide (i = x.2)) as [->|]; [by apply list_lookup_insert_eq|by rewrite list_lookup_insert_ne].
  - intros y [->|Hy]%elem_of_cons; [|by apply H]. apply K. by apply list_lookup_insert_eq.
Qed.

(** The characters of a span of the line. *)
Definition word (x : span) : list Z := take (x.2 - x.1) (drop x.1 line).

Lemma string_at_zeroed b x : zeroed b → span_ok x → b !! x.2 = Some 0 → string_at b x = word x.
Proof.
  intros [Lb Hb] (Hx & Hw & _) Hz. destruct x as [q e]. cbn [fst snd] in *. unfold string_at, word. cbn [fst snd].
  assert (Hsub : take (e - q) (drop q b) = take (e - q) (drop q line)).
  { apply list_eq. intros i. destruct (decide (i < e - q)%nat) as [Hi|Hi].
    - rewrite !lookup_take_lt, !lookup_drop by done. destruct (at_line (q + i)) as (c & Hc & _ & ->); [lia|].
      destruct (Hb _ _ Hc) as [->|[_ Hn]]; [done|]. rewrite (Hw (q + i)%nat c) in Hn; [done|lia|done].
    - by rewrite !lookup_take_ge by lia. }
  rewrite <-(take_drop (e - q) (drop q b)), Hsub, drop_drop. replace (q + (e - q))%nat with e by lia.
  rewrite (drop_S b 0 e Hz). apply str_app. by apply Forall_take, Forall_drop.
Qed.

Lemma zeroed_buf : zeroed buf.
Proof. split; [done|]. auto. Qed.

(** C39: the shell reads every command line: for every line, and whatever follows
    its terminator in the buffer, [parsecmd] returns a command or reports an
    error and exits, within a bound linear in the length of the line and without
    reading or writing outside the buffer.  A command it returns is well-formed,
    and each of its strings, as a program will read it after [nulterminate], is
    exactly the word of the line that the parser saw. *)
Theorem parsecmd_total fuel :
  Z.of_nat es < 2 ^ 32 → (4 * es + 4 ≤ fuel)%nat →
  uwp (parsecmd fuel buf) (λ x, cmd_ok x.1 ∧ length x.2 = length buf ∧
    ∀ y, y ∈ spans x.1 → string_at x.2 y = word y ∧ Forall (λ c, word_char c = true) (word y)).
Proof.
  intros Hl Hf. unfold parsecmd. rewrite strlen_str by done. apply uwp_ret. rewrite Nat2Z.id. apply uwp_bind.
  apply uwp_mono with (1 := proj1 (parse_ok fuel) O ltac:(lia) ltac:(lia)). intros [c s] [Hc Hs]. cbn [fst snd] in *.
  destruct (peek_ok s "") as (s1 & d & -> & Hs1 & _); [lia|]. apply uwp_ret.
  destruct (Nat.eqb_spec s1 es) as [->|Hne]; cbn [negb].
  - rewrite nulterminate_zeros. destruct (put_zeros_ok (spans c) buf (spans_ok c Hc) zeroed_buf) as (b & -> & Z & _ & H0).
    apply uwp_ret. cbn [uwp mret uprog_ret fst snd]. split_and!; [done|by destruct Z|]. intros y Hy.
    assert (Hy' : span_ok y) by (by apply (proj1 (Forall_forall _ _) (spans_ok c Hc))).
    split; [apply string_at_zeroed; auto|]. destruct Hy' as (Hq & Hw & _). destruct y as [q e]. cbn [fst snd] in *.
    apply Forall_lookup. intros i x Hx. unfold word in Hx. cbn [fst snd] in Hx.
    apply lookup_take_Some in Hx as [Hx Hi]. rewrite lookup_drop in Hx. apply (Hw (q + i)%nat); [lia|].
    by apply lookup_app_l_Some.
  - apply uwp_bind. unfold fprintf.
    change (chars "leftovers: %s\n") with (chars "leftovers: " ++ [ch "%"; ch "s"] ++ [newline]).
    replace (drop s1 buf) with (drop s1 line ++ 0 :: after) by (by rewrite drop_app_le by lia).
    apply uwp_fprintf_s; [no_percent|no_percent|by apply Forall_drop|]. sh_panics.
Qed.

End Line.

Lemma parsecmd_total_witness : uwp (parsecmd 100 (chars "ls >out &" ++ 0 :: [7; 7])) (λ x, x.1 = BACK (REDIR (EXEC [(0, 2)%nat]) (4, 7)%nat 1537 1)) ∧
  uwp (parsecmd 100 (chars "ls >out &" ++ 0 :: [7; 7])) (λ x, cmd_ok (chars "ls >out &") [7; 7] x.1).
Proof.
  split; [vm_compute; reflexivity|].
  assert (Hn : no_nul (chars "ls >out &")) by (apply (bool_decide_eq_true_1 _); vm_compute; reflexivity).
  pose proof (parsecmd_total (chars "ls >out &") [7; 7] Hn 100 ltac:(vm_compute; reflexivity) ltac:(vm_compute; lia)) as H.
  apply uwp_mono with (1 := H). intros a Ha. exact (proj1 Ha).
Defined.
