(* ===== verification/ShRound.v ===== *)
(** * Printing and parsing commands ([user/sh.c])

    Every command can be written as a line: the parser of the shell reads the
    line back as the command, so that the grammar of [parseline], [parsepipe],
    [parseexec] and [parseblock] is complete and its precedences are those of
    the printer (redirections bind tighter than [|], then [&], then [;]). *)

From Stdlib Require Import Ascii.
From S2P Require Import Prelude Cstring State Sysfile User Ulib Uprintf Uprogs Sh ShFacts.

(** ** Commands and their text *)

Variant kind : Type := RIn | ROut | RAppend.

Definition kind_mode (k : kind) : Z :=
  match k with
  | RIn => O_RDONLY
  | ROut => Z.lor (Z.lor O_WRONLY O_CREATE) O_TRUNC
  | RAppend => Z.lor O_WRONLY O_CREATE
  end.

Definition kind_fd (k : kind) : Z := match k with RIn => 0 | _ => 1 end.

Inductive ast : Type :=
| Simple (args : list (list Z))
| Redirect (t : ast) (k : kind) (file : list Z)
| Piped (l r : ast)
| Seq (l r : ast)
| Bg (t : ast).

Variant token : Type := Word (w : list Z) | Sym (c : Z) | Op (k : kind).

Definition token_text (t : token) : list Z :=
  match t with
  | Word w => w
  | Sym c => [c]
  | Op RIn => chars "<" | Op ROut => chars ">" | Op RAppend => chars ">>"
  end.

(** Tokens separated by blanks. *)
Definition text (l : list token) : list Z := l ≫= λ t, token_text t ++ chars " ".

Definition paren (l : list token) : list token := [Sym (ch "(")] ++ l ++ [Sym (ch ")")].

(** The tokens of a command where the grammar expects an [exec] (0), a pipeline
    (1), a pipeline followed by [&]s (2) or a line (3): in parentheses if the
    command is of a higher level. *)
Fixpoint tokens (t : ast) (level : nat) : list token :=
  match t with
  | Simple args => Word <$> args
  | Redirect t k f => tokens t 0 ++ [Op k; Word f]
  | Piped l r =>
      let b := tokens l 0 ++ [Sym (ch "|")] ++ tokens r 1 in if (1 <=? level)%nat then b else paren b
  | Bg t => let b := tokens t 2 ++ [Sym (ch "&")] in if (2 <=? level)%nat then b else paren b
  | Seq l r =>
      let b := tokens l 2 ++ [Sym (ch ";")] ++ tokens r 3 in if (3 <=? level)%nat then b else paren b
  end.

(** The line of a command. *)
Definition print_cmd (t : ast) : list Z := text (tokens t 3).

Definition word_ok (w : list Z) : Prop := w ≠ [] ∧ Forall (λ c, word_char c = true) w.

(** Words are words, and there are at most 9 arguments. *)
Fixpoint ast_ok (t : ast) : Prop :=
  match t with
  | Simple args => Forall word_ok args ∧ (length args < MAXARGS)%nat
  | Redirect t _ f => ast_ok t ∧ word_ok f
  | Piped l r => ast_ok l ∧ ast_ok r
  | Seq l r => ast_ok l ∧ ast_ok r
  | Bg t => ast_ok t
  end.

(** The command [c] with the strings [w] is the command [t]. *)
Fixpoint is_ast (w : span → list Z) (c : cmd) (t : ast) : Prop :=
  match c, t with
  | EXEC argv, Simple args => w <$> argv = args
  | REDIR c f m d, Redirect t k s => is_ast w c t ∧ w f = s ∧ m = kind_mode k ∧ d = kind_fd k
  | PIPE l r, Piped l' r' => is_ast w l l' ∧ is_ast w r r'
  | LIST l r, Seq l' r' => is_ast w l l' ∧ is_ast w r r'
  | BACK c, Bg t => is_ast w c t
  | _, _ => False
  end.

(** ** Reading tokens *)

Definition token_ok (t : token) : Prop :=
  match t with Word w => word_ok w | Sym c => in_set (chars "|();&") c = true | Op _ => True end.

Lemma word_char_spec c : word_char c = true → c ≠ 0 ∧ in_set whitespace c = false ∧ in_set symbols c = false.
Proof.
  unfold word_char. rewrite !andb_true_iff, !negb_true_iff. intros [[H1 H2] H3]. by apply Z.eqb_neq in H1.
Qed.

Lemma in_set_sub c l : in_set l c = true → no_nul l → c ∈ l.
Proof. intros H Hn. by apply in_set_spec in H. Qed.

(** The first character of a token. *)
Definition token_head (t : token) : Z := default 0 (head (token_text t)).

Lemma token_cons t : token_ok t → ∃ c r, token_text t = c :: r ∧ token_head t = c ∧ c ≠ 0 ∧ in_set whitespace c = false.
Proof.
  destruct t as [w|c|k]; cbn [token_ok]; unfold token_head.
  - intros [Hne Hw]. destruct w as [|c w]; [done|]. apply Forall_cons in Hw as [Hc _].
    destruct (word_char_spec c Hc) as (? & ? & _). by exists c, w.
  - intros Hc. exists c, []. apply in_set_sub in Hc; [|no_percent]. apply list_elem_of_In in Hc. vm_compute in Hc.
    repeat (destruct Hc as [<-|Hc]; [split_and!; done|]). done.
  - intros _. destruct k; eexists _, _; split_and!; done.
Qed.

Section Reading.
Context (line after : list Z).

Local Abbreviation buf := (line ++ 0 :: after).
Local Abbreviation es := (length line).

(** The tokens [l] are what is left of the line at [s]. *)
Definition at_ (s : nat) (l : list token) : Prop := (s ≤ es)%nat ∧ drop s line = text l ∧ Forall token_ok l.

Lemma text_cons t l : text (t :: l) = token_text t ++ 32 :: text l.
Proof. unfold text. cbn [mbind list_bind]. by rewrite <-app_assoc. Qed.

Lemma text_app l l' : text (l ++ l') = text l ++ text l'.
Proof. apply bind_app. Qed.

Lemma at_nil s : at_ s [] → s = es.
Proof. intros (H1 & H2 & _). apply (f_equal length) in H2. rewrite length_drop in H2. simpl in H2. lia. Qed.

Lemma at_lookup s l i c : at_ s l → text l !! i = Some c → buf !! (s + i)%nat = Some c.
Proof. intros (H1 & H2 & _) H. rewrite <-H2, lookup_drop in H. by apply lookup_app_l_Some. Qed.

Lemma at_length s l : at_ s l → (s + length (text l) = es)%nat.
Proof. intros (H1 & H2 & _). rewrite <-H2, length_drop. lia. Qed.

Lemma at_skip s t l : at_ s (t :: l) → at_ (s + length (token_text t) + 1) l.
Proof.
  intros H. pose proof (at_length _ _ H) as Hl. destruct H as (H1 & H2 & H3). rewrite text_cons in *.
  rewrite length_app in Hl. simpl in Hl. split_and!; [lia| |by apply Forall_cons in H3 as [_ ?]].
  replace (s + length (token_text t) + 1)%nat with (s + (length (token_text t) + 1))%nat by lia.
  rewrite <-drop_drop, H2, drop_app_ge by lia. by replace (length (token_text t) + 1 - length (token_text t))%nat with 1%nat by lia.
Qed.

(** At the beginning of a token there is nothing to skip. *)
Lemma at_skip_ws s l : at_ s l → skip_ws buf es s = s.
Proof.
  intros H. destruct l as [|t l].
  - apply at_nil in H as ->. unfold skip_ws. by rewrite Nat.sub_diag.
  - pose proof (at_length _ _ H) as Hl. rewrite text_cons, length_app in Hl. simpl in Hl.
    destruct (token_cons t) as (c & r & Et & _ & _ & Hc); [destruct H as (_ & _ & H); by apply Forall_cons in H as [? _]|].
    assert (Hb : buf !! s = Some c).
    { replace s with (s + 0)%nat by lia. apply (at_lookup s (t :: l)); [done|]. by rewrite text_cons, Et. }
    unfold skip_ws. destruct (es - s)%nat as [|k] eqn:Hk; [lia|]. cbn [skip]. by rewrite Hb, Hc.
Qed.

(** After a token, the blank is skipped. *)
Lemma at_blank s t l :
  at_ s (t :: l) → skip_ws buf es (s + length (token_text t)) = (s + length (token_text t) + 1)%nat.
Proof.
  intros H. pose proof (at_length _ _ H) as Hl. rewrite text_cons, length_app in Hl. simpl in Hl.
  assert (Hb : buf !! (s + length (token_text t))%nat = Some 32).
  { apply (at_lookup s (t :: l)); [done|]. rewrite text_cons. by rewrite lookup_app_r, Nat.sub_diag by lia. }
  pose proof (at_skip_ws _ _ (at_skip _ _ _ H)) as Hs. unfold skip_ws in *.
  set (e := (s + length (token_text t))%nat) in *. destruct (es - e)%nat as [|k] eqn:Hk; [lia|]. cbn [skip].
  rewrite Hb. change (in_set whitespace 32) with true. cbn [andb].
  replace (S e) with (e + 1)%nat by lia. by replace k with (es - (e + 1))%nat by lia.
Qed.

Lemma peek_at s l toks :
  at_ s l → peek buf es s toks = Ret (match l with [] => false | t :: _ => in_set (chars toks) (token_head t) end, s).
Proof.
  intros H. unfold peek. rewrite (at_skip_ws s l H). destruct l as [|t l].
  - apply at_nil in H as ->. by rewrite at_end.
  - destruct (token_cons t) as (c & r & Et & -> & H0 & _); [destruct H as (_ & _ & H); by apply Forall_cons in H as [? _]|].
    assert (Hb : buf !! s = Some c).
    { replace s with (s + 0)%nat by lia. apply (at_lookup s (t :: l)); [done|]. by rewrite text_cons, Et. }
    rewrite Hb. ustep. by rewrite (proj2 (Z.eqb_neq c 0) H0).
Qed.

(** What [gettoken] returns. *)
Definition token_code (t : token) : Z :=
  match t with Word _ => ch "a" | Sym c => c | Op RIn => ch "<" | Op ROut => ch ">" | Op RAppend => ch "+" end.

Lemma skip_word w n s c :
  Forall (λ c, word_char c = true) w → (∀ i, (i < length w)%nat → buf !! (s + i)%nat = w !! i) →
  buf !! (s + length w)%nat = Some c → in_set whitespace c = true → (length w < n)%nat →
  skip buf n (λ c, negb (in_set whitespace c) && negb (in_set symbols c)) s = (s + length w)%nat.
Proof.
  intros Hw. revert n s. induction Hw as [|d w Hd _ IH]; intros n s Hi Hc Hws Hn; (destruct n as [|n]; [simpl in Hn; lia|]); cbn [skip].
  - rewrite Nat.add_0_r in Hc. rewrite Hc, Hws. simpl. lia.
  - pose proof (Hi 0%nat ltac:(simpl; lia)) as H0. rewrite Nat.add_0_r in H0. rewrite H0. simpl head.
    cbn [lookup list_lookup]. destruct (word_char_spec d Hd) as (_ & -> & ->). cbn [negb andb].
    rewrite (IH n (S s)); [simpl; lia| |replace (S s + length w)%nat with (s + length (d :: w))%nat by (simpl; lia); done|done|simpl in Hn; lia].
    intros i Hi'. replace (S s + i)%nat with (s + S i)%nat by lia. rewrite Hi by (simpl; lia). done.
Qed.

Lemma gettoken_at s t l :
  at_ s (t :: l) →
  gettoken buf es s = Ret (token_code t, (s, s + length (token_text t))%nat, (s + length (token_text t) + 1)%nat).
Proof.
  intros H. unfold gettoken. rewrite (at_skip_ws s _ H).
  assert (Hok : token_ok t) by (destruct H as (_ & _ & H'); by apply Forall_cons in H' as [? _]).
  pose proof (at_length _ _ H) as Hl. rewrite text_cons, length_app in Hl. simpl in Hl.
  assert (Hch : ∀ i c, (token_text t ++ [32]) !! i = Some c → buf !! (s + i)%nat = Some c).
  { intros i c Hi. apply (at_lookup s (t :: l)); [done|]. rewrite text_cons.
    change (32 :: text l) with ([32] ++ text l). rewrite app_assoc. by apply lookup_app_l_Some. }
  pose proof (Hch 0%nat) as H0. rewrite Nat.add_0_r in H0. pose proof (at_blank s t l H) as Hblank.
  destruct t as [w|c|k]; cbn [token_text token_code] in *.
  - destruct Hok as [Hne Hw]. destruct w as [|c w]; [done|]. rewrite (H0 c) by done.
    ustep. apply Forall_cons in Hw as [Hc Hw'].
    destruct (word_char_spec c Hc) as (Hz & Hws & Hsym). rewrite (proj2 (Z.eqb_neq c 0) Hz).
    assert (in_set (chars "|();&<") c = false ∧ c ≠ ch ">") as [-> Hgt].
    { apply not_true_iff_false in Hsym. rewrite in_set_spec in Hsym by no_percent. split.
      - apply not_true_is_false. rewrite in_set_spec by no_percent. intros Hin. apply Hsym.
        apply list_elem_of_In in Hin. apply list_elem_of_In. vm_compute in Hin. vm_compute. tauto.
      - intros ->. apply Hsym. apply list_elem_of_In. vm_compute. tauto. }
    rewrite (proj2 (Z.eqb_neq c (ch ">")) Hgt). ustep.
    rewrite (skip_word (c :: w) _ s 32); [ustep; by rewrite Hblank|by constructor| | |done|simpl in *; lia].
    + intros i Hi. destruct (lookup_lt_is_Some_2 (c :: w) i Hi) as [d Hd]. rewrite Hd. apply Hch. by apply lookup_app_l_Some.
    + apply Hch. by rewrite lookup_app_r, Nat.sub_diag by lia.
  - rewrite (H0 c) by done. ustep.
    apply in_set_sub in Hok; [|no_percent]. assert (c ≠ 0 ∧ in_set (chars "|();&<") c = true) as [Hz ->].
    { apply list_elem_of_In in Hok. vm_compute in Hok. repeat (destruct Hok as [<-|Hok]; [done|]). done. }
    rewrite (proj2 (Z.eqb_neq c 0) Hz). ustep. cbn [length] in *. replace (S s) with (s + 1)%nat by lia.
    by rewrite Hblank.
  - destruct k; cbn [token_text] in *.
    + change (length (chars "<")) with 1%nat in *. rewrite (H0 60) by done. ustep. change (60 =? 0) with false.
      change (in_set (chars "|();&<") 60) with true. ustep. replace (S s) with (s + 1)%nat by lia.
      by rewrite Hblank.
    + change (length (chars ">")) with 1%nat in *. rewrite (H0 62) by done. ustep. change (62 =? 0) with false.
      change (in_set (chars "|();&<") 62) with false. change (62 =? ch ">") with true.
      replace (S s) with (s + 1)%nat by lia. rewrite (Hch 1%nat 32) by done. ustep.
      change (32 =? ch ">") with false. ustep. by rewrite Hblank.
    + change (length (chars ">>")) with 2%nat in *. rewrite (H0 62) by done. ustep. change (62 =? 0) with false.
      change (in_set (chars "|();&<") 62) with false. change (62 =? ch ">") with true.
      replace (S s) with (s + 1)%nat by lia. rewrite (Hch 1%nat 62) by done. ustep.
      change (62 =? ch ">") with true. ustep. replace (S (s + 1)) with (s + 2)%nat by lia. by rewrite Hblank.
Qed.

Lemma word_at s w l : at_ s (Word w :: l) → word line (s, s + length w)%nat = w.
Proof.
  intros (_ & H & _). unfold word. cbn [fst snd]. rewrite H, text_cons. cbn [token_text].
  replace (s + length w - s)%nat with (length w) by lia. apply take_app_length.
Qed.

Lemma gettoken_nil s : at_ s [] → gettoken buf es s = Ret (0, (s, s), s).
Proof.
  intros H. unfold gettoken. rewrite (at_skip_ws s _ H). pose proof (at_nil s H) as ->. rewrite at_end. ustep.
  change (0 =? 0) with true. ustep. unfold skip_ws. by rewrite Nat.sub_diag.
Qed.

(** ** What [peek] sees *)

Lemma head_word w set : word_ok w → Forall (λ c, c ∈ symbols) set → in_set set (token_head (Word w)) = false.
Proof.
  intros [Hne Hw] Hs. destruct w as [|c w]; [done|]. apply Forall_cons in Hw as [Hc _].
  destruct (word_char_spec c Hc) as (_ & _ & Hsym). change (token_head (Word (c :: w))) with c.
  apply not_true_is_false. intros Hin. rewrite in_set_spec in Hin.
  - apply not_true_iff_false in Hsym. destruct Hsym. rewrite in_set_spec by no_percent.
    by apply (proj1 (Forall_forall _ _) Hs).
  - eapply Forall_impl; [exact Hs|]. intros x Hx ->. apply list_elem_of_In in Hx. vm_compute in Hx. intuition discriminate.
Qed.

Ltac in_symbols := apply (bool_decide_eq_true_1 _); vm_compute; reflexivity.

(** What may follow a command of each level. *)
Definition follow_set (level : nat) : list Z :=
  match level with O => chars ");&|" | 1%nat => chars ");&" | 2%nat => chars ");" | _ => chars ")" end.

Definition follow (level : nat) (rest : list token) : Prop :=
  match rest with [] => True | Sym c :: _ => c ∈ follow_set level | _ => False end.

(** [peek] for a set of which the next token is not a member. *)
Lemma peek_follow s rest level toks :
  at_ s rest → follow level rest → forallb (λ c, negb (in_set (chars toks) c)) (follow_set level) = true →
  peek buf es s toks = Ret (false, s).
Proof.
  intros H Hf Hs. rewrite (peek_at s rest toks H). destruct rest as [|[w|c|k] rest]; try done.
  change (token_head (Sym c)) with c. rewrite forallb_forall in Hs.
  by rewrite (proj1 (negb_true_iff _) (Hs c (proj1 (list_elem_of_In _ _) Hf))).
Qed.

Lemma peek_word s w rest toks :
  at_ s (Word w :: rest) → Forall (λ c, c ∈ symbols) (chars toks) → peek buf es s toks = Ret (false, s).
Proof.
  intros H Hs. rewrite (peek_at s _ toks H), head_word; [done| |done].
  destruct H as (_ & _ & H). by apply Forall_cons in H as [? _].
Qed.

(** ** Redirections *)

Definition redir_tokens (rs : list (kind * list Z)) : list token := rs ≫= λ r, [Op r.1; Word r.2].

Definition redir_is (r : redir) (x : kind * list Z) : Prop :=
  word line r.(r_file) = x.2 ∧ r.(r_mode) = kind_mode x.1 ∧ r.(r_fd) = kind_fd x.1.

Lemma parseredirs_step acc s k w rest :
  at_ s (Op k :: Word w :: rest) →
  ∃ r s', parseredirs_body buf es (acc, s) = Ret (inl (acc ++ [r], s')) ∧ redir_is r (k, w) ∧ at_ s' rest ∧ (s < s')%nat.
Proof.
  intros H. pose proof (at_skip _ _ _ H) as H1. pose proof (at_skip _ _ _ H1) as H2. unfold parseredirs_body.
  rewrite (peek_at s _ "<>" H). pose proof (word_at _ _ _ H1) as Hw.
  assert (in_set (chars "<>") (token_head (Op k)) = true) as -> by (by destruct k). ustep.
  rewrite (gettoken_at s _ _ H). ustep. rewrite (gettoken_at _ _ _ H1). ustep. cbn [token_code token_text] in *.
  destruct k; eexists _, _; (split; [reflexivity|]); (split; [done|]); (split; [exact H2|lia]).
Qed.

Lemma parseredirs_stop acc s :
  peek buf es s "<>" = Ret (false, s) → parseredirs_body buf es (acc, s) = Ret (inr (acc, s)).
Proof. intros E. unfold parseredirs_body. by rewrite E. Qed.

Lemma parseredirs_loop rs fuel acc s rest :
  at_ s (redir_tokens rs ++ rest) → (∀ s', at_ s' rest → peek buf es s' "<>" = Ret (false, s')) → (length rs < fuel)%nat →
  ∃ out s', uloop fuel (parseredirs_body buf es) (acc, s) = Ret (acc ++ out, s') ∧ Forall2 redir_is out rs ∧
    at_ s' rest ∧ (s ≤ s')%nat.
Proof.
  intros H Hpk. revert fuel acc s H. induction rs as [|[k w] rs IH]; intros fuel acc s H Hf; (destruct fuel as [|fuel]; [simpl in Hf; lia|]); cbn [uloop].
  - change (redir_tokens [] ++ rest) with rest in H. rewrite (parseredirs_stop acc s (Hpk s H)). ustep.
    exists [], s. rewrite app_nil_r. by split_and!.
  - change (redir_tokens ((k, w) :: rs) ++ rest) with (Op k :: Word w :: redir_tokens rs ++ rest) in H.
    destruct (parseredirs_step acc s k w _ H) as (r & s1 & -> & Hr & H1 & Hs). ustep.
    destruct (IH fuel (acc ++ [r]) s1 H1) as (out & s2 & E & HF & H2 & Hs2); [simpl in Hf; lia|].
    exists (r :: out), s2. rewrite E, <-app_assoc. split_and!; [done|by constructor|done|lia].
Qed.

Lemma text_length_ge l : Forall token_ok l → (length l ≤ length (text l))%nat.
Proof.
  induction 1 as [|t l _ _ IH]; [done|]. rewrite text_cons, length_app. simpl. lia.
Qed.

Lemma at_tokens s l : at_ s l → (s + length l ≤ es)%nat.
Proof. intros H. pose proof (at_length _ _ H). destruct H as (_ & _ & H). apply text_length_ge in H. lia. Qed.

Lemma parseredirs_at rs s rest :
  at_ s (redir_tokens rs ++ rest) → (∀ s', at_ s' rest → peek buf es s' "<>" = Ret (false, s')) →
  ∃ out s', parseredirs buf es s = Ret (out, s') ∧ Forall2 redir_is out rs ∧ at_ s' rest ∧ (s ≤ s')%nat.
Proof.
  intros H Hpk. apply (parseredirs_loop rs _ [] s rest H Hpk). pose proof (at_tokens _ _ H) as Hl.
  rewrite length_app in Hl. assert (length (redir_tokens rs) = 2 * length rs)%nat.
  { clear. induction rs as [|r rs IH]; [done|].
    change (redir_tokens (r :: rs)) with (Op r.1 :: Word r.2 :: redir_tokens rs). cbn [length]. lia. }
  rewrite length_app. simpl. lia.
Qed.

Lemma is_ast_redirs out rs c t :
  Forall2 redir_is out rs → is_ast (word line) c t →
  is_ast (word line) (redirs c out) (foldl (λ t r, Redirect t r.1 r.2) t rs).
Proof.
  intros H. revert c t. induction H as [|r [k w] out rs (H1 & H2 & H3) _ IH]; intros c t Hc; [done|].
  apply IH. by split_and!.
Qed.

(** ** Simple commands *)

Lemma follow_no_op rest : follow 0 rest → ∀ s, at_ s rest → peek buf es s "<>" = Ret (false, s).
Proof. intros Hf s H. by apply peek_follow with rest 0%nat. Qed.

Lemma parseexec_stop argv rs s rest :
  at_ s rest → follow 0 rest → parseexec_body buf es (argv, rs, s) = Ret (inr (argv, rs, s)).
Proof.
  intros H Hf. unfold parseexec_body. rewrite (peek_at s rest "|)&;" H). destruct rest as [|[w|c|k] rest]; try done.
  - ustep. by rewrite gettoken_nil.
  - change (token_head (Sym c)) with c. apply list_elem_of_In in Hf. vm_compute in Hf.
    repeat (destruct Hf as [<-|Hf]; [done|]). done.
Qed.

Lemma parseexec_word argv rs s w rest out s' :
  at_ s (Word w :: rest) → (S (length argv) < MAXARGS)%nat → parseredirs buf es (s + length w + 1) = Ret (out, s') →
  parseexec_body buf es (argv, rs, s) = Ret (inl (argv ++ [(s, s + length w)%nat], rs ++ out, s')).
Proof.
  intros H Hl E. unfold parseexec_body. rewrite (peek_word s w rest "|)&;" H) by in_symbols. ustep.
  rewrite (gettoken_at s _ _ H). ustep. cbn [token_code token_text]. change (ch "a" =? 0) with false.
  change (negb (ch "a" =? ch "a")) with false. rewrite length_app. cbn [length].
  rewrite (proj2 (Nat.leb_gt MAXARGS _)) by lia. by rewrite E.
Qed.

Lemma parseargs_loop rs rest args a fuel argv rs0 s :
  at_ s (Word a :: (Word <$> args) ++ redir_tokens rs ++ rest) → follow 0 rest →
  (length argv + S (length args) < MAXARGS)%nat → (S (length args) < fuel)%nat →
  ∃ xs out s', uloop fuel (parseexec_body buf es) (argv, rs0, s) = Ret (argv ++ xs, rs0 ++ out, s') ∧
    word line <$> xs = a :: args ∧ Forall2 redir_is out rs ∧ at_ s' rest ∧ (s ≤ s')%nat.
Proof.
  intros H Hf. revert a fuel argv rs0 s H. induction args as [|b args IH]; intros a fuel argv rs0 s H Hl Hfu;
    (destruct fuel as [|fuel]; [lia|]); cbn [uloop]; pose proof (at_skip _ _ _ H) as H1; pose proof (word_at _ _ _ H) as Hw.
  - destruct (parseredirs_at rs _ rest H1) as (out & s2 & E & HF & H2 & Hs2); [by apply follow_no_op|].
    rewrite (parseexec_word argv rs0 s a _ out s2 H) by (done || simpl in *; lia). ustep.
    destruct fuel as [|fuel]; [simpl in *; lia|]. cbn [uloop]. rewrite (parseexec_stop _ _ s2 rest H2 Hf). ustep.
    cbn [token_text] in *. eexists [_], out, s2. split_and!; [done|by rewrite fmap_cons, Hw|done|done|lia].
  - assert (E : parseredirs buf es (s + length (token_text (Word a)) + 1) = Ret ([], (s + length (token_text (Word a)) + 1)%nat)).
    { unfold parseredirs. cbn [uloop]. rewrite parseredirs_stop; [done|]. apply (peek_word _ b _ _ H1). in_symbols. }
    rewrite (parseexec_word argv rs0 s a _ _ _ H ltac:(simpl in *; lia) E). ustep.
    destruct (IH b fuel (argv ++ [(s, s + length a)%nat]) (rs0 ++ []) _ H1) as (xs & out & s2 & E2 & Hx & HF & H2 & Hs2);
      [rewrite length_app; simpl in *; lia|simpl in *; lia|].
    rewrite E2, app_nil_r, <-app_assoc. eexists (_ :: xs), out, s2.
    split_and!; [done|by rewrite fmap_cons, Hw, Hx|done|done|lia].
Qed.

Lemma parsearg_at args rs s rest :
  at_ s ((Word <$> args) ++ redir_tokens rs ++ rest) → follow 0 rest → (length args < MAXARGS)%nat →
  ∃ c s', parsearg buf es s = Ret (c, s') ∧ is_ast (word line) c (foldl (λ t r, Redirect t r.1 r.2) (Simple args) rs) ∧
    at_ s' rest ∧ (s ≤ s')%nat.
Proof.
  intros H Hf Hl. unfold parsearg. destruct args as [|a args].
  - destruct (parseredirs_at rs s rest H) as (out & s2 & -> & HF & H2 & Hs2); [by apply follow_no_op|]. ustep.
    change (uloop (S MAXARGS) (parseexec_body buf es) ([], out, s2)) with
      (parseexec_body buf es ([], out, s2) ≫= λ r,
        match r with inl x' => uloop MAXARGS (parseexec_body buf es) x' | inr v => mret v end).
    rewrite (parseexec_stop _ _ s2 rest H2 Hf). ustep. eexists _, s2. split; [done|]. split_and!; [|done|done].
    by apply is_ast_redirs.
  - assert (E : parseredirs buf es s = Ret ([], s)).
    { unfold parseredirs. cbn [uloop]. rewrite parseredirs_stop; [done|]. apply (peek_word _ a _ _ H). in_symbols. }
    rewrite E. ustep.
    destruct (parseargs_loop rs rest args a (S MAXARGS) [] [] s H Hf) as (xs & out & s2 & E2 & Hx & HF & H2 & Hs2);
      [simpl in *; lia|unfold MAXARGS in *; simpl in *; lia|].
    rewrite E2. ustep. eexists _, s2. split; [done|]. split_and!; [|done|done]. by apply is_ast_redirs.
Qed.

(** ** The levels of the grammar *)

Definition bg_tokens (n : nat) : list token := replicate n (Sym (ch "&")).

Definition exec_ok (t : ast) : Prop := ∀ rs s rest fuel,
  at_ s (tokens t 0 ++ redir_tokens rs ++ rest) → follow 0 rest → (4 * (es - s) + 2 ≤ fuel)%nat →
  ∃ c s', parseexec buf es fuel s = Ret (c, s') ∧
    is_ast (word line) c (foldl (λ t r, Redirect t r.1 r.2) t rs) ∧ at_ s' rest ∧ (s ≤ s')%nat.

Definition pipe_ok (t : ast) : Prop := ∀ s rest fuel,
  at_ s (tokens t 1 ++ rest) → follow 1 rest → (4 * (es - s) + 3 ≤ fuel)%nat →
  ∃ c s', parsepipe buf es fuel s = Ret (c, s') ∧ is_ast (word line) c t ∧ at_ s' rest ∧ (s ≤ s')%nat.

Definition back_ok (t : ast) : Prop := ∀ n s rest fuel,
  at_ s (tokens t 2 ++ bg_tokens n ++ rest) → follow 2 rest → (4 * (es - s) + 3 ≤ fuel)%nat →
  ∃ c1 s1 c s', parsepipe buf es fuel s = Ret (c1, s1) ∧
    uloop (S (length buf)) (parseback_body buf es) (c1, s1) = Ret (c, s') ∧
    is_ast (word line) c (Nat.iter n Bg t) ∧ at_ s' rest ∧ (s ≤ s')%nat.

Definition line_ok (t : ast) : Prop := ∀ s rest fuel,
  at_ s (tokens t 3 ++ rest) → follow 3 rest → (4 * (es - s) + 4 ≤ fuel)%nat →
  ∃ c s', parseline buf es fuel s = Ret (c, s') ∧ is_ast (word line) c t ∧ at_ s' rest ∧ (s ≤ s')%nat.

(** One step of the grammar. *)
Ltac unfold_grammar := rewrite ?parseline_S, ?parsepipe_S, ?parseexec_S, ?parseblock_S.

Lemma follow_mono i j rest : (i ≤ j)%nat → follow j rest → follow i rest.
Proof.
  intros Hij. destruct rest as [|[w|c|k] rest]; try done. cbn [follow]. intros Hc.
  assert (H : Forall (λ c, c ∈ follow_set i) (follow_set j)); [|by apply (proj1 (Forall_forall _ _) H)].
  destruct j as [|[|[|j]]], i as [|[|[|i]]]; try lia; in_symbols.
Qed.

(** The next token is the symbol [c]. *)
Lemma peek_sym s c rest toks : at_ s (Sym c :: rest) → in_set (chars toks) c = true → peek buf es s toks = Ret (true, s).
Proof. intros H Hc. rewrite (peek_at s _ toks H). by change (token_head (Sym c)) with c; rewrite Hc. Qed.

Lemma exec_to_pipe t : tokens t 1 = tokens t 0 → exec_ok t → pipe_ok t.
Proof.
  intros Et HE s rest fuel H Hf Hfu. rewrite Et in H. destruct fuel as [|fuel]; [lia|].
  unfold_grammar.
  destruct (HE [] s rest fuel H) as (c & s' & -> & Ha & H' & Hs); [by apply follow_mono with 1%nat; [lia|]|lia|]. ustep.
  rewrite (peek_follow s' rest 1 "|" H' Hf) by done. ustep. by exists c, s'.
Qed.

Lemma back_loop n fuel c t s rest :
  at_ s (bg_tokens n ++ rest) → follow 2 rest → is_ast (word line) c t → (n < fuel)%nat →
  ∃ c' s', uloop fuel (parseback_body buf es) (c, s) = Ret (c', s') ∧ is_ast (word line) c' (Nat.iter n Bg t) ∧
    at_ s' rest ∧ (s ≤ s')%nat.
Proof.
  revert fuel c t s. induction n as [|n IH]; intros fuel c t s H Hf Ha Hn; (destruct fuel as [|fuel]; [lia|]); cbn [uloop].
  - assert (E : parseback_body buf es (c, s) = Ret (inr (c, s))).
    { unfold parseback_body. by rewrite (peek_follow s rest 2 "&" H Hf). }
    rewrite E. by exists c, s.
  - pose proof (at_skip _ _ _ H) as H1.
    assert (E : parseback_body buf es (c, s) = Ret (inl (BACK c, (s + 1 + 1)%nat))).
    { unfold parseback_body. rewrite (peek_sym s _ _ "&" H) by done. ustep. by rewrite (gettoken_at s _ _ H). }
    rewrite E. ustep. destruct (IH fuel (BACK c) (Bg t) _ H1 Hf Ha) as (c' & s' & E' & Ha' & H' & Hs); [lia|].
    exists c', s'. split_and!; [done| |done|lia]. by rewrite Nat.iter_succ_r.
Qed.

Lemma pipe_to_back t : tokens t 2 = tokens t 1 → pipe_ok t → back_ok t.
Proof.
  intros Et HP n s rest fuel H Hf Hfu. rewrite Et in H.
  destruct (HP s (bg_tokens n ++ rest) fuel H) as (c & s1 & E1 & Ha & H1 & Hs1); [|lia|].
  { destruct n; [by apply follow_mono with 2%nat; [lia|]|]. cbn. in_symbols. }
  destruct (back_loop n (S (length buf)) c t s1 rest H1 Hf Ha) as (c' & s' & E & Ha' & H' & Hs).
  { pose proof (at_tokens _ _ H1) as Hl. unfold bg_tokens in Hl. rewrite length_app, length_replicate in Hl.
    rewrite length_app. simpl. lia. }
  exists c, s1, c', s'. split_and!; [done..|lia].
Qed.

Lemma back_to_line t : tokens t 3 = tokens t 2 → back_ok t → line_ok t.
Proof.
  intros Et HB s rest fuel H Hf Hfu. rewrite Et in H. destruct fuel as [|fuel]; [lia|].
  unfold_grammar.
  destruct (HB 0%nat s rest fuel H) as (c1 & s1 & c & s' & E1 & E2 & Ha & H' & Hs); [by apply follow_mono with 3%nat; [lia|]|lia|].
  rewrite E1. ustep. rewrite E2. ustep. rewrite (peek_follow s' rest 3 ";" H' Hf) by done. ustep. by exists c, s'.
Qed.

(** A line in parentheses is a command. *)
Lemma line_to_exec t : tokens t 0 = paren (tokens t 3) → line_ok t → exec_ok t.
Proof.
  intros Et HL rs s rest fuel H Hf Hfu. rewrite Et in H. unfold paren in H. rewrite <-!app_assoc in H. cbn [app] in H.
  do 2 (destruct fuel as [|fuel]; [lia|]). unfold_grammar.
  pose proof (at_tokens _ _ H) as Hlen. cbn [length] in Hlen.
  rewrite (peek_sym s _ _ "(" H) by done. ustep. unfold_grammar.
  rewrite (peek_sym s _ _ "(" H) by done. ustep. cbn [negb].
  rewrite (gettoken_at s _ _ H). ustep. pose proof (at_skip _ _ _ H) as H1. cbn [token_text length] in *.
  destruct (HL _ _ fuel H1) as (c & s2 & -> & Ha & H2 & Hs2); [cbn; in_symbols|lia|]. ustep.
  rewrite (peek_sym s2 _ _ ")" H2) by done. ustep. cbn [negb]. rewrite (gettoken_at s2 _ _ H2). ustep.
  pose proof (at_skip _ _ _ H2) as H3. cbn [token_text length] in *.
  destruct (parseredirs_at rs _ rest H3) as (out & s4 & -> & HF & H4 & Hs4); [by apply follow_no_op|]. ustep.
  eexists _, s4. split; [done|]. split_and!; [by apply is_ast_redirs|done|lia].
Qed.

(** ** Every command *)

Lemma simple_exec args : ast_ok (Simple args) → exec_ok (Simple args).
Proof.
  intros [Hw Hl] rs s rest fuel H Hf Hfu. destruct fuel as [|fuel]; [lia|]. unfold_grammar.
  assert (E : peek buf es s "(" = Ret (false, s)).
  { destruct args as [|a args]; [destruct rs as [|r rs]|].
    - by apply peek_follow with rest 0%nat.
    - rewrite (peek_at s _ "(" H). change (redir_tokens (r :: rs) ++ rest) with (Op r.1 :: Word r.2 :: redir_tokens rs ++ rest).
      by destruct r as [[] ?].
    - apply (peek_word s a _ "(" H). in_symbols. }
  rewrite E. ustep. by apply parsearg_at.
Qed.

Lemma redirect_exec t k f : exec_ok t → exec_ok (Redirect t k f).
Proof.
  intros HE rs s rest fuel H Hf Hfu. cbn [tokens] in H. rewrite <-app_assoc in H.
  by apply (HE ((k, f) :: rs) s rest fuel).
Qed.

Lemma piped_pipe l r : exec_ok l → pipe_ok r → pipe_ok (Piped l r).
Proof.
  intros HE HP s rest fuel H Hf Hfu. change (tokens (Piped l r) 1) with (tokens l 0 ++ [Sym (ch "|")] ++ tokens r 1) in H.
  rewrite <-!app_assoc in H. destruct fuel as [|fuel]; [lia|]. unfold_grammar.
  destruct (HE [] s _ fuel H) as (c & s1 & -> & Ha & H1 & Hs1); [cbn; in_symbols|lia|]. ustep.
  pose proof (at_tokens _ _ H1) as Hlen. cbn [length app] in Hlen.
  rewrite (peek_sym s1 _ _ "|" H1) by done. ustep. rewrite (gettoken_at s1 _ _ H1). ustep.
  pose proof (at_skip _ _ _ H1) as H2. cbn [token_text length] in *.
  destruct (HP _ rest fuel H2 Hf) as (c2 & s2 & -> & Ha2 & H3 & Hs3); [lia|]. ustep.
  eexists _, s2. split; [done|]. split_and!; [by split|done|lia].
Qed.

Lemma bg_back t : back_ok t → back_ok (Bg t).
Proof.
  intros HB n s rest fuel H Hf Hfu. change (tokens (Bg t) 2) with (tokens t 2 ++ [Sym (ch "&")]) in H.
  rewrite <-app_assoc in H. destruct (HB (S n) s rest fuel H Hf Hfu) as (c1 & s1 & c & s' & E1 & E2 & Ha & H' & Hs).
  exists c1, s1, c, s'. split_and!; [done..| |done|done]. by rewrite Nat.iter_succ_r in Ha.
Qed.

Lemma seq_line l r : back_ok l → line_ok r → line_ok (Seq l r).
Proof.
  intros HB HL s rest fuel H Hf Hfu. change (tokens (Seq l r) 3) with (tokens l 2 ++ [Sym (ch ";")] ++ tokens r 3) in H.
  rewrite <-!app_assoc in H. destruct fuel as [|fuel]; [lia|]. unfold_grammar.
  destruct (HB 0%nat s _ fuel H) as (c1 & s0 & c & s1 & E1 & E2 & Ha & H1 & Hs1); [cbn; in_symbols|lia|].
  rewrite E1. ustep. rewrite E2. ustep. pose proof (at_tokens _ _ H1) as Hlen. cbn [length app] in Hlen.
  rewrite (peek_sym s1 _ _ ";" H1) by done. ustep. rewrite (gettoken_at s1 _ _ H1). ustep.
  pose proof (at_skip _ _ _ H1) as H2. cbn [token_text length] in *.
  destruct (HL _ rest fuel H2 Hf) as (c2 & s2 & -> & Ha2 & H3 & Hs3); [lia|]. ustep.
  eexists _, s2. split; [done|]. split_and!; [by split|done|lia].
Qed.

(** From the level of the constructor to the others. *)
Lemma levels_from_exec t :
  tokens t 1 = tokens t 0 → tokens t 2 = tokens t 1 → tokens t 3 = tokens t 2 → exec_ok t →
  exec_ok t ∧ pipe_ok t ∧ back_ok t ∧ line_ok t.
Proof.
  intros E1 E2 E3 E. pose proof (exec_to_pipe t E1 E) as P. pose proof (pipe_to_back t E2 P) as B.
  by pose proof (back_to_line t E3 B).
Qed.

Lemma levels_ok t : ast_ok t → exec_ok t ∧ pipe_ok t ∧ back_ok t ∧ line_ok t.
Proof.
  induction t as [args|t IH k f|l IHl r IHr|l IHl r IHr|t IH]; intros Hok.
  - by apply levels_from_exec; [done..|apply simple_exec].
  - destruct Hok as [Ht _]. apply levels_from_exec; [done..|]. by apply redirect_exec, IH.
  - destruct Hok as [Hl Hr]. destruct (IHl Hl) as (El & _). destruct (IHr Hr) as (_ & Pr & _).
    assert (P : pipe_ok (Piped l r)) by (by apply piped_pipe).
    assert (B : back_ok (Piped l r)) by (by apply pipe_to_back).
    assert (L : line_ok (Piped l r)) by (by apply back_to_line).
    split_and!; [by apply line_to_exec|done..].
  - destruct Hok as [Hl Hr]. destruct (IHl Hl) as (_ & _ & Bl & _). destruct (IHr Hr) as (_ & _ & _ & Lr).
    assert (L : line_ok (Seq l r)) by (by apply seq_line).
    assert (E : exec_ok (Seq l r)) by (by apply line_to_exec).
    assert (P : pipe_ok (Seq l r)) by (by apply exec_to_pipe).
    split_and!; [done|done|by apply pipe_to_back|done].
  - destruct (IH Hok) as (_ & _ & Bt & _). assert (B : back_ok (Bg t)) by (by apply bg_back).
    assert (L : line_ok (Bg t)) by (by apply back_to_line).
    assert (E : exec_ok (Bg t)) by (by apply line_to_exec).
    split_and!; [done|by apply exec_to_pipe|done|done].
Qed.

End Reading.

(** ** Round trip *)

Lemma tokens_ok t level : ast_ok t → Forall token_ok (tokens t level).
Proof.
  assert (Hp : ∀ l, Forall token_ok l → Forall token_ok (paren l)).
  { intros l Hl. unfold paren. apply Forall_app. split; [by repeat constructor|]. apply Forall_app.
    split; [done|by repeat constructor]. }
  revert level. induction t as [args|t IH k f|l IHl r IHr|l IHl r IHr|t IH]; intros level; cbn [ast_ok tokens].
  - intros [Hw _]. by apply Forall_fmap.
  - intros [Ht Hf]. apply Forall_app. split; [auto|]. constructor; [done|]. by apply Forall_singleton.
  - intros [Hl Hr]. assert (Forall token_ok (tokens l 0 ++ [Sym (ch "|")] ++ tokens r 1)).
    { apply Forall_app. split; [auto|]. constructor; [done|auto]. }
    destruct (1 <=? level)%nat; auto.
  - intros [Hl Hr]. assert (Forall token_ok (tokens l 2 ++ [Sym (ch ";")] ++ tokens r 3)).
    { apply Forall_app. split; [auto|]. constructor; [done|auto]. }
    destruct (3 <=? level)%nat; auto.
  - intros Ht. assert (Forall token_ok (tokens t 2 ++ [Sym (ch "&")])).
    { apply Forall_app. split; [auto|]. by repeat constructor. }
    destruct (2 <=? level)%nat; auto.
Qed.

Lemma text_no_nul l : Forall token_ok l → no_nul (text l).
Proof.
  induction 1 as [|t l Ht _ IH]; [constructor|]. rewrite text_cons. apply Forall_app. split; [|by constructor].
  destruct t as [w|c|k]; cbn [token_text].
  - destruct Ht as [_ Hw]. eapply Forall_impl; [exact Hw|]. intros c Hc. by apply word_char_spec in Hc as [? _].
  - destruct (token_cons (Sym c) Ht) as (d & r & [= <- <-] & _ & ? & _). by constructor.
  - destruct k; no_percent.
Qed.

Lemma is_ast_ext w w' c t : (∀ x, x ∈ spans c → w x = w' x) → is_ast w c t → is_ast w' c t.
Proof.
  revert t. induction c as [argv|c IH f m d|l IHl r IHr|l IHl r IHr|c IH]; intros [] Hw; cbn [is_ast spans] in *; try done.
  - intros <-. apply list_fmap_ext. intros i x Hx. symmetry. apply Hw. by eapply list_elem_of_lookup_2.
  - intros (Hc & <- & Hm & Hd). split_and!; [|symmetry|done|done].
    + apply IH; [|done]. intros x Hx. apply Hw, elem_of_app. by left.
    + apply Hw, elem_of_app. right. left.
  - intros [Hl Hr]. split; [apply IHl|apply IHr]; try done; intros x Hx; apply Hw, elem_of_app; auto.
  - intros [Hl Hr]. split; [apply IHl|apply IHr]; try done; intros x Hx; apply Hw, elem_of_app; auto.
  - by apply IH.
Qed.

(** C19: every command can be written and is read back: for every command (with
    any nesting of pipes, lists, background commands and redirections, and at
    most 9 arguments each) [parsecmd] on its printed line returns that command,
    and the strings in it, as the programs will see them, are its words. *)
Theorem print_parse_roundtrip t after fuel :
  ast_ok t → Z.of_nat (length (print_cmd t)) < 2 ^ 32 → (4 * length (print_cmd t) + 4 ≤ fuel)%nat →
  ∃ c b, parsecmd fuel (print_cmd t ++ 0 :: after) = Ret (c, b) ∧ is_ast (string_at b) c t.
Proof.
  intros Hok Hl Hf. set (line := print_cmd t) in *. pose proof (tokens_ok t 3 Hok) as Htok.
  assert (Hn : no_nul line) by by apply text_no_nul.
  assert (H0 : at_ line 0 (tokens t 3 ++ [])) by (rewrite app_nil_r; split_and!; [lia|done|done]).
  destruct (levels_ok line after t Hok) as (_ & _ & _ & HL).
  destruct (HL 0%nat [] fuel H0 I) as (c & s & E & Ha & H1 & _); [lia|].
  assert (Hc : cmd_ok line after c).
  { pose proof (proj1 (parse_ok line after Hn fuel) 0%nat ltac:(lia) ltac:(lia)) as H. rewrite E in H. by destruct H. }
  unfold parsecmd. rewrite strlen_str by done. ustep. rewrite Nat2Z.id, E. ustep.
  rewrite (peek_at line after s [] "" H1). ustep.
  rewrite (at_nil line s H1), Nat.eqb_refl. cbn [negb]. rewrite nulterminate_zeros.
  destruct (put_zeros_ok line after (spans c) _ (spans_ok line after c Hc) (zeroed_buf line after)) as (b & -> & Z & _ & Hz).
  ustep. exists c, b. split; [done|]. apply is_ast_ext with (2 := Ha). intros x Hx. symmetry.
  apply (string_at_zeroed line after Hn); [done| |by apply Hz].
  by apply (proj1 (Forall_forall _ _) (spans_ok line after c Hc)).
Qed.

Definition demo_ast : ast :=
  Seq (Bg (Piped (Redirect (Simple [chars "cat"; chars "-n"]) RIn (chars "in")) (Seq (Simple [chars "wc"]) (Simple []))))
    (Redirect (Piped (Simple [chars "a"]) (Simple [chars "b"])) RAppend (chars "out")).

Lemma print_parse_roundtrip_witness : ∃ c b,
  parsecmd 250 (print_cmd demo_ast ++ 0 :: [1; 2]) = Ret (c, b) ∧ is_ast (string_at b) c demo_ast.
Proof.
  apply (print_parse_roundtrip demo_ast [1; 2] 250); [|vm_compute; reflexivity|vm_compute; lia].
  unfold demo_ast. cbn [ast_ok]. unfold word_ok. split_and!; try discriminate; try (simpl; unfold MAXARGS; lia);
    apply (bool_decide_eq_true_1 _); vm_compute; reflexivity.
Defined.
