(* ===== verification/ShRun.v ===== *)
(** * Running commands ([runcmd] of [user/sh.c])

    The processes that a command makes and the descriptors they have when they
    start a program or wait for their children: [runcmd] against a plan of the
    command that knows nothing of [fork], [dup] and [close]. *)

From Stdlib Require Import Ascii.
From S2P Require Import Prelude Cstring State Sysfile User Ulib Uprintf Uprogs Sh ShFacts.

(** ** Descriptor tables *)

(** What a descriptor refers to. *)
Variant object : Type :=
| Inherited (i : nat)
| Opened (path : list Z) (mode : Z)
| PipeRead (id : nat)
| PipeWrite (id : nat).

(** The table of a process, with [NOFILE] entries. *)
Definition fdtable : Type := list (option object).

(** The lowest free descriptor. *)
Fixpoint lowest (t : fdtable) : option nat :=
  match t with
  | [] => None
  | None :: _ => Some O
  | Some _ :: t => S <$> lowest t
  end.

Definition alloc_fd (o : object) (t : fdtable) : Z * fdtable :=
  match lowest t with Some i => (Z.of_nat i, <[i:=Some o]> t) | None => (-1, t) end.

Definition close_fd (fd : Z) (t : fdtable) : Z * fdtable :=
  match t !! Z.to_nat fd with
  | Some (Some _) => if fd <? 0 then (-1, t) else (0, <[Z.to_nat fd:=None]> t)
  | _ => (-1, t)
  end.

Definition dup_fd (fd : Z) (t : fdtable) : Z * fdtable :=
  match t !! Z.to_nat fd with
  | Some (Some o) => if fd <? 0 then (-1, t) else alloc_fd o t
  | _ => (-1, t)
  end.

Definition pipe_fds (id : nat) (t : fdtable) : Z * (Z * Z) * fdtable :=
  let '(fd0, t0) := alloc_fd (PipeRead id) t in
  let '(fd1, t1) := alloc_fd (PipeWrite id) t0 in
  if (fd0 <? 0) || (fd1 <? 0) then (-1, (0, 0), t) else (0, (fd0, fd1), t1).

(** ** The processes of a program *)

(** What the processes do, with the descriptors they have then: start a program,
    or wait for a child. *)
Variant event : Type :=
| Starts (path : list Z) (argv : list (list Z)) (t : fdtable)
| Waits (t : fdtable).

(** Every process that the program makes, when its system calls succeed ([exec]
    does not return then): the events of the child of a [fork] are put before
    the rest of those of its parent.  [n] is the name of the next pipe. *)
Fixpoint events {A : Type} (p : uprog A) (t : fdtable) (n : nat) : list event * nat :=
  match p with
  | Call c k =>
      match c in sys R return (R → uprog A) → list event * nat with
      | Fork => λ k,
          let '(l1, n1) := events (k 0) t n in
          let '(l2, n2) := events (k 1) t n1 in
          (l1 ++ l2, n2)
      | Wait => λ k, let '(l, n') := events (k (1, 0)) t n in (Waits t :: l, n')
      | Exec path argv => λ _, ([Starts path argv t], n)
      | Open path mode => λ k, events (k (alloc_fd (Opened path mode) t).1) (alloc_fd (Opened path mode) t).2 n
      | Close fd => λ k, events (k (close_fd fd t).1) (close_fd fd t).2 n
      | Dup fd => λ k, events (k (dup_fd fd t).1) (dup_fd fd t).2 n
      | Pipe => λ k, events (k (pipe_fds n t).1) (pipe_fds n t).2 (S n)
      | Write fd bs => λ k, events (k (Z.of_nat (length bs))) t n
      | _ => λ _, ([], n)
      end k
  | _ => ([], n)
  end.

(** ** The plan of a command *)

(** The standard input, output and error. *)
Record stdio : Type := mk_stdio { s_in : object; s_out : object; s_err : object }.

(** Only these are open. *)
Definition table (x : stdio) : fdtable :=
  [Some x.(s_in); Some x.(s_out); Some x.(s_err)] ++ replicate (NOFILE - 3) None.

Definition set_in (o : object) (x : stdio) : stdio := mk_stdio o x.(s_out) x.(s_err).
Definition set_out (o : object) (x : stdio) : stdio := mk_stdio x.(s_in) o x.(s_err).

Fixpoint plan (buf : list Z) (c : cmd) (x : stdio) (n : nat) : list event * nat :=
  match c with
  | EXEC [] => ([], n)
  | EXEC ((arg :: _) as argv) => ([Starts (string_at buf arg) (string_at buf <$> argv) (table x)], n)
  | REDIR c file mode fd =>
      plan buf c ((if fd =? 0 then set_in else set_out) (Opened (string_at buf file) mode) x) n
  | PIPE l r =>
      let '(l1, n1) := plan buf l (set_out (PipeWrite n) x) (S n) in
      let '(l2, n2) := plan buf r (set_in (PipeRead n) x) n1 in
      (l1 ++ l2 ++ [Waits (table x); Waits (table x)], n2)
  | LIST l r =>
      let '(l1, n1) := plan buf l x n in
      let '(l2, n2) := plan buf r x n1 in
      (l1 ++ Waits (table x) :: l2, n2)
  | BACK c => plan buf c x n
  end.

(** Redirections are of the standard input or output. *)
Fixpoint std_redirs (c : cmd) : Prop :=
  match c with
  | EXEC _ => True
  | REDIR c _ _ fd => (fd = 0 ∨ fd = 1) ∧ std_redirs c
  | PIPE l r | LIST l r => std_redirs l ∧ std_redirs r
  | BACK c => std_redirs c
  end.

(** ** [runcmd] does not return *)

Fixpoint never {A} (p : uprog A) : Prop :=
  match p with Ret _ => False | Call c k => ∀ r, never (k r) | _ => True end.

Lemma never_bind {A B} (m : uprog A) (f : A → uprog B) : (∀ a, never (f a)) → never (m ≫= f).
Proof. intros Hf. induction m as [a|s|R c k IH| |]; simpl; auto. Qed.

Lemma runcmd_never buf c : never (runcmd buf c).
Proof.
  destruct c as [[|arg argv]|c f m d|l r|l r|c]; cbn [runcmd]; [done|..];
    repeat (apply never_bind; intros ?); try done.
  - destruct (_ <? 0); repeat (apply never_bind; intros ?); done.
  - destruct a as [res [p0 p1]]. destruct (res <? 0); repeat (apply never_bind; intros ?); done.
Qed.

Lemma events_never {A B} (m : uprog A) (f : A → uprog B) t n : never m → events (m ≫= f) t n = events m t n.
Proof.
  revert t n. induction m as [a|s|R c k IH| |]; intros t n Hm; simpl in *; try done.
  destruct c; simpl; try done; try apply IH, Hm.
  - unfold mbind in IH. rewrite IH by auto. destruct (events (k 0) t n) as [l1 n1]. by rewrite IH.
  - unfold mbind in IH. by rewrite IH.
Qed.

Lemma events_runcmd buf c k t n : events (runcmd buf c;; k : uprog unit) t n = events (runcmd buf c) t n.
Proof. apply events_never, runcmd_never. Qed.

(** ** [runcmd] carries out the plan *)

Lemma events_close {A} fd (k : uprog A) t n : events (call (Close fd);; k) t n = events k (close_fd fd t).2 n.
Proof. done. Qed.

Lemma events_dup {A} fd (k : uprog A) t n : events (call (Dup fd);; k) t n = events k (dup_fd fd t).2 n.
Proof. done. Qed.

Lemma events_wait {A} (k : uprog A) t n :
  events (call Wait;; k) t n = (Waits t :: (events k t n).1, (events k t n).2).
Proof. simpl. by destruct (events k t n). Qed.

(** A [fork] whose child runs [child] and does not return. *)
Lemma events_fork (child k : uprog unit) t n :
  never child →
  events (pid ← fork1; (if pid =? 0 then child else mret tt);; k) t n =
    ((events child t n).1 ++ (events k t (events child t n).2).1, (events k t (events child t n).2).2).
Proof.
  intros Hc. change (events (pid ← fork1; (if pid =? 0 then child else mret tt);; k) t n) with
    (let '(l1, n1) := events (child ≫= λ _, k) t n in let '(l2, n2) := events k t n1 in (l1 ++ l2, n2)).
  rewrite events_never by done. destruct (events child t n) as [l1 n1]. cbn [fst snd]. by destruct (events k t n1).
Qed.

Lemma events_open {A} path mode (k : Z → uprog A) t n :
  events (call (Open path mode) ≫= k) t n =
    events (k (alloc_fd (Opened path mode) t).1) (alloc_fd (Opened path mode) t).2 n.
Proof. done. Qed.

(** The table of the shell between [pipe] and the closing of its ends. *)
Definition piped (n : nat) (x : stdio) : fdtable :=
  <[4%nat:=Some (PipeWrite n)]> (<[3%nat:=Some (PipeRead n)]> (table x)).

Lemma events_pipe {A} (k : Z * (Z * Z) → uprog A) x n :
  events (call Pipe ≫= k) (table x) n = events (k (0, (3, 4))) (piped n x) (S n).
Proof. done. Qed.

(** The descriptors of the three processes of a pipeline. *)
Lemma piped_left n x :
  (close_fd 4 (close_fd 3 (dup_fd 4 (close_fd 1 (piped n x)).2).2).2).2 = table (set_out (PipeWrite n) x).
Proof. done. Qed.

Lemma piped_right n x :
  (close_fd 4 (close_fd 3 (dup_fd 3 (close_fd 0 (piped n x)).2).2).2).2 = table (set_in (PipeRead n) x).
Proof. done. Qed.

Lemma piped_shell n x : (close_fd 4 (close_fd 3 (piped n x)).2).2 = table x.
Proof. done. Qed.

Lemma redirected d o x :
  d = 0 ∨ d = 1 →
  alloc_fd o (close_fd d (table x)).2 = (d, table ((if d =? 0 then set_in else set_out) o x)).
Proof. by intros [-> | ->]. Qed.

(** C24: Running a parsed command carries out its plan.  Every program the shell
    starts has exactly descriptors 0, 1 and 2 open, connected as the command says:
    a redirection to its file, the sides of a pipeline to the two ends of its pipe.
    No end of a pipe leaks into a program or is held by the shell while it waits,
    so a reader sees the end of its input when the writers are gone.  A list waits
    for its left side before it starts the right one; a background command is not
    waited for. *)
Theorem runcmd_plan buf c x n : std_redirs c → events (runcmd buf c) (table x) n = plan buf c x n.
Proof.
  revert x n. induction c as [argv|c IH f m d|l IHl r IHr|l IHl r IHr|c IH]; intros x n Hc.
  - by destruct argv.
  - destruct Hc as [Hd Hc]. cbn [runcmd plan]. rewrite events_close, events_open, redirected by done.
    cbn [fst snd]. rewrite (proj2 (Z.ltb_ge d 0)) by lia. rewrite events_runcmd. by apply IH.
  - destruct Hc as [Hl Hr]. cbn [runcmd plan]. rewrite events_pipe.
    cbn beta iota. change (0 <? 0) with false. cbn iota.
    rewrite events_fork by (repeat (apply never_bind; intros ?); apply runcmd_never).
    rewrite events_close, events_dup, !events_close, piped_left, IHl by done.
    destruct (plan buf l _ _) as [l1 n1]. cbn [fst snd].
    rewrite events_fork by (repeat (apply never_bind; intros ?); apply runcmd_never).
    rewrite events_close, events_dup, !events_close, piped_right, piped_shell, IHr by done.
    destruct (plan buf r _ _) as [l2 n2]. cbn [fst snd]. by rewrite !events_wait.
  - destruct Hc as [Hl Hr]. cbn [runcmd plan]. rewrite events_fork by apply runcmd_never.
    rewrite events_wait, events_runcmd, (IHl x n Hl). destruct (plan buf l x n) as [l1 n1]. cbn [fst snd].
    rewrite (IHr x n1 Hr). by destruct (plan buf r x n1).
  - cbn [runcmd plan]. rewrite events_fork by apply runcmd_never. rewrite (IH x n Hc).
    destruct (plan buf c x n) as [l1 n1]. cbn. by rewrite app_nil_r.
Qed.

(** Every command [parsecmd] returns is such a one. *)
Lemma cmd_ok_std_redirs line after c : cmd_ok line after c → std_redirs c.
Proof.
  induction c as [argv|c IH f m d|l IHl r IHr|l IHl r IHr|c IH]; cbn; [done| |tauto|tauto|done].
  intros (Hc & _ & Hm). split; [|by apply IH]. unfold redir_mode in Hm. tauto.
Qed.

Definition console_io : stdio := let c := Opened (chars "console") O_RDWR in mk_stdio c c c.

(** [cat < a | wc], as parsed from that line. *)
Lemma runcmd_plan_witness :
  let buf := chars "cat" ++ 0 :: chars "< a" ++ 0 :: chars "| wc" ++ [0] in
  events (runcmd buf (PIPE (REDIR (EXEC [(0, 3)]) (6, 7) O_RDONLY 0) (EXEC [(10, 12)]))%nat) (table console_io) 0 =
    ([Starts (chars "cat") [chars "cat"]
        (table (mk_stdio (Opened (chars "a") O_RDONLY) (PipeWrite 0) console_io.(s_err)));
      Starts (chars "wc") [chars "wc"] (table (mk_stdio (PipeRead 0) console_io.(s_out) console_io.(s_err)));
      Waits (table console_io); Waits (table console_io)], 1%nat).
Proof. intros buf. rewrite runcmd_plan; [vm_compute; reflexivity|simpl; auto]. Defined.
