(* ===== verification/Mkfs.v ===== *)
(** * The builder of the disk image ([mkfs/mkfs.c])

    [mkfs] runs on the host and writes the file-system image that the kernel
    boots from.  The image file is the list of its blocks: every access of the
    program is of one whole block.  The host is a parameter: its byte order, the
    files it can open with what successive [read]s of them return, and how many
    blocks it lets the image have.  [die] and a failed [assert] are [Panic]. *)

From Stdlib Require Import Ascii.
From S2P Require Import Ulib Prelude State Cstring Bio Fs.

Class Host : Type := mk_host {
  big_endian : bool;
  host_files : list Z → option (list (list Z));  (** [open(path, 0)] and its [read]s *)
  img_opens : bool;  (** [open] of the image succeeds *)
  img_room : nat  (** a [write] beyond this many blocks fails *)
}.

(** The globals of the program; [m_sb] holds the words as the host reads them. *)
Record mkfs : Type := mk_mkfs {
  m_img : list (list Z);
  m_sb : superblock;
  m_freeinode : Z;
  m_freeblock : Z;
  m_out : list (string * list Z)  (** what was printed: format and arguments *)
}.

Definition set_img (v : list (list Z)) (m : mkfs) : mkfs :=
  mk_mkfs v m.(m_sb) m.(m_freeinode) m.(m_freeblock) m.(m_out).
Definition set_sb (v : superblock) (m : mkfs) : mkfs :=
  mk_mkfs m.(m_img) v m.(m_freeinode) m.(m_freeblock) m.(m_out).
Definition set_freeinode (v : Z) (m : mkfs) : mkfs := mk_mkfs m.(m_img) m.(m_sb) v m.(m_freeblock) m.(m_out).
Definition set_freeblock (v : Z) (m : mkfs) : mkfs := mk_mkfs m.(m_img) m.(m_sb) m.(m_freeinode) v m.(m_out).
Definition set_out (v : list (string * list Z)) (m : mkfs) : mkfs :=
  mk_mkfs m.(m_img) m.(m_sb) m.(m_freeinode) m.(m_freeblock) v.

Definition NINODES : Z := 200.
Definition nbitmap : Z := FSSIZE / (BSIZE * 8) + 1.
Definition ninodeblocks : Z := NINODES / IPB + 1.
Definition nlog : Z := LOGSIZE.
Definition zeroes : list Z := replicate (Z.to_nat BSIZE) 0.

(** [struct dinode], with its words as the host reads them *)
Record dinode : Type := mk_dinode {
  d_type : Z; d_major : Z; d_minor : Z; d_nlink : Z; d_size : Z; d_addrs : list Z
}.
Definition set_d_size (v : Z) (d : dinode) : dinode :=
  mk_dinode d.(d_type) d.(d_major) d.(d_minor) d.(d_nlink) v d.(d_addrs).
Definition set_d_addr (k : nat) (v : Z) (d : dinode) : dinode :=
  mk_dinode d.(d_type) d.(d_major) d.(d_minor) d.(d_nlink) d.(d_size) (<[k:=v]> d.(d_addrs)).

Definition assert (c : bool) : M mkfs unit := if c then mret tt else panic "assert".
Definition die {A} (s : string) : M mkfs A := panic s.
Definition print (fmt : string) (args : list Z) : M mkfs unit :=
  modify (λ m, set_out (m.(m_out) ++ [(fmt, args)]) m).

Section Mkfs.
Context {HO : Host}.

(** ** Words of the host *)

(** The word of the host whose bytes in memory are these, and the bytes of a word. *)
Definition host_value (bs : list Z) : Z := of_le (if big_endian then reverse bs else bs).
Definition host_bytes (n : nat) (v : Z) : list Z :=
  if big_endian then reverse (le_bytes n v) else le_bytes n v.
Definition host_get (n off : nat) (bs : list Z) : Z := host_value (take n (drop off bs)).

Definition xshort (x : Z) : Z := host_value [u8 x; u8 (Z.shiftr x 8)].
Definition xint (x : Z) : Z :=
  host_value [u8 x; u8 (Z.shiftr x 8); u8 (Z.shiftr x 16); u8 (Z.shiftr x 24)].

Definition sb_bytes (sb : superblock) : list Z :=
  mjoin (host_bytes 4 <$> [sb.(sb_magic); sb.(sb_size); sb.(sb_nblocks); sb.(sb_ninodes); sb.(sb_nlog);
    sb.(sb_logstart); sb.(sb_inodestart); sb.(sb_bmapstart)]).

Definition dinode_get (o : nat) (d : list Z) : dinode :=
  mk_dinode (host_get 2 o d) (host_get 2 (o + 2) d) (host_get 2 (o + 4) d) (host_get 2 (o + 6) d)
    (host_get 4 (o + 8) d) ((λ k, host_get 4 (o + 12 + 4 * k) d) <$> seq 0 (S NDIRECT)).

Definition dinode_put (ip : dinode) : list Z :=
  host_bytes 2 ip.(d_type) ++ host_bytes 2 ip.(d_major) ++ host_bytes 2 ip.(d_minor) ++
  host_bytes 2 ip.(d_nlink) ++ host_bytes 4 ip.(d_size) ++ mjoin (host_bytes 4 <$> ip.(d_addrs)).

(** ** Sectors *)

(** The block that [lseek(fsfd, sec * BSIZE, 0)] moves to; the product is a [uint]. *)
Definition seek (sec : Z) : nat := Z.to_nat (u32 (sec * BSIZE) / BSIZE).

(** A block written beyond the end of the file leaves a hole of zeros. *)
Definition write_block (k : nat) (buf : list Z) (img : list (list Z)) : list (list Z) :=
  if (k <? length img)%nat then <[k:=buf]> img
  else img ++ replicate (k - length img) zeroes ++ [buf].

Definition wsect (sec : Z) (buf : list Z) : M mkfs unit :=
  if (img_room <=? seek sec)%nat then die "write" else
  modify (λ m, set_img (write_block (seek sec) buf m.(m_img)) m).

(** A [read] at the end of the file returns 0. *)
Definition rsect (sec : Z) : M mkfs (list Z) :=
  img ← gets m_img;
  match img !! seek sec with Some b => mret b | None => die "read" end.

(** ** Inodes *)

Definition winode (inum : Z) (ip : dinode) : M mkfs unit :=
  sb ← gets m_sb;
  let bn := IBLOCK inum sb in
  buf ← rsect bn;
  wsect bn (splice (dinode_off inum) (dinode_put ip) buf).

Definition rinode (inum : Z) : M mkfs dinode :=
  sb ← gets m_sb;
  buf ← rsect (IBLOCK inum sb);
  mret (dinode_get (dinode_off inum) buf).

Definition ialloc (type : Z) : M mkfs Z :=
  inum ← gets m_freeinode;
  modify (set_freeinode (u32 (inum + 1)));;
  winode inum (mk_dinode (xshort type) 0 0 (xshort 1) (xint 0) (replicate (S NDIRECT) 0));;
  mret inum.

(** ** The bitmap *)

(** [used] is an [int]; the bits of the loop are within [buf] by the assertion. *)
Definition balloc (used : Z) : M mkfs unit :=
  print "balloc: first %d blocks have been allocated\n" [used];;
  assert (used <? BSIZE * 8);;
  let buf := foldl (λ buf i, bit_set (Z.of_nat i) buf) zeroes (seq 0 (Z.to_nat used)) in
  sb ← gets m_sb;
  print "balloc: write bitmap block at sector %d\n" [sb.(sb_bmapstart)];;
  wsect sb.(sb_bmapstart) buf.

(** ** Appending to a file *)

(** [freeblock++] *)
Definition take_free : M mkfs Z :=
  b ← gets m_freeblock;
  modify (set_freeblock (u32 (b + 1)));;
  mret b.

(** The block of the file, allocated when it has none. *)
Definition file_block (din : dinode) (fbn : nat) : M mkfs (dinode * Z) :=
  if (fbn <? NDIRECT)%nat then
    a ← opt_or_fault (din.(d_addrs) !! fbn);
    if xint a =? 0 then b ← take_free; mret (set_d_addr fbn (xint b) din, xint (xint b))
    else mret (din, xint a)
  else
    a ← opt_or_fault (din.(d_addrs) !! NDIRECT);
    din ← (if xint a =? 0 then b ← take_free; mret (set_d_addr NDIRECT (xint b) din) else mret din);
    a ← opt_or_fault (din.(d_addrs) !! NDIRECT);
    indirect ← rsect (xint a);
    let k := (4 * (fbn - NDIRECT))%nat in
    if host_get 4 k indirect =? 0 then
      b ← take_free;
      let indirect := splice k (host_bytes 4 (xint b)) indirect in
      wsect (xint a) indirect;;
      mret (din, xint (host_get 4 k indirect))
    else mret (din, xint (host_get 4 k indirect)).

Definition iappend_body (x : dinode * Z * list Z) : M mkfs (dinode * Z * list Z + dinode * Z) :=
  let '(din, off, p) := x in
  let n := Z.of_nat (length p) in
  if 0 <? n then
    let fbn := off / BSIZE in
    assert (fbn <? MAXFILE);;
    '(din, x) ← file_block din (Z.to_nat fbn);
    let n1 := Z.min n (u32 ((fbn + 1) * BSIZE - off)) in
    buf ← rsect x;
    wsect x (splice (Z.to_nat (off - fbn * BSIZE)) (take (Z.to_nat n1) p) buf);;
    mret (inl (din, u32 (off + n1), drop (Z.to_nat n1) p))
  else mret (inr (din, off)).

Definition iappend (inum : Z) (p : list Z) : M mkfs unit :=
  din ← rinode inum;
  '(din, off) ← loop (S (length p)) iappend_body (din, xint din.(d_size), p);
  winode inum (set_d_size (xint off) din).

(** ** [main] *)

(** A [struct dirent] that was zeroed and given a number and a name *)
Definition dirent (inum : Z) (name : list Z) : list Z :=
  host_bytes 2 inum ++ take DIRSIZ (name ++ replicate DIRSIZ 0).

(** The name in the image: without the directory and the leading underscore. *)
Definition strip_dir (arg : list Z) : list Z :=
  if bool_decide (take 5 arg = chars "user/") then drop 5 arg else arg.
Definition strip_underscore (name : list Z) : list Z :=
  if bool_decide (head name = Some (ch "_")) then drop 1 name else name.

Definition add_file (rootino : Z) (arg : list Z) : M mkfs unit :=
  let shortname := strip_dir arg in
  assert (bool_decide (ch "/" ∉ shortname));;
  match host_files arg with
  | None => die "open"
  | Some chunks =>
      let shortname := strip_underscore shortname in
      inum ← ialloc T_FILE;
      iappend rootino (dirent (xshort inum) shortname);;
      for_each chunks (iappend inum)
  end.

(** The size of the root directory, up to the end of its last block. *)
Definition fix_root (rootino : Z) : M mkfs unit :=
  din ← rinode rootino;
  let off := xint din.(d_size) in
  let off := u32 ((off / BSIZE + 1) * BSIZE) in
  winode rootino (set_d_size (xint off) din).

(** The value is the exit status. *)
Definition main (argv : list (list Z)) : M mkfs Z :=
  if (length argv <? 2)%nat then print "Usage: mkfs fs.img files...\n" [];; mret 1 else
  assert (BSIZE mod Z.of_nat dinode_size =? 0);;
  assert (BSIZE mod dirent_size =? 0);;
  if negb img_opens then die "open" else
  modify (set_img []);;
  let nmeta := 2 + nlog + ninodeblocks + nbitmap in
  let nblocks := FSSIZE - nmeta in
  modify (set_sb (mk_superblock FSMAGIC (xint FSSIZE) (xint nblocks) (xint NINODES) (xint nlog)
    (xint 2) (xint (2 + nlog)) (xint (2 + nlog + ninodeblocks))));;
  print "nmeta %d (boot, super, log blocks %u inode blocks %u, bitmap blocks %u) blocks %d total %d\n"
    [nmeta; nlog; ninodeblocks; nbitmap; nblocks; FSSIZE];;
  modify (set_freeblock nmeta);;
  for_each (Z.of_nat <$> seq 0 (Z.to_nat FSSIZE)) (λ i, wsect i zeroes);;
  sb ← gets m_sb;
  wsect 1 (splice 0 (sb_bytes sb) zeroes);;
  rootino ← ialloc T_DIR;
  assert (rootino =? ROOTINO);;
  iappend rootino (dirent (xshort rootino) (chars "."));;
  iappend rootino (dirent (xshort rootino) (chars ".."));;
  for_each (drop 2 argv) (add_file rootino);;
  fix_root rootino;;
  freeblock ← gets m_freeblock;
  balloc (s32 freeblock);;
  mret 0.
End Mkfs.

(** The program before [main]. *)
Definition mkfs_start : mkfs := mk_mkfs [] (mk_superblock 0 0 0 0 0 0 0 0) 1 0 [].
