(* ===== verification/MkfsFacts.v ===== *)
(** * The image that [mkfs] writes ([mkfs/mkfs.c])

    On a little-endian host with room for the image, [mkfs] writes a file system
    that holds exactly the given files, as the kernel's decoding of the super
    block, the inodes and the bitmap reads them. *)

From Stdlib Require Import Ascii.
From S2P Require Import Ulib Prelude State Cstring Bio Fs FsFacts InodeFacts Mkfs.

Section Words.
Context {HO : Host} (Hle : big_endian = false).

Lemma host_value_le bs : host_value bs = of_le bs.
Proof. unfold host_value. by rewrite Hle. Qed.

Lemma host_bytes_le n v : host_bytes n v = le_bytes n v.
Proof. unfold host_bytes. by rewrite Hle. Qed.

Lemma host_get_le n off bs : host_get n off bs = get_le n off bs.
Proof. apply host_value_le. Qed.

Lemma xint_id x : 0 ≤ x < 2 ^ 32 → xint x = x.
Proof.
  intros H. unfold xint. rewrite host_value_le. cbn [of_le]. unfold u8. rewrite !Z.shiftr_div_pow2 by lia. lia.
Qed.

Lemma xshort_id x : 0 ≤ x < 2 ^ 16 → xshort x = x.
Proof. intros H. unfold xshort. rewrite host_value_le. cbn [of_le]. unfold u8. rewrite !Z.shiftr_div_pow2 by lia. lia. Qed.

(** The fields are in the range of their types. *)
Record dinode_ok (x : dinode) : Prop := {
  do_type : 0 ≤ x.(d_type) < 2 ^ 16;
  do_major : 0 ≤ x.(d_major) < 2 ^ 16;
  do_minor : 0 ≤ x.(d_minor) < 2 ^ 16;
  do_nlink : 0 ≤ x.(d_nlink) < 2 ^ 16;
  do_size : 0 ≤ x.(d_size) < 2 ^ 32;
  do_addrs : length x.(d_addrs) = S NDIRECT;
  do_addr a : a ∈ x.(d_addrs) → 0 ≤ a < 2 ^ 32
}.

Lemma dinode_put_le ip :
  dinode_put ip = le_bytes 2 ip.(d_type) ++ le_bytes 2 ip.(d_major) ++ le_bytes 2 ip.(d_minor) ++
    le_bytes 2 ip.(d_nlink) ++ le_bytes 4 ip.(d_size) ++ words ip.(d_addrs).
Proof.
  unfold dinode_put, words. rewrite !host_bytes_le. do 5 f_equal. f_equal.
  apply list_fmap_ext. intros. apply host_bytes_le.
Qed.

Lemma length_dinode_put ip : dinode_ok ip → length (dinode_put ip) = dinode_size.
Proof. intros H. rewrite dinode_put_le, !length_app, length_words, !length_le_bytes, (do_addrs _ H). done. Qed.

Lemma dinode_get_ext o o' d d' :
  (∀ n k, (k + n ≤ dinode_size)%nat → get_le n (o + k) d = get_le n (o' + k) d') → dinode_get o d = dinode_get o' d'.
Proof.
  intros H. unfold dinode_get. rewrite !host_get_le. f_equal; try (apply H; unfold dinode_size; lia).
  - rewrite <-(Nat.add_0_r o), <-(Nat.add_0_r o'). apply H. unfold dinode_size. lia.
  - apply list_fmap_ext. intros i k Hk. apply lookup_seq in Hk as [-> Hk]. rewrite !host_get_le, <-!Nat.add_assoc.
    apply H. unfold dinode_size, NDIRECT in *. lia.
Qed.

Lemma dinode_get_bytes ip : dinode_ok ip → dinode_get 0 (dinode_put ip) = ip.
Proof.
  intros [H1 H2 H3 H4 H5 H6 H7]. rewrite dinode_put_le. unfold dinode_get. rewrite !host_get_le. cbn [Nat.add].
  destruct ip as [ty ma mi nl sz ad]. cbn [d_type d_major d_minor d_nlink d_size d_addrs] in *.
  f_equal; [field; by apply Z.mod_small..|].
  apply list_eq. intros k. rewrite list_lookup_fmap. destruct (decide (k < S NDIRECT)%nat) as [Hk|Hk].
  - rewrite lookup_seq_lt by done. cbn [fmap option_fmap option_map Nat.add]. rewrite host_get_le.
    destruct (lookup_lt_is_Some_2 ad k) as [a Ha]; [lia|]. rewrite Ha. f_equal.
    repeat (rewrite get_next by lia). replace (_ - 2 - 2 - 2 - 2 - 4)%nat with (4 * k)%nat by lia.
    rewrite (get_word _ _ _ Ha). apply Z.mod_small, H7. by eapply list_elem_of_lookup_2.
  - rewrite lookup_seq_ge by lia. symmetry. apply lookup_ge_None. lia.
Qed.

(** An inode written in its slot is read back, and the others of the block are kept. *)
Lemma dinode_get_put ip inum d :
  dinode_ok ip → length d = Z.to_nat BSIZE →
  dinode_get (dinode_off inum) (splice (dinode_off inum) (dinode_put ip) d) = ip.
Proof.
  intros H Hd. rewrite <-(dinode_get_bytes ip H) at 2. pose proof (dinode_off_bound inum).
  apply dinode_get_ext. intros n k Hk. apply get_le_in_splice; rewrite length_dinode_put by done; lia.
Qed.

Lemma dinode_get_other ip inum inum' d :
  dinode_ok ip → length d = Z.to_nat BSIZE → inum' mod IPB ≠ inum mod IPB →
  dinode_get (dinode_off inum') (splice (dinode_off inum) (dinode_put ip) d) = dinode_get (dinode_off inum') d.
Proof.
  intros H Hd Hne. pose proof (dinode_off_bound inum). apply dinode_get_ext. intros n k Hk.
  apply get_le_splice_other; rewrite length_dinode_put by done; [lia|].
  unfold dinode_off, dinode_size, IPB, BSIZE in *. lia.
Qed.
End Words.

(** ** Blocks of a file *)

(** Block [k] of a file with these bytes, filled up with zeros *)
Definition block_of (data : list Z) (k : nat) : list Z :=
  (λ j, default 0 (data !! Z.to_nat (BSIZE * Z.of_nat k + Z.of_nat j))) <$> seq 0 (Z.to_nat BSIZE).

Lemma length_block_of data k : length (block_of data k) = Z.to_nat BSIZE.
Proof. unfold block_of. by rewrite length_fmap, length_seq. Qed.

Lemma lookup_block_of data k j :
  (j < Z.to_nat BSIZE)%nat →
  block_of data k !! j = Some (default 0 (data !! Z.to_nat (BSIZE * Z.of_nat k + Z.of_nat j))).
Proof. intros Hj. unfold block_of. by rewrite list_lookup_fmap, lookup_seq_lt by done. Qed.

Lemma length_zeroes : length zeroes = Z.to_nat BSIZE.
Proof. apply length_replicate. Qed.

Lemma block_eq (b b' : list Z) :
  length b = Z.to_nat BSIZE → length b' = Z.to_nat BSIZE →
  (∀ j, (j < Z.to_nat BSIZE)%nat → b !! j = b' !! j) → b = b'.
Proof.
  intros H H' Hj. apply list_eq. intros j. destruct (decide (j < Z.to_nat BSIZE)%nat); [auto|].
  rewrite !lookup_ge_None_2; [done|lia..].
Qed.

Lemma block_of_zero data k : Z.of_nat (length data) ≤ BSIZE * Z.of_nat k → block_of data k = zeroes.
Proof.
  intros H. apply block_eq; [apply length_block_of|apply length_zeroes|]. intros j Hj.
  rewrite lookup_block_of, lookup_ge_None_2 by lia. symmetry. by apply lookup_replicate_2.
Qed.

Lemma block_of_app data q k :
  BSIZE * (Z.of_nat k + 1) ≤ Z.of_nat (length data) → block_of (data ++ q) k = block_of data k.
Proof.
  intros H. apply block_eq; [apply length_block_of..|]. intros j Hj.
  rewrite !lookup_block_of, lookup_app_l by lia. done.
Qed.

Lemma block_of_splice data q k :
  Z.of_nat (length data) / BSIZE = Z.of_nat k →
  Z.of_nat (length data) + Z.of_nat (length q) ≤ BSIZE * (Z.of_nat k + 1) →
  splice (Z.to_nat (Z.of_nat (length data) - Z.of_nat k * BSIZE)) q (block_of data k) = block_of (data ++ q) k.
Proof.
  intros Hk Hq. unfold BSIZE in *. assert (L := length_block_of data k). unfold BSIZE in L.
  apply block_eq; [by rewrite length_splice by lia|apply length_block_of|]. unfold BSIZE. intros j Hj.
  rewrite lookup_splice by lia. rewrite !lookup_block_of by (unfold BSIZE; lia). unfold BSIZE. case_decide as D.
  - rewrite lookup_app_r by lia. destruct (lookup_lt_is_Some_2 q (j - Z.to_nat (Z.of_nat (length data) - Z.of_nat k * 1024))) as [x Hx]; [lia|].
    rewrite Hx. symmetry. replace (_ - length data)%nat with (j - Z.to_nat (Z.of_nat (length data) - Z.of_nat k * 1024))%nat by lia.
    by rewrite Hx.
  - destruct (decide (Z.to_nat (1024 * Z.of_nat k + Z.of_nat j) < length data)%nat).
    + by rewrite lookup_app_l by done.
    + rewrite !lookup_ge_None_2; [done|rewrite length_app; lia|lia].
Qed.

(** How many blocks hold [n] bytes *)
Definition nblk (n : Z) : Z := (n + (BSIZE - 1)) / BSIZE.

(** The blocks of a file with its indirect block *)
Definition cost (n : Z) : Z := nblk n + (if Z.of_nat NDIRECT <? nblk n then 1 else 0).

Lemma cost_nblk n n' : nblk n ≤ nblk n' → cost n ≤ cost n'.
Proof.
  intros H. unfold cost.
  destruct (Z.ltb_spec (Z.of_nat NDIRECT) (nblk n)), (Z.ltb_spec (Z.of_nat NDIRECT) (nblk n')); lia.
Qed.

Lemma cost_mono n n' : n ≤ n' → cost n ≤ cost n'.
Proof. intros H. apply cost_nblk. unfold nblk, BSIZE. lia. Qed.

(** ** Files in the image *)

Abbreviation blk img b := (img !! Z.to_nat b).

(** A file: its type and contents, the blocks of the contents, and the indirect
    block when it has one. *)
Record gfile : Type := mk_gfile {
  g_type : Z; g_data : list Z; g_blocks : list Z; g_ind : list Z
}.

Definition owned (f : gfile) : list Z := f.(g_blocks) ++ f.(g_ind).
Definition g_size (f : gfile) : Z := Z.of_nat (length f.(g_data)).

Definition pad (n : nat) (l : list Z) : list Z := take n (l ++ replicate n 0).

Definition g_addrs (f : gfile) : list Z := pad NDIRECT f.(g_blocks) ++ pad 1 f.(g_ind).
Definition din (f : gfile) (size : Z) : dinode := mk_dinode f.(g_type) 0 0 1 size (g_addrs f).

Lemma length_pad n l : length (pad n l) = n.
Proof. unfold pad. rewrite length_take, length_app, length_replicate. lia. Qed.

Lemma lookup_pad n l k : (k < n)%nat → pad n l !! k = Some (default 0 (l !! k)).
Proof.
  intros Hk. unfold pad. rewrite lookup_take_lt by done. destruct (decide (k < length l)%nat) as [H|H].
  - rewrite lookup_app_l by done. by destruct (lookup_lt_is_Some_2 l k H) as [x ->].
  - rewrite lookup_app_r, (lookup_ge_None_2 l) by lia. apply lookup_replicate_2. lia.
Qed.

Lemma insert_pad n l x : (length l < n)%nat → <[length l := x]> (pad n l) = pad n (l ++ [x]).
Proof.
  intros H. apply list_eq. intros k. destruct (decide (k < n)%nat) as [Hk|Hk].
  - rewrite lookup_pad by done. destruct (decide (k = length l)) as [->|Hne].
    + rewrite list_lookup_insert_eq by (by rewrite length_pad). by rewrite list_lookup_middle.
    + rewrite list_lookup_insert_ne, lookup_pad by done. do 2 f_equal.
      destruct (decide (k < length l)%nat); [by rewrite lookup_app_l|].
      rewrite !lookup_ge_None_2; [done|rewrite length_app; simpl; lia|lia].
  - rewrite !lookup_ge_None_2; [done|rewrite length_pad; lia|rewrite length_insert, length_pad; lia].
Qed.

Lemma addrs_direct f k : (k < NDIRECT)%nat → g_addrs f !! k = Some (default 0 (f.(g_blocks) !! k)).
Proof. intros Hk. unfold g_addrs. rewrite lookup_app_l by (by rewrite length_pad). by apply lookup_pad. Qed.

Lemma addrs_ind f : g_addrs f !! NDIRECT = Some (default 0 (head f.(g_ind))).
Proof. unfold g_addrs. rewrite lookup_app_r, length_pad, Nat.sub_diag by (by rewrite length_pad). by destruct f.(g_ind). Qed.

Lemma din_direct f sz x :
  (length f.(g_blocks) < NDIRECT)%nat →
  set_d_addr (length f.(g_blocks)) x (din f sz) = din (mk_gfile f.(g_type) f.(g_data) (f.(g_blocks) ++ [x]) f.(g_ind)) sz.
Proof.
  intros H. unfold set_d_addr, din, g_addrs. cbn [d_type d_major d_minor d_nlink d_size d_addrs g_type g_blocks g_ind].
  by rewrite insert_app_l, insert_pad by (by rewrite ?length_pad).
Qed.

Lemma din_ind f sz x :
  f.(g_ind) = [] →
  set_d_addr NDIRECT x (din f sz) = din (mk_gfile f.(g_type) f.(g_data) f.(g_blocks) [x]) sz.
Proof.
  intros H. unfold set_d_addr, din, g_addrs. cbn [d_type d_major d_minor d_nlink d_size d_addrs g_type g_blocks g_ind].
  rewrite H. rewrite <-(Nat.add_0_r NDIRECT), <-(length_pad NDIRECT f.(g_blocks)) at 1. by rewrite insert_app_r.
Qed.

(** The indirect block *)
Lemma words_insert l k x : (k < length l)%nat → splice (4 * k) (le_bytes 4 x) (words l) = words (<[k:=x]> l).
Proof.
  revert k. induction l as [|a l IH]; intros k Hk; [simpl in Hk; lia|]. destruct k as [|k].
  - done.
  - cbn [insert list_insert]. rewrite !words_cons, <-IH by (simpl in Hk; lia). unfold splice.
    replace (4 * S k)%nat with (length (le_bytes 4 a) + 4 * k)%nat by (rewrite length_le_bytes; lia).
    rewrite take_app_add, <-Nat.add_assoc, drop_app_add. by rewrite <-app_assoc.
Qed.

Lemma table_get l k :
  (k < NINDIRECT)%nat → Forall (λ b, 0 ≤ b < 2 ^ 32) l → get_le 4 (4 * k) (words (pad NINDIRECT l)) = default 0 (l !! k).
Proof.
  intros Hk Hl. rewrite (get_word _ _ _ (lookup_pad _ _ _ Hk)). apply Z.mod_small.
  destruct (l !! k) eqn:E; [by apply (Forall_lookup_1 _ _ _ _ Hl E)|simpl; lia].
Qed.

Lemma table_put l x :
  (length l < NINDIRECT)%nat →
  splice (4 * length l) (le_bytes 4 x) (words (pad NINDIRECT l)) = words (pad NINDIRECT (l ++ [x])).
Proof. intros H. by rewrite words_insert, insert_pad by (by rewrite ?length_pad). Qed.

Lemma table_empty : words (pad NINDIRECT []) = zeroes.
Proof. vm_compute. reflexivity. Qed.

(** What holds of a file whatever its inode says: the image has its contents. *)
Record data_ok (img : list (list Z)) (f : gfile) : Prop := {
  fo_blocks : Z.of_nat (length f.(g_blocks)) = nblk (g_size f);
  fo_ind : length f.(g_ind) = if (NDIRECT <? length f.(g_blocks))%nat then 1%nat else 0%nat;
  fo_max : g_size f ≤ MAXFILE * BSIZE;
  fo_table x : x ∈ f.(g_ind) → blk img x = Some (words (pad NINDIRECT (drop NDIRECT f.(g_blocks))));
  fo_data k b : f.(g_blocks) !! k = Some b → blk img b = Some (block_of f.(g_data) k)
}.

(** The part of the image that a file may change: its blocks, and the free ones
    from [fb] up, which are zero. *)
Record room_ok (img : list (list Z)) (fb : Z) (f : gfile) : Prop := {
  ro_length : length img = Z.to_nat FSSIZE;
  ro_free b : fb ≤ b < FSSIZE → blk img b = Some zeroes;
  ro_nodup : NoDup (owned f);
  ro_owned b : b ∈ owned f → 46 ≤ b < fb;
  ro_fb : 46 ≤ fb ≤ FSSIZE
}.

Lemma data_ok_frame img img' f :
  data_ok img f → (∀ b, b ∈ owned f → blk img' b = blk img b) → data_ok img' f.
Proof.
  intros [H1 H2 H3 H4 H5] Hb. split; [done..| |].
  - intros x Hx. rewrite Hb by (apply elem_of_app; auto). auto.
  - intros k b Hk. rewrite Hb by (apply elem_of_app; left; by eapply list_elem_of_lookup_2). auto.
Qed.

(** ** Sectors *)

Section Sectors.
Context {HO : Host}.

Lemma seek_small b : 0 ≤ b < FSSIZE → seek b = Z.to_nat b.
Proof. unfold seek, u32, FSSIZE, BSIZE. intros H. f_equal. lia. Qed.

Lemma rsect_ok m b c : 0 ≤ b < FSSIZE → blk m.(m_img) b = Some c → rsect b m = Done c m.
Proof. intros Hb Hc. unfold rsect. by unfold mbind, M_bind, gets; cbn [obind]; rewrite seek_small, Hc. Qed.

Lemma blk_insert_same (img : list (list Z)) b c : 0 ≤ b < FSSIZE → length img = Z.to_nat FSSIZE → blk (<[Z.to_nat b:=c]> img) b = Some c.
Proof. intros Hb Hl. apply list_lookup_insert_eq. unfold FSSIZE in *. lia. Qed.

Lemma blk_insert_other (img : list (list Z)) b b' c : 0 ≤ b → 0 ≤ b' → b ≠ b' → blk (<[Z.to_nat b:=c]> img) b' = blk img b'.
Proof. intros Hb Hb' Hne. apply list_lookup_insert_ne. lia. Qed.
End Sectors.

Section Append.
Context {HO : Host} (Hle : big_endian = false) (Hroom : (Z.to_nat FSSIZE ≤ img_room)%nat).

Lemma wsect_ok m b c :
  0 ≤ b < FSSIZE → length m.(m_img) = Z.to_nat FSSIZE → wsect b c m = Done tt (set_img (<[Z.to_nat b:=c]> m.(m_img)) m).
Proof.
  intros Hb Hl. unfold wsect. rewrite seek_small by done. unfold FSSIZE in *.
  rewrite (proj2 (Nat.leb_gt _ _)) by lia. unfold modify, write_block. by rewrite (proj2 (Nat.ltb_lt _ _)) by lia.
Qed.

(** ** [file_block] *)

Lemma take_free_ok m : 0 ≤ m.(m_freeblock) < FSSIZE → take_free m = Done m.(m_freeblock) (set_freeblock (m.(m_freeblock) + 1) m).
Proof.
  intros H. unfold take_free, mbind, M_bind, gets, modify, mret, M_ret. cbn [obind]. do 2 f_equal.
  unfold u32, FSSIZE in *. lia.
Qed.

(** The file and the image after block [fbn] of the file was looked up, or
    allocated as its next one. *)
Record grown (img : list (list Z)) (fb : Z) (f : gfile) (fbn : nat) (img' : list (list Z)) (fb' : Z) (f' : gfile) (x : Z) : Prop := {
  gr_type : f'.(g_type) = f.(g_type);
  gr_data : f'.(g_data) = f.(g_data);
  gr_blocks : f'.(g_blocks) = take fbn f.(g_blocks) ++ [x];
  gr_read : blk img x = Some (block_of f.(g_data) fbn);
  gr_ind : length f'.(g_ind) = if (NDIRECT <? S fbn)%nat then 1%nat else 0%nat;
  gr_table y : y ∈ f'.(g_ind) → blk img' y = Some (words (pad NINDIRECT (drop NDIRECT f'.(g_blocks))));
  gr_owned : owned f' ≡ₚ owned f ++ seqZ fb (fb' - fb);
  gr_fb : fb' = fb + cost (BSIZE * (Z.of_nat fbn + 1)) - cost (g_size f);
  gr_frame b : 0 ≤ b → b ∉ f'.(g_ind) → blk img' b = blk img b;
  gr_length : length img' = length img
}.

Lemma set_same (m : mkfs) : set_img m.(m_img) (set_freeblock m.(m_freeblock) m) = m.
Proof. by destruct m. Qed.

Section Block.
Context (m : mkfs) (f : gfile) (sz : Z) (fbn : nat).
Context (Hf : data_ok m.(m_img) f) (Hr : room_ok m.(m_img) m.(m_freeblock) f).
Context (Hfbn : Z.of_nat fbn = g_size f / BSIZE) (Hmax : Z.of_nat fbn < MAXFILE).
Context (Hspace : m.(m_freeblock) + cost (BSIZE * (Z.of_nat fbn + 1)) - cost (g_size f) ≤ FSSIZE).

Lemma owned_range b : b ∈ owned f → 0 < b < FSSIZE.
Proof. intros Hb. pose proof (ro_owned _ _ _ Hr b Hb). pose proof (ro_fb _ _ _ Hr). lia. Qed.

Lemma blocks_range k b : f.(g_blocks) !! k = Some b → 0 < b < FSSIZE.
Proof. intros Hb. apply owned_range, elem_of_app. left. by eapply list_elem_of_lookup_2. Qed.

Lemma cost_block n : cost (BSIZE * Z.of_nat n) = Z.of_nat n + (if (NDIRECT <? n)%nat then 1 else 0).
Proof.
  unfold cost, nblk, NDIRECT, BSIZE. replace ((1024 * Z.of_nat n + (1024 - 1)) / 1024) with (Z.of_nat n) by lia.
  destruct (Z.ltb_spec (Z.of_nat 12) (Z.of_nat n)), (Nat.ltb_spec 12 n); lia.
Qed.

Lemma cost_file : cost (g_size f) = Z.of_nat (length f.(g_blocks)) + (if (NDIRECT <? length f.(g_blocks))%nat then 1 else 0).
Proof.
  rewrite <-cost_block. unfold cost. replace (nblk (BSIZE * _)) with (nblk (g_size f)); [done|].
  rewrite (fo_blocks _ _ Hf). unfold nblk, BSIZE. lia.
Qed.

Lemma xint_block x : 0 ≤ x < FSSIZE → xint x = x.
Proof. unfold FSSIZE. intros H. apply xint_id; [done|lia]. Qed.

Lemma addr_direct_ok s k :
  (k < NDIRECT)%nat → opt_or_fault ((din f sz).(d_addrs) !! k) s = Done (default 0 (f.(g_blocks) !! k)) (s : mkfs).
Proof. intros Hk. cbn [din d_addrs]. by rewrite addrs_direct. Qed.

Lemma addr_ind_ok s : opt_or_fault ((din f sz).(d_addrs) !! NDIRECT) s = Done (default 0 (head f.(g_ind))) (s : mkfs).
Proof. cbn [din d_addrs]. by rewrite addrs_ind. Qed.

(** A file of more blocks than the direct ones has an indirect block. *)
Lemma ind_exists : (NDIRECT < length f.(g_blocks))%nat → ∃ y, f.(g_ind) = [y] ∧ 0 < y < FSSIZE.
Proof.
  intros H. pose proof (fo_ind _ _ Hf) as L. rewrite (proj2 (Nat.ltb_lt _ _)) in L by lia.
  destruct f.(g_ind) as [|y [|]] eqn:E; try done. exists y. split; [done|].
  apply owned_range, elem_of_app. right. rewrite E. by left.
Qed.

Lemma table_range : Forall (λ b, 0 ≤ b < 2 ^ 32) (drop NDIRECT f.(g_blocks)).
Proof.
  apply Forall_forall. intros b Hb. destruct (owned_range b) as [H1 H2]; [|unfold FSSIZE in *; lia].
  apply elem_of_app. left. rewrite <-(take_drop NDIRECT f.(g_blocks)). apply elem_of_app. by right.
Qed.

(** A block the file has already *)
Lemma file_block_old x :
  f.(g_blocks) !! fbn = Some x → file_block (din f sz) fbn m = Done (din f sz, x) m.
Proof.
  intros Hx. pose proof (blocks_range _ _ Hx) as Rx. unfold file_block.
  destruct (Nat.ltb_spec fbn NDIRECT) as [Hd|Hd].
  - rewrite (bind_Done _ _ _ _ _ (addr_direct_ok m fbn Hd)), Hx. cbn [default from_option id].
    rewrite xint_block, (proj2 (Z.eqb_neq x 0)) by lia. done.
  - destruct ind_exists as (y & Hy & Ry). { apply lookup_lt_Some in Hx. lia. }
    rewrite (bind_Done _ _ _ _ _ (addr_ind_ok m)), Hy. cbn [default from_option id head].
    rewrite xint_block, (proj2 (Z.eqb_neq y 0)) by lia.
    rewrite (bind_Done (mret (din f sz)) _ m (din f sz) m eq_refl).
    rewrite (bind_Done _ _ _ _ _ (addr_ind_ok m)), Hy. cbn [default from_option id head]. rewrite xint_block by lia.
    assert (Ey : y ∈ f.(g_ind)) by (rewrite Hy; by left).
    rewrite (bind_Done _ _ _ _ _ (rsect_ok m y _ ltac:(lia) (fo_table _ _ Hf y Ey))).
    rewrite host_get_le, table_get, lookup_drop by (done || apply table_range || (unfold MAXFILE, NDIRECT, NINDIRECT in *; lia)).
    replace (NDIRECT + (fbn - NDIRECT))%nat with fbn by lia. rewrite Hx. cbn [default from_option id].
    by rewrite xint_block, (proj2 (Z.eqb_neq x 0)) by lia.
Qed.

Definition with_block (x : Z) (ind : list Z) : gfile := mk_gfile f.(g_type) f.(g_data) (f.(g_blocks) ++ [x]) ind.

Local Abbreviation fb := m.(m_freeblock).

(** The next block, among the direct ones *)
Lemma file_block_direct :
  length f.(g_blocks) = fbn → (fbn < NDIRECT)%nat → fb < FSSIZE →
  file_block (din f sz) fbn m = Done (din (with_block fb f.(g_ind)) sz, fb) (set_freeblock (fb + 1) m).
Proof.
  intros Hn Hd Hfb. pose proof (ro_fb _ _ _ Hr). unfold file_block. rewrite (proj2 (Nat.ltb_lt _ _)) by done.
  rewrite (bind_Done _ _ _ _ _ (addr_direct_ok m fbn Hd)), lookup_ge_None_2 by lia. cbn [default from_option].
  rewrite xint_block, Z.eqb_refl by (unfold FSSIZE; lia).
  rewrite (bind_Done _ _ _ _ _ (take_free_ok m ltac:(lia))), !xint_block by lia. rewrite <-Hn. by rewrite din_direct by lia.
Qed.

(** The next block is entered in the indirect block [y]. *)
Lemma enter_indirect s y l x :
  0 < y < FSSIZE → length s.(m_img) = Z.to_nat FSSIZE → blk s.(m_img) y = Some (words (pad NINDIRECT l)) →
  (length l < NINDIRECT)%nat → Forall (λ b, 0 ≤ b < 2 ^ 32) l → 0 ≤ s.(m_freeblock) < FSSIZE →
  (indirect ← rsect (xint y);
   if host_get 4 (4 * length l) indirect =? 0 then
     b ← take_free;
     let indirect := splice (4 * length l) (host_bytes 4 (xint b)) indirect in
     wsect (xint y) indirect;; mret (x, xint (host_get 4 (4 * length l) indirect))
   else mret (x, xint (host_get 4 (4 * length l) indirect))) s =
  Done (x : dinode, s.(m_freeblock))
    (set_img (<[Z.to_nat y := words (pad NINDIRECT (l ++ [s.(m_freeblock)]))]> s.(m_img)) (set_freeblock (s.(m_freeblock) + 1) s)).
Proof.
  intros Hy Hs Hb Hl Hf' Hfb. rewrite xint_block by lia. rewrite (bind_Done _ _ _ _ _ (rsect_ok s y _ ltac:(lia) Hb)).
  rewrite host_get_le, table_get, lookup_ge_None_2 by (done || lia). cbn [default from_option]. rewrite Z.eqb_refl.
  rewrite (bind_Done _ _ _ _ _ (take_free_ok s Hfb)). cbn zeta. rewrite (xint_block _ Hfb), host_bytes_le, table_put by done.
  erewrite (bind_Done (wsect _ _)) by (apply wsect_ok; [lia|exact Hs]). rewrite host_get_le by done.
  rewrite table_get, list_lookup_middle by
    (done || lia || (apply Forall_app; split; [done|]; constructor; [unfold FSSIZE in *; lia|constructor])).
  cbn [default from_option id]. by rewrite xint_block by lia.
Qed.

(** The first block beyond the direct ones *)
Lemma file_block_first :
  length f.(g_blocks) = fbn → fbn = NDIRECT → fb + 1 < FSSIZE →
  file_block (din f sz) fbn m = Done (din (with_block (fb + 1) [fb]) sz, fb + 1)
    (set_img (<[Z.to_nat fb := words (pad NINDIRECT [fb + 1])]> m.(m_img)) (set_freeblock (fb + 1 + 1) m)).
Proof.
  intros Hn Hd Hfb. pose proof (ro_fb _ _ _ Hr). unfold file_block. rewrite (proj2 (Nat.ltb_ge fbn NDIRECT)) by lia.
  assert (Hi : f.(g_ind) = []).
  { pose proof (fo_ind _ _ Hf) as L. rewrite Hn, Hd, Nat.ltb_irrefl in L. by destruct f.(g_ind). }
  rewrite (bind_Done _ _ _ _ _ (addr_ind_ok m)), Hi. cbn [default from_option head].
  rewrite xint_block, Z.eqb_refl by (unfold FSSIZE; lia).
  erewrite (bind_Done (take_free ≫= _)) by (rewrite (bind_Done _ _ _ _ _ (take_free_ok m ltac:(lia))); reflexivity).
  rewrite din_ind, xint_block by (done || lia). cbn [din d_addrs]. rewrite addrs_ind. cbn [g_ind head default from_option id].
  rewrite (bind_Done (opt_or_fault (Some fb)) _ _ fb _ eq_refl). rewrite Hd, Nat.sub_diag.
  rewrite (enter_indirect _ fb []); [|lia|apply (ro_length _ _ _ Hr)| |unfold NINDIRECT; simpl; lia|done|simpl; lia].
  - cbn [m_freeblock set_freeblock app]. do 2 f_equal. unfold din, with_block, g_addrs. cbn [g_type g_blocks g_ind]. f_equal.
    f_equal. unfold pad. rewrite <-app_assoc, !take_app_le, !take_ge by (rewrite ?Hn; lia). done.
  - rewrite table_empty. apply (ro_free _ _ _ Hr). lia.
Qed.

(** A later one *)
Lemma file_block_indirect y :
  length f.(g_blocks) = fbn → (NDIRECT < fbn)%nat → f.(g_ind) = [y] → 0 < y < FSSIZE → fb < FSSIZE →
  file_block (din f sz) fbn m = Done (din (with_block fb [y]) sz, fb)
    (set_img (<[Z.to_nat y := words (pad NINDIRECT (drop NDIRECT (f.(g_blocks) ++ [fb])))]> m.(m_img)) (set_freeblock (fb + 1) m)).
Proof.
  intros Hn Hd Hy Ry Hfb. pose proof (ro_fb _ _ _ Hr). unfold file_block. rewrite (proj2 (Nat.ltb_ge _ _)) by lia.
  rewrite (bind_Done _ _ _ _ _ (addr_ind_ok m)), Hy. cbn [default from_option id head].
  rewrite xint_block, (proj2 (Z.eqb_neq y 0)) by lia.
  rewrite (bind_Done (mret (din f sz)) _ m (din f sz) m eq_refl).
  rewrite (bind_Done _ _ _ _ _ (addr_ind_ok m)), Hy. cbn [default from_option id head].
  assert (Hl : length (drop NDIRECT f.(g_blocks)) = (fbn - NDIRECT)%nat) by (rewrite length_drop; lia). rewrite <-Hl.
  rewrite (enter_indirect m y (drop NDIRECT f.(g_blocks))).
  - rewrite drop_app_le by lia. unfold din, with_block, g_addrs. cbn [g_type g_blocks g_ind]. rewrite Hy. do 3 f_equal.
    f_equal. unfold pad. rewrite <-app_assoc, !take_app_le by lia. done.
  - done.
  - apply (ro_length _ _ _ Hr).
  - apply (fo_table _ _ Hf). rewrite Hy. by left.
  - rewrite Hl. unfold MAXFILE, NINDIRECT, NDIRECT in *. lia.
  - apply table_range.
  - lia.
Qed.

Lemma fbn_cases : length f.(g_blocks) = S fbn ∨ length f.(g_blocks) = fbn.
Proof. pose proof (fo_blocks _ _ Hf) as H. unfold nblk, BSIZE in *. lia. Qed.

Lemma cost_next : cost (BSIZE * (Z.of_nat fbn + 1)) = Z.of_nat (S fbn) + (if (NDIRECT <? S fbn)%nat then 1 else 0).
Proof. rewrite <-cost_block. f_equal. lia. Qed.

Definition block_found (img' : list (list Z)) (fb' : Z) (f' : gfile) (x : Z) : Prop :=
  file_block (din f sz) fbn m = Done (din f' sz, x) (set_img img' (set_freeblock fb' m)) ∧
  grown m.(m_img) fb f fbn img' fb' f' x.

Lemma free_read x : length f.(g_blocks) = fbn → fb ≤ x < FSSIZE → blk m.(m_img) x = Some (block_of f.(g_data) fbn).
Proof.
  intros Hn Hx. rewrite block_of_zero; [by apply (ro_free _ _ _ Hr)|].
  pose proof (fo_blocks _ _ Hf). unfold nblk, g_size, BSIZE in *. lia.
Qed.

Lemma found_old : length f.(g_blocks) = S fbn → ∃ x, block_found m.(m_img) fb f x.
Proof.
  intros Hn. destruct (lookup_lt_is_Some_2 f.(g_blocks) fbn) as [x Hx]; [lia|]. exists x.
  unfold block_found. rewrite set_same, file_block_old with (x := x) by done. split; [done|]. split; [done..| | | | | | | |done].
  - symmetry. pose proof Hx as E. apply take_S_r with (n := fbn) in E. rewrite <-E, take_ge by lia. done.
  - by apply (fo_data _ _ Hf).
  - by rewrite (fo_ind _ _ Hf), Hn.
  - apply (fo_table _ _ Hf).
  - rewrite Z.sub_diag. simpl. by rewrite app_nil_r.
  - rewrite cost_next, cost_file, Hn. lia.
  - done.
Qed.

Lemma found_direct : length f.(g_blocks) = fbn → (fbn < NDIRECT)%nat → block_found m.(m_img) (fb + 1) (with_block fb f.(g_ind)) fb.
Proof.
  intros Hn Hd. assert (Hc : cost (BSIZE * (Z.of_nat fbn + 1)) - cost (g_size f) = 1).
  { rewrite cost_next, cost_file, Hn. destruct (Nat.ltb_spec NDIRECT (S fbn)), (Nat.ltb_spec NDIRECT fbn); lia. }
  assert (Hi : f.(g_ind) = []).
  { pose proof (fo_ind _ _ Hf) as L. rewrite (proj2 (Nat.ltb_ge _ _)) in L by lia. by destruct f.(g_ind). }
  unfold block_found. rewrite file_block_direct by lia. split; [by destruct m|]. split; cbn [with_block g_type g_data g_blocks g_ind]; [done..| | | | | | | |done].
  - by rewrite take_ge by lia.
  - apply free_read; lia.
  - rewrite Hi, (proj2 (Nat.ltb_ge _ _)) by lia. done.
  - rewrite Hi. set_solver.
  - unfold owned. cbn [with_block g_blocks g_ind]. rewrite Hi, !app_nil_r. by replace (fb + 1 - fb) with 1 by lia.
  - lia.
  - done.
Qed.

Lemma found_first :
  length f.(g_blocks) = fbn → fbn = NDIRECT →
  block_found (<[Z.to_nat fb := words (pad NINDIRECT [fb + 1])]> m.(m_img)) (fb + 2) (with_block (fb + 1) [fb]) (fb + 1).
Proof.
  intros Hn Hd. pose proof (ro_fb _ _ _ Hr). assert (Hc : cost (BSIZE * (Z.of_nat fbn + 1)) - cost (g_size f) = 2).
  { rewrite cost_next, cost_file, Hn. destruct (Nat.ltb_spec NDIRECT (S fbn)), (Nat.ltb_spec NDIRECT fbn); lia. }
  assert (Hi : f.(g_ind) = []).
  { pose proof (fo_ind _ _ Hf) as L. rewrite (proj2 (Nat.ltb_ge _ _)) in L by lia. by destruct f.(g_ind). }
  unfold block_found. rewrite file_block_first by lia. replace (fb + 1 + 1) with (fb + 2) by lia. split; [done|].
  split; cbn [with_block g_type g_data g_blocks g_ind]; [done..| | | | | | | |].
  - by rewrite take_ge by lia.
  - apply free_read; lia.
  - rewrite (proj2 (Nat.ltb_lt _ _)) by lia. done.
  - intros y ->%list_elem_of_singleton. rewrite blk_insert_same by (lia || apply (ro_length _ _ _ Hr)).
    by rewrite drop_app_ge, Hn, Hd, Nat.sub_diag by lia.
  - unfold owned. cbn [with_block g_blocks g_ind]. rewrite Hi, app_nil_r, <-app_assoc. apply Permutation_app_head.
    replace (fb + 2 - fb) with 2 by lia. rewrite seqZ_cons by lia. rewrite seqZ_cons by lia. simpl. apply perm_swap.
  - lia.
  - intros b Hb Hn'. apply blk_insert_other; [lia|done|]. intros <-. apply Hn'. by left.
  - apply length_insert.
Qed.

Lemma found_indirect :
  length f.(g_blocks) = fbn → (NDIRECT < fbn)%nat → ∃ y,
  block_found (<[Z.to_nat y := words (pad NINDIRECT (drop NDIRECT (f.(g_blocks) ++ [fb])))]> m.(m_img)) (fb + 1) (with_block fb [y]) fb.
Proof.
  intros Hn Hd. pose proof (ro_fb _ _ _ Hr). assert (Hc : cost (BSIZE * (Z.of_nat fbn + 1)) - cost (g_size f) = 1).
  { rewrite cost_next, cost_file, Hn. destruct (Nat.ltb_spec NDIRECT (S fbn)), (Nat.ltb_spec NDIRECT fbn); lia. }
  destruct ind_exists as (y & Hy & Ry); [lia|]. exists y.
  unfold block_found. rewrite (file_block_indirect y) by (done || lia). split; [done|].
  split; cbn [with_block g_type g_data g_blocks g_ind]; [done..| | | | | | | |].
  - by rewrite take_ge by lia.
  - apply free_read; lia.
  - rewrite (proj2 (Nat.ltb_lt _ _)) by lia. done.
  - intros z ->%list_elem_of_singleton. apply blk_insert_same; [lia|apply (ro_length _ _ _ Hr)].
  - unfold owned. cbn [with_block g_blocks g_ind]. rewrite Hy, <-!app_assoc. apply Permutation_app_head.
    replace (fb + 1 - fb) with 1 by lia. apply perm_swap.
  - lia.
  - intros b Hb Hn'. apply blk_insert_other; [lia|done|]. intros <-. apply Hn'. by left.
  - apply length_insert.
Qed.

Lemma file_block_spec : ∃ img' fb' f' x, block_found img' fb' f' x.
Proof.
  destruct fbn_cases as [Hn|Hn]; [|destruct (lt_eq_lt_dec fbn NDIRECT) as [[Hd|Hd]|Hd]].
  - destruct (found_old Hn) as [x H]. eauto.
  - pose proof (found_direct Hn Hd). eauto.
  - pose proof (found_first Hn Hd). eauto.
  - destruct (found_indirect Hn Hd) as [y H]. eauto.
Qed.
End Block.

(** ** [iappend_body] and its loop *)

(** The file and the image after [q] was appended to the file. *)
Record appended (img : list (list Z)) (fb : Z) (f : gfile) (q : list Z) (img' : list (list Z)) (fb' : Z) (f' : gfile) : Prop := {
  ap_type : f'.(g_type) = f.(g_type);
  ap_data : f'.(g_data) = f.(g_data) ++ q;
  ap_ok : data_ok img' f';
  ap_room : room_ok img' fb' f';
  ap_owned : owned f' ≡ₚ owned f ++ seqZ fb (fb' - fb);
  ap_fb : fb' = fb + cost (g_size f') - cost (g_size f);
  ap_frame b : 0 ≤ b < fb → b ∉ owned f → blk img' b = blk img b
}.

Lemma owned_grows img fb f l :
  room_ok img fb f → NoDup l → (∀ b, b ∈ l → fb ≤ b) → NoDup (owned f ++ l).
Proof.
  intros Hr Hl Hb. apply NoDup_app. split; [apply (ro_nodup _ _ _ Hr)|split; [|done]].
  intros b H1 H2%Hb. pose proof (ro_owned _ _ _ Hr b H1). lia.
Qed.

Section Step.
Context (img : list (list Z)) (fb : Z) (f : gfile) (fbn : nat) (img' : list (list Z)) (fb' : Z) (f' : gfile) (x : Z) (q : list Z).
Context (Hf : data_ok img f) (Hr : room_ok img fb f) (G : grown img fb f fbn img' fb' f' x).
Context (Hfbn : Z.of_nat fbn = g_size f / BSIZE) (Hfb' : fb' ≤ FSSIZE).
Context (Hq : q ≠ []) (Hlen : g_size f + Z.of_nat (length q) ≤ BSIZE * (Z.of_nat fbn + 1)).
Context (Hmax : g_size f + Z.of_nat (length q) ≤ MAXFILE * BSIZE).

Definition next_file : gfile := mk_gfile f.(g_type) (f.(g_data) ++ q) f'.(g_blocks) f'.(g_ind).

Lemma size_next : g_size next_file = g_size f + Z.of_nat (length q).
Proof. unfold g_size. cbn [next_file g_data]. rewrite length_app. apply Nat2Z.inj_add. Qed.

Lemma nblk_next : nblk (g_size next_file) = Z.of_nat fbn + 1.
Proof. rewrite size_next. destruct q; [done|]. cbn [length] in *. unfold nblk, BSIZE in *. lia. Qed.

Lemma fb_grows : fb ≤ fb' ∧ fb' = fb + cost (g_size next_file) - cost (g_size f).
Proof.
  rewrite (gr_fb _ _ _ _ _ _ _ _ G). replace (cost (BSIZE * _)) with (cost (g_size next_file)).
  - pose proof (cost_mono (g_size f) (g_size next_file)) as H. rewrite size_next in *. lia.
  - unfold cost. rewrite nblk_next. by replace (nblk (BSIZE * (Z.of_nat fbn + 1))) with (Z.of_nat fbn + 1) by (unfold nblk, BSIZE; lia).
Qed.

Lemma nodup_next : NoDup (owned f').
Proof.
  rewrite (gr_owned _ _ _ _ _ _ _ _ G). eapply owned_grows; [done|apply NoDup_seqZ|].
  intros b [Hb _]%elem_of_seqZ. done.
Qed.

Lemma owned_next b : b ∈ owned f' → 46 ≤ b < fb'.
Proof.
  rewrite (gr_owned _ _ _ _ _ _ _ _ G). pose proof fb_grows. pose proof (ro_fb _ _ _ Hr).
  intros [Hb|[Hb Hb']%elem_of_seqZ]%elem_of_app; [pose proof (ro_owned _ _ _ Hr b Hb)|]; lia.
Qed.

Lemma x_block : x ∈ f'.(g_blocks).
Proof. rewrite (gr_blocks _ _ _ _ _ _ _ _ G). apply elem_of_app. right. by left. Qed.

Lemma x_range : 46 ≤ x < FSSIZE.
Proof. assert (x ∈ owned f') as H%owned_next by (apply elem_of_app; left; apply x_block). lia. Qed.

Lemma not_ind b : b ∈ f'.(g_blocks) → b ∉ f'.(g_ind).
Proof. pose proof nodup_next as [_ [H _]]%NoDup_app. apply H. Qed.

Lemma read_next : blk img' x = Some (block_of f.(g_data) fbn).
Proof.
  rewrite (gr_frame _ _ _ _ _ _ _ _ G); [apply (gr_read _ _ _ _ _ _ _ _ G)|pose proof x_range; lia|].
  apply not_ind, x_block.
Qed.

Local Abbreviation img'' := (<[Z.to_nat x := block_of (f.(g_data) ++ q) fbn]> img').

Lemma length_img' : length img' = Z.to_nat FSSIZE.
Proof. rewrite (gr_length _ _ _ _ _ _ _ _ G). apply (ro_length _ _ _ Hr). Qed.

Lemma length_blocks_next : length f'.(g_blocks) = S fbn.
Proof.
  rewrite (gr_blocks _ _ _ _ _ _ _ _ G), length_app, length_take. pose proof (fo_blocks _ _ Hf) as H.
  unfold nblk, BSIZE in *. simpl. lia.
Qed.

Lemma data_next : data_ok img'' next_file.
Proof.
  pose proof x_range as Rx. split; cbn [next_file g_data g_blocks g_ind].
  - rewrite length_blocks_next, nblk_next. lia.
  - by rewrite length_blocks_next, (gr_ind _ _ _ _ _ _ _ _ G).
  - by rewrite size_next.
  - intros y Hy. rewrite blk_insert_other; [by apply (gr_table _ _ _ _ _ _ _ _ G)|lia| |].
    + assert (y ∈ owned f') as H%owned_next by (apply elem_of_app; by right). lia.
    + intros <-. exact (not_ind x x_block Hy).
  - intros k b Hk. pose proof Hk as Hb. rewrite (gr_blocks _ _ _ _ _ _ _ _ G) in Hb.
    assert (Hin : b ∈ f'.(g_blocks)) by (by eapply list_elem_of_lookup_2).
    assert (46 ≤ b) by (assert (b ∈ owned f') as H%owned_next by (apply elem_of_app; by left); lia).
    assert (Ht : length (take fbn f.(g_blocks)) = fbn) by (pose proof length_blocks_next as L; rewrite (gr_blocks _ _ _ _ _ _ _ _ G), length_app in L; simpl in L; lia).
    destruct (decide (k < fbn)%nat) as [Hlt|Hge].
    + rewrite lookup_app_l, lookup_take_lt in Hb by lia.
      rewrite blk_insert_other, (gr_frame _ _ _ _ _ _ _ _ G), (fo_data _ _ Hf k b Hb), block_of_app; try done; try lia.
      * unfold g_size, BSIZE in *. lia.
      * by apply not_ind.
      * intros <-. enough (k = fbn) by lia. pose proof nodup_next as [ND _]%NoDup_app.
        apply (NoDup_lookup _ _ _ _ ND Hk). rewrite (gr_blocks _ _ _ _ _ _ _ _ G). rewrite lookup_app_r by lia. by rewrite Ht, Nat.sub_diag.
    + assert (k = fbn) as -> by (apply lookup_lt_Some in Hk; rewrite length_blocks_next in Hk; lia).
      rewrite lookup_app_r, Ht, Nat.sub_diag in Hb by lia. injection Hb as <-. apply blk_insert_same; [lia|apply length_img'].
Qed.

Lemma room_next : room_ok img'' fb' next_file.
Proof.
  pose proof x_range as Rx. pose proof fb_grows as [Hfb _]. pose proof (ro_fb _ _ _ Hr). split.
  - rewrite length_insert. apply length_img'.
  - intros b Hb. rewrite blk_insert_other, (gr_frame _ _ _ _ _ _ _ _ G); try lia.
    + apply (ro_free _ _ _ Hr). lia.
    + intros Hi. assert (b ∈ owned f') as Ho%owned_next by (apply elem_of_app; by right). lia.
    + intros <-. assert (x ∈ owned f') as Ho%owned_next by (apply elem_of_app; left; apply x_block). lia.
  - apply nodup_next.
  - apply owned_next.
  - lia.
Qed.

Lemma appended_next : appended img fb f q img'' fb' next_file.
Proof.
  pose proof x_range as Rx. split; [done|done|apply data_next|apply room_next| | |].
  - apply (gr_owned _ _ _ _ _ _ _ _ G).
  - apply fb_grows.
  - intros b Hb Ho. assert (Hn : b ∉ owned f').
    { rewrite (gr_owned _ _ _ _ _ _ _ _ G). intros [H|[H _]%elem_of_seqZ]%elem_of_app; [done|lia]. }
    rewrite blk_insert_other, (gr_frame _ _ _ _ _ _ _ _ G); try done; try lia.
    + intros Hi. apply Hn, elem_of_app. by right.
    + intros <-. apply Hn, elem_of_app. left. apply x_block.
Qed.
End Step.

Lemma appended_refl img fb f : data_ok img f → room_ok img fb f → appended img fb f [] img fb f.
Proof. intros Hf Hr. split; rewrite ?app_nil_r, ?Z.sub_diag; try done; [by rewrite app_nil_r|lia]. Qed.

Lemma appended_trans img fb f q img1 fb1 f1 q1 img2 fb2 f2 :
  appended img fb f q img1 fb1 f1 → appended img1 fb1 f1 q1 img2 fb2 f2 → appended img fb f (q ++ q1) img2 fb2 f2.
Proof.
  intros [T1 D1 O1 R1 W1 F1 M1] [T2 D2 O2 R2 W2 F2 M2].
  assert (cost (g_size f) ≤ cost (g_size f1)) by (apply cost_mono; unfold g_size; rewrite D1, length_app; lia).
  assert (cost (g_size f1) ≤ cost (g_size f2)) by (apply cost_mono; unfold g_size; rewrite D2, length_app; lia).
  split; [congruence|by rewrite D2, D1, app_assoc|done|done| |lia|].
  - rewrite W2, W1, <-app_assoc. replace fb1 with (fb + (fb1 - fb)) at 2 by lia.
    rewrite <-seqZ_app by lia. by replace (fb1 - fb + (fb2 - fb1)) with (fb2 - fb) by lia.
  - intros b Hb Ho. rewrite M2, M1; [done|done|done|lia|].
    rewrite W1. intros [H'|[H' _]%elem_of_seqZ]%elem_of_app; [done|lia].
Qed.

(** How much one round writes *)
Definition chunk (f : gfile) (p : list Z) : Z :=
  Z.min (Z.of_nat (length p)) ((g_size f / BSIZE + 1) * BSIZE - g_size f).

Lemma piece_bounds f p : p ≠ [] → 0 < chunk f p ≤ Z.of_nat (length p) ∧ g_size f + chunk f p ≤ BSIZE * (g_size f / BSIZE + 1).
Proof.
  intros Hp. assert (0 < Z.of_nat (length p)) by (destruct p; [done|simpl; lia]).
  unfold chunk, BSIZE. assert (0 ≤ g_size f) by (unfold g_size; lia). lia.
Qed.

(** One round, once the block is found *)
Lemma iappend_round m f sz p img' fb' f' x :
  let fbn := Z.to_nat (g_size f / BSIZE) in
  let q := take (Z.to_nat (chunk f p)) p in
  data_ok m.(m_img) f → p ≠ [] → g_size f + Z.of_nat (length p) ≤ MAXFILE * BSIZE →
  file_block (din f sz) fbn m = Done (din f' sz, x) (set_img img' (set_freeblock fb' m)) →
  46 ≤ x < FSSIZE → length img' = Z.to_nat FSSIZE → blk img' x = Some (block_of f.(g_data) fbn) →
  iappend_body (din f sz, g_size f, p) m =
    Done (inl (din f' sz, g_size f + chunk f p, drop (Z.to_nat (chunk f p)) p))
      (set_img (<[Z.to_nat x := block_of (f.(g_data) ++ q) fbn]> img') (set_freeblock fb' m)).
Proof.
  intros fbn q Hf Hp Hmax E Hx Hl Hr. destruct (piece_bounds f p Hp) as [Hc Hc']. assert (0 ≤ g_size f) by (unfold g_size; lia).
  unfold iappend_body. rewrite (proj2 (Z.ltb_lt _ _)) by lia.
  rewrite (proj2 (Z.ltb_lt (g_size f / BSIZE) MAXFILE)) by (unfold MAXFILE, BSIZE in *; lia).
  rewrite (bind_Done (assert true) _ m tt m eq_refl). fold fbn. rewrite (bind_Done _ _ _ _ _ E). cbn beta iota zeta.
  replace (u32 ((g_size f / BSIZE + 1) * BSIZE - g_size f)) with ((g_size f / BSIZE + 1) * BSIZE - g_size f) by (unfold u32, MAXFILE, BSIZE in *; lia).
  fold (chunk f p). fold q. erewrite (bind_Done (rsect x)) by (apply rsect_ok; [lia|exact Hr]).
  replace (g_size f - g_size f / BSIZE * BSIZE) with (g_size f - Z.of_nat fbn * BSIZE) by (unfold fbn, BSIZE; lia).
  pose proof (block_of_splice f.(g_data) q fbn) as B. fold (g_size f) in B. rewrite B; clear B.
  - erewrite (bind_Done (wsect _ _)) by (apply wsect_ok; [lia|exact Hl]).
    replace (u32 (g_size f + chunk f p)) with (g_size f + chunk f p) by (unfold u32, MAXFILE, BSIZE in *; lia). done.
  - unfold fbn, BSIZE. lia.
  - unfold q. rewrite length_take. unfold fbn, BSIZE in *. lia.
Qed.

Lemma iappend_step m f sz p :
  data_ok m.(m_img) f → room_ok m.(m_img) m.(m_freeblock) f → p ≠ [] →
  g_size f + Z.of_nat (length p) ≤ MAXFILE * BSIZE →
  m.(m_freeblock) + cost (g_size f + Z.of_nat (length p)) - cost (g_size f) ≤ FSSIZE →
  ∃ n img' fb' f', iappend_body (din f sz, g_size f, p) m =
    Done (inl (din f' sz, g_size f', drop n p)) (set_img img' (set_freeblock fb' m)) ∧
    (0 < n ≤ length p)%nat ∧ appended m.(m_img) m.(m_freeblock) f (take n p) img' fb' f'.
Proof.
  intros Hf Hr Hp Hmax Hsp. destruct (piece_bounds f p Hp) as [Hc Hc']. assert (0 ≤ g_size f) by (unfold g_size; lia).
  set (fbn := Z.to_nat (g_size f / BSIZE)). assert (Hfbn : Z.of_nat fbn = g_size f / BSIZE) by (unfold fbn, BSIZE; lia).
  assert (Hcost : cost (BSIZE * (Z.of_nat fbn + 1)) ≤ cost (g_size f + Z.of_nat (length p))).
  { rewrite Hfbn. apply cost_nblk. unfold nblk, BSIZE in *. lia. }
  destruct (file_block_spec m f sz fbn Hf Hr Hfbn) as (img' & fb' & f' & x & E & G); [unfold MAXFILE, BSIZE in *; lia|lia|].
  assert (Hfb' : fb' ≤ FSSIZE) by (rewrite (gr_fb _ _ _ _ _ _ _ _ G); lia).
  set (q := take (Z.to_nat (chunk f p)) p). assert (Lq : Z.of_nat (length q) = chunk f p) by (unfold q; rewrite length_take; lia).
  assert (Hq : q ≠ []) by (intros Hq; rewrite Hq in Lq; simpl in Lq; lia).
  exists (Z.to_nat (chunk f p)), (<[Z.to_nat x := block_of (f.(g_data) ++ q) fbn]> img'), fb', (next_file f f' q).
  split_and!; [|lia|lia|].
  - rewrite (iappend_round m f sz p img' fb' f' x Hf Hp Hmax E).
    + do 4 f_equal.
      * unfold din, next_file, g_addrs. cbn [g_type g_blocks g_ind]. by rewrite (gr_type _ _ _ _ _ _ _ _ G).
      * rewrite size_next. lia.
    + eapply x_range; try done; lia.
    + eapply length_img'; done.
    + eapply read_next; try done; lia.
  - eapply appended_next; try done; lia.
Qed.

Lemma iappend_loop p : ∀ fuel m f sz,
  (length p < fuel)%nat → data_ok m.(m_img) f → room_ok m.(m_img) m.(m_freeblock) f →
  g_size f + Z.of_nat (length p) ≤ MAXFILE * BSIZE →
  m.(m_freeblock) + cost (g_size f + Z.of_nat (length p)) - cost (g_size f) ≤ FSSIZE →
  ∃ img' fb' f', loop fuel iappend_body (din f sz, g_size f, p) m =
    Done (din f' sz, g_size f') (set_img img' (set_freeblock fb' m)) ∧
    appended m.(m_img) m.(m_freeblock) f p img' fb' f'.
Proof.
  induction p as [p IH] using (induction_ltof1 _ (@length Z)). unfold ltof in IH.
  intros [|fuel] m f sz Hfuel Hf Hr Hmax Hsp; [lia|]. cbn [loop]. destruct (decide (p = [])) as [->|Hp].
  - exists m.(m_img), m.(m_freeblock), f. rewrite set_same. split; [done|by apply appended_refl].
  - destruct (iappend_step m f sz p Hf Hr Hp Hmax Hsp) as (n & img1 & fb1 & f1 & E & Hn & A).
    rewrite (bind_Done _ _ _ _ _ E).
    assert (Hs : g_size f1 = g_size f + Z.of_nat n) by (unfold g_size; rewrite (ap_data _ _ _ _ _ _ _ A), length_app, length_take; lia).
    destruct (IH (drop n p)) with (fuel := fuel) (m := set_img img1 (set_freeblock fb1 m)) (f := f1) (sz := sz) as (img2 & fb2 & f2 & E2 & A2).
    + rewrite length_drop. lia.
    + rewrite length_drop. lia.
    + apply (ap_ok _ _ _ _ _ _ _ A).
    + apply (ap_room _ _ _ _ _ _ _ A).
    + rewrite length_drop. lia.
    + cbn [m_freeblock set_img set_freeblock]. rewrite length_drop, (ap_fb _ _ _ _ _ _ _ A), Hs. replace (g_size f + Z.of_nat n + Z.of_nat (length p - n)) with (g_size f + Z.of_nat (length p)) by lia. lia.
    + exists img2, fb2, f2. rewrite E2. split; [done|]. rewrite <-(take_drop n p). by eapply appended_trans.
Qed.
End Append.
