(* ===== verification/MkfsSpec.v ===== *)
(** * The file system in the image of [mkfs]

    The invariant of the image while [mkfs] fills it, and the theorem about the
    finished image: what the kernel's decoding functions read from it. *)

From Stdlib Require Import Ascii.
From S2P Require Import Ulib Prelude State Cstring Bio Fs FsFacts InodeFacts Mkfs MkfsFacts.

(** The super block of the image *)
Definition layout : superblock := mk_superblock FSMAGIC FSSIZE 1954 NINODES 30 2 32 45.

Definition sb_block {HO : Host} : list Z := splice 0 (sb_bytes layout) zeroes.

(** The blocks the files take *)
Definition total (fs : list (Z * list Z)) : Z := foldr (λ x t, cost (Z.of_nat (length x.2)) + t) 0 fs.

Arguments total : simpl never.

Definition cts (L : list gfile) : list (Z * list Z) := (λ f, (f.(g_type), f.(g_data))) <$> L.

Definition all_owned (L : list gfile) : list Z := mjoin (owned <$> L).

(** The block of inode [inum] *)
Definition iblk (inum : Z) : Z := 32 + inum / IPB.

(** The inode of number [inum], on the host *)
Definition slot {HO : Host} (img : list (list Z)) (inum : Z) : option dinode :=
  dinode_get (dinode_off inum) <$> blk img (iblk inum).

Record image_ok {HO : Host} (m : mkfs) (L : list gfile) : Prop := {
  im_sb : m.(m_sb) = layout;
  im_length : length m.(m_img) = Z.to_nat FSSIZE;
  im_freeinode : m.(m_freeinode) = 1 + Z.of_nat (length L);
  im_count : Z.of_nat (length L) < NINODES;
  im_fb : m.(m_freeblock) = 46 + total (cts L);
  im_room : m.(m_freeblock) ≤ FSSIZE;
  im_free b : m.(m_freeblock) ≤ b < FSSIZE → blk m.(m_img) b = Some zeroes;
  im_nodup : NoDup (all_owned L);
  im_owned b : b ∈ all_owned L → 46 ≤ b < m.(m_freeblock);
  im_data f : f ∈ L → data_ok m.(m_img) f;
  im_type f : f ∈ L → 0 ≤ f.(g_type) < 2 ^ 15;
  im_iblock b : 32 ≤ b < 45 → ∃ c, blk m.(m_img) b = Some c ∧ length c = Z.to_nat BSIZE;
  im_slot i f : L !! i = Some f → slot m.(m_img) (Z.of_nat i + 1) = Some (din f (g_size f));
  im_meta b : 0 ≤ b < 32 ∨ b = 45 → blk m.(m_img) b = Some (if b =? 1 then sb_block else zeroes)
}.

(** ** Lists of files *)

Lemma cost_nonneg n : 0 ≤ n → 0 ≤ cost n.
Proof. intros H. unfold cost, nblk, BSIZE. destruct (_ <? _); lia. Qed.

Lemma total_cons x fs : total (x :: fs) = cost (Z.of_nat (length x.2)) + total fs.
Proof. done. Qed.

Lemma total_nonneg fs : 0 ≤ total fs.
Proof. induction fs as [|x fs IH]; [done|]. rewrite total_cons. pose proof (cost_nonneg (Z.of_nat (length x.2)) ltac:(lia)). lia. Qed.

Lemma total_app fs fs' : total (fs ++ fs') = total fs + total fs'.
Proof. induction fs as [|x fs IH]; [done|]. cbn [app]. rewrite !total_cons. lia. Qed.

Lemma total_insert fs i x y :
  fs !! i = Some x → total (<[i:=y]> fs) = total fs + cost (Z.of_nat (length y.2)) - cost (Z.of_nat (length x.2)).
Proof.
  revert i. induction fs as [|z fs IH]; intros [|i] Hi; simplify_eq/=; rewrite !total_cons; [lia|].
  rewrite (IH _ Hi). lia.
Qed.

Lemma insert_last {A} (a : A) l y x : <[S (length l):=x]> (a :: l ++ [y]) = a :: l ++ [x].
Proof. change (a :: <[length l:=x]> (l ++ [y]) = a :: l ++ [x]). by rewrite insert_app_r_alt, Nat.sub_diag. Qed.

Lemma all_owned_insert L i f f' l :
  L !! i = Some f → owned f' ≡ₚ owned f ++ l → all_owned (<[i:=f']> L) ≡ₚ all_owned L ++ l.
Proof.
  intros Hi Hp. revert i Hi. induction L as [|g L IH]; intros [|i] Hi; simplify_eq/=; unfold all_owned in *; simpl.
  - rewrite Hp, <-!app_assoc. apply Permutation_app_head, Permutation_app_comm.
  - rewrite (IH i) by done. by rewrite app_assoc.
Qed.

Lemma elem_of_owned_blocks L i f b : L !! i = Some f → b ∈ owned f → b ∈ all_owned L.
Proof.
  intros Hi Hb. apply list_elem_of_join. exists (owned f). split; [done|]. apply list_elem_of_fmap_2.
  by eapply list_elem_of_lookup_2.
Qed.

Lemma owned_disjoint L i j f g b :
  NoDup (all_owned L) → L !! i = Some f → L !! j = Some g → i ≠ j → b ∈ owned f → b ∉ owned g.
Proof.
  intros ND. revert i j. induction L as [|h L IH]; intros i j Hi Hj Hne Hb Hg; [done|].
  unfold all_owned in ND. cbn [fmap list_fmap] in ND. simpl in ND. apply NoDup_app in ND as (_ & Hd & ND).
  destruct i as [|i], j as [|j]; simplify_eq/=.
  - apply (Hd b Hb). eapply (elem_of_owned_blocks L); done.
  - apply (Hd b Hg). eapply (elem_of_owned_blocks L); done.
  - eapply (IH ND i j); try done. lia.
Qed.

Lemma nodup_owned L i f : NoDup (all_owned L) → L !! i = Some f → NoDup (owned f).
Proof.
  revert i. induction L as [|g L IH]; intros [|i] ND Hi; simplify_eq/=; unfold all_owned in ND; simpl in ND;
    apply NoDup_app in ND as (H1 & _ & H2); [done|by apply (IH i)].
Qed.

(** The first [n] bytes of a file, with zeros after its end *)
Definition padded (data : list Z) (n : nat) : list Z := (λ j, default 0 (data !! j)) <$> seq 0 n.

Lemma padded_same data : padded data (length data) = data.
Proof.
  apply list_eq. intros j. unfold padded. rewrite list_lookup_fmap. destruct (decide (j < length data)%nat) as [Hj|Hj].
  - rewrite lookup_seq_lt by done. cbn [fmap option_fmap option_map Nat.add]. by destruct (lookup_lt_is_Some_2 data j Hj) as [x ->].
  - rewrite lookup_seq_ge, lookup_ge_None_2 by lia. done.
Qed.

Lemma join_blocks data k : mjoin (block_of data <$> seq 0 k) = padded data (Z.to_nat (BSIZE * Z.of_nat k)).
Proof.
  induction k as [|k IH]; [done|]. rewrite seq_S, fmap_app, join_app, IH. cbn [fmap list_fmap mjoin list_join]. rewrite app_nil_r.
  replace (Z.to_nat (BSIZE * Z.of_nat (S k))) with (Z.to_nat (BSIZE * Z.of_nat k) + Z.to_nat BSIZE)%nat by (unfold BSIZE; lia).
  unfold padded. rewrite seq_app, fmap_app. f_equal. cbn [Nat.add]. unfold block_of.
  rewrite <-(Nat.add_0_r (Z.to_nat (BSIZE * Z.of_nat k))) at 1. rewrite <-fmap_add_seq, <-list_fmap_compose.
  apply list_fmap_ext. intros i j Hj. unfold compose. do 3 f_equal. unfold BSIZE. lia.
Qed.

Lemma mapM_Some_fmap {A B} (g : A → option B) (h : A → B) l : (∀ x, x ∈ l → g x = Some (h x)) → mapM g l = Some (h <$> l).
Proof.
  induction l as [|x l IH]; intros H; [done|]. cbn [mapM]. rewrite H by by left. cbn [mbind option_bind].
  rewrite IH by (intros y Hy; apply H; by right). done.
Qed.

Section Image.
Context {HO : Host} (Hle : big_endian = false) (Hroom : (Z.to_nat FSSIZE ≤ img_room)%nat).

(** ** Inodes *)

Lemma IPB_eq : IPB = 16.
Proof. done. Qed.

Lemma IBLOCK_layout inum : 0 ≤ inum < NINODES → IBLOCK inum layout = iblk inum ∧ 32 ≤ iblk inum < 45.
Proof. unfold IBLOCK, iblk, NINODES, u32. rewrite IPB_eq. cbn [layout sb_inodestart]. lia. Qed.

(** What an inode write does to the image *)
Definition put_inode (inum : Z) (ip : dinode) (img : list (list Z)) : list (list Z) :=
  alter (splice (dinode_off inum) (dinode_put ip)) (Z.to_nat (iblk inum)) img.

Lemma winode_ok m inum ip :
  m.(m_sb) = layout → length m.(m_img) = Z.to_nat FSSIZE → 0 ≤ inum < NINODES →
  winode inum ip m = Done tt (set_img (put_inode inum ip m.(m_img)) m).
Proof.
  intros Hs Hl Hi. destruct (IBLOCK_layout inum Hi) as [E R]. unfold winode.
  rewrite (bind_Done (gets m_sb) _ m _ m eq_refl), Hs. cbn zeta. rewrite E.
  destruct (lookup_lt_is_Some_2 m.(m_img) (Z.to_nat (iblk inum))) as [c Hc]; [unfold FSSIZE in *; lia|].
  erewrite (bind_Done (rsect _)) by (apply rsect_ok; [unfold FSSIZE; lia|exact Hc]).
  rewrite wsect_ok by (done || (unfold FSSIZE; lia)). do 2 f_equal. unfold put_inode.
  apply list_eq. intros k. destruct (decide (k = Z.to_nat (iblk inum))) as [->|Hk].
  - rewrite list_lookup_alter_eq, Hc, list_lookup_insert_eq by (by eapply lookup_lt_Some). done.
  - by rewrite list_lookup_alter_ne, list_lookup_insert_ne by done.
Qed.

Lemma rinode_ok m inum ip :
  m.(m_sb) = layout → 0 ≤ inum < NINODES → slot m.(m_img) inum = Some ip → rinode inum m = Done ip m.
Proof.
  intros Hs Hi Hip. destruct (IBLOCK_layout inum Hi) as [E R]. unfold rinode.
  rewrite (bind_Done (gets m_sb) _ m _ m eq_refl), Hs, E. unfold slot in Hip. apply fmap_Some in Hip as (c & Hc & ->).
  erewrite (bind_Done (rsect _)) by (apply rsect_ok; [unfold FSSIZE; lia|exact Hc]). done.
Qed.

Lemma put_inode_other inum ip img b : 0 ≤ b → b ≠ iblk inum → 0 ≤ inum → blk (put_inode inum ip img) b = blk img b.
Proof. intros Hb Hne Hi. apply list_lookup_alter_ne. unfold iblk in *. rewrite IPB_eq in *. lia. Qed.

Lemma slot_put_same inum ip img c :
  dinode_ok ip → blk img (iblk inum) = Some c → length c = Z.to_nat BSIZE → slot (put_inode inum ip img) inum = Some ip.
Proof. intros Hip Hc Hl. unfold slot, put_inode. rewrite list_lookup_alter_eq, Hc. simpl. by rewrite dinode_get_put. Qed.

Lemma slot_put_other inum inum' ip img c :
  dinode_ok ip → blk img (iblk inum) = Some c → length c = Z.to_nat BSIZE → 0 ≤ inum → 0 ≤ inum' → inum ≠ inum' →
  slot (put_inode inum ip img) inum' = slot img inum'.
Proof.
  intros Hip Hc Hl H0 H0' Hne. unfold slot. destruct (decide (iblk inum' = iblk inum)) as [E|E].
  - rewrite E. unfold put_inode. rewrite list_lookup_alter_eq, Hc. simpl. rewrite dinode_get_other; try done.
    unfold iblk in *. rewrite IPB_eq in *. lia.
  - rewrite put_inode_other; [done| |done|done]. unfold iblk. rewrite IPB_eq. lia.
Qed.

(** The invariant does not depend on the values outside the image. *)
Lemma length_put_inode inum ip img : length (put_inode inum ip img) = length img.
Proof. apply length_alter. Qed.

Lemma iblock_put inum ip img b c :
  dinode_ok ip → blk img b = Some c → length c = Z.to_nat BSIZE →
  ∃ c', blk (put_inode inum ip img) b = Some c' ∧ length c' = Z.to_nat BSIZE.
Proof.
  intros Hip Hc Hl. unfold put_inode. destruct (decide (Z.to_nat b = Z.to_nat (iblk inum))) as [E|E].
  - rewrite E, list_lookup_alter_eq, <-E, Hc. eexists. split; [done|].
    rewrite length_splice; [done|]. rewrite length_dinode_put, Hl by done. apply dinode_off_bound.
  - rewrite list_lookup_alter_ne by done. by exists c.
Qed.

Lemma din_ok img fb f sz :
  room_ok img fb f → 0 ≤ f.(g_type) < 2 ^ 15 → 0 ≤ sz < 2 ^ 32 → dinode_ok (din f sz).
Proof.
  intros Hr Ht Hsz. split; cbn [din d_type d_major d_minor d_nlink d_size d_addrs]; try lia.
  - unfold g_addrs. rewrite length_app, !length_pad. done.
  - assert (Hpad : ∀ n l, (∀ b, b ∈ l → b ∈ owned f) → ∀ a, a ∈ pad n l → 0 ≤ a < 2 ^ 32).
    { intros n l Hl a Ha. apply list_elem_of_lookup_1 in Ha as [k Hk]. pose proof (lookup_lt_Some _ _ _ Hk) as Lk.
      rewrite length_pad in Lk. rewrite lookup_pad in Hk by done. injection Hk as <-. pose proof (ro_fb _ _ _ Hr). unfold FSSIZE in *.
      destruct (l !! k) as [b|] eqn:E; [|simpl; lia]. simpl. pose proof (ro_owned _ _ _ Hr b (Hl b (list_elem_of_lookup_2 _ _ _ E))). lia. }
    intros a [Ha|Ha]%elem_of_app; [apply (Hpad NDIRECT f.(g_blocks))|apply (Hpad 1%nat f.(g_ind))]; try done;
      intros b Hb; apply elem_of_app; auto.
Qed.

Lemma image_room m L i f : image_ok m L → L !! i = Some f → room_ok m.(m_img) m.(m_freeblock) f.
Proof.
  intros H Hi. split.
  - apply (im_length _ _ H).
  - apply (im_free _ _ H).
  - by eapply nodup_owned; [apply (im_nodup _ _ H)|].
  - intros b Hb. apply (im_owned _ _ H). by eapply elem_of_owned_blocks.
  - pose proof (im_room _ _ H). rewrite (im_fb _ _ H) in *. pose proof (total_nonneg (cts L)). lia.
Qed.

Section Update.
Context (m : mkfs) (L : list gfile) (i : nat) (f : gfile) (p : list Z) (img1 : list (list Z)) (fb1 : Z) (f1 : gfile).
Context (H : image_ok m L) (Hi : L !! i = Some f) (A : appended m.(m_img) m.(m_freeblock) f p img1 fb1 f1).

Local Abbreviation inum := (Z.of_nat i + 1).
Local Abbreviation img2 := (put_inode inum (din f1 (g_size f1)) img1).

Lemma inum_range : 0 ≤ inum < NINODES.
Proof. pose proof (im_count _ _ H). apply lookup_lt_Some in Hi. lia. Qed.

Lemma iblk_range : 32 ≤ iblk inum < 45.
Proof. by apply IBLOCK_layout, inum_range. Qed.

Lemma size_range : 0 ≤ g_size f1 < 2 ^ 32.
Proof. pose proof (fo_max _ _ (ap_ok _ _ _ _ _ _ _ A)). unfold g_size, MAXFILE, BSIZE in *. lia. Qed.

Lemma din1_ok : dinode_ok (din f1 (g_size f1)).
Proof.
  apply (din_ok _ _ _ _ (ap_room _ _ _ _ _ _ _ A)); [|apply size_range].
  rewrite (ap_type _ _ _ _ _ _ _ A). apply (im_type _ _ H). by eapply list_elem_of_lookup_2.
Qed.

Lemma meta_kept b : 0 ≤ b < 46 → blk img1 b = blk m.(m_img) b.
Proof.
  intros Hb. pose proof (ro_fb _ _ _ (image_room m L i f H Hi)). apply (ap_frame _ _ _ _ _ _ _ A); [lia|].
  intros Ho. pose proof (ro_owned _ _ _ (image_room m L i f H Hi) b Ho). lia.
Qed.

Lemma update_data g : g ∈ <[i:=f1]> L → data_ok img2 g.
Proof.
  intros [j Hj]%list_elem_of_lookup_1. pose proof iblk_range as R. pose proof inum_range as Ri.
  destruct (decide (j = i)) as [->|Hne].
  - rewrite list_lookup_insert_eq in Hj by (by eapply lookup_lt_Some). injection Hj as <-.
    apply (data_ok_frame img1); [apply (ap_ok _ _ _ _ _ _ _ A)|]. intros b Hb.
    pose proof (ro_owned _ _ _ (ap_room _ _ _ _ _ _ _ A) b Hb). apply put_inode_other; lia.
  - rewrite list_lookup_insert_ne in Hj by done.
    apply (data_ok_frame m.(m_img)); [apply (im_data _ _ H); by eapply list_elem_of_lookup_2|]. intros b Hb.
    pose proof (im_owned _ _ H b (elem_of_owned_blocks _ _ _ _ Hj Hb)) as Rb. rewrite put_inode_other by lia.
    apply (ap_frame _ _ _ _ _ _ _ A); [lia|]. by apply (owned_disjoint L j i g f b (im_nodup _ _ H)).
Qed.

Lemma iblock_block b : 32 ≤ b < 45 → ∃ c, blk img1 b = Some c ∧ length c = Z.to_nat BSIZE.
Proof. intros Hb. rewrite meta_kept by lia. by apply (im_iblock _ _ H). Qed.

Lemma update_slot j g : <[i:=f1]> L !! j = Some g → slot img2 (Z.of_nat j + 1) = Some (din g (g_size g)).
Proof.
  pose proof inum_range as Ri. destruct (iblock_block (iblk inum) iblk_range) as (c & Hc & Lc).
  destruct (decide (j = i)) as [->|Hne]; intros Hj.
  - rewrite list_lookup_insert_eq in Hj by (by eapply lookup_lt_Some). injection Hj as <-.
    by apply (slot_put_same _ _ _ c); [apply din1_ok|..].
  - rewrite list_lookup_insert_ne in Hj by done. rewrite (slot_put_other _ _ _ _ c); [|apply din1_ok|done|done|lia..].
    rewrite <-(im_slot _ _ H j g Hj). unfold slot. rewrite meta_kept; [done|].
    pose proof (im_count _ _ H). apply lookup_lt_Some in Hj. pose proof (IBLOCK_layout (Z.of_nat j + 1)). lia.
Qed.

Lemma image_update : image_ok (set_img img2 (set_freeblock fb1 m)) (<[i:=f1]> L).
Proof.
  pose proof iblk_range as R. pose proof inum_range as Ri. pose proof (ap_room _ _ _ _ _ _ _ A) as Hr1.
  split; cbn [m_sb m_img m_freeinode m_freeblock set_img set_freeblock].
  - apply (im_sb _ _ H).
  - rewrite length_put_inode. apply (ro_length _ _ _ Hr1).
  - rewrite length_insert. apply (im_freeinode _ _ H).
  - rewrite length_insert. apply (im_count _ _ H).
  - unfold cts. rewrite list_fmap_insert, (total_insert _ _ (f.(g_type), f.(g_data))) by (by rewrite list_lookup_fmap, Hi).
    rewrite (ap_fb _ _ _ _ _ _ _ A), (im_fb _ _ H). unfold g_size, cts. cbn [snd]. lia.
  - apply (ro_fb _ _ _ Hr1).
  - intros b Hb. pose proof (ro_fb _ _ _ Hr1). rewrite put_inode_other by lia. by apply (ro_free _ _ _ Hr1).
  - rewrite (all_owned_insert _ _ _ _ _ Hi (ap_owned _ _ _ _ _ _ _ A)). apply NoDup_app. split; [apply (im_nodup _ _ H)|].
    split; [|apply NoDup_seqZ]. intros b Hb [Hb' _]%elem_of_seqZ. pose proof (im_owned _ _ H b Hb). lia.
  - intros b. rewrite (all_owned_insert _ _ _ _ _ Hi (ap_owned _ _ _ _ _ _ _ A)).
    pose proof (ap_owned _ _ _ _ _ _ _ A) as W. pose proof (ro_fb _ _ _ (image_room m L i f H Hi)).
    assert (m.(m_freeblock) ≤ fb1).
    { rewrite (ap_fb _ _ _ _ _ _ _ A). pose proof (cost_mono (g_size f) (g_size f1)) as C.
      unfold g_size in *. rewrite (ap_data _ _ _ _ _ _ _ A), length_app in *. lia. }
    intros [Hb|Hb%elem_of_seqZ]%elem_of_app; [pose proof (im_owned _ _ H b Hb)|]; lia.
  - apply update_data.
  - intros g [j Hj]%list_elem_of_lookup_1. destruct (decide (j = i)) as [->|Hne].
    + rewrite list_lookup_insert_eq in Hj by (by eapply lookup_lt_Some). injection Hj as <-.
      rewrite (ap_type _ _ _ _ _ _ _ A). apply (im_type _ _ H). by eapply list_elem_of_lookup_2.
    + rewrite list_lookup_insert_ne in Hj by done. apply (im_type _ _ H). by eapply list_elem_of_lookup_2.
  - intros b Hb. destruct (iblock_block b Hb) as (c & Hc & Lc). by apply (iblock_put _ _ _ _ c); [apply din1_ok|..].
  - apply update_slot.
  - intros b Hb. rewrite put_inode_other, meta_kept by lia. by apply (im_meta _ _ H).
Qed.
End Update.

Lemma iappend_ok m L i f p :
  image_ok m L → L !! i = Some f → g_size f + Z.of_nat (length p) ≤ MAXFILE * BSIZE →
  m.(m_freeblock) + cost (g_size f + Z.of_nat (length p)) - cost (g_size f) ≤ FSSIZE →
  ∃ m' f', iappend (Z.of_nat i + 1) p m = Done tt m' ∧ image_ok m' (<[i:=f']> L) ∧
    f'.(g_type) = f.(g_type) ∧ f'.(g_data) = f.(g_data) ++ p.
Proof.
  intros H Hi Hmax Hsp. pose proof (inum_range m L i f H Hi) as Ri. unfold iappend.
  rewrite (bind_Done _ _ _ _ _ (rinode_ok m _ _ (im_sb _ _ H) Ri (im_slot _ _ H i f Hi))).
  assert (Hf : data_ok m.(m_img) f) by (apply (im_data _ _ H); by eapply list_elem_of_lookup_2).
  assert (0 ≤ g_size f < 2 ^ 32) by (unfold g_size, MAXFILE, BSIZE in *; lia).
  cbn [din d_size]. rewrite xint_id by done. fold (din f (g_size f)).
  destruct (iappend_loop Hle Hroom p (S (length p)) m f (g_size f)) as (img1 & fb1 & f1 & E & A);
    [lia|done|by eapply image_room|done|done|].
  rewrite (bind_Done _ _ _ _ _ E). cbn beta iota. pose proof (size_range _ _ _ _ _ _ A).
  rewrite xint_id by done. change (set_d_size (g_size f1) (din f1 (g_size f))) with (din f1 (g_size f1)).
  rewrite winode_ok; [|apply (im_sb _ _ H)|apply (ro_length _ _ _ (ap_room _ _ _ _ _ _ _ A))|done].
  eexists _, f1. split; [done|]. split; [by eapply (image_update m L i f p)|].
  split; [apply (ap_type _ _ _ _ _ _ _ A)|apply (ap_data _ _ _ _ _ _ _ A)].
Qed.

(** ** [ialloc] *)

Definition empty_file (ty : Z) : gfile := mk_gfile ty [] [] [].

Lemma empty_data img ty : data_ok img (empty_file ty).
Proof. split; try done. cbn. intros x Hx. inversion Hx. Qed.

Lemma ialloc_ok m L ty :
  image_ok m L → Z.of_nat (length L) + 1 < NINODES → 0 ≤ ty < 2 ^ 15 →
  ∃ m', ialloc ty m = Done (1 + Z.of_nat (length L)) m' ∧ image_ok m' (L ++ [empty_file ty]).
Proof.
  intros H Hn Hty. unfold ialloc. rewrite (bind_Done (gets m_freeinode) _ m _ m eq_refl), (im_freeinode _ _ H).
  rewrite (bind_Done (modify _) _ m tt _ eq_refl). rewrite !xshort_id, xint_id by (done || lia).
  change (mk_dinode ty 0 0 1 0 (replicate (S NDIRECT) 0)) with (din (empty_file ty) 0).
  set (m0 := set_freeinode _ m). set (inum := 1 + Z.of_nat (length L)). assert (Ri : 0 ≤ inum < NINODES) by lia.
  assert (Hd : dinode_ok (din (empty_file ty) 0)).
  { split; try done; [cbn; lia|]. apply (proj1 (Forall_forall (λ a, 0 ≤ a < 2 ^ 32) _)). cbn. repeat (constructor; [lia|]). constructor. }
  rewrite (bind_Done _ _ _ _ _ (winode_ok m0 inum _ (im_sb _ _ H) (im_length _ _ H) Ri)).
  eexists. split; [done|]. destruct (IBLOCK_layout inum Ri) as [_ R].
  destruct (im_iblock _ _ H (iblk inum) R) as (c & Hc & Lc).
  assert (Hall : all_owned (L ++ [empty_file ty]) = all_owned L).
  { unfold all_owned. rewrite fmap_app, join_app. simpl. by rewrite app_nil_r. }
  split; cbn [m0 m_sb m_img m_freeinode m_freeblock set_img set_freeblock set_freeinode].
  - apply (im_sb _ _ H).
  - rewrite length_put_inode. apply (im_length _ _ H).
  - rewrite length_app. simpl. unfold inum, u32, NINODES in *. lia.
  - rewrite length_app. simpl. lia.
  - unfold cts. rewrite fmap_app, total_app. rewrite (im_fb _ _ H). change (total (_ <$> [empty_file ty])) with 0. unfold cts. lia.
  - apply (im_room _ _ H).
  - intros b Hb. pose proof (total_nonneg (cts L)). rewrite (im_fb _ _ H) in Hb. rewrite put_inode_other by lia. apply (im_free _ _ H).
    rewrite (im_fb _ _ H). done.
  - rewrite Hall. apply (im_nodup _ _ H).
  - rewrite Hall. apply (im_owned _ _ H).
  - intros f [Hf| ->%list_elem_of_singleton]%elem_of_app; [|apply empty_data].
    apply (data_ok_frame m.(m_img)); [by apply (im_data _ _ H)|]. intros b Hb. apply list_elem_of_lookup_1 in Hf as [i Hi].
    pose proof (im_owned _ _ H b (elem_of_owned_blocks _ _ _ _ Hi Hb)). apply put_inode_other; lia.
  - intros f [Hf| ->%list_elem_of_singleton]%elem_of_app; [by apply (im_type _ _ H)|done].
  - intros b Hb. destruct (im_iblock _ _ H b Hb) as (c' & Hc' & Lc'). by apply (iblock_put _ _ _ _ c').
  - intros i f Hi. destruct (decide (i < length L)%nat) as [Hlt|Hge].
    + rewrite lookup_app_l in Hi by done. rewrite (slot_put_other _ _ _ _ c); [by apply (im_slot _ _ H)|done|done|done|lia..].
    + rewrite lookup_app_r in Hi by lia. apply list_lookup_singleton_Some in Hi as [Hi <-].
      replace (Z.of_nat i + 1) with inum by lia. by apply (slot_put_same _ _ _ c).
  - intros b Hb. rewrite put_inode_other by lia. by apply (im_meta _ _ H).
Qed.

(** ** The files an image holds *)

Definition holds (m : mkfs) (fs : list (Z * list Z)) : Prop := ∃ L, image_ok m L ∧ cts L = fs.

Lemma iappend_holds m fs i ty d p :
  holds m fs → fs !! i = Some (ty, d) → Z.of_nat (length d + length p) ≤ MAXFILE * BSIZE →
  total (<[i:=(ty, d ++ p)]> fs) ≤ FSSIZE - 46 →
  ∃ m', iappend (Z.of_nat i + 1) p m = Done tt m' ∧ holds m' (<[i:=(ty, d ++ p)]> fs).
Proof.
  intros (L & H & <-) Hi Hmax Ht. rewrite (total_insert _ _ _ _ Hi) in Ht. cbn [snd] in Ht. rewrite length_app in Ht.
  unfold cts in Hi. rewrite list_lookup_fmap in Hi. apply fmap_Some in Hi as (f & Hf & [= -> ->]).
  destruct (iappend_ok m L i f p H Hf) as (m' & f' & E & H' & T & D).
  - unfold g_size. lia.
  - rewrite (im_fb _ _ H). unfold g_size. replace (Z.of_nat (length f.(g_data)) + Z.of_nat (length p)) with (Z.of_nat (length f.(g_data) + length p)) by lia. lia.
  - exists m'. split; [done|]. exists (<[i:=f']> L). split; [done|]. unfold cts. by rewrite list_fmap_insert, T, D.
Qed.

Lemma ialloc_holds m fs ty :
  holds m fs → Z.of_nat (length fs) + 1 < NINODES → 0 ≤ ty < 2 ^ 15 →
  ∃ m', ialloc ty m = Done (1 + Z.of_nat (length fs)) m' ∧ holds m' (fs ++ [(ty, [])]).
Proof.
  intros (L & H & <-) Hn Hty. unfold cts in Hn. rewrite length_fmap in Hn.
  destruct (ialloc_ok m L ty H Hn Hty) as (m' & E & H'). exists m'. unfold cts at 1. rewrite length_fmap.
  split; [done|]. exists (L ++ [empty_file ty]). split; [done|]. unfold cts. by rewrite fmap_app.
Qed.

(** ** Adding the files *)

Definition max_size : Z := MAXFILE * BSIZE.

Lemma chunks_holds cs : ∀ m fs i ty d,
  holds m fs → fs !! i = Some (ty, d) → Z.of_nat (length (d ++ mjoin cs)) ≤ max_size →
  total (<[i:=(ty, d ++ mjoin cs)]> fs) ≤ FSSIZE - 46 →
  ∃ m', for_each cs (iappend (Z.of_nat i + 1)) m = Done tt m' ∧ holds m' (<[i:=(ty, d ++ mjoin cs)]> fs).
Proof.
  induction cs as [|c cs IH]; intros m fs i ty d H Hi Hmax Ht.
  - cbn [for_each mjoin list_join]. rewrite app_nil_r, list_insert_id by done. by exists m.
  - change (mjoin (c :: cs)) with (c ++ mjoin cs) in *. cbn [for_each]. rewrite app_assoc in *. pose proof (lookup_lt_Some _ _ _ Hi) as Li.
    destruct (iappend_holds m fs i ty d c H Hi) as (m1 & E1 & H1).
    + rewrite !length_app in Hmax. unfold max_size in *. lia.
    + rewrite (total_insert _ _ _ _ Hi) in Ht. rewrite (total_insert _ _ _ _ Hi). cbn [snd] in *.
      apply Z.le_trans with (2 := Ht). apply Z.sub_le_mono_r, Z.add_le_mono_l, cost_mono. rewrite !length_app. lia.
    + rewrite (bind_Done _ _ _ _ _ E1). destruct (IH m1 (<[i:=(ty, d ++ c)]> fs) i ty (d ++ c) H1) as (m2 & E2 & H2).
      * by rewrite list_lookup_insert_eq.
      * done.
      * by rewrite list_insert_insert_eq.
      * exists m2. by rewrite list_insert_insert_eq in H2.
Qed.

Definition name_of (arg : list Z) : list Z := strip_underscore (strip_dir arg).
Definition contents_of (arg : list Z) : list Z := mjoin (default [] (host_files arg)).

(** A file that can be added: it exists, and has no slash left in its name. *)
Definition arg_ok (arg : list Z) : Prop :=
  is_Some (host_files arg) ∧ (ch "/" ∉ strip_dir arg) ∧ Z.of_nat (length (contents_of arg)) ≤ max_size.

Lemma length_dirent inum name : length (dirent inum name) = 16%nat.
Proof. unfold dirent. rewrite host_bytes_le, length_app, length_le_bytes, length_take, length_app, length_replicate by done. unfold DIRSIZ. lia. Qed.

Lemma add_file_holds m d rest arg :
  let inum := Z.of_nat (length rest) + 2 in
  let fs := (T_DIR, d ++ dirent inum (name_of arg)) :: rest ++ [(T_FILE, contents_of arg)] in
  holds m ((T_DIR, d) :: rest) → arg_ok arg → inum < NINODES → Z.of_nat (length d) + 16 ≤ max_size →
  total fs ≤ FSSIZE - 46 → ∃ m', add_file 1 arg m = Done tt m' ∧ holds m' fs.
Proof.
  intros inum fs H ([cs Hcs] & Hsl & Hsz) Hn Hd Ht. unfold add_file.
  rewrite (bool_decide_eq_true_2 _ Hsl), (bind_Done (assert true) _ m tt m eq_refl), Hcs. fold (name_of arg).
  destruct (ialloc_holds m _ T_FILE H) as (m1 & E1 & H1); [cbn [length]; lia|unfold T_FILE; lia|].
  rewrite (bind_Done _ _ _ _ _ E1). cbn [length]. replace (1 + Z.of_nat (S (length rest))) with inum by lia.
  rewrite xshort_id by (done || (unfold NINODES in *; lia)). cbn [app] in H1.
  unfold fs in *. rewrite total_cons, total_app in Ht. unfold contents_of in *. rewrite Hcs in *. cbn [default from_option id snd] in *.
  destruct (iappend_holds m1 _ 0 T_DIR d (dirent inum (name_of arg)) H1 eq_refl) as (m2 & E2 & H2).
  - rewrite length_dirent. unfold max_size in *. lia.
  - cbn [insert list_insert]. rewrite total_cons, total_app. cbn [snd] in *. pose proof (total_nonneg [(T_FILE, mjoin cs)]). change (total [(T_FILE, [])]) with 0. lia.
  - change (Z.of_nat 0 + 1) with 1 in E2. rewrite (bind_Done _ _ _ _ _ E2). cbn [insert list_insert] in H2.
    destruct (chunks_holds cs m2 _ (S (length rest)) T_FILE [] H2) as (m3 & E3 & H3).
    + exact (list_lookup_middle rest [] (T_FILE, []) _ eq_refl).
    + done.
    + rewrite insert_last, total_cons, total_app. done.
    + exists m3. replace (Z.of_nat (S (length rest)) + 1) with inum in E3 by lia. split; [done|].
      by rewrite insert_last in H3.
Qed.

(** The directory entries of the files, from inode number [n] *)
Fixpoint entries (n : Z) (args : list (list Z)) : list Z :=
  match args with [] => [] | arg :: args => dirent n (name_of arg) ++ entries (n + 1) args end.

Definition stored (args : list (list Z)) : list (Z * list Z) := (λ arg, (T_FILE, contents_of arg)) <$> args.

Lemma length_entries n args : length (entries n args) = (16 * length args)%nat.
Proof. revert n. induction args as [|a args IH]; intros n; [done|]. cbn [entries]. rewrite length_app, length_dirent, IH. simpl. lia. Qed.

Lemma files_hold args : ∀ m d rest,
  let n := Z.of_nat (length rest) + 2 in
  let fs := (T_DIR, d ++ entries n args) :: rest ++ stored args in
  holds m ((T_DIR, d) :: rest) → Forall arg_ok args → n + Z.of_nat (length args) ≤ NINODES →
  Z.of_nat (length d) + 16 * Z.of_nat (length args) ≤ max_size → total fs ≤ FSSIZE - 46 →
  ∃ m', for_each args (add_file 1) m = Done tt m' ∧ holds m' fs.
Proof.
  induction args as [|a args IH]; intros m d rest n fs H Hok Hn Hd Ht.
  - exists m. split; [done|]. unfold fs. cbn [entries stored fmap list_fmap]. by rewrite !app_nil_r.
  - apply Forall_cons in Hok as [Ha Hok]. cbn [for_each length] in *. unfold fs in *. clear fs.
    change (stored (a :: args)) with ((T_FILE, contents_of a) :: stored args) in *. cbn [entries] in *.
    rewrite app_assoc in *. rewrite (cons_middle (T_FILE, contents_of a)), app_assoc in *.
    rewrite total_cons, total_app in Ht. cbn [snd] in Ht. pose proof (total_nonneg (stored args)).
    destruct (add_file_holds m d rest a H Ha) as (m1 & E1 & H1); [unfold n in *; lia|lia| |].
    + rewrite total_cons. cbn [snd]. fold n.
      pose proof (cost_mono (Z.of_nat (length (d ++ dirent n (name_of a)))) (Z.of_nat (length ((d ++ dirent n (name_of a)) ++ entries (n + 1) args))) ltac:(rewrite (length_app (d ++ _)); lia)). lia.
    + rewrite (bind_Done _ _ _ _ _ E1). fold n in H1.
      destruct (IH m1 (d ++ dirent n (name_of a)) (rest ++ [(T_FILE, contents_of a)]) H1 Hok) as (m2 & E2 & H2).
      * rewrite length_app. simpl. unfold n in *. lia.
      * rewrite length_app, length_dirent. lia.
      * rewrite length_app. cbn [length]. replace (Z.of_nat (length rest + 1) + 2) with (n + 1) by (unfold n; lia).
        rewrite total_cons, total_app. cbn [snd]. lia.
      * exists m2. rewrite length_app in H2. cbn [length] in H2. replace (Z.of_nat (length rest + 1) + 2) with (n + 1) in H2 by (unfold n; lia). done.
Qed.

(** ** The empty file system *)

Lemma zero_loop n : ∀ k m,
  (k + n ≤ Z.to_nat FSSIZE)%nat → m.(m_img) = replicate k zeroes →
  for_each (Z.of_nat <$> seq k n) (λ i, wsect i zeroes) m = Done tt (set_img (replicate (k + n) zeroes) m).
Proof.
  induction n as [|n IH]; intros k m Hk Hm; cbn [seq fmap list_fmap for_each].
  - rewrite Nat.add_0_r, <-Hm. by destruct m.
  - assert (Hs : seek (Z.of_nat k) = k) by (rewrite seek_small, Nat2Z.id; [done|unfold FSSIZE in *; lia]).
    assert (E : wsect (Z.of_nat k) zeroes m = Done tt (set_img (replicate (S k) zeroes) m)).
    { unfold wsect. rewrite Hs, (proj2 (Nat.leb_gt _ _)) by lia. unfold modify, write_block.
      rewrite Hm, length_replicate, Nat.ltb_irrefl, Nat.sub_diag. cbn [replicate app]. by rewrite <-replicate_cons_app. }
    rewrite (bind_Done _ _ _ _ _ E). rewrite (IH (S k)) by (done || lia). by rewrite Nat.add_succ_comm.
Qed.

(** The state once the super block is written *)
Definition formatted : mkfs :=
  mk_mkfs (<[1%nat := sb_block]> (replicate (Z.to_nat FSSIZE) zeroes)) layout 1 46
    [("nmeta %d (boot, super, log blocks %u inode blocks %u, bitmap blocks %u) blocks %d total %d\n"%string,
      [46; 30; 13; 1; 1954; FSSIZE])].

Lemma blk_formatted b : 0 ≤ b < FSSIZE → blk formatted.(m_img) b = Some (if b =? 1 then sb_block else zeroes).
Proof.
  intros Hb. unfold formatted. cbn [m_img]. destruct (Z.eqb_spec b 1) as [->|Hne].
  - apply list_lookup_insert_eq. rewrite length_replicate. unfold FSSIZE. lia.
  - rewrite list_lookup_insert_ne by lia. apply lookup_replicate_2. unfold FSSIZE in *. lia.
Qed.

Lemma formatted_ok : image_ok formatted [].
Proof.
  split; try done.
  - intros b Hb. cbn [formatted m_freeblock] in Hb. rewrite blk_formatted, (proj2 (Z.eqb_neq b 1)) by lia. done.
  - constructor.
  - intros b Hb. inversion Hb.
  - intros f Hf. inversion Hf.
  - intros f Hf. inversion Hf.
  - intros b Hb. rewrite blk_formatted, (proj2 (Z.eqb_neq b 1)) by (unfold FSSIZE; lia). eexists. split; [done|]. apply length_zeroes.
  - intros b Hb. apply blk_formatted. unfold FSSIZE. lia.
Qed.

(** ** The bitmap *)

Definition bitmap (n : nat) : list Z := foldl (λ buf i, bit_set (Z.of_nat i) buf) zeroes (seq 0 n).

Lemma bitmap_S n : bitmap (S n) = bit_set (Z.of_nat n) (bitmap n).
Proof. unfold bitmap. by rewrite seq_S, foldl_app. Qed.

Lemma length_bitmap n : length (bitmap n) = Z.to_nat BSIZE.
Proof. induction n as [|n IH]; [apply length_zeroes|]. by rewrite bitmap_S, length_bit_set. Qed.

Lemma clear_zeroes b : clear zeroes b = true.
Proof.
  unfold clear, bit_byte, zeroes. replace (default 0 _) with 0; [done|].
  destruct (_ !! _) eqn:E; [|done]. by apply lookup_replicate in E as [-> _].
Qed.

Lemma clear_bitmap n b : Z.of_nat n ≤ BSIZE * 8 → 0 ≤ b → clear (bitmap n) b = negb (b <? Z.of_nat n).
Proof.
  intros Hn Hb. induction n as [|n IH].
  - rewrite (proj2 (Z.ltb_ge _ _)) by lia. apply clear_zeroes.
  - rewrite bitmap_S, clear_bit_set, IH by (rewrite ?length_bitmap; unfold BSIZE in *; lia).
    case_decide; [|destruct (Z.ltb_spec b (Z.of_nat n))]; destruct (Z.ltb_spec b (Z.of_nat (S n))); done || lia.
Qed.

Lemma balloc_ok m used :
  m.(m_sb) = layout → length m.(m_img) = Z.to_nat FSSIZE → 0 ≤ used < BSIZE * 8 →
  ∃ m', balloc used m = Done tt m' ∧ m'.(m_img) = <[45%nat := bitmap (Z.to_nat used)]> m.(m_img).
Proof.
  intros Hs Hl Hu. unfold balloc, print. rewrite (bind_Done (modify _) _ m tt _ eq_refl).
  rewrite (proj2 (Z.ltb_lt _ _)) by lia. rewrite (bind_Done (assert true) _ _ tt _ eq_refl).
  rewrite (bind_Done (gets m_sb) _ _ _ _ eq_refl). cbn [m_sb set_out]. rewrite Hs.
  rewrite (bind_Done (modify _) _ _ tt _ eq_refl). cbn [layout sb_bmapstart].
  rewrite wsect_ok by (done || (unfold FSSIZE; lia)). eexists. split; [done|]. done.
Qed.

(** ** What the kernel reads *)

Definition no_inode : inode := mk_inode 0 0 0 false 0 0 0 0 0 [].

(** [ilock]'s load of an inode, with the super block of the image *)
Definition inode_at (img : list (list Z)) (inum : Z) : option inode :=
  s ← img !! 1%nat;
  d ← blk img (IBLOCK inum (sb_decode s));
  Some (dinode_load (dinode_off inum) d no_inode).

(** [bmap] on the image *)
Definition addr_at (img : list (list Z)) (ip : inode) (bn : nat) : option Z :=
  if (bn <? NDIRECT)%nat then ip.(i_addrs) !! bn else
  ind ← ip.(i_addrs) !! NDIRECT;
  d ← blk img ind;
  Some (get_le 4 (4 * (bn - NDIRECT)) d).

(** [readi] of the first [n] bytes *)
Definition read_at (img : list (list Z)) (ip : inode) (n : nat) : option (list Z) :=
  bs ← mapM (λ bn, a ← addr_at img ip bn; blk img a) (seq 0 (Z.to_nat (nblk (Z.of_nat n))));
  Some (take n (mjoin bs)).

Lemma sb_decode_layout : sb_decode sb_block = layout.
Proof. unfold sb_block, sb_bytes. cbn [fmap list_fmap]. rewrite !host_bytes_le by done. vm_compute. reflexivity. Qed.

Lemma inode_at_slot img inum ip :
  img !! 1%nat = Some sb_block → 0 ≤ inum < NINODES → slot img inum = Some ip →
  inode_at img inum = Some (mk_inode 0 0 0 false (s16 ip.(d_type)) (s16 ip.(d_major)) (s16 ip.(d_minor)) (s16 ip.(d_nlink)) ip.(d_size) ip.(d_addrs)).
Proof.
  intros Hs Hi Hip. unfold inode_at. rewrite Hs. cbn [mbind option_bind]. rewrite sb_decode_layout.
  destruct (IBLOCK_layout inum Hi) as [-> _]. unfold slot in Hip. apply fmap_Some in Hip as (c & -> & ->).
  cbn [mbind option_bind]. f_equal. unfold dinode_load, dinode_get. cbn [d_type d_major d_minor d_nlink d_size d_addrs no_inode i_dev i_inum i_ref i_valid].
  rewrite !host_get_le by done. f_equal. apply list_fmap_ext. intros. by rewrite host_get_le.
Qed.

Lemma addr_at_file img fb f ip k b :
  data_ok img f → room_ok img fb f → ip.(i_addrs) = g_addrs f → f.(g_blocks) !! k = Some b → addr_at img ip k = Some b.
Proof.
  intros Hf Hr Ha Hk. pose proof (lookup_lt_Some _ _ _ Hk) as Lk. unfold addr_at. rewrite Ha.
  destruct (Nat.ltb_spec k NDIRECT) as [Hd|Hd]; [by rewrite addrs_direct, Hk|].
  pose proof (fo_ind _ _ Hf) as Li. rewrite (proj2 (Nat.ltb_lt _ _)) in Li by lia.
  destruct f.(g_ind) as [|y [|]] eqn:Hy; try done.
  rewrite addrs_ind, Hy. cbn [head default from_option id mbind option_bind].
  rewrite (fo_table _ _ Hf y) by (rewrite Hy; by left). cbn [mbind option_bind].
  assert (Z.of_nat (length f.(g_blocks)) ≤ MAXFILE) by (rewrite (fo_blocks _ _ Hf); pose proof (fo_max _ _ Hf); unfold nblk, MAXFILE, BSIZE in *; lia).
  rewrite table_get; [|unfold MAXFILE, NINDIRECT, NDIRECT in *; lia|].
  - rewrite lookup_drop. replace (NDIRECT + (k - NDIRECT))%nat with k by lia. by rewrite Hk.
  - apply Forall_forall. intros x Hx. pose proof (ro_fb _ _ _ Hr). unfold FSSIZE in *. destruct (ro_owned _ _ _ Hr x) as [H1 H2]; [|lia].
    apply elem_of_app. left. rewrite <-(take_drop NDIRECT f.(g_blocks)). apply elem_of_app. by right.
Qed.

Lemma read_at_file img fb f ip n :
  data_ok img f → room_ok img fb f → ip.(i_addrs) = g_addrs f → nblk (Z.of_nat n) ≤ Z.of_nat (length f.(g_blocks)) →
  read_at img ip n = Some (padded f.(g_data) n).
Proof.
  intros Hf Hr Ha Hn. unfold read_at. rewrite (mapM_Some_fmap _ (block_of f.(g_data))).
  - cbn [mbind option_bind]. rewrite join_blocks. unfold padded. rewrite <-fmap_take, take_seq, Nat.min_l; [done|].
    unfold nblk, BSIZE. lia.
  - intros k Hk. apply elem_of_seq in Hk. destruct (lookup_lt_is_Some_2 f.(g_blocks) k) as [b Hb]; [lia|].
    rewrite (addr_at_file _ _ _ _ _ _ Hf Hr Ha Hb). cbn [mbind option_bind]. by apply (fo_data _ _ Hf).
Qed.

(** ** The finished image *)

(** The size that [main] gives the root directory *)
Definition root_size (n : Z) : Z := (n / BSIZE + 1) * BSIZE.

(** Inode [inum] is a file of this type and size, and its first bytes are [data]. *)
Definition reads (img : list (list Z)) (inum ty size : Z) (data : list Z) : Prop :=
  ∃ ip, inode_at img inum = Some ip ∧ ip.(i_type) = ty ∧ ip.(i_nlink) = 1 ∧ ip.(i_size) = size ∧
    read_at img ip (length data) = Some data.

(** The address of block [k] of inode [inum], when it holds some of its [n] bytes *)
Definition uses (img : list (list Z)) (inum : Z) (n : nat) (k : nat) (b : Z) : Prop :=
  Z.of_nat k < nblk (Z.of_nat n) ∧ ∃ ip, inode_at img inum = Some ip ∧ addr_at img ip k = Some b.

Section Finish.
Context (m : mkfs) (L : list gfile) (f0 : gfile).
Context (H : image_ok m L) (H0 : L !! 0%nat = Some f0).

Definition finished : list (list Z) :=
  <[45%nat := bitmap (Z.to_nat m.(m_freeblock))]> (put_inode 1 (din f0 (root_size (g_size f0))) m.(m_img)).

Lemma fb_range : 46 ≤ m.(m_freeblock) ≤ FSSIZE.
Proof. pose proof (im_fb _ _ H). pose proof (im_room _ _ H). pose proof (total_nonneg (cts L)). lia. Qed.

Lemma root_size_range : 0 ≤ root_size (g_size f0) < 2 ^ 32.
Proof.
  pose proof (fo_max _ _ (im_data _ _ H f0 (list_elem_of_lookup_2 _ _ _ H0))).
  unfold root_size, g_size, MAXFILE, BSIZE in *. lia.
Qed.

Lemma root_din_ok : dinode_ok (din f0 (root_size (g_size f0))).
Proof.
  apply (din_ok _ _ _ _ (image_room m L 0 f0 H H0)); [|apply root_size_range].
  apply (im_type _ _ H). by eapply list_elem_of_lookup_2.
Qed.

Lemma finish_runs :
  ∃ m', (fix_root 1;; freeblock ← gets m_freeblock; balloc (s32 freeblock);; mret 0) m = Done 0 m' ∧ m'.(m_img) = finished.
Proof.
  pose proof fb_range as Rf. assert (R1 : 0 ≤ 1 < NINODES) by (unfold NINODES; lia).
  assert (Rs : 0 ≤ g_size f0 < 2 ^ 32).
  { pose proof (fo_max _ _ (im_data _ _ H f0 (list_elem_of_lookup_2 _ _ _ H0))). unfold g_size, MAXFILE, BSIZE in *. lia. }
  pose proof root_size_range as Rr.
  assert (E : fix_root 1 m = Done tt (set_img (put_inode 1 (din f0 (root_size (g_size f0))) m.(m_img)) m)).
  { unfold fix_root. rewrite (bind_Done _ _ _ _ _ (rinode_ok m 1 _ (im_sb _ _ H) R1 (im_slot _ _ H 0 f0 H0))).
    cbn zeta. cbn [din d_size]. rewrite (xint_id Hle _ Rs). fold (root_size (g_size f0)).
    replace (u32 (root_size (g_size f0))) with (root_size (g_size f0)) by (unfold u32; lia). rewrite xint_id by done.
    apply winode_ok; [apply (im_sb _ _ H)|apply (im_length _ _ H)|done]. }
  rewrite (bind_Done _ _ _ _ _ E), (bind_Done (gets m_freeblock) _ _ _ _ eq_refl). cbn [m_freeblock set_img].
  replace (s32 m.(m_freeblock)) with m.(m_freeblock) by
    (rewrite <-(s32_small m.(m_freeblock)) at 1 by (unfold FSSIZE in *; lia); f_equal; unfold FSSIZE in *; lia).
  destruct (balloc_ok (set_img (put_inode 1 (din f0 (root_size (g_size f0))) m.(m_img)) m) m.(m_freeblock)) as (m' & E' & Hm').
  - apply (im_sb _ _ H).
  - cbn [m_img set_img]. rewrite length_put_inode. apply (im_length _ _ H).
  - unfold FSSIZE, BSIZE in *. lia.
  - rewrite (bind_Done _ _ _ _ _ E'). exists m'. by rewrite Hm'.
Qed.

Lemma length_finished : length finished = Z.to_nat FSSIZE.
Proof. unfold finished. rewrite length_insert, length_put_inode. apply (im_length _ _ H). Qed.

Lemma blk_finished b : 0 ≤ b → b ≠ 45 → b ≠ iblk 1 → blk finished b = blk m.(m_img) b.
Proof. intros Hb H1 H2. unfold finished. rewrite list_lookup_insert_ne by lia. apply put_inode_other; lia. Qed.

Lemma iblk_1 : iblk 1 = 32.
Proof. done. Qed.

Lemma finished_file f : f ∈ L → data_ok finished f ∧ room_ok finished m.(m_freeblock) f.
Proof.
  intros Hf. apply list_elem_of_lookup_1 in Hf as [i Hi]. pose proof (image_room m L i f H Hi) as Hr. pose proof fb_range. split.
  - apply (data_ok_frame m.(m_img)); [apply (im_data _ _ H); by eapply list_elem_of_lookup_2|].
    intros b Hb. pose proof (ro_owned _ _ _ Hr b Hb). apply blk_finished; rewrite ?iblk_1; lia.
  - destruct Hr as [R1 R2 R3 R4 R5]. split; [apply length_finished| |done|done|done].
    intros b Hb. rewrite blk_finished by (rewrite ?iblk_1; lia). by apply R2.
Qed.

Lemma finished_slot i f :
  L !! i = Some f →
  slot finished (Z.of_nat i + 1) = Some (din f (if (i =? 0)%nat then root_size (g_size f) else g_size f)).
Proof.
  intros Hi. assert (Hs : slot finished (Z.of_nat i + 1) = slot (put_inode 1 (din f0 (root_size (g_size f0))) m.(m_img)) (Z.of_nat i + 1)).
  { unfold slot, finished. rewrite list_lookup_insert_ne; [done|]. pose proof (iblk_range m L i f H Hi). lia. }
  rewrite Hs. destruct (im_iblock _ _ H (iblk 1)) as (c & Hc & Lc); [rewrite iblk_1; lia|]. destruct i as [|i].
  - assert (f = f0) as -> by congruence. cbn [Nat.eqb]. by apply (slot_put_same _ _ _ c); [apply root_din_ok|..].
  - cbn [Nat.eqb]. rewrite (slot_put_other _ _ _ _ c); [|apply root_din_ok|done|done|lia..]. by apply (im_slot _ _ H).
Qed.

Lemma finished_inode i f :
  L !! i = Some f →
  inode_at finished (Z.of_nat i + 1) = Some (mk_inode 0 0 0 false f.(g_type) 0 0 1 (if (i =? 0)%nat then root_size (g_size f) else g_size f) (g_addrs f)).
Proof.
  intros Hi. rewrite (inode_at_slot _ _ _) with (3 := finished_slot i f Hi).
  - cbn [din d_type d_major d_minor d_nlink d_size d_addrs]. do 2 f_equal.
    pose proof (im_type _ _ H f (list_elem_of_lookup_2 _ _ _ Hi)). rewrite <-(s16_small f.(g_type)) at 2 by lia. f_equal. lia.
  - change (blk finished 1 = Some sb_block). rewrite blk_finished by (rewrite ?iblk_1; lia). apply (im_meta _ _ H 1). lia.
  - apply (inum_range m L i f H Hi).
Qed.

Lemma finished_reads i f :
  L !! i = Some f →
  reads finished (Z.of_nat i + 1) f.(g_type) (if (i =? 0)%nat then root_size (g_size f) else g_size f) f.(g_data).
Proof.
  intros Hi. destruct (finished_file f (list_elem_of_lookup_2 _ _ _ Hi)) as [Hf Hr].
  eexists. split; [by apply finished_inode|]. split_and!; [done..|].
  rewrite (read_at_file _ _ _ _ _ Hf Hr) by (done || by rewrite (fo_blocks _ _ Hf)). by rewrite padded_same.
Qed.

Lemma finished_uses i f k b :
  L !! i = Some f → uses finished (Z.of_nat i + 1) (length f.(g_data)) k b → f.(g_blocks) !! k = Some b.
Proof.
  intros Hi (Hk & ip & Hip & Hb). destruct (finished_file f (list_elem_of_lookup_2 _ _ _ Hi)) as [Hf Hr].
  destruct (lookup_lt_is_Some_2 f.(g_blocks) k) as [b' Hb']. { pose proof (fo_blocks _ _ Hf). unfold g_size in *. lia. }
  rewrite finished_inode with (f := f) in Hip by done. injection Hip as <-.
  erewrite addr_at_file in Hb by done. by injection Hb as <-.
Qed.

Lemma finished_disjoint i j f g k l b :
  L !! i = Some f → L !! j = Some g → f.(g_blocks) !! k = Some b → g.(g_blocks) !! l = Some b →
  i = j ∧ k = l ∧ 46 ≤ b < m.(m_freeblock).
Proof.
  intros Hi Hj Hk Hl. assert (Of : b ∈ owned f) by (apply elem_of_app; left; by eapply list_elem_of_lookup_2).
  assert (Og : b ∈ owned g) by (apply elem_of_app; left; by eapply list_elem_of_lookup_2).
  destruct (decide (i = j)) as [<-|Hne]; [|by destruct (owned_disjoint L i j f g b (im_nodup _ _ H) Hi Hj Hne Of)].
  split; [done|]. assert (f = g) as <- by congruence. split; [|apply (im_owned _ _ H); by eapply elem_of_owned_blocks].
  pose proof (nodup_owned L i f (im_nodup _ _ H) Hi) as [ND _]%NoDup_app. by apply (NoDup_lookup _ _ _ _ ND Hk).
Qed.
End Finish.

(** ** The whole program *)

Definition root_data (args : list (list Z)) : list Z :=
  dirent 1 (chars ".") ++ dirent 1 (chars "..") ++ entries 2 args.

(** The files of the image, by inode number from 1 *)
Definition image_files (args : list (list Z)) : list (Z * list Z) := (T_DIR, root_data args) :: stored args.

Lemma main_formats out args :
  img_opens = true →
  main (chars "mkfs" :: out :: args) mkfs_start =
    (rootino ← ialloc T_DIR;
     assert (rootino =? ROOTINO);;
     iappend rootino (dirent (xshort rootino) (chars "."));;
     iappend rootino (dirent (xshort rootino) (chars ".."));;
     for_each args (add_file rootino);;
     fix_root rootino;;
     freeblock ← gets m_freeblock;
     balloc (s32 freeblock);;
     mret 0) formatted.
Proof.
  intros Ho. unfold main. change (length (chars "mkfs" :: out :: args) <? 2)%nat with false. cbv iota. rewrite Ho. cbn [negb].
  change (BSIZE mod Z.of_nat dinode_size =? 0) with true. change (BSIZE mod dirent_size =? 0) with true.
  do 2 rewrite (bind_Done (assert true) _ mkfs_start tt mkfs_start eq_refl). unfold print.
  do 4 rewrite (bind_Done (modify _) _ _ tt _ eq_refl). cbn [drop].
  rewrite !xint_id by (done || (vm_compute; split; [discriminate|reflexivity])).
  erewrite (bind_Done (for_each _ _)) by (apply (zero_loop (Z.to_nat FSSIZE) 0); done).
  rewrite (bind_Done (gets m_sb) _ _ _ _ eq_refl).
  erewrite (bind_Done (wsect 1 _)) by (apply wsect_ok; [done|unfold FSSIZE; lia|apply length_replicate]). done.
Qed.

Lemma length_root_data args : length (root_data args) = (32 + 16 * length args)%nat.
Proof. unfold root_data. rewrite !length_app, !length_dirent, length_entries. lia. Qed.

(** The image before the root directory's size and the bitmap are written *)
Lemma main_holds out args :
  img_opens = true → Forall arg_ok args → Z.of_nat (length args) + 2 ≤ NINODES →
  total (image_files args) ≤ FSSIZE - 46 →
  ∃ m, holds m (image_files args) ∧
    main (chars "mkfs" :: out :: args) mkfs_start =
      (fix_root 1;; freeblock ← gets m_freeblock; balloc (s32 freeblock);; mret 0) m.
Proof.
  intros Ho Hok Hn Ht. rewrite main_formats by done.
  assert (Hfit : ∀ d, (length d ≤ length (root_data args))%nat → total [(T_DIR, d)] ≤ FSSIZE - 46).
  { intros d Hd. unfold image_files in Ht. rewrite total_cons in *. pose proof (total_nonneg (stored args)). cbn [snd] in *.
    pose proof (cost_mono (Z.of_nat (length d)) (Z.of_nat (length (root_data args))) ltac:(lia)). change (total []) with 0. lia. }
  rewrite length_root_data in Hfit.
  destruct (ialloc_holds formatted [] T_DIR) as (m1 & E1 & H1); [exists []; split; [apply formatted_ok|done]|unfold NINODES; simpl; lia|unfold T_DIR; lia|].
  rewrite (bind_Done _ _ _ _ _ E1). change (1 + Z.of_nat (length [])) with 1. change (1 =? ROOTINO) with true.
  rewrite (bind_Done (assert true) _ m1 tt m1 eq_refl), xshort_id by done.
  destruct (iappend_holds m1 _ 0 T_DIR [] (dirent 1 (chars ".")) H1 eq_refl) as (m2 & E2 & H2).
  { rewrite length_dirent. unfold MAXFILE, BSIZE. simpl. lia. }
  { apply Hfit. cbn [app]. rewrite length_dirent. lia. }
  change (Z.of_nat 0 + 1) with 1 in *. rewrite (bind_Done _ _ _ _ _ E2).
  destruct (iappend_holds m2 _ 0 T_DIR (dirent 1 (chars ".")) (dirent 1 (chars "..")) H2 eq_refl) as (m3 & E3 & H3).
  { rewrite !length_dirent. unfold MAXFILE, BSIZE. simpl. lia. }
  { apply Hfit. rewrite length_app, !length_dirent. lia. }
  change (Z.of_nat 0 + 1) with 1 in *. rewrite (bind_Done _ _ _ _ _ E3).
  destruct (files_hold args m3 (dirent 1 (chars ".") ++ dirent 1 (chars "..")) [] H3 Hok) as (m4 & E4 & H4).
  - simpl. lia.
  - rewrite length_app, !length_dirent. unfold max_size, MAXFILE, BSIZE, NINODES in *. lia.
  - cbn [length app]. change (Z.of_nat 0 + 2) with 2. rewrite <-app_assoc. exact Ht.
  - rewrite (bind_Done _ _ _ _ _ E4). exists m4. split; [|done]. cbn [length app] in H4. change (Z.of_nat 0 + 2) with 2 in H4. by rewrite <-app_assoc in H4.
Qed.

(** C6: The image that [mkfs] writes.  On a little-endian host, given files that
    fit, [mkfs] exits with status 0, and what the kernel's decoding reads from the
    image is: the super block of the layout and an empty log; a root directory
    whose entries are [.], [..] and the files by name, in order; every file, at the
    inode of its entry, with exactly its bytes, in whatever pieces the host read
    them; a bitmap that marks exactly the blocks before the first free one; and no
    block is used twice, or used and not marked. *)
Theorem mkfs_image out args :
  img_opens = true → Forall arg_ok args → Z.of_nat (length args) + 2 ≤ NINODES →
  total (image_files args) ≤ FSSIZE - 46 →
  ∃ m, main (chars "mkfs" :: out :: args) mkfs_start = Done 0 m ∧
    let img := m.(m_img) in
    let fb := 46 + total (image_files args) in
    length img = Z.to_nat FSSIZE ∧ sb_decode <$> img !! 1%nat = Some layout ∧ img !! 2%nat = Some zeroes ∧
    reads img ROOTINO T_DIR (root_size (Z.of_nat (length (root_data args)))) (root_data args) ∧
    (∀ i arg, args !! i = Some arg →
       reads img (Z.of_nat i + 2) T_FILE (Z.of_nat (length (contents_of arg))) (contents_of arg)) ∧
    (∃ d, img !! 45%nat = Some d ∧ ∀ b, 0 ≤ b < FSSIZE → clear d b = negb (b <? fb)) ∧
    (∀ i j x y k l b, image_files args !! i = Some x → image_files args !! j = Some y →
       uses img (Z.of_nat i + 1) (length x.2) k b → uses img (Z.of_nat j + 1) (length y.2) l b →
       i = j ∧ k = l ∧ 46 ≤ b < fb).
Proof.
  intros Ho Hok Hn Ht. destruct (main_holds out args Ho Hok Hn Ht) as (m & (L & H & HL) & E). rewrite E. clear E.
  assert (Hcts : ∀ i x, image_files args !! i = Some x → ∃ f, L !! i = Some f ∧ x = (f.(g_type), f.(g_data))).
  { intros i x Hx. rewrite <-HL in Hx. unfold cts in Hx. rewrite list_lookup_fmap in Hx. apply fmap_Some in Hx as (f & Hf & ->). eauto. }
  destruct (Hcts 0%nat _ eq_refl) as (f0 & H0 & E0). destruct (finish_runs m L f0 H H0) as (m' & E & Hm').
  exists m'. split; [exact E|]. cbv zeta. rewrite Hm'. clear E Hm'. pose proof (fb_range m L H) as Rf.
  assert (Hfb : 46 + total (image_files args) = m.(m_freeblock)) by (rewrite <-HL; symmetry; apply (im_fb _ _ H)). rewrite Hfb.
  split_and!.
  - by apply (length_finished m L f0).
  - change (sb_decode <$> blk (finished m f0) 1 = Some layout). rewrite blk_finished, (im_meta _ _ H 1) by (rewrite ?iblk_1; lia).
    cbn [fmap option_fmap option_map Z.eqb Pos.eqb]. by rewrite sb_decode_layout.
  - change (blk (finished m f0) 2 = Some zeroes). rewrite blk_finished, (im_meta _ _ H 2) by (rewrite ?iblk_1; lia). done.
  - injection E0 as -> ->. exact (finished_reads m L f0 H H0 0 f0 H0).
  - intros i arg Hi. destruct (Hcts (S i) (T_FILE, contents_of arg)) as (f & Hf & [= -> ->]).
    { change (stored args !! i = Some (T_FILE, contents_of arg)). unfold stored. by rewrite list_lookup_fmap, Hi. }
    replace (Z.of_nat i + 2) with (Z.of_nat (S i) + 1) by lia. exact (finished_reads m L f0 H H0 (S i) f Hf).
  - eexists. split; [apply list_lookup_insert_eq; rewrite length_put_inode, (im_length _ _ H); unfold FSSIZE; lia|].
    intros b Hb. rewrite clear_bitmap by (unfold FSSIZE, BSIZE in *; lia). by rewrite Z2Nat.id by lia.
  - intros i j x y k l b Hi Hj Ui Uj. destruct (Hcts i x Hi) as (f & Hf & ->). destruct (Hcts j y Hj) as (g & Hg & ->).
    eapply (finished_disjoint m L H); [done|done|by eapply (finished_uses m L f0)|by eapply (finished_uses m L f0)].
Qed.
End Image.

(** A host with one program and one text, which it reads in two pieces *)
Definition demo_host : Host :=
  mk_host false (λ p, if bool_decide (p = chars "user/_cat") then Some [replicate 1024 7; replicate 50 8]
                      else if bool_decide (p = chars "README") then Some [chars "text"] else None)
    true (Z.to_nat FSSIZE).

Lemma mkfs_image_witness :
  let args := [chars "README"; chars "user/_cat"] in
  ∃ m, @main demo_host (chars "mkfs" :: chars "fs.img" :: args) mkfs_start = Done 0 m ∧
    reads m.(m_img) 3 T_FILE 1074 (replicate 1024 7 ++ replicate 50 8).
Proof.
  intros args. destruct (@mkfs_image demo_host eq_refl (Nat.le_refl _) (chars "fs.img") args eq_refl) as (m & E & _ & _ & _ & _ & Hf & _).
  - repeat constructor; try (eexists; vm_compute; reflexivity);
      try (apply (bool_decide_eq_true_1 _); vm_compute; reflexivity); vm_compute; discriminate.
  - vm_compute. discriminate.
  - vm_compute. discriminate.
  - exists m. split; [exact E|]. exact (Hf 1%nat _ eq_refl).
Defined.

(** ** Limits *)

(** On a big-endian host the magic number, which is not converted, is reversed in
    the image. *)
Lemma big_endian_magic {HO : Host} sb :
  big_endian = true → (sb_decode (splice 0 (sb_bytes (set_sb_magic FSMAGIC sb)) zeroes)).(sb_magic) = 0x40302010.
Proof.
  intros Hb. unfold sb_bytes. cbn [fmap list_fmap mjoin list_join set_sb_magic sb_magic]. unfold host_bytes at 1. rewrite Hb.
  unfold sb_decode, splice. cbn [sb_magic take app]. unfold get_le. rewrite drop_0. vm_compute. reflexivity.
Qed.

(** A root directory that fills its blocks exactly gets the size of one more
    block, which it does not have. *)
Lemma root_size_overshoots n : n mod BSIZE = 0 → nblk (root_size n) = nblk n + 1.
Proof. unfold nblk, root_size, BSIZE. lia. Qed.

(** Inode 208 would be in the block of the bitmap: nothing bounds the number of
    inodes that are allocated. *)
Lemma inode_208 : IBLOCK 208 layout = layout.(sb_bmapstart).
Proof. done. Qed.
