(* ===== verification/MkfsBoot.v ===== *)
(** * From [mkfs] to [readi]

    The kernel running on the image that [mkfs] wrote: the inode that [ilock]
    loads for a file and the bytes that [readi] returns. *)

From Stdlib Require Import Ascii.
From S2P Require Import Prelude State Spinlock Cstring Riscv Kalloc Vm Proc ProcFacts Sleeplock.
From S2P Require Import Quiet Bio BioFacts BioSpec Log LogFacts LogSpec Fs FsFacts InodeFacts FileFacts.
From S2P Require Import Ulib Mkfs MkfsFacts MkfsSpec.

(** The contents of the disk made of an image *)
Definition disk_of (img : list (list Z)) (n : Z) : list Z := default zeroes (blk img n).

Section Boot.
Context {HO : Host} (Hle : big_endian = false) (Hroom : (Z.to_nat FSSIZE ≤ img_room)%nat).

(** What [ilock] loads *)
Lemma load_slot img inum ip y :
  slot img inum = Some ip →
  dinode_load (dinode_off inum) (disk_of img (iblk inum)) y =
    mk_inode y.(i_dev) y.(i_inum) y.(i_ref) y.(i_valid) (s16 ip.(d_type)) (s16 ip.(d_major)) (s16 ip.(d_minor))
      (s16 ip.(d_nlink)) ip.(d_size) ip.(d_addrs).
Proof.
  unfold slot, disk_of. intros (c & -> & ->)%fmap_Some. cbn [default from_option id]. unfold dinode_load, dinode_get.
  cbn [d_type d_major d_minor d_nlink d_size d_addrs]. rewrite !host_get_le by done. f_equal.
  apply list_fmap_ext. intros. by rewrite host_get_le.
Qed.

Section File.
Context (img : list (list Z)) (fb : Z) (f : gfile) (F : Z → list Z) (x : inode).
Context (Hf : data_ok img f) (Hr : room_ok img fb f) (Hx : x.(i_addrs) = g_addrs f).
Context (HF : ∀ n, 0 ≤ n < FSSIZE → F n = disk_of img n).

Lemma owned_F b c : b ∈ owned f → blk img b = Some c → F b = c.
Proof.
  intros Hb Hc. pose proof (ro_owned _ _ _ Hr b Hb). pose proof (ro_fb _ _ _ Hr).
  rewrite HF by lia. unfold disk_of. by rewrite Hc.
Qed.

Lemma file_addr_block k b : f.(g_blocks) !! k = Some b → file_addr F x (Z.of_nat k) = b.
Proof.
  intros Hk. pose proof (addr_at_file Hroom img fb f x k b Hf Hr Hx Hk) as Ha. unfold addr_at in Ha.
  unfold file_addr. destruct (Nat.ltb_spec k NDIRECT) as [Hd|Hd].
  - rewrite (proj2 (Z.ltb_lt _ _)), Nat2Z.id, Ha by lia. done.
  - rewrite (proj2 (Z.ltb_ge _ _)) by lia. rewrite Hx in *. rewrite addrs_ind in *. cbn [mbind option_bind default from_option id] in *.
    pose proof (fo_ind _ _ Hf) as Li. rewrite (proj2 (Nat.ltb_lt _ _)) in Li by (apply lookup_lt_Some in Hk; lia).
    destruct f.(g_ind) as [|y [|]] eqn:Ey; try done. cbn [head default from_option id] in *.
    assert (Hy : y ∈ f.(g_ind)) by (rewrite Ey; by left).
    rewrite (owned_F y _ ltac:(apply elem_of_app; by right) (fo_table _ _ Hf y Hy)).
    rewrite (fo_table _ _ Hf y Hy) in Ha. cbn [mbind option_bind] in Ha. injection Ha as <-. do 2 f_equal. lia.
Qed.

Lemma image_mapped : mapped F x (g_size f).
Proof.
  pose proof (fo_blocks _ _ Hf) as Hb. split.
  - rewrite Hx. unfold g_addrs. by rewrite length_app, !length_pad.
  - apply (fo_max _ _ Hf).
  - intros bn H0 H1. destruct (lookup_lt_is_Some_2 f.(g_blocks) (Z.to_nat bn)) as [b Hk]; [unfold nblk, BSIZE in *; lia|].
    rewrite <-(Z2Nat.id bn) by done. rewrite (file_addr_block _ _ Hk).
    assert (b ∈ owned f) as Ho by (apply elem_of_app; left; by eapply list_elem_of_lookup_2).
    pose proof (ro_owned _ _ _ Hr b Ho). lia.
  - intros H1. rewrite Hx, addrs_ind. pose proof (fo_ind _ _ Hf) as Li.
    rewrite (proj2 (Nat.ltb_lt _ _)) in Li by (unfold nblk, BSIZE in *; lia).
    destruct f.(g_ind) as [|y [|]] eqn:Ey; try done. cbn [head default from_option id]. intros [= ->].
    assert (0 ∈ owned f) as Ho by (apply elem_of_app; right; rewrite Ey; by left). pose proof (ro_owned _ _ _ Hr 0 Ho). lia.
Qed.

Lemma image_bytes : file_bytes F x 0 (g_size f) = f.(g_data).
Proof.
  rewrite <-(padded_same f.(g_data)) at 1. unfold file_bytes, padded, g_size. rewrite Nat2Z.id. apply list_fmap_ext.
  intros i j Hj. apply lookup_seq in Hj as [-> Hj]. rewrite Z.add_0_l, Nat.add_0_l. unfold file_byte.
  pose proof (fo_blocks _ _ Hf) as Hb.
  destruct (lookup_lt_is_Some_2 f.(g_blocks) (Z.to_nat (Z.of_nat i / BSIZE))) as [b Hk]; [unfold nblk, g_size, BSIZE in *; lia|].
  rewrite <-(Z2Nat.id (Z.of_nat i / BSIZE)) by (unfold BSIZE; lia). rewrite (file_addr_block _ _ Hk).
  rewrite (owned_F b _ ltac:(apply elem_of_app; left; by eapply list_elem_of_lookup_2) (fo_data _ _ Hf _ _ Hk)).
  rewrite lookup_block_of by (unfold BSIZE; lia). cbn [default from_option id]. do 2 f_equal. unfold BSIZE. lia.
Qed.
End File.

(** What [ilock] and [readi] make of the finished image *)
Lemma finished_load m L f0 i f F y :
  image_ok m L → L !! 0%nat = Some f0 → L !! i = Some f → i ≠ 0%nat →
  (∀ n, 0 ≤ n < FSSIZE → F n = disk_of (finished m f0) n) →
  let inum := Z.of_nat i + 1 in
  let x := dinode_load (dinode_off inum) (F (IBLOCK inum layout)) y in
  x.(i_dev) = y.(i_dev) ∧ x.(i_type) = f.(g_type) ∧ x.(i_nlink) = 1 ∧ x.(i_size) = g_size f ∧ x.(i_addrs) = g_addrs f.
Proof.
  intros H H0 Hi Hne HF inum x. pose proof (inum_range Hroom m L i f H Hi) as Ri. destruct (IBLOCK_layout Hroom inum Ri) as [E R].
  unfold x. rewrite E, HF by (unfold FSSIZE; lia). rewrite (load_slot _ _ _ _ (finished_slot Hle Hroom m L f0 H H0 i f Hi)).
  destruct i as [|i]; [done|]. cbn [Nat.eqb din d_type d_nlink d_size d_addrs i_dev i_type i_nlink i_size i_addrs].
  pose proof (im_type _ _ H f (list_elem_of_lookup_2 _ _ _ Hi)). split_and!; [done| |done|done|done].
  rewrite <-(s16_small f.(g_type)) at 2 by lia. f_equal. lia.
Qed.

Context {HK : KernelImage} {WB : WaitBound} {BD : BlockDev} {BDok : BlockDevOk}.

End Boot.

(** ** A kernel on the image of the example *)

Definition image_disk (img : list (list Z)) : gmap Z (list Z) := list_to_map (zip (seqZ 0 (Z.of_nat (length img))) img).

Lemma image_disk_block img n : 0 ≤ n → disk_block (image_disk img) n = disk_of img n.
Proof.
  intros Hn. unfold disk_block, disk_of. f_equal. unfold image_disk.
  assert (Hfst : (zip (seqZ 0 (Z.of_nat (length img))) img).*1 = seqZ 0 (Z.of_nat (length img))) by (apply fst_zip; rewrite length_seqZ; lia).
  destruct (blk img n) as [c|] eqn:Hc.
  - apply elem_of_list_to_map_1; [rewrite Hfst; apply NoDup_seqZ|]. apply (list_elem_of_lookup_2 _ (Z.to_nat n)).
    apply lookup_zip_Some. split; [|done]. apply lookup_seqZ. apply lookup_lt_Some in Hc. lia.
  - apply not_elem_of_list_to_map_1. rewrite Hfst. intros [_ H]%elem_of_seqZ. apply lookup_ge_None in Hc. lia.
Qed.

Lemma image_disk_size img n : Forall (λ b, length b = Z.to_nat BSIZE) img → length (disk_block (image_disk img) n) = Z.to_nat BSIZE.
Proof.
  intros H. unfold disk_block. destruct (image_disk img !! n) as [c|] eqn:Hc; [|apply length_replicate].
  cbn [default from_option id]. apply elem_of_list_to_map_2 in Hc. apply elem_of_zip_r in Hc. by apply (proj1 (Forall_forall _ _) H).
Qed.

Definition demo_args : list (list Z) := [chars "README"; chars "user/_cat"].

Definition whole_blocks (o : outcome mkfs Z) : bool :=
  match o with Done _ m => forallb (λ b, length b =? Z.to_nat BSIZE)%nat m.(m_img) | _ => false end.

Lemma demo_blocks m :
  @main demo_host (chars "mkfs" :: chars "fs.img" :: demo_args) mkfs_start = Done 0 m →
  Forall (λ b, length b = Z.to_nat BSIZE) m.(m_img).
Proof.
  intros E. assert (H : whole_blocks (@main demo_host (chars "mkfs" :: chars "fs.img" :: demo_args) mkfs_start) = true)
    by (vm_compute; reflexivity).
  rewrite E in H. cbn [whole_blocks] in H. rewrite forallb_forall in H.
  apply Forall_forall. intros b Hb. apply Nat.eqb_eq, H. by apply list_elem_of_In.
Qed.

